(* ===== verification/_CoqProject ===== *)
-Q . S2P
Prelude.v
Mem.v
StringC.v
Printfmt.v
Console.v
KState.v
Pmap.v
PageAlloc.v
PageTable.v
Mapping.v
Spinlock.v
Time.v
UserMem.v
Env.v
Sched.v
E1000.v
Syscall.v
Trap.v
Pipe.v
Bc.v
Fs.v
FsView.v
FsSpec.v
FsIO.v
FsServ.v
FsRW.v
FsRefine.v
FsExample.v
Malloc.v
Args.v
Fork.v
ForkSpec.v
ForkCopy.v
Shell.v
Fd.v
FdSpec.v
Stdio.v
Threads.v
SysArch.v
File.v
MpConfig.v
Spawn.v
SpawnSpec.v
SpawnExample.v
Boot.v
NetServ.v
Sock.v
SockSpec.v
FsInit.v
Fsformat.v
FsformatSpec.v
FsformatRun.v
FsformatImage.v
FsDir.v
FsCreate.v
FsformatMount.v
FsformatOpen.v
