(* ===== verification/Prelude.v ===== *)
(** * JOS: a verification development of the JOS kernel and its libraries

    ** The program

    JOS is an exokernel-style teaching operating system for x86-64.  The tree
    modelled is src/JOS-with-network; src/JOS-with-file-system is the same system
    one stage earlier.  The kernel (kern/) owns physical pages, four-level page
    tables, environments (processes), CPUs behind one kernel lock, traps and
    system calls, the console and an E1000 network card.  User environments run
    on a library (lib/) that implements strings, formatted output, memory
    allocation, argument parsing, pipes, file descriptors and fork; the file server
    (fs/) and the network server (net/) are environments too.

    The parts interact through one kernel state.  A trap enters [Trap.trap],
    which takes the kernel lock ([Spinlock]), stores the trap frame in the
    current environment and dispatches: to the page-fault handler, to
    [Syscall.syscall], or to the scheduler.  System calls use the environment
    table ([Env]) and the address-space operations ([Pmap]); those use the page
    allocator.  Everything that resumes user code ends in [Env.env_run].  The file
    server ([FsServ.serve]) takes requests by message and answers them with the
    file operations of [Fs], which see the disk through a cache of mapped blocks
    filled on page faults ([Bc]).

    ** Files

    Prelude     machine integers, the state/error monad [M], its weakest
                precondition [wpx], loops, and tactics; hint database [jos].
    Mem         byte memory, little-endian loads and stores.
    StringC     lib/string.c.
    Printfmt    lib/printfmt.c, inc/error.h.
    Console     kern/console.c: screen, keyboard, the input ring.
    KState      the data of the kernel: constants and structs of inc/ and kern/
                headers, and the record [kst] with all its global variables.
    Pmap        kern/pmap.c and kern/pmap.h: the operations.
    PageAlloc   theorems on page_init, page_alloc, page_free.
    PageTable   what a tree of page tables means, and the invariant [pt_inv].
    Mapping     theorems on page_lookup, page_insert, page_remove,
                user_mem_check.
    Spinlock    kern/spinlock.c, for one kernel path and for all CPUs at once.
    Time        kern/time.c.
    UserMem     kernel accesses to user memory through the page tables.
    Env         kern/env.c.
    Sched       kern/sched.c, env_destroy, user_mem_assert.
    E1000       kern/e1000.c.
    Syscall     kern/syscall.c: every handler and the dispatcher.
    Trap        kern/trap.c.
    Pipe        lib/pipe.c.
    Bc          fs/bc.c, fs/ide.c, and the free-block test of fs/fs.c: memory of the
                file server, in which a load or store of a block may fault.
    Fs          fs/fs.c: bitmap, file blocks, directories, reading and writing;
                coherence of the cache.
    FsView      what the cache and the disk together mean ([view]), and that
                loads, stores and faults respect it.
    FsSpec      theorems on block allocation and on the blocks of a file.
    FsIO        the loop shared by file_read and file_write.
    FsServ      fs/serv.c: the open-file table, the request handlers, serve.
    FsRW        theorems on file_read and file_write.
    FsRefine    the abstract file server, and that serve implements it.
    FsExample   a disk and a server on which the theorems above apply.
    Malloc      lib/malloc.c.
    Args        lib/args.c.
    Fork        lib/fork.c, over the mappings of environments.
    ForkSpec    page faults and writes: each environment's pages are its own.
    ForkCopy    fork copies the address space.
    Shell       the command line of user/sh.c.
    Fd          lib/fd.c, and pipe() of lib/pipe.c, over the mappings of Fork.
    FdSpec      what pipe() and dup() do to the descriptor table.
    Stdio       lib/printf.c, lib/fprintf.c, lib/readline.c.
    Threads     net/lwip/jos/arch/threadq.h, thread.c: cooperative threads.
    SysArch     net/lwip/jos/arch/sys_arch.c: semaphores and mailboxes over them.
    File        lib/file.c, the client of the file server, over [FsServ.serve].
    MpConfig    kern/mpconfig.c.
    Spawn       lib/spawn.c, over the mappings of Fork and the descriptors of Fd.
    SpawnSpec   what spawn() makes of a program; the interface [FileDev] of the
                device that the program is read from.
    SpawnExample  a file system in memory, a program, and spawn() on it.
    Boot        boot/main.c.
    NetServ     net/serv.c and net/lwip/jos/jif/jif.c: requests to the network
                server, and packets.
    Sock        lib/ipc.c, lib/nsipc.c, lib/sockets.c, lib/pageref.c: the client
                of the network server, over the descriptors of Fd.
    SockSpec    what the socket calls send and deliver.
    FsInit      start-up of the file server: fs_init, bc_init, check_bc.
    Fsformat    fs/fsformat.c, the program that makes a disk image.
    FsformatSpec, FsformatRun, FsformatImage  its steps, its loop over the
                arguments, and the finished image.
    FsDir       looking up names and paths in the directories of the file server.
    FsCreate    creating files.
    FsformatMount  the image, mounted by [FsInit.fs_init], holds the files.
    FsformatOpen   and file_open finds them by their paths.

    Definitions have the names of the C functions.  A file that holds a component
    has its data and operations first, then its lemmas, its properties (with the
    ids C1, C2, ...), and instances.

    ** How the code is represented

    Integers are [Z] with the wrap-around of their C type written out ([u8] ..
    [u64], [i32], [i64]).  Memory is a map of pages of bytes; an absent byte is 0.
    Physical addresses index it directly; a kernel virtual address is the
    physical one plus KERNBASE, checked by [kaddr_ok], and user addresses go
    through the page tables ([UserMem.translate]: a store needs the write bit at
    every level, because CR0_WP is set).  [struct PageInfo *] and
    [struct Env *] are indices into [pages] and [envs], [None] for NULL.  Kernel
    code runs in [KState.K]: a run returns, panics (panic, failed assert, NULL
    dereference), or leaves the kernel ([ToUser], [Halted], [InMonitor],
    [Spinning]).  A static local variable is a field of the state.  TLB flushes,
    CR3 loads and messages are events of [trace].

    Loops are [for_range]/[for_each], bounded by the code's own bounds, or
    fixpoints with fuel: [num_fuel] (65) covers the 64 digits of a number in
    base two; user_mem_check has the number of pages from the first to the last,
    or to ULIM where it stops; mmio_map_region and boot_map_region the pages of
    the size; the scans of lib/string.c take a fuel argument, and their theorems
    ask for more than the length of the string.  vprintfmt takes one unit of fuel
    per character or directive.  [Fs.loop_fuel] is the number of blocks that the
    range touches; [Malloc.NPAGES] the pages of the arena, [CHUNK_PAGES] the
    pages of the largest chunk; the search of malloc has 2^[Malloc.SEARCH_POW]
    rounds, more than the 2^52 pages of the address space and two passes of the arena;
    [Fork.FORK_FUEL] the pages from UTEXT to the stack;
    [Boot.SEG_FUEL] the sectors of 4 GB.  Running out of fuel is a
    panic, and the theorems say that these runs return.

    The file server's memory is one [mem] with sets of mapped and dirty blocks;
    every load and store of a block goes through the fault handler ([Bc.touch]).
    The handler of src/JOS-with-network holds two bodies, one after the other, and
    the first panics on a page that is not mapped ([Bc.bc_pgfault_merged],
    [Bc.merged_panics]); the development follows the handler of
    src/JOS-with-file-system ([Bc.bc_pgfault]), which is the second body alone.

    fork is modelled over a map from environment and page to frame and
    permissions, with one frame charged for each lowest-level table; fork's own
    writes to its stack, which copy that page early, are not modelled.

    The threads of the network server switch by jos_setjmp and jos_longjmp, which
    [Threads] models as saving and restoring a context of any type; [SysArch] takes
    control points for contexts, so that one step of its relation is what a thread
    does between two points where it may lose the processor.  The clock is a
    function of the number of readings; the results of malloc are arguments, with
    the hypothesis that they are new.  [File] runs client and server in turn, and
    copies the bytes of the one physical page they share when control passes; the
    devices of the client's table other than files are an argument.

    A pipe starts with whatever positions its page holds, since pipe() does not set
    them and pages are not cleared: [Pipe.pipe_fifo] asks for equal positions, and
    [Pipe.pipe_page_not_cleared] is what another page does.  The shell's runcmd
    runs over a record of the calls it makes ([Shell.Sys]), which may fail.

    fsformat runs on the host: the answers of open, fstat and read, the number that
    strtol reads and the addresses that mmap and malloc give are arguments of
    [Fsformat.fsformat_main].  The memory that malloc gives holds anything.

    Parameters: [Pmap.KImage] and [E1000.NicImage] are the addresses the linker
    chose; the monitor is an argument of [trap].  spawn() is given the results of
    opening the program and of the system calls that make and start the child, and
    reads through a device with the laws of [SpawnSpec.FileDev].  The boot loader
    reads a disk, a function of drive, sector and byte, at the sector its ports name.
    lwIP is not modelled: the steps of [NetServ] have the results of its calls, and
    the bytes they write, as arguments; [Sock] has the exchange with the server
    ([net]) as a parameter, which [SockSpec] instantiates with a server that calls
    an lwIP given as a function.  The page walk of the MMU
    ([UserMem.hw_walk]) and the card's transmit side ([E1000.hw_send]) follow the
    hardware manuals.

    ** Theorems

    Physical memory: page_init builds the free list of the memory map; page_alloc
    and page_free keep it and undo each other.  Address spaces: a walk keeps
    every translation; page_insert changes one, moves the reference counts and
    flushes; user_mem_check is exact on the ranges its arithmetic covers, and
    the gaps are shown.  Environments: env_alloc on every branch, the uniqueness
    of ids, the authority check of envid2env.  Scheduling: round-robin on every
    branch, no starvation, and the case in which an environment runs twice.
    Locking: mutual exclusion and exactness of the holding checks in every
    interleaving.  System calls: page allocation and message sending on every
    branch.  Traps: page faults reflected to user code, and that no trap
    returns.  Devices: FIFO of the console input, of the transmit ring and of
    pipes under interleaving; screen bounds; the clock.  Library: memmove,
    memset, strcmp, strstr, strlcpy, printnum, strtol after printf, vsnprintf;
    the safety of the heap and that malloc returns; argument parsing against the
    grammar of inc/args.h; fork makes separate memories; spawn() starts the
    program that its file holds; pipe() and dup() on every branch; the shell's
    command line against a reference grammar, its failing calls included; fprintf and
    readline against references over lists.  Network server: the thread queues are
    well formed and no pointer dangles, yielding is round-robin, mailboxes are FIFO
    queues under interleaving, no wake-up is lost and no assertion fails;
    every request is served once, for the client that sent it, with the arguments
    it sent; a packet sent and received is the same packet.  Start-up: the boot
    loader puts the kernel where its headers say; the processor table against a
    reference.  File system: the cache
    is coherent with the disk, block allocation, the open-file table, and the
    server refines a table of byte strings with offsets; write() and the loop of
    copy() of the client do to that table what they promise; mounting a good disk
    keeps it and gives the state these theorems start from, and the disk that
    fsformat makes is such a disk, on which each file that it was given is opened by
    its path and has its contents; paths are walked as their elements say; a new file
    takes the first free entry of its directory and is on the disk.  Sockets: what the
    client of the network server asks is what the server does ([Sock.serve_once]
    is one exchange with a server that decodes with [NetServ.decode]), reading
    and writing through a descriptor, and socket() on every branch.

    ** Not modelled

    The memory probes and x64_vm_init of pmap.c, port-level device
    initialisation, the monitor, interrupt-controller and PCI set-up, boot.S (port
    and MMIO sequences, assembly); lwIP and the DWARF reader (third party); user
    programs but the shell's command line; the disk probing of the file server; the
    start of the network server and its helper environments, which pass on
    messages.  The transfers of the IDE driver always succeed ([Bc.ide_read],
    [Bc.ide_write]); their callers panic when one fails.  nsipc and fsipc keep the
    id of the server in a static variable after the first call: the model looks it
    up again, or, in [File], calls the server. *)

From Stdlib Require Export ZArith Lia.
From stdpp Require Export base gmap list numbers option.

#[global] Set Default Goal Selector "!".
#[global] Open Scope Z_scope.

(** ** Machine integers

    A w-bit unsigned C integer is a [Z] in [0, 2^w); the conversions write the
    wrap-around out.  [i32]/[i64] are the two's complement reading. *)

Definition u8 (x : Z) : Z := x mod 2 ^ 8.
Definition u16 (x : Z) : Z := x mod 2 ^ 16.
Definition u32 (x : Z) : Z := x mod 2 ^ 32.
Definition u64 (x : Z) : Z := x mod 2 ^ 64.
Definition i32 (x : Z) : Z :=
  let y := x mod 2 ^ 32 in if y <? 2 ^ 31 then y else y - 2 ^ 32.
Definition i64 (x : Z) : Z :=
  let y := x mod 2 ^ 64 in if y <? 2 ^ 63 then y else y - 2 ^ 64.

(** C truth of an integer, and the bit tests [x & m]. *)
Definition truthy (x : Z) : bool := negb (x =? 0).

(** Spell out powers of two before calling [lia]. *)
Ltac pow2 :=
  change (2 ^ 8) with 256 in *; change (2 ^ 16) with 65536 in *;
  change (2 ^ 12) with 4096 in *; change (2 ^ 31) with 2147483648 in *;
  change (2 ^ 32) with 4294967296 in *;
  change (2 ^ 63) with 9223372036854775808 in *;
  change (2 ^ 64) with 18446744073709551616 in *.

Ltac zlia := pow2; Z.to_euclidean_division_equations; lia.

Lemma u8_id x : 0 ≤ x < 256 → u8 x = x.
Proof. intros. unfold u8. apply Z.mod_small. pow2; lia. Qed.

Lemma u16_id x : 0 ≤ x < 65536 → u16 x = x.
Proof. intros. unfold u16. apply Z.mod_small. pow2; lia. Qed.

Lemma u32_id x : 0 ≤ x < 4294967296 → u32 x = x.
Proof. intros. unfold u32. apply Z.mod_small. pow2; lia. Qed.

Lemma u64_id x : 0 ≤ x < 18446744073709551616 → u64 x = x.
Proof. intros. unfold u64. apply Z.mod_small. pow2; lia. Qed.

Lemma i32_id x : -2147483648 ≤ x < 2147483648 → i32 x = x.
Proof. intros. unfold i32. case_match; zlia. Qed.

Lemma i64_id x :
  -9223372036854775808 ≤ x < 9223372036854775808 → i64 x = x.
Proof. intros. unfold i64. case_match; zlia. Qed.

Lemma u64_range x : 0 ≤ u64 x < 18446744073709551616.
Proof. unfold u64. pow2. apply Z.mod_pos_bound. lia. Qed.

Lemma u32_range x : 0 ≤ u32 x < 4294967296.
Proof. unfold u32. pow2. apply Z.mod_pos_bound. lia. Qed.

(** ** Lookups with a default: arrays whose untouched cells read as zero *)

Definition getd {V} (d : V) (m : gmap Z V) (k : Z) : V := default d (m !! k).

Lemma getd_insert {V} (d : V) m k v j :
  getd d (<[k := v]> m) j = if decide (k = j) then v else getd d m j.
Proof. unfold getd. rewrite lookup_insert. by case_decide. Qed.

Lemma getd_insert_eq {V} (d : V) m k v : getd d (<[k := v]> m) k = v.
Proof. rewrite getd_insert. by rewrite decide_True. Qed.

Lemma getd_insert_ne {V} (d : V) m k v j :
  k ≠ j → getd d (<[k := v]> m) j = getd d m j.
Proof. intros. rewrite getd_insert. by rewrite decide_False. Qed.

Lemma getd_empty {V} (d : V) j : getd d (∅ : gmap Z V) j = d.
Proof. unfold getd. by rewrite lookup_empty. Qed.

(** ** The effect monad

    C code that reads and writes globals, may [panic], and may never return to
    its caller (it switches to user mode, or halts the CPU) is a function from
    the state to an [outcome]. *)

Inductive outcome (S X A : Type) : Type :=
  | Ret (a : A) (s : S)       (* the function returned [a] *)
  | Leave (x : X) (s : S)     (* control left for good, in the way [x] *)
  | Panic (s : S).            (* [panic], a failed [assert], or a fault *)
Arguments Ret {S X A} a s.
Arguments Leave {S X A} x s.
Arguments Panic {S X A} s.

Definition M (S X A : Type) : Type := S → outcome S X A.

#[global] Instance M_ret {S X} : MRet (M S X) := λ A a s, Ret a s.
#[global] Instance M_bind {S X} : MBind (M S X) :=
  λ A B k m s,
    match m s with
    | Ret a s' => k a s'
    | Leave x s' => Leave x s'
    | Panic s' => Panic s'
    end.

Section monad_ops.
Context {S X : Type}.

Definition get : M S X S := λ s, Ret s s.
Definition gets {A} (f : S → A) : M S X A := λ s, Ret (f s) s.
Definition modify (f : S → S) : M S X unit := λ s, Ret tt (f s).
Definition panic {A} : M S X A := λ s, Panic s.
Definition leave {A} (x : X) : M S X A := λ s, Leave x s.
Definition assert_ (b : bool) : M S X unit := if b then mret tt else panic.
Definition when (b : bool) (m : M S X unit) : M S X unit :=
  if b then m else mret tt.

(** [for (i = lo; i < hi; i++) body]: the body returns [Some r] to leave the
    enclosing function with [r] ([break] likewise), [None] to go on. *)
Fixpoint for_n {R} (n : nat) (i : Z) (body : Z → M S X (option R))
    : M S X (option R) :=
  match n with
  | O => mret None
  | Datatypes.S n' =>
      r ← body i;
      match r with
      | Some x => mret (Some x)
      | None => for_n n' (i + 1) body
      end
  end.

Definition for_range {R} (lo hi : Z) (body : Z → M S X (option R))
    : M S X (option R) :=
  for_n (Z.to_nat (hi - lo)) lo body.

Definition for_each (lo hi : Z) (body : Z → M S X unit) : M S X unit :=
  _ ← for_range lo hi (λ i, _ ← body i; mret (None : option unit)); mret tt.
End monad_ops.

(** ** Total correctness

    [wpx m s Q E]: run from [s], [m] does not panic; if it returns, [Q] holds of
    the result, and if it leaves, [E] does. *)

Definition wpx {S X A} (m : M S X A) (s : S)
    (Q : A → S → Prop) (E : X → S → Prop) : Prop :=
  match m s with
  | Ret a s' => Q a s'
  | Leave x s' => E x s'
  | Panic _ => False
  end.

Notation wp m s Q := (wpx m s Q (λ _ _, False)).

Section wp_rules.
Context {S X : Type}.
Implicit Types (s : S) (E : X → S → Prop).

Lemma wpx_ret {A} (a : A) s Q E : Q a s → wpx (mret a) s Q E.
Proof. done. Qed.

Lemma wpx_bind {A B} (m : M S X A) (k : A → M S X B) s Q E :
  wpx m s (λ a s', wpx (k a) s' Q E) E → wpx (m ≫= k) s Q E.
Proof. unfold wpx, mbind, M_bind. by destruct (m s). Qed.

Lemma wpx_mono {A} (m : M S X A) s Q Q' E E' :
  wpx m s Q E → (∀ a s', Q a s' → Q' a s') → (∀ x s', E x s' → E' x s') →
  wpx m s Q' E'.
Proof. unfold wpx. destruct (m s); auto. Qed.

Lemma wpx_conseq {A} (m : M S X A) s Q Q' E :
  wpx m s Q E → (∀ a s', Q a s' → Q' a s') → wpx m s Q' E.
Proof. intros. eapply wpx_mono; eauto. Qed.

Lemma wpx_gets {A} (f : S → A) s Q E : Q (f s) s → wpx (gets f) s Q E.
Proof. done. Qed.

Lemma wpx_get s Q E : Q s s → wpx get s Q E.
Proof. done. Qed.

Lemma wpx_modify f s Q E : Q tt (f s) → wpx (modify f) s Q E.
Proof. done. Qed.

Lemma wpx_leave {A} (x : X) s (Q : A → S → Prop) E :
  E x s → wpx (leave x) s Q E.
Proof. done. Qed.

Lemma wpx_for_n {R} n i (body : Z → M S X (option R)) s Q E
    (I : Z → S → Prop) :
  I i s →
  (∀ j s', i ≤ j < i + Z.of_nat n → I j s' →
     wpx (body j) s' (λ r s'', match r with
                               | None => I (j + 1) s''
                               | Some x => Q (Some x) s''
                               end) E) →
  (∀ s', I (i + Z.of_nat n) s' → Q None s') →
  wpx (for_n n i body) s Q E.
Proof.
  revert i s. induction n as [|n IH]; intros i s HI Hb HQ.
  - apply HQ. by rewrite Z.add_0_r.
  - cbn [for_n]. apply wpx_bind. eapply wpx_conseq; [apply Hb; [lia|done]|].
    intros [x|] s' Hs'; [done|]. apply IH; [done| |].
    + intros j s'' Hj. apply Hb. lia.
    + intros s''. replace (i + 1 + Z.of_nat n) with (i + Z.of_nat (Datatypes.S n)) by lia.
      auto.
Qed.

Lemma wpx_for_range {R} lo hi (body : Z → M S X (option R)) s Q E
    (I : Z → S → Prop) :
  lo ≤ hi → I lo s →
  (∀ j s', lo ≤ j < hi → I j s' →
     wpx (body j) s' (λ r s'', match r with
                               | None => I (j + 1) s''
                               | Some x => Q (Some x) s''
                               end) E) →
  (∀ s', I hi s' → Q None s') →
  wpx (for_range lo hi body) s Q E.
Proof.
  intros Hle HI Hb HQ. unfold for_range. eapply wpx_for_n; [done| |].
  - intros j s' Hj. apply Hb. lia.
  - intros s'. replace (lo + Z.of_nat (Z.to_nat (hi - lo))) with hi by lia.
    auto.
Qed.

Lemma wpx_for_each lo hi (body : Z → M S X unit) s Q E (I : Z → S → Prop) :
  lo ≤ hi → I lo s →
  (∀ j s', lo ≤ j < hi → I j s' → wpx (body j) s' (λ _ s'', I (j + 1) s'') E) →
  (∀ s', I hi s' → Q tt s') →
  wpx (for_each lo hi body) s Q E.
Proof.
  intros Hle HI Hb HQ. unfold for_each. apply wpx_bind.
  eapply wpx_for_range; [done|exact HI| |].
  - intros j s' Hj Hs'. apply wpx_bind. eapply wpx_conseq; [by apply Hb|].
    intros [] s'' ?. by apply wpx_ret.
  - intros s' ?. apply wpx_ret. auto.
Qed.
End wp_rules.

(** Reading a terminating run off a [wp]. *)
Lemma wp_returns {S X A} (m : M S X A) s Q :
  wp m s Q → ∃ a s', m s = Ret a s' ∧ Q a s'.
Proof. unfold wpx. destruct (m s); [eauto|done..]. Qed.

Lemma wp_of_run {S X A} (m : M S X A) s Q E a s' :
  m s = Ret a s' → Q a s' → wpx m s Q E.
Proof. unfold wpx. by intros ->. Qed.

Create HintDb jos.
#[export] Hint Rewrite @getd_insert_eq @getd_empty : jos.
#[export] Hint Resolve u64_range u32_range : jos.

(** Step through the monadic structure of a [wpx] goal. *)
Ltac wp_step :=
  lazymatch goal with
  | |- wpx (mbind _ _) _ _ _ => apply wpx_bind
  | |- wpx (mret _) _ _ _ => apply wpx_ret
  | |- wpx (gets _) _ _ _ => apply wpx_gets
  | |- wpx get _ _ _ => apply wpx_get
  | |- wpx (modify _) _ _ _ => apply wpx_modify
  | |- wpx (leave _) _ _ _ => apply wpx_leave
  end; cbv beta.

Ltac wp_steps := repeat wp_step.
