(* ===== verification/Mem.v ===== *)
(** * Byte-addressed memory

    Memory is a map from page numbers to pages, a page a map from offsets to
    bytes; a byte never written reads as [default 0] of whatever the initial map
    holds, and theorems quantify over the initial map.  The same type serves as
    the machine's physical memory (kernel files), a process's virtual memory
    (lib/string.c) and the file server's block cache.  Loads and stores are
    little-endian, of any width and at any alignment, as on the x86. *)

From S2P Require Import Prelude.

Notation page := (gmap Z Z).
Notation mem := (gmap Z (gmap Z Z)).

Definition PGSIZE : Z := 4096.

Definition ldb (m : mem) (a : Z) : Z := getd 0 (getd ∅ m (a / PGSIZE)) (a mod PGSIZE).

Definition stb (m : mem) (a v : Z) : mem :=
  <[a / PGSIZE := <[a mod PGSIZE := u8 v]> (getd ∅ m (a / PGSIZE))]> m.

(** [n]-byte little-endian load and store. *)
Fixpoint ldn (n : nat) (m : mem) (a : Z) : Z :=
  match n with
  | O => 0
  | S n' => ldb m a + 256 * ldn n' m (a + 1)
  end.

Fixpoint stn (n : nat) (m : mem) (a v : Z) : mem :=
  match n with
  | O => m
  | S n' => stn n' (stb m a v) (a + 1) (v / 256)
  end.

Notation ld32 := (ldn 4).
Notation ld64 := (ldn 8).
Notation st32 := (stn 4).
Notation st64 := (stn 8).

(** Fill [n] bytes from [a] with [c]; copy bytes in from a list. *)
Fixpoint fill (m : mem) (a : Z) (n : nat) (c : Z) : mem :=
  match n with
  | O => m
  | S n' => fill (stb m a c) (a + 1) n' c
  end.

Fixpoint store_bytes (m : mem) (a : Z) (l : list Z) : mem :=
  match l with
  | [] => m
  | b :: l' => store_bytes (stb m a b) (a + 1) l'
  end.

Fixpoint load_bytes (m : mem) (a : Z) (n : nat) : list Z :=
  match n with
  | O => []
  | S n' => ldb m a :: load_bytes m (a + 1) n'
  end.

(** [memset(va, 0, PGSIZE)] on a page-aligned address. *)
Definition zero_page (m : mem) (ppn : Z) : mem := <[ppn := (∅ : page)]> m.

Definition bytes_ok (m : mem) : Prop := ∀ a, 0 ≤ ldb m a < 256.

(** Memory agreement on a range, and everywhere (the maps may differ in which
    zero bytes they store). *)
Definition mem_agree (m m' : mem) (a n : Z) : Prop :=
  ∀ b, a ≤ b < a + n → ldb m b = ldb m' b.
Definition mem_eq (m m' : mem) : Prop := ∀ b, ldb m b = ldb m' b.

#[export] Instance mem_eq_equiv : Equivalence mem_eq.
Proof. split; unfold mem_eq; [intros ??|intros ????|intros ?????]; congruence. Qed.

Section mem_lemmas.
Implicit Types (m : mem) (a b v : Z).

Lemma page_split_inj a b :
  a / PGSIZE = b / PGSIZE → a mod PGSIZE = b mod PGSIZE → a = b.
Proof. unfold PGSIZE. intros. zlia. Qed.

Lemma ldb_stb m a v b :
  ldb (stb m a v) b = if decide (a = b) then u8 v else ldb m b.
Proof.
  unfold ldb, stb. rewrite getd_insert. destruct (decide (a = b)) as [->|Hne].
  - rewrite decide_True by done. by rewrite getd_insert_eq.
  - case_decide as Hp; [|done]. rewrite getd_insert_ne; [by rewrite Hp|].
    intros Ho. by apply Hne, page_split_inj.
Qed.

Lemma ldb_stb_eq m a v : ldb (stb m a v) a = u8 v.
Proof. rewrite ldb_stb. by rewrite decide_True. Qed.

Lemma ldb_stb_ne m a v b : a ≠ b → ldb (stb m a v) b = ldb m b.
Proof. intros. rewrite ldb_stb. by rewrite decide_False. Qed.

Lemma bytes_ok_stb m a v : bytes_ok m → bytes_ok (stb m a v).
Proof.
  intros H b. rewrite ldb_stb. case_decide; [|apply H].
  unfold u8. apply Z.mod_pos_bound. pow2; lia.
Qed.

Lemma bytes_ok_stn n m a v : bytes_ok m → bytes_ok (stn n m a v).
Proof.
  revert m a v. induction n; simpl; auto using bytes_ok_stb.
Qed.

Lemma bytes_ok_zero_page m p : bytes_ok m → bytes_ok (zero_page m p).
Proof.
  intros H a. unfold ldb, zero_page. rewrite getd_insert.
  case_decide; [rewrite getd_empty; lia|apply H].
Qed.

Lemma ldn_range n m a : bytes_ok m → 0 ≤ ldn n m a < 256 ^ Z.of_nat n.
Proof.
  intros Hok. revert a. induction n as [|n IH]; intros a; [simpl; lia|].
  cbn [ldn]. pose proof (Hok a). specialize (IH (a + 1)).
  rewrite Nat2Z.inj_succ, Z.pow_succ_r by lia. lia.
Qed.

Lemma ldb_stn_out n m a v b :
  b < a ∨ a + Z.of_nat n ≤ b → ldb (stn n m a v) b = ldb m b.
Proof.
  revert m a v. induction n as [|n IH]; intros m a v Hb; [done|].
  cbn [stn]. rewrite IH by lia. apply ldb_stb_ne. lia.
Qed.

Lemma ldn_ext n m m' a :
  mem_agree m m' a (Z.of_nat n) → ldn n m a = ldn n m' a.
Proof.
  revert a. induction n as [|n IH]; intros a H; [done|].
  cbn [ldn]. rewrite (H a) by lia. f_equal. f_equal. apply IH.
  intros b Hb. apply H. lia.
Qed.

Lemma ldn_stn_ne k n m a v b :
  b + Z.of_nat k ≤ a ∨ a + Z.of_nat n ≤ b → ldn k (stn n m a v) b = ldn k m b.
Proof. intros H. apply ldn_ext. intros c Hc. apply ldb_stn_out. lia. Qed.

Lemma ldn_stn_eq n m a v : ldn n (stn n m a v) a = v mod 256 ^ Z.of_nat n.
Proof.
  revert m a v. induction n as [|n IH]; intros m a v; [by rewrite Z.mod_1_r|].
  cbn [stn ldn]. rewrite ldb_stn_out by lia. rewrite ldb_stb_eq, IH.
  rewrite Nat2Z.inj_succ, Z.pow_succ_r by lia.
  unfold u8. change (2 ^ 8) with 256.
  rewrite Z.rem_mul_r by lia. done.
Qed.

(** The byte stored at offset [b - a], and the byte a load finds there. *)
Lemma ldb_stn_in n m a v b :
  a ≤ b < a + Z.of_nat n →
  ldb (stn n m a v) b = (v / 256 ^ (b - a)) mod 256.
Proof.
  revert m a v. induction n as [|n IH]; intros m a v Hb; [lia|].
  cbn [stn]. destruct (decide (b = a)) as [->|Hne].
  - rewrite ldb_stn_out by lia. rewrite ldb_stb_eq, Z.sub_diag, Z.pow_0_r, Z.div_1_r.
    done.
  - assert (0 < 256 ^ (b - (a + 1))) by (apply Z.pow_pos_nonneg; lia).
    rewrite IH by lia. rewrite Z.div_div by lia. do 2 f_equal.
    rewrite <- Z.pow_succ_r by lia. f_equal. lia.
Qed.

Lemma ldn_byte n m a i :
  bytes_ok m → 0 ≤ i < Z.of_nat n → (ldn n m a / 256 ^ i) mod 256 = ldb m (a + i).
Proof.
  intros Hok. revert a i. induction n as [|n IH]; intros a i Hi; [lia|].
  cbn [ldn]. pose proof (Hok a) as Ha. destruct (decide (i = 0)) as [->|Hne].
  - rewrite Z.pow_0_r, Z.div_1_r, Z.add_0_r.
    rewrite Z.mul_comm, Z.mod_add by lia. apply Z.mod_small. lia.
  - replace (256 ^ i) with (256 * 256 ^ (i - 1)).
    + assert (0 < 256 ^ (i - 1)) by (apply Z.pow_pos_nonneg; lia).
      rewrite <- Z.div_div by lia. rewrite (Z.mul_comm 256 (ldn _ _ _)).
      rewrite Z.div_add by lia. rewrite (Z.div_small (ldb m a)), Z.add_0_l by lia.
      rewrite IH by lia. f_equal. lia.
    + rewrite <- Z.pow_succ_r by lia. f_equal. lia.
Qed.

Lemma ldb_stn_ldn n m d s b :
  bytes_ok m →
  ldb (stn n m d (ldn n m s)) b =
    if decide (d ≤ b < d + Z.of_nat n) then ldb m (s + (b - d)) else ldb m b.
Proof.
  intros Hok. case_decide.
  - rewrite ldb_stn_in by lia. apply ldn_byte; [done|lia].
  - apply ldb_stn_out. lia.
Qed.

Lemma ld64_st64_eq m a v : ld64 (st64 m a v) a = u64 v.
Proof. apply ldn_stn_eq. Qed.

Lemma ld32_st32_eq m a v : ld32 (st32 m a v) a = u32 v.
Proof. apply ldn_stn_eq. Qed.

Lemma ldb_zero_page m p b :
  ldb (zero_page m p) b = if decide (b / PGSIZE = p) then 0 else ldb m b.
Proof.
  unfold ldb, zero_page. rewrite getd_insert. case_decide as H.
  - rewrite decide_True by done. apply getd_empty.
  - by rewrite decide_False.
Qed.

Lemma ldn_zero n m a :
  (∀ b, a ≤ b < a + Z.of_nat n → ldb m b = 0) → ldn n m a = 0.
Proof.
  revert a. induction n as [|n IH]; intros a H; [done|].
  cbn [ldn]. rewrite H by lia. rewrite IH; [done|]. intros. apply H. lia.
Qed.

Lemma ldb_fill m a n c b :
  ldb (fill m a n c) b =
    if decide (a ≤ b < a + Z.of_nat n) then u8 c else ldb m b.
Proof.
  revert m a. induction n as [|n IH]; intros m a; cbn [fill].
  - rewrite decide_False by lia. done.
  - rewrite IH. case_decide.
    + rewrite decide_True by lia. done.
    + rewrite ldb_stb. case_decide.
      * subst. rewrite decide_True by lia. done.
      * rewrite decide_False by lia. done.
Qed.

(** [zero_page] is [memset(kva, 0, PGSIZE)]. *)
Lemma zero_page_fill m p :
  mem_eq (zero_page m p) (fill m (p * PGSIZE) (Z.to_nat PGSIZE) 0).
Proof.
  intros b. rewrite ldb_zero_page, ldb_fill. unfold PGSIZE.
  repeat case_decide; try done; exfalso; zlia.
Qed.

Lemma length_load_bytes m a n : length (load_bytes m a n) = n.
Proof. revert a. induction n; intros; simpl; auto. Qed.

Lemma load_bytes_ext m m' a n :
  mem_agree m m' a (Z.of_nat n) → load_bytes m a n = load_bytes m' a n.
Proof.
  revert a. induction n as [|n IH]; intros a H; [done|].
  cbn [load_bytes]. rewrite (H a) by lia. f_equal. apply IH.
  intros b Hb. apply H. lia.
Qed.

Lemma lookup_load_bytes m a n (i : nat) :
  (i < n)%nat → load_bytes m a n !! i = Some (ldb m (a + Z.of_nat i)).
Proof.
  revert a i. induction n as [|n IH]; intros a i Hi; [lia|].
  destruct i as [|i]; cbn [load_bytes].
  - simpl. by rewrite Z.add_0_r.
  - cbn [lookup list_lookup]. rewrite IH by lia. do 2 f_equal. lia.
Qed.

Lemma load_bytes_app m a n k :
  load_bytes m a (n + k) = load_bytes m a n ++ load_bytes m (a + Z.of_nat n) k.
Proof.
  revert a. induction n as [|n IH]; intros a; simpl.
  - by rewrite Z.add_0_r.
  - f_equal. rewrite IH. do 2 f_equal. lia.
Qed.

Lemma ldb_store_bytes_out m a l b :
  b < a ∨ a + Z.of_nat (length l) ≤ b → ldb (store_bytes m a l) b = ldb m b.
Proof.
  revert m a. induction l as [|x l IH]; intros m a H; [done|].
  cbn [store_bytes]. simpl in H. rewrite IH by lia. apply ldb_stb_ne. lia.
Qed.

Lemma load_store_bytes m a l :
  Forall (λ x, 0 ≤ x < 256) l →
  load_bytes (store_bytes m a l) a (length l) = l.
Proof.
  revert m a. induction l as [|x l IH]; intros m a Hl; [done|].
  inversion Hl; subst. cbn [store_bytes load_bytes length]. f_equal.
  - rewrite ldb_store_bytes_out by lia. rewrite ldb_stb_eq. by apply u8_id.
  - by apply IH.
Qed.
Lemma ldb_store_bytes_in m a l j :
  Forall (λ x, 0 ≤ x < 256) l → 0 ≤ j < Z.of_nat (length l) →
  ldb (store_bytes m a l) (a + j) = nth (Z.to_nat j) l 0.
Proof.
  intros Hl Hj. pose proof (load_store_bytes m a l Hl) as H.
  pose proof (lookup_load_bytes (store_bytes m a l) a (length l) (Z.to_nat j) ltac:(lia)) as Hk.
  rewrite H, Z2Nat.id in Hk by lia. by erewrite nth_lookup_Some.
Qed.

Lemma ldb_copy n m m' a c b :
  bytes_ok m' →
  ldb (store_bytes m a (load_bytes m' c n)) b =
    if decide (a ≤ b < a + Z.of_nat n) then ldb m' (c + (b - a)) else ldb m b.
Proof.
  intros Hok. revert m a c. induction n as [|n IH]; intros m a c; cbn [load_bytes store_bytes].
  { rewrite decide_False by lia. done. }
  rewrite IH. destruct (decide (a = b)) as [->|Hne].
  - rewrite decide_False by lia. rewrite decide_True by lia. rewrite ldb_stb_eq.
    rewrite u8_id by apply Hok. f_equal. lia.
  - rewrite ldb_stb_ne by done. repeat case_decide; try lia; f_equal; lia.
Qed.

Lemma bytes_ok_store_bytes m a l : bytes_ok m → bytes_ok (store_bytes m a l).
Proof. revert m a. induction l; intros; simpl; auto using bytes_ok_stb. Qed.

End mem_lemmas.

#[export] Hint Resolve bytes_ok_stb bytes_ok_stn bytes_ok_zero_page : jos.
