(* ===== verification/StringC.v ===== *)
(** * lib/string.c: the basic string and memory routines

    Pointers are addresses ([Z], 0 = NULL) into the byte memory of [Mem]; a
    [char] is read as its unsigned byte.  Routines that scan to a NUL run on
    fuel and return [None] when it runs out: theorems give the fuel that is
    enough (the length of the string).  The [ASM] variants of memset/memmove,
    the ones that are compiled ([#define ASM 1]), are modelled with the x86
    string instructions they issue: [rep_stos] and [rep_movs] at the width and
    direction chosen by the alignment and overlap tests. *)

From S2P Require Import Prelude Mem.

(** ** Scanning routines *)

Fixpoint strlen_loop (fuel : nat) (m : mem) (s n : Z) : option Z :=
  match fuel with
  | O => None
  | S f => if ldb m s =? 0 then Some n else strlen_loop f m (s + 1) (n + 1)
  end.
Definition strlen (fuel : nat) (m : mem) (s : Z) : option Z :=
  strlen_loop fuel m s 0.

Fixpoint strnlen_loop (fuel : nat) (m : mem) (s size n : Z) : option Z :=
  match fuel with
  | O => None
  | S f =>
      if (0 <? size) && negb (ldb m s =? 0)
      then strnlen_loop f m (s + 1) (size - 1) (n + 1)
      else Some n
  end.
Definition strnlen (fuel : nat) (m : mem) (s size : Z) : option Z :=
  strnlen_loop fuel m s size 0.

(** The copy reads a byte, stores it, and tests the byte it stored. *)
Fixpoint strcpy (fuel : nat) (m : mem) (dst src : Z) : option mem :=
  match fuel with
  | O => None
  | S f =>
      let c := ldb m src in
      let m' := stb m dst c in
      if c =? 0 then Some m' else strcpy f m' (dst + 1) (src + 1)
  end.

Definition strcat (fuel : nat) (m : mem) (dst src : Z) : option mem :=
  match strlen fuel m dst with
  | None => None
  | Some len => strcpy fuel m (dst + len) src
  end.

Fixpoint strncpy_loop (n : nat) (m : mem) (dst src : Z) : mem :=
  match n with
  | O => m
  | S n' =>
      let m' := stb m dst (ldb m src) in
      strncpy_loop n' m' (dst + 1)
        (if ldb m' src =? 0 then src else src + 1)
  end.
Definition strncpy (m : mem) (dst src size : Z) : mem :=
  strncpy_loop (Z.to_nat size) m dst src.

(** [while (--size > 0 && *src != '\0') *dst++ = *src++;]; [n] is the value of
    [size] after the decrement. *)
Fixpoint strlcpy_loop (n : nat) (m : mem) (dst src : Z) : mem * Z :=
  match n with
  | O => (m, dst)
  | S n' =>
      if ldb m src =? 0 then (m, dst)
      else strlcpy_loop n' (stb m dst (ldb m src)) (dst + 1) (src + 1)
  end.
Definition strlcpy (m : mem) (dst src size : Z) : mem * Z :=
  if 0 <? size then
    let '(m', d) := strlcpy_loop (Z.to_nat (size - 1)) m dst src in
    (stb m' d 0, d - dst)
  else (m, 0).

Fixpoint strcmp (fuel : nat) (m : mem) (p q : Z) : option Z :=
  match fuel with
  | O => None
  | S f =>
      if negb (ldb m p =? 0) && (ldb m p =? ldb m q)
      then strcmp f m (p + 1) (q + 1)
      else Some (ldb m p - ldb m q)
  end.

Fixpoint strncmp (fuel : nat) (m : mem) (p q n : Z) : option Z :=
  match fuel with
  | O => None
  | S f =>
      if (0 <? n) && negb (ldb m p =? 0) && (ldb m p =? ldb m q)
      then strncmp f m (p + 1) (q + 1) (n - 1)
      else if n =? 0 then Some 0 else Some (ldb m p - ldb m q)
  end.

(** strchr returns NULL (0) when the character is absent, strfind the
    terminator. *)
Fixpoint strchr (fuel : nat) (m : mem) (s c : Z) : option Z :=
  match fuel with
  | O => None
  | S f =>
      if ldb m s =? 0 then Some 0
      else if ldb m s =? c then Some s else strchr f m (s + 1) c
  end.

Fixpoint strfind (fuel : nat) (m : mem) (s c : Z) : option Z :=
  match fuel with
  | O => None
  | S f =>
      if ldb m s =? 0 then Some s
      else if ldb m s =? c then Some s else strfind f m (s + 1) c
  end.

(** ** Memory routines *)

(** [rep stos]/[rep movs]: [count] elements of [w] bytes, stepping the index
    registers by [step] ([w] with DF clear, [-w] with DF set). *)
Fixpoint rep_stos (w : nat) (count : nat) (m : mem) (d v : Z) : mem :=
  match count with
  | O => m
  | S c => rep_stos w c (stn w m d v) (d + Z.of_nat w) v
  end.

Fixpoint rep_movs (w : nat) (step : Z) (count : nat) (m : mem) (d s : Z) : mem :=
  match count with
  | O => m
  | S c => rep_movs w step c (stn w m d (ldn w m s)) (d + step) (s + step)
  end.

Definition splat (c : Z) : Z :=
  Z.lor (Z.lor (Z.lor (Z.shiftl c 24) (Z.shiftl c 16)) (Z.shiftl c 8)) c.

Definition memset (m : mem) (v c n : Z) : mem :=
  if n =? 0 then m
  else if (v mod 4 =? 0) && (n mod 4 =? 0) then
    rep_stos 4 (Z.to_nat (n / 4)) m v (splat (Z.land c 255))
  else rep_stos 1 (Z.to_nat n) m v c.

Definition aligned4 (s d n : Z) : bool :=
  (s mod 4 =? 0) && (d mod 4 =? 0) && (n mod 4 =? 0).

Definition memmove (m : mem) (dst src n : Z) : mem :=
  if (src <? dst) && (dst <? u64 (src + n)) then
    let s := src + n in
    let d := dst + n in
    if aligned4 s d n
    then rep_movs 4 (-4) (Z.to_nat (n / 4)) m (d - 4) (s - 4)
    else rep_movs 1 (-1) (Z.to_nat n) m (d - 1) (s - 1)
  else
    if aligned4 src dst n
    then rep_movs 4 4 (Z.to_nat (n / 4)) m dst src
    else rep_movs 1 1 (Z.to_nat n) m dst src.

Definition memcpy (m : mem) (dst src n : Z) : mem := memmove m dst src n.

Fixpoint memcmp_loop (n : nat) (m : mem) (s1 s2 : Z) : Z :=
  match n with
  | O => 0
  | S n' =>
      if negb (ldb m s1 =? ldb m s2) then ldb m s1 - ldb m s2
      else memcmp_loop n' m (s1 + 1) (s2 + 1)
  end.
Definition memcmp (m : mem) (v1 v2 n : Z) : Z := memcmp_loop (Z.to_nat n) m v1 v2.

Fixpoint memfind_loop (n : nat) (m : mem) (s c : Z) : Z :=
  match n with
  | O => s
  | S n' => if ldb m s =? u8 c then s else memfind_loop n' m (s + 1) c
  end.
Definition memfind (m : mem) (s c n : Z) : Z := memfind_loop (Z.to_nat n) m s c.

(** ** strtol *)

Fixpoint skip_blanks (fuel : nat) (m : mem) (s : Z) : option Z :=
  match fuel with
  | O => None
  | S f => if (ldb m s =? 32) || (ldb m s =? 9) then skip_blanks f m (s + 1) else Some s
  end.

(** Value of a digit character, or [None] where the C loop breaks. *)
Definition digit_of (c : Z) : option Z :=
  if (48 <=? c) && (c <=? 57) then Some (c - 48)
  else if (97 <=? c) && (c <=? 122) then Some (c - 97 + 10)
  else if (65 <=? c) && (c <=? 90) then Some (c - 65 + 10)
  else None.

Fixpoint strtol_digits (fuel : nat) (m : mem) (s base val : Z) : option (Z * Z) :=
  match fuel with
  | O => None
  | S f =>
      match digit_of (ldb m s) with
      | None => Some (val, s)
      | Some dig =>
          if base <=? dig then Some (val, s)
          else strtol_digits f m (s + 1) base (i64 (val * base + dig))
      end
  end.

(** Returns the value and [*endptr]. *)
Definition strtol (fuel : nat) (m : mem) (s base : Z) : option (Z * Z) :=
  match skip_blanks fuel m s with
  | None => None
  | Some s =>
      let '(s, neg) :=
        if ldb m s =? 43 then (s + 1, false)
        else if ldb m s =? 45 then (s + 1, true) else (s, false) in
      let '(s, base) :=
        if ((base =? 0) || (base =? 16)) && ((ldb m s =? 48) && (ldb m (s + 1) =? 120))
        then (s + 2, 16)
        else if (base =? 0) && (ldb m s =? 48) then (s + 1, 8)
        else if base =? 0 then (s, 10) else (s, base) in
      match strtol_digits fuel m s base 0 with
      | None => None
      | Some (val, e) => Some (if neg then i64 (- val) else val, e)
      end
  end.

(** ** strstr *)

(** The inner loop: advance [in_] just past the next occurrence of [c]. *)
Fixpoint strstr_seek (fuel : nat) (m : mem) (in_ c : Z) : option (option Z) :=
  match fuel with
  | O => None
  | S f =>
      let sc := ldb m in_ in
      if sc =? 0 then Some None
      else if sc =? c then Some (Some (in_ + 1)) else strstr_seek f m (in_ + 1) c
  end.

Fixpoint strstr_loop (fuel : nat) (m : mem) (in_ c str len : Z) (big : nat)
    : option Z :=
  match fuel with
  | O => None
  | S f =>
      match strstr_seek big m in_ c with
      | None => None
      | Some None => Some 0
      | Some (Some in') =>
          match strncmp big m in' str len with
          | None => None
          | Some r => if r =? 0 then Some (in' - 1) else strstr_loop f m in' c str len big
          end
      end
  end.

Definition strstr (fuel : nat) (m : mem) (in_ str : Z) : option Z :=
  let c := ldb m str in
  let str := str + 1 in
  if c =? 0 then Some in_
  else match strlen fuel m str with
       | None => None
       | Some len => strstr_loop fuel m in_ c str len fuel
       end.

(** ** C strings *)

(** The NUL-terminated string [l] is stored at [s]. *)
Definition cstr (m : mem) (s : Z) (l : list Z) : Prop :=
  load_bytes m s (length l) = l ∧ Forall (λ c, 0 < c < 256) l ∧
  ldb m (s + Z.of_nat (length l)) = 0.

Section cstr_lemmas.
Implicit Types (m : mem) (l : list Z) (s : Z).

Lemma cstr_nil m s : cstr m s [] ↔ ldb m s = 0.
Proof.
  unfold cstr. simpl. rewrite Z.add_0_r.
  split; [by intros (_ & _ & ?)|by intros].
Qed.

Lemma cstr_cons m s c l :
  cstr m s (c :: l) ↔ ldb m s = c ∧ 0 < c < 256 ∧ cstr m (s + 1) l.
Proof.
  unfold cstr. cbn [load_bytes length]. rewrite Forall_cons_iff.
  replace (s + Z.of_nat (Datatypes.S (length l)))
    with (s + 1 + Z.of_nat (length l)) by lia.
  split; [intros ([= ??] & [? ?] & ?)|intros (? & ? & ? & ? & ?)];
    split_and!; first [lia|done|congruence].
Qed.

Lemma strlen_loop_cstr m s l n fuel :
  cstr m s l → (length l < fuel)%nat →
  strlen_loop fuel m s n = Some (n + Z.of_nat (length l)).
Proof.
  revert s n fuel. induction l as [|c l IH]; intros s n [|fuel] Hs Hf;
    simpl in Hf; try lia.
  - apply cstr_nil in Hs. simpl. rewrite Hs. simpl. f_equal. lia.
  - apply cstr_cons in Hs as (Hc & Hr & Hs). cbn [strlen_loop].
    rewrite Hc. rewrite (proj2 (Z.eqb_neq c 0)) by lia.
    rewrite IH by (done || lia). f_equal. cbn [length]. lia.
Qed.

Lemma cstr_ext m m' s l :
  mem_agree m m' s (Z.of_nat (length l) + 1) → cstr m s l → cstr m' s l.
Proof.
  intros H (H1 & H2 & H3). split_and!; [|done|].
  - rewrite <- H1 at 2. symmetry. apply load_bytes_ext.
    intros b Hb. apply H. lia.
  - rewrite <- H; [done|lia].
Qed.
End cstr_lemmas.

(** ** The memory routines are correct at every alignment and overlap *)

Section memory_routines.
Implicit Types (m : mem).

Lemma bytes_ok_rep_movs w st c m d s :
  bytes_ok m → bytes_ok (rep_movs w st c m d s).
Proof. revert m d s. induction c; intros; simpl; auto with jos. Qed.

(** Forward copies are right when the destination is not inside the source
    to its right, backward ones when it is not to its left. *)
Lemma rep_movs_forward w c m d s b :
  (0 < w)%nat → bytes_ok m →
  d ≤ s ∨ s + Z.of_nat w * Z.of_nat c ≤ d →
  ldb (rep_movs w (Z.of_nat w) c m d s) b =
    if decide (d ≤ b < d + Z.of_nat w * Z.of_nat c)
    then ldb m (s + (b - d)) else ldb m b.
Proof.
  intros Hw. revert m d s. induction c as [|c IH]; intros m d s Hok Ho.
  - cbn [rep_movs]. rewrite decide_False by lia. done.
  - cbn [rep_movs]. rewrite IH by (auto with jos || lia).
    replace (s + Z.of_nat w + (b - (d + Z.of_nat w))) with (s + (b - d)) by lia.
    rewrite !ldb_stn_ldn by done. repeat case_decide; try lia; f_equal; lia.
Qed.

Lemma rep_movs_backward w c m d s b :
  (0 < w)%nat → bytes_ok m → s ≤ d →
  ldb (rep_movs w (- Z.of_nat w) c m
         (d + Z.of_nat w * (Z.of_nat c - 1)) (s + Z.of_nat w * (Z.of_nat c - 1))) b =
    if decide (d ≤ b < d + Z.of_nat w * Z.of_nat c)
    then ldb m (s + (b - d)) else ldb m b.
Proof.
  intros Hw. revert m. induction c as [|c IH]; intros m Hok Ho.
  - cbn [rep_movs]. rewrite decide_False by lia. done.
  - cbn [rep_movs].
    replace (d + Z.of_nat w * (Z.of_nat (Datatypes.S c) - 1) + - Z.of_nat w)
      with (d + Z.of_nat w * (Z.of_nat c - 1)) by lia.
    replace (s + Z.of_nat w * (Z.of_nat (Datatypes.S c) - 1) + - Z.of_nat w)
      with (s + Z.of_nat w * (Z.of_nat c - 1)) by lia.
    rewrite IH by (auto with jos || lia).
    rewrite !ldb_stn_ldn by done. repeat case_decide; try lia; f_equal; lia.
Qed.

Lemma aligned4_n s d n : aligned4 s d n = true → n mod 4 = 0.
Proof. unfold aligned4. intros H. by apply andb_prop in H as [_ ?%Z.eqb_eq]. Qed.

(** The same with the start addresses as memmove computes them. *)
Lemma rep_movs_backward_end w zw st c n m d s b :
  zw = Z.of_nat w → st = - Z.of_nat w → n = Z.of_nat w * Z.of_nat c →
  (0 < w)%nat → bytes_ok m → s ≤ d →
  ldb (rep_movs w st c m (d + n - zw) (s + n - zw)) b =
    if decide (d ≤ b < d + n) then ldb m (s + (b - d)) else ldb m b.
Proof.
  intros -> -> -> Hw Hok Hle. rewrite <- rep_movs_backward by done.
  do 2 f_equal; lia.
Qed.

Lemma rep_stos1_fill c m d v : rep_stos 1 c m d v = fill m d c v.
Proof. revert m d. induction c; intros; simpl; auto. Qed.

Lemma splat_bytes c i : 0 ≤ i < 4 → (splat (Z.land c 255) / 256 ^ i) mod 256 = u8 c.
Proof.
  intros Hi. replace (Z.land c 255) with (u8 c).
  2: { unfold u8. change 255 with (Z.ones 8). by rewrite Z.land_ones by lia. }
  assert (Hall : forallb (λ c, forallb (λ i,
      (splat c / 256 ^ i) mod 256 =? c) [0;1;2;3]) (seqZ 0 256) = true)
    by (vm_compute; reflexivity).
  rewrite forallb_forall in Hall. specialize (Hall (u8 c)).
  assert (Hc : u8 c ∈ seqZ 0 256).
  { apply elem_of_seqZ. unfold u8. zlia. }
  apply list_elem_of_In, Hall in Hc. rewrite forallb_forall in Hc.
  apply Z.eqb_eq, Hc. simpl. lia.
Qed.

Lemma rep_stos4_fill c m d v b :
  ldb (rep_stos 4 c m d (splat (Z.land v 255))) b =
    if decide (d ≤ b < d + 4 * Z.of_nat c) then u8 v else ldb m b.
Proof.
  revert m d. induction c as [|c IH]; intros m d.
  - cbn [rep_stos]. rewrite decide_False by lia. done.
  - cbn [rep_stos]. rewrite IH. destruct (decide (d ≤ b < d + 4)).
    + rewrite (decide_True (P := d ≤ b < d + 4 * _)) by lia.
      rewrite decide_False by lia. rewrite ldb_stn_in by lia.
      apply splat_bytes. lia.
    + rewrite ldb_stn_out by lia. repeat case_decide; done || lia.
Qed.
End memory_routines.

Lemma memmove_spec m dst src n b :
  bytes_ok m → 0 ≤ n → 0 ≤ src → 0 ≤ dst → src + n < 2 ^ 64 →
  ldb (memmove m dst src n) b =
    if decide (dst ≤ b < dst + n) then ldb m (src + (b - dst)) else ldb m b.
Proof.
  intros Hok Hn Hs Hd Hw. unfold memmove. rewrite u64_id by (pow2; lia).
  destruct (Z.ltb_spec src dst); destruct (Z.ltb_spec dst (src + n)); cbn [andb].
  1: case_match eqn:Ha; [apply aligned4_n in Ha|];
    [apply (rep_movs_backward_end 4)|apply (rep_movs_backward_end 1)]; done || zlia.
  all: case_match eqn:Ha; [apply aligned4_n in Ha|];
    first [rewrite (rep_movs_forward 4) by (done || zlia)
          |rewrite (rep_movs_forward 1) by (done || zlia)];
    repeat case_decide; done || zlia.
Qed.

(** Whatever the source, only the destination is written. *)
Lemma rep_movs_out w zw c m d s b :
  zw = Z.of_nat w → b < d ∨ d + zw * Z.of_nat c ≤ b →
  ldb (rep_movs w zw c m d s) b = ldb m b.
Proof.
  intros ->. revert m d s. induction c as [|c IH]; intros m d s Hb; [done|].
  cbn [rep_movs]. rewrite IH by lia. apply ldb_stn_out. lia.
Qed.

Lemma rep_movs_out_back w zw st c m d s b :
  zw = Z.of_nat w → st = - zw → b < d + zw - zw * Z.of_nat c ∨ d + zw ≤ b →
  ldb (rep_movs w st c m d s) b = ldb m b.
Proof.
  intros -> ->. revert m d s. induction c as [|c IH]; intros m d s Hb; [done|].
  cbn [rep_movs]. rewrite IH by lia. apply ldb_stn_out. lia.
Qed.

Lemma memmove_out m dst src n b :
  b < dst ∨ dst + n ≤ b → ldb (memmove m dst src n) b = ldb m b.
Proof.
  intros Hb. destruct (decide (0 ≤ n)) as [Hn|Hn].
  2: { unfold memmove. replace (Z.to_nat (n / 4)) with 0%nat by zlia.
       replace (Z.to_nat n) with 0%nat by lia. by repeat case_match. }
  unfold memmove. repeat case_match.
  - apply (rep_movs_out_back 4 4); [done..|]. zlia.
  - apply (rep_movs_out_back 1 1); [done..|]. lia.
  - apply (rep_movs_out 4 4); [done|]. zlia.
  - apply (rep_movs_out 1 1); [done|]. lia.
Qed.

Lemma bytes_ok_memmove m dst src n : bytes_ok m → bytes_ok (memmove m dst src n).
Proof. intros. unfold memmove. repeat case_match; by apply bytes_ok_rep_movs. Qed.

(** memmove copies [n] bytes exactly, whichever of its four copy loops
    (words or bytes, forwards or backwards) runs and however the two ranges
    overlap: every destination byte gets the source byte as it was before the
    call, and no other byte changes. *)
Theorem memmove_correct m dst src n b :
  bytes_ok m → 0 ≤ n → 0 ≤ src → 0 ≤ dst → src + n < 2 ^ 64 →
  ldb (memmove m dst src n) b =
    if decide (dst ≤ b < dst + n) then ldb m (src + (b - dst)) else ldb m b.
Proof. apply memmove_spec. Qed.

(** memset fills exactly the [n] bytes at [v] with the low byte of [c],
    on the word-store path (aligned) and on the byte-store path alike. *)
Theorem memset_correct m v c n b :
  0 ≤ n →
  ldb (memset m v c n) b = if decide (v ≤ b < v + n) then u8 c else ldb m b.
Proof.
  intros Hn. unfold memset. destruct (Z.eqb_spec n 0) as [->|Hn0].
  { rewrite decide_False by lia. done. }
  destruct (Z.eqb_spec (v mod 4) 0), (Z.eqb_spec (n mod 4) 0); cbn [andb].
  1: { rewrite rep_stos4_fill. repeat case_decide; done || zlia. }
  all: rewrite rep_stos1_fill, ldb_fill; repeat case_decide; done || lia.
Qed.

(** ** Comparison and search *)

(** The difference of the first bytes at which two NUL-terminated strings
    differ, the terminator counting as 0. *)
Fixpoint lex (l1 l2 : list Z) : Z :=
  match l1, l2 with
  | [], [] => 0
  | [], b :: _ => - b
  | a :: _, [] => a
  | a :: l1', b :: l2' => if a =? b then lex l1' l2' else a - b
  end.

(** Position of the first occurrence of [needle] in [l]. *)
Fixpoint find_sub (needle l : list Z) : option nat :=
  if decide (needle `prefix_of` l) then Some O
  else match l with
       | [] => None
       | _ :: l' => Datatypes.S <$> find_sub needle l'
       end.

Section compare.
Implicit Types (m : mem) (l : list Z).

Lemma lex_zero l1 l2 :
  Forall (λ c, 0 < c < 256) l1 → Forall (λ c, 0 < c < 256) l2 →
  lex l1 l2 = 0 ↔ l1 = l2.
Proof.
  intros H1. revert l2. induction H1 as [|a l1 Ha H1 IH];
    intros [|b l2] H2; inversion H2; subst; cbn [lex].
  - done.
  - split; [lia|done].
  - split; [lia|done].
  - destruct (Z.eqb_spec a b) as [->|]; [rewrite IH by done|];
      split; try congruence; lia.
Qed.

Lemma strcmp_lex m p q l1 l2 fuel :
  cstr m p l1 → cstr m q l2 → (length l1 < fuel)%nat →
  strcmp fuel m p q = Some (lex l1 l2).
Proof.
  revert p q l2 fuel. induction l1 as [|a l1 IH]; intros p q l2 [|fuel] H1 H2 Hf;
    simpl in Hf; try lia.
  - apply cstr_nil in H1. cbn [strcmp]. rewrite H1. cbn.
    destruct l2 as [|b l2]; [apply cstr_nil in H2|apply cstr_cons in H2 as (H2 & _)];
      rewrite H2; f_equal; simpl; lia.
  - apply cstr_cons in H1 as (Ha & Hr & H1). cbn [strcmp]. rewrite Ha.
    rewrite (proj2 (Z.eqb_neq a 0)) by lia. cbn [negb andb].
    destruct l2 as [|b l2].
    + apply cstr_nil in H2. rewrite H2. rewrite (proj2 (Z.eqb_neq a 0)) by lia.
      f_equal. simpl. lia.
    + apply cstr_cons in H2 as (Hb & Hrb & H2). rewrite Hb. cbn [lex].
      case_match; [|done]. apply IH; done || lia.
Qed.

(** strncmp against a string of exactly [n] bytes tests for a prefix. *)
Lemma strncmp_prefix m p q l r fuel :
  cstr m p l → cstr m q r → (length r < fuel)%nat →
  ∃ d, strncmp fuel m p q (Z.of_nat (length r)) = Some d ∧
       (d =? 0) = bool_decide (r `prefix_of` l).
Proof.
  revert p q l fuel. induction r as [|b r IH]; intros p q l [|fuel] Hl Hr Hf;
    simpl in Hf; try lia.
  - cbn [strncmp length]. exists 0. split; [done|].
    rewrite bool_decide_eq_true_2; [done|apply prefix_nil].
  - apply cstr_cons in Hr as (Hb & Hrb & Hr). cbn [strncmp].
    rewrite (proj2 (Z.ltb_lt 0 _)) by (cbn [length]; lia).
    rewrite (proj2 (Z.eqb_neq (Z.of_nat (length (b :: r))) 0))
      by (cbn [length]; lia). cbn [andb]. rewrite Hb.
    destruct l as [|a l].
    + apply cstr_nil in Hl. rewrite Hl. cbn. exists (- b). split; [f_equal; lia|].
      rewrite bool_decide_eq_false_2; [apply Z.eqb_neq; lia|].
      by intros ?%prefix_nil_inv.
    + apply cstr_cons in Hl as (Ha & Hra & Hl). rewrite Ha.
      rewrite (proj2 (Z.eqb_neq a 0)) by lia. cbn [negb andb].
      destruct (Z.eqb_spec a b) as [->|Hab].
      * replace (Z.of_nat (length (b :: r)) - 1) with (Z.of_nat (length r))
          by (cbn [length]; lia).
        destruct (IH (p + 1) (q + 1) l fuel) as (d & -> & Hd); [done..|lia|].
        exists d. split; [done|]. rewrite Hd.
        apply bool_decide_ext. split; [apply prefix_cons|apply prefix_cons_inv_2].
      * exists (a - b). split; [done|].
        rewrite bool_decide_eq_false_2; [apply Z.eqb_neq; lia|].
        intros ?%prefix_cons_inv_1. congruence.
Qed.

Fixpoint seek_spec (in_ c : Z) (l : list Z) : option Z :=
  match l with
  | [] => None
  | x :: l' => if x =? c then Some (in_ + 1) else seek_spec (in_ + 1) c l'
  end.

Lemma strstr_seek_spec m in_ c l fuel :
  cstr m in_ l → (length l < fuel)%nat →
  strstr_seek fuel m in_ c = Some (seek_spec in_ c l).
Proof.
  revert in_ fuel. induction l as [|x l IH]; intros in_ [|fuel] Hl Hf;
    simpl in Hf; try lia.
  - apply cstr_nil in Hl. cbn [strstr_seek]. by rewrite Hl.
  - apply cstr_cons in Hl as (Hx & Hr & Hl). cbn [strstr_seek]. rewrite Hx.
    rewrite (proj2 (Z.eqb_neq x 0)) by lia. cbn [seek_spec].
    case_match; [done|]. apply IH; done || lia.
Qed.

Lemma find_sub_cons c r x l :
  find_sub (c :: r) (x :: l) =
    if (x =? c) && bool_decide (r `prefix_of` l) then Some O
    else Datatypes.S <$> find_sub (c :: r) l.
Proof.
  cbn [find_sub]. destruct (decide (c :: r `prefix_of` x :: l)) as [Hp|Hp].
  - pose proof (prefix_cons_inv_1 _ _ _ _ Hp) as ->.
    apply prefix_cons_inv_2 in Hp. rewrite Z.eqb_refl.
    by rewrite bool_decide_eq_true_2.
  - destruct (Z.eqb_spec x c) as [->|]; [|done].
    rewrite bool_decide_eq_false_2; [done|]. intros H. by apply Hp, prefix_cons.
Qed.

Lemma strstr_loop_spec m in_ c str l r fuel big :
  cstr m in_ l → cstr m str r → c ≠ 0 →
  (length l < fuel)%nat → (length l + length r < big)%nat →
  strstr_loop fuel m in_ c str (Z.of_nat (length r)) big =
    Some (match find_sub (c :: r) l with
          | Some i => in_ + Z.of_nat i
          | None => 0
          end).
Proof.
  revert in_ fuel. induction l as [|x l IH]; intros in_ [|fuel] Hl Hr Hc Hf Hb;
    simpl in Hf; try lia.
  - cbn [strstr_loop]. rewrite (strstr_seek_spec _ _ _ []) by (done || simpl; lia).
    cbn [seek_spec find_sub]. case_decide as Hp; [|done].
    by apply prefix_nil_inv in Hp.
  - apply cstr_cons in Hl as Hl'. destruct Hl' as (Hx & Hrx & Hl').
    rewrite find_sub_cons. destruct (Z.eqb_spec x c) as [->|Hxc]; cbn [andb].
    + cbn [strstr_loop]. rewrite (strstr_seek_spec _ _ _ (c :: l)) by (done || simpl in *; lia).
      cbn [seek_spec]. rewrite Z.eqb_refl.
      destruct (strncmp_prefix m (in_ + 1) str l r big) as (d & -> & Hd);
        [done|done|simpl in Hb; lia|].
      rewrite Hd. destruct (bool_decide (r `prefix_of` l)); [apply (f_equal Some); lia|].
      rewrite IH by (done || simpl in Hb; lia).
      destruct (find_sub (c :: r) l); simpl; f_equal; lia.
    + transitivity (strstr_loop (Datatypes.S fuel) m (in_ + 1) c str
                      (Z.of_nat (length r)) big).
      { cbn [strstr_loop].
        rewrite (strstr_seek_spec _ _ _ (x :: l)), (strstr_seek_spec _ _ _ l)
          by (done || simpl in *; lia).
        cbn [seek_spec]. by rewrite (proj2 (Z.eqb_neq x c)). }
      rewrite IH by (done || simpl in *; lia).
      destruct (find_sub (c :: r) l); simpl; f_equal; lia.
Qed.
End compare.

(** strcmp on two NUL-terminated strings terminates (fuel: the length of
    the first), returns the difference of the first differing bytes, and is 0
    exactly when the strings are equal. *)
Theorem strcmp_correct m p q l1 l2 fuel :
  cstr m p l1 → cstr m q l2 → (length l1 < fuel)%nat →
  strcmp fuel m p q = Some (lex l1 l2) ∧ (lex l1 l2 = 0 ↔ l1 = l2).
Proof.
  intros H1 H2 Hf. split; [by apply strcmp_lex|].
  apply lex_zero; [apply H1|apply H2].
Qed.

(** strstr returns the address of the first occurrence of the needle in the
    haystack, NULL exactly when there is none, and the haystack itself for the
    empty needle. *)
Theorem strstr_correct m in_ str hay needle fuel :
  cstr m in_ hay → cstr m str needle →
  (length hay + length needle < fuel)%nat →
  strstr fuel m in_ str =
    Some (match find_sub needle hay with
          | Some i => in_ + Z.of_nat i
          | None => 0
          end).
Proof.
  intros Hh Hn Hf. unfold strstr. destruct needle as [|c r].
  - apply cstr_nil in Hn. rewrite Hn. cbn.
    destruct hay; cbn [find_sub]; (rewrite decide_True by apply prefix_nil);
      f_equal; simpl; lia.
  - apply cstr_cons in Hn as (Hc & Hrc & Hr). rewrite Hc.
    rewrite (proj2 (Z.eqb_neq c 0)) by lia. unfold strlen. simpl in Hf.
    rewrite (strlen_loop_cstr _ _ r) by (done || lia). rewrite Z.add_0_l.
    apply strstr_loop_spec; done || lia.
Qed.

(** strlcpy's copy loop against a string of which [n] bytes fit. *)
Lemma strlcpy_loop_spec m dst src l n :
  cstr m src l →
  (dst + Z.of_nat n < src ∨ src + Z.of_nat (length l) < dst) →
  let k := Nat.min n (length l) in
  ∃ m', strlcpy_loop n m dst src = (m', dst + Z.of_nat k) ∧
        ∀ b, ldb m' b = if decide (dst ≤ b < dst + Z.of_nat k)
                        then ldb m (src + (b - dst)) else ldb m b.
Proof.
  revert m dst src l. induction n as [|n IH]; intros m dst src l Hl Hd k.
  { exists m. split; [cbn; f_equal; lia|]. intros b.
    rewrite decide_False by lia. done. }
  destruct l as [|c l]; cbn [strlcpy_loop].
  - apply cstr_nil in Hl. rewrite Hl. exists m. split; [cbn; f_equal; lia|].
    intros b. rewrite decide_False by (simpl in k; lia). done.
  - pose proof Hl as Hl0. apply cstr_cons in Hl as (Hc & Hr & Hl). rewrite Hc.
    rewrite (proj2 (Z.eqb_neq c 0)) by lia. cbn [length] in Hd.
    destruct (IH (stb m dst c) (dst + 1) (src + 1) l) as (m' & -> & Hm').
    { eapply cstr_ext; [|done]. intros b Hb. rewrite ldb_stb_ne; [done|lia]. }
    { lia. }
    exists m'. split; [f_equal; simpl in k; lia|].
    intros b. rewrite Hm'. unfold k. cbn [length Nat.min].
    destruct (decide (b = dst)) as [->|Hb].
    + rewrite decide_False by lia. rewrite decide_True by lia.
      rewrite ldb_stb_eq, Z.sub_diag, Z.add_0_r, Hc. apply u8_id. lia.
    + repeat case_decide; try lia; rewrite ldb_stb_ne by lia; f_equal; lia.
Qed.

(** strlcpy copies at most [size - 1] bytes, always NUL-terminates a
    non-empty buffer, returns the number of bytes copied, and writes nothing
    outside the [size] bytes of the buffer. *)
Theorem strlcpy_correct m dst src l size :
  cstr m src l → 0 < size →
  (dst + size < src ∨ src + Z.of_nat (length l) < dst) →
  let k := Z.min (size - 1) (Z.of_nat (length l)) in
  ∃ m', strlcpy m dst src size = (m', k) ∧ k < size ∧
        ∀ b, ldb m' b = if decide (dst ≤ b < dst + k) then ldb m (src + (b - dst))
                        else if decide (b = dst + k) then 0 else ldb m b.
Proof.
  intros Hl Hsz Hd k. unfold strlcpy. rewrite (proj2 (Z.ltb_lt 0 size)) by done.
  destruct (strlcpy_loop_spec m dst src l (Z.to_nat (size - 1))) as (m' & -> & Hm');
    [done|lia|].
  replace (dst + Z.of_nat (Nat.min (Z.to_nat (size - 1)) (length l)))
    with (dst + k) in * by lia.
  exists (stb m' (dst + k) 0). split; [f_equal; lia|]. split; [lia|].
  intros b. rewrite ldb_stb, Hm'. repeat case_decide; done || lia.
Qed.

(** ** Instances *)

(** "abcd", NUL, "bcd", NUL from address 4096. *)
Definition ex_str : mem := store_bytes ∅ 4096 [97; 98; 99; 100; 0; 98; 99; 100; 0].

Lemma ex_str_bytes : bytes_ok ex_str.
Proof.
  unfold ex_str. cbn [store_bytes]. repeat apply bytes_ok_stb.
  intros a. unfold ldb. rewrite !getd_empty. lia.
Qed.

Lemma ex_str_hay : cstr ex_str 4096 [97; 98; 99; 100].
Proof.
  split; [by vm_compute|]. split; [|by vm_compute].
  repeat constructor; lia.
Qed.
Lemma ex_str_needle : cstr ex_str 4101 [98; 99; 100].
Proof.
  split; [by vm_compute|]. split; [|by vm_compute].
  repeat constructor; lia.
Qed.

(** An overlapping move by one byte, backwards. *)
Lemma memmove_correct_witness :
  ldb (memmove ex_str 4097 4096 4) 4100 = 100 ∧ ldb ex_str (4096 + (4100 - 4097)) = 100.
Proof.
  split; [|by vm_compute].
  rewrite (memmove_correct ex_str 4097 4096 4 4100 ex_str_bytes) by lia. by vm_compute.
Defined.

Lemma memset_correct_witness : ldb (memset ex_str 4096 0x141 8) 4103 = 0x41.
Proof. rewrite (memset_correct ex_str 4096 0x141 8 4103) by lia. by vm_compute. Defined.

Lemma strcmp_correct_witness :
  strcmp 5 ex_str 4096 4101 = Some (lex [97; 98; 99; 100] [98; 99; 100]) ∧
  lex [97; 98; 99; 100] [98; 99; 100] = -1.
Proof.
  split; [|reflexivity].
  apply (strcmp_correct ex_str 4096 4101 _ _ 5 ex_str_hay ex_str_needle); simpl; lia.
Defined.

Lemma strstr_correct_witness : strstr 8 ex_str 4096 4101 = Some 4097.
Proof.
  rewrite (strstr_correct ex_str 4096 4101 _ _ 8 ex_str_hay ex_str_needle) by (simpl; lia).
  by vm_compute.
Defined.

Lemma strlcpy_correct_witness :
  ∃ m', strlcpy ex_str 8192 4096 3 = (m', 2) ∧ ldb m' 8193 = 98 ∧ ldb m' 8194 = 0.
Proof.
  destruct (strlcpy_correct ex_str 8192 4096 _ 3 ex_str_hay) as (m' & E & _ & H);
    [lia|simpl; lia|].
  exists m'. split; [exact E|]. split; rewrite H; by vm_compute.
Defined.
