(* ===== verification/Printfmt.v ===== *)
(** * lib/printfmt.c: formatted printing

    The output of a call is the list of the integers it passes to [putch], in
    order.  A format string is the list of its bytes (the end of the list is the
    NUL); a string argument is the list of the bytes before its NUL.  The
    [switch]/[goto reswitch] state machine of [vprintfmt] is one recursive
    function over a mode (plain text, or inside a % escape), on fuel: [None] is
    out of fuel, or a read of an argument that is not there. *)

From S2P Require Import Prelude Mem StringC.

(** ** Error codes (inc/error.h) *)
Definition E_UNSPECIFIED : Z := 1.
Definition E_BAD_ENV : Z := 2.
Definition E_INVAL : Z := 3.
Definition E_NO_MEM : Z := 4.
Definition E_NO_FREE_ENV : Z := 5.
Definition E_FAULT : Z := 6.
Definition E_NO_SYS : Z := 7.
Definition E_IPC_NOT_RECV : Z := 8.
Definition E_EOF : Z := 9.
Definition E_NO_DISK : Z := 10.
Definition E_MAX_OPEN : Z := 11.
Definition E_NOT_FOUND : Z := 12.
Definition E_BAD_PATH : Z := 13.
Definition E_FILE_EXISTS : Z := 14.
Definition E_NOT_EXEC : Z := 15.
Definition E_NOT_SUPP : Z := 16.
Definition MAXERROR : Z := 22.

From Stdlib Require Import Ascii String.
#[local] Open Scope list_scope.
#[local] Notation length := List.length.

(** Bytes of a literal. *)
Definition str (s : string) : list Z :=
  List.map (λ a, Z.of_nat (nat_of_ascii a)) (list_ascii_of_string s).

Definition error_string (err : Z) : option (list Z) :=
  if err =? E_UNSPECIFIED then Some (str "unspecified error")
  else if err =? E_BAD_ENV then Some (str "bad environment")
  else if err =? E_INVAL then Some (str "invalid parameter")
  else if err =? E_NO_MEM then Some (str "out of memory")
  else if err =? E_NO_FREE_ENV then Some (str "out of environments")
  else if err =? E_FAULT then Some (str "segmentation fault")
  else if err =? E_IPC_NOT_RECV then Some (str "env is not recving")
  else if err =? E_EOF then Some (str "unexpected end of file")
  else if err =? E_NO_DISK then Some (str "no free space on disk")
  else if err =? E_MAX_OPEN then Some (str "too many files are open")
  else if err =? E_NOT_FOUND then Some (str "file or block not found")
  else if err =? E_BAD_PATH then Some (str "invalid path")
  else if err =? E_FILE_EXISTS then Some (str "file already exists")
  else if err =? E_NOT_EXEC then Some (str "file is not a valid executable")
  else if err =? E_NOT_SUPP then Some (str "operation not supported")
  else None.

(** ** printnum *)

(** ["0123456789abcdef"[d]] *)
Definition digit_char (d : Z) : Z := if d <? 10 then 48 + d else 87 + d.

(** [while (--width > 0) putch(padc)] *)
Definition pad (width padc : Z) : list Z := replicate (Z.to_nat (width - 1)) padc.

Fixpoint printnum (fuel : nat) (num base width padc : Z) : option (list Z) :=
  match fuel with
  | O => None
  | S f =>
      front ← (if base <=? num
               then printnum f (num / base) base (width - 1) padc
               else Some (pad width padc));
      Some (front ++ [digit_char (num mod base)])
  end.

(** The 64 digits of a 64-bit number in base 2 or more. *)
Definition num_fuel : nat := 65.

(** ** The va_list *)
Inductive vaarg : Type :=
  | VInt (z : Z)                    (* an integer or a non-char pointer *)
  | VStr (s : option (list Z)).     (* a char pointer, [None] for NULL *)

Definition va_int (args : list vaarg) : option (Z * list vaarg) :=
  match args with VInt z :: r => Some (i32 z, r) | _ => None end.
Definition va_str (args : list vaarg) : option (option (list Z) * list vaarg) :=
  match args with VStr s :: r => Some (s, r) | _ => None end.
Definition getuint (args : list vaarg) (lflag : Z) : option (Z * list vaarg) :=
  match args with
  | VInt z :: r => Some (if 1 <=? lflag then u64 z else u32 z, r)
  | _ => None
  end.
Definition getint (args : list vaarg) (lflag : Z) : option (Z * list vaarg) :=
  match args with
  | VInt z :: r => Some (if 1 <=? lflag then i64 z else i32 z, r)
  | _ => None
  end.

Record flags : Type := mkFlags
  { padc : Z; width : Z; precision : Z; lflag : Z; altflag : bool }.
Definition flags0 : flags := mkFlags 32 (-1) (-1) 0 false.

Definition set_padc (c : Z) (fl : flags) : flags :=
  mkFlags c (width fl) (precision fl) (lflag fl) (altflag fl).
Definition set_width (w : Z) (fl : flags) : flags :=
  mkFlags (padc fl) w (precision fl) (lflag fl) (altflag fl).
Definition incr_lflag (fl : flags) : flags :=
  mkFlags (padc fl) (width fl) (precision fl) (lflag fl + 1) (altflag fl).
Definition set_alt (fl : flags) : flags :=
  mkFlags (padc fl) (width fl) (precision fl) (lflag fl) true.

(** The label process_precision, for the value just read into [precision]. *)
Definition process_precision (p : Z) (fl : flags) : flags :=
  if width fl <? 0 then mkFlags (padc fl) p (-1) (lflag fl) (altflag fl)
  else mkFlags (padc fl) (width fl) p (lflag fl) (altflag fl).

(** Read the rest of a decimal field: value and the remaining format. *)
Fixpoint read_dec (acc : Z) (fmt : list Z) : Z * list Z :=
  match fmt with
  | ch :: fmt' =>
      if (ch <? 48) || (57 <? ch) then (acc, fmt)
      else read_dec (acc * 10 + ch - 48) fmt'
  | [] => (acc, [])
  end.

Definition schar (c : Z) : Z := if c <? 128 then c else c - 256.

(** The body of %s after its left padding: characters while the precision
    lasts; returns them. *)
Fixpoint str_chars (p : list Z) (precision : Z) (altflag : bool) : list Z :=
  match p with
  | [] => []
  | c :: p' =>
      if c =? 0 then []
      else if (precision <? 0) || (0 <=? precision - 1) then
        (if altflag && ((schar c <? 32) || (126 <? schar c)) then 63 else schar c)
          :: str_chars p' (if precision <? 0 then precision else precision - 1) altflag
      else []
  end.

Fixpoint strnlen_list (p : list Z) (size : Z) : Z :=
  match p with
  | [] => 0
  | c :: p' => if (c =? 0) || (size <=? 0) then 0 else 1 + strnlen_list p' (size - 1)
  end.

Definition fmt_s (p : option (list Z)) (fl : flags) : list Z :=
  let p := default (str "(null)") p in
  let w := width fl in
  let '(lpad, w) :=
    if (0 <? w) && negb (padc fl =? 45) then
      let w' := w - strnlen_list p (u64 (precision fl)) in
      (replicate (Z.to_nat w') (padc fl), Z.min w' 0)
    else ([], w) in
  let body := str_chars p (precision fl) (altflag fl) in
  lpad ++ body ++ replicate (Z.to_nat (w - Z.of_nat (length body))) 32.

(** ** vprintfmt *)

(** [mode = None]: the plain-text loop.  [mode = Some (fl, start)]: inside an
    escape with the flags read so far; [start] is the format just after its '%',
    where the [default] case resumes. *)
Fixpoint vprintfmt (fuel : nat) (mode : option (flags * list Z))
    (fmt : list Z) (args : list vaarg) : option (list Z) :=
  match fuel with
  | O => None
  | S f =>
    let plain out fmt args := rest ← vprintfmt f None fmt args; Some (out ++ rest) in
    match mode with
    | None =>
        match fmt with
        | [] => Some []
        | ch :: fmt =>
            if ch =? 0 then Some []
            else if ch =? 37 then vprintfmt f (Some (flags0, fmt)) fmt args
            else plain [ch] fmt args
        end
    | Some (fl, start) =>
        let ch := default 0 (head fmt) in
        let fmt := tail fmt in
        let again fl fmt args := vprintfmt f (Some (fl, start)) fmt args in
        let number out num base args :=
          ds ← printnum num_fuel num base (width fl) (padc fl);
          plain (out ++ ds) fmt args in
        if ch =? 45 then again (set_padc 45 fl) fmt args
        else if ch =? 48 then again (set_padc 48 fl) fmt args
        else if (49 <=? ch) && (ch <=? 57) then
          let '(p, fmt) := read_dec (ch - 48) fmt in
          again (process_precision p fl) fmt args
        else if ch =? 42 then
          '(p, args) ← va_int args; again (process_precision p fl) fmt args
        else if ch =? 46 then
          again (if width fl <? 0 then set_width 0 fl else fl) fmt args
        else if ch =? 35 then again (set_alt fl) fmt args
        else if ch =? 108 then again (incr_lflag fl) fmt args
        else if ch =? 99 then
          '(c, args) ← va_int args; plain [c] fmt args
        else if ch =? 101 then
          '(err, args) ← va_int args;
          let err := if err <? 0 then i32 (- err) else err in
          if err <? 0 then None
          else
            msg ← match (if MAXERROR <=? err then None else error_string err) with
                  | None => vprintfmt f None (str "error %d") [VInt err]
                  | Some p => vprintfmt f None (str "%s") [VStr (Some p)]
                  end;
            plain msg fmt args
        else if ch =? 115 then
          '(p, args) ← va_str args; plain (fmt_s p fl) fmt args
        else if ch =? 100 then
          '(n, args) ← getint args 3;
          if n <? 0 then number [45] (u64 (- n)) 10 args else number [] n 10 args
        else if ch =? 117 then
          '(n, args) ← getuint args 3; number [] n 10 args
        else if ch =? 111 then
          '(n, args) ← getint args (lflag fl); number [] (u64 n) 8 args
        else if ch =? 112 then
          '(n, args) ← getuint args 3; number [48; 120] n 16 args
        else if ch =? 120 then
          '(n, args) ← getuint args 3; number [] n 16 args
        else if ch =? 37 then plain [ch] fmt args
        else plain [37] start args
    end
  end.

(** ** snprintf *)

Record sprintbuf : Type := mkBuf { b_mem : mem; b_buf : Z; b_ebuf : Z; b_cnt : Z }.

Definition sprintputch (b : sprintbuf) (ch : Z) : sprintbuf :=
  if b_buf b <? b_ebuf b
  then mkBuf (stb (b_mem b) (b_buf b) ch) (b_buf b + 1) (b_ebuf b) (b_cnt b + 1)
  else mkBuf (b_mem b) (b_buf b) (b_ebuf b) (b_cnt b + 1).

Definition vsnprintf (fuel : nat) (m : mem) (buf n : Z) (fmt : list Z)
    (args : list vaarg) : option (mem * Z) :=
  if (buf =? 0) || (n <? 1) then Some (m, - E_INVAL)
  else
    out ← vprintfmt fuel None fmt args;
    let b := fold_left sprintputch out (mkBuf m buf (buf + n - 1) 0) in
    Some (stb (b_mem b) (b_buf b) 0, b_cnt b).

Example fmt_ex1 :
  vprintfmt 100 None (str "%5d|%05d|%x|%s|%-4s|%e%z%")
    [VInt 42; VInt 42; VInt 255; VStr None; VStr (Some (str "ab")); VInt (-4)]
  = Some (str "   42|00042|ff|(null)|ab  |out of memory%z%").
Proof. vm_compute. reflexivity. Qed.

(** ** What printnum prints *)

(** The number a list of digit characters denotes. *)
Definition digit_val (c : Z) : Z := default 0 (digit_of c).
Definition of_digits (base v : Z) (ds : list Z) : Z :=
  fold_left (λ v c, v * base + digit_val c) ds v.
Definition is_digit (base c : Z) : Prop :=
  ∃ d, digit_of c = Some d ∧ 0 ≤ d < base.

Section printnum.
Implicit Types (ds : list Z).

Lemma digit_char_spec base d :
  base ≤ 16 → 0 ≤ d < base → digit_of (digit_char d) = Some d.
Proof.
  intros Hb Hd. unfold digit_char, digit_of.
  destruct (Z.ltb_spec d 10).
  - rewrite (proj2 (Z.leb_le 48 _)), (proj2 (Z.leb_le _ 57)) by lia.
    cbn. f_equal. lia.
  - rewrite (proj2 (Z.leb_gt _ 57)), andb_false_r by lia.
    rewrite (proj2 (Z.leb_le 97 _)), (proj2 (Z.leb_le _ 122)) by lia.
    cbn. f_equal. lia.
Qed.

Lemma of_digits_snoc base v ds c :
  of_digits base v (ds ++ [c]) = of_digits base v ds * base + digit_val c.
Proof. unfold of_digits. by rewrite fold_left_app. Qed.

Lemma printnum_spec fuel num base width padc :
  2 ≤ base ≤ 16 → (0 < fuel)%nat → 0 ≤ num < 2 ^ Z.of_nat fuel →
  ∃ ds, printnum fuel num base width padc =
          Some (replicate (Z.to_nat (width - Z.of_nat (length ds))) padc ++ ds) ∧
        of_digits base 0 ds = num ∧ Forall (is_digit base) ds ∧ ds ≠ [] ∧
        (head ds = Some 48 → num = 0) ∧ (length ds ≤ fuel)%nat.
Proof.
  intros Hb. revert num width. induction fuel as [|fuel IH]; intros num width H0f Hn; [lia|].
  rewrite Nat2Z.inj_succ, Z.pow_succ_r in Hn by lia. cbn [printnum].
  pose proof (Z.mod_pos_bound num base ltac:(lia)) as Hm.
  assert (Hd : is_digit base (digit_char (num mod base))).
  { exists (num mod base). split; [apply (digit_char_spec base); lia|lia]. }
  assert (Hv : digit_val (digit_char (num mod base)) = num mod base).
  { unfold digit_val. by rewrite (digit_char_spec base) by lia. }
  destruct (Z.leb_spec base num).
  - destruct (IH (num / base) (width - 1)) as (ds & -> & Hval & Hall & Hne & H0 & Hl).
    { destruct fuel; [cbn in Hn; lia|lia]. }
    { split; [apply Z.div_pos; lia|]. apply Z.div_lt_upper_bound; nia. }
    exists (ds ++ [digit_char (num mod base)]). cbn.
    split_and!.
    + rewrite <- (assoc_L (++)), length_app. do 2 f_equal.
      replace (Z.to_nat (width - 1 - Z.of_nat (length ds)))
        with (Z.to_nat (width - Z.of_nat (length ds + 1))) by lia. done.
    + rewrite of_digits_snoc, Hval, Hv. pose proof (Z.div_mod num base). lia.
    + apply Forall_app. auto.
    + by destruct ds.
    + destruct ds; [done|]. cbn. intros Hh. specialize (H0 Hh).
      apply Z.div_small_iff in H0; lia.
    + rewrite length_app. cbn. lia.
  - exists [digit_char (num mod base)]. cbn. unfold pad.
    split_and!; auto.
    + unfold of_digits. cbn [fold_left]. rewrite Hv, Z.mod_small by lia. lia.
    + unfold digit_char. rewrite Z.mod_small by lia. intros [= Hh]. destruct (Z.ltb_spec num 10); lia.
Qed.
End printnum.

Ltac num_fuel_lia :=
  unfold num_fuel; try change (2 ^ Z.of_nat 65) with (36893488147419103232); pow2; lia.

(** printnum prints the number in the given base: the digits it outputs
    denote [num], carry no leading zero, and are preceded by exactly the
    [width - #digits] pad characters that are missing; its recursion ends for
    every 64-bit number. *)
Theorem printnum_correct num base width padc :
  2 ≤ base ≤ 16 → 0 ≤ num < 2 ^ 64 →
  ∃ ds, printnum num_fuel num base width padc =
          Some (replicate (Z.to_nat (width - Z.of_nat (length ds))) padc ++ ds) ∧
        of_digits base 0 ds = num ∧ Forall (is_digit base) ds ∧ ds ≠ [] ∧
        (head ds = Some 48 → num = 0) ∧ (length ds ≤ 65)%nat.
Proof.
  intros Hb Hn. apply printnum_spec; [done|num_fuel_lia|].
  num_fuel_lia.
Qed.

(** ** strtol reads back what %d prints *)

Section strtol_digits.
Implicit Types (ds : list Z).

Lemma of_digits_ge base v ds :
  1 ≤ base → 0 ≤ v → Forall (is_digit base) ds → v ≤ of_digits base v ds.
Proof.
  intros Hb. revert v. induction ds as [|c ds IH]; intros v Hv Hall; [done|].
  inversion Hall as [|?? (d & Hd & Hr) Hall']; subst. cbn.
  assert (digit_val c = d) as E by (unfold digit_val; by rewrite Hd).
  rewrite E. etrans; [|apply IH; [nia|done]]. nia.
Qed.

Lemma strtol_digits_spec m s base v ds fuel :
  1 ≤ base → 0 ≤ v → Forall (is_digit base) ds → cstr m s ds →
  of_digits base v ds < 2 ^ 63 → (length ds < fuel)%nat →
  strtol_digits fuel m s base v =
    Some (of_digits base v ds, s + Z.of_nat (length ds)).
Proof.
  intros Hb. revert s v fuel. induction ds as [|c ds IH];
    intros s v [|fuel] Hv Hall Hs Hlt Hf; simpl in Hf; try lia.
  - apply cstr_nil in Hs. cbn. rewrite Hs. cbn. do 2 f_equal. lia.
  - apply cstr_cons in Hs as (Hc & _ & Hs).
    inversion Hall as [|?? (d & Hd & Hr) Hall']; subst. cbn [strtol_digits].
    rewrite Hd. rewrite (proj2 (Z.leb_gt base d)) by lia.
    assert (Hstep : of_digits base v (ldb m s :: ds) = of_digits base (v * base + d) ds).
    { unfold of_digits, digit_val. cbn. by rewrite Hd. }
    rewrite Hstep in Hlt |- *.
    pose proof (of_digits_ge base (v * base + d) ds Hb ltac:(nia) Hall').
    rewrite i64_id by (pow2; nia).
    rewrite IH by (done || nia). do 2 f_equal. cbn [length]. lia.
Qed.

Lemma digit_not_blank base c :
  base ≤ 16 → is_digit base c → c ≠ 32 ∧ c ≠ 9 ∧ c ≠ 43 ∧ c ≠ 45 ∧ 0 < c < 256.
Proof.
  intros Hb (d & Hd & _). unfold digit_of in Hd.
  repeat case_match; simplify_eq; lia.
Qed.

(** strtol at base 10 on digits, optionally preceded by a minus sign. *)
Lemma strtol_signed_digits m s (neg : bool) ds fuel :
  Forall (is_digit 10) ds → ds ≠ [] → of_digits 10 0 ds < 2 ^ 63 →
  cstr m s ((if neg then [45] else []) ++ ds) → (length ds < fuel)%nat →
  strtol fuel m s 10 =
    Some (if neg then - of_digits 10 0 ds else of_digits 10 0 ds,
          s + Z.of_nat (length ((if neg then [45] else []) ++ ds))).
Proof.
  intros Hall Hne Hlt Hs Hf. unfold strtol. destruct fuel as [|fuel]; [lia|].
  pose proof (of_digits_ge 10 0 ds ltac:(lia) ltac:(lia) Hall) as Hge.
  destruct neg; cbn [app] in *.
  - apply cstr_cons in Hs as Hs'. destruct Hs' as (Hc & _ & Hs'). cbn [skip_blanks].
    rewrite Hc. cbn -[strtol_digits]. rewrite Hc. cbn -[strtol_digits].
    rewrite (strtol_digits_spec _ _ _ _ ds) by (done || lia).
    rewrite i64_id by (pow2; lia). do 2 f_equal. lia.
  - destruct ds as [|c ds]; [done|].
    apply cstr_cons in Hs as Hs'. destruct Hs' as (Hc & _ & _). cbn [skip_blanks].
    inversion Hall; subst. edestruct (digit_not_blank 10) as (?&?&?&?&_);
      [lia|eassumption|].
    rewrite (proj2 (Z.eqb_neq (ldb m s) 32)), (proj2 (Z.eqb_neq (ldb m s) 9)) by done.
    cbn -[strtol_digits length].
    rewrite (proj2 (Z.eqb_neq (ldb m s) 43)), (proj2 (Z.eqb_neq (ldb m s) 45)) by done.
    cbn -[strtol_digits length].
    by rewrite (strtol_digits_spec _ _ _ _ (ldb m s :: ds)) by (done || lia).
Qed.
End strtol_digits.

(** C40. printf and strtol are inverse: the output of ["%d"] on any [long]
    other than LONG_MIN, stored as a C string, is read back by [strtol] at base
    10 as the same number, with [*endptr] at the end of the string. *)
Theorem strtol_printfmt_roundtrip x :
  - 2 ^ 63 < x < 2 ^ 63 →
  ∃ out, vprintfmt 8 None (str "%d") [VInt x] = Some out ∧
         ∀ m s, cstr m s out →
           strtol 100 m s 10 = Some (x, s + Z.of_nat (length out)).
Proof.
  intros Hx. change (str "%d") with [37; 100].
  cbn -[printnum num_fuel i64 u64]. rewrite i64_id by (pow2; lia).
  destruct (Z.ltb_spec x 0).
  - rewrite (u64_id (- x)) by (pow2; lia).
    destruct (printnum_spec num_fuel (- x) 10 (-1) 32)
      as (ds & -> & Hv & Hall & Hne & _ & Hl); [lia|num_fuel_lia..|].
    replace (Z.to_nat (-1 - Z.of_nat (length ds))) with 0%nat by lia. cbn.
    eexists. split; [done|]. intros m s Hs. rewrite app_nil_r in *.
    rewrite (strtol_signed_digits m s true ds);
      [rewrite Hv; do 2 f_equal; lia|done|done|rewrite Hv; pow2; lia|done|].
    unfold num_fuel in Hl. lia.
  - destruct (printnum_spec num_fuel x 10 (-1) 32)
      as (ds & -> & Hv & Hall & Hne & _ & Hl); [lia|num_fuel_lia..|].
    replace (Z.to_nat (-1 - Z.of_nat (length ds))) with 0%nat by lia. cbn.
    eexists. split; [done|]. intros m s Hs. rewrite app_nil_r in *.
    rewrite (strtol_signed_digits m s false ds);
      [by rewrite Hv|done|done|rewrite Hv; pow2; lia|done|].
    unfold num_fuel in Hl. lia.
Qed.

(** The fold of sprintputch over the output: the buffer pointer stops at
    [ebuf], the count does not. *)
Lemma sprintputch_fold out m buf ebuf cnt :
  buf ≤ ebuf →
  let k := Z.min (ebuf - buf) (Z.of_nat (length out)) in
  let b := fold_left sprintputch out (mkBuf m buf ebuf cnt) in
  b_buf b = buf + k ∧ b_cnt b = cnt + Z.of_nat (length out) ∧
  ∀ c, ldb (b_mem b) c =
         if decide (buf ≤ c < buf + k) then u8 (nth (Z.to_nat (c - buf)) out 0)
         else ldb m c.
Proof.
  revert m buf cnt. induction out as [|ch out IH]; intros m buf cnt Hle k b.
  { subst k b. cbn. split_and!; [lia..|]. intros c.
    by rewrite decide_False by lia. }
  subst b. cbn [fold_left length] in k |- *.
  destruct (Z.ltb_spec buf ebuf) as [Hlt|Hge].
  - replace (sprintputch (mkBuf m buf ebuf cnt) ch)
      with (mkBuf (stb m buf ch) (buf + 1) ebuf (cnt + 1))
      by (unfold sprintputch; cbn; by rewrite (proj2 (Z.ltb_lt buf ebuf))).
    destruct (IH (stb m buf ch) (buf + 1) (cnt + 1)) as (Hb & Hc & Hm); [lia|].
    split_and!; [lia|lia|]. intros c. rewrite Hm.
    destruct (decide (c = buf)) as [->|Hne].
    + rewrite decide_False, decide_True by lia. by rewrite ldb_stb_eq, Z.sub_diag.
    + rewrite ldb_stb_ne by done. repeat case_decide; try done || lia.
      by replace (Z.to_nat (c - buf)) with (Datatypes.S (Z.to_nat (c - (buf + 1)))) by lia.
  - replace (sprintputch (mkBuf m buf ebuf cnt) ch) with (mkBuf m buf ebuf (cnt + 1))
      by (unfold sprintputch; cbn; by rewrite (proj2 (Z.ltb_ge buf ebuf))).
    destruct (IH m buf (cnt + 1)) as (Hb & Hc & Hm); [lia|].
    split_and!; [lia|lia|]. intros c. rewrite Hm.
    repeat case_decide; done || lia.
Qed.

(** vsnprintf never overruns its buffer: it writes only within the [n]
    bytes, stores the longest prefix of the output that fits, NUL-terminates it,
    and returns the length of the whole output. *)
Theorem vsnprintf_bounded fuel m buf n fmt args out :
  buf ≠ 0 → 1 ≤ n → vprintfmt fuel None fmt args = Some out →
  let k := Z.min (n - 1) (Z.of_nat (length out)) in
  ∃ m', vsnprintf fuel m buf n fmt args = Some (m', Z.of_nat (length out)) ∧
        ∀ b, ldb m' b =
          if decide (buf ≤ b < buf + k) then u8 (nth (Z.to_nat (b - buf)) out 0)
          else if decide (b = buf + k) then 0 else ldb m b.
Proof.
  intros Hbuf Hn Hout k. unfold vsnprintf.
  rewrite (proj2 (Z.eqb_neq buf 0)), (proj2 (Z.ltb_ge n 1)), Hout by done. cbn.
  destruct (sprintputch_fold out m buf (buf + n - 1) 0) as (Hb & Hc & Hm); [lia|].
  eexists. split; [by rewrite Hc|]. intros b. rewrite Hb, ldb_stb, Hm.
  unfold k. repeat case_decide; try lia; done.
Qed.

(** ** Instances *)

Lemma printnum_correct_witness :
  ∃ ds, printnum num_fuel 0xbeef 16 6 48 =
          Some (replicate (Z.to_nat (6 - Z.of_nat (length ds))) 48 ++ ds) ∧
    of_digits 16 0 ds = 0xbeef.
Proof.
  destruct (printnum_correct 0xbeef 16 6 48) as (ds & E & Hv & _); [lia|lia|].
  by exists ds.
Defined.

Lemma strtol_printfmt_roundtrip_witness :
  ∃ out, vprintfmt 8 None (str "%d") [VInt (-4096)] = Some out ∧
         ∀ m s, cstr m s out → strtol 100 m s 10 = Some (-4096, s + Z.of_nat (length out)).
Proof. apply (strtol_printfmt_roundtrip (-4096)). lia. Defined.

Lemma vsnprintf_bounded_witness :
  ∃ m', vsnprintf 40 ∅ 4096 4 (str "%d!") [VInt 12345] = (Some (m', 6)) ∧ ldb m' 4098 = 51 ∧
    ldb m' 4099 = 0.
Proof.
  destruct (vsnprintf_bounded 40 ∅ 4096 4 (str "%d!") [VInt 12345] (str "12345!"))
    as (m' & E & H); [done|done|reflexivity|].
  exists m'. split; [exact E|]. split; rewrite H; by vm_compute.
Defined.
