(* ===== verification/Console.v ===== *)
(** * The console (kern/console.c)

    Input: the serial port and the keyboard feed a circular buffer, read by
    cons_getc.  The hardware side is the queue of bytes each device has ready
    ([serial_in], [kbd_in]; "data available" is a non-empty queue).  Output:
    every character goes to the serial port, the parallel port and the text
    screen.  A function of the C code that updates the statics is a function on
    [ConsState]. *)

From S2P Require Import Prelude.

Record ConsState : Type := mkCons
  { cons_buf : gmap Z Z;          (* cons.buf *)
    cons_rpos : Z;
    cons_wpos : Z;
    kbd_shift : Z;                (* kbd_proc_data's static shift *)
    serial_exists : bool;
    serial_in : list Z;           (* bytes waiting in the UART *)
    kbd_in : list Z;              (* scan codes waiting in the controller *)
    serial_out : list Z;
    lpt_out : list Z;
    crt_buf : gmap Z Z;           (* the text screen *)
    crt_pos : Z }.

Definition cons0 : ConsState := mkCons ∅ 0 0 0 true [] [] [] [] ∅ 0.

Definition set_cons_ring (b : gmap Z Z) (r w : Z) (c : ConsState) : ConsState :=
  mkCons b r w (kbd_shift c) (serial_exists c) (serial_in c) (kbd_in c) (serial_out c)
    (lpt_out c) (crt_buf c) (crt_pos c).
Definition set_kbd_shift (v : Z) (c : ConsState) : ConsState :=
  mkCons (cons_buf c) (cons_rpos c) (cons_wpos c) v (serial_exists c) (serial_in c)
    (kbd_in c) (serial_out c) (lpt_out c) (crt_buf c) (crt_pos c).
Definition set_serial_in (v : list Z) (c : ConsState) : ConsState :=
  mkCons (cons_buf c) (cons_rpos c) (cons_wpos c) (kbd_shift c) (serial_exists c) v
    (kbd_in c) (serial_out c) (lpt_out c) (crt_buf c) (crt_pos c).
Definition set_kbd_in (v : list Z) (c : ConsState) : ConsState :=
  mkCons (cons_buf c) (cons_rpos c) (cons_wpos c) (kbd_shift c) (serial_exists c)
    (serial_in c) v (serial_out c) (lpt_out c) (crt_buf c) (crt_pos c).
Definition set_out (s l : list Z) (c : ConsState) : ConsState :=
  mkCons (cons_buf c) (cons_rpos c) (cons_wpos c) (kbd_shift c) (serial_exists c)
    (serial_in c) (kbd_in c) s l (crt_buf c) (crt_pos c).
Definition set_crt (b : gmap Z Z) (p : Z) (c : ConsState) : ConsState :=
  mkCons (cons_buf c) (cons_rpos c) (cons_wpos c) (kbd_shift c) (serial_exists c)
    (serial_in c) (kbd_in c) (serial_out c) (lpt_out c) b p.

Definition CRT_ROWS : Z := 25.
Definition CRT_COLS : Z := 80.
Definition CRT_SIZE : Z := CRT_ROWS * CRT_COLS.
Definition CONSBUFSIZE : Z := 512.

(** ** Output *)

Definition serial_putc (ch : Z) (c : ConsState) : ConsState :=
  set_out (serial_out c ++ [u8 ch]) (lpt_out c) c.
Definition lpt_putc (ch : Z) (c : ConsState) : ConsState :=
  set_out (serial_out c) (lpt_out c ++ [u8 ch]) c.

(** [memmove(crt_buf, crt_buf + CRT_COLS, ..)] and the blank last row. *)
Fixpoint scroll_rows (n : nat) (i : Z) (old b : gmap Z Z) : gmap Z Z :=
  match n with
  | O => b
  | S n' => scroll_rows n' (i + 1) old (<[i := getd 0 old (i + CRT_COLS)]> b)
  end.
Fixpoint blank_row (n : nat) (i : Z) (b : gmap Z Z) : gmap Z Z :=
  match n with
  | O => b
  | S n' => blank_row n' (i + 1) (<[i := Z.lor 0x0700 32]> b)
  end.

(** [putc] is cons_putc, which a tab calls for each of its five spaces. *)
Definition cga_putc (putc : Z → ConsState → ConsState) (ch : Z) (c : ConsState)
    : ConsState :=
  let ch := if Z.land ch (Z.lnot 0xFF) =? 0 then Z.lor ch 0x0700 else ch in
  let x := Z.land ch 0xff in
  let c :=
    if x =? 8 then
      if 0 <? crt_pos c then
        set_crt (<[crt_pos c - 1 := u16 (Z.lor (Z.land ch (Z.lnot 0xff)) 32)]> (crt_buf c))
          (crt_pos c - 1) c
      else c
    else if x =? 10 then
      let p := u16 (crt_pos c + CRT_COLS) in set_crt (crt_buf c) (p - p mod CRT_COLS) c
    else if x =? 13 then set_crt (crt_buf c) (crt_pos c - crt_pos c mod CRT_COLS) c
    else if x =? 9 then putc 32 (putc 32 (putc 32 (putc 32 (putc 32 c))))
    else set_crt (<[crt_pos c := u16 ch]> (crt_buf c)) (u16 (crt_pos c + 1)) c in
  if CRT_SIZE <=? crt_pos c then
    set_crt
      (blank_row (Z.to_nat CRT_COLS) (CRT_SIZE - CRT_COLS)
         (scroll_rows (Z.to_nat (CRT_SIZE - CRT_COLS)) 0 (crt_buf c) (crt_buf c)))
      (crt_pos c - CRT_COLS) c
  else c.

(** A tab prints spaces, which print nothing further: depth two is enough. *)
Fixpoint cons_putc_depth (n : nat) (ch : Z) (c : ConsState) : ConsState :=
  match n with
  | O => c
  | S n' => cga_putc (cons_putc_depth n') ch (lpt_putc ch (serial_putc ch c))
  end.
Definition cons_putc : Z → ConsState → ConsState := cons_putc_depth 2.
Definition cputchar (ch : Z) (c : ConsState) : ConsState := cons_putc ch c.

(** ** Keyboard *)

Definition SHIFT : Z := 1.
Definition CTL : Z := 2.
Definition ALT : Z := 4.
Definition CAPSLOCK : Z := 8.
Definition NUMLOCK : Z := 16.
Definition SCROLLLOCK : Z := 32.
Definition E0ESC : Z := 64.
Definition KEY_DEL : Z := 0xE9.

Definition shiftcode (d : Z) : Z :=
  if d =? 0x1D then CTL else if d =? 0x2A then SHIFT else if d =? 0x36 then SHIFT
  else if d =? 0x38 then ALT else if d =? 0x9D then CTL else if d =? 0xB8 then ALT else 0.
Definition togglecode (d : Z) : Z :=
  if d =? 0x3A then CAPSLOCK else if d =? 0x45 then NUMLOCK
  else if d =? 0x46 then SCROLLLOCK else 0.

Definition normalmap_seq : list Z :=
  [ 0; 27; 49; 50; 51; 52; 53; 54; 55; 56; 57; 48; 45; 61; 8; 9;
    113; 119; 101; 114; 116; 121; 117; 105; 111; 112; 91; 93; 10; 0; 97; 115;
    100; 102; 103; 104; 106; 107; 108; 59; 39; 96; 0; 92; 122; 120; 99; 118;
    98; 110; 109; 44; 46; 47; 0; 42; 0; 32; 0; 0; 0; 0; 0; 0;
    0; 0; 0; 0; 0; 0; 0; 55; 56; 57; 45; 52; 53; 54; 43; 49;
    50; 51; 48; 46; 0; 0; 0; 0 ].
Definition normalmap_special : list (Z * Z) :=
  [ (0xC7, 0xE0); (0x9C, 0xA); (0xB5, 0x2F); (0xC8, 0xE2); (0xC9, 0xE6); (0xCB, 0xE4);
    (0xCD, 0xE5); (0xCF, 0xE1); (0xD0, 0xE3); (0xD1, 0xE7); (0xD2, 0xE8); (0xD3, 0xE9) ].
Definition shiftmap_seq : list Z :=
  [ 0; 27; 33; 64; 35; 36; 37; 94; 38; 42; 40; 41; 95; 43; 8; 9;
    81; 87; 69; 82; 84; 89; 85; 73; 79; 80; 123; 125; 10; 0; 65; 83;
    68; 70; 71; 72; 74; 75; 76; 58; 34; 126; 0; 124; 90; 88; 67; 86;
    66; 78; 77; 60; 62; 63; 0; 42; 0; 32; 0; 0; 0; 0; 0; 0;
    0; 0; 0; 0; 0; 0; 0; 55; 56; 57; 45; 52; 53; 54; 43; 49;
    50; 51; 48; 46; 0; 0; 0; 0 ].
Definition shiftmap_special : list (Z * Z) :=
  [ (0xC7, 0xE0); (0x9C, 0xA); (0xB5, 0x2F); (0xC8, 0xE2); (0xC9, 0xE6); (0xCB, 0xE4);
    (0xCD, 0xE5); (0xCF, 0xE1); (0xD0, 0xE3); (0xD1, 0xE7); (0xD2, 0xE8); (0xD3, 0xE9) ].
Definition ctlmap_seq : list Z :=
  [ 0; 0; 0; 0; 0; 0; 0; 0; 0; 0; 0; 0; 0; 0; 0; 0;
    17; 23; 5; 18; 20; 25; 21; 9; 15; 16; 0; 0; 13; 0; 1; 19;
    4; 6; 7; 8; 10; 11; 12; 0; 0; 0; 0; 28; 26; 24; 3; 22;
    2; 14; 13; 0; 0; 239; 0; 0 ].
Definition ctlmap_special : list (Z * Z) :=
  [ (0x97, 0xE0); (0xB5, 0xEF); (0xC8, 0xE2); (0xC9, 0xE6); (0xCB, 0xE4); (0xCD, 0xE5);
    (0xCF, 0xE1); (0xD0, 0xE3); (0xD1, 0xE7); (0xD2, 0xE8); (0xD3, 0xE9) ].

Fixpoint assoc (d : Z) (l : list (Z * Z)) : Z :=
  match l with
  | [] => 0
  | (k, v) :: l' => if d =? k then v else assoc d l'
  end.
Definition keymap (seq : list Z) (special : list (Z * Z)) (d : Z) : Z :=
  if d <? Z.of_nat (length seq) then nth (Z.to_nat d) seq 0 else assoc d special.
Definition normalmap : Z → Z := keymap normalmap_seq normalmap_special.
Definition shiftmap : Z → Z := keymap shiftmap_seq shiftmap_special.
Definition ctlmap : Z → Z := keymap ctlmap_seq ctlmap_special.
Definition charcode (i : Z) : Z → Z :=
  if i =? 0 then normalmap else if i =? 1 then shiftmap else ctlmap.

(** kbd_proc_data on the scan code [data]: the character and the new [shift].
    (Ctrl-Alt-Del also writes the reset port.) *)
Definition kbd_decode (shift data : Z) : Z * Z :=
  if data =? 0xE0 then (0, Z.lor shift E0ESC)
  else if negb (Z.land data 0x80 =? 0) then
    let data := if negb (Z.land shift E0ESC =? 0) then data else Z.land data 0x7F in
    (0, Z.land shift (Z.lnot (Z.lor (shiftcode data) E0ESC)))
  else
    let esc := negb (Z.land shift E0ESC =? 0) in
    let data := if esc then Z.lor data 0x80 else data in
    let shift := if esc then Z.land shift (Z.lnot E0ESC) else shift in
    let shift := Z.lor shift (shiftcode data) in
    let shift := Z.lxor shift (togglecode data) in
    let ch := charcode (Z.land shift (Z.lor CTL SHIFT)) data in
    let ch :=
      if negb (Z.land shift CAPSLOCK =? 0) then
        if (97 <=? ch) && (ch <=? 122) then ch + (65 - 97)
        else if (65 <=? ch) && (ch <=? 90) then ch + (97 - 65) else ch
      else ch in
    (ch, shift).

Definition kbd_proc_data (c : ConsState) : Z * ConsState :=
  match kbd_in c with
  | [] => (-1, c)
  | data :: rest =>
      let '(ch, shift) := kbd_decode (kbd_shift c) data in
      (ch, set_kbd_shift shift (set_kbd_in rest c))
  end.

Definition serial_proc_data (c : ConsState) : Z * ConsState :=
  match serial_in c with
  | [] => (-1, c)
  | b :: rest => (b, set_serial_in rest c)
  end.

(** ** The input ring *)

Definition cons_push (ch : Z) (c : ConsState) : ConsState :=
  let w := cons_wpos c + 1 in
  set_cons_ring (<[cons_wpos c := u8 ch]> (cons_buf c)) (cons_rpos c)
    (if w =? CONSBUFSIZE then 0 else w) c.

(** The loop runs until the device has nothing left; each round takes a byte. *)
Fixpoint cons_intr_loop (n : nat) (proc : ConsState → Z * ConsState) (c : ConsState)
    : ConsState :=
  match n with
  | O => c
  | S n' =>
      let '(ch, c') := proc c in
      if ch =? -1 then c'
      else if ch =? 0 then cons_intr_loop n' proc c'
      else cons_intr_loop n' proc (cons_push ch c')
  end.
Definition cons_intr (proc : ConsState → Z * ConsState) (c : ConsState) : ConsState :=
  cons_intr_loop (S (length (serial_in c) + length (kbd_in c))) proc c.

Definition serial_intr (c : ConsState) : ConsState :=
  if serial_exists c then cons_intr serial_proc_data c else c.
Definition kbd_intr (c : ConsState) : ConsState := cons_intr kbd_proc_data c.

Definition cons_getc (c : ConsState) : Z * ConsState :=
  let c := kbd_intr (serial_intr c) in
  if negb (cons_rpos c =? cons_wpos c) then
    let ch := getd 0 (cons_buf c) (cons_rpos c) in
    let r := cons_rpos c + 1 in
    (ch, set_cons_ring (cons_buf c) (if r =? CONSBUFSIZE then 0 else r) (cons_wpos c) c)
  else (0, c).

(** ** The ring as a queue *)

Definition ring_ok (c : ConsState) : Prop :=
  0 ≤ cons_rpos c < CONSBUFSIZE ∧ 0 ≤ cons_wpos c < CONSBUFSIZE.

Definition queue_len (c : ConsState) : Z := (cons_wpos c - cons_rpos c) mod CONSBUFSIZE.

(** The characters not yet read, oldest first. *)
Definition queue (c : ConsState) : list Z :=
  (λ i, getd 0 (cons_buf c) ((cons_rpos c + i) mod CONSBUFSIZE)) <$> seqZ 0 (queue_len c).

Definition nonzero (l : list Z) : list Z := base.filter (λ x, x ≠ 0) l.

(** The characters a run of scan codes stands for, and the shift state after. *)
Fixpoint kbd_chars (shift : Z) (codes : list Z) : list Z * Z :=
  match codes with
  | [] => ([], shift)
  | d :: rest =>
      let '(ch, shift') := kbd_decode shift d in
      let '(l, sh) := kbd_chars shift' rest in (ch :: l, sh)
  end.

Section ring.
Implicit Types (c : ConsState).

Lemma cons_push_ok ch c : ring_ok c → ring_ok (cons_push ch c).
Proof.
  intros [Hr Hw]. unfold cons_push, ring_ok, CONSBUFSIZE in *. cbn.
  destruct (Z.eqb_spec (cons_wpos c + 1) 512); lia.
Qed.

Lemma queue_push ch c :
  ring_ok c → queue_len c < CONSBUFSIZE - 1 → queue (cons_push ch c) = queue c ++ [u8 ch].
Proof.
  intros [Hr Hw] Hlen. unfold queue.
  assert (Hl : queue_len (cons_push ch c) = queue_len c + 1).
  { unfold queue_len, cons_push, CONSBUFSIZE in *. cbn.
    destruct (Z.eqb_spec (cons_wpos c + 1) 512); zlia. }
  rewrite Hl, seqZ_app by (unfold queue_len, CONSBUFSIZE; zlia).
  rewrite fmap_app. f_equal.
  - apply list_fmap_ext. intros i x Hi.
    apply lookup_seqZ in Hi as [-> Hi].
    unfold cons_push. cbn [cons_buf cons_rpos set_cons_ring]. rewrite getd_insert_ne; [done|].
    unfold queue_len, CONSBUFSIZE in *. zlia.
  - rewrite (seqZ_cons _ 1), (seqZ_nil _ (Z.pred 1)) by lia. rewrite list_fmap_singleton.
    f_equal. unfold cons_push. cbn [cons_buf cons_rpos set_cons_ring].
    rewrite getd_insert. rewrite decide_True; [done|].
    unfold queue_len, CONSBUFSIZE in *. zlia.
Qed.

Lemma queue_push_len ch c :
  ring_ok c → queue_len c < CONSBUFSIZE - 1 → queue_len (cons_push ch c) = queue_len c + 1.
Proof.
  intros [Hr Hw] Hlen. unfold queue_len, cons_push, CONSBUFSIZE in *. cbn.
  destruct (Z.eqb_spec (cons_wpos c + 1) 512); zlia.
Qed.

Lemma length_queue c : Z.of_nat (length (queue c)) = queue_len c.
Proof.
  unfold queue. rewrite length_fmap, length_seqZ.
  assert (0 ≤ queue_len c) by (unfold queue_len, CONSBUFSIZE; zlia). lia.
Qed.
End ring.

(** The loop's effect on the ring, for the characters [l]. *)
Definition pushes (l : list Z) (c : ConsState) : ConsState :=
  fold_left (λ c ch, if ch =? 0 then c else cons_push ch c) l c.

Definition byte (x : Z) : Prop := 0 ≤ x < 256.

Section drain.
Implicit Types (c : ConsState) (l : list Z).

Lemma serial_drain n c :
  (length (serial_in c) < n)%nat → Forall byte (serial_in c) →
  cons_intr_loop n serial_proc_data c = pushes (serial_in c) (set_serial_in [] c).
Proof.
  revert c. induction n as [|n IH]; intros c Hn Hb; [lia|].
  cbn [cons_intr_loop]. unfold serial_proc_data. destruct (serial_in c) as [|b l] eqn:E.
  - cbn. destruct c; cbn in *; by subst.
  - apply Forall_cons_iff in Hb as [Hb Hl]. unfold byte in Hb. cbn in Hn.
    rewrite (proj2 (Z.eqb_neq b (-1))) by lia.
    cbn [pushes fold_left]. destruct (b =? 0).
    + rewrite IH by (cbn; done || lia). done.
    + rewrite IH by (cbn; done || lia). done.
Qed.

Lemma map_range seq special d :
  Forall byte seq → Forall byte special.*2 → byte (keymap seq special d).
Proof.
  intros Hs Hp. unfold keymap. case_match.
  - destruct (decide (Z.to_nat d < length seq)%nat).
    + rewrite List.Forall_forall in Hs. apply Hs, nth_In. done.
    + rewrite nth_overflow by lia. by unfold byte.
  - induction special as [|[k v] sp IH]; cbn; [by unfold byte|].
    cbn in Hp. apply Forall_cons_iff in Hp as [??]. case_match; auto.
Qed.

Lemma charcode_range i d : byte (charcode i d).
Proof.
  unfold charcode, normalmap, shiftmap, ctlmap.
  repeat case_match; apply map_range; vm_compute; repeat constructor; congruence.
Qed.

Lemma kbd_decode_range shift d : byte (kbd_decode shift d).1.
Proof.
  unfold kbd_decode. case_match; [by unfold byte|]. case_match; [by unfold byte|].
  cbn zeta. cbn [fst]. match goal with |- context[charcode ?i ?x] =>
    pose proof (charcode_range i x) as Hc; generalize dependent (charcode i x) end.
  intros ch Hc. unfold byte in *. repeat case_match; lia.
Qed.

Lemma kbd_drain n c :
  (length (kbd_in c) < n)%nat →
  let '(l, sh) := kbd_chars (kbd_shift c) (kbd_in c) in
  cons_intr_loop n kbd_proc_data c = pushes l (set_kbd_shift sh (set_kbd_in [] c)).
Proof.
  revert c. induction n as [|n IH]; intros c Hn; [lia|].
  cbn [cons_intr_loop]. unfold kbd_proc_data. destruct (kbd_in c) as [|d rest] eqn:E.
  - cbn. destruct c; cbn in *; by subst.
  - cbn in Hn. cbn [kbd_chars]. pose proof (kbd_decode_range (kbd_shift c) d) as Hr.
    destruct (kbd_decode (kbd_shift c) d) as [ch sh'] eqn:Ed. cbn in Hr.
    destruct (kbd_chars sh' rest) as [l sh] eqn:Ec.
    rewrite (proj2 (Z.eqb_neq ch (-1))) by (unfold byte in Hr; lia).
    cbn [pushes fold_left]. destruct (ch =? 0).
    + specialize (IH (set_kbd_shift sh' (set_kbd_in rest c))).
      change (kbd_in (set_kbd_shift sh' (set_kbd_in rest c))) with rest in IH.
      change (kbd_shift (set_kbd_shift sh' (set_kbd_in rest c))) with sh' in IH.
      rewrite Ec in IH. etrans; [apply IH; lia|done].
    + specialize (IH (cons_push ch (set_kbd_shift sh' (set_kbd_in rest c)))).
      change (kbd_in (cons_push ch (set_kbd_shift sh' (set_kbd_in rest c)))) with rest in IH.
      change (kbd_shift (cons_push ch (set_kbd_shift sh' (set_kbd_in rest c)))) with sh' in IH.
      rewrite Ec in IH. etrans; [apply IH; lia|done].
Qed.

Lemma kbd_chars_range sh codes : Forall byte (kbd_chars sh codes).1.
Proof.
  revert sh. induction codes as [|d codes IH]; intros sh; cbn; [constructor|].
  pose proof (kbd_decode_range sh d). destruct (kbd_decode sh d) as [ch sh'].
  specialize (IH sh'). destruct (kbd_chars sh' codes). by constructor.
Qed.

Lemma pushes_spec l c :
  ring_ok c → Forall byte l →
  queue_len c + Z.of_nat (length (nonzero l)) < CONSBUFSIZE →
  ring_ok (pushes l c) ∧ queue (pushes l c) = queue c ++ nonzero l.
Proof.
  revert c. induction l as [|x l IH]; intros c Hok Hl Hlen.
  - by rewrite app_nil_r.
  - apply Forall_cons_iff in Hl as [Hx Hl]. unfold nonzero in *.
    cbn [pushes fold_left]. destruct (Z.eqb_spec x 0) as [->|Hne].
    + rewrite filter_cons_False in * by lia. by apply IH.
    + rewrite filter_cons_True in * by done. cbn in Hlen.
      destruct (IH (cons_push x c)) as [H1 H2]; [by apply cons_push_ok|done| |].
      * rewrite queue_push_len by (done || lia). lia.
      * split; [exact H1|]. etrans; [exact H2|].
        rewrite queue_push by (done || lia). rewrite <- app_assoc. cbn.
        rewrite u8_id by (unfold byte in Hx; lia). done.
Qed.
End drain.

(** ** Properties *)

(** The input waiting to be read: in the ring, at the serial port, and on the
    keyboard, in that order. *)
Definition pending (c : ConsState) : list Z :=
  queue c ++ nonzero (if serial_exists c then serial_in c else [])
          ++ nonzero (kbd_chars (kbd_shift c) (kbd_in c)).1.

Definition drained (c : ConsState) : ConsState := kbd_intr (serial_intr c).

Lemma drained_spec c :
  ring_ok c → Forall byte (serial_in c) →
  Z.of_nat (length (pending c)) < CONSBUFSIZE →
  ring_ok (drained c) ∧ queue (drained c) = pending c ∧ kbd_in (drained c) = [].
Proof.
  intros Hok Hb Hlen. unfold pending in *. rewrite !length_app, !Nat2Z.inj_add in Hlen.
  pose proof (length_queue c) as Hq.
  assert (Hpush : ∀ l x, kbd_in (pushes l x) = kbd_in x ∧ kbd_shift (pushes l x) = kbd_shift x).
  { induction l as [|y l IH]; intros x; [done|]. cbn [pushes fold_left].
    destruct (y =? 0); destruct (IH x), (IH (cons_push y x)); done. }
  set (c1 := serial_intr c).
  assert (H1 : ring_ok c1 ∧
    queue c1 = queue c ++ nonzero (if serial_exists c then serial_in c else []) ∧
    kbd_in c1 = kbd_in c ∧ kbd_shift c1 = kbd_shift c).
  { unfold c1, serial_intr. destruct (serial_exists c); [|by rewrite app_nil_r].
    unfold cons_intr. rewrite serial_drain by (done || lia).
    destruct (pushes_spec (serial_in c) (set_serial_in [] c)) as [? ?]; [done|done| |].
    - change (queue_len (set_serial_in [] c)) with (queue_len c). lia.
    - destruct (Hpush (serial_in c) (set_serial_in [] c)). by split_and!. }
  destruct H1 as (Hok1 & Hq1 & Hk1 & Hs1). unfold drained. fold c1.
  unfold kbd_intr, cons_intr.
  pose proof (kbd_drain (S (length (serial_in c1) + length (kbd_in c1))) c1) as Hd.
  pose proof (kbd_chars_range (kbd_shift c1) (kbd_in c1)) as Hr.
  rewrite Hk1, Hs1 in Hd, Hr.
  destruct (kbd_chars (kbd_shift c) (kbd_in c)) as [l sh] eqn:Ec. cbn [fst] in *.
  rewrite Hk1, Hd by lia.
  destruct (pushes_spec l (set_kbd_shift sh (set_kbd_in [] c1))) as [H2 H3]; [done|done| |].
  - change (queue_len (set_kbd_shift sh (set_kbd_in [] c1))) with (queue_len c1).
    rewrite <- length_queue, Hq1, length_app, Nat2Z.inj_add. lia.
  - split_and!; [exact H2| |by rewrite (proj1 (Hpush _ _))].
    rewrite H3. change (queue (set_kbd_shift sh (set_kbd_in [] c1))) with (queue c1).
    by rewrite Hq1, <- app_assoc.
Qed.

(** Console input is a FIFO.  As long as fewer than 512 characters are
    waiting, cons_getc returns the oldest of those in the ring, then the serial
    port's, then the keyboard's decoded characters (zero bytes are dropped), 0 when
    there is none, and leaves the rest waiting in the same order. *)
Theorem cons_getc_fifo c :
  ring_ok c → Forall byte (serial_in c) →
  Z.of_nat (length (pending c)) < CONSBUFSIZE →
  let '(ch, c') := cons_getc c in
  ring_ok c' ∧
  match pending c with
  | [] => ch = 0 ∧ queue c' = []
  | x :: rest => ch = x ∧ queue c' = rest ∧ kbd_in c' = []
  end.
Proof.
  intros Hok Hb Hlen. destruct (drained_spec c Hok Hb Hlen) as (Hok' & Hq & Hk).
  unfold cons_getc. fold (drained c). set (d := drained c) in *. clearbody d.
  pose proof Hok' as [Hr Hw]. unfold CONSBUFSIZE in *.
  destruct (Z.eqb_spec (cons_rpos d) (cons_wpos d)) as [E|E]; cbn [negb].
  - assert (queue d = []) as Hn.
    { unfold queue, queue_len. rewrite E, Z.sub_diag. done. }
    rewrite <- Hq, Hn. done.
  - assert (Hl : 1 ≤ queue_len d < 512) by (unfold queue_len, CONSBUFSIZE; zlia).
    rewrite <- Hq. unfold queue at 1. rewrite seqZ_cons by lia. cbn [fmap list_fmap].
    split_and!; [unfold ring_ok, CONSBUFSIZE; cbn [cons_rpos cons_wpos set_cons_ring]| | |done].
    + destruct (Z.eqb_spec (cons_rpos d + 1) 512); lia.
    + by rewrite Z.add_0_r, Z.mod_small by (unfold CONSBUFSIZE; lia).
    + unfold queue.
      assert (queue_len (set_cons_ring (cons_buf d)
        (if cons_rpos d + 1 =? 512 then 0 else cons_rpos d + 1) (cons_wpos d) d)
        = Z.pred (queue_len d)) as ->.
      { unfold queue_len, CONSBUFSIZE. cbn.
        destruct (Z.eqb_spec (cons_rpos d + 1) 512); zlia. }
      change (Z.succ 0) with (1 + 0). rewrite <- fmap_add_seqZ, <- list_fmap_compose.
      apply list_fmap_ext. intros i x [-> Hi]%lookup_seqZ. cbn. f_equal.
      unfold CONSBUFSIZE. destruct (Z.eqb_spec (cons_rpos d + 1) 512); zlia.
Qed.

(** The ring holds 511 characters: with one more, it looks empty and all are
    lost. *)
Theorem cons_ring_overflow c ch :
  ring_ok c → queue_len c = CONSBUFSIZE - 1 → queue (cons_push ch c) = [].
Proof.
  intros [Hr Hw] Hl. unfold queue.
  assert (queue_len (cons_push ch c) = 0) as ->; [|done].
  unfold queue_len, cons_push, CONSBUFSIZE in *. cbn.
  destruct (Z.eqb_spec (cons_wpos c + 1) 512); zlia.
Qed.

(** ** The text screen *)

Definition screen_ok (c : ConsState) : Prop := 0 ≤ crt_pos c < CRT_SIZE.

(** Cells off the screen keep their value. *)
Definition off_screen_same (c c' : ConsState) : Prop :=
  ∀ i, ¬ 0 ≤ i < CRT_SIZE → crt_buf c' !! i = crt_buf c !! i.

Lemma scroll_rows_off n i old b j :
  j < i ∨ i + Z.of_nat n ≤ j → scroll_rows n i old b !! j = b !! j.
Proof.
  revert i b. induction n as [|n IH]; intros i b Hj; [done|]. cbn [scroll_rows].
  rewrite IH by lia. rewrite lookup_insert_ne; [done|lia].
Qed.

Lemma blank_row_off n i b j :
  j < i ∨ i + Z.of_nat n ≤ j → blank_row n i b !! j = b !! j.
Proof.
  revert i b. induction n as [|n IH]; intros i b Hj; [done|]. cbn [blank_row].
  rewrite IH by lia. rewrite lookup_insert_ne; [done|lia].
Qed.

Lemma scroll_ok c :
  0 ≤ crt_pos c ≤ CRT_SIZE →
  let c' := if CRT_SIZE <=? crt_pos c then
    set_crt
      (blank_row (Z.to_nat CRT_COLS) (CRT_SIZE - CRT_COLS)
         (scroll_rows (Z.to_nat (CRT_SIZE - CRT_COLS)) 0 (crt_buf c) (crt_buf c)))
      (crt_pos c - CRT_COLS) c else c in
  screen_ok c' ∧ off_screen_same c c'.
Proof.
  intros Hp. unfold screen_ok, off_screen_same.
  destruct (Z.leb_spec CRT_SIZE (crt_pos c)); cbn zeta; [|split; [lia|done]].
  unfold CRT_SIZE, CRT_ROWS, CRT_COLS in *. cbn [crt_pos crt_buf set_crt].
  split; [lia|]. intros i Hi. rewrite blank_row_off by lia. by rewrite scroll_rows_off by lia.
Qed.

Lemma cga_putc_ok putc ch c :
  screen_ok c →
  (Z.land ch 0xff = 9 → ∀ c, screen_ok c → screen_ok (putc 32 c) ∧ off_screen_same c (putc 32 c)) →
  screen_ok (cga_putc putc ch c) ∧ off_screen_same c (cga_putc putc ch c).
Proof.
  intros Hc Hputc. unfold cga_putc.
  set (ch' := if Z.land ch (Z.lnot 0xFF) =? 0 then Z.lor ch 0x0700 else ch).
  assert (Hlow : Z.land ch' 0xff = Z.land ch 0xff).
  { unfold ch'. case_match; [|done]. rewrite Z.land_lor_distr_l. cbn. by rewrite Z.lor_0_r. }
  rewrite Hlow. set (x := Z.land ch 0xff) in *.
  match goal with |- context[crt_buf ?t] =>
    lazymatch t with if _ then _ else _ => set (c1 := t) end end.
  assert (H1 : 0 ≤ crt_pos c1 ≤ CRT_SIZE ∧ off_screen_same c c1).
  { unfold c1, off_screen_same, screen_ok, CRT_SIZE, CRT_ROWS, CRT_COLS in *.
    destruct (x =? 8); [|destruct (x =? 10); [|destruct (x =? 13);
      [|destruct (Z.eqb_spec x 9) as [E|_]]]].
    - destruct (Z.ltb_spec 0 (crt_pos c)); cbn; [|split; [lia|done]].
      split; [lia|]. intros i Hi. rewrite lookup_insert_ne; [done|lia].
    - cbn. rewrite u16_id by lia. split; [zlia|done].
    - cbn. split; [zlia|done].
    - specialize (Hputc E).
      destruct (Hputc c Hc) as [Ha Ha'], (Hputc _ Ha) as [Hb Hb'], (Hputc _ Hb) as [Hd Hd'],
        (Hputc _ Hd) as [He He'], (Hputc _ He) as [Hf Hf'].
      split; [lia|]. intros i Hi. by rewrite Hf', He', Hd', Hb', Ha'.
    - cbn. rewrite u16_id by lia. split; [lia|].
      intros i Hi. rewrite lookup_insert_ne; [done|lia]. }
  destruct H1 as [Hp Hoff]. destruct (scroll_ok c1 Hp) as [H2 H3].
  split; [exact H2|]. intros i Hi. rewrite <- Hoff by done. by apply H3.
Qed.

(** The screen driver never writes outside the 80 x 25 text buffer: printing
    any character, tabs and scrolling included, keeps the cursor on the screen and
    every cell outside the buffer unchanged. *)
Theorem cons_putc_on_screen ch c :
  screen_ok c → screen_ok (cons_putc ch c) ∧ off_screen_same c (cons_putc ch c).
Proof.
  intros Hc. apply (cga_putc_ok (cons_putc_depth 1) ch (lpt_putc ch (serial_putc ch c)));
    [done|]. intros _ d Hd.
  by apply (cga_putc_ok (cons_putc_depth 0) 32 (lpt_putc 32 (serial_putc 32 d))).
Qed.

(** ** Instances *)

(** Shift, 'a', release: an upper-case A. *)
Definition ex_cons : ConsState :=
  set_kbd_in [0x2A; 0x1E; 0x9E; 0xAA; 0x1E] (set_serial_in [104; 0; 105] cons0).

Lemma cons_getc_fifo_witness :
  pending ex_cons = [104; 105; 65; 97] ∧ (cons_getc ex_cons).1 = 104.
Proof.
  assert (pending ex_cons = [104; 105; 65; 97]) as Hp by (vm_compute; reflexivity).
  split; [exact Hp|].
  pose proof (cons_getc_fifo ex_cons) as H. rewrite Hp in H.
  destruct (cons_getc ex_cons) as [ch c'].
  apply H; [split; vm_compute; split; congruence|
    repeat constructor; vm_compute; congruence|vm_compute; reflexivity].
Defined.

Lemma cons_ring_overflow_witness :
  queue (cons_push 65 (set_cons_ring ∅ 0 511 cons0)) = [].
Proof.
  apply (cons_ring_overflow (set_cons_ring ∅ 0 511 cons0) 65);
    [split; vm_compute; split; congruence|vm_compute; reflexivity].
Defined.

Lemma cons_putc_on_screen_witness :
  crt_pos (cons_putc 10 (set_crt ∅ 1999 cons0)) = 1920 ∧
  screen_ok (cons_putc 10 (set_crt ∅ 1999 cons0)).
Proof.
  split; [vm_compute; reflexivity|].
  apply (cons_putc_on_screen 10 (set_crt ∅ 1999 cons0)). split; vm_compute; congruence.
Defined.
