(* ===== verification/KState.v ===== *)
(** * The kernel's global state

    One record holds the globals of kern/*.c that the modelled code reads or
    writes, with the C names; the data types of inc/env.h, inc/trap.h,
    inc/memlayout.h and kern/cpu.h; and the constants of inc/mmu.h and
    inc/memlayout.h.  A [struct PageInfo *] is the page's index in [pages]
    ([option Z], [None] = NULL), a [struct Env *] its index in [envs].
    Kernel pointers to page tables are kernel virtual addresses; dereferencing
    one goes through the direct map [KERNBASE, KERNBASE + npages * PGSIZE) that
    x64_vm_init sets up, and faults outside it. *)

From S2P Require Import Prelude Mem Console.

(** ** inc/mmu.h, inc/memlayout.h, inc/env.h, kern/cpu.h *)

Definition PGSHIFT : Z := 12.
Definition NPTENTRIES : Z := 512.
Definition PTSIZE : Z := PGSIZE * NPTENTRIES.
Definition PTXSHIFT : Z := 12.
Definition PDXSHIFT : Z := 21.
Definition PDPESHIFT : Z := 30.
Definition PML4SHIFT : Z := 39.

Definition PTE_P : Z := 0x001.
Definition PTE_W : Z := 0x002.
Definition PTE_U : Z := 0x004.
Definition PTE_PWT : Z := 0x008.
Definition PTE_PCD : Z := 0x010.
Definition PTE_AVAIL : Z := 0xE00.
Definition PTE_SYSCALL : Z := Z.lor (Z.lor (Z.lor PTE_AVAIL PTE_P) PTE_W) PTE_U.

Definition KERNBASE : Z := 0x8004000000.
Definition IOPHYSMEM : Z := 0x0A0000.
Definition EXTPHYSMEM : Z := 0x100000.
Definition KSTACKTOP : Z := KERNBASE.
Definition KSTKSIZE : Z := 16 * PGSIZE.
Definition KSTKGAP : Z := 8 * PGSIZE.
Definition MMIOLIM : Z := KSTACKTOP - PTSIZE.
Definition MMIOBASE : Z := MMIOLIM - PTSIZE.
Definition ULIM : Z := MMIOBASE.
Definition UVPT : Z := 0x10000000000.
Definition UPAGES : Z := ULIM - 25 * PTSIZE.
Definition UENVS : Z := UPAGES - PTSIZE.
Definition UTOP : Z := UENVS.
Definition UXSTACKTOP : Z := 0xef800000.
Definition USTACKTOP : Z := UXSTACKTOP - 2 * PGSIZE.
Definition UTEXT : Z := 4 * PTSIZE.
Definition MPENTRY_PADDR : Z := 0x7000.

Definition GD_KT : Z := 0x08.
Definition GD_UT : Z := 0x18.
Definition GD_UD : Z := 0x20.
Definition FL_IF : Z := 0x200.
Definition FL_IOPL_MASK : Z := 0x3000.

Definition LOG2NENV : Z := 10.
Definition NENV : Z := Z.shiftl 1 LOG2NENV.
Definition NCPU : Z := 8.

(** Page-number and page-table-index fields of an address. *)
Definition PPN (pa : Z) : Z := Z.shiftr (u64 pa) PTXSHIFT.
Definition PML4 (la : Z) : Z := Z.land (Z.shiftr (u64 la) PML4SHIFT) 0x1FF.
Definition PDPE (la : Z) : Z := Z.land (Z.shiftr (u64 la) PDPESHIFT) 0x1FF.
Definition PDX (la : Z) : Z := Z.land (Z.shiftr (u64 la) PDXSHIFT) 0x1FF.
Definition PTX (la : Z) : Z := Z.land (Z.shiftr (u64 la) PTXSHIFT) 0x1FF.
Definition PGOFF (la : Z) : Z := Z.land (u64 la) 0xFFF.
Definition PGADDR (m p d t o : Z) : Z :=
  Z.lor (Z.lor (Z.lor (Z.lor (Z.shiftl m PML4SHIFT) (Z.shiftl p PDPESHIFT))
    (Z.shiftl d PDXSHIFT)) (Z.shiftl t PTXSHIFT)) o.

(** Address part of a page-table entry: [pte & ~0xFFF]. *)
Definition PTE_ADDR (pte : Z) : Z := Z.land (u64 pte) (Z.lnot 0xFFF).

Definition ROUNDDOWN (a n : Z) : Z := u64 a - u64 a mod n.
Definition ROUNDUP (a n : Z) : Z := ROUNDDOWN (u64 (u64 a + n - 1)) n.

(** ** Data types *)

(** [ENV_FREE .. ENV_NOT_RUNNABLE], [ENV_TYPE_*], [CPU_*]: C enums, kept as the
    integers the code stores. *)
Definition ENV_FREE : Z := 0.
Definition ENV_DYING : Z := 1.
Definition ENV_RUNNABLE : Z := 2.
Definition ENV_RUNNING : Z := 3.
Definition ENV_NOT_RUNNABLE : Z := 4.
Definition ENV_TYPE_USER : Z := 0.
Definition ENV_TYPE_FS : Z := 1.
Definition ENV_TYPE_NS : Z := 2.
Definition CPU_UNUSED : Z := 0.
Definition CPU_STARTED : Z := 1.
Definition CPU_HALTED : Z := 2.

Record PageInfo : Type := mkPage { pp_link : option Z; pp_ref : Z }.
Definition page0 : PageInfo := mkPage None 0.

Record PushRegs : Type := mkPushRegs
  { reg_r15 : Z;
    reg_r14 : Z;
    reg_r13 : Z;
    reg_r12 : Z;
    reg_r11 : Z;
    reg_r10 : Z;
    reg_r9 : Z;
    reg_r8 : Z;
    reg_rsi : Z;
    reg_rdi : Z;
    reg_rbp : Z;
    reg_rdx : Z;
    reg_rcx : Z;
    reg_rbx : Z;
    reg_rax : Z }.

Definition set_reg_rax (v : Z) (r : PushRegs) : PushRegs :=
    mkPushRegs (reg_r15 r) (reg_r14 r) (reg_r13 r) (reg_r12 r) (reg_r11 r) (reg_r10 r)
    (reg_r9 r) (reg_r8 r) (reg_rsi r) (reg_rdi r) (reg_rbp r) (reg_rdx r) (reg_rcx r)
    (reg_rbx r) v.

Record Trapframe : Type := mkTrapframe
  { tf_regs : PushRegs;
    tf_es : Z;
    tf_ds : Z;
    tf_trapno : Z;
    tf_err : Z;
    tf_rip : Z;
    tf_cs : Z;
    tf_eflags : Z;
    tf_rsp : Z;
    tf_ss : Z }.

Definition set_tf_regs (v : PushRegs) (t : Trapframe) : Trapframe :=
    mkTrapframe v (tf_es t) (tf_ds t) (tf_trapno t) (tf_err t) (tf_rip t) (tf_cs t)
    (tf_eflags t) (tf_rsp t) (tf_ss t).
Definition set_tf_es (v : Z) (t : Trapframe) : Trapframe :=
    mkTrapframe (tf_regs t) v (tf_ds t) (tf_trapno t) (tf_err t) (tf_rip t) (tf_cs t)
    (tf_eflags t) (tf_rsp t) (tf_ss t).
Definition set_tf_ds (v : Z) (t : Trapframe) : Trapframe :=
    mkTrapframe (tf_regs t) (tf_es t) v (tf_trapno t) (tf_err t) (tf_rip t) (tf_cs t)
    (tf_eflags t) (tf_rsp t) (tf_ss t).
Definition set_tf_rip (v : Z) (t : Trapframe) : Trapframe :=
    mkTrapframe (tf_regs t) (tf_es t) (tf_ds t) (tf_trapno t) (tf_err t) v (tf_cs t)
    (tf_eflags t) (tf_rsp t) (tf_ss t).
Definition set_tf_cs (v : Z) (t : Trapframe) : Trapframe :=
    mkTrapframe (tf_regs t) (tf_es t) (tf_ds t) (tf_trapno t) (tf_err t) (tf_rip t) v
    (tf_eflags t) (tf_rsp t) (tf_ss t).
Definition set_tf_eflags (v : Z) (t : Trapframe) : Trapframe :=
    mkTrapframe (tf_regs t) (tf_es t) (tf_ds t) (tf_trapno t) (tf_err t) (tf_rip t)
    (tf_cs t) v (tf_rsp t) (tf_ss t).
Definition set_tf_rsp (v : Z) (t : Trapframe) : Trapframe :=
    mkTrapframe (tf_regs t) (tf_es t) (tf_ds t) (tf_trapno t) (tf_err t) (tf_rip t)
    (tf_cs t) (tf_eflags t) v (tf_ss t).
Definition set_tf_ss (v : Z) (t : Trapframe) : Trapframe :=
    mkTrapframe (tf_regs t) (tf_es t) (tf_ds t) (tf_trapno t) (tf_err t) (tf_rip t)
    (tf_cs t) (tf_eflags t) (tf_rsp t) v.

Record Env : Type := mkEnv
  { env_tf : Trapframe;
    env_link : option Z;
    env_id : Z;
    env_parent_id : Z;
    env_type : Z;
    env_status : Z;
    env_runs : Z;
    env_cpunum : Z;
    env_pml4e : Z;
    env_cr3 : Z;
    env_pgfault_upcall : Z;
    env_ipc_recving : Z;
    env_ipc_dstva : Z;
    env_ipc_value : Z;
    env_ipc_from : Z;
    env_ipc_perm : Z;
    elf : Z }.

Definition set_env_tf (v : Trapframe) (e : Env) : Env :=
    mkEnv v (env_link e) (env_id e) (env_parent_id e) (env_type e) (env_status e)
    (env_runs e) (env_cpunum e) (env_pml4e e) (env_cr3 e) (env_pgfault_upcall e)
    (env_ipc_recving e) (env_ipc_dstva e) (env_ipc_value e) (env_ipc_from e)
    (env_ipc_perm e) (elf e).
Definition set_env_link (v : option Z) (e : Env) : Env :=
    mkEnv (env_tf e) v (env_id e) (env_parent_id e) (env_type e) (env_status e)
    (env_runs e) (env_cpunum e) (env_pml4e e) (env_cr3 e) (env_pgfault_upcall e)
    (env_ipc_recving e) (env_ipc_dstva e) (env_ipc_value e) (env_ipc_from e)
    (env_ipc_perm e) (elf e).
Definition set_env_id (v : Z) (e : Env) : Env :=
    mkEnv (env_tf e) (env_link e) v (env_parent_id e) (env_type e) (env_status e)
    (env_runs e) (env_cpunum e) (env_pml4e e) (env_cr3 e) (env_pgfault_upcall e)
    (env_ipc_recving e) (env_ipc_dstva e) (env_ipc_value e) (env_ipc_from e)
    (env_ipc_perm e) (elf e).
Definition set_env_parent_id (v : Z) (e : Env) : Env :=
    mkEnv (env_tf e) (env_link e) (env_id e) v (env_type e) (env_status e) (env_runs e)
    (env_cpunum e) (env_pml4e e) (env_cr3 e) (env_pgfault_upcall e) (env_ipc_recving e)
    (env_ipc_dstva e) (env_ipc_value e) (env_ipc_from e) (env_ipc_perm e) (elf e).
Definition set_env_type (v : Z) (e : Env) : Env :=
    mkEnv (env_tf e) (env_link e) (env_id e) (env_parent_id e) v (env_status e)
    (env_runs e) (env_cpunum e) (env_pml4e e) (env_cr3 e) (env_pgfault_upcall e)
    (env_ipc_recving e) (env_ipc_dstva e) (env_ipc_value e) (env_ipc_from e)
    (env_ipc_perm e) (elf e).
Definition set_env_status (v : Z) (e : Env) : Env :=
    mkEnv (env_tf e) (env_link e) (env_id e) (env_parent_id e) (env_type e) v (env_runs
    e) (env_cpunum e) (env_pml4e e) (env_cr3 e) (env_pgfault_upcall e) (env_ipc_recving
    e) (env_ipc_dstva e) (env_ipc_value e) (env_ipc_from e) (env_ipc_perm e) (elf e).
Definition set_env_runs (v : Z) (e : Env) : Env :=
    mkEnv (env_tf e) (env_link e) (env_id e) (env_parent_id e) (env_type e) (env_status
    e) v (env_cpunum e) (env_pml4e e) (env_cr3 e) (env_pgfault_upcall e)
    (env_ipc_recving e) (env_ipc_dstva e) (env_ipc_value e) (env_ipc_from e)
    (env_ipc_perm e) (elf e).
Definition set_env_cpunum (v : Z) (e : Env) : Env :=
    mkEnv (env_tf e) (env_link e) (env_id e) (env_parent_id e) (env_type e) (env_status
    e) (env_runs e) v (env_pml4e e) (env_cr3 e) (env_pgfault_upcall e) (env_ipc_recving
    e) (env_ipc_dstva e) (env_ipc_value e) (env_ipc_from e) (env_ipc_perm e) (elf e).
Definition set_env_pml4e (v : Z) (e : Env) : Env :=
    mkEnv (env_tf e) (env_link e) (env_id e) (env_parent_id e) (env_type e) (env_status
    e) (env_runs e) (env_cpunum e) v (env_cr3 e) (env_pgfault_upcall e) (env_ipc_recving
    e) (env_ipc_dstva e) (env_ipc_value e) (env_ipc_from e) (env_ipc_perm e) (elf e).
Definition set_env_cr3 (v : Z) (e : Env) : Env :=
    mkEnv (env_tf e) (env_link e) (env_id e) (env_parent_id e) (env_type e) (env_status
    e) (env_runs e) (env_cpunum e) (env_pml4e e) v (env_pgfault_upcall e)
    (env_ipc_recving e) (env_ipc_dstva e) (env_ipc_value e) (env_ipc_from e)
    (env_ipc_perm e) (elf e).
Definition set_env_pgfault_upcall (v : Z) (e : Env) : Env :=
    mkEnv (env_tf e) (env_link e) (env_id e) (env_parent_id e) (env_type e) (env_status
    e) (env_runs e) (env_cpunum e) (env_pml4e e) (env_cr3 e) v (env_ipc_recving e)
    (env_ipc_dstva e) (env_ipc_value e) (env_ipc_from e) (env_ipc_perm e) (elf e).
Definition set_env_ipc_recving (v : Z) (e : Env) : Env :=
    mkEnv (env_tf e) (env_link e) (env_id e) (env_parent_id e) (env_type e) (env_status
    e) (env_runs e) (env_cpunum e) (env_pml4e e) (env_cr3 e) (env_pgfault_upcall e) v
    (env_ipc_dstva e) (env_ipc_value e) (env_ipc_from e) (env_ipc_perm e) (elf e).
Definition set_env_ipc_dstva (v : Z) (e : Env) : Env :=
    mkEnv (env_tf e) (env_link e) (env_id e) (env_parent_id e) (env_type e) (env_status
    e) (env_runs e) (env_cpunum e) (env_pml4e e) (env_cr3 e) (env_pgfault_upcall e)
    (env_ipc_recving e) v (env_ipc_value e) (env_ipc_from e) (env_ipc_perm e) (elf e).
Definition set_env_ipc_value (v : Z) (e : Env) : Env :=
    mkEnv (env_tf e) (env_link e) (env_id e) (env_parent_id e) (env_type e) (env_status
    e) (env_runs e) (env_cpunum e) (env_pml4e e) (env_cr3 e) (env_pgfault_upcall e)
    (env_ipc_recving e) (env_ipc_dstva e) v (env_ipc_from e) (env_ipc_perm e) (elf e).
Definition set_env_ipc_from (v : Z) (e : Env) : Env :=
    mkEnv (env_tf e) (env_link e) (env_id e) (env_parent_id e) (env_type e) (env_status
    e) (env_runs e) (env_cpunum e) (env_pml4e e) (env_cr3 e) (env_pgfault_upcall e)
    (env_ipc_recving e) (env_ipc_dstva e) (env_ipc_value e) v (env_ipc_perm e) (elf e).
Definition set_env_ipc_perm (v : Z) (e : Env) : Env :=
    mkEnv (env_tf e) (env_link e) (env_id e) (env_parent_id e) (env_type e) (env_status
    e) (env_runs e) (env_cpunum e) (env_pml4e e) (env_cr3 e) (env_pgfault_upcall e)
    (env_ipc_recving e) (env_ipc_dstva e) (env_ipc_value e) (env_ipc_from e) v (elf e).
Definition set_elf (v : Z) (e : Env) : Env :=
    mkEnv (env_tf e) (env_link e) (env_id e) (env_parent_id e) (env_type e) (env_status
    e) (env_runs e) (env_cpunum e) (env_pml4e e) (env_cr3 e) (env_pgfault_upcall e)
    (env_ipc_recving e) (env_ipc_dstva e) (env_ipc_value e) (env_ipc_from e)
    (env_ipc_perm e) v.

Definition regs0 : PushRegs := mkPushRegs 0 0 0 0 0 0 0 0 0 0 0 0 0 0 0.
Definition tf0 : Trapframe := mkTrapframe regs0 0 0 0 0 0 0 0 0 0.
Definition env0 : Env := mkEnv tf0 None 0 0 0 0 0 0 0 0 0 0 0 0 0 0 0.

(** struct CpuInfo: [cpu_env] is what [curenv] reads on that CPU. *)
Record CpuInfo : Type := mkCpu { cpu_status : Z; cpu_env : option Z }.
Definition cpu0 : CpuInfo := mkCpu CPU_UNUSED None.

(** struct spinlock: [locked], and the CPU holding it. *)
Record spinlock : Type := mkLock { locked : Z; lk_cpu : option Z }.

(** What the kernel does to the hardware and the console, in order. *)
Inductive event : Type :=
  | Invlpg (va : Z)                 (* TLB entry flushed *)
  | Lcr3 (cr3 : Z)                  (* address space switched *)
  | Eoi                             (* interrupt acknowledged *)
  | Cputs (s : list Z)              (* bytes printed for the user *)
  | Intr (irq : Z).                 (* a device handler ran *)

(** How control leaves the kernel for good. *)
Inductive kexit : Type :=
  | ToUser (e : Z)                  (* env_pop_tf of environment [e] *)
  | Halted                          (* sched_halt's hlt *)
  | InMonitor                       (* sched_halt's monitor loop *)
  | Spinning.                       (* waiting in spin_lock for another CPU *)

(** The network card (kern/e1000.c): descriptor rings, the driver's tail
    indices, and the mapped registers by word index. *)
Record tx_desc : Type := mkTx
  { tx_addr : Z; tx_length : Z; tx_cmd : Z; tx_status : Z }.
Record rx_desc : Type := mkRx
  { rx_addr : Z; rx_length : Z; rx_status : Z }.
Record NicState : Type := mkNic
  { txDescArr : gmap Z tx_desc;
    rxDescArr : gmap Z rx_desc;
    tx_desc_tail : Z;
    rx_desc_tail : Z;
    map_region : gmap Z Z }.
Definition nic0 : NicState := mkNic ∅ ∅ 0 0 ∅.

Record kst : Type := mkKst
  { k_mem : mem;
    npages : Z;
    npages_basemem : Z;
    pages : gmap Z PageInfo;
    page_free_list : option Z;
    nextfree : Z;
    boot_pml4e : Z;
    boot_cr3 : Z;
    mmio_base : Z;
    user_mem_check_addr : Z;
    envs : gmap Z Env;
    env_free_list : option Z;
    env_counter : Z;
    cpus : gmap Z CpuInfo;
    cpunum : Z;
    kernel_lock : spinlock;
    ticks : Z;
    cons : ConsState;
    nic : NicState;
    trace : list event }.

Definition set_k_mem (v : mem) (s : kst) : kst :=
    mkKst v (npages s) (npages_basemem s) (pages s) (page_free_list s) (nextfree s)
    (boot_pml4e s) (boot_cr3 s) (mmio_base s) (user_mem_check_addr s) (envs s)
    (env_free_list s) (env_counter s) (cpus s) (cpunum s) (kernel_lock s) (ticks s)
    (cons s) (nic s) (trace s).
Definition set_npages (v : Z) (s : kst) : kst :=
    mkKst (k_mem s) v (npages_basemem s) (pages s) (page_free_list s) (nextfree s)
    (boot_pml4e s) (boot_cr3 s) (mmio_base s) (user_mem_check_addr s) (envs s)
    (env_free_list s) (env_counter s) (cpus s) (cpunum s) (kernel_lock s) (ticks s)
    (cons s) (nic s) (trace s).
Definition set_npages_basemem (v : Z) (s : kst) : kst :=
    mkKst (k_mem s) (npages s) v (pages s) (page_free_list s) (nextfree s)
    (boot_pml4e s) (boot_cr3 s) (mmio_base s) (user_mem_check_addr s) (envs s)
    (env_free_list s) (env_counter s) (cpus s) (cpunum s) (kernel_lock s) (ticks s)
    (cons s) (nic s) (trace s).
Definition set_pages (v : gmap Z PageInfo) (s : kst) : kst :=
    mkKst (k_mem s) (npages s) (npages_basemem s) v (page_free_list s) (nextfree s)
    (boot_pml4e s) (boot_cr3 s) (mmio_base s) (user_mem_check_addr s) (envs s)
    (env_free_list s) (env_counter s) (cpus s) (cpunum s) (kernel_lock s) (ticks s)
    (cons s) (nic s) (trace s).
Definition set_page_free_list (v : option Z) (s : kst) : kst :=
    mkKst (k_mem s) (npages s) (npages_basemem s) (pages s) v (nextfree s)
    (boot_pml4e s) (boot_cr3 s) (mmio_base s) (user_mem_check_addr s) (envs s)
    (env_free_list s) (env_counter s) (cpus s) (cpunum s) (kernel_lock s) (ticks s)
    (cons s) (nic s) (trace s).
Definition set_nextfree (v : Z) (s : kst) : kst :=
    mkKst (k_mem s) (npages s) (npages_basemem s) (pages s) (page_free_list s) v
    (boot_pml4e s) (boot_cr3 s) (mmio_base s) (user_mem_check_addr s) (envs s)
    (env_free_list s) (env_counter s) (cpus s) (cpunum s) (kernel_lock s) (ticks s)
    (cons s) (nic s) (trace s).
Definition set_boot_pml4e (v : Z) (s : kst) : kst :=
    mkKst (k_mem s) (npages s) (npages_basemem s) (pages s) (page_free_list s)
    (nextfree s) v (boot_cr3 s) (mmio_base s) (user_mem_check_addr s) (envs s)
    (env_free_list s) (env_counter s) (cpus s) (cpunum s) (kernel_lock s) (ticks s)
    (cons s) (nic s) (trace s).
Definition set_boot_cr3 (v : Z) (s : kst) : kst :=
    mkKst (k_mem s) (npages s) (npages_basemem s) (pages s) (page_free_list s)
    (nextfree s) (boot_pml4e s) v (mmio_base s) (user_mem_check_addr s) (envs s)
    (env_free_list s) (env_counter s) (cpus s) (cpunum s) (kernel_lock s) (ticks s)
    (cons s) (nic s) (trace s).
Definition set_mmio_base (v : Z) (s : kst) : kst :=
    mkKst (k_mem s) (npages s) (npages_basemem s) (pages s) (page_free_list s)
    (nextfree s) (boot_pml4e s) (boot_cr3 s) v (user_mem_check_addr s) (envs s)
    (env_free_list s) (env_counter s) (cpus s) (cpunum s) (kernel_lock s) (ticks s)
    (cons s) (nic s) (trace s).
Definition set_user_mem_check_addr (v : Z) (s : kst) : kst :=
    mkKst (k_mem s) (npages s) (npages_basemem s) (pages s) (page_free_list s)
    (nextfree s) (boot_pml4e s) (boot_cr3 s) (mmio_base s) v (envs s) (env_free_list s) (env_counter s) (cpus s) (cpunum s) (kernel_lock s) (ticks s) (cons s) (nic s) (trace s).
Definition set_envs (v : gmap Z Env) (s : kst) : kst :=
    mkKst (k_mem s) (npages s) (npages_basemem s) (pages s) (page_free_list s)
    (nextfree s) (boot_pml4e s) (boot_cr3 s) (mmio_base s) (user_mem_check_addr s) v
    (env_free_list s) (env_counter s) (cpus s) (cpunum s) (kernel_lock s) (ticks s)
    (cons s) (nic s) (trace s).
Definition set_env_free_list (v : option Z) (s : kst) : kst :=
    mkKst (k_mem s) (npages s) (npages_basemem s) (pages s) (page_free_list s)
    (nextfree s) (boot_pml4e s) (boot_cr3 s) (mmio_base s) (user_mem_check_addr s)
    (envs s) v (env_counter s) (cpus s) (cpunum s) (kernel_lock s) (ticks s) (cons s) (nic s) (trace s).
Definition set_env_counter (v : Z) (s : kst) : kst :=
    mkKst (k_mem s) (npages s) (npages_basemem s) (pages s) (page_free_list s)
    (nextfree s) (boot_pml4e s) (boot_cr3 s) (mmio_base s) (user_mem_check_addr s)
    (envs s) (env_free_list s) v (cpus s) (cpunum s) (kernel_lock s) (ticks s) (cons s) (nic s) (trace s).
Definition set_cpus (v : gmap Z CpuInfo) (s : kst) : kst :=
    mkKst (k_mem s) (npages s) (npages_basemem s) (pages s) (page_free_list s)
    (nextfree s) (boot_pml4e s) (boot_cr3 s) (mmio_base s) (user_mem_check_addr s)
    (envs s) (env_free_list s) (env_counter s) v (cpunum s) (kernel_lock s) (ticks s) (cons s) (nic s) (trace s).
Definition set_cpunum (v : Z) (s : kst) : kst :=
    mkKst (k_mem s) (npages s) (npages_basemem s) (pages s) (page_free_list s)
    (nextfree s) (boot_pml4e s) (boot_cr3 s) (mmio_base s) (user_mem_check_addr s)
    (envs s) (env_free_list s) (env_counter s) (cpus s) v (kernel_lock s) (ticks s)
    (cons s) (nic s) (trace s).
Definition set_kernel_lock (v : spinlock) (s : kst) : kst :=
    mkKst (k_mem s) (npages s) (npages_basemem s) (pages s) (page_free_list s)
    (nextfree s) (boot_pml4e s) (boot_cr3 s) (mmio_base s) (user_mem_check_addr s)
    (envs s) (env_free_list s) (env_counter s) (cpus s) (cpunum s) v (ticks s) (cons s) (nic s) (trace s).
Definition set_ticks (v : Z) (s : kst) : kst :=
    mkKst (k_mem s) (npages s) (npages_basemem s) (pages s) (page_free_list s)
    (nextfree s) (boot_pml4e s) (boot_cr3 s) (mmio_base s) (user_mem_check_addr s)
    (envs s) (env_free_list s) (env_counter s) (cpus s) (cpunum s) (kernel_lock s) v
    (cons s) (nic s) (trace s).
Definition set_cons (v : ConsState) (s : kst) : kst :=
    mkKst (k_mem s) (npages s) (npages_basemem s) (pages s) (page_free_list s)
    (nextfree s) (boot_pml4e s) (boot_cr3 s) (mmio_base s) (user_mem_check_addr s)
    (envs s) (env_free_list s) (env_counter s) (cpus s) (cpunum s) (kernel_lock s)
    (ticks s) v (nic s) (trace s).
Definition set_nic (v : NicState) (s : kst) : kst :=
    mkKst (k_mem s) (npages s) (npages_basemem s) (pages s) (page_free_list s)
    (nextfree s) (boot_pml4e s) (boot_cr3 s) (mmio_base s) (user_mem_check_addr s)
    (envs s) (env_free_list s) (env_counter s) (cpus s) (cpunum s) (kernel_lock s)
    (ticks s) (cons s) v (trace s).
Definition set_trace (v : list event) (s : kst) : kst :=
    mkKst (k_mem s) (npages s) (npages_basemem s) (pages s) (page_free_list s)
    (nextfree s) (boot_pml4e s) (boot_cr3 s) (mmio_base s) (user_mem_check_addr s)
    (envs s) (env_free_list s) (env_counter s) (cpus s) (cpunum s) (kernel_lock s)
    (ticks s) (cons s) (nic s) v.

(** ** Accessors *)

Definition K : Type → Type := M kst kexit.

Definition page_at (s : kst) (pp : Z) : PageInfo := getd page0 (pages s) pp.
Definition env_at (s : kst) (e : Z) : Env := getd env0 (envs s) e.
Definition cpu_at (s : kst) (c : Z) : CpuInfo := getd cpu0 (cpus s) c.

Definition upd_page (pp : Z) (f : PageInfo → PageInfo) (s : kst) : kst :=
  set_pages (<[pp := f (page_at s pp)]> (pages s)) s.
Definition upd_env (e : Z) (f : Env → Env) (s : kst) : kst :=
  set_envs (<[e := f (env_at s e)]> (envs s)) s.
Definition emit (ev : event) (s : kst) : kst := set_trace (trace s ++ [ev]) s.

Definition set_link (l : option Z) (p : PageInfo) : PageInfo := mkPage l (pp_ref p).
Definition set_ref (r : Z) (p : PageInfo) : PageInfo := mkPage (pp_link p) r.

(** [curenv] is [thiscpu->cpu_env]. *)
Definition curenv (s : kst) : option Z := cpu_env (cpu_at s (cpunum s)).
Definition set_curenv (e : option Z) (s : kst) : kst :=
  set_cpus (<[cpunum s := mkCpu (cpu_status (cpu_at s (cpunum s))) e]> (cpus s)) s.
Definition set_cpu_status (st : Z) (s : kst) : kst :=
  set_cpus (<[cpunum s := mkCpu st (cpu_env (cpu_at s (cpunum s)))]> (cpus s)) s.

(** Dereference a kernel pointer to a 64-bit word. *)
Definition kaddr_ok (s : kst) (kva : Z) : bool :=
  (KERNBASE <=? kva) && (kva + 8 <=? KERNBASE + npages s * PGSIZE).
Definition kload (kva : Z) : K Z :=
  s ← get; if kaddr_ok s kva then mret (ld64 (k_mem s) (kva - KERNBASE)) else panic.
Definition kstore (kva v : Z) : K unit :=
  s ← get;
  if kaddr_ok s kva
  then modify (λ s, set_k_mem (st64 (k_mem s) (kva - KERNBASE) v) s) else panic.

Definition upd_page_m (pp : Z) (f : PageInfo → PageInfo) : K unit :=
  modify (upd_page pp f).
Definition upd_env_m (e : Z) (f : Env → Env) : K unit := modify (upd_env e f).

(** [ptr->f] on a pointer that may be NULL: a NULL dereference faults. *)
Definition deref (p : option Z) : K Z :=
  match p with Some x => mret x | None => panic end.

Lemma deref_spec x s (Q : Z → kst → Prop) E : Q x s → wpx (deref (Some x)) s Q E.
Proof. done. Qed.
