(* ===== verification/Pmap.v ===== *)
(** * kern/pmap.c: physical pages and page tables

    The operations, translated from kern/pmap.c and the inline functions and
    macros of kern/pmap.h.  Their properties are proved in PageAlloc.v (the
    physical page allocator) and PageTable.v (the four-level page tables). *)

From S2P Require Import Prelude Mem KState Printfmt.

(** Addresses fixed by the linker and the loader: the end of the kernel image,
    the boot page tables and the per-CPU kernel stacks. *)
Class KImage := {
  img_end : Z;             (* extern char end[] *)
  img_pml4phys : Z;        (* extern uint64_t pml4phys *)
  img_kstacks : Z → Z      (* percpu_kstacks[i] *)
}.

(** ** kern/pmap.h *)

Definition PADDR (kva : Z) : K Z :=
  if u64 kva <? KERNBASE then panic else mret (u64 kva - KERNBASE).

(** The page number is truncated to 32 bits before the check. *)
Definition KADDR (pa : Z) : K Z :=
  np ← gets npages;
  if np <=? u32 (PPN pa) then panic else mret (u64 (pa + KERNBASE)).

Definition page2ppn (pp : Z) : Z := pp.
Definition page2pa (pp : Z) : Z := u64 (Z.shiftl (page2ppn pp) PGSHIFT).
Definition pa2page (pa : Z) : K Z :=
  np ← gets npages;
  if np <=? PPN pa then panic else mret (PPN pa).
Definition page2kva (pp : Z) : K Z := KADDR (page2pa pp).

Definition ALLOC_ZERO : bool := true.

(** ** Boot-time allocation *)

Section boot.
Context {img : KImage}.

Definition boot_alloc (n : Z) : K Z :=
  s ← get;
  when (nextfree s =? 0) (modify (set_nextfree (ROUNDUP img_end PGSIZE)));;
  s ← get;
  if n =? 0 then mret (nextfree s)
  else
    let result := nextfree s in
    let nf := ROUNDUP (u64 (nextfree s + n)) PGSIZE in
    modify (set_nextfree nf);;
    if nf <? img_end then panic else mret result.

Definition BOOT_PAGE_TABLE_START : K Z := KADDR img_pml4phys.
Definition BOOT_PAGE_TABLE_END : K Z := KADDR (img_pml4phys + 5 * PGSIZE).

(** The loop that links pages[0 .. npages) in order; [last] is the loop's
    local variable. *)
Fixpoint page_init_loop (n : nat) (i : Z) (last : option Z) : K unit :=
  match n with
  | O => mret tt
  | Datatypes.S n' =>
      upd_page_m i (λ _, mkPage None 0);;
      match last with
      | Some l => upd_page_m l (set_link (Some i))
      | None => modify (set_page_free_list (Some i))
      end;;
      page_init_loop n' (i + 1) (Some i)
  end.

Definition page_init : K unit :=
  np ← gets npages;
  page_init_loop (Z.to_nat np) 0 None;;
  fl ← gets page_free_list;
  head ← deref fl;
  s ← get;
  modify (set_page_free_list (pp_link (page_at s head)));;
  let holeS := IOPHYSMEM / PGSIZE in
  nf ← boot_alloc 0; pa ← PADDR nf;
  let kernE := pa / PGSIZE in
  upd_page_m (holeS - 1) (set_link (Some kernE));;
  bs ← BOOT_PAGE_TABLE_START; pbs ← PADDR bs;
  be ← BOOT_PAGE_TABLE_END; pbe ← PADDR (be - 1);
  let bootPTS := pbs / PGSIZE in
  let bootPTE := pbe / PGSIZE in
  upd_page_m (bootPTS - 1) (set_link (Some (bootPTE + 1)));;
  upd_page_m (MPENTRY_PADDR / PGSIZE - 1)
    (set_link (Some (MPENTRY_PADDR / PGSIZE + 1))).
End boot.

(** ** The physical page allocator *)

Definition page_alloc (zero : bool) : K (option Z) :=
  fl ← gets page_free_list;
  match fl with
  | Some page =>
      s ← get;
      modify (set_page_free_list (pp_link (page_at s page)));;
      upd_page_m page (set_link None);;
      (if zero
       then _ ← page2kva page;
            modify (λ s, set_k_mem (zero_page (k_mem s) page) s)
       else mret tt);;
      mret (Some page)
  | None => mret None
  end.

(** [memset(pp, 0, sizeof( *pp))] *)
Definition page_initpp (pp : Z) : K unit := upd_page_m pp (λ _, mkPage None 0).

Definition insertAtBegining (node : Z) : K unit :=
  fl ← gets page_free_list;
  match fl with
  | None => modify (set_page_free_list (Some node))
  | Some h =>
      upd_page_m node (set_link (Some h));;
      modify (set_page_free_list (Some node))
  end.

Definition page_free (pp : Z) : K unit :=
  p ← gets (λ s, page_at s pp);
  if negb (pp_ref p =? 0) then panic
  else match pp_link p with
       | Some _ => panic
       | None => insertAtBegining pp
       end.

Definition page_decref (pp : Z) : K unit :=
  p ← gets (λ s, page_at s pp);
  let r := u16 (pp_ref p - 1) in
  upd_page_m pp (set_ref r);;
  when (r =? 0) (page_free pp).

Definition page_incref (pp : Z) : K unit :=
  upd_page_m pp (λ p, set_ref (u16 (pp_ref p + 1)) p).

(** ** Page-table walks *)

(** The part common to the three walks: look at entry [idx] of the table at
    kernel address [tab]; if it is zero, return None unless [create], in which
    case allocate a zeroed page for it (None if there is none).  Returns the
    kernel address of the next table and the page allocated, if any. *)
Definition walk_entry (tab idx : Z) (create : bool) : K (option (Z * option Z)) :=
  e ← kload (tab + 8 * idx);
  if (e =? 0) && negb create then mret None
  else
    r ← (if e =? 0 then
           page ← page_alloc ALLOC_ZERO;
           match page with
           | None => mret None
           | Some page =>
               page_incref page;;
               kstore (tab + 8 * idx)
                 (Z.lor (page2pa page) (Z.lor (Z.lor PTE_W PTE_U) PTE_P));;
               mret (Some (Some page))
           end
         else mret (Some None));
    match r with
    | None => mret None
    | Some page =>
        temp ← kload (tab + 8 * idx);
        next ← KADDR (PTE_ADDR temp);
        mret (Some (next, page))
    end.

Definition pgdir_walk (pgdir va : Z) (create : bool) : K (option Z) :=
  if pgdir =? 0 then mret None
  else
    r ← walk_entry pgdir (PDX va) create;
    match r with
    | None => mret None
    | Some (pt, _) => mret (Some (pt + 8 * PTX va))
    end.

(** The page allocated here is a second variable [page], local to the [else if]
    block: the outer one, which the clean-up after a failed pgdir_walk tests, is
    still NULL, so the clean-up never runs. *)
Definition pdpe_walk (pdpe va : Z) (create : bool) : K (option Z) :=
  if pdpe =? 0 then mret None
  else
    let page : option Z := None in
    r ← walk_entry pdpe (PDPE va) create;
    match r with
    | None => mret None
    | Some (pgdir, _) =>
        ptr ← pgdir_walk pgdir va create;
        match ptr, page with
        | None, Some page =>
            page_decref page;; kstore (pdpe + 8 * PDPE va) 0;; mret ptr
        | _, _ => mret ptr
        end
    end.

Definition pml4e_walk (pml4e va : Z) (create : bool) : K (option Z) :=
  if pml4e =? 0 then mret None
  else
    r ← walk_entry pml4e (PML4 va) create;
    match r with
    | None => mret None
    | Some (pdpe, page) =>
        ptr ← pdpe_walk pdpe va create;
        match ptr, page with
        | None, Some page =>
            page_decref page;; kstore (pml4e + 8 * PML4 va) 0;; mret ptr
        | _, _ => mret ptr
        end
    end.

(** ** Mappings *)

(** A failed walk prints a message and [continue]s: [pa] and [la] advance only
    on success. *)
Fixpoint boot_map_loop (n : nat) (pml4e la pa perm : Z) : K unit :=
  match n with
  | O => mret tt
  | Datatypes.S n' =>
      ptr ← pml4e_walk pml4e la true;
      match ptr with
      | None => boot_map_loop n' pml4e la pa perm
      | Some p =>
          kstore p (Z.lor pa perm);;
          boot_map_loop n' pml4e (u64 (la + PGSIZE)) (u64 (pa + PGSIZE)) perm
      end
  end.

Definition boot_map_region (pml4e la size pa perm : Z) : K unit :=
  if pml4e =? 0 then mret tt
  else boot_map_loop (Z.to_nat (size / PGSIZE)) pml4e la pa perm.

(** Flush if [pml4e] is the current address space, or there is none. *)
Definition tlb_invalidate (pml4e va : Z) : K unit :=
  assert_ (negb (pml4e =? 0));;
  s ← get;
  when (match curenv s with
        | None => true
        | Some e => env_pml4e (env_at s e) =? pml4e
        end) (modify (emit (Invlpg va))).

(** The walk is made with [create = 1].  Returns the page and the address of
    its entry (what [*pte_store] is set to). *)
Definition page_lookup (pml4e va : Z) : K (option (Z * Z)) :=
  if pml4e =? 0 then mret None
  else
    ptr ← pml4e_walk pml4e va true;
    match ptr with
    | None => mret None
    | Some p =>
        e ← kload p;
        if truthy (Z.land e PTE_P)
        then page ← pa2page e; mret (Some (page, p))
        else mret None
    end.

Definition page_remove (pml4e va : Z) : K unit :=
  if pml4e =? 0 then mret tt
  else
    r ← page_lookup pml4e va;
    match r with
    | None => mret tt
    | Some (page, pte_store) =>
        tlb_invalidate pml4e va;;
        page_decref page;;
        kstore pte_store 0
    end.

Definition page_insert (pml4e : Z) (pp : option Z) (va perm : Z) : K Z :=
  match pp with
  | None => mret 0
  | Some pp =>
    if pml4e =? 0 then mret 0
    else
      ptr ← pml4e_walk pml4e va true;
      match ptr with
      | None => mret (- E_NO_MEM)
      | Some p =>
          let perm := Z.lor perm PTE_P in
          e ← kload p;
          let present := truthy (Z.land e PTE_P) in
          same ← (if present then q ← pa2page (PTE_ADDR e); mret (q =? pp)
                  else mret false);
          if present && same then
            kstore p (Z.lor (page2pa pp) perm);;
            tlb_invalidate pml4e va;;
            mret 0
          else
            when present (page_remove pml4e va;; tlb_invalidate pml4e va);;
            kstore p (Z.lor (page2pa pp) perm);;
            page_incref pp;;
            mret 0
      end
  end.

(** The static [base] is the field [mmio_base]; the new base is stored after
    the mapping. *)
Definition mmio_map_region (pa size : Z) : K Z :=
  base ← gets mmio_base;
  if MMIOLIM <=? u64 (base + size) then panic
  else
    let size := ROUNDUP size PGSIZE in
    pml4e ← gets boot_pml4e;
    boot_map_region pml4e base size pa
      (Z.lor (Z.lor (Z.lor PTE_PCD PTE_PWT) PTE_W) PTE_P);;
    modify (set_mmio_base (u64 (base + size)));;
    mret base.

(** ** User memory checks *)

(** One iteration's test: false when the access to the page at [va] is bad. *)
Definition user_page_ok (pml4e va perm : Z) : K bool :=
  if ULIM <=? va then mret false
  else
    r ← page_lookup pml4e va;
    match r with
    | None => mret false
    | Some (_, pte_store) =>
        if pte_store =? 0 then mret false
        else e ← kload pte_store; mret (truthy (Z.land e perm))
    end.

(** [for (; vaT < vaE; vaT += PGSIZE)], with fuel for [n] iterations. *)
Fixpoint user_mem_loop (n : nat) (pml4e va vaT vaE perm : Z) : K Z :=
  match n with
  | O => if vaT <? vaE then panic else mret 0
  | Datatypes.S n' =>
      if vaT <? vaE then
        ok ← user_page_ok pml4e vaT perm;
        if negb ok then
          modify (set_user_mem_check_addr (if vaT <? va then va else vaT));;
          mret (- E_FAULT)
        else user_mem_loop n' pml4e va (u64 (vaT + PGSIZE)) vaE perm
      else mret 0
  end.

(** The fuel is the number of pages from [vaT] to [vaE], or to [ULIM] where the
    loop fails if it gets there first. *)
Definition user_mem_check (env va len perm : Z) : K Z :=
  s ← get;
  let vaT := ROUNDDOWN va PGSIZE in
  let vaE := ROUNDUP (u64 (vaT + len)) PGSIZE in
  user_mem_loop (Z.to_nat (Z.max 1 ((Z.min vaE (ULIM + PGSIZE) - vaT) / PGSIZE)))
    (env_pml4e (env_at s env)) va vaT vaE perm.
