(* ===== verification/PageAlloc.v ===== *)
(** * The physical page allocator (kern/pmap.c: page_init .. page_decref)

    [free_list s l]: following [pp_link] from [page_free_list] visits exactly
    the pages [l] and ends in NULL.  The theorems give the allocator's
    functional behaviour on that list, what page_init puts in it, and how far
    its double-free check reaches. *)

From S2P Require Import Prelude Mem Console KState Printfmt Pmap.

Fixpoint chain (pgs : gmap Z PageInfo) (hd : option Z) (l : list Z) : Prop :=
  match l with
  | [] => hd = None
  | p :: l' => hd = Some p ∧ chain pgs (pp_link (getd page0 pgs p)) l'
  end.

(** The allocator's invariant: the list is duplicate-free, holds page numbers of
    real pages, and its pages carry no reference. *)
Record free_list (s : kst) (l : list Z) : Prop := {
  fl_chain : chain (pages s) (page_free_list s) l;
  fl_nodup : NoDup l;
  fl_range : Forall (λ p, 0 ≤ p < npages s) l;
  fl_ref : Forall (λ p, pp_ref (page_at s p) = 0) l
}.

(** The part of the state the page operations leave alone. *)
Definition aux_same (s s' : kst) : Prop :=
  npages s' = npages s ∧ envs s' = envs s ∧ cpus s' = cpus s ∧
  cpunum s' = cpunum s ∧ env_free_list s' = env_free_list s ∧
  env_counter s' = env_counter s ∧ boot_pml4e s' = boot_pml4e s ∧
  boot_cr3 s' = boot_cr3 s ∧ kernel_lock s' = kernel_lock s ∧ ticks s' = ticks s.

#[export] Instance aux_same_preorder : PreOrder aux_same.
Proof.
  split; unfold aux_same; [intros ?; by split_and!|].
  intros ??? H1 H2. destruct_and!. split_and!; congruence.
Qed.

Section chain.
Implicit Types (s : kst) (l : list Z).

Lemma page_at_upd p f s q :
  page_at (upd_page p f s) q = if decide (p = q) then f (page_at s p) else page_at s q.
Proof. unfold page_at, upd_page. cbn. apply getd_insert. Qed.

Lemma page_at_upd_eq p f s : page_at (upd_page p f s) p = f (page_at s p).
Proof. rewrite page_at_upd. by rewrite decide_True. Qed.

Lemma page_at_upd_ne p f s q : p ≠ q → page_at (upd_page p f s) q = page_at s q.
Proof. intros. rewrite page_at_upd. by rewrite decide_False. Qed.

(** Updating pages off the chain, or fields other than links, keeps it. *)
Lemma chain_ext pgs pgs' hd l :
  (∀ p, p ∈ l → pp_link (getd page0 pgs' p) = pp_link (getd page0 pgs p)) →
  chain pgs hd l → chain pgs' hd l.
Proof.
  revert hd. induction l as [|p l IH]; intros hd Hext Hc; [done|].
  destruct Hc as [-> Hc]. split; [done|].
  rewrite Hext by set_solver. apply IH; [|done]. set_solver.
Qed.

Lemma chain_insert_out pgs hd l p v :
  p ∉ l → chain pgs hd l → chain (<[p := v]> pgs) hd l.
Proof.
  intros Hp. apply chain_ext. intros q Hq. rewrite getd_insert_ne; [done|].
  intros ->; contradiction.
Qed.

(** The list a free list denotes is unique. *)
Lemma chain_det pgs hd l l' : chain pgs hd l → chain pgs hd l' → l = l'.
Proof.
  revert hd l'. induction l as [|p l IH]; intros hd [|p' l'] H H';
    cbn in *; destruct_and?; simplify_eq; [done|]. f_equal. eauto.
Qed.

Lemma free_list_empty s : free_list s [] → page_free_list s = None.
Proof. apply fl_chain. Qed.

Lemma free_list_head s p l : free_list s (p :: l) → page_free_list s = Some p.
Proof. intros [[? _]]. done. Qed.

(** [free_list] only looks at the pages and the list head. *)
Lemma free_list_ext s s' l :
  pages s' = pages s → page_free_list s' = page_free_list s →
  npages s' = npages s → free_list s l → free_list s' l.
Proof.
  intros E1 E2 E3 []. unfold page_at in *.
  split; unfold page_at; rewrite ?E1, ?E2, ?E3; done.
Qed.

(** Updating a page off the list keeps it. *)
Lemma free_list_upd_out s p f l :
  p ∉ l → free_list s l → free_list (upd_page p f s) l.
Proof.
  intros Hp []. split; [cbn; by apply chain_insert_out|done|done|].
  rewrite list.Forall_forall in *. intros q Hq.
  rewrite page_at_upd_ne by (intros ->; contradiction). auto.
Qed.

(** Popping the head and clearing its link. *)
Lemma free_list_pop s p l :
  free_list s (p :: l) →
  free_list (upd_page p (set_link None)
               (set_page_free_list (pp_link (page_at s p)) s)) l.
Proof.
  intros [Hc Hn Hr Hf]. inversion Hn; inversion Hr; inversion Hf; subst.
  destruct Hc as [_ Hc].
  apply free_list_upd_out; [done|]. by split.
Qed.
End chain.

(** ** page_alloc, page_free, page_decref *)

(** KADDR of a real page's address does not panic. *)
Lemma page2pa_ppn p : 0 ≤ p < 2 ^ 32 → page2pa p = p * PGSIZE.
Proof.
  intros. unfold page2pa, page2ppn, PGSHIFT, PGSIZE.
  rewrite Z.shiftl_mul_pow2 by lia. apply u64_id. pow2; lia.
Qed.

Lemma PPN_div pa : 0 ≤ pa < 2 ^ 64 → PPN pa = pa / PGSIZE.
Proof.
  intros. unfold PPN, PTXSHIFT, PGSIZE. rewrite u64_id by (pow2; lia).
  by rewrite Z.shiftr_div_pow2 by lia.
Qed.

Lemma KADDR_spec s pa Q E :
  0 ≤ pa → pa / PGSIZE < npages s → npages s ≤ 2 ^ 32 →
  Q (pa + KERNBASE) s → wpx (KADDR pa) s Q E.
Proof.
  intros H0 H1 H2 HQ. unfold KADDR. wp_steps. unfold PGSIZE in *.
  rewrite PPN_div by (unfold PGSIZE; zlia). unfold PGSIZE.
  rewrite u32_id by zlia.
  rewrite (proj2 (Z.leb_gt _ _)) by lia. wp_steps.
  unfold KERNBASE in *. rewrite u64_id; [done|zlia].
Qed.

Lemma page2kva_spec s p Q E :
  0 ≤ p < npages s → npages s ≤ 2 ^ 32 →
  Q (p * PGSIZE + KERNBASE) s → wpx (page2kva p) s Q E.
Proof.
  intros Hp Hn HQ. unfold page2kva. rewrite page2pa_ppn by lia.
  apply KADDR_spec; unfold PGSIZE in *; [lia| |done|done].
  rewrite Z.div_mul; lia.
Qed.

(** The state after page_alloc takes [p]. *)
Definition alloc_state (zero : bool) (p : Z) (s : kst) : kst :=
  let s1 := upd_page p (set_link None)
              (set_page_free_list (pp_link (page_at s p)) s) in
  if zero then set_k_mem (zero_page (k_mem s) p) s1 else s1.

Lemma page_alloc_spec zero s l Q E :
  free_list s l → npages s ≤ 2 ^ 32 →
  match l with
  | [] => Q None s
  | p :: l' => Q (Some p) (alloc_state zero p s)
  end →
  wpx (page_alloc zero) s Q E.
Proof.
  intros Hfl Hn HQ. unfold page_alloc. wp_steps. destruct l as [|p l].
  - rewrite (free_list_empty _ Hfl). by wp_steps.
  - rewrite (free_list_head _ _ _ Hfl). wp_steps. unfold upd_page_m. wp_steps.
    unfold alloc_state in HQ. destruct zero; [|by wp_steps].
    wp_steps. apply page2kva_spec; [|done|].
    + destruct Hfl. by inversion fl_range0.
    + by wp_steps.
Qed.

Lemma free_list_alloc zero p s l :
  free_list s (p :: l) → free_list (alloc_state zero p s) l.
Proof.
  intros H%free_list_pop. destruct zero; [|done].
  eapply free_list_ext; [..|exact H]; done.
Qed.

(** The state after page_free puts [p] back on the list [l]. *)
Definition free_state (p : Z) (l : list Z) (s : kst) : kst :=
  match l with
  | [] => set_page_free_list (Some p) s
  | h :: _ => set_page_free_list (Some p) (upd_page p (set_link (Some h)) s)
  end.

Lemma page_free_spec s p l Q E :
  free_list s l → pp_ref (page_at s p) = 0 → pp_link (page_at s p) = None →
  Q tt (free_state p l s) → wpx (page_free p) s Q E.
Proof.
  intros Hfl Hr Hl HQ. unfold page_free. wp_steps. rewrite Hr, Hl. cbn.
  unfold insertAtBegining. wp_steps. destruct l as [|h l].
  - rewrite (free_list_empty _ Hfl). by wp_steps.
  - rewrite (free_list_head _ _ _ Hfl). unfold upd_page_m. by wp_steps.
Qed.

Lemma free_list_free s p l :
  free_list s l → p ∉ l → 0 ≤ p < npages s →
  pp_ref (page_at s p) = 0 → pp_link (page_at s p) = None →
  free_list (free_state p l s) (p :: l).
Proof.
  intros Hfl Hp Hr Href Hlink. destruct l as [|h l]; cbn [free_state].
  - destruct Hfl. split; cbn.
    + split; [done|]. exact Hlink.
    + by apply NoDup_singleton.
    + by constructor.
    + by constructor.
  - pose proof (free_list_head _ _ _ Hfl) as Hhd.
    apply (free_list_upd_out _ p (set_link (Some h))) in Hfl as []; [|done].
    split; cbn in *.
    + split; [done|]. rewrite getd_insert_eq. cbn. split; [done|].
      by destruct fl_chain0.
    + by constructor.
    + by constructor.
    + constructor; [|exact fl_ref0]. unfold page_at. cbn. by rewrite getd_insert_eq.
Qed.

(** page_decref on a page with references: the reference goes, and the page
    goes to the free list when it was the last one. *)
Definition decref_state (p : Z) (l : list Z) (s : kst) : kst :=
  let s1 := upd_page p (set_ref (pp_ref (page_at s p) - 1)) s in
  if pp_ref (page_at s p) =? 1 then free_state p l s1 else s1.

Definition decref_list (s : kst) (p : Z) (l : list Z) : list Z :=
  if pp_ref (page_at s p) =? 1 then p :: l else l.

Lemma page_decref_spec s p l Q E :
  free_list s l → p ∉ l → 1 ≤ pp_ref (page_at s p) < 2 ^ 16 →
  pp_link (page_at s p) = None →
  Q tt (decref_state p l s) → wpx (page_decref p) s Q E.
Proof.
  intros Hfl Hp Hr Hl HQ. unfold page_decref. wp_steps.
  rewrite u16_id by (pow2; lia). unfold upd_page_m. wp_steps.
  unfold decref_state in HQ.
  destruct (Z.eqb_spec (pp_ref (page_at s p)) 1) as [E1|E1].
  - rewrite E1 in *. cbn [when Z.eqb Z.sub]. change (1 - 1 =? 0) with true.
    cbn [when]. eapply page_free_spec; [by apply free_list_upd_out|..|exact HQ].
    + by rewrite page_at_upd_eq.
    + by rewrite page_at_upd_eq.
  - rewrite (proj2 (Z.eqb_neq _ 0)) by lia. cbn [when]. by wp_steps.
Qed.

Lemma free_list_decref s p l :
  free_list s l → p ∉ l → 0 ≤ p < npages s → pp_link (page_at s p) = None →
  free_list (decref_state p l s) (decref_list s p l).
Proof.
  intros Hfl Hp Hr Hl. unfold decref_state, decref_list.
  destruct (Z.eqb_spec (pp_ref (page_at s p)) 1) as [E|E].
  - apply free_list_free; [by apply free_list_upd_out|done|done|..];
      rewrite page_at_upd_eq; cbn; [by rewrite E|done].
  - by apply free_list_upd_out.
Qed.

Lemma free_state_aux p l s : aux_same s (free_state p l s).
Proof. destruct l; by split_and!. Qed.

Lemma free_state_mem p l s : k_mem (free_state p l s) = k_mem s.
Proof. by destruct l. Qed.

Lemma free_state_page p l s q :
  q ≠ p → page_at (free_state p l s) q = page_at s q.
Proof.
  intros. destruct l; cbn [free_state]; [done|].
  change (page_at (upd_page p (set_link (Some z)) s) q = page_at s q).
  by apply page_at_upd_ne.
Qed.

Lemma decref_state_aux p l s : aux_same s (decref_state p l s).
Proof.
  unfold decref_state. case_match; [|by split_and!].
  etrans; [|apply free_state_aux]. by split_and!.
Qed.

Lemma decref_state_mem p l s : k_mem (decref_state p l s) = k_mem s.
Proof. unfold decref_state. case_match; [|done]. by rewrite free_state_mem. Qed.

Lemma decref_state_page p l s q :
  q ≠ p → page_at (decref_state p l s) q = page_at s q.
Proof.
  intros. unfold decref_state. case_match; [rewrite free_state_page by done|];
    by apply page_at_upd_ne.
Qed.

Lemma decref_state_ref p l s :
  pp_ref (page_at (decref_state p l s) p) = pp_ref (page_at s p) - 1.
Proof.
  unfold decref_state. case_match; [|by rewrite page_at_upd_eq].
  destruct l; cbn [free_state].
  - change (pp_ref (page_at (upd_page p (set_ref (pp_ref (page_at s p) - 1)) s) p)
            = pp_ref (page_at s p) - 1). by rewrite page_at_upd_eq.
  - match goal with |- pp_ref (page_at (set_page_free_list _ ?x) _) = _ =>
      change (pp_ref (page_at x p) = pp_ref (page_at s p) - 1) end.
    by rewrite !page_at_upd_eq.
Qed.

(** ** page_init *)

Section page_init.
Implicit Types (s : kst) (l : list Z).

(** A run of consecutively linked pages in front of a chain. *)
Lemma chain_segment pgs a n hd l :
  0 < n →
  (∀ j, a ≤ j < a + n - 1 → pp_link (getd page0 pgs j) = Some (j + 1)) →
  pp_link (getd page0 pgs (a + n - 1)) = hd → chain pgs hd l →
  chain pgs (Some a) (seqZ a n ++ l).
Proof.
  intros Hn. remember (Z.to_nat (n - 1)) as k eqn:Hk.
  replace n with (Z.of_nat k + 1) by lia. clear Hk Hn n.
  revert a. induction k as [|k IH]; intros a Hj Hl Hc.
  - rewrite seqZ_cons by lia. cbn. split; [done|].
    replace (a + (Z.of_nat 0 + 1) - 1) with a in Hl by lia. by rewrite Hl.
  - rewrite seqZ_cons by lia. cbn [app chain]. split; [done|].
    rewrite Hj by lia.
    replace (Z.pred (Z.of_nat (Datatypes.S k) + 1)) with (Z.of_nat k + 1) by lia.
    rewrite <- Z.add_1_r. apply IH; [|by rewrite <- Hl; do 2 f_equal; lia|done].
    intros j Hj'. apply Hj. lia.
Qed.

(** What the linking loop leaves behind. *)
Definition linked_page (s : kst) (i n : Z) (last : option Z) (j : Z) : PageInfo :=
  if decide (i ≤ j < i + n)
  then mkPage (if decide (j = i + n - 1) then None else Some (j + 1)) 0
  else if decide (last = Some j ∧ 0 < n) then set_link (Some i) (page_at s j)
  else page_at s j.

Lemma page_init_loop_spec n i last s :
  (∀ j, last = Some j → j < i) →
  ∃ pgs, page_init_loop n i last s =
    Ret tt (set_page_free_list
              (if decide (last = None ∧ 0 < Z.of_nat n) then Some i
               else page_free_list s) (set_pages pgs s)) ∧
    ∀ j, getd page0 pgs j = linked_page s i (Z.of_nat n) last j.
Proof.
  revert i last s. induction n as [|n IH]; intros i last s Hlast.
  - exists (pages s). split; [|intros j].
    + rewrite decide_False by lia. by destruct s.
    + unfold linked_page. by rewrite !decide_False by lia.
  - cbn [page_init_loop]. unfold upd_page_m.
    set (s1 := match last with
               | Some l => upd_page l (set_link (Some i)) (upd_page i (λ _, mkPage None 0) s)
               | None => set_page_free_list (Some i) (upd_page i (λ _, mkPage None 0) s)
               end).
    destruct (IH (i + 1) (Some i) s1) as (pgs & Hrun & Hpgs).
    { intros j [= <-]. lia. }
    exists pgs. split.
    + assert (Hs1 : (modify (upd_page i (λ _, mkPage None 0));;
               match last with
               | Some l => modify (upd_page l (set_link (Some i)))
               | None => modify (set_page_free_list (Some i))
               end) s = (Ret tt s1 : outcome kst kexit unit)) by (by destruct last).
      unfold mbind, M_bind, modify in Hs1 |- *. destruct last as [l|].
      * cbn in Hs1 |- *. fold s1. rewrite Hrun. rewrite !decide_False by (intros [? _]; done).
        done.
      * cbn in Hs1 |- *. fold s1. rewrite Hrun.
        rewrite decide_False by (intros [? _]; done).
        rewrite decide_True by (split; [done|lia]).
        done.
    + intros j. rewrite Hpgs. unfold linked_page.
      assert (Hs1 : page_at s1 j =
        if decide (i = j) then
          mkPage None 0
        else if decide (last = Some j) then set_link (Some i) (page_at s j)
        else page_at s j).
      { subst s1. destruct last as [l|].
        - rewrite !page_at_upd. specialize (Hlast l eq_refl).
          repeat case_decide; simplify_eq; try lia; done.
        - unfold page_at. cbn. rewrite getd_insert. repeat case_decide; done. }
      rewrite Hs1. destruct last as [l|]; [specialize (Hlast l eq_refl)|clear Hlast];
        repeat case_decide; destruct_and?; simplify_eq; try lia; try done;
        exfalso; naive_solver lia.
Qed.

(** The state [page_init] starts from: no free list yet, [pages] and the
    kernel image below [nextfree] = the end of the boot allocations, the boot
    page tables between the I/O hole and that end. *)
Definition kern_end (s : kst) : Z := (nextfree s - KERNBASE) / PGSIZE.

Record boot_layout `{img : KImage} (s : kst) : Prop := {
  bl_empty : page_free_list s = None;
  bl_npages : npages s ≤ 2 ^ 32;
  bl_nextfree : KERNBASE ≤ nextfree s < 2 ^ 63;
  bl_aligned : img_pml4phys mod PGSIZE = 0;
  bl_ptables : 161 * PGSIZE ≤ img_pml4phys;
  bl_ptables_end : img_pml4phys + 5 * PGSIZE ≤ nextfree s - KERNBASE;
  bl_kern_end : kern_end s < npages s
}.

Definition init_list (s : kst) : list Z :=
  seqZ 1 6 ++ seqZ 8 152 ++ seqZ (kern_end s) (npages s - kern_end s).

Lemma boot_alloc_0 `{img : KImage} s Q E :
  KERNBASE ≤ nextfree s → Q (nextfree s) s → wpx (boot_alloc 0) s Q E.
Proof.
  intros Hn HQ. unfold boot_alloc. wp_steps.
  unfold KERNBASE in Hn. rewrite (proj2 (Z.eqb_neq _ _)) by lia. cbn. by wp_steps.
Qed.

Lemma PADDR_spec kva s Q E :
  KERNBASE ≤ kva < 2 ^ 64 → Q (kva - KERNBASE) s → wpx (PADDR kva) s Q E.
Proof.
  intros Hk HQ. unfold PADDR. unfold KERNBASE in *. rewrite u64_id by (pow2; lia).
  rewrite (proj2 (Z.ltb_ge _ _)) by lia. by wp_steps.
Qed.

Lemma page_init_run `{img : KImage} s :
  boot_layout s →
  wp page_init s (λ _ s', aux_same s s' ∧ k_mem s' = k_mem s ∧
    page_free_list s' = Some 1 ∧
    ∀ j, 0 ≤ j < npages s → page_at s' j = mkPage
      (if decide (j = 6) then Some 8 else
       if decide (j = img_pml4phys / PGSIZE - 1) then Some (img_pml4phys / PGSIZE + 5) else
       if decide (j = 159) then Some (kern_end s) else
       if decide (j = npages s - 1) then None else Some (j + 1)) 0).
Proof.
  intros []. unfold kern_end in *. unfold PGSIZE in *.
  assert (0 ≤ (nextfree s - KERNBASE) / 4096) by zlia.
  assert (img_pml4phys / 4096 + 5 ≤ (nextfree s - KERNBASE) / 4096) by zlia.
  unfold page_init. wp_steps.
  destruct (page_init_loop_spec (Z.to_nat (npages s)) 0 None s) as (pgs & Hrun & Hpgs);
    [done|].
  rewrite Z2Nat.id in * by lia. rewrite decide_True in Hrun by (split; [done|zlia]).
  eapply wp_of_run; [exact Hrun|]. wp_steps. apply deref_spec. wp_steps.
  apply boot_alloc_0; [cbn; lia|]. wp_steps. cbn [nextfree set_page_free_list set_pages].
  apply PADDR_spec; [pow2; lia|]. unfold upd_page_m. wp_steps.
  unfold BOOT_PAGE_TABLE_START. apply KADDR_spec;
    [lia|cbn; unfold PGSIZE; zlia|cbn;lia|].
  wp_steps. apply PADDR_spec; [unfold KERNBASE; zlia|]. wp_steps.
  unfold BOOT_PAGE_TABLE_END. apply KADDR_spec;
    [unfold PGSIZE; lia|cbn; unfold PGSIZE; zlia|cbn;lia|].
  wp_steps. apply PADDR_spec; [unfold KERNBASE, PGSIZE in *; zlia|]. wp_steps.
  set (m := img_pml4phys) in *. set (np := npages s) in *.
  set (ke := (nextfree s - KERNBASE) / 4096) in *.
  change PGSIZE with 4096.
  change (MPENTRY_PADDR / 4096) with 7. change (IOPHYSMEM / 4096) with 160.
  replace ((m + KERNBASE - KERNBASE) / 4096) with (m / 4096) by (f_equal; lia).
  replace ((m + 5 * 4096 + KERNBASE - 1 - KERNBASE) / 4096 + 1)
    with (m / 4096 + 5) by zlia.
  fold ke. change (7 - 1) with 6. change (7 + 1) with 8. change (160 - 1) with 159.
  split_and!; [by split_and!|done| |].
  - cbn. unfold page_at. cbn. rewrite Hpgs. unfold linked_page. fold np.
    rewrite decide_True by zlia. by rewrite decide_False by zlia.
  - intros j Hj. rewrite !page_at_upd. unfold page_at. cbn [pages set_page_free_list set_pages].
    rewrite !Hpgs. unfold linked_page. fold np.
    assert (Hm : 161 ≤ m / 4096) by zlia.
    repeat case_decide; try lia; done.
Qed.
End page_init.

(** ** Properties *)

(** C35. page_init builds exactly the free list the memory map calls for, in
    order: pages 1..6 (page 0 and the AP boot page 7 are in use), the rest of
    base memory up to the I/O hole (8..159), and everything from the end of the
    boot allocations to the end of memory.  The I/O hole, the kernel image and
    the boot page tables are on no list; the result satisfies the allocator's
    invariant and no memory is written. *)
Theorem page_init_correct `{img : KImage} s :
  boot_layout s →
  wp page_init s (λ _ s', free_list s' (init_list s) ∧
    npages s' = npages s ∧ k_mem s' = k_mem s ∧
    (∀ p, 0 ≤ p < npages s → pp_ref (page_at s' p) = 0) ∧
    ∀ p, p ∈ init_list s ↔
         0 < p < npages s ∧ p ≠ 7 ∧ ¬ (160 ≤ p < kern_end s)).
Proof.
  intros Hb. eapply wpx_conseq; [by apply page_init_run|].
  intros _ s' (Haux & Hm & Hhd & Hp). destruct Haux as [Hnp _].
  destruct Hb. unfold kern_end, init_list, PGSIZE in *. set (m := img_pml4phys) in *.
  set (np := npages s) in *. fold (kern_end s).
  assert (161 ≤ m / 4096 ∧ m / 4096 + 5 ≤ kern_end s < np) as [Hm1 Hke]
    by (unfold kern_end, PGSIZE; split; zlia).
  set (ke := kern_end s) in *.
  assert (Hin : ∀ p, p ∈ seqZ 1 6 ++ seqZ 8 152 ++ seqZ ke (np - ke) ↔
                     0 < p < np ∧ p ≠ 7 ∧ ¬ (160 ≤ p < ke)).
  { intros p. rewrite !elem_of_app, !elem_of_seqZ. lia. }
  split_and!; [split|done|done| |exact Hin].
  - rewrite Hhd. apply chain_segment with (hd := Some 8); [done| | |].
    + intros j Hj. change (page_at s' j) with (getd page0 (pages s') j) in Hp.
      fold (page_at s' j). rewrite Hp by lia. by repeat (rewrite decide_False by lia).
    + fold (page_at s' (1 + 6 - 1)). rewrite Hp by lia. done.
    + apply chain_segment with (hd := Some ke); [done| | |].
      * intros j Hj. fold (page_at s' j). rewrite Hp by lia.
        by repeat (rewrite decide_False by lia).
      * fold (page_at s' (8 + 152 - 1)). rewrite Hp by lia.
        do 2 (rewrite decide_False by lia). by rewrite decide_True by lia.
      * rewrite <- (app_nil_r (seqZ ke _)). apply chain_segment with (hd := None);
          [lia| | |done].
        -- intros j Hj. fold (page_at s' j). rewrite Hp by lia.
           by repeat (rewrite decide_False by lia).
        -- replace (ke + (np - ke) - 1) with (np - 1) by lia.
           fold (page_at s' (np - 1)). rewrite Hp by lia.
           do 3 (rewrite decide_False by lia). by rewrite decide_True by lia.
  - rewrite !list.NoDup_app. split_and!; try apply NoDup_seqZ;
      intros p; rewrite ?elem_of_app, !elem_of_seqZ; lia.
  - rewrite list.Forall_forall. intros p Hp'%Hin. rewrite Hnp. fold np. lia.
  - rewrite list.Forall_forall. intros p Hp'%Hin. by rewrite Hp by lia.
  - intros p Hp'. by rewrite Hp.
Qed.

(** page_alloc is total on the allocator's invariant: on an empty list it
    returns NULL and changes nothing; otherwise it takes the first free page,
    clears its link, leaves its reference count at 0, zeroes exactly that page's
    bytes when ALLOC_ZERO is asked for, and keeps the rest of the list. *)
Theorem page_alloc_correct zero s l :
  free_list s l → npages s ≤ 2 ^ 32 → bytes_ok (k_mem s) →
  wp (page_alloc zero) s (λ r s',
    match l with
    | [] => r = None ∧ s' = s
    | p :: l' =>
        r = Some p ∧ free_list s' l' ∧ page_at s' p = mkPage None 0 ∧
        (∀ q, q ≠ p → page_at s' q = page_at s q) ∧ aux_same s s' ∧
        ∀ a, ldb (k_mem s') a =
             if zero && (p * PGSIZE <=? a) && (a <? (p + 1) * PGSIZE)
             then 0 else ldb (k_mem s) a
    end).
Proof.
  intros Hfl Hn Hb. eapply page_alloc_spec; [done..|]. destruct l as [|p l]; [done|].
  split_and!; [done|by apply free_list_alloc| | | |].
  - assert (page_at (alloc_state zero p s) p = set_link None (page_at s p)) as ->.
    { destruct zero; exact (page_at_upd_eq p (set_link None) _). }
    destruct Hfl as [_ _ _ Hf]. inversion Hf as [|?? Hr]; subst. unfold set_link.
    by rewrite Hr.
  - intros q Hq.
    destruct zero; exact (page_at_upd_ne p (set_link None) _ q (not_eq_sym Hq)).
  - by destruct zero; split_and!.
  - intros a. destruct zero; [|done]. cbn. rewrite ldb_zero_page.
    unfold PGSIZE. repeat case_match; zlia.
Qed.

(** Freeing: page_free accepts exactly the pages with no reference and no
    link, and puts them at the head, from where the next page_alloc takes them
    back, leaving the list it started from. *)
Theorem page_free_alloc s l p :
  free_list s l → npages s ≤ 2 ^ 32 → 0 ≤ p < npages s → p ∉ l →
  (page_at s p ≠ mkPage None 0 → page_free p s = Panic s) ∧
  (page_at s p = mkPage None 0 →
   wp (page_free p ;; page_alloc false) s (λ r s',
     r = Some p ∧ free_list s' l ∧ ∀ q, page_at s' q = page_at s q)).
Proof.
  intros Hfl Hn Hp Hl. split.
  - intros Hne. unfold page_free, mbind, M_bind, gets. cbn.
    destruct (Z.eqb_spec (pp_ref (page_at s p)) 0) as [E|E]; [|done]. cbn.
    destruct (pp_link (page_at s p)) eqn:E'; [done|].
    destruct Hne. destruct (page_at s p). cbn in *. congruence.
  - intros Hpg. wp_steps. eapply page_free_spec; rewrite ?Hpg; [done..|].
    assert (Hfl' : free_list (free_state p l s) (p :: l)).
    { apply free_list_free; rewrite ?Hpg; done. }
    eapply page_alloc_spec; [done|by destruct l|].
    split_and!; [done|by apply free_list_alloc|]. intros q. cbn.
    rewrite page_at_upd. case_decide as E.
    + subst q. rewrite Hpg. unfold set_link. f_equal.
      destruct Hfl' as [_ _ _ Hf]. by inversion Hf.
    + apply free_state_page. congruence.
Qed.

(** Links of the pages on a free list: only the last one has none. *)
Lemma chain_link_None pgs hd l p :
  NoDup l → chain pgs hd l → p ∈ l →
  pp_link (getd page0 pgs p) = None ↔ list.last l = Some p.
Proof.
  revert hd. induction l as [|x l IH]; intros hd Hn Hc Hp; [by apply not_elem_of_nil in Hp|].
  destruct Hc as [-> Hc]. apply list.NoDup_cons in Hn as [Hx Hn]. destruct l as [|y l].
  - apply list_elem_of_singleton in Hp as ->. cbn in *. by rewrite Hc.
  - rewrite last_cons_cons. apply elem_of_cons in Hp as [->|Hp].
    + destruct Hc as [-> _]. split; [done|]. intros Hl%last_Some_elem_of. contradiction.
    + eauto.
Qed.

(** Give the last page [p] of a chain the link [v]: every chain from the same
    head now runs through the old list and goes on from [v]. *)
Lemma chain_relink pgs pgs' hd l p v l' :
  NoDup l → chain pgs hd l → list.last l = Some p →
  (∀ q, q ≠ p → pp_link (getd page0 pgs' q) = pp_link (getd page0 pgs q)) →
  pp_link (getd page0 pgs' p) = v → chain pgs' hd l' →
  ∃ l2, l' = l ++ l2 ∧ chain pgs' v l2.
Proof.
  revert hd l'. induction l as [|x l IH]; intros hd l' Hn Hc Hl Hq Hv Hc'; [done|].
  destruct Hc as [-> Hc]. apply list.NoDup_cons in Hn as [Hx Hn].
  destruct l' as [|x' l']; [done|]. destruct Hc' as [[= <-] Hc'].
  destruct l as [|y l].
  - cbn in Hl. simplify_eq. by exists l'.
  - rewrite last_cons_cons in Hl.
    assert (x ≠ p) by (intros ->; apply last_Some_elem_of in Hl; contradiction).
    rewrite Hq in Hc' by done.
    destruct (IH _ _ Hn Hc Hl Hq Hv Hc') as (l2 & -> & ?). by exists l2.
Qed.

Lemma chain_loop pgs pgs' hd l p l' :
  l ≠ [] → NoDup l → chain pgs hd l → list.last l = Some p →
  (∀ q, q ≠ p → pp_link (getd page0 pgs' q) = pp_link (getd page0 pgs q)) →
  pp_link (getd page0 pgs' p) = hd → ¬ chain pgs' hd l'.
Proof.
  intros Hne Hn Hc Hl Hq Hv. remember (length l') as n eqn:Hlen. revert l' Hlen.
  induction (lt_wf n) as [n _ IH]. intros l' -> Hc'.
  destruct (chain_relink _ _ _ _ _ _ _ Hn Hc Hl Hq Hv Hc') as (l2 & -> & H2).
  refine (IH (length l2) _ l2 eq_refl H2). rewrite length_app. destruct l; [done|].
  cbn. lia.
Qed.

(** The double-free check looks at the link only, so it catches every page
    of the free list but the last: freeing a page that is already free panics,
    except when it is the last of the list; then page_free returns, and the list
    has become a cycle that denotes no finite free list. *)
Theorem page_free_double_free s l p :
  free_list s l → p ∈ l →
  if decide (list.last l = Some p)
  then ∃ s', page_free p s = Ret tt s' ∧ ∀ l', ¬ free_list s' l'
  else page_free p s = Panic s.
Proof.
  intros Hfl Hp. pose proof Hfl as [Hc Hn _ Hr].
  assert (pp_ref (page_at s p) = 0) as Hr0 by (rewrite list.Forall_forall in Hr; auto).
  pose proof (chain_link_None _ _ _ _ Hn Hc Hp) as Hlast. fold (page_at s p) in Hlast.
  assert (Hrun : page_free p s =
    match pp_link (page_at s p) with Some _ => Panic s | None => insertAtBegining p s end).
  { unfold page_free, mbind, M_bind, gets. rewrite Hr0. cbn.
    by destruct (pp_link (page_at s p)). }
  rewrite Hrun. case_decide as Hd.
  - rewrite (proj2 Hlast) by done.
    destruct l as [|h l]; [by apply not_elem_of_nil in Hp|].
    pose proof (free_list_head _ _ _ Hfl) as Hhd.
    eexists. split.
    { unfold insertAtBegining, upd_page_m, mbind, M_bind, gets, modify. by rewrite Hhd. }
    intros l' [Hc' _ _ _]. cbn in Hc'. destruct l' as [|q l']; [done|].
    destruct Hc' as [[= <-] Hc']. rewrite getd_insert_eq in Hc'. cbn in Hc'.
    rewrite Hhd in Hc.
    refine (chain_loop _ _ _ _ p l' _ Hn Hc Hd _ _ Hc'); [done| |].
    + intros q Hq. by rewrite getd_insert_ne by done.
    + by rewrite getd_insert_eq.
  - destruct (pp_link (page_at s p)) eqn:E; [done|]. by destruct Hd; apply Hlast.
Qed.

(** ** Instances *)

(** A small machine: sixteen pages, pages 2..6 free, page 8 in use. *)
Definition ex_pages : gmap Z PageInfo :=
  <[2 := mkPage (Some 3) 0]> (<[3 := mkPage (Some 4) 0]> (<[4 := mkPage (Some 5) 0]>
  (<[5 := mkPage (Some 6) 0]> (<[8 := mkPage None 1]> ∅)))).
Definition ex_env : Env :=
  set_env_pml4e (1 * PGSIZE + KERNBASE)
    (set_env_status ENV_RUNNING (set_env_id 4096 env0)).
Definition ex_kst : kst :=
  mkKst ∅ 16 0 ex_pages (Some 2) 0 (KERNBASE + 4096) 4096 0 0 {[0 := ex_env]} (Some 1) 0
    {[0 := mkCpu CPU_STARTED (Some 0)]} 0 (mkLock 1 (Some 0)) 0 cons0 nic0 [].
Definition ex_img : KImage := {| img_end := KERNBASE + 0x1F0010;
  img_pml4phys := 0x102000; img_kstacks := λ i, KERNBASE + 0x1A0000 + i * KSTKSIZE |}.
Definition ex_boot : kst :=
  mkKst ∅ 1024 160 ∅ None (KERNBASE + 0x200000) 0 0 0 0 ∅ None 0 ∅ 0
    (mkLock 0 None) 0 cons0 nic0 [].

Lemma ex_free_list : free_list ex_kst [2; 3; 4; 5; 6].
Proof.
  split; [by vm_compute|by vm_compute; repeat constructor; set_solver| |];
    repeat constructor; vm_compute; congruence.
Qed.

Lemma ex_bytes : bytes_ok (∅ : mem).
Proof. intros a. unfold ldb. rewrite !getd_empty. lia. Qed.

Lemma page_init_correct_witness :
  ∃ s', page_init (img := ex_img) ex_boot = Ret tt s' ∧
        free_list s' (seqZ 1 6 ++ seqZ 8 152 ++ seqZ 512 512).
Proof.
  assert (H : boot_layout (img := ex_img) ex_boot) by (split; vm_compute; congruence || split; congruence).
  destruct (wp_returns _ _ _ (page_init_correct (img := ex_img) ex_boot H))
    as ([] & s' & Hrun & Hfl & _).
  exists s'. split; [exact Hrun|exact Hfl].
Defined.

Lemma page_alloc_correct_witness :
  wp (page_alloc true) ex_kst (λ r s', r = Some 2 ∧ free_list s' [3; 4; 5; 6]).
Proof.
  assert (npages ex_kst ≤ 2 ^ 32) as Hn by (vm_compute; congruence).
  eapply wpx_conseq; [exact (page_alloc_correct true ex_kst _ ex_free_list Hn ex_bytes)|].
  intros r s' (-> & Hfl & _). split; [reflexivity|exact Hfl].
Defined.

Lemma page_free_alloc_witness :
  wp (page_free 9 ;; page_alloc false) ex_kst (λ r s',
    r = Some 9 ∧ free_list s' [2; 3; 4; 5; 6] ∧ ∀ q, page_at s' q = page_at ex_kst q).
Proof.
  apply (page_free_alloc ex_kst [2; 3; 4; 5; 6] 9 ex_free_list);
    [vm_compute; congruence|vm_compute; split; congruence|set_solver|reflexivity].
Defined.

Lemma page_free_double_free_witness :
  page_free 4 ex_kst = Panic ex_kst ∧
  ∃ s', page_free 6 ex_kst = Ret tt s' ∧ ∀ l', ¬ free_list s' l'.
Proof.
  split.
  - exact (page_free_double_free ex_kst _ 4 ex_free_list ltac:(set_solver)).
  - exact (page_free_double_free ex_kst _ 6 ex_free_list ltac:(set_solver)).
Defined.
