(* ===== verification/PageTable.v ===== *)
(** * Four-level page tables (kern/pmap.c: walks, lookup, insert, remove)

    A page-table tree is read off memory: [tbl m root path] is the page holding
    the table reached from [root] by following the non-zero entries along
    [path], and [pte m root va] the entry for [va] (0 when a table is missing).
    [pt_inv] is the invariant of one tree: its tables are real pages, none is on
    the free list, and no page serves as two tables.  Every operation keeps it,
    and its effect is stated on [pte]. *)

From S2P Require Import Prelude Mem KState Printfmt Pmap PageAlloc.

(** ** Entries and paths *)

Definition entry (m : mem) (t i : Z) : Z := ld64 m (t * PGSIZE + 8 * i).
Arguments entry : simpl never.

Fixpoint tbl (m : mem) (t : Z) (p : list Z) : option Z :=
  match p with
  | [] => Some t
  | i :: p' =>
      let e := entry m t i in
      if e =? 0 then None else tbl m (e / PGSIZE) p'
  end.

(** Entry 2 of the top table is the self-map ([PML4(UVPT)]). *)
Definition vpath (p : list Z) : Prop :=
  Forall (λ i, 0 ≤ i < 512) p ∧ (length p ≤ 3)%nat ∧ head p ≠ Some (PML4 UVPT).

Definition leaf (m : mem) (root : Z) (p : list Z) (i : Z) : Z :=
  match tbl m root p with Some t => entry m t i | None => 0 end.

Definition va_path (va : Z) : list Z := [PML4 va; PDPE va; PDX va].
Definition pte (m : mem) (root va : Z) : Z := leaf m root (va_path va) (PTX va).

(** Kernel addresses of a table and of a slot in it. *)
Definition tab_kva (t : Z) : Z := t * PGSIZE + KERNBASE.
Definition slot_kva (t i : Z) : Z := tab_kva t + 8 * i.

Section entries.
Implicit Types (m : mem) (t i : Z) (p q : list Z).

Lemma entry_range m t i : bytes_ok m → 0 ≤ entry m t i < 2 ^ 64.
Proof. intros H. apply (ldn_range 8 _ _ H). Qed.

Lemma entry_ext m m' t i :
  0 ≤ i < 512 → (∀ b, b / PGSIZE = t → ldb m' b = ldb m b) →
  entry m' t i = entry m t i.
Proof.
  intros Hi H. apply ldn_ext. intros b Hb. apply H. unfold PGSIZE in *. zlia.
Qed.

Lemma entry_st64 m t i v t' j :
  0 ≤ i < 512 → 0 ≤ j < 512 → 0 ≤ v < 2 ^ 64 →
  entry (st64 m (t * PGSIZE + 8 * i) v) t' j =
    if decide (t' = t ∧ j = i) then v else entry m t' j.
Proof.
  intros Hi Hj Hv. unfold entry. case_decide as H.
  - destruct H as [-> ->]. rewrite ld64_st64_eq. apply u64_id. pow2. lia.
  - apply ldn_stn_ne. unfold PGSIZE. lia.
Qed.

Lemma entry_zero_page m a t i :
  0 ≤ i < 512 → entry (zero_page m a) t i = if decide (t = a) then 0 else entry m t i.
Proof.
  intros Hi. case_decide as H.
  - subst. apply ldn_zero. intros b Hb. rewrite ldb_zero_page.
    rewrite decide_True; [done|]. unfold PGSIZE in *. zlia.
  - apply entry_ext; [done|]. intros b Hb. rewrite ldb_zero_page.
    rewrite decide_False; [done|congruence].
Qed.

Lemma tbl_app m t p q :
  tbl m t (p ++ q) = tbl m t p ≫= λ t', tbl m t' q.
Proof.
  revert t. induction p as [|i p IH]; intros t; [done|]. cbn [app tbl].
  by destruct (entry m t i =? 0).
Qed.

Lemma tbl_snoc m t p i :
  tbl m t (p ++ [i]) =
    tbl m t p ≫= λ t', if entry m t' i =? 0 then None
                       else Some (entry m t' i / PGSIZE).
Proof. rewrite tbl_app. by destruct (tbl m t p). Qed.

Lemma tbl_prefix m t p q t' : tbl m t (p ++ q) = Some t' → is_Some (tbl m t p).
Proof. rewrite tbl_app. destruct (tbl m t p); [by eexists|done]. Qed.

Lemma tbl_prefix_None m t q p :
  q `prefix_of` p → tbl m t q = None → tbl m t p = None.
Proof. intros [k ->] H. by rewrite tbl_app, H. Qed.

Lemma vpath_snoc p i : vpath (p ++ [i]) → vpath p.
Proof.
  intros (H & L & Hd). rewrite length_app in L. cbn in L.
  apply Forall_app in H as [H _]. split_and!; [done|lia|].
  by destruct p.
Qed.

Lemma vpath_nil : vpath [].
Proof. split_and!; [constructor|cbn; lia|done]. Qed.

(** A tree changes only below the slots that change: if the entries of the
    tables on the paths agree except at slot [i] of the table at [q], so do
    the tables off [q ++ [i]]. *)
Lemma tbl_agree m m' root q i p :
  (∀ p t j, vpath p → tbl m root p = Some t → 0 ≤ j < 512 →
     (p, j) ≠ (q, i) → entry m' t j = entry m t j) →
  vpath p → ¬ (q ++ [i]) `prefix_of` p → tbl m' root p = tbl m root p.
Proof.
  intros Hent. induction p as [|j p IH] using rev_ind; intros Hp Hpre; [done|].
  pose proof (vpath_snoc _ _ Hp) as Hp'. rewrite !tbl_snoc.
  rewrite IH; [|done|].
  - destruct (tbl m root p) as [t|] eqn:E; [|done]. cbn.
    rewrite (Hent p t j); [done..| |].
    + destruct Hp as [Hf _]. apply Forall_app in Hf as [_ Hf]. by inversion Hf.
    + intros [= -> ->]. by destruct Hpre.
  - intros Hc. apply Hpre. by apply prefix_app_r.
Qed.
End entries.

(** ** Address and permission bits *)

Section bits.
Lemma land_511 x : 0 ≤ Z.land x 0x1FF < 512.
Proof.
  change 0x1FF with (Z.ones 9). rewrite Z.land_ones by lia.
  apply Z.mod_pos_bound. done.
Qed.

Lemma PTE_ADDR_div x : 0 ≤ x < 2 ^ 64 → PTE_ADDR x = x / PGSIZE * PGSIZE.
Proof.
  intros Hx. unfold PTE_ADDR. rewrite u64_id by (pow2; lia).
  rewrite <- Z.ldiff_land. change 0xFFF with (Z.ones 12).
  rewrite Z.ldiff_ones_r by lia. rewrite Z.shiftl_mul_pow2, Z.shiftr_div_pow2 by lia.
  done.
Qed.

(** A page address and permission bits occupy different bits. *)
Lemma lor_page_perm p perm :
  0 ≤ perm < 4096 → Z.lor (p * PGSIZE) perm = p * PGSIZE + perm.
Proof.
  intros Hp.
  assert (Z.land (p * PGSIZE) perm = 0) as Hl.
  { apply Z.bits_inj'. intros n Hn. rewrite Z.land_spec, Z.bits_0. unfold PGSIZE.
    change 4096 with (2 ^ 12). rewrite <- Z.shiftl_mul_pow2 by lia.
    destruct (decide (n < 12)).
    - by rewrite Z.shiftl_spec_low by lia.
    - rewrite (Z.bits_above_log2 perm n); [apply andb_false_r|lia|].
      destruct (decide (perm = 0)) as [->|]; [cbn; lia|].
      apply Z.log2_lt_pow2; [lia|].
      assert (2 ^ 12 ≤ 2 ^ n) by (apply Z.pow_le_mono_r; lia).
      change (2 ^ 12) with 4096 in *. lia. }
  rewrite Z.add_nocarry_lxor by done. symmetry. by apply Z.lxor_lor.
Qed.

Lemma lor_range a b n : 0 ≤ n → 0 ≤ a < 2 ^ n → 0 ≤ b < 2 ^ n → 0 ≤ Z.lor a b < 2 ^ n.
Proof.
  intros Hn Ha Hb.
  assert (Z.lor a b = Z.lor a b mod 2 ^ n) as ->.
  { rewrite <- Z.land_ones by done. rewrite Z.land_lor_distr_l, !Z.land_ones by done.
    by rewrite !Z.mod_small. }
  apply Z.mod_pos_bound. lia.
Qed.

Lemma land_page_perm p perm m :
  0 ≤ perm < 4096 → 0 ≤ m < 4096 →
  Z.land (p * PGSIZE + perm) m = Z.land perm m.
Proof.
  intros Hp Hm. rewrite <- lor_page_perm by done. rewrite Z.land_lor_distr_l.
  assert (Z.land (p * PGSIZE) m = 0) as ->; [|done].
  pose proof (lor_page_perm p m Hm) as E. pose proof (Z.add_lor_land (p * PGSIZE) m).
  lia.
Qed.

Lemma div_page_perm p perm : 0 ≤ perm < 4096 → (p * PGSIZE + perm) / PGSIZE = p.
Proof. unfold PGSIZE. intros. zlia. Qed.
End bits.

#[export] Hint Resolve land_511 : jos.

(** Every used entry of the upper tables has the present and the write bit, so that
    the processor's walk agrees with the kernel's and the leaf alone decides whether
    a page can be written. *)
Definition PTE_PW : Z := Z.lor PTE_P PTE_W.
Definition tables_present (m : mem) (root : Z) : Prop :=
  ∀ p t i, vpath p → (length p < 3)%nat → tbl m root p = Some t → 0 ≤ i < 512 →
    entry m t i ≠ 0 → Z.land (entry m t i) PTE_PW = PTE_PW.

(** ** The invariant of one address space *)

Record pt_inv (s : kst) (root : Z) (l : list Z) : Prop := {
  pi_bytes : bytes_ok (k_mem s);
  pi_npages : npages s ≤ 2 ^ 32;
  pi_free : free_list s l;
  pi_range : ∀ p t, vpath p → tbl (k_mem s) root p = Some t → 0 ≤ t < npages s ∧ t ∉ l;
  pi_inj : ∀ p q t, vpath p → vpath q →
    tbl (k_mem s) root p = Some t → tbl (k_mem s) root q = Some t → p = q
}.

(** What a walk may do to a tree: tables are added from the free list; the
    leaves read the same, and nothing else in memory changes. *)
Record grow (root : Z) (s : kst) (l : list Z) (s' : kst) (l' : list Z) : Prop := {
  gr_inv : pt_inv s' root l';
  gr_aux : aux_same s s';
  gr_trace : trace s' = trace s;
  gr_sub : ∀ p, p ∈ l' → p ∈ l;
  gr_pages : ∀ p, p ∉ l → page_at s' p = page_at s p;
  gr_used : ∀ p, p ∈ l → p ∉ l' → page_at s' p = mkPage None 1;
  gr_tbl : ∀ p t, vpath p → tbl (k_mem s) root p = Some t → tbl (k_mem s') root p = Some t;
  gr_new : ∀ p t, vpath p → tbl (k_mem s) root p = None →
    tbl (k_mem s') root p = Some t → t ∈ l;
  gr_leaf : ∀ p i, vpath p → length p = 3%nat → 0 ≤ i < 512 →
    leaf (k_mem s') root p i = leaf (k_mem s) root p i;
  gr_mem : ∀ b, b / PGSIZE ∉ l →
    (∀ p, vpath p → tbl (k_mem s) root p ≠ Some (b / PGSIZE)) →
    ldb (k_mem s') b = ldb (k_mem s) b;
  gr_present : tables_present (k_mem s) root → tables_present (k_mem s') root
}.

Lemma grow_refl root s l : pt_inv s root l → grow root s l s l.
Proof. intros. split; try done; congruence. Qed.

Lemma grow_trans root s l s1 l1 s2 l2 :
  grow root s l s1 l1 → grow root s1 l1 s2 l2 → grow root s l s2 l2.
Proof.
  intros H1 H2. split.
  - apply H2.
  - etrans; [apply H1|apply H2].
  - by rewrite (gr_trace _ _ _ _ _ H2), (gr_trace _ _ _ _ _ H1).
  - intros p Hp. apply H1, H2, Hp.
  - intros p Hp. rewrite (gr_pages _ _ _ _ _ H2); [by apply H1|].
    intros Hp'%H1. done.
  - intros p Hp Hp'. destruct (decide (p ∈ l1)) as [Hl|Hl]; [by apply H2|].
    rewrite (gr_pages _ _ _ _ _ H2) by done. by apply H1.
  - intros p t Hp Ht. apply H2; [done|]. by apply H1.
  - intros p t Hp Hn Ht. destruct (tbl (k_mem s1) root p) as [t'|] eqn:E.
    + pose proof (gr_tbl _ _ _ _ _ H2 _ _ Hp E). simplify_eq.
      by eapply (gr_new _ _ _ _ _ H1).
    + eapply H1, (gr_new _ _ _ _ _ H2); done.
  - intros p i Hp Hl Hi. rewrite (gr_leaf _ _ _ _ _ H2) by done. by apply H1.
  - intros b Hb Hn. rewrite (gr_mem _ _ _ _ _ H2).
    + by apply H1.
    + intros Hb'%H1. done.
    + intros p Hp Ht. destruct (tbl (k_mem s) root p) as [t'|] eqn:E.
      * pose proof (gr_tbl _ _ _ _ _ H1 _ _ Hp E). simplify_eq. by apply (Hn p).
      * by eapply Hb, (gr_new _ _ _ _ _ H1).
  - intros Hp. apply H2, H1, Hp.
Qed.

(** Loads and stores through the direct map. *)
Lemma kload_spec s t i Q E :
  0 ≤ t < npages s → 0 ≤ i < 512 → Q (entry (k_mem s) t i) s →
  wpx (kload (tab_kva t + 8 * i)) s Q E.
Proof.
  intros Ht Hi HQ. unfold kload, tab_kva, kaddr_ok. wp_steps. unfold PGSIZE in *.
  rewrite (proj2 (Z.leb_le _ _)) by lia. rewrite (proj2 (Z.leb_le _ _)) by lia. cbn [andb].
  wp_steps. unfold entry, PGSIZE in HQ.
  by replace (t * 4096 + KERNBASE + 8 * i - KERNBASE) with (t * 4096 + 8 * i) by lia.
Qed.

Lemma kstore_spec s t i v (Q : unit → kst → Prop) E :
  0 ≤ t < npages s → 0 ≤ i < 512 →
  Q tt (set_k_mem (st64 (k_mem s) (t * PGSIZE + 8 * i) v) s) →
  wpx (kstore (tab_kva t + 8 * i) v) s Q E.
Proof.
  intros Ht Hi HQ. unfold kstore, tab_kva, kaddr_ok. wp_steps. unfold PGSIZE in *.
  rewrite (proj2 (Z.leb_le _ _)) by lia. rewrite (proj2 (Z.leb_le _ _)) by lia. cbn [andb].
  wp_steps.
  by replace (t * 4096 + KERNBASE + 8 * i - KERNBASE) with (t * 4096 + 8 * i) by lia.
Qed.

(** ** One table entry changes *)

Section write.
Context (m m' : mem) (root : Z) (q : list Z) (t i v : Z).
Hypothesis Hq : vpath q.
Hypothesis Htq : tbl m root q = Some t.
Hypothesis Hi : 0 ≤ i < 512.
Hypothesis Hinj : ∀ p p' t, vpath p → vpath p' →
  tbl m root p = Some t → tbl m root p' = Some t → p = p'.
Hypothesis Hent : ∀ p t' j, vpath p → tbl m root p = Some t' → 0 ≤ j < 512 →
  entry m' t' j = if decide (t' = t ∧ j = i) then v else entry m t' j.

Lemma tbl_write_off p :
  vpath p → ¬ (q ++ [i]) `prefix_of` p → tbl m' root p = tbl m root p.
Proof.
  intros Hp Hpre. eapply tbl_agree; [|done|exact Hpre].
  intros p' t' j Hp' Ht' Hj Hne. rewrite (Hent p') by done.
  rewrite decide_False; [done|]. intros [-> ->]. apply Hne. f_equal.
  by eapply Hinj.
Qed.

Lemma not_prefix_snoc : ¬ (q ++ [i]) `prefix_of` q.
Proof. intros H%prefix_length. rewrite length_app in H. cbn in H. lia. Qed.

Lemma tbl_write_at :
  tbl m' root (q ++ [i]) = if v =? 0 then None else Some (v / PGSIZE).
Proof.
  rewrite tbl_snoc, tbl_write_off by (done || apply not_prefix_snoc).
  rewrite Htq. cbn. rewrite (Hent q) by done. by rewrite decide_True.
Qed.

(** No path is longer than three, so a write to a bottom table moves no table. *)
Lemma tbl_write_leaf p : length q = 3%nat → vpath p → tbl m' root p = tbl m root p.
Proof.
  intros Hl Hp. apply tbl_write_off; [done|]. intros Hpre%prefix_length.
  rewrite length_app in Hpre. destruct Hp as (_ & ? & _). cbn in Hpre. lia.
Qed.

Lemma leaf_write p j :
  vpath p → length p = 3%nat → 0 ≤ j < 512 →
  (length q = 3%nat ∨ ¬ (q ++ [i]) `prefix_of` p ∧ q ≠ p) →
  leaf m' root p j = if decide (p = q ∧ j = i) then v else leaf m root p j.
Proof.
  intros Hp Hlp Hj Hcase. unfold leaf.
  assert (tbl m' root p = tbl m root p) as ->.
  { destruct Hcase as [?|[? ?]]; [by apply tbl_write_leaf|by apply tbl_write_off]. }
  destruct (tbl m root p) as [t'|] eqn:E.
  - rewrite (Hent p) by done. destruct (decide (p = q ∧ j = i)) as [[-> ->]|Hne].
    + rewrite decide_True; [done|]. split; congruence.
    + rewrite decide_False; [done|]. intros [-> ->]. apply Hne. split; [|done].
      by eapply Hinj.
  - rewrite decide_False; [done|]. intros [-> ->]. congruence.
Qed.
End write.

Lemma set_k_mem_free_list m s l : free_list s l → free_list (set_k_mem m s) l.
Proof. by apply free_list_ext. Qed.

(** ** walk_entry *)

(** The state after walk_entry has put the fresh page [a] in slot [i] of [t]. *)
Definition walk_state (a t i : Z) (s : kst) : kst :=
  let s1 := alloc_state true a s in
  set_k_mem (st64 (k_mem s1) (t * PGSIZE + 8 * i) (a * PGSIZE + 7))
    (upd_page a (set_ref 1) s1).

Section walk_alloc.
Context (s : kst) (root : Z) (l : list Z) (a t i : Z) (q : list Z).
Hypothesis Hinv : pt_inv s root (a :: l).
Hypothesis Hq : vpath (q ++ [i]).
Hypothesis Htq : tbl (k_mem s) root q = Some t.
Hypothesis Hnone : tbl (k_mem s) root (q ++ [i]) = None.

Local Notation m := (k_mem s).
Local Notation m' := (k_mem (walk_state a t i s)).

Lemma walk_i_range : 0 ≤ i < 512.
Proof. destruct Hq as [Hf _]. apply Forall_app in Hf as [_ Hf]. by inversion Hf. Qed.

Lemma walk_a_range : 0 ≤ a < npages s.
Proof. destruct Hinv as [_ _ [_ _ Hr _] _ _]. by inversion Hr. Qed.

Lemma walk_table_ne p t' : vpath p → tbl m root p = Some t' → t' ≠ a.
Proof.
  intros Hp Ht ->. destruct (pi_range _ _ _ Hinv _ _ Hp Ht) as [_ Ha].
  apply Ha. by constructor.
Qed.

Lemma walk_new_entry : 0 ≤ a * PGSIZE + 7 < 2 ^ 64.
Proof.
  pose proof walk_a_range. pose proof (pi_npages _ _ _ Hinv). unfold PGSIZE. pow2. lia.
Qed.

Lemma walk_mem_eq : m' = st64 (zero_page m a) (t * PGSIZE + 8 * i) (a * PGSIZE + 7).
Proof. reflexivity. Qed.

Lemma walk_entries t' j :
  0 ≤ j < 512 →
  entry m' t' j = if decide (t' = t ∧ j = i) then a * PGSIZE + 7
                  else if decide (t' = a) then 0 else entry m t' j.
Proof.
  intros Hj. rewrite walk_mem_eq. pose proof walk_new_entry. pose proof walk_i_range.
  rewrite entry_st64 by done.
  case_decide; [done|]. by apply entry_zero_page.
Qed.

Lemma walk_table_entries p t' j :
  vpath p → tbl m root p = Some t' → 0 ≤ j < 512 →
  entry m' t' j = if decide (t' = t ∧ j = i) then a * PGSIZE + 7 else entry m t' j.
Proof.
  intros Hp Ht' Hj. rewrite walk_entries by done.
  by rewrite (decide_False (P := t' = a)) by eauto using walk_table_ne.
Qed.

Lemma walk_tbl p :
  vpath p → tbl m' root p = if decide (p = q ++ [i]) then Some a else tbl m root p.
Proof.
  intros Hp. pose proof walk_a_range.
  assert (Hat : tbl m' root (q ++ [i]) = Some a).
  { erewrite tbl_write_at; [|by eapply vpath_snoc|done|exact walk_i_range|
      exact (pi_inj _ _ _ Hinv)|exact walk_table_entries].
    rewrite (proj2 (Z.eqb_neq _ _)) by (unfold PGSIZE; lia).
    by rewrite div_page_perm by lia. }
  case_decide as Hd; [by subst|].
  destruct (decide ((q ++ [i]) `prefix_of` p)) as [[k ->]|Hpre].
  - rewrite 2!(tbl_app _ root (q ++ [i]) k), Hat, Hnone.
    destruct k as [|j k]; [by rewrite app_nil_r in Hd|].
    cbn [mbind option_bind tbl]. rewrite walk_entries.
    + rewrite decide_False; [by rewrite decide_True|].
      intros [E _]. by eapply (walk_table_ne q t); [eapply vpath_snoc|..].
    + destruct Hp as [Hf _]. apply Forall_app in Hf as [_ Hf]. by inversion Hf.
  - eapply tbl_write_off; [by eapply vpath_snoc|done|exact (pi_inj _ _ _ Hinv)|
      exact walk_table_entries|done|done].
Qed.

Lemma walk_pages p :
  page_at (walk_state a t i s) p = if decide (p = a) then mkPage None 1 else page_at s p.
Proof.
  change (page_at (walk_state a t i s) p) with
    (page_at (upd_page a (set_ref 1) (alloc_state true a s)) p).
  rewrite page_at_upd. destruct (decide (a = p)) as [->|Hne].
  - rewrite decide_True by done.
    change (page_at (alloc_state true p s) p) with
      (page_at (upd_page p (set_link None)
         (set_page_free_list (pp_link (page_at s p)) s)) p).
    by rewrite page_at_upd_eq.
  - rewrite decide_False by congruence.
    exact (page_at_upd_ne a (set_link None) _ p Hne).
Qed.

Lemma walk_mem b :
  b / PGSIZE ≠ a → b / PGSIZE ≠ t → ldb m' b = ldb m b.
Proof.
  intros Ha Ht. rewrite walk_mem_eq. pose proof walk_i_range. rewrite ldb_stn_out.
  - rewrite ldb_zero_page. by rewrite decide_False.
  - unfold PGSIZE in *. zlia.
Qed.

Lemma walk_grow : grow root s (a :: l) (walk_state a t i s) l.
Proof.
  pose proof (fl_nodup _ _ (pi_free _ _ _ Hinv)) as [Hal Hn]%list.NoDup_cons.
  split.
  - split.
    + rewrite walk_mem_eq. apply bytes_ok_stn, bytes_ok_zero_page, Hinv.
    + apply Hinv.
    + apply set_k_mem_free_list, free_list_upd_out; [done|].
      apply free_list_alloc, Hinv.
    + intros p t' Hp. rewrite walk_tbl by done. case_decide.
      * intros [= <-]. split; [apply walk_a_range|done].
      * intros Ht'. destruct (pi_range _ _ _ Hinv _ _ Hp Ht'). set_solver.
    + intros p p' t' Hp Hp'. rewrite !walk_tbl by done. repeat case_decide.
      * congruence.
      * intros [= <-] Ht. by destruct (walk_table_ne p' a).
      * intros Ht [= <-]. by destruct (walk_table_ne p a).
      * by apply Hinv.
  - by split_and!.
  - done.
  - set_solver.
  - intros p Hp. rewrite walk_pages. rewrite decide_False; [done|set_solver].
  - intros p Hp Hp'. rewrite walk_pages. rewrite decide_True; [done|set_solver].
  - intros p t' Hp Ht. rewrite walk_tbl by done. rewrite decide_False; [done|]. congruence.
  - intros p t' Hp Hno. rewrite walk_tbl by done. case_decide; [set_solver|congruence].
  - intros p j Hp Hl Hj. unfold leaf. rewrite walk_tbl by done. case_decide as Hd.
    + subst p. rewrite Hnone, walk_entries by done. rewrite decide_False; [by rewrite decide_True|].
      intros [E _]. by eapply (walk_table_ne q t); [eapply vpath_snoc|..].
    + destruct (tbl m root p) as [t'|] eqn:E; [|done].
      rewrite (walk_table_entries p) by done. rewrite decide_False; [done|].
      intros [-> ->]. assert (p = q) as ->.
      { eapply (pi_inj _ _ _ Hinv); [done|by eapply vpath_snoc|done..]. }
      destruct Hq as (_ & Hl' & _). rewrite length_app in Hl'. cbn in Hl'. lia.
  - intros b Hb Ht. apply walk_mem; [set_solver|]. intros <-.
    eapply Ht; [by eapply vpath_snoc|done].
  - intros Hpres p t' j Hp Hlp Ht' Hj. rewrite walk_tbl in Ht' by done.
    case_decide as Hd.
    + injection Ht' as <-. rewrite walk_entries by done.
      rewrite decide_False; [by rewrite decide_True|].
      intros [E _]. by eapply (walk_table_ne q t); [eapply vpath_snoc|..].
    + rewrite (walk_table_entries p) by done. case_decide; [|by eauto].
      intros _. change PTE_P with 1. by rewrite land_page_perm.
Qed.
End walk_alloc.

(** What looking at slot [i] of the table at [q] gives. *)
Definition walk_entry_post (root : Z) (q : list Z) (i : Z) (create : bool)
    (s : kst) (l : list Z) (r : option (Z * option Z)) (s' : kst) : Prop :=
  match r with
  | None => s' = s ∧ tbl (k_mem s) root (q ++ [i]) = None ∧ (create = true → l = [])
  | Some (nx, None) =>
      s' = s ∧ ∃ t', tbl (k_mem s) root (q ++ [i]) = Some t' ∧ nx = tab_kva t'
  | Some (nx, Some a) =>
      create = true ∧ tbl (k_mem s) root (q ++ [i]) = None ∧ nx = tab_kva a ∧
      ∃ l', l = a :: l' ∧ grow root s l s' l' ∧
            tbl (k_mem s') root (q ++ [i]) = Some a
  end.

Lemma tab_kva_spec s t e Q E :
  0 ≤ e < 2 ^ 64 → e / PGSIZE = t → t < npages s → npages s ≤ 2 ^ 32 →
  Q (tab_kva t) s → wpx (KADDR (PTE_ADDR e)) s Q E.
Proof.
  intros He <- Ht Hn HQ. rewrite PTE_ADDR_div by done.
  assert (e / PGSIZE * PGSIZE / PGSIZE = e / PGSIZE) as Hd by (unfold PGSIZE; zlia).
  apply KADDR_spec; rewrite ?Hd; [unfold PGSIZE; zlia|done|done|exact HQ].
Qed.

Lemma walk_entry_spec s root l q i t create :
  pt_inv s root l → vpath (q ++ [i]) → tbl (k_mem s) root q = Some t →
  wp (walk_entry (tab_kva t) i create) s (walk_entry_post root q i create s l).
Proof.
  intros Hinv Hq Ht. pose proof (walk_i_range _ _ Hq) as Hi.
  pose proof (pi_range _ _ _ Hinv _ _ (vpath_snoc _ _ Hq) Ht) as [Htr _].
  pose proof (pi_npages _ _ _ Hinv) as Hnp.
  unfold walk_entry. wp_steps. apply kload_spec; [done..|].
  assert (Hsn : tbl (k_mem s) root (q ++ [i]) =
    if entry (k_mem s) t i =? 0 then None else Some (entry (k_mem s) t i / PGSIZE)).
  { rewrite tbl_snoc, Ht. done. }
  pose proof (entry_range (k_mem s) t i (pi_bytes _ _ _ Hinv)) as He.
  destruct (Z.eqb_spec (entry (k_mem s) t i) 0) as [E0|E0].
  - destruct create; cbn [negb andb]; wp_steps; [|by split_and!].
    eapply page_alloc_spec; [apply Hinv|done|]. destruct l as [|a l].
    + wp_steps. by split_and!.
    + wp_steps. unfold page_incref, upd_page_m. wp_steps.
      pose proof (walk_a_range _ _ _ _ Hinv) as Ha.
      apply kstore_spec; [done..|]. wp_steps.
      rewrite page2pa_ppn by lia.
      replace (Z.lor (a * PGSIZE) (Z.lor (Z.lor PTE_W PTE_U) PTE_P))
        with (a * PGSIZE + 7) by (rewrite lor_page_perm; [done|done]).
      assert (Hst : set_k_mem (st64 (k_mem (upd_page a (λ p, set_ref (u16 (pp_ref p + 1)) p)
                 (alloc_state ALLOC_ZERO a s))) (t * PGSIZE + 8 * i) (a * PGSIZE + 7))
              (upd_page a (λ p, set_ref (u16 (pp_ref p + 1)) p) (alloc_state ALLOC_ZERO a s))
              = walk_state a t i s).
      { unfold walk_state, ALLOC_ZERO. f_equal. unfold upd_page. f_equal. f_equal.
        f_equal. unfold alloc_state.
        match goal with |- context[page_at ?x a] => assert (pp_ref (page_at x a) = 0) as -> end.
        { change (pp_ref (page_at (upd_page a (set_link None)
            (set_page_free_list (pp_link (page_at s a)) s)) a) = 0).
          rewrite page_at_upd_eq. destruct Hinv as [_ _ [_ _ _ Hf] _ _].
          by inversion Hf. }
        done. }
      rewrite Hst. clear Hst.
      apply kload_spec; [done..|]. wp_steps.
      rewrite (walk_entries s root l a t i q) by done. rewrite decide_True by done.
      apply (tab_kva_spec _ a);
        [by eapply walk_new_entry|by apply div_page_perm|apply Ha|done|].
      wp_steps. split_and!; [done|done|done|]. exists l.
      split_and!; [done|by eapply walk_grow|].
      rewrite (walk_tbl s root l a t i q) by done. by rewrite decide_True.
  - cbn [andb]. wp_steps. apply kload_spec; [done..|]. wp_steps.
    pose proof (pi_range _ _ _ Hinv _ _ Hq Hsn) as [Hr _].
    apply (tab_kva_spec _ (entry (k_mem s) t i / PGSIZE)); [done|done|lia|done|].
    wp_steps. split; [done|]. by exists (entry (k_mem s) t i / PGSIZE).
Qed.

(** ** The walks *)

Lemma tab_kva_nonzero t : 0 ≤ t → tab_kva t =? 0 = false.
Proof. intros. apply Z.eqb_neq. unfold tab_kva, KERNBASE, PGSIZE. lia. Qed.

(** After a walk for slot [i] of the table at [p] made with [n] levels to go:
    the slot's address, or NULL when tables are missing and fewer than [n] pages
    are free (no create: when tables are missing). *)
Definition walk_post (root : Z) (p : list Z) (i : Z) (n : nat) (create : bool)
    (s : kst) (l : list Z) (r : option Z) (s' : kst) : Prop :=
  ∃ l', grow root s l s' l' ∧ (create = false → s' = s) ∧
    match r with
    | Some ptr => ∃ t, tbl (k_mem s') root p = Some t ∧ ptr = slot_kva t i
    | None => tbl (k_mem s) root p = None ∧ (create = true → (length l < n)%nat)
    end.

Lemma pgdir_walk_spec s root l q t va create :
  pt_inv s root l → vpath (q ++ [PDX va]) → tbl (k_mem s) root q = Some t →
  wp (pgdir_walk (tab_kva t) va create) s
     (walk_post root (q ++ [PDX va]) (PTX va) 1 create s l).
Proof.
  intros Hinv Hq Ht.
  pose proof (pi_range _ _ _ Hinv _ _ (vpath_snoc _ _ Hq) Ht) as [Htr _].
  unfold pgdir_walk. rewrite tab_kva_nonzero by lia. wp_steps.
  eapply wpx_conseq; [by eapply walk_entry_spec|].
  intros [[nx [a|]]|] s'; cbn [walk_entry_post]; wp_steps.
  - intros (-> & Hno & -> & l' & -> & Hg & Ha). wp_steps.
    exists l'. split_and!; [done|done|]. by exists a.
  - intros (-> & t' & Ht' & ->). wp_steps.
    exists l. split_and!; [by apply grow_refl|done|]. by exists t'.
  - intros (-> & Hno & Hl). wp_steps.
    exists l. split_and!; [by apply grow_refl|done|done|]. intros Hc. rewrite Hl by done.
    cbn. lia.
Qed.

Lemma pdpe_walk_spec s root l q t va create :
  pt_inv s root l → vpath (q ++ [PDPE va; PDX va]) → tbl (k_mem s) root q = Some t →
  wp (pdpe_walk (tab_kva t) va create) s
     (walk_post root (q ++ [PDPE va; PDX va]) (PTX va) 2 create s l).
Proof.
  intros Hinv Hq Ht.
  assert (Hq2 : vpath ((q ++ [PDPE va]) ++ [PDX va])) by (by rewrite <- app_assoc).
  pose proof (vpath_snoc _ _ Hq2) as Hq1.
  pose proof (pi_range _ _ _ Hinv _ _ (vpath_snoc _ _ Hq1) Ht) as [Htr _].
  replace (q ++ [PDPE va; PDX va]) with ((q ++ [PDPE va]) ++ [PDX va])
    by (by rewrite <- app_assoc).
  unfold pdpe_walk. rewrite tab_kva_nonzero by lia. wp_steps.
  eapply wpx_conseq; [by eapply walk_entry_spec|].
  intros [[nx [a|]]|] s'; cbn [walk_entry_post].
  - intros (-> & Hno & -> & l1 & -> & Hg & Ha). wp_steps.
    eapply wpx_conseq; [eapply pgdir_walk_spec; [apply Hg|done..]|].
    intros r s2 (l2 & Hg2 & Hc & Hr). destruct r; wp_steps.
    + exists l2. split_and!; [by eapply grow_trans|done|done].
    + exists l2. split_and!; [by eapply grow_trans|done| |].
      * rewrite tbl_snoc. by rewrite Hno.
      * intros _. destruct Hr as [_ Hr]. specialize (Hr eq_refl). cbn. lia.
  - intros (-> & t' & Ht' & ->). wp_steps.
    eapply wpx_conseq; [by eapply pgdir_walk_spec|].
    intros r s2 (l2 & Hg2 & Hc & Hr). destruct r; wp_steps.
    + exists l2. by split_and!.
    + exists l2. split_and!; [done|done|apply Hr|]. intros ?. destruct Hr as [_ Hr].
      specialize (Hr H). lia.
  - intros (-> & Hno & Hl). wp_steps.
    exists l. split_and!; [by apply grow_refl|done| |].
    + rewrite tbl_snoc. by rewrite Hno.
    + intros Hc. rewrite Hl by done. cbn. lia.
Qed.

(** pml4e_walk's clean-up: a top-level entry added for a walk that then failed is
    cleared again, and its page freed. *)
Section cleanup.
Context (s : kst) (root : Z) (l : list Z) (s2 : kst) (l2 : list Z) (i a : Z).
Hypothesis Hv : vpath [i].
Hypothesis Hnone : tbl (k_mem s) root [i] = None.
Hypothesis Hg : grow root s l s2 l2.
Hypothesis Ha : tbl (k_mem s2) root [i] = Some a.

Definition cleanup_state : kst :=
  let s3 := decref_state a l2 s2 in
  set_k_mem (st64 (k_mem s3) (root * PGSIZE + 8 * i) 0) s3.

Lemma cleanup_range : 0 ≤ i < 512.
Proof. destruct Hv as [Hf _]. by inversion Hf. Qed.

Lemma cleanup_page : a ∈ l ∧ a ∉ l2 ∧ page_at s2 a = mkPage None 1 ∧ 0 ≤ a < npages s2.
Proof.
  pose proof (gr_inv _ _ _ _ _ Hg) as Hinv2.
  destruct (pi_range _ _ _ Hinv2 _ _ Hv Ha) as [Hr Hl2].
  pose proof (gr_new _ _ _ _ _ Hg _ _ Hv Hnone Ha) as Hl.
  split_and!; try done; try lia. by apply (gr_used _ _ _ _ _ Hg).
Qed.

Lemma cleanup_mem_eq : k_mem cleanup_state = st64 (k_mem s2) (root * PGSIZE + 8 * i) 0.
Proof.
  unfold cleanup_state.
  change (k_mem (set_k_mem ?x _)) with x. by rewrite decref_state_mem.
Qed.

Lemma cleanup_entry t j :
  0 ≤ j < 512 → entry (k_mem cleanup_state) t j =
    if decide (t = root ∧ j = i) then 0 else entry (k_mem s2) t j.
Proof.
  intros Hj. pose proof cleanup_range. rewrite cleanup_mem_eq.
  by rewrite entry_st64.
Qed.

Lemma cleanup_tbl p :
  vpath p → tbl (k_mem cleanup_state) root p =
    if decide ([i] `prefix_of` p) then None else tbl (k_mem s2) root p.
Proof.
  intros Hp. pose proof (gr_inv _ _ _ _ _ Hg) as Hinv2. pose proof cleanup_range.
  assert (∀ p t' j, vpath p → tbl (k_mem s2) root p = Some t' → 0 ≤ j < 512 →
    entry (k_mem cleanup_state) t' j =
      if decide (t' = root ∧ j = i) then 0 else entry (k_mem s2) t' j)
    by eauto using cleanup_entry.
  case_decide as Hd.
  - eapply tbl_prefix_None; [exact Hd|].
    change [i] with ([] ++ [i] : list Z).
    by erewrite tbl_write_at; [|apply vpath_nil|..]; [|reflexivity|done|
      apply (pi_inj _ _ _ Hinv2)|done].
  - eapply (tbl_write_off (k_mem s2) _ root [] root i 0); [apply vpath_nil|reflexivity|
      apply (pi_inj _ _ _ Hinv2)|done|done|done].
Qed.

Lemma cleanup_grow : grow root s l cleanup_state (a :: l2).
Proof.
  destruct cleanup_page as (Hal & Hal2 & Hpg & Har).
  pose proof (gr_inv _ _ _ _ _ Hg) as Hinv2. pose proof cleanup_range as Hi.
  assert (Hpre : ∀ p t, tbl (k_mem s) root p = Some t → ¬ [i] `prefix_of` p).
  { intros p t Ht Hpre. by rewrite (tbl_prefix_None _ _ _ _ Hpre Hnone) in Ht. }
  assert (Haux : aux_same s2 cleanup_state) by (apply (decref_state_aux a l2 s2)).
  split.
  - split.
    + rewrite cleanup_mem_eq. apply bytes_ok_stn, Hinv2.
    + destruct Haux as [-> _]. apply Hinv2.
    + apply set_k_mem_free_list.
      pose proof (free_list_decref s2 a l2) as Hf. unfold decref_list in Hf.
      rewrite Hpg in Hf. apply Hf; [apply Hinv2|done|done|done].
    + intros p t Hp. rewrite cleanup_tbl by done. case_decide as Hd; [done|].
      intros Ht. destruct (pi_range _ _ _ Hinv2 _ _ Hp Ht).
      destruct Haux as [-> _]. split; [done|]. intros [->|?]%elem_of_cons; [|done].
      apply Hd. by rewrite (pi_inj _ _ _ Hinv2 _ _ _ Hp Hv Ht Ha).
    + intros p q t Hp Hq. rewrite !cleanup_tbl by done. repeat case_decide; try done.
      by apply Hinv2.
  - etrans; [apply Hg|exact Haux].
  - rewrite <- (gr_trace _ _ _ _ _ Hg). unfold cleanup_state, decref_state.
    case_match; [|done]. by destruct l2.
  - intros p [->|Hp]%elem_of_cons; [done|]. by apply Hg.
  - intros p Hp. rewrite <- (gr_pages _ _ _ _ _ Hg p Hp).
    apply (decref_state_page a l2 s2). congruence.
  - intros p Hp [Hpa Hp2]%not_elem_of_cons.
    rewrite <- (gr_used _ _ _ _ _ Hg p Hp Hp2).
    apply (decref_state_page a l2 s2). congruence.
  - intros p t Hp Ht. rewrite cleanup_tbl by done. rewrite decide_False by eauto.
    by apply Hg.
  - intros p t Hp Hno. rewrite cleanup_tbl by done. case_decide; [done|].
    by apply (gr_new _ _ _ _ _ Hg).
  - intros p j Hp Hlp Hj. rewrite <- (gr_leaf _ _ _ _ _ Hg) by done.
    unfold leaf. rewrite cleanup_tbl by done. case_decide as Hd.
    + pose proof (gr_leaf _ _ _ _ _ Hg p j Hp Hlp Hj) as Hlf. unfold leaf in Hlf.
      rewrite Hlf. by rewrite (tbl_prefix_None _ _ _ _ Hd Hnone).
    + destruct (tbl (k_mem s2) root p) as [t|] eqn:E; [|done].
      rewrite cleanup_entry by done. rewrite decide_False; [done|]. intros [-> _].
      by rewrite (pi_inj _ _ _ Hinv2 p [] root Hp vpath_nil E eq_refl) in Hlp.
  - intros b Hb Ht. rewrite <- (gr_mem _ _ _ _ _ Hg) by done.
    rewrite cleanup_mem_eq. apply ldb_stn_out.
    specialize (Ht [] vpath_nil). cbn in Ht.
    assert (root ≠ b / PGSIZE) by congruence. unfold PGSIZE in *. cbn. zlia.
  - intros Hpres%Hg p t j Hp Hlp Ht Hj. rewrite cleanup_tbl in Ht by done.
    case_decide; [done|]. rewrite cleanup_entry by done. case_decide; [done|]. by eauto.
Qed.
End cleanup.

(** Canonical lower-half addresses outside the self-map window. *)
Definition va_ok (va : Z) : Prop := 0 ≤ va < 2 ^ 48 ∧ PML4 va ≠ PML4 UVPT.

Lemma va_path_vpath va : va_ok va → vpath (va_path va).
Proof.
  intros [_ Hva]. split_and!; [|done|].
  - unfold va_path, PML4, PDPE, PDX. repeat constructor; apply land_511.
  - cbn. intros [=]. done.
Qed.

Lemma va_path_cut va : va_ok va → vpath [PML4 va].
Proof.
  intros Hv%va_path_vpath. change (va_path va) with (([PML4 va] ++ [PDPE va]) ++ [PDX va]) in Hv.
  by apply vpath_snoc, vpath_snoc in Hv.
Qed.

Lemma pml4e_walk_spec s root l va create :
  pt_inv s root l → va_ok va →
  wp (pml4e_walk (tab_kva root) va create) s
     (walk_post root (va_path va) (PTX va) 3 create s l).
Proof.
  intros Hinv Hva. pose proof (va_path_cut _ Hva) as Hv1.
  pose proof (va_path_vpath _ Hva) as Hv3.
  pose proof (pi_range _ _ _ Hinv [] root vpath_nil eq_refl) as [Hroot _].
  unfold pml4e_walk. rewrite tab_kva_nonzero by lia. wp_steps.
  eapply wpx_conseq; [by apply (walk_entry_spec s root l [] (PML4 va) root)|].
  change (va_path va) with ([PML4 va] ++ [PDPE va; PDX va]) in *.
  intros [[nx [a|]]|] s'; cbn [walk_entry_post app].
  - intros (-> & Hno & -> & l1 & -> & Hg & Ha). wp_steps.
    eapply wpx_conseq; [eapply pdpe_walk_spec; [apply Hg|done..]|].
    intros r s2 (l2 & Hg2 & Hc & Hr). destruct r; wp_steps.
    + exists l2. split_and!; [by eapply grow_trans|done|done].
    + pose proof (grow_trans _ _ _ _ _ _ _ Hg Hg2) as Hg3.
      assert (Ha2 : tbl (k_mem s2) root [PML4 va] = Some a).
      { rewrite <- (gr_tbl _ _ _ _ _ Hg2 [PML4 va] a); done. }
      destruct (cleanup_page s root (a :: l1) s2 l2 (PML4 va) a)
        as (_ & Hal2 & Hpg & Har); [done..|].
      apply (page_decref_spec s2 a l2);
        [apply Hg2|done|rewrite Hpg; cbn; lia|by rewrite Hpg|]. wp_steps.
      apply kstore_spec; [|by apply land_511|].
      { destruct (decref_state_aux a l2 s2) as [-> _].
        destruct (gr_aux _ _ _ _ _ Hg3) as [-> _]. done. }
      wp_steps. exists (a :: l2).
      split_and!; [by apply (cleanup_grow s root (a :: l1) s2 l2)|done| |].
      * eapply tbl_prefix_None; [|exact Hno]. by exists [PDPE va; PDX va].
      * intros _. destruct Hr as [_ Hr]. specialize (Hr eq_refl). cbn. lia.
  - intros (-> & t' & Ht' & ->). wp_steps.
    eapply wpx_conseq; [by eapply pdpe_walk_spec|].
    intros r s2 (l2 & Hg2 & Hc & Hr). destruct r; wp_steps; exists l2; split_and!; try done.
    + apply Hr.
    + intros Hcr. destruct Hr as [_ Hr]. specialize (Hr Hcr). lia.
  - intros (-> & Hno & Hl). wp_steps.
    exists l. split_and!; [by apply grow_refl|done| |].
    + eapply tbl_prefix_None; [|exact Hno]. by exists [PDPE va; PDX va].
    + intros Hc. rewrite Hl by done. cbn. lia.
Qed.

(** ** Slots and pages *)

(** The four indices of an address are the digits of its page number. *)
Lemma index_digit x k : 0 ≤ x < 2 ^ 48 → 0 ≤ k →
  Z.land (Z.shiftr (u64 x) k) 0x1FF = x / 2 ^ k mod 512.
Proof.
  intros Hx Hk. rewrite u64_id by (change (2 ^ 48) with 281474976710656 in *; lia).
  rewrite Z.shiftr_div_pow2 by done. change 0x1FF with (Z.ones 9). by rewrite Z.land_ones.
Qed.

Lemma va_slot_eq va va' : 0 ≤ va < 2 ^ 48 → 0 ≤ va' < 2 ^ 48 →
  (va_path va', PTX va') = (va_path va, PTX va) ↔ va' / PGSIZE = va / PGSIZE.
Proof.
  intros H H'. unfold va_path, PML4, PDPE, PDX, PTX, PML4SHIFT, PDPESHIFT, PDXSHIFT,
    PTXSHIFT, PGSIZE.
  rewrite !index_digit by done. change (2 ^ 48) with 281474976710656 in *.
  change (2 ^ 39) with (4096 * 512 * 512 * 512). change (2 ^ 30) with (4096 * 512 * 512).
  change (2 ^ 21) with (4096 * 512). change (2 ^ 12) with 4096.
  rewrite <- !Z.div_div by lia.
  assert (0 ≤ va / 4096 < 68719476736 ∧ 0 ≤ va' / 4096 < 68719476736) as [H1 H2] by zlia.
  generalize dependent (va / 4096). generalize dependent (va' / 4096). clear.
  intros x Hx y Hy. split; [intros [= E1 E2 E3 E4]|by intros ->]. zlia.
Qed.

Section slots.
Context (s : kst) (root : Z) (l : list Z).
Hypothesis Hinv : pt_inv s root l.

Lemma grow_pte s' l' va :
  grow root s l s' l' → va_ok va → pte (k_mem s') root va = pte (k_mem s) root va.
Proof.
  intros Hg Hva. apply (gr_leaf _ _ _ _ _ Hg); [by apply va_path_vpath|done|].
  apply land_511.
Qed.

Lemma pte_range va : 0 ≤ pte (k_mem s) root va < 2 ^ 64.
Proof.
  unfold pte, leaf. case_match; [|pow2; lia]. apply entry_range, Hinv.
Qed.

(** Storing an entry of a bottom table. *)
Context (va t v : Z).
Hypothesis Hva : va_ok va.
Hypothesis Ht : tbl (k_mem s) root (va_path va) = Some t.
Hypothesis Hv : 0 ≤ v < 2 ^ 64.

Definition leaf_state : kst := set_k_mem (st64 (k_mem s) (t * PGSIZE + 8 * PTX va) v) s.

Lemma leaf_entries p t' j :
  vpath p → tbl (k_mem s) root p = Some t' → 0 ≤ j < 512 →
  entry (k_mem leaf_state) t' j =
    if decide (t' = t ∧ j = PTX va) then v else entry (k_mem s) t' j.
Proof.
  intros Hp Ht' Hj. change (k_mem leaf_state) with
    (st64 (k_mem s) (t * PGSIZE + 8 * PTX va) v).
  apply entry_st64; [apply land_511|done|done].
Qed.

Lemma leaf_tbl p : vpath p → tbl (k_mem leaf_state) root p = tbl (k_mem s) root p.
Proof.
  intros Hp. eapply (tbl_write_leaf (k_mem s) _ root (va_path va) t (PTX va) v);
    eauto using leaf_entries, pi_inj, va_path_vpath.
Qed.

Lemma leaf_pt_inv : pt_inv leaf_state root l.
Proof.
  split; [by apply bytes_ok_stn, Hinv|apply Hinv|apply set_k_mem_free_list, Hinv|..].
  - intros p t' Hp. rewrite leaf_tbl by done. by apply Hinv.
  - intros p q t' Hp Hq. rewrite !leaf_tbl by done. by apply Hinv.
Qed.

Lemma leaf_pte va' :
  va_ok va' → pte (k_mem leaf_state) root va' =
    if decide (va' / PGSIZE = va / PGSIZE) then v else pte (k_mem s) root va'.
Proof.
  intros Hva'. pose proof (va_path_vpath _ Hva) as Hp.
  pose proof (va_path_vpath _ Hva') as Hp'. unfold pte.
  erewrite leaf_write; [|exact Hp|exact Ht|apply Hinv|exact leaf_entries|exact Hp'|
    done|apply land_511|by left].
  pose proof (va_slot_eq va va' (proj1 Hva) (proj1 Hva')) as Heq.
  destruct (decide (va' / PGSIZE = va / PGSIZE)) as [E|E].
  - rewrite decide_True; [done|]. apply Heq in E.
    split; [exact (f_equal fst E)|exact (f_equal snd E)].
  - rewrite decide_False; [done|]. intros [E1 E2]. apply E, Heq. by rewrite E1, E2.
Qed.

Lemma leaf_mem b : b / PGSIZE ≠ t → ldb (k_mem leaf_state) b = ldb (k_mem s) b.
Proof.
  clear Hinv Hva Ht Hv. intros Hb. apply ldb_stn_out. pose proof (land_511 (Z.shiftr (u64 va) PTXSHIFT)).
  unfold PTX, PGSIZE in *. zlia.
Qed.
End slots.
