(* ===== verification/Mapping.v ===== *)
(** * Mappings (kern/pmap.c: page_lookup, page_insert, page_remove, user_mem_check)

    The effect of the mapping operations on an address space that satisfies
    [pt_inv]: on the entries [pte] of every address, on the reference counts, on
    the free list, on the TLB and on the rest of memory. *)

From S2P Require Import Prelude Mem KState Printfmt Pmap PageAlloc PageTable.

Definition present (e : Z) : bool := truthy (Z.land e PTE_P).

(** A page that a user mapping may refer to: real, referenced, off the free
    list, and not one of the tree's own tables. *)
Record user_page (s : kst) (root : Z) (l : list Z) (pg : Z) : Prop := {
  up_range : 0 ≤ pg < npages s;
  up_free : pg ∉ l;
  up_ref : 1 ≤ pp_ref (page_at s pg) < 2 ^ 16;
  up_link : pp_link (page_at s pg) = None;
  up_table : ∀ p, vpath p → tbl (k_mem s) root p ≠ Some pg
}.

(** What tlb_invalidate does: flush when this is the current address space, or
    there is none. *)
Definition flushes (s : kst) (pml4e : Z) : bool :=
  match curenv s with
  | None => true
  | Some e => env_pml4e (env_at s e) =? pml4e
  end.
Definition flush (pml4e va : Z) (s : kst) : kst :=
  if flushes s pml4e then emit (Invlpg va) s else s.

(** Every address reads as before, but those of [va]'s page, which read [v]. *)
Definition pte_set (root va v : Z) (s s' : kst) : Prop :=
  ∀ va', va_ok va' → pte (k_mem s') root va' =
    if decide (va' / PGSIZE = va / PGSIZE) then v else pte (k_mem s) root va'.

(** Memory outside the tree's tables and the free pages is untouched. *)
Definition data_same (root : Z) (l : list Z) (s s' : kst) : Prop :=
  ∀ b, b / PGSIZE ∉ l → (∀ p, vpath p → tbl (k_mem s) root p ≠ Some (b / PGSIZE)) →
       ldb (k_mem s') b = ldb (k_mem s) b.

Lemma aux_flushes s s' pml4e : aux_same s s' → flushes s' pml4e = flushes s pml4e.
Proof.
  intros (_ & He & Hc & Hn & _). unfold flushes, curenv, cpu_at, env_at.
  by rewrite Hc, Hn, He.
Qed.

Lemma aux_flush pml4e va s : aux_same s (flush pml4e va s).
Proof. unfold flush. case_match; by split_and!. Qed.

Lemma flush_mem pml4e va s : k_mem (flush pml4e va s) = k_mem s.
Proof. unfold flush. by case_match. Qed.

Lemma flush_pages pml4e va s p : page_at (flush pml4e va s) p = page_at s p.
Proof. unfold flush. by case_match. Qed.

Lemma tlb_invalidate_spec pml4e va s Q E :
  pml4e ≠ 0 → Q tt (flush pml4e va s) → wpx (tlb_invalidate pml4e va) s Q E.
Proof.
  intros Hp HQ. unfold tlb_invalidate, assert_. rewrite (proj2 (Z.eqb_neq _ _)) by done.
  cbn [negb]. wp_steps. unfold flush, flushes in HQ.
  destruct (curenv s); [destruct (_ =? _)|]; cbn [when]; by wp_steps.
Qed.

(** The invariant survives changes outside memory and the free list. *)
Lemma pt_inv_ext root s s' l :
  k_mem s' = k_mem s → pages s' = pages s → page_free_list s' = page_free_list s →
  npages s' = npages s → pt_inv s root l → pt_inv s' root l.
Proof.
  intros Hm Hp Hf Hn []. split; rewrite ?Hm, ?Hn; try done.
  by eapply free_list_ext.
Qed.

Lemma pt_inv_flush root s l pml4e va : pt_inv s root l → pt_inv (flush pml4e va s) root l.
Proof. apply pt_inv_ext; unfold flush; by case_match. Qed.

Lemma pt_inv_decref root s l pg :
  pt_inv s root l → user_page s root l pg →
  pt_inv (decref_state pg l s) root (decref_list s pg l).
Proof.
  intros Hinv [Hr Hf _ Hl Ht]. pose proof (decref_state_aux pg l s) as [Hn _].
  split; rewrite ?decref_state_mem, ?Hn; [apply Hinv..| | |].
  - apply free_list_decref; [apply Hinv|done..].
  - intros p t Hp Htp. destruct (pi_range _ _ _ Hinv _ _ Hp Htp). split; [done|].
    unfold decref_list. case_match; [|done].
    intros [->|?]%elem_of_cons; [by apply (Ht p)|done].
  - apply Hinv.
Qed.

Lemma user_page_grow root s l s' l' pg :
  grow root s l s' l' → user_page s root l pg → user_page s' root l' pg.
Proof.
  intros Hg []. destruct (gr_aux _ _ _ _ _ Hg) as [Hn _].
  pose proof (gr_pages _ _ _ _ _ Hg pg up_free0) as Hpg.
  split; rewrite ?Hpg, ?Hn; try done.
  - intros H%Hg. done.
  - intros p Hp Ht. destruct (tbl (k_mem s) root p) as [t|] eqn:E.
    + pose proof (gr_tbl _ _ _ _ _ Hg _ _ Hp E). simplify_eq. by apply (up_table0 p).
    + by apply (gr_new _ _ _ _ _ Hg) in Ht.
Qed.

Lemma tab_kva_neq0 s root l : pt_inv s root l → tab_kva root ≠ 0.
Proof.
  intros Hinv. destruct (pi_range _ _ _ Hinv [] root vpath_nil eq_refl) as [? _].
  apply Z.eqb_neq, tab_kva_nonzero. lia.
Qed.

Lemma pte_missing m root va : tbl m root (va_path va) = None → pte m root va = 0.
Proof. unfold pte, leaf. by intros ->. Qed.

Lemma pte_table m root va t :
  tbl m root (va_path va) = Some t → pte m root va = entry m t (PTX va).
Proof. unfold pte, leaf. by intros ->. Qed.

Lemma pa2page_spec s e Q E :
  0 ≤ e < 2 ^ 64 → e / PGSIZE < npages s → Q (e / PGSIZE) s → wpx (pa2page e) s Q E.
Proof.
  intros He Hn HQ. unfold pa2page. wp_steps. rewrite PPN_div by done.
  rewrite (proj2 (Z.leb_gt _ _)) by done. by wp_steps.
Qed.

(** ** page_lookup *)

Definition lookup_post (root va : Z) (s : kst) (l : list Z)
    (r : option (Z * Z)) (s' : kst) : Prop :=
  ∃ l', grow root s l s' l' ∧
    match r with
    | Some (pg, ptr) =>
        present (pte (k_mem s) root va) = true ∧
        pg = pte (k_mem s) root va / PGSIZE ∧
        ∃ t, tbl (k_mem s') root (va_path va) = Some t ∧ ptr = slot_kva t (PTX va)
    | None => present (pte (k_mem s) root va) = false
    end.

Lemma page_lookup_spec s root l va :
  pt_inv s root l → va_ok va →
  (present (pte (k_mem s) root va) = true → pte (k_mem s) root va / PGSIZE < npages s) →
  wp (page_lookup (tab_kva root) va) s (lookup_post root va s l).
Proof.
  intros Hinv Hva Hpres. unfold page_lookup.
  rewrite (proj2 (Z.eqb_neq _ _)) by (by eapply tab_kva_neq0). wp_steps.
  eapply wpx_conseq; [by apply pml4e_walk_spec|].
  intros [ptr|] s' (l' & Hg & _ & Hr); wp_steps.
  - destruct Hr as (t & Ht & ->).
    pose proof (gr_inv _ _ _ _ _ Hg) as Hinv'.
    destruct (pi_range _ _ _ Hinv' _ _ (va_path_vpath _ Hva) Ht) as [Htr _].
    apply kload_spec; [done|apply land_511|].
    rewrite <- (pte_table _ root) by done. rewrite (grow_pte s root l) with (s' := s') (l' := l') by done.
    fold (present (pte (k_mem s) root va)).
    destruct (present (pte (k_mem s) root va)) eqn:E; wp_steps.
    + apply pa2page_spec.
      * by eapply pte_range.
      * destruct (gr_aux _ _ _ _ _ Hg) as [-> _]. auto.
      * wp_steps. exists l'. split; [done|]. split_and!; [done|done|by exists t].
    + by exists l'.
  - exists l'. split; [done|]. destruct Hr as [Hr _]. by rewrite (pte_missing _ _ _ Hr).
Qed.

(** ** page_remove *)

(** The reference counts after one mapping of [old] goes and one of [new] comes. *)
Definition refs_moved (l : list Z) (old new : option Z) (s s' : kst) : Prop :=
  ∀ p, p ∉ l → pp_ref (page_at s' p) = pp_ref (page_at s p)
    - (if decide (old = Some p) then 1 else 0) + (if decide (new = Some p) then 1 else 0).

(** The mapping operations' common conclusion: the invariant holds with a free
    list that gained at most the page [old], when that was its last reference. *)
Record remapped (root va v : Z) (old new : option Z) (s : kst) (l : list Z) (s' : kst)
    : Prop := {
  rm_inv : ∃ l', pt_inv s' root l' ∧
    ∀ p, p ∈ l' → p ∈ l ∨ (old = Some p ∧ pp_ref (page_at s p) = 1);
  rm_pte : pte_set root va v s s';
  rm_tbl : ∀ p t, vpath p → tbl (k_mem s) root p = Some t → tbl (k_mem s') root p = Some t;
  rm_new : ∀ p t, vpath p → tbl (k_mem s) root p = None →
    tbl (k_mem s') root p = Some t → t ∈ l;
  rm_refs : refs_moved l old new s s';
  rm_link : ∀ p, p ∉ l → old ≠ Some p → pp_link (page_at s' p) = pp_link (page_at s p);
  rm_aux : aux_same s s';
  rm_data : data_same root l s s';
  rm_trace : ∃ k, trace s' = trace s ++ k ∧
    (old ≠ None → flushes s (tab_kva root) = true → Invlpg va ∈ k)
}.

Definition old_page (s : kst) (root va : Z) : option Z :=
  let e := pte (k_mem s) root va in if present e then Some (e / PGSIZE) else None.

Lemma pte_same_page m root va va' :
  va_ok va → va_ok va' → va' / PGSIZE = va / PGSIZE → pte m root va' = pte m root va.
Proof.
  intros [Hv _] [Hv' _] E. apply va_slot_eq in E as [= E1 E2 E3 E4]; [|done..].
  unfold pte, va_path. by rewrite E1, E2, E3, E4.
Qed.

Section remapped.
Context (root va : Z) (l : list Z).
Hypothesis Hva : va_ok va.
Implicit Types (s : kst) (v : Z).

Lemma remapped_refl s :
  pt_inv s root l → remapped root va (pte (k_mem s) root va) None None s l s.
Proof.
  intros Hinv. split; try done.
  - exists l. split; [done|]. by left.
  - intros va' Hva'. case_decide; [by apply pte_same_page|done].
  - congruence.
  - intros p _. rewrite !decide_False by done. lia.
  - exists []. by rewrite app_nil_r.
Qed.

Lemma remapped_grow s s1 l1 s' v old new :
  pt_inv s root l → grow root s l s1 l1 →
  remapped root va v old new s1 l1 s' → remapped root va v old new s l s'.
Proof.
  intros Hinv Hg [(l' & Hi' & Hl') Hp Ht Hnew Hr Hlk Ha Hd (k & Hk & Hf)].
  pose proof (gr_sub _ _ _ _ _ Hg) as Hsub. split.
  - exists l'. split; [done|]. intros p Hp'. destruct (decide (p ∈ l)); [by left|].
    rewrite <- (gr_pages _ _ _ _ _ Hg p) by done.
    destruct (Hl' _ Hp'); [by left; apply Hsub|by right].
  - intros va' Hva'. rewrite Hp by done.
    by rewrite (grow_pte s root l s1 l1 va') by done.
  - intros p t Hvp Hpt. apply Ht; [done|]. by apply Hg.
  - intros p t Hvp Hno Hpt. destruct (tbl (k_mem s1) root p) as [t1|] eqn:E.
    + pose proof (Ht _ _ Hvp E). simplify_eq. by apply (gr_new _ _ _ _ _ Hg p t).
    + apply Hsub. by apply (Hnew p).
  - intros p Hp'. rewrite Hr by auto. by rewrite (gr_pages _ _ _ _ _ Hg).
  - intros p Hp' Ho. rewrite Hlk by auto. by rewrite (gr_pages _ _ _ _ _ Hg).
  - etrans; [apply Hg|exact Ha].
  - intros b Hb Hn. rewrite Hd; [by apply (gr_mem _ _ _ _ _ Hg)|auto|]. intros p Hvp Hpt.
    destruct (tbl (k_mem s) root p) as [t|] eqn:E.
    + pose proof (gr_tbl _ _ _ _ _ Hg _ _ Hvp E). simplify_eq. by apply (Hn p).
    + by eapply Hb, (gr_new _ _ _ _ _ Hg).
  - exists k. rewrite Hk, (gr_trace _ _ _ _ _ Hg). split; [done|].
    by rewrite <- (aux_flushes s s1) by apply Hg.
Qed.

Lemma remapped_flush s s' v old new :
  remapped root va v old new s l s' →
  remapped root va v old new s l (flush (tab_kva root) va s').
Proof.
  intros [(l' & Hi' & Hl') Hp Ht Hnew Hr Hlk Ha Hd (k & Hk & Hf)]. split.
  - exists l'. split; [by apply pt_inv_flush|done].
  - intros va' Hva'. rewrite flush_mem. auto.
  - intros p t. rewrite flush_mem. auto.
  - intros p t. rewrite flush_mem. eauto.
  - intros p. rewrite flush_pages. auto.
  - intros p. rewrite flush_pages. auto.
  - etrans; [exact Ha|apply aux_flush].
  - intros b. rewrite flush_mem. auto.
  - unfold flush. case_match; [|by exists k].
    exists (k ++ [Invlpg va]). cbn. rewrite Hk, app_assoc. split; [done|].
    intros. rewrite elem_of_app. left. auto.
Qed.

Lemma remapped_again s s' v pp :
  remapped root va v None None s l s' →
  remapped root va v (Some pp) (Some pp) s l (flush (tab_kva root) va s').
Proof.
  intros H. pose proof (remapped_flush _ _ _ _ _ H) as [(l' & Hi' & Hl') Hp Ht Hnew Hr Hlk Ha Hd _].
  split; try done.
  - exists l'. split; [done|]. intros p Hp'%Hl'. destruct Hp' as [?|[? _]]; [by left|done].
  - intros p Hpl. rewrite Hr by done. rewrite !(decide_False (P := None = Some p)) by done.
    case_decide; lia.
  - intros p Hpl _. by apply Hlk.
  - destruct H as [_ _ _ _ _ _ Ha0 _ (k & Hk & _)]. unfold flush.
    rewrite (aux_flushes s s') by done. case_match.
    + exists (k ++ [Invlpg va]). cbn. rewrite Hk, app_assoc. split; [done|].
      intros. rewrite elem_of_app. right. by constructor.
    + by exists k.
Qed.

Lemma remapped_leaf s s' t v w old new :
  tbl (k_mem s) root (va_path va) = Some t → 0 ≤ w < 2 ^ 64 →
  remapped root va v old new s l s' →
  remapped root va w old new s l (leaf_state s' va t w).
Proof.
  intros Ht0 Hw [(l' & Hi' & Hl') Hp Ht Hnew Hr Hlk Ha Hd (k & Hk & Hf)].
  pose proof (Ht _ _ (va_path_vpath _ Hva) Ht0) as Ht'. split.
  - exists l'. split; [by apply leaf_pt_inv|done].
  - intros va' Hva'. rewrite (leaf_pte s' root l') by done. rewrite Hp by done.
    by case_decide.
  - intros p t' Hvp Hpt. rewrite (leaf_tbl s' root l') by done. auto.
  - intros p t' Hvp Hno. rewrite (leaf_tbl s' root l') by done. eauto.
  - exact Hr.
  - exact Hlk.
  - etrans; [exact Ha|by split_and!].
  - intros b Hb Hn. rewrite leaf_mem; [auto|]. intros E. apply (Hn (va_path va));
      [by apply va_path_vpath|]. by rewrite E.
  - by exists k.
Qed.

Lemma remapped_incref s s' pp v old :
  pp ∉ l → old ≠ Some pp → remapped root va v old None s l s' →
  0 ≤ pp_ref (page_at s pp) → pp_ref (page_at s pp) + 1 < 2 ^ 16 →
  remapped root va v old (Some pp) s l
    (upd_page pp (λ p, set_ref (u16 (pp_ref p + 1)) p) s').
Proof.
  intros Hpp Hold [(l' & Hi' & Hl') Hp Ht Hnew Hr Hlk Ha Hd Hk] H0 H1. split; try done.
  - exists l'. split; [|done]. destruct Hi' as [Hb Hn Hfl Hrg Hij]. split; try done.
    apply free_list_upd_out; [|done]. intros [?|[? _]]%Hl'; congruence.
  - intros p Hpl. rewrite page_at_upd. destruct (decide (pp = p)) as [->|Hne].
    + cbn. rewrite Hr by done. rewrite (decide_False (P := old = Some p)) by done.
      rewrite (decide_False (P := None = Some p)) by done.
      rewrite decide_True by done. rewrite u16_id by (pow2; lia). lia.
    + rewrite Hr by done. rewrite (decide_False (P := Some pp = Some p)) by congruence.
      by rewrite (decide_False (P := None = Some p)) by done.
  - intros p Hpl Ho. rewrite page_at_upd. case_decide; [subst; cbn|]; auto.
Qed.

Lemma remapped_decref s pg :
  pt_inv s root l → user_page s root l pg →
  remapped root va (pte (k_mem s) root va) (Some pg) None s l
    (decref_state pg l (flush (tab_kva root) va s)).
Proof.
  intros Hinv Hup. set (s2 := flush (tab_kva root) va s).
  assert (Hinv2 : pt_inv s2 root l) by (by apply pt_inv_flush).
  assert (Hup2 : user_page s2 root l pg).
  { destruct Hup. pose proof (aux_flush (tab_kva root) va s) as [Hn _].
    split; unfold s2; rewrite ?flush_mem, ?flush_pages, ?Hn; done. }
  assert (Hm : k_mem (decref_state pg l s2) = k_mem s).
  { rewrite decref_state_mem. apply flush_mem. }
  split.
  - exists (decref_list s2 pg l). split; [by apply pt_inv_decref|].
    unfold decref_list. intros p. rewrite <- (flush_pages (tab_kva root) va s).
    fold s2. destruct (Z.eqb_spec (pp_ref (page_at s2 pg)) 1); [|by left].
    intros [->|?]%elem_of_cons; [by right|by left].
  - intros va' Hva'. rewrite Hm. case_decide; [by apply pte_same_page|done].
  - by rewrite Hm.
  - rewrite Hm. congruence.
  - intros p Hp. rewrite (decide_False (P := None = Some p)) by done.
    rewrite <- (flush_pages (tab_kva root) va s p). fold s2.
    destruct (decide (Some pg = Some p)) as [[= <-]|Hne].
    + rewrite decref_state_ref. lia.
    + rewrite decref_state_page by congruence. lia.
  - intros p Hp Ho. rewrite <- (flush_pages (tab_kva root) va s p). fold s2.
    by rewrite decref_state_page by congruence.
  - etrans; [apply (aux_flush (tab_kva root) va)|apply decref_state_aux].
  - intros b _ _. by rewrite Hm.
  - assert (trace (decref_state pg l s2) = trace s2) as ->.
    { unfold decref_state. case_match; [|done]. by destruct l. }
    unfold s2, flush. destruct (flushes s (tab_kva root)).
    + exists [Invlpg va]. split; [done|]. intros. by constructor.
    + exists []. by rewrite app_nil_r.
Qed.
End remapped.

Section remove.
Context (s : kst) (root va : Z) (l : list Z).
Hypothesis Hinv : pt_inv s root l.
Hypothesis Hva : va_ok va.
Hypothesis Hold : ∀ pg, old_page s root va = Some pg → user_page s root l pg.

Lemma old_page_bound :
  present (pte (k_mem s) root va) = true → pte (k_mem s) root va / PGSIZE < npages s.
Proof.
  intros Hp. unfold old_page in Hold. rewrite Hp in Hold.
  destruct (Hold _ eq_refl) as [? _]. lia.
Qed.

(** Both branches: what is not present stays as it is. *)
Lemma page_remove_spec :
  wp (page_remove (tab_kva root) va) s (λ _ s',
    remapped root va
      (if present (pte (k_mem s) root va) then 0 else pte (k_mem s) root va)
      (old_page s root va) None s l s').
Proof.
  unfold page_remove. pose proof (tab_kva_neq0 _ _ _ Hinv) as Hn0.
  rewrite (proj2 (Z.eqb_neq _ _)) by done. wp_steps.
  eapply wpx_conseq; [apply page_lookup_spec; [done..|exact old_page_bound]|].
  intros [[pg ptr]|] s1 (l1 & Hg & Hr); wp_steps.
  - destruct Hr as (Hp & -> & t & Ht & ->). unfold old_page in *. rewrite Hp in *.
    set (pg := pte (k_mem s) root va / PGSIZE) in *.
    pose proof (Hold _ eq_refl) as Hup.
    pose proof (user_page_grow _ _ _ _ _ _ Hg Hup) as Hup1.
    pose proof (gr_inv _ _ _ _ _ Hg) as Hinv1.
    apply tlb_invalidate_spec; [done|]. wp_steps.
    pose proof (remapped_decref root va l1 Hva s1 pg Hinv1 Hup1) as Hrm.
    set (s2 := flush (tab_kva root) va s1) in *.
    assert (Hup2 : user_page s2 root l1 pg).
    { destruct Hup1. pose proof (aux_flush (tab_kva root) va s1) as [Hn _].
      split; unfold s2; rewrite ?flush_mem, ?flush_pages, ?Hn; done. }
    assert (Hfl2 : free_list s2 l1).
    { eapply pi_free. by apply pt_inv_flush. }
    apply (page_decref_spec s2 pg l1); try apply Hup2; [exact Hfl2|].
    set (s3 := decref_state pg l1 s2) in *.
    destruct (rm_inv _ _ _ _ _ _ _ _ Hrm) as (l3 & Hinv3 & _).
    pose proof (rm_tbl _ _ _ _ _ _ _ _ Hrm _ _ (va_path_vpath _ Hva) Ht) as Ht3.
    destruct (pi_range _ _ _ Hinv3 _ _ (va_path_vpath _ Hva) Ht3) as [Htr _].
    apply kstore_spec; [done|apply land_511|].
    fold (leaf_state s3 va t 0). eapply remapped_grow; [done..|].
    eapply remapped_leaf; [done|done|pow2; lia|exact Hrm].
  - unfold old_page. rewrite Hr. eapply remapped_grow; [done..|].
    rewrite <- (grow_pte s root l s1 l1 va) by done.
    apply remapped_refl; [done|apply Hg].
Qed.
End remove.

(** ** page_insert *)

Section insert.
Context (s : kst) (root va pp perm : Z) (l : list Z).
Hypothesis Hinv : pt_inv s root l.
Hypothesis Hva : va_ok va.
Hypothesis Hold : ∀ pg, old_page s root va = Some pg → user_page s root l pg.
Hypothesis Hpp : 0 ≤ pp < npages s.
Hypothesis Hppl : pp ∉ l.
Hypothesis Hppr : 0 ≤ pp_ref (page_at s pp) < 2 ^ 16 - 1.
Hypothesis Hperm : 0 ≤ perm < 4096.

Definition new_pte : Z := pp * PGSIZE + Z.lor perm PTE_P.

Lemma new_pte_lor : Z.lor (page2pa pp) (Z.lor perm PTE_P) = new_pte.
Proof.
  rewrite page2pa_ppn by (pose proof (pi_npages _ _ _ Hinv); lia).
  apply lor_page_perm. apply (lor_range _ _ 12); done.
Qed.

Lemma new_pte_range : 0 ≤ new_pte < 2 ^ 64.
Proof.
  pose proof (lor_range perm PTE_P 12 ltac:(done) Hperm ltac:(done)).
  pose proof (pi_npages _ _ _ Hinv). unfold new_pte, PGSIZE. pow2. lia.
Qed.

Lemma page_insert_spec :
  wp (page_insert (tab_kva root) (Some pp) va perm) s (λ r s',
    (r = - E_NO_MEM ∧ (length l < 3)%nat ∧ ∃ l', grow root s l s' l') ∨
    (r = 0 ∧ remapped root va new_pte (old_page s root va) (Some pp) s l s')).
Proof.
  unfold page_insert. pose proof (tab_kva_neq0 _ _ _ Hinv) as Hn0.
  rewrite (proj2 (Z.eqb_neq _ _)) by done. wp_steps.
  eapply wpx_conseq; [by apply pml4e_walk_spec|].
  intros [ptr|] s1 (l1 & Hg & _ & Hr); wp_steps; [|left; destruct Hr as [_ Hr]; eauto].
  destruct Hr as (t & Ht & ->). pose proof (gr_inv _ _ _ _ _ Hg) as Hinv1.
  destruct (pi_range _ _ _ Hinv1 _ _ (va_path_vpath _ Hva) Ht) as [Htr _].
  pose proof (pte_range s1 root l1 Hinv1 va) as He.
  apply kload_spec; [done|apply land_511|].
  rewrite <- (pte_table _ root) by done. rewrite new_pte_lor.
  pose proof (grow_pte s root l s1 l1 va Hg Hva) as Hpte. rewrite Hpte in He.
  rewrite Hpte. fold (present (pte (k_mem s) root va)).
  pose proof new_pte_range as Hnew.
  assert (Hpp1 : page_at s1 pp = page_at s pp) by (by apply Hg).
  pose proof (remapped_refl root va l1 Hva s1 Hinv1) as H1.
  destruct (present (pte (k_mem s) root va)) eqn:E.
  - pose proof (old_page_bound s root va l Hold E) as Hb.
    unfold old_page in *. rewrite E in *. set (old := pte (k_mem s) root va / PGSIZE) in *.
    assert (Hod : PTE_ADDR (pte (k_mem s) root va) / PGSIZE = old)
      by (rewrite PTE_ADDR_div by done; apply Z.div_mul; done).
    wp_steps. apply pa2page_spec.
    { rewrite PTE_ADDR_div by done. unfold PGSIZE. zlia. }
    { rewrite Hod. destruct (gr_aux _ _ _ _ _ Hg) as [-> _]. done. }
    rewrite Hod. wp_steps. cbn [andb]. destruct (Z.eqb_spec old pp) as [Eo|Eo]; wp_steps.
    + apply kstore_spec; [done|apply land_511|]. wp_steps.
      apply tlb_invalidate_spec; [done|]. wp_steps. right. split; [done|].
      replace (Some old) with (Some pp) by congruence.
      fold (leaf_state s1 va t new_pte). eapply remapped_grow; [done..|].
      apply remapped_again. eapply remapped_leaf; [done|done|done|exact H1].
    + cbn [when]. wp_steps. eapply wpx_conseq.
      { apply (page_remove_spec s1 root va l1 Hinv1 Hva). unfold old_page.
        rewrite Hpte, E. intros pg [= <-]. eapply user_page_grow; [done|auto]. }
      intros [] s2. unfold old_page. rewrite Hpte, E. intros H2.
      wp_steps. apply tlb_invalidate_spec; [done|]. wp_steps.
      apply remapped_flush in H2.
      destruct (rm_inv _ _ _ _ _ _ _ _ H2) as (l3 & Hinv3 & _).
      pose proof (rm_tbl _ _ _ _ _ _ _ _ H2 _ _ (va_path_vpath _ Hva) Ht) as Ht3.
      destruct (pi_range _ _ _ Hinv3 _ _ (va_path_vpath _ Hva) Ht3) as [Htr3 _].
      apply kstore_spec; [done|apply land_511|].
      wp_steps. unfold page_incref, upd_page_m. wp_steps. right. split; [done|].
      eapply remapped_grow; [done..|].
      apply remapped_incref; [by intros ?%Hg|fold old; congruence| |rewrite Hpp1; lia..].
      by eapply (remapped_leaf root va l1 Hva s1 _ t).
  - unfold old_page. rewrite E. wp_steps. cbn [andb when]. wp_steps.
    apply kstore_spec; [done|apply land_511|].
    wp_steps. unfold page_incref, upd_page_m. wp_steps. right. split; [done|].
    eapply remapped_grow; [done..|].
    apply remapped_incref; [by intros ?%Hg|done| |rewrite Hpp1; lia..].
    by eapply (remapped_leaf root va l1 Hva s1 _ t).
Qed.
End insert.

(** ** user_mem_check *)

(** The check user_mem_check makes of one page. *)
Definition page_ok (s : kst) (root perm va : Z) : bool :=
  (va <? ULIM) && present (pte (k_mem s) root va) &&
  truthy (Z.land (pte (k_mem s) root va) perm).

(** Every present user entry names a real page. *)
Definition ptes_real (s : kst) (root : Z) : Prop :=
  ∀ va, va_ok va → present (pte (k_mem s) root va) = true →
        pte (k_mem s) root va / PGSIZE < npages s.

Lemma va_ok_user va : 0 ≤ va < ULIM → va_ok va.
Proof.
  intros H. assert (ULIM < 2 ^ 40) by done.
  assert (2 ^ 40 < 2 ^ 48) by done. split; [lia|].
  unfold PML4. rewrite index_digit by (unfold PML4SHIFT; lia).
  change (Z.land (Z.shiftr (u64 UVPT) PML4SHIFT) 0x1FF) with 2.
  assert (va / 2 ^ PML4SHIFT < 2).
  { apply Z.div_lt_upper_bound; [done|]. change (2 ^ PML4SHIFT * 2) with (2 ^ 40). lia. }
  assert (0 ≤ va / 2 ^ PML4SHIFT) by (apply Z.div_pos; [lia|done]).
  rewrite Z.mod_small; lia.
Qed.

Section user_mem.
Context (root perm : Z).

(** The loop's view of the state does not change. *)
Definition same_view (s s' : kst) : Prop :=
  npages s' = npages s ∧
  ∀ va, va_ok va → pte (k_mem s') root va = pte (k_mem s) root va.

Lemma page_ok_view s s' va :
  same_view s s' → 0 ≤ va → page_ok s' root perm va = page_ok s root perm va.
Proof.
  intros [_ Hv] H0. unfold page_ok. destruct (Z.ltb_spec va ULIM); [|done].
  by rewrite Hv by (apply va_ok_user; lia).
Qed.

Lemma grow_view s l s' l' : pt_inv s root l → grow root s l s' l' → same_view s s'.
Proof.
  intros Hinv Hg. split; [by destruct (gr_aux _ _ _ _ _ Hg)|].
  intros va Hva. by eapply grow_pte.
Qed.

Lemma ptes_real_view s s' : same_view s s' → ptes_real s root → ptes_real s' root.
Proof. intros [Hn Hv] H va Hva. rewrite Hv, Hn by done. auto. Qed.

Lemma user_page_ok_spec s l va :
  pt_inv s root l → ptes_real s root → 0 ≤ va →
  wp (user_page_ok (tab_kva root) va perm) s (λ b s',
    b = page_ok s root perm va ∧ ∃ l', grow root s l s' l').
Proof.
  intros Hinv Hreal H0. unfold user_page_ok, page_ok.
  destruct (Z.leb_spec ULIM va), (Z.ltb_spec va ULIM); try lia; wp_steps.
  { split; [done|]. exists l. by apply grow_refl. }
  assert (Hva : va_ok va) by (apply va_ok_user; lia).
  eapply wpx_conseq; [apply page_lookup_spec; [done..|by apply Hreal]|].
  intros [[pg ptr]|] s' (l' & Hg & Hr); wp_steps.
  - destruct Hr as (Hp & -> & t & Ht & ->). rewrite Hp.
    pose proof (gr_inv _ _ _ _ _ Hg) as Hinv'.
    destruct (pi_range _ _ _ Hinv' _ _ (va_path_vpath _ Hva) Ht) as [Htr _].
    pose proof (land_511 (Z.shiftr (u64 va) PTXSHIFT)).
    rewrite (proj2 (Z.eqb_neq _ _))
      by (unfold slot_kva, tab_kva, PGSIZE, KERNBASE, PTX in *; lia).
    wp_steps. apply kload_spec; [done|apply land_511|]. wp_steps.
    rewrite <- (pte_table _ root) by done.
    rewrite (grow_pte s root l s' l') by done. eauto.
  - rewrite Hr. eauto.
Qed.

(** The result over the pages [vaT, vaT + PGSIZE, ..] below [vaE]. *)
Definition check_post (s : kst) (va vaT vaE : Z) (r : Z) (s' : kst) : Prop :=
  (r = 0 ∧ ∀ k, 0 ≤ k → vaT + k * PGSIZE < vaE →
     page_ok s root perm (vaT + k * PGSIZE) = true) ∨
  (r = - E_FAULT ∧ ∃ k, 0 ≤ k ∧ vaT + k * PGSIZE < vaE ∧
     page_ok s root perm (vaT + k * PGSIZE) = false ∧
     (∀ j, 0 ≤ j < k → page_ok s root perm (vaT + j * PGSIZE) = true) ∧
     user_mem_check_addr s' = Z.max va (vaT + k * PGSIZE)).

Lemma user_mem_loop_spec n s l va vaT vaE :
  pt_inv s root l → ptes_real s root → 0 ≤ vaT →
  vaT mod PGSIZE = 0 → (1 ≤ n)%nat ∨ vaT ≤ ULIM →
  Z.min vaE (ULIM + PGSIZE) - vaT ≤ Z.of_nat n * PGSIZE →
  wp (user_mem_loop n (tab_kva root) va vaT vaE perm) s (λ r s',
    check_post s va vaT vaE r s' ∧ same_view s s' ∧
    ∃ l', pt_inv s' root l' ∧ (r = 0 → grow root s l s' l')).
Proof.
  revert s l vaT. induction n as [|n IH]; intros s l vaT Hinv Hreal H0 Hal Hn Hf;
    cbn [user_mem_loop]; wp_steps.
  - rewrite (proj2 (Z.ltb_ge vaT vaE)) by (unfold PGSIZE in *; lia). wp_steps.
    split_and!; [|done|eauto using grow_refl]. left. split; [done|].
    unfold PGSIZE in *. intros. lia.
  - destruct (Z.ltb_spec vaT vaE) as [Hlt|Hge]; wp_steps.
    2:{ split_and!; [|done|eauto using grow_refl]. left. split; [done|].
        unfold PGSIZE in *. intros. lia. }
    eapply wpx_conseq; [by apply user_page_ok_spec|].
    intros ok s1 (-> & l1 & Hg). pose proof (grow_view _ _ _ _ Hinv Hg) as Hv.
    pose proof (gr_inv _ _ _ _ _ Hg) as Hinv1.
    destruct (page_ok s root perm vaT) eqn:Hok; cbn [negb]; wp_steps.
    + assert (vaT < ULIM).
      { unfold page_ok in Hok. destruct (Z.ltb_spec vaT ULIM); done. }
      assert (ULIM < 2 ^ 40) by done. assert (ULIM mod PGSIZE = 0) by done.
      assert (u64 (vaT + PGSIZE) = vaT + PGSIZE) as ->.
      { apply u64_id. unfold PGSIZE in *. change (2 ^ 40) with 1099511627776 in *. lia. }
      eapply wpx_conseq.
      { apply (IH s1 l1); [done|by eapply ptes_real_view|unfold PGSIZE in *; lia| |
          right|]; unfold PGSIZE in *; zlia. }
      intros r s2 (Hp & [Hn2 Hv2] & l2 & Hl2 & Hg2).
      split_and!; [|split|exists l2; split; [done|by intros; eapply grow_trans; auto]].
      * assert (Hok1 : ∀ j, 0 ≤ j → page_ok s1 root perm (vaT + PGSIZE + j * PGSIZE) =
                  page_ok s root perm (vaT + (j + 1) * PGSIZE)).
        { intros j Hj. replace (vaT + PGSIZE + j * PGSIZE) with (vaT + (j + 1) * PGSIZE) by lia.
          apply page_ok_view; [done|]. unfold PGSIZE. lia. }
        destruct Hp as [[-> Hall]|(-> & k & Hk & Hk2 & Hbad & Hall & Haddr)].
        -- left. split; [done|]. intros k Hk Hk2. destruct (decide (k = 0)) as [->|].
           { by rewrite Z.mul_0_l, Z.add_0_r. }
           replace k with (k - 1 + 1) by lia. rewrite <- Hok1 by lia. apply Hall; lia.
        -- right. split; [done|]. exists (k + 1). rewrite <- Hok1 by done.
           split_and!; [lia|lia|done| |rewrite Haddr; f_equal; lia].
           intros j Hj. destruct (decide (j = 0)) as [->|].
           { by rewrite Z.mul_0_l, Z.add_0_r. }
           replace j with (j - 1 + 1) by lia. rewrite <- Hok1 by lia. apply Hall; lia.
      * destruct Hv. congruence.
      * intros va' Hva'. rewrite Hv2 by done. by apply Hv.
    + split_and!; [|by destruct Hv|exists l1; split; [by eapply pt_inv_ext; [..|exact Hinv1]|done]].
      right. split; [done|]. exists 0. rewrite Z.mul_0_l, Z.add_0_r.
      split_and!; [done|done|done|lia|]. cbn. destruct (Z.ltb_spec vaT va); lia.
Qed.
End user_mem.

(** The bounds of the loop. *)
Definition check_lo (va : Z) : Z := va - va mod PGSIZE.
Definition check_hi (va len : Z) : Z := ROUNDUP (u64 (check_lo va + len)) PGSIZE.

Lemma user_mem_check_spec s e root l va len perm :
  pt_inv s root l → ptes_real s root → env_pml4e (env_at s e) = tab_kva root →
  0 ≤ va < 2 ^ 64 →
  wp (user_mem_check e va len perm) s (λ r s',
    check_post root perm s va (check_lo va) (check_hi va len) r s' ∧
    same_view root s s' ∧ ∃ l', pt_inv s' root l' ∧ (r = 0 → grow root s l s' l')).
Proof.
  intros Hinv Hreal He Hva. unfold user_mem_check. wp_steps. rewrite He.
  assert (ROUNDDOWN va PGSIZE = check_lo va) as ->.
  { unfold ROUNDDOWN, check_lo. by rewrite u64_id by (pow2; lia). }
  fold (check_hi va len).
  eapply user_mem_loop_spec; [done|done|unfold check_lo, PGSIZE; zlia|
    unfold check_lo, PGSIZE; zlia|left; lia|].
  rewrite Z2Nat.id by lia. unfold check_lo, check_hi, ROUNDUP, ROUNDDOWN, PGSIZE.
  set (x := u64 (u64 (u64 (va - va mod 4096 + len) + 4096 - 1))).
  change ULIM with 549818728448. zlia.
Qed.

(** ** Properties *)

(** pml4e_walk keeps the page-table invariant and every translation.  With
    [create], it returns the kernel address of the entry for [va], adding tables
    from the free list as needed, and fails only when fewer than three pages are
    free; without, it changes nothing and fails exactly when a table is missing.
    A walk that fails has undone its top-level entry. *)
Theorem pml4e_walk_correct s root l va create :
  pt_inv s root l → va_ok va →
  wp (pml4e_walk (tab_kva root) va create) s (λ r s', ∃ l',
    pt_inv s' root l' ∧ (∀ p, p ∈ l' → p ∈ l) ∧
    (∀ va', va_ok va' → pte (k_mem s') root va' = pte (k_mem s) root va') ∧
    (∀ p, p ∉ l → page_at s' p = page_at s p) ∧ data_same root l s s' ∧
    match r with
    | Some ptr => ∃ t, tbl (k_mem s') root (va_path va) = Some t ∧
        ptr = KERNBASE + t * PGSIZE + 8 * PTX va
    | None => tbl (k_mem s) root (va_path va) = None ∧ (create = true → (length l < 3)%nat)
    end ∧
    (create = false → s' = s ∧
       (r = None ↔ tbl (k_mem s) root (va_path va) = None))).
Proof.
  intros Hinv Hva. eapply wpx_conseq; [by apply pml4e_walk_spec|].
  intros r s' (l' & Hg & Hc & Hr). exists l'.
  split_and!; [apply Hg|apply Hg|by intros; eapply grow_pte|apply Hg|
    exact (gr_mem _ _ _ _ _ Hg)| |].
  - destruct r; [|done]. destruct Hr as (t & ? & ->). exists t. split; [done|].
    unfold slot_kva, tab_kva. lia.
  - intros Hcf. specialize (Hc Hcf) as ->. split; [done|]. destruct r.
    + destruct Hr as (t & Ht & _). by rewrite Ht.
    + by destruct Hr.
Qed.

(** C8. page_insert of a page that is not on the free list, with room in its 16-bit
    reference count, over a user page or none: it either reports E_NO_MEM, with fewer
    than three pages free, every translation as before and the reference count of
    every page that was not free as before (free pages that became tables on the way
    are not given back), or maps [pp]: [va]'s page now reads [page2pa(pp) | perm | PTE_P], every other address reads as before, [pp]
    has gained one reference and the page mapped before has lost one (being freed
    with the last), the stale translation was flushed from the TLB, and no byte
    outside the page tables and the free pages changed.  Re-inserting the page
    already mapped there changes only its permissions. *)
Theorem page_insert_correct s root l va pp perm :
  pt_inv s root l → va_ok va →
  (∀ pg, old_page s root va = Some pg → user_page s root l pg) →
  0 ≤ pp < npages s → pp ∉ l → 0 ≤ pp_ref (page_at s pp) < 2 ^ 16 - 1 →
  0 ≤ perm < 4096 →
  wp (page_insert (tab_kva root) (Some pp) va perm) s (λ r s',
    (r = - E_NO_MEM ∧ (length l < 3)%nat ∧ (∃ l', pt_inv s' root l') ∧
     (∀ va', va_ok va' → pte (k_mem s') root va' = pte (k_mem s) root va') ∧
     ∀ p, p ∉ l → page_at s' p = page_at s p) ∨
    (r = 0 ∧ remapped root va (pp * PGSIZE + Z.lor perm PTE_P)
               (old_page s root va) (Some pp) s l s')).
Proof.
  intros Hinv Hva Hold Hpp Hl Href Hperm.
  eapply wpx_conseq; [by apply page_insert_spec|].
  intros r s' [(-> & Hl3 & l' & Hg)|H]; [left|by right].
  split_and!; [done|done|exists l'; apply Hg|by intros; eapply grow_pte|apply Hg].
Qed.

(** Mapping a page where nothing was mapped and removing it again restores
    every translation and every reference count. *)
Theorem page_insert_remove s root l va pp perm :
  pt_inv s root l → va_ok va → pte (k_mem s) root va = 0 → (3 ≤ length l)%nat →
  (∀ p, vpath p → tbl (k_mem s) root p ≠ Some pp) →
  0 ≤ pp < npages s → pp ∉ l → 1 ≤ pp_ref (page_at s pp) < 2 ^ 16 - 1 →
  pp_link (page_at s pp) = None → 0 ≤ perm < 4096 →
  wp (r ← page_insert (tab_kva root) (Some pp) va perm;
      page_remove (tab_kva root) va;; mret r) s (λ r s',
    r = 0 ∧ (∃ l', pt_inv s' root l') ∧
    (∀ va', va_ok va' → pte (k_mem s') root va' = pte (k_mem s) root va') ∧
    (∀ p, p ∉ l → pp_ref (page_at s' p) = pp_ref (page_at s p)) ∧
    data_same root l s s').
Proof.
  intros Hinv Hva H0 Hl3 Htbl Hpp Hl Href Hlink Hperm.
  assert (Hno : old_page s root va = None) by (unfold old_page; by rewrite H0).
  wp_steps. eapply wpx_conseq.
  { apply (page_insert_spec s root va pp perm l); try done; [by rewrite Hno|lia]. }
  intros r s1 [(_ & ? & _)|(-> & Hrm)]; [lia|]. rewrite Hno in Hrm. wp_steps.
  destruct Hrm as [(l1 & Hinv1 & Hl1) Hp1 Ht1 Hn1 Hr1 Hk1 Ha1 Hd1 _].
  assert (Hsub : ∀ p, p ∈ l1 → p ∈ l) by (intros p Hp; destruct (Hl1 _ Hp); naive_solver).
  assert (Hpte1 : pte (k_mem s1) root va = new_pte pp perm).
  { rewrite Hp1 by done. by rewrite decide_True. }
  pose proof (lor_range perm PTE_P 12 ltac:(done) Hperm ltac:(done)) as Hlr.
  assert (Hpres : present (pte (k_mem s1) root va) = true).
  { rewrite Hpte1. unfold present, new_pte. rewrite land_page_perm by done.
    rewrite Z.land_lor_distr_l. change (Z.land PTE_P PTE_P) with 1.
    change PTE_P with (Z.ones 1). rewrite Z.land_ones by done. change (2 ^ 1) with 2.
    by assert (perm mod 2 = 0 ∨ perm mod 2 = 1) as [-> | ->] by zlia. }
  assert (Hold1 : old_page s1 root va = Some pp).
  { unfold old_page. rewrite Hpres, Hpte1. f_equal. by apply div_page_perm. }
  assert (Hup : user_page s1 root l1 pp).
  { split; [by destruct Ha1 as [-> _]|by intros ?%Hsub| |by rewrite Hk1|].
    - rewrite Hr1 by done. rewrite (decide_False (P := None = Some pp)) by done.
      rewrite decide_True by done. lia.
    - intros p Hp Ht. destruct (tbl (k_mem s) root p) as [t|] eqn:E.
      + pose proof (Ht1 _ _ Hp E). simplify_eq. by apply (Htbl p).
      + by apply Hl, (Hn1 p). }
  eapply wpx_conseq.
  { apply (page_remove_spec s1 root va l1 Hinv1 Hva). rewrite Hold1. by intros pg [= <-]. }
  intros [] s2. rewrite Hpres, Hold1. intros [(l2 & Hinv2 & Hl2) Hp2 Ht2 Hn2 Hr2 _ _ Hd2 _].
  wp_steps. split_and!; [done|by exists l2| | |].
  - intros va' Hva'. rewrite Hp2, Hp1 by done.
    case_decide; [|done]. by rewrite (pte_same_page _ _ va).
  - intros p Hp. rewrite Hr2, Hr1 by auto. lia.
  - intros b Hb Hn. rewrite Hd2; [by apply Hd1|auto|].
    intros p Hp Ht. destruct (tbl (k_mem s) root p) as [t|] eqn:E.
    + pose proof (Ht1 _ _ Hp E). simplify_eq. by apply (Hn p).
    + by apply Hb, (Hn1 p).
Qed.

(** A user access to byte [b] with [perm] is allowed. *)
Definition byte_ok (s : kst) (root perm b : Z) : Prop :=
  page_ok s root perm (check_lo b) = true.

Lemma ROUNDUP_page x : 0 ≤ x → x + PGSIZE ≤ 2 ^ 64 →
  ROUNDUP x PGSIZE = (x + PGSIZE - 1) / PGSIZE * PGSIZE.
Proof.
  intros H0 H. unfold ROUNDUP, ROUNDDOWN. unfold PGSIZE in *. pow2.
  rewrite (u64_id x) by lia. rewrite !(u64_id (x + 4096 - 1)) by lia. zlia.
Qed.

(** C16. user_mem_check decides access to a range exactly, when the range does
    not wrap and the pages it walks cover it ([va + len <= check_hi va len], which
    holds for every page-aligned [va]): it returns 0 when every byte of
    [va, va + len) is below ULIM, present and has a permission bit of [perm], and
    otherwise -E_FAULT with user_mem_check_addr the first byte that is not.
    Translations are unchanged, though the lookups may allocate tables. *)
Theorem user_mem_check_correct s e root l va len perm :
  pt_inv s root l → ptes_real s root → env_pml4e (env_at s e) = tab_kva root →
  0 ≤ va → 0 ≤ len → va + len + PGSIZE ≤ 2 ^ 64 → va + len ≤ check_hi va len →
  wp (user_mem_check e va len perm) s (λ r s',
    ((r = 0 ∧ ∀ b, va ≤ b < va + len → byte_ok s root perm b) ∨
     (r = - E_FAULT ∧ ∃ b, va ≤ b < va + len ∧ user_mem_check_addr s' = b ∧
        ¬ byte_ok s root perm b ∧ ∀ b', va ≤ b' < b → byte_ok s root perm b')) ∧
    same_view root s s').
Proof.
  intros Hinv Hreal He H0 H1 H2 Hcov.
  eapply wpx_conseq; [eapply user_mem_check_spec; [done..|pow2; unfold PGSIZE in *; lia]|].
  intros r s' (Hp & Hv & _). split; [|done].
  assert (Hhi : check_hi va len = (check_lo va + len + PGSIZE - 1) / PGSIZE * PGSIZE).
  { unfold check_hi, check_lo in *. unfold PGSIZE in *.
    rewrite u64_id by (pow2; zlia). apply ROUNDUP_page; unfold PGSIZE; zlia. }
  unfold check_lo in *. unfold PGSIZE in *. set (lo := va - va mod 4096) in *.
  assert (Hpage : ∀ b, va ≤ b → 0 ≤ (b - lo) / 4096 ∧
            b - b mod 4096 = lo + (b - lo) / 4096 * 4096) by (intros; subst lo; split; zlia).
  destruct Hp as [[-> Hall]|(-> & k & Hk & Hk2 & Hbad & Hall & Haddr)]; unfold byte_ok, check_lo, PGSIZE in *.
  - left. split; [done|]. intros b Hb. destruct (Hpage b) as [Hb0 Hbe]; [lia|].
    rewrite Hbe. apply Hall; [done|]. subst lo. zlia.
  - right. split; [done|]. exists (Z.max va (lo + k * 4096)).
    assert (Hmod : lo mod 4096 = 0) by (subst lo; zlia).
    assert (Hle : lo ≤ va < lo + 4096) by (subst lo; zlia).
    split_and!; [zlia|zlia|done| |].
    + replace (Z.max va (lo + k * 4096) - Z.max va (lo + k * 4096) mod 4096)
        with (lo + k * 4096) by zlia. by rewrite Hbad.
    + intros b Hb. destruct (Hpage b) as [Hb0 Hbe]; [lia|]. rewrite Hbe.
      apply Hall. split; [done|]. zlia.
Qed.

(** Outside those hypotheses the check is too weak.  The end of the range is
    computed from [va] rounded down: of a range of at most a page, only the page
    of [va] is checked, even when the range runs into the next one.  And the end
    wraps: with [ROUNDDOWN(va) + len = 2^64] no page is checked at all. *)
Theorem user_mem_check_gaps s e root l va len perm :
  pt_inv s root l → ptes_real s root → env_pml4e (env_at s e) = tab_kva root →
  0 ≤ va < ULIM →
  (1 ≤ len ≤ PGSIZE ∧ page_ok s root perm (check_lo va) = true) ∨
    check_lo va + len = 2 ^ 64 →
  wp (user_mem_check e va len perm) s (λ r _, r = 0).
Proof.
  intros Hinv Hreal He Hva Hcase.
  assert (ULIM + 8192 ≤ 2 ^ 64) by done.
  eapply wpx_conseq; [eapply user_mem_check_spec; [done..|lia]|].
  assert (Hlo : 0 ≤ check_lo va ≤ va ∧ check_lo va mod 4096 = 0)
    by (unfold check_lo, PGSIZE; zlia).
  intros r s' (Hp & _). destruct Hp as [[-> _]|(_ & k & Hk & Hk2 & Hbad & _)]; [done|exfalso].
  destruct Hcase as [[Hlen Hok]|Hw]; unfold check_hi in Hk2.
  - unfold PGSIZE in *. rewrite u64_id in Hk2 by (pow2; lia).
    rewrite ROUNDUP_page in Hk2 by (unfold PGSIZE; pow2; lia). unfold PGSIZE in *.
    assert (k = 0) as -> by zlia. rewrite Z.mul_0_l, Z.add_0_r in Hbad. congruence.
  - rewrite Hw in Hk2. change (ROUNDUP (u64 (2 ^ 64)) PGSIZE) with 0 in Hk2.
    unfold PGSIZE in *. lia.
Qed.

(** ** Instances *)

Lemma ex_tbl root p t : tbl ∅ root p = Some t → p = [] ∧ t = root.
Proof.
  destruct p as [|i p]; cbn; [by intros [= ->]|].
  assert (entry ∅ root i = 0) as ->; [|done].
  apply ldn_zero. intros. unfold ldb. by rewrite !getd_empty.
Qed.

Lemma ex_pt_inv : pt_inv ex_kst 1 [2; 3; 4; 5; 6].
Proof.
  split; [exact ex_bytes|by vm_compute|exact ex_free_list|..].
  - intros p t _ [_ ->]%ex_tbl. split; [by vm_compute|set_solver].
  - by intros p q t _ _ [-> _]%ex_tbl [-> _]%ex_tbl.
Qed.

Lemma ex_pte va : pte (k_mem ex_kst) 1 va = 0.
Proof.
  unfold pte, leaf. destruct (tbl (k_mem ex_kst) 1 (va_path va)) eqn:E; [|done].
  by apply ex_tbl in E as [? _].
Qed.

Lemma ex_old va : old_page ex_kst 1 va = None.
Proof. unfold old_page. by rewrite ex_pte. Qed.

Lemma ex_ptes_real : ptes_real ex_kst 1.
Proof. intros va _. by rewrite ex_pte. Qed.

Lemma ex_va : va_ok 0x800000.
Proof. split; vm_compute; [split; congruence|congruence]. Qed.

Lemma pml4e_walk_correct_witness :
  wp (pml4e_walk (tab_kva 1) 0x800000 true) ex_kst (λ r s', r ≠ None ∧
    ∃ l', pt_inv s' 1 l').
Proof.
  eapply wpx_conseq; [exact (pml4e_walk_correct ex_kst 1 _ 0x800000 true ex_pt_inv ex_va)|].
  intros r s' (l' & Hinv & _ & _ & _ & _ & Hr & _). split; [|by exists l'].
  destruct r; [congruence|]. destruct Hr as [_ Hr]. specialize (Hr eq_refl). cbn in Hr. lia.
Defined.

Lemma page_insert_correct_witness :
  wp (page_insert (tab_kva 1) (Some 9) 0x800000 (Z.lor PTE_U PTE_W)) ex_kst (λ r s',
    r = 0 ∧ pte (k_mem s') 1 0x800123 = 0x9007 ∧ pp_ref (page_at s' 9) = 1).
Proof.
  eapply wpx_conseq.
  { apply (page_insert_correct ex_kst 1 [2; 3; 4; 5; 6] 0x800000 9 (Z.lor PTE_U PTE_W)
      ex_pt_inv ex_va); [by rewrite ex_old|by vm_compute|set_solver|by vm_compute..]. }
  intros r s' [(_ & Hl & _)|(-> & Hrm)]; [cbn in Hl; lia|].
  split_and!; [done| |].
  - rewrite (rm_pte _ _ _ _ _ _ _ _ Hrm);
      [reflexivity|split; vm_compute; [split; congruence|congruence]].
  - rewrite (rm_refs _ _ _ _ _ _ _ _ Hrm) by set_solver. rewrite ex_old. reflexivity.
Defined.

Lemma page_insert_remove_witness :
  wp (r ← page_insert (tab_kva 1) (Some 8) 0x800000 PTE_U;
      page_remove (tab_kva 1) 0x800000;; mret r) ex_kst (λ r s',
    r = 0 ∧ pp_ref (page_at s' 8) = 1).
Proof.
  eapply wpx_conseq.
  { apply (page_insert_remove ex_kst 1 [2; 3; 4; 5; 6] 0x800000 8 PTE_U
      ex_pt_inv ex_va (ex_pte _)); [cbn; lia| |by vm_compute|set_solver|by vm_compute..].
    intros p _ [_ ?]%ex_tbl. done. }
  intros r s' (-> & _ & _ & Href & _). split; [done|]. by rewrite Href by set_solver.
Defined.

Lemma user_mem_check_correct_witness :
  wp (user_mem_check 0 0x800000 0x2000 PTE_U) ex_kst (λ r s',
    r = - E_FAULT ∧ user_mem_check_addr s' = 0x800000).
Proof.
  assert (Hno : ∀ b, ¬ byte_ok ex_kst 1 PTE_U b).
  { intros b. unfold byte_ok, page_ok. rewrite ex_pte, andb_false_r. done. }
  eapply wpx_conseq.
  { apply (user_mem_check_correct ex_kst 0 1 _ 0x800000 0x2000 PTE_U
      ex_pt_inv ex_ptes_real); [reflexivity|by vm_compute..]. }
  intros r s' [[(-> & Hall)|(-> & b & Hb & Ha & Hbad & Hall)] _].
  - exfalso. apply (Hno 0x800000), Hall. lia.
  - split; [done|]. rewrite Ha. destruct (decide (b = 0x800000)) as [|Hne]; [done|].
    exfalso. apply (Hno 0x800000), Hall. lia.
Defined.

(** Nothing is mapped, and the check of [4096, 2^64) passes. *)
Lemma user_mem_check_gaps_witness :
  wp (user_mem_check 0 4096 (2 ^ 64 - 4096) PTE_U) ex_kst (λ r _, r = 0).
Proof.
  apply (user_mem_check_gaps ex_kst 0 1 _ 4096 (2 ^ 64 - 4096) PTE_U
    ex_pt_inv ex_ptes_real); [reflexivity|by vm_compute|right; reflexivity].
Defined.
