(* ===== verification/Spinlock.v ===== *)
(** * The big kernel lock (kern/spinlock.c, kern/spinlock.h)

    Two views of the same code.  [spin_lock] and [spin_unlock] act on
    [kernel_lock] within one kernel path, where the lock is taken at one go.
    [step] is the interleaving semantics: every CPU runs the two routines one
    memory access at a time ([holding] reads [locked], then [cpu]; [xchg] is one
    atomic access), in any order, and may call them when it should not. *)

From S2P Require Import Prelude Mem KState.

(** ** One kernel path *)

Definition holding : K bool :=
  gets (λ s, truthy (locked (kernel_lock s)) &&
             bool_decide (lk_cpu (kernel_lock s) = Some (cpunum s))).

(** The wait for another CPU to release the lock leaves as [Spinning]. *)
Definition spin_lock : K unit :=
  h ← holding;
  if (h : bool) then panic
  else
    s ← get;
    if negb (locked (kernel_lock s) =? 0) then leave Spinning
    else modify (set_kernel_lock (mkLock 1 (Some (cpunum s)))).

Definition spin_unlock : K unit :=
  h ← holding;
  if negb h then panic else modify (set_kernel_lock (mkLock 0 None)).

Definition spin_initlock : K unit := modify (set_kernel_lock (mkLock 0 None)).
Definition lock_kernel : K unit := spin_lock.
Definition unlock_kernel : K unit := spin_unlock.

Lemma spin_unlock_spec s (Q : unit → kst → Prop) E :
  kernel_lock s = mkLock 1 (Some (cpunum s)) →
  Q tt (set_kernel_lock (mkLock 0 None) s) → wpx unlock_kernel s Q E.
Proof.
  intros Hl HQ. unfold unlock_kernel, spin_unlock, holding. wp_steps.
  rewrite Hl. cbn [truthy locked lk_cpu]. rewrite bool_decide_true by done. cbn [andb negb].
  by wp_steps.
Qed.

(** ** All CPUs *)

(** Where a CPU is; the flag says whether it held the lock when it called. *)
Inductive pc : Type :=
  | Out                    (* outside, lock not held *)
  | LockRead (h : bool)    (* spin_lock, about to read lk->locked *)
  | LockReadCpu (h : bool) (* ... about to read lk->cpu *)
  | LockXchg               (* ... about to xchg(&lk->locked, 1) *)
  | LockSetCpu             (* ... got the lock, about to store lk->cpu *)
  | Crit                   (* outside, lock held *)
  | UnlRead (h : bool)     (* spin_unlock, about to read lk->locked *)
  | UnlReadCpu (h : bool)  (* ... about to read lk->cpu *)
  | UnlClearCpu            (* ... about to clear lk->cpu *)
  | UnlXchg                (* ... about to xchg(&lk->locked, 0) *)
  | Panicked (h : bool).   (* one of the two panics *)

Record sys : Type := mkSys { lk : spinlock; at_ : Z → pc }.

Definition goto (c : Z) (p : pc) (f : Z → pc) : Z → pc :=
  λ d, if decide (d = c) then p else f d.

(** One access by CPU [c]. *)
Inductive step (c : Z) : sys → sys → Prop :=
  | call_lock l f : f c = Out → step c (mkSys l f) (mkSys l (goto c (LockRead false) f))
  | call_lock_held l f : f c = Crit → step c (mkSys l f) (mkSys l (goto c (LockRead true) f))
  | call_unlock l f : f c = Crit → step c (mkSys l f) (mkSys l (goto c (UnlRead true) f))
  | call_unlock_out l f : f c = Out → step c (mkSys l f) (mkSys l (goto c (UnlRead false) f))
  | lock_read l f h : f c = LockRead h →
      step c (mkSys l f)
        (mkSys l (goto c (if locked l =? 0 then LockXchg else LockReadCpu h) f))
  | lock_read_cpu l f h : f c = LockReadCpu h →
      step c (mkSys l f)
        (mkSys l (goto c (if decide (lk_cpu l = Some c) then Panicked h else LockXchg) f))
  | lock_xchg l f : f c = LockXchg →
      step c (mkSys l f)
        (mkSys (mkLock 1 (lk_cpu l))
               (goto c (if locked l =? 0 then LockSetCpu else LockXchg) f))
  | lock_set_cpu l f : f c = LockSetCpu →
      step c (mkSys l f) (mkSys (mkLock (locked l) (Some c)) (goto c Crit f))
  | unl_read l f h : f c = UnlRead h →
      step c (mkSys l f)
        (mkSys l (goto c (if locked l =? 0 then Panicked h else UnlReadCpu h) f))
  | unl_read_cpu l f h : f c = UnlReadCpu h →
      step c (mkSys l f)
        (mkSys l (goto c (if decide (lk_cpu l = Some c) then UnlClearCpu else Panicked h) f))
  | unl_clear_cpu l f : f c = UnlClearCpu →
      step c (mkSys l f) (mkSys (mkLock (locked l) None) (goto c UnlXchg f))
  | unl_xchg l f : f c = UnlXchg →
      step c (mkSys l f) (mkSys (mkLock 0 (lk_cpu l)) (goto c Out f)).

Definition sys0 : sys := mkSys (mkLock 0 None) (λ _, Out).

Inductive reachable : sys → Prop :=
  | reach_init : reachable sys0
  | reach_step c x y : reachable x → step c x y → reachable y.

(** The CPU has the lock: from its successful xchg to its releasing one (a CPU
    that panics holding it keeps it). *)
Definition owns (p : pc) : bool :=
  match p with
  | LockSetCpu | Crit | UnlClearCpu | UnlXchg => true
  | LockRead h | LockReadCpu h | UnlRead h | UnlReadCpu h | Panicked h => h
  | Out | LockXchg => false
  end.

(** Its identity is in [lk->cpu]. *)
Definition recorded (p : pc) : bool :=
  match p with
  | Crit | UnlClearCpu => true
  | LockRead h | LockReadCpu h | UnlRead h | UnlReadCpu h | Panicked h => h
  | _ => false
  end.

Record lock_inv (x : sys) : Prop := {
  li_mutex : ∀ c d, owns (at_ x c) = true → owns (at_ x d) = true → c = d;
  li_locked : ∀ c, owns (at_ x c) = true → locked (lk x) = 1;
  li_free : locked (lk x) = 0 ∨ (locked (lk x) = 1 ∧ ∃ c, owns (at_ x c) = true);
  li_cpu : ∀ c, lk_cpu (lk x) = Some c ↔ recorded (at_ x c) = true
}.

Lemma goto_eq c p f : goto c p f c = p.
Proof. unfold goto. by rewrite decide_True. Qed.

Lemma goto_ne c p f d : d ≠ c → goto c p f d = f d.
Proof. intros. unfold goto. by rewrite decide_False. Qed.

Lemma recorded_owns p : recorded p = true → owns p = true.
Proof. by destruct p. Qed.

(** A step that leaves the lock alone and does not change who owns it. *)
Lemma inv_local c p l f :
  lock_inv (mkSys l f) → owns p = owns (f c) → recorded p = recorded (f c) →
  lock_inv (mkSys l (goto c p f)).
Proof.
  intros [Hm Hl Hf Hc] Ho Hr. cbn in *.
  assert (Hown : ∀ d, owns (goto c p f d) = owns (f d)).
  { intros d. destruct (decide (d = c)) as [->|]; [by rewrite goto_eq|by rewrite goto_ne]. }
  assert (Hrec : ∀ d, recorded (goto c p f d) = recorded (f d)).
  { intros d. destruct (decide (d = c)) as [->|]; [by rewrite goto_eq|by rewrite goto_ne]. }
  split; cbn.
  - intros c' d. rewrite !Hown. apply Hm.
  - intros c'. rewrite Hown. apply Hl.
  - destruct Hf as [?|[? [d ?]]]; [by left|right]. split; [done|]. exists d. by rewrite Hown.
  - intros d. by rewrite Hrec.
Qed.

(** The owner moves to another owning state and stores its [lk->cpu]. *)
Lemma inv_owner c p l f cpu :
  lock_inv (mkSys l f) → owns (f c) = true → owns p = true →
  cpu = (if recorded p then Some c else None) →
  lock_inv (mkSys (mkLock (locked l) cpu) (goto c p f)).
Proof.
  intros [Hm Hl Hf Hc] Ho Hp ->. cbn in *.
  assert (Hown : ∀ d, owns (goto c p f d) = owns (f d)).
  { intros d. destruct (decide (d = c)) as [->|]; [rewrite goto_eq; congruence|by rewrite goto_ne]. }
  split; cbn.
  - intros c' d. rewrite !Hown. apply Hm.
  - intros c'. rewrite Hown. apply Hl.
  - destruct Hf as [?|[? [d ?]]]; [by left|right]. split; [done|]. exists d. by rewrite Hown.
  - intros d. destruct (decide (d = c)) as [->|Hd].
    + rewrite goto_eq. by destruct (recorded p).
    + rewrite goto_ne by done. split; [by destruct (recorded p); intros [=]|].
      intros Hr%recorded_owns. destruct Hd. by apply Hm.
Qed.

(** With no owner, [lk->cpu] is clear and nobody is recorded. *)
Lemma inv_free_cpu l f d : lock_inv (mkSys l f) → locked l = 0 → recorded (f d) = false.
Proof.
  intros [_ Hl _ _] H0. destruct (recorded (f d)) eqn:E; [|done].
  apply recorded_owns, Hl in E. cbn in E. lia.
Qed.

Lemma inv_acquire c l f :
  lock_inv (mkSys l f) → f c = LockXchg → locked l = 0 →
  lock_inv (mkSys (mkLock 1 (lk_cpu l)) (goto c LockSetCpu f)).
Proof.
  intros Hinv E H0. pose proof Hinv as [Hm Hl Hf Hc]. cbn in *.
  assert (Hno : ∀ d, owns (f d) = false).
  { intros d. destruct (owns (f d)) eqn:Ed; [|done]. apply Hl in Ed. lia. }
  assert (Hown : ∀ d, owns (goto c LockSetCpu f d) = true → d = c).
  { intros d. destruct (decide (d = c)); [done|]. rewrite goto_ne by done. by rewrite Hno. }
  split; cbn.
  - intros c' d ->%Hown ->%Hown. done.
  - done.
  - right. split; [done|]. exists c. by rewrite goto_eq.
  - intros d. rewrite Hc. destruct (decide (d = c)) as [->|]; [|by rewrite goto_ne].
    by rewrite goto_eq, E.
Qed.

Lemma inv_release c l f :
  lock_inv (mkSys l f) → f c = UnlXchg →
  lock_inv (mkSys (mkLock 0 (lk_cpu l)) (goto c Out f)).
Proof.
  intros [Hm Hl Hf Hc] E. cbn in *.
  assert (Hno : ∀ d, owns (goto c Out f d) = false).
  { intros d. destruct (decide (d = c)) as [->|Hd]; [by rewrite goto_eq|].
    rewrite goto_ne by done. destruct (owns (f d)) eqn:Ed; [|done].
    destruct Hd. apply Hm; [done|by rewrite E]. }
  split; cbn; [intros c' d; by rewrite Hno|intros c'; by rewrite Hno|by left|].
  intros d. rewrite Hc. destruct (decide (d = c)) as [->|]; [|by rewrite goto_ne].
  by rewrite goto_eq, E.
Qed.

Lemma lock_inv_step c x y : lock_inv x → step c x y → lock_inv y.
Proof.
  intros Hinv Hs. destruct Hs as [l f E|l f E|l f E|l f E|l f h E|l f h E|l f E|l f E|
    l f h E|l f h E|l f E|l f E]; pose proof Hinv as [Hm Hl Hf Hc]; cbn in *.
  all: try (apply inv_local; [done|by rewrite E..]).
  - destruct (Z.eqb_spec (locked l) 0) as [H0|H0]; apply inv_local; rewrite ?E; try done;
      destruct h; try done; specialize (Hl c); rewrite E in Hl; specialize (Hl eq_refl); lia.
  - specialize (Hc c). rewrite E in Hc. cbn in Hc.
    case_decide; apply inv_local; rewrite ?E; try done; by destruct h; naive_solver.
  - destruct (Z.eqb_spec (locked l) 0) as [H0|H0]; [by apply inv_acquire|].
    destruct Hf as [?|[H1 _]]; [done|]. rewrite <- H1. destruct l as [lo cp]. cbn in *.
    by apply inv_local; rewrite ?E.
  - apply inv_owner; [done|by rewrite E|done|done].
  - case_match; apply inv_local; by rewrite ?E.
  - case_decide; [|apply inv_local; by rewrite ?E].
    specialize (Hc c). rewrite E in Hc. cbn in Hc. apply inv_local; rewrite ?E; try done;
      by rewrite (proj1 Hc).
  - apply (inv_owner c UnlXchg); [done|by rewrite E|done|done].
  - by apply inv_release.
Qed.

Lemma reachable_inv x : reachable x → lock_inv x.
Proof.
  induction 1 as [|c x y _ IH Hs]; [|by eapply lock_inv_step].
  split; cbn; try done; by left.
Qed.

(** C2. Mutual exclusion: in every interleaving of any number of CPUs, at most
    one has the lock, the lock word tells whether one does, and [lk->cpu] names a
    CPU exactly while it is between its store of [lk->cpu] and the clearing. *)
Theorem mutual_exclusion x :
  reachable x →
  (∀ c d, owns (at_ x c) = true → owns (at_ x d) = true → c = d) ∧
  (locked (lk x) = 0 ↔ ∀ c, owns (at_ x c) = false) ∧
  (∀ c, lk_cpu (lk x) = Some c ↔ recorded (at_ x c) = true).
Proof.
  intros [Hm Hl Hf Hc]%reachable_inv. split_and!; [done| |done]. split.
  - intros H0 c. destruct (owns (at_ x c)) eqn:E; [|done]. apply Hl in E. lia.
  - intros Hno. destruct Hf as [?|[_ [c Hc']]]; [done|]. by rewrite Hno in Hc'.
Qed.

(** The [holding] checks are exact under every interleaving, although they
    read [locked] and [cpu] at different times without the lock: spin_lock panics
    exactly when its caller already holds the lock, and spin_unlock exactly when
    its caller does not. *)
Theorem holding_exact x c y h :
  reachable x → step c x y →
  (at_ x c = LockRead h → at_ y c = LockXchg ∨ at_ y c = LockReadCpu h) ∧
  (at_ x c = LockRead true → at_ y c = LockReadCpu true) ∧
  (at_ x c = LockReadCpu h → at_ y c = if h then Panicked h else LockXchg) ∧
  (at_ x c = UnlRead h → at_ y c = UnlReadCpu h ∨ (h = false ∧ at_ y c = Panicked h)) ∧
  (at_ x c = UnlReadCpu h → at_ y c = if h then UnlClearCpu else Panicked h).
Proof.
  intros [Hm Hl Hf Hc]%reachable_inv Hs. specialize (Hc c). specialize (Hl c).
  destruct Hs as [l f E|l f E|l f E|l f E|l f h' E|l f h' E|l f E|l f E|
    l f h' E|l f h' E|l f E|l f E]; cbn in *; rewrite goto_eq, E in *;
    split_and!; intros [=]; subst; cbn in *.
  - case_match; auto.
  - rewrite Hl by done. done.
  - case_decide; destruct h; naive_solver.
  - destruct (Z.eqb_spec (locked l) 0); [|by left]. right. destruct h; [|done].
    rewrite Hl in * by done. done.
  - case_decide; destruct h; naive_solver.
Qed.

(** ** Instances *)

Definition ex_sys1 : sys := mkSys (mkLock 0 None) (goto 0 (LockRead false) (λ _, Out)).
Definition ex_sys2 : sys :=
  mkSys (mkLock 0 None) (goto 0 LockXchg (goto 0 (LockRead false) (λ _, Out))).
Definition ex_sys3 : sys :=
  mkSys (mkLock 1 None) (goto 0 LockSetCpu (at_ ex_sys2)).
Definition ex_sys4 : sys := mkSys (mkLock 1 (Some 0)) (goto 0 Crit (at_ ex_sys3)).
Definition ex_sys5 : sys := mkSys (mkLock 1 (Some 0)) (goto 0 (LockRead true) (at_ ex_sys4)).

Lemma ex_reach4 : reachable ex_sys4.
Proof.
  eapply reach_step; [|exact (lock_set_cpu 0 (mkLock 1 None) (at_ ex_sys3) eq_refl)].
  eapply reach_step; [|exact (lock_xchg 0 (mkLock 0 None) (at_ ex_sys2) eq_refl)].
  eapply reach_step; [|exact (lock_read 0 (mkLock 0 None) (at_ ex_sys1) false eq_refl)].
  eapply reach_step; [|exact (call_lock 0 (mkLock 0 None) (at_ sys0) eq_refl)].
  apply reach_init.
Qed.

(** CPU 0 holds the lock, so CPU 1 does not. *)
Lemma mutual_exclusion_witness : owns (at_ ex_sys4 0) = true ∧ ∀ d, owns (at_ ex_sys4 d) = true → d = 0.
Proof.
  split; [reflexivity|]. intros d Hd.
  exact (proj1 (mutual_exclusion ex_sys4 ex_reach4) d 0 Hd eq_refl).
Defined.

(** A CPU that locks twice is on its way to the panic. *)
Lemma holding_exact_witness : ∃ y, step 0 ex_sys5 y ∧ at_ y 0 = LockReadCpu true.
Proof.
  eexists. split; [exact (lock_read 0 (mkLock 1 (Some 0)) (at_ ex_sys5) true eq_refl)|].
  refine (proj1 (proj2 (holding_exact ex_sys5 0 _ true _ _)) eq_refl).
  - eapply reach_step; [exact ex_reach4|].
    exact (call_lock_held 0 (mkLock 1 (Some 0)) (at_ ex_sys4) eq_refl).
  - exact (lock_read 0 (mkLock 1 (Some 0)) (at_ ex_sys5) true eq_refl).
Defined.
