(* ===== verification/Time.v ===== *)
(** * The clock (kern/time.c) *)

From S2P Require Import Prelude Mem Console KState.

Definition time_init : K unit := modify (set_ticks 0).

Definition time_tick : K unit :=
  modify (λ s, set_ticks (u32 (ticks s + 1)) s);;
  s ← get;
  if u32 (ticks s * 10) <? ticks s then panic else mret tt.

Definition time_msec : K Z := gets (λ s, u32 (ticks s * 10)).

(** The clock has not wrapped. *)
Definition time_ok (s : kst) : Prop := 0 ≤ ticks s ∧ ticks s * 10 < 2 ^ 32.

(** The wrap test [ticks * 10 < ticks] is exact although it only looks at
    32-bit values: as long as the clock has not wrapped, time_msec is the real
    time (ten times the ticks), time_tick advances it by exactly 10 ms, and it
    panics exactly at the tick on which [ticks * 10] first exceeds 32 bits. *)
Theorem time_tick_exact s :
  time_ok s →
  time_msec s = Ret (10 * ticks s) s ∧
  if (ticks s + 1) * 10 <? 2 ^ 32
  then time_tick s = Ret tt (set_ticks (ticks s + 1) s) ∧
       time_ok (set_ticks (ticks s + 1) s) ∧
       time_msec (set_ticks (ticks s + 1) s) =
         Ret (10 * ticks s + 10) (set_ticks (ticks s + 1) s)
  else time_tick s = Panic (set_ticks (ticks s + 1) s).
Proof.
  intros [H0 H1]. pow2. unfold time_msec, time_tick, gets, mbind, M_bind, modify, get.
  rewrite (u32_id (ticks s * 10)) by lia. split; [f_equal; lia|].
  rewrite (u32_id (ticks s + 1)) by lia. cbn [ticks set_ticks].
  destruct (Z.ltb_spec ((ticks s + 1) * 10) 4294967296).
  - rewrite u32_id by lia. rewrite (proj2 (Z.ltb_ge _ _)) by lia.
    split_and!; [done|split; cbn; pow2; lia|f_equal; lia].
  - assert (u32 ((ticks s + 1) * 10) = (ticks s + 1) * 10 - 4294967296) as ->.
    { unfold u32. pow2. zlia. }
    by rewrite (proj2 (Z.ltb_lt _ _)) by lia.
Qed.

(** The last tick before the wrap. *)
Definition ex_clock : kst :=
  mkKst ∅ 0 0 ∅ None 0 0 0 0 0 ∅ None 0 ∅ 0 (mkLock 0 None) 429496729 cons0 nic0 [].

Lemma time_tick_exact_witness : ∃ s', time_tick ex_clock = Panic s'.
Proof.
  assert (time_ok ex_clock) as H by (split; vm_compute; congruence || reflexivity).
  exists (set_ticks (ticks ex_clock + 1) ex_clock).
  exact (proj2 (time_tick_exact ex_clock H)).
Defined.
