(* ===== verification/UserMem.v ===== *)
(** * Accesses through the page tables

    The kernel reads and writes user memory with plain loads and stores, under
    the page tables of the current environment.  [translate] is the processor's
    walk: a present bit at every level and, for a store, the write bit at every
    level, because CR0_WP is set (bootstrap.S, mpentry.S).  An access it does not
    allow is a kernel-mode page fault, which panics.  Kernel objects are read through the
    direct map. *)

From S2P Require Import Prelude Mem KState Pmap PageAlloc PageTable.

Fixpoint hw_walk (m : mem) (need t : Z) (p : list Z) : option Z :=
  match p with
  | [] => Some t
  | i :: p' =>
      let e := entry m t i in
      if Z.land e need =? need then hw_walk m need (PTE_ADDR e / PGSIZE) p' else None
  end.

(** The bits an access needs in each entry: [w], a store. *)
Definition need_bits (w : bool) : Z := if w then PTE_PW else PTE_P.

(** Physical address of [va] in the address space with top table at [cr3]. *)
Definition translate (m : mem) (cr3 va : Z) (w : bool) : option Z :=
  match hw_walk m (need_bits w) (cr3 / PGSIZE) [PML4 va; PDPE va; PDX va; PTX va] with
  | Some pg => Some (pg * PGSIZE + PGOFF va)
  | None => None
  end.

Definition uread8 (cr3 va : Z) : K Z :=
  s ← get;
  match translate (k_mem s) cr3 va false with
  | Some pa => mret (ldb (k_mem s) pa)
  | None => panic
  end.

Definition uwrite8 (cr3 va v : Z) : K unit :=
  s ← get;
  match translate (k_mem s) cr3 va true with
  | Some pa => modify (λ s, set_k_mem (stb (k_mem s) pa v) s)
  | None => panic
  end.

(** [n]-byte little-endian accesses, byte by byte (they may cross a page). *)
Fixpoint uread (n : nat) (cr3 va : Z) : K Z :=
  match n with
  | O => mret 0
  | Datatypes.S n' =>
      b ← uread8 cr3 va; r ← uread n' cr3 (u64 (va + 1)); mret (b + 256 * r)
  end.
Fixpoint uwrite (n : nat) (cr3 va v : Z) : K unit :=
  match n with
  | O => mret tt
  | Datatypes.S n' => uwrite8 cr3 va v;; uwrite n' cr3 (u64 (va + 1)) (v / 256)
  end.

(** Kernel data: [n] bytes at a kernel address in the direct map. *)
Definition kread (n : nat) (kva : Z) : K Z :=
  s ← get;
  if (KERNBASE <=? kva) && (kva + Z.of_nat n <=? KERNBASE + npages s * PGSIZE)
  then mret (ldn n (k_mem s) (kva - KERNBASE)) else panic.

(** memcpy from kernel to user memory, and memset of user memory. *)
Definition copy_to_user (cr3 dst src n : Z) : K unit :=
  for_each 0 n (λ i, b ← kread 1 (src + i); uwrite8 cr3 (u64 (dst + i)) b).
Definition set_user (cr3 dst c n : Z) : K unit :=
  for_each 0 n (λ i, uwrite8 cr3 (u64 (dst + i)) c).

(** Read a string from user memory: at most [n] bytes, up to the first NUL. *)
Fixpoint uread_str (n : nat) (cr3 va : Z) : K (list Z) :=
  match n with
  | O => mret []
  | Datatypes.S n' =>
      b ← uread8 cr3 va;
      if b =? 0 then mret [] else l ← uread_str n' cr3 (u64 (va + 1)); mret (b :: l)
  end.

(** ** The two readings of the tables agree *)

Lemma need_of w e : Z.land e PTE_PW = PTE_PW → Z.land e (need_bits w) = need_bits w.
Proof.
  intros He. destruct w; [done|]. cbn [need_bits].
  assert (Z.land e PTE_P = Z.land (Z.land e PTE_PW) PTE_P) as -> by (by rewrite <- Z.land_assoc).
  by rewrite He.
Qed.

Section translate.
Context (m : mem) (root : Z).
Hypothesis Hbytes : bytes_ok m.
Hypothesis Hpres : tables_present m root.

Lemma hw_walk_tbl w (need := need_bits w) p q t :
  vpath (p ++ q) → (length (p ++ q) ≤ 3)%nat → tbl m root p = Some t →
  hw_walk m need t q = tbl m t q.
Proof.
  revert p t. induction q as [|i q IH]; intros p t Hv Hl Ht; [done|]. cbn [hw_walk tbl].
  pose proof (entry_range m t i Hbytes) as He.
  assert (Hi : 0 ≤ i < 512).
  { destruct Hv as [Hf _]. apply Forall_app in Hf as [_ Hf]. by inversion Hf. }
  assert (Hvp : vpath p).
  { destruct Hv as (Hf & Hlv & Hh). apply Forall_app in Hf as [Hf _].
    rewrite length_app in Hlv. split_and!; [done|lia|]. by destruct p. }
  destruct (Z.eqb_spec (entry m t i) 0) as [E|E]; [rewrite E; by destruct w|].
  rewrite length_app in Hl. cbn in Hl.
  rewrite (need_of w) by (apply (Hpres p t i); done || lia). rewrite Z.eqb_refl.
  rewrite PTE_ADDR_div by done. rewrite Z.div_mul by done.
  apply (IH (p ++ [i])); rewrite <- ?app_assoc; [done|rewrite length_app; cbn; lia|].
  rewrite tbl_snoc, Ht. cbn. by rewrite (proj2 (Z.eqb_neq _ _)) by done.
Qed.

Lemma hw_walk_snoc need p i t : hw_walk m need t (p ++ [i]) =
  hw_walk m need t p ≫= λ t', if Z.land (entry m t' i) need =? need
                              then Some (PTE_ADDR (entry m t' i) / PGSIZE) else None.
Proof using.
  revert t. induction p as [|j p IH]; intros t; cbn [app hw_walk]; [done|].
  destruct (_ =? _); [apply IH|done].
Qed.

(** A page whose entry has the bits is where the kernel's tables say it is. *)
Lemma translate_pte va w :
  va_ok va → Z.land (pte m root va) (need_bits w) = need_bits w →
  translate m (root * PGSIZE) va w =
    Some (pte m root va / PGSIZE * PGSIZE + va mod PGSIZE).
Proof.
  intros Hva Hp. unfold translate. rewrite Z.div_mul by done.
  change [PML4 va; PDPE va; PDX va; PTX va] with (va_path va ++ [PTX va]).
  rewrite hw_walk_snoc, (hw_walk_tbl w [] (va_path va) root);
    [|by apply va_path_vpath|done|done].
  unfold pte, leaf in *. destruct (tbl m root (va_path va)) as [t|]; [|by destruct w].
  cbn [mbind option_bind]. rewrite Hp, Z.eqb_refl. pose proof (entry_range m t (PTX va) Hbytes).
  rewrite PTE_ADDR_div by done. rewrite Z.div_mul by done. f_equal. f_equal.
  unfold PGOFF. destruct Hva as [Hr _].
  rewrite u64_id by (change (2 ^ 48) with 281474976710656 in Hr; lia).
  change 0xFFF with (Z.ones 12). by rewrite Z.land_ones.
Qed.

(** A page whose entry lacks them is not reached. *)
Lemma translate_refused va w :
  va_ok va → Z.land (pte m root va) (need_bits w) ≠ need_bits w → translate m (root * PGSIZE) va w = None.
Proof.
  intros Hva Hp. unfold translate. rewrite Z.div_mul by done.
  change [PML4 va; PDPE va; PDX va; PTX va] with (va_path va ++ [PTX va]).
  rewrite hw_walk_snoc, (hw_walk_tbl w [] (va_path va) root);
    [|by apply va_path_vpath|done|done].
  unfold pte, leaf in Hp. destruct (tbl m root (va_path va)) as [t|]; [|done].
  cbn [mbind option_bind]. by rewrite (proj2 (Z.eqb_neq _ _)).
Qed.
End translate.

(** The addresses of one page have the same entry. *)
Lemma pte_in_page m root base o :
  va_ok base → base mod PGSIZE = 0 → 0 ≤ o < PGSIZE →
  va_ok (base + o) ∧ pte m root (base + o) = pte m root base ∧ (base + o) mod PGSIZE = o.
Proof.
  intros Hok Ha Hr.
  assert (Hbo : base + o < 2 ^ 48 ∧ (base + o) / PGSIZE = base / PGSIZE ∧
            (base + o) mod PGSIZE = o).
  { destruct Hok as [Hr48 _]. unfold PGSIZE in *.
    change (2 ^ 48) with 281474976710656 in *. split_and!; zlia. }
  destruct Hbo as (H48 & Hdiv & Hmod).
  assert (E : (va_path (base + o), PTX (base + o)) = (va_path base, PTX base)).
  { apply va_slot_eq; [apply Hok|destruct Hok; unfold PGSIZE in *; lia|done]. }
  pose proof (f_equal snd E) as E4. pose proof (f_equal fst E) as E'. cbn in E4.
  unfold va_path in E'. injection E' as E1 E2 E3. split_and!; [|unfold pte, va_path; by rewrite E1, E2, E3, E4|done].
  destruct Hok; split; [lia|by rewrite E1].
Qed.

(** ** Writing a user page *)

(** [pg] holds the data of the page at [base], which can be written, and is not a
    page table. *)
Record user_view (m : mem) (root base pg : Z) : Prop := {
  uv_bytes : bytes_ok m;
  uv_present : tables_present m root;
  uv_off : ∀ p, vpath p → tbl m root p ≠ Some pg;
  uv_align : base mod PGSIZE = 0;
  uv_ok : va_ok base;
  uv_pte : Z.land (pte m root base) PTE_PW = PTE_PW;
  uv_page : pte m root base / PGSIZE = pg
}.

(** The 64-bit fields [l] (offset, value) stored at physical address [a]. *)
Fixpoint st_fields (m : mem) (a : Z) (l : list (Z * Z)) : mem :=
  match l with
  | [] => m
  | (off, v) :: l' => st_fields (st64 m (a + off) v) a l'
  end.

Section user_write.
Context (root base pg : Z).

Lemma user_view_stb m o v :
  user_view m root base pg → 0 ≤ o < PGSIZE →
  user_view (stb m (pg * PGSIZE + o) v) root base pg.
Proof.
  intros [Hb Hp Ho Ha Hok Hpte Hpg] Hr. set (m' := stb m _ v).
  assert (Hent : ∀ p t j, vpath p → tbl m root p = Some t → 0 ≤ j < 512 →
            entry m' t j = entry m t j).
  { intros p t j Hvp Ht Hj. apply entry_ext; [done|]. intros b Hbt.
    apply ldb_stb_ne. intros <-. apply (Ho p Hvp). rewrite Ht. f_equal.
    rewrite <- Hbt. unfold PGSIZE in *. zlia. }
  assert (Htbl : ∀ p, vpath p → tbl m' root p = tbl m root p).
  { intros p Hvp. apply (tbl_agree m m' root [] (-1)); [|done|].
    - intros p' t j Hvp' Ht Hj _. by eapply Hent.
    - intros [k ->]. destruct Hvp as [Hf _]. inversion Hf; lia. }
  assert (Hp' : pte m' root base = pte m root base).
  { unfold pte, leaf. rewrite Htbl by (by apply va_path_vpath).
    destruct (tbl m root (va_path base)) as [t|] eqn:E; [|done].
    eapply Hent; [by apply va_path_vpath|done|apply land_511]. }
  split; [by apply bytes_ok_stb| | |done|done|by rewrite Hp'|by rewrite Hp'].
  - intros p t i Hvp Hl Ht Hi. rewrite Htbl in Ht by done.
    rewrite (Hent p) by done. by apply (Hp p).
  - intros p Hvp. rewrite Htbl by done. auto.
Qed.

Lemma user_view_translate m o :
  user_view m root base pg → 0 ≤ o < PGSIZE →
  translate m (root * PGSIZE) (base + o) true = Some (pg * PGSIZE + o).
Proof.
  intros [Hb Hp Ho Ha Hok Hpte Hpg] Hr. destruct (pte_in_page m root base o) as (Hok' & Hsame & Hmod); [done..|].
  rewrite translate_pte; [|done|done|done|by rewrite Hsame]. by rewrite Hsame, Hpg, Hmod.
Qed.

Lemma uwrite_page n o v s (Q : unit → kst → Prop) E :
  user_view (k_mem s) root base pg → 0 ≤ o → o + Z.of_nat n ≤ PGSIZE →
  (user_view (stn n (k_mem s) (pg * PGSIZE + o) v) root base pg →
   Q tt (set_k_mem (stn n (k_mem s) (pg * PGSIZE + o) v) s)) →
  wpx (uwrite n (root * PGSIZE) (base + o) v) s Q E.
Proof.
  revert o v s. induction n as [|n IH]; intros o v s Huv Ho Hn HQ; cbn [uwrite].
  - wp_steps. specialize (HQ Huv). by destruct s.
  - unfold uwrite8. wp_steps. rewrite user_view_translate by (done || lia). wp_steps.
    pose proof (uv_ok _ _ _ _ Huv) as [Hr48 _]. change (2 ^ 48) with 281474976710656 in Hr48.
    rewrite u64_id by (unfold PGSIZE in *; lia).
    replace (base + o + 1) with (base + (o + 1)) by lia.
    apply (IH (o + 1)).
    + apply user_view_stb; [done|lia].
    + lia.
    + lia.
    + cbn [k_mem set_k_mem]. intros Huv'. cbn [stn] in HQ.
      replace (pg * PGSIZE + (o + 1)) with (pg * PGSIZE + o + 1) in * by lia. auto.
Qed.
End user_write.

(** Reading a field back: the offsets are multiples of eight, without repeats. *)
Lemma ld64_st_fields m a l off v :
  Forall (λ x, x.1 mod 8 = 0) l → NoDup l.*1 → (off, v) ∈ l →
  ld64 (st_fields m a l) (a + off) = u64 v.
Proof.
  assert (Hout : ∀ l m off, Forall (λ x, x.1 mod 8 = 0) l → off mod 8 = 0 → off ∉ l.*1 →
    ld64 (st_fields m a l) (a + off) = ld64 m (a + off)).
  { clear. induction l as [|[o w] l IH]; intros m off Hal Hoff Hni; [done|].
    apply Forall_cons_iff in Hal as [Ho Hal]. cbn [fst] in Ho. rewrite fmap_cons in Hni.
    apply not_elem_of_cons in Hni as [Hne Hni]. cbn [fst] in Hne. cbn [st_fields].
    rewrite IH by done. apply ldn_stn_ne. change (Z.of_nat 8) with 8. zlia. }
  revert m. induction l as [|[o w] l IH]; intros m Hal Hnd Hin; [by apply not_elem_of_nil in Hin|].
  apply Forall_cons_iff in Hal as [Ho Hal]. cbn [fst] in Ho. rewrite fmap_cons in Hnd.
  apply list.NoDup_cons in Hnd as [Hni Hnd]. cbn [st_fields].
  apply elem_of_cons in Hin as [[= -> ->]|Hin]; [|by apply IH].
  rewrite Hout by done. apply ld64_st64_eq.
Qed.
