(* ===== verification/Env.v ===== *)
(** * Environments (kern/env.c)

    The operations of kern/env.c except env_destroy, which calls the scheduler
    (Sched.v).  A [struct Env *] is an index in [envs]; the current address space
    is the argument of the last [lcr3], recorded in the trace. *)

From S2P Require Import Prelude Mem KState Printfmt Pmap PageAlloc PageTable Mapping.
From S2P Require Import Spinlock UserMem.

Definition ENVGENSHIFT : Z := 12.
Definition ENVX (envid : Z) : Z := Z.land envid (NENV - 1).

Definition lcr3 (cr3 : Z) : K unit := modify (emit (Lcr3 cr3)).

(** Returns the result code and what [*env_store] is set to. *)
Definition envid2env (envid : Z) (checkperm : bool) : K (Z * option Z) :=
  s ← get;
  if envid =? 0 then mret (0, curenv s)
  else
    let e := ENVX envid in
    if (env_status (env_at s e) =? ENV_FREE) || negb (env_id (env_at s e) =? envid)
    then mret (- E_BAD_ENV, None)
    else if checkperm && negb (bool_decide (Some e = curenv s)) then
      cur ← deref (curenv s);
      if negb (env_parent_id (env_at s e) =? env_id (env_at s cur))
      then mret (- E_BAD_ENV, None) else mret (0, Some e)
    else mret (0, Some e).

Fixpoint env_init_loop (n : nat) (i : Z) (last : option Z) : K unit :=
  match n with
  | O => mret tt
  | Datatypes.S n' =>
      match last with
      | Some l => upd_env_m l (set_env_link (Some i))
      | None => modify (set_env_free_list (Some i))
      end;;
      env_init_loop n' (i + 1) (Some i)
  end.

(** env_init_percpu only loads segment registers. *)
Definition env_init : K unit :=
  modify (set_envs ∅);;
  env_init_loop (Z.to_nat NENV) 0 None.

Definition env_setup_vm (e : Z) : K Z :=
  p ← page_alloc ALLOC_ZERO;
  match p with
  | None => mret (- E_NO_MEM)
  | Some p =>
      page_incref p;;
      kva ← page2kva p;
      upd_env_m e (set_env_pml4e kva);;
      upd_env_m e (set_env_cr3 (page2pa p));;
      bp ← gets boot_pml4e;
      k1 ← kload (bp + 8 * 1);
      kstore (kva + 8 * 1) k1;;
      kstore (kva + 8 * PML4 UVPT)
        (Z.lor (Z.lor (Z.lor (page2pa p) PTE_P) PTE_W) PTE_U);;
      mret 0
  end.

Definition env_generation (id : Z) : Z :=
  let g := Z.land (i32 (id + Z.shiftl 1 ENVGENSHIFT)) (Z.lnot (NENV - 1)) in
  if g <=? 0 then Z.shiftl 1 ENVGENSHIFT else g.

(** [memset(&e->env_tf, 0, ..)] and the segment, stack and flag registers. *)
Definition init_tf : Trapframe :=
  set_tf_eflags (Z.lor (tf_eflags tf0) FL_IF)
  (set_tf_cs (Z.lor GD_UT 3)
  (set_tf_rsp USTACKTOP
  (set_tf_ss (Z.lor GD_UD 3)
  (set_tf_es (Z.lor GD_UD 3)
  (set_tf_ds (Z.lor GD_UD 3) tf0))))).

Definition env_alloc (parent_id : Z) : K (Z * option Z) :=
  fl ← gets env_free_list;
  match fl with
  | None => mret (- E_NO_FREE_ENV, None)
  | Some e =>
      r ← env_setup_vm e;
      if r <? 0 then mret (r, None)
      else
        upd_env_m e (λ v, set_env_id (Z.lor (env_generation (env_id v)) e) v);;
        upd_env_m e (set_env_parent_id parent_id);;
        upd_env_m e (set_env_type ENV_TYPE_USER);;
        upd_env_m e (set_env_status ENV_RUNNABLE);;
        upd_env_m e (set_env_runs 0);;
        upd_env_m e (set_env_tf init_tf);;
        upd_env_m e (set_env_pgfault_upcall 0);;
        upd_env_m e (set_env_ipc_recving 0);;
        s ← get;
        modify (set_env_free_list (env_link (env_at s e)));;
        mret (0, Some e)
  end.

(** ** Loading a program *)

(** [lenDown] is computed as [va - va]: the length is not extended by the offset
    of [va] in its page. *)
Definition region_alloc (e va len : Z) : K unit :=
  let temp := va / PGSIZE * PGSIZE in
  let len := u64 (u64 (len + PGSIZE) / PGSIZE * PGSIZE) in
  for_each 0 (len / PGSIZE) (λ i,
    p ← page_alloc ALLOC_ZERO;
    match p with
    | None => panic
    | Some _ =>
        s ← get;
        _ ← page_insert (env_pml4e (env_at s e)) p (u64 (temp + i * PGSIZE))
              (Z.lor (Z.lor PTE_U PTE_P) PTE_W);
        mret tt
    end).

Definition ELF_MAGIC : Z := 0x464C457F.
Definition ELF_PROG_LOAD : Z := 1.

Definition load_segment (e binary ph : Z) : K unit :=
  p_type ← kread 4 ph;
  when (p_type =? ELF_PROG_LOAD)
    (p_filesz ← kread 8 (ph + 32);
     p_memsz ← kread 8 (ph + 40);
     when (p_filesz <=? p_memsz)
       (p_va ← kread 8 (ph + 16);
        p_offset ← kread 8 (ph + 8);
        region_alloc e p_va p_memsz;;
        s ← get;
        let cr3 := env_cr3 (env_at s e) in
        copy_to_user cr3 p_va (binary + p_offset) p_filesz;;
        set_user cr3 (u64 (p_va + p_filesz)) 0 (p_memsz - p_filesz))).

Definition load_icode (e : option Z) (binary : Z) : K unit :=
  match e with
  | None => panic
  | Some e =>
    if binary =? 0 then panic
    else
      magic ← kread 4 binary;
      if negb (magic =? ELF_MAGIC) then panic
      else
        phoff ← kread 8 (binary + 32);
        phnum ← kread 2 (binary + 56);
        s ← get;
        lcr3 (env_cr3 (env_at s e));;
        for_each 0 phnum (λ i, load_segment e binary (binary + phoff + 56 * i));;
        region_alloc e (USTACKTOP - PGSIZE) PGSIZE;;
        entry ← kread 8 (binary + 24);
        upd_env_m e (λ v, set_env_tf (set_tf_rip entry (env_tf v)) v);;
        upd_env_m e (set_elf binary)
  end.

Definition env_create (binary type : Z) : K unit :=
  r ← env_alloc 0;
  if negb (fst r =? 0) then panic
  else
    e ← deref (snd r);
    upd_env_m e (set_env_type type);;
    when (type =? ENV_TYPE_FS)
      (upd_env_m e (λ v, set_env_tf
         (set_tf_eflags (Z.lor (tf_eflags (env_tf v)) FL_IOPL_MASK) (env_tf v)) v));;
    load_icode (Some e) binary.

(** ** Freeing *)

(** Unmap the pages of one page table, and free it. *)
Definition free_table (e pgdir pdpe_index pdeno : Z) : K unit :=
  pde ← kload (pgdir + 8 * pdeno);
  if negb (truthy (Z.land pde PTE_P)) then mret tt
  else
    let pa := PTE_ADDR pde in
    pt ← KADDR pa;
    for_each 0 (PTX (u64 (-1))) (λ pteno,
      pte ← kload (pt + 8 * pteno);
      when (truthy (Z.land pte PTE_P))
        (s ← get;
         page_remove (env_pml4e (env_at s e)) (PGADDR 0 pdpe_index pdeno pteno 0)));;
    kstore (pgdir + 8 * pdeno) 0;;
    pp ← pa2page pa; page_decref pp.

(** Free one page directory. *)
Definition free_directory (e pdpe pdpe_index : Z) : K unit :=
  e1 ← kload (pdpe + 8 * pdpe_index);
  if negb (truthy (Z.land e1 PTE_P)) then mret tt
  else
    pgdir ← KADDR (PTE_ADDR e1);
    let pdeno_limit := if pdpe_index =? 3 then PDX UTOP else PDX 0xFFFFFFFF in
    for_each 0 pdeno_limit (free_table e pgdir pdpe_index);;
    e2 ← kload (pdpe + 8 * pdpe_index);
    kstore (pdpe + 8 * pdpe_index) 0;;
    pp ← pa2page (PTE_ADDR e2); page_decref pp.

Definition env_free (e : Z) : K unit :=
  s ← get;
  when (bool_decide (curenv s = Some e)) (lcr3 (boot_cr3 s));;
  let pml4e := env_pml4e (env_at s e) in
  e0 ← kload (pml4e + 8 * 0);
  pdpe ← KADDR (PTE_ADDR e0);
  for_each 0 4 (free_directory e pdpe);;
  e0 ← kload (pml4e + 8 * 0);
  pp ← pa2page (PTE_ADDR e0); page_decref pp;;
  kstore (pml4e + 8 * 0) 0;;
  s ← get;
  let pa := env_cr3 (env_at s e) in
  upd_env_m e (set_env_pml4e 0);;
  upd_env_m e (set_env_cr3 0);;
  pp ← pa2page pa; page_decref pp;;
  upd_env_m e (set_env_status ENV_FREE);;
  s ← get;
  upd_env_m e (set_env_link (env_free_list s));;
  modify (set_env_free_list (Some e)).

(** ** Running *)

(** [iret] to the saved trap frame of the current environment. *)
Definition env_pop_tf (e : Z) : K unit :=
  s ← get;
  cur ← deref (curenv s);
  upd_env_m cur (set_env_cpunum (cpunum s));;
  leave (ToUser e).

Definition env_run (e : Z) : K unit :=
  s ← get;
  when (bool_decide (curenv s = Some e))
    (upd_env_m e (λ v, set_env_runs (u32 (env_runs v + 1)) v);;
     unlock_kernel;;
     env_pop_tf e);;
  match curenv s with
  | Some c =>
      when (env_status (env_at s c) =? ENV_RUNNING) (upd_env_m c (set_env_status ENV_RUNNABLE))
  | None => mret tt
  end;;
  modify (set_curenv (Some e));;
  upd_env_m e (set_env_status ENV_RUNNING);;
  upd_env_m e (λ v, set_env_runs (u32 (env_runs v + 1)) v);;
  unlock_kernel;;
  s ← get;
  lcr3 (env_cr3 (env_at s e));;
  env_pop_tf e.

(** ** Lemmas *)

Section env_lemmas.
Implicit Types (s : kst).

Lemma env_at_upd e f s q :
  env_at (upd_env e f s) q = if decide (e = q) then f (env_at s e) else env_at s q.
Proof. unfold env_at, upd_env. cbn. apply getd_insert. Qed.

Lemma env_at_upd_eq e f s : env_at (upd_env e f s) e = f (env_at s e).
Proof. rewrite env_at_upd. by rewrite decide_True. Qed.

Lemma env_at_upd_ne e f s q : e ≠ q → env_at (upd_env e f s) q = env_at s q.
Proof. intros. rewrite env_at_upd. by rewrite decide_False. Qed.

Lemma ENVX_mod x : ENVX x = x mod 1024.
Proof. unfold ENVX. change (NENV - 1) with (Z.ones 10). by rewrite Z.land_ones. Qed.

Lemma land_not_1023 x : Z.land x (Z.lnot (NENV - 1)) = x - x mod 1024.
Proof.
  rewrite <- Z.ldiff_land. change (NENV - 1) with (Z.ones 10).
  rewrite Z.ldiff_ones_r, Z.shiftl_mul_pow2, Z.shiftr_div_pow2 by done.
  change (2 ^ 10) with 1024. zlia.
Qed.

Lemma lor_1024 g e : g mod 1024 = 0 → 0 ≤ e < 1024 → Z.lor g e = g + e.
Proof.
  intros Hg He. assert (Z.land g e = 0) as Hl.
  { assert (g = Z.shiftl (g / 1024) 10) as ->.
    { rewrite Z.shiftl_mul_pow2 by done. change (2 ^ 10) with 1024. zlia. }
    apply Z.bits_inj'. intros n Hn. rewrite Z.land_spec, Z.bits_0.
    destruct (decide (n < 10)).
    - by rewrite Z.shiftl_spec_low by lia.
    - rewrite (Z.bits_above_log2 e n); [apply andb_false_r|lia|].
      destruct (decide (e = 0)) as [->|]; [cbn; lia|].
      apply Z.log2_lt_pow2; [lia|].
      assert (2 ^ 10 ≤ 2 ^ n) by (apply Z.pow_le_mono_r; lia).
      change (2 ^ 10) with 1024 in *. lia. }
  pose proof (Z.add_lor_land g e). lia.
Qed.

(** The id of slot [e] at its [k]-th allocation. *)
Definition nth_id (e k : Z) : Z := k * 4096 + e.

Lemma env_generation_next e id :
  0 ≤ e < 1024 → (id = 0 ∨ ∃ k, 1 ≤ k < 2 ^ 19 ∧ id = nth_id e k) →
  Z.lor (env_generation id) e =
    (if (id / 4096 + 1) <? 2 ^ 19 then nth_id e (id / 4096 + 1) else nth_id e 1).
Proof.
  intros He Hid. unfold env_generation. rewrite land_not_1023.
  change (Z.shiftl 1 ENVGENSHIFT) with 4096. change (2 ^ 19) with 524288 in *.
  assert (0 ≤ id < 2147483648 ∧ id mod 4096 < 1024) as [Hr Hm].
  { unfold nth_id in Hid. destruct Hid as [->|(k & Hk & ->)]; [done|]. split; zlia. }
  destruct (Z.ltb_spec (id / 4096 + 1) 524288).
  - rewrite i32_id by zlia. destruct (Z.leb_spec (id + 4096 - (id + 4096) mod 1024) 0); [zlia|].
    rewrite lor_1024 by zlia. unfold nth_id. destruct Hid as [->|(k & Hk & ->)]; zlia.
  - assert (i32 (id + 4096) = id + 4096 - 4294967296) as ->.
    { unfold i32. case_match; zlia. }
    rewrite (proj2 (Z.leb_le _ _)) by zlia. rewrite lor_1024 by zlia. done.
Qed.
End env_lemmas.

(** Only environment [e] changes, by [f]: a description of the state that stays
    small when many fields are assigned. *)
Record env_upd (e : Z) (f : Env → Env) (s s' : kst) : Prop := {
  eu_at : env_at s' e = f (env_at s e);
  eu_other : ∀ q, q ≠ e → env_at s' q = env_at s q;
  eu_rest : s' = set_envs (envs s') s
}.

Lemma env_upd_one e f s : env_upd e f s (upd_env e f s).
Proof.
  split; [apply env_at_upd_eq| |done]. intros. by apply env_at_upd_ne.
Qed.

Lemma env_upd_more e f g s s' : env_upd e f s s' → env_upd e (λ v, g (f v)) s (upd_env e g s').
Proof.
  intros [Ha Ho Hr]. split.
  - by rewrite env_at_upd_eq, Ha.
  - intros q Hq. rewrite env_at_upd_ne by done. auto.
  - rewrite Hr. reflexivity.
Qed.

Lemma upd_env_first e f s (Q : unit → kst → Prop) E :
  (∀ s', env_upd e f s s' → Q tt s') → wpx (upd_env_m e f) s Q E.
Proof. intros H. apply wpx_modify, H, env_upd_one. Qed.

Lemma upd_env_next e f g s0 s (Q : unit → kst → Prop) E :
  env_upd e f s0 s → (∀ s', env_upd e (λ v, g (f v)) s0 s' → Q tt s') →
  wpx (upd_env_m e g) s Q E.
Proof. intros Hu H. apply wpx_modify, H. by apply env_upd_more. Qed.

(** Assign the next field; [Hu] describes the assignments so far. *)
Ltac upd_next Hu :=
  apply wpx_bind; eapply (upd_env_next _ _ _ _ _ _ _ Hu);
  let s' := fresh "s" in let Hu' := fresh "Hu" in
  intros s' Hu'; clear Hu; rename Hu' into Hu.

(** ** env_alloc *)

Definition new_env (parent p : Z) (e : Z) (v : Env) : Env :=
  mkEnv init_tf (env_link v) (Z.lor (env_generation (env_id v)) e) parent ENV_TYPE_USER
    ENV_RUNNABLE 0 (env_cpunum v) (tab_kva p) (p * PGSIZE) 0 0 (env_ipc_dstva v)
    (env_ipc_value v) (env_ipc_from v) (env_ipc_perm v) (elf v).

(** What env_alloc needs: the kernel's top-level table is a page in use. *)
Record alloc_pre (s : kst) (l : list Z) (bp : Z) : Prop := {
  ap_free : free_list s l;
  ap_npages : npages s ≤ 2 ^ 32;
  ap_bytes : bytes_ok (k_mem s);
  ap_boot : boot_pml4e s = tab_kva bp;
  ap_range : 0 ≤ bp < npages s;
  ap_used : bp ∉ l
}.

(** The top-level table of a new environment. *)
Definition new_pml4 (m : mem) (bp p i : Z) : Z :=
  if decide (i = 1) then entry m bp 1
  else if decide (i = PML4 UVPT) then p * PGSIZE + 7 else 0.

Lemma env_setup_vm_spec s l bp e :
  alloc_pre s l bp →
  wp (env_setup_vm e) s (λ r s',
    match l with
    | [] => r = - E_NO_MEM ∧ s' = s
    | p :: l' =>
        r = 0 ∧ free_list s' l' ∧ page_at s' p = mkPage None 1 ∧
        (∀ q, q ≠ p → page_at s' q = page_at s q) ∧
        (∀ i, 0 ≤ i < 512 → entry (k_mem s') p i = new_pml4 (k_mem s) bp p i) ∧
        (∀ b, b / PGSIZE ≠ p → ldb (k_mem s') b = ldb (k_mem s) b) ∧
        env_at s' e = set_env_cr3 (p * PGSIZE) (set_env_pml4e (tab_kva p) (env_at s e)) ∧
        (∀ q, q ≠ e → env_at s' q = env_at s q) ∧
        env_free_list s' = env_free_list s ∧ curenv s' = curenv s
    end).
Proof.
  intros []. unfold env_setup_vm. wp_steps. eapply page_alloc_spec; [done..|].
  destruct l as [|p l]; [by wp_steps|].
  pose proof (fl_nodup _ _ ap_free0) as [Hpl _]%list.NoDup_cons.
  assert (Hp : 0 ≤ p < npages s) by (destruct ap_free0 as [_ _ Hr _]; by inversion Hr).
  assert (Hbp : bp ≠ p) by set_solver.
  unfold page_incref, upd_page_m, upd_env_m. wp_steps.
  set (s1 := upd_page p (λ p, set_ref (u16 (pp_ref p + 1)) p) (alloc_state ALLOC_ZERO p s)).
  apply page2kva_spec; [done..|]. change (p * PGSIZE + KERNBASE) with (tab_kva p). wp_steps.
  set (s2 := upd_env e _ (upd_env e _ s1)).
  change (boot_pml4e s2) with (boot_pml4e s). rewrite ap_boot0.
  apply kload_spec; [done..|]. wp_steps.
  change (k_mem s2) with (zero_page (k_mem s) p).
  rewrite entry_zero_page, decide_False by done.
  pose proof (entry_range (k_mem s) bp 1 ap_bytes0) as He1.
  apply kstore_spec; [done..|]. wp_steps. set (s3 := set_k_mem _ s2).
  apply kstore_spec; [done..|]. wp_steps. set (s4 := set_k_mem _ s3).
  assert (Hself : Z.lor (Z.lor (Z.lor (page2pa p) PTE_P) PTE_W) PTE_U = p * PGSIZE + 7).
  { rewrite page2pa_ppn by lia. rewrite <- !Z.lor_assoc. rewrite lor_page_perm; done. }
  assert (Hrange : 0 ≤ p * PGSIZE + 7 < 2 ^ 64) by (unfold PGSIZE; pow2; lia).
  assert (Hm4 : k_mem s4 = st64 (st64 (zero_page (k_mem s) p) (p * PGSIZE + 8 * 1)
              (entry (k_mem s) bp 1)) (p * PGSIZE + 8 * PML4 UVPT) (p * PGSIZE + 7)).
  { unfold s4. rewrite Hself. reflexivity. }
  wp_steps. split_and!; [done| | | | | | | |done|done].
  - do 2 apply set_k_mem_free_list.
    eapply (free_list_ext s1); [done..|]. apply free_list_upd_out; [done|].
    by apply free_list_alloc.
  - change (page_at s4 p) with (page_at s1 p). unfold s1. rewrite page_at_upd_eq.
    change (page_at (alloc_state ALLOC_ZERO p s) p) with
      (page_at (upd_page p (set_link None) (set_page_free_list (pp_link (page_at s p)) s)) p).
    rewrite page_at_upd_eq. unfold set_link, set_ref. cbn.
    destruct ap_free0 as [_ _ _ Hf]. inversion Hf as [|?? E]; subst.
    change (page_at (set_page_free_list _ s) p) with (page_at s p). by rewrite E.
  - intros q Hq. change (page_at s4 q) with (page_at s1 q). unfold s1.
    rewrite page_at_upd_ne by done. exact (page_at_upd_ne p (set_link None) _ q (not_eq_sym Hq)).
  - intros i Hi. rewrite Hm4. rewrite !entry_st64 by done. rewrite entry_zero_page by done.
    change (PML4 UVPT) with 2. unfold new_pml4. change (PML4 UVPT) with 2.
    rewrite (decide_True (P := p = p)) by done.
    destruct (decide (i = 1)) as [->|H1]; [rewrite decide_False by lia; by rewrite decide_True|].
    rewrite (decide_False (P := p = p ∧ i = 1)) by (by intros [_ ?]).
    destruct (decide (i = 2)) as [->|H2]; [by rewrite decide_True|].
    by rewrite decide_False by (by intros [_ ?]).
  - intros b Hb. rewrite Hm4. change (PML4 UVPT) with 2.
    rewrite !ldb_stn_out by (unfold PGSIZE in *; zlia). rewrite ldb_zero_page.
    by rewrite decide_False.
  - change (env_at s4 e) with (env_at s2 e). unfold s2. rewrite !env_at_upd_eq.
    by rewrite page2pa_ppn by lia.
  - intros q Hq. change (env_at s4 q) with (env_at s2 q). unfold s2.
    by rewrite !env_at_upd_ne by done.
Qed.

(** An address space whose first top-level entry is empty maps nothing below
    512 GB. *)
Lemma pte_low_zero m root va :
  entry m root 0 = 0 → 0 ≤ va < 2 ^ 39 → pte m root va = 0.
Proof.
  intros H0 Hva. apply pte_missing. unfold va_path. cbn [tbl].
  assert (PML4 va = 0) as ->; [|by rewrite H0].
  assert (2 ^ 39 < 2 ^ 48) by done.
  unfold PML4, PML4SHIFT. rewrite index_digit by lia. by rewrite Z.div_small.
Qed.

(** ** Properties *)

(** Environment ids.  For slot [e], whatever the id left there by its last
    use, env_alloc's new id is positive, has [e] as its ENVX index and differs
    from the old one; and ids of the same slot repeat only after 2^19 - 1
    allocations, since the k-th is [k * 4096 + e]. *)
Theorem env_id_generation e id :
  0 ≤ e < NENV → (id = 0 ∨ ∃ k, 1 ≤ k < 2 ^ 19 ∧ id = nth_id e k) →
  let id' := Z.lor (env_generation id) e in
  0 < id' < 2 ^ 31 ∧ ENVX id' = e ∧ id' ≠ id ∧
  (∃ k, 1 ≤ k < 2 ^ 19 ∧ id' = nth_id e k) ∧
  (id / 4096 + 1 < 2 ^ 19 → id' = nth_id e (id / 4096 + 1)).
Proof.
  intros He Hid id'. unfold id'. change NENV with 1024 in He.
  rewrite env_generation_next by done. rewrite ENVX_mod. unfold nth_id in *.
  change (2 ^ 19) with 524288 in *. pow2.
  assert (0 ≤ id / 4096 < 524288 ∧ (id = 0 ∨ id = id / 4096 * 4096 + e)) as [Hk Hf].
  { destruct Hid as [->|(k & Hk & ->)]; [split; [done|by left]|]. split; [zlia|right; zlia]. }
  destruct (Z.ltb_spec (id / 4096 + 1) 524288).
  - split_and!; [lia|lia|zlia|zlia| |done]. exists (id / 4096 + 1). split; [lia|done].
  - split_and!; [lia|lia|zlia|zlia| |lia]. by exists 1.
Qed.

(** C21. env_alloc: E_NO_FREE_ENV exactly when every environment is in use,
    E_NO_MEM when there is no page for the top-level table, and nothing changes in
    either case.  On success the first free environment is taken: it is runnable,
    with cleared registers, user segments, the user stack, interrupts enabled and
    no page-fault handler; its fresh top-level table holds the kernel's entry 1
    and the self-map and nothing else, so no user address is mapped; the page has
    one reference; no other environment and no other memory changed. *)
Theorem env_alloc_correct s l bp parent :
  alloc_pre s l bp →
  wp (env_alloc parent) s (λ '(r, es) s',
    match env_free_list s, l with
    | None, _ => r = - E_NO_FREE_ENV ∧ es = None ∧ s' = s
    | Some _, [] => r = - E_NO_MEM ∧ es = None ∧ s' = s
    | Some e, p :: l' =>
        r = 0 ∧ es = Some e ∧ free_list s' l' ∧
        env_at s' e = new_env parent p e (env_at s e) ∧
        (∀ q, q ≠ e → env_at s' q = env_at s q) ∧
        env_free_list s' = env_link (env_at s e) ∧
        page_at s' p = mkPage None 1 ∧ (∀ q, q ≠ p → page_at s' q = page_at s q) ∧
        (∀ i, 0 ≤ i < 512 → entry (k_mem s') p i = new_pml4 (k_mem s) bp p i) ∧
        (∀ va, 0 ≤ va < 2 ^ 39 → pte (k_mem s') p va = 0) ∧
        (∀ b, b / PGSIZE ≠ p → ldb (k_mem s') b = ldb (k_mem s) b)
    end).
Proof.
  intros Hpre. unfold env_alloc. wp_steps.
  destruct (env_free_list s) as [e|] eqn:Efl; [|by wp_steps].
  wp_steps. eapply wpx_conseq; [by apply env_setup_vm_spec|].
  intros r s1 Hr. destruct l as [|p l]; [by destruct Hr as [-> ->]|].
  destruct Hr as (-> & Hfl & Hpg & Hpgs & Hent & Hmem & He & Hes & _ & _).
  cbn [Z.ltb Z.compare]. apply wpx_bind, upd_env_first. intros s2 Hu.
  do 7 upd_next Hu. wp_steps. destruct Hu as [He2 Hes2 Hr]. rewrite He in He2.
  set (sf := set_env_free_list _ _).
  assert (Hm3 : k_mem sf = k_mem s1) by (unfold sf; rewrite Hr; reflexivity).
  rewrite Hm3. split_and!; [done|done| |exact He2| | | | |exact Hent| |done].
  - eapply free_list_ext; [..|exact Hfl]; unfold sf; rewrite Hr; reflexivity.
  - intros q Hq. rewrite <- Hes by done. by apply Hes2.
  - unfold sf. cbn [env_free_list set_env_free_list]. by rewrite He2.
  - rewrite <- Hpg. unfold sf. rewrite Hr. reflexivity.
  - intros q Hq. rewrite <- Hpgs by done. unfold sf. rewrite Hr. reflexivity.
  - intros va Hva. apply pte_low_zero; [|done]. by rewrite Hent.
Qed.

(** C34. envid2env accepts exactly the live environments the caller may name.  Id
    0 is the caller.  Any other id gives the environment in its ENVX slot, when
    that slot is in use under exactly this id (a stale id is refused) and, with
    [checkperm], it is the caller or one of its children; else E_BAD_ENV and NULL.
    It changes nothing. *)
Theorem envid2env_correct s envid checkperm cur :
  curenv s = Some cur →
  ∃ r es, envid2env envid checkperm s = Ret (r, es) s ∧
    (r = 0 ∧ is_Some es ∨ r = - E_BAD_ENV ∧ es = None) ∧
    (envid = 0 → es = Some cur) ∧
    (envid ≠ 0 → ∀ e, es = Some e ↔
       e = ENVX envid ∧ env_status (env_at s e) ≠ ENV_FREE ∧ env_id (env_at s e) = envid ∧
       (checkperm = true → e = cur ∨ env_parent_id (env_at s e) = env_id (env_at s cur))).
Proof.
  intros Hcur. unfold envid2env, mbind, M_bind, get. rewrite Hcur.
  destruct (Z.eqb_spec envid 0) as [->|Hne].
  { eexists _, _. split_and!; [done| |done|done]. left. by split; [|eexists]. }
  set (e := ENVX envid).
  destruct (Z.eqb_spec (env_status (env_at s e)) ENV_FREE) as [Hf|Hf]; cbn [orb].
  { eexists _, _. split_and!; [done|by right|done|]. intros _ e'. split; [done|].
    by intros (-> & ? & _). }
  destruct (Z.eqb_spec (env_id (env_at s e)) envid) as [Hi|Hi]; cbn [negb].
  2:{ eexists _, _. split_and!; [done|by right|done|]. intros _ e'. split; [done|].
      by intros (-> & _ & ? & _). }
  destruct checkperm; cbn [andb].
  - case_bool_decide as Hd; cbn [negb].
    + eexists _, _. split_and!; [done|left; by split; [|eexists]|done|].
      intros _ e'. split; [intros [= <-]|by intros (-> & _)]. split_and!; try done.
      intros _. left. congruence.
    + cbn [deref]. unfold mret, M_ret.
      destruct (Z.eqb_spec (env_parent_id (env_at s e)) (env_id (env_at s cur))) as [Hp|Hp];
        cbn [negb]; eexists _, _; split_and!; try done.
      * left. by split; [|eexists].
      * intros _ e'. split; [intros [= <-]|by intros (-> & _)]. split_and!; try done.
        intros _. by right.
      * by right.
      * intros _ e'. split; [done|]. intros (-> & _ & _ & [->|?]); congruence.
  - eexists _, _. split_and!; [done|left; by split; [|eexists]|done|].
    intros _ e'. split; [intros [= <-]|by intros (-> & _)]. by split_and!.
Qed.

(** ** Instances *)

Lemma ex_alloc_pre : alloc_pre ex_kst [2; 3; 4; 5; 6] 1.
Proof.
  split; [exact ex_free_list|by vm_compute|exact ex_bytes|reflexivity|by vm_compute|set_solver].
Qed.

Lemma env_id_generation_witness :
  ENVX (Z.lor (env_generation 0) 5) = 5 ∧ ENVX (Z.lor (env_generation 4101) 5) = 5.
Proof.
  split.
  - exact (proj1 (proj2 (env_id_generation 5 0 ltac:(done) (or_introl eq_refl)))).
  - refine (proj1 (proj2 (env_id_generation 5 4101 ltac:(done) (or_intror _)))).
    by exists 1.
Defined.

Lemma env_alloc_correct_witness :
  wp (env_alloc 4096) ex_kst (λ '(r, es) s',
    r = 0 ∧ es = Some 1 ∧ env_id (env_at s' 1) = 4097 ∧
    env_status (env_at s' 1) = ENV_RUNNABLE).
Proof.
  eapply wpx_conseq; [exact (env_alloc_correct ex_kst _ 1 4096 ex_alloc_pre)|].
  intros [r es] s'. cbn [env_free_list ex_kst]. intros (-> & -> & _ & He & _).
  rewrite He. split_and!; reflexivity.
Defined.

Lemma envid2env_correct_witness :
  ∃ r es, envid2env 4096 true ex_kst = Ret (r, es) ex_kst ∧ es = Some 0.
Proof.
  destruct (envid2env_correct ex_kst 4096 true 0 eq_refl) as (r & es & Hrun & _ & _ & H).
  exists r, es. split; [exact Hrun|]. apply H; [done|].
  split_and!; [reflexivity|vm_compute; congruence|reflexivity|by left].
Defined.
