(* ===== verification/Sched.v ===== *)
(** * The scheduler (kern/sched.c), env_destroy (kern/env.c) and
    user_mem_assert (kern/pmap.c) *)

From S2P Require Import Prelude Mem KState Printfmt Pmap PageAlloc PageTable Mapping.
From S2P Require Import Spinlock UserMem Env.

Definition sched_halt : K unit :=
  s ← get;
  found ← for_range 0 NENV (λ i,
    let st := env_status (env_at s i) in
    mret (if (st =? ENV_RUNNABLE) || (st =? ENV_RUNNING) || (st =? ENV_DYING)
          then Some i else None));
  match found with
  | None => leave InMonitor
  | Some _ =>
      modify (set_curenv None);;
      s ← get;
      pa ← PADDR (boot_pml4e s);
      lcr3 pa;;
      modify (set_cpu_status CPU_HALTED);;
      unlock_kernel;;
      leave Halted
  end.

Definition sched_yield : K unit :=
  _ ← for_range 1 (NENV + 1) (λ i,
    s ← get;
    let e := u32 (env_counter s + i) mod NENV in
    if env_status (env_at s e) =? ENV_RUNNABLE then
      modify (set_env_counter e);;
      env_run e;;
      mret (Some tt)
    else mret None);
  s ← get;
  match curenv s with
  | Some c => if env_status (env_at s c) =? ENV_RUNNING then env_run c else sched_halt
  | None => sched_halt
  end.

Definition env_destroy (e : Z) : K unit :=
  s ← get;
  if (env_status (env_at s e) =? ENV_RUNNING) && negb (bool_decide (curenv s = Some e))
  then upd_env_m e (set_env_status ENV_DYING)
  else
    env_free e;;
    s ← get;
    when (bool_decide (curenv s = Some e))
      (modify (set_curenv None);; sched_yield).

Definition user_mem_assert (env va len perm : Z) : K unit :=
  r ← user_mem_check env va len (Z.lor perm PTE_U);
  when (r <? 0) (env_destroy env).

(** ** env_run *)

(** The state after env_run switched to [e]. *)
Record switched (e : Z) (s s' : kst) : Prop := {
  sw_cur : curenv s' = Some e;
  sw_status : env_status (env_at s' e) = ENV_RUNNING;
  sw_runs : env_runs (env_at s' e) = u32 (env_runs (env_at s e) + 1);
  sw_tf : env_tf (env_at s' e) = env_tf (env_at s e);
  sw_old : ∀ c, curenv s = Some c → env_at s' c =
    if env_status (env_at s c) =? ENV_RUNNING
    then set_env_status ENV_RUNNABLE (env_at s c) else env_at s c;
  sw_other : ∀ q, q ≠ e → curenv s ≠ Some q → env_at s' q = env_at s q;
  sw_lock : kernel_lock s' = mkLock 0 None;
  sw_trace : trace s' = trace s ++ [Lcr3 (env_cr3 (env_at s e))];
  sw_mem : k_mem s' = k_mem s;
  sw_counter : env_counter s' = env_counter s
}.

(** ... and after it resumed the current environment [e]. *)
Record resumed (e : Z) (s s' : kst) : Prop := {
  re_cur : curenv s' = Some e;
  re_env : env_at s' e = set_env_cpunum (cpunum s)
             (set_env_runs (u32 (env_runs (env_at s e) + 1)) (env_at s e));
  re_other : ∀ q, q ≠ e → env_at s' q = env_at s q;
  re_lock : kernel_lock s' = mkLock 0 None;
  re_trace : trace s' = trace s;
  re_mem : k_mem s' = k_mem s;
  re_counter : env_counter s' = env_counter s;
  re_boot : boot_pml4e s' = boot_pml4e s;
  re_cpus : cpus s' = cpus s
}.

Definition lock_held (s : kst) : Prop := kernel_lock s = mkLock 1 (Some (cpunum s)).

Lemma curenv_set e s : curenv (set_curenv e s) = e.
Proof. unfold curenv, set_curenv, cpu_at. cbn. by rewrite getd_insert_eq. Qed.

Lemma env_run_spec e s Q :
  lock_held s →
  wpx (env_run e) s Q (λ x s', x = ToUser e ∧
    if decide (curenv s = Some e) then resumed e s s' else switched e s s').
Proof.
  intros Hlk. unfold env_run. wp_steps. case_bool_decide as Hc.
  - cbn [when]. wp_steps. unfold upd_env_m. wp_steps.
    apply spin_unlock_spec; [exact Hlk|]. unfold env_pop_tf. wp_steps.
    assert (Hcur : ∀ f x, curenv (set_kernel_lock f (upd_env e x s)) = Some e) by (intros; exact Hc).
    rewrite Hcur. apply deref_spec. unfold upd_env_m. wp_steps.
    split; [done|]. rewrite decide_True by done. split; try done.
    + rewrite env_at_upd_eq. cbn [cpunum set_kernel_lock].
      match goal with |- context[env_at (set_kernel_lock ?l ?x) e] =>
        change (env_at (set_kernel_lock l x) e) with (env_at x e) end.
      by rewrite env_at_upd_eq.
    + intros q Hq. rewrite env_at_upd_ne by done. exact (env_at_upd_ne e _ s q (not_eq_sym Hq)).
  - cbn [when]. wp_steps.
    set (s1 := match curenv s with
               | Some c => if env_status (env_at s c) =? ENV_RUNNING
                           then upd_env c (set_env_status ENV_RUNNABLE) s else s
               | None => s end).
    assert (H1 : (match curenv s with
        | Some c => when (env_status (env_at s c) =? ENV_RUNNING)
                      (upd_env_m c (set_env_status ENV_RUNNABLE))
        | None => mret tt end) s = (Ret tt s1 : outcome kst kexit unit)).
    { unfold s1. destruct (curenv s) as [c|]; [|done].
      by destruct (env_status (env_at s c) =? ENV_RUNNING). }
    eapply wp_of_run; [exact H1|]. clear H1. wp_steps. unfold upd_env_m. wp_steps.
    assert (Hs1 : cpunum s1 = cpunum s ∧ kernel_lock s1 = kernel_lock s ∧
              trace s1 = trace s ∧ k_mem s1 = k_mem s ∧ env_counter s1 = env_counter s ∧
              (∀ c, curenv s = Some c → env_at s1 c =
                 if env_status (env_at s c) =? ENV_RUNNING
                 then set_env_status ENV_RUNNABLE (env_at s c) else env_at s c) ∧
              (∀ q, curenv s ≠ Some q → env_at s1 q = env_at s q)).
    { unfold s1. destruct (curenv s) as [c|]; [|by split_and!].
      destruct (env_status (env_at s c) =? ENV_RUNNING) eqn:E; split_and!; try done.
      - intros c' [= <-]. rewrite E. by rewrite env_at_upd_eq.
      - intros q Hq. apply env_at_upd_ne. congruence.
      - intros c' [= <-]. by rewrite E. }
    clearbody s1. destruct Hs1 as (Hn1 & Hl1 & Ht1 & Hm1 & Hct1 & Hold & Hoth).
    set (s2 := upd_env e _ (upd_env e _ (set_curenv (Some e) s1))).
    assert (Hs2 : cpunum s2 = cpunum s1 ∧ kernel_lock s2 = kernel_lock s1 ∧
              trace s2 = trace s1 ∧ k_mem s2 = k_mem s1 ∧ env_counter s2 = env_counter s1 ∧
              curenv s2 = Some e ∧
              env_at s2 e = set_env_runs (u32 (env_runs (env_at s e) + 1))
                              (set_env_status ENV_RUNNING (env_at s e)) ∧
              (∀ q, q ≠ e → env_at s2 q = env_at s1 q)).
    { unfold s2. split_and!; try done.
      - apply (curenv_set (Some e) s1).
      - rewrite !env_at_upd_eq.
        change (env_at (set_curenv (Some e) s1) e) with (env_at s1 e). by rewrite Hoth.
      - intros q Hq. rewrite !env_at_upd_ne by done. done. }
    clearbody s2. destruct Hs2 as (Hn2 & Hl2 & Ht2 & Hm2 & Hct2 & Hcur2 & He2 & Ho2).
    apply spin_unlock_spec; [congruence|]. wp_steps. unfold lcr3. wp_steps.
    unfold env_pop_tf. wp_steps.
    match goal with |- wpx (deref (curenv ?x)) _ _ _ =>
      change (curenv x) with (curenv s2) end.
    rewrite Hcur2. apply deref_spec. unfold upd_env_m. wp_steps.
    split; [done|]. rewrite decide_False by done.
    set (s3 := emit _ _).
    assert (Hs3 : env_at s3 = env_at s2) by reflexivity.
    assert (Ho : ∀ f q, q ≠ e → env_at (upd_env e f s3) q = env_at s1 q).
    { intros f q Hq. rewrite env_at_upd_ne by done. rewrite Hs3. auto. }
    split.
    + exact Hcur2.
    + rewrite env_at_upd_eq, Hs3, He2. done.
    + rewrite env_at_upd_eq, Hs3, He2. done.
    + rewrite env_at_upd_eq, Hs3, He2. done.
    + intros c Hc'. rewrite Ho by congruence. auto.
    + intros q Hq Hq'. rewrite Ho by done. auto.
    + done.
    + change (trace (upd_env e _ s3)) with
        (trace s2 ++ [Lcr3 (env_cr3 (env_at s2 e))]).
      by rewrite Ht2, Ht1, He2.
    + transitivity (k_mem s2); [reflexivity|congruence].
    + transitivity (env_counter s2); [reflexivity|congruence].
Qed.

(** ** sched_yield *)

Definition runnable (s : kst) (e : Z) : Prop := env_status (env_at s e) = ENV_RUNNABLE.
Definition slot (s : kst) (k : Z) : Z := (env_counter s + k) mod NENV.

(** What scheduling needs: the lock, a valid counter, and the kernel's tables. *)
Record sched_pre (s : kst) : Prop := {
  sp_lock : lock_held s;
  sp_counter : 0 ≤ env_counter s < NENV;
  sp_boot : KERNBASE ≤ boot_pml4e s < 2 ^ 64
}.

(** The CPU goes idle, or the monitor takes over when nothing will ever run. *)
Definition idle_post (s : kst) (x : kexit) (s' : kst) : Prop :=
  ((∃ e, 0 ≤ e < NENV ∧ (env_status (env_at s e) = ENV_RUNNABLE ∨
      env_status (env_at s e) = ENV_RUNNING ∨ env_status (env_at s e) = ENV_DYING)) ∧
   x = Halted ∧ curenv s' = None ∧ cpu_status (cpu_at s' (cpunum s)) = CPU_HALTED ∧
   kernel_lock s' = mkLock 0 None ∧ envs s' = envs s ∧
   trace s' = trace s ++ [Lcr3 (boot_pml4e s - KERNBASE)]) ∨
  ((∀ e, 0 ≤ e < NENV → env_status (env_at s e) ≠ ENV_RUNNABLE ∧
      env_status (env_at s e) ≠ ENV_RUNNING ∧ env_status (env_at s e) ≠ ENV_DYING) ∧
   x = InMonitor ∧ s' = s).

Lemma sched_halt_spec s Q :
  sched_pre s → wpx sched_halt s Q (idle_post s).
Proof.
  intros [Hlk Hct Hb]. unfold sched_halt. wp_steps.
  eapply (wpx_for_range _ _ _ _ _ _ (λ j s', s' = s ∧ ∀ e, 0 ≤ e < j →
      env_status (env_at s e) ≠ ENV_RUNNABLE ∧ env_status (env_at s e) ≠ ENV_RUNNING ∧
      env_status (env_at s e) ≠ ENV_DYING)); [done|split; [done|lia]| |].
  - intros j s' Hj [-> Hno]. wp_steps.
    destruct (Z.eqb_spec (env_status (env_at s j)) ENV_RUNNABLE) as [E1|E1];
      [|destruct (Z.eqb_spec (env_status (env_at s j)) ENV_RUNNING) as [E2|E2];
        [|destruct (Z.eqb_spec (env_status (env_at s j)) ENV_DYING) as [E3|E3]]];
      cbn [orb].
    4:{ split; [done|]. intros e He. destruct (decide (e = j)) as [->|]; [done|].
        apply Hno. lia. }
    all: wp_steps; apply PADDR_spec; [exact Hb|]; unfold lcr3; wp_steps;
      apply spin_unlock_spec; [exact Hlk|]; wp_steps; left; split; [exists j; by eauto|].
    all: split_and!; try done.
    all: unfold curenv, cpu_at, set_cpu_status, set_curenv; cbn;
      rewrite getd_insert_eq; cbn; unfold cpu_at; cbn; by rewrite ?getd_insert_eq.
  - intros s' [-> Hno]. wp_steps. right. by split.
Qed.

Definition yield_post (s : kst) (x : kexit) (s' : kst) : Prop :=
  (∃ k, 1 ≤ k ≤ NENV ∧ runnable s (slot s k) ∧
    (∀ j, 1 ≤ j < k → ¬ runnable s (slot s j)) ∧
    x = ToUser (slot s k) ∧ env_counter s' = slot s k ∧
    if decide (curenv s = Some (slot s k))
    then resumed (slot s k) (set_env_counter (slot s k) s) s'
    else switched (slot s k) (set_env_counter (slot s k) s) s') ∨
  ((∀ e, 0 ≤ e < NENV → ¬ runnable s e) ∧
    match curenv s with
    | Some c => if env_status (env_at s c) =? ENV_RUNNING
                then x = ToUser c ∧ resumed c s s' else idle_post s x s'
    | None => idle_post s x s'
    end).

Lemma sched_yield_spec s Q : sched_pre s → wpx sched_yield s Q (yield_post s).
Proof.
  intros Hpre. pose proof Hpre as [Hlk Hct Hb]. unfold sched_yield. wp_steps.
  change NENV with 1024 in *.
  eapply (wpx_for_range _ _ _ _ _ _ (λ j s', s' = s ∧
      ∀ k, 1 ≤ k < j → ¬ runnable s (slot s k))); [done|split; [done|lia]| |].
  - intros j s' Hj [-> Hno]. wp_steps. rewrite u32_id by lia.
    change ((env_counter s + j) mod 1024) with (slot s j).
    destruct (Z.eqb_spec (env_status (env_at s (slot s j))) ENV_RUNNABLE) as [Er|Er].
    + wp_steps. eapply wpx_mono; [apply (env_run_spec _ _ (λ _ _, False)); exact Hlk|done|].
      intros x s' [-> Hs']. left. exists j.
      split_and!; [lia|change NENV with 1024; lia|exact Er|exact Hno|done| |].
      * destruct (decide _) in Hs'; [exact (re_counter _ _ _ Hs')|exact (sw_counter _ _ _ Hs')].
      * exact Hs'.
    + wp_steps. split; [done|]. intros k Hk. destruct (decide (k = j)) as [->|]; [done|].
      apply Hno. lia.
  - intros s' [-> Hno]. wp_steps.
    assert (Hall : ∀ e, 0 ≤ e < NENV → ¬ runnable s e).
    { intros e He. change NENV with 1024 in He.
      replace e with (slot s (1 + (e - env_counter s - 1) mod 1024)).
      - apply Hno. zlia.
      - unfold slot. change NENV with 1024. zlia. }
    destruct (curenv s) as [c|] eqn:Ec.
    + destruct (env_status (env_at s c) =? ENV_RUNNING) eqn:Er.
      * eapply wpx_mono; [by apply (env_run_spec _ _ (λ _ _, False))|done|].
        intros x s' [-> Hs']. right. split; [done|]. rewrite Ec, Er.
        rewrite decide_True in Hs' by done. by split.
      * eapply wpx_mono; [by apply (sched_halt_spec _ (λ _ _, False))|done|].
        intros x s' Hs'. right. split; [done|]. by rewrite Ec, Er.
    + eapply wpx_mono; [by apply (sched_halt_spec _ (λ _ _, False))|done|].
      intros x s' Hs'. right. split; [done|]. by rewrite Ec.
Qed.

(** ** Properties *)

(** C20. sched_yield is round-robin and never returns.  It runs the first
    runnable environment after [env_counter] in circular order, switching address
    space, marking it running (the environment it leaves becomes runnable again)
    and releasing the kernel lock; with no runnable environment it goes on with
    the current one if that is still running; otherwise it halts the CPU with no
    current environment, or enters the monitor when no environment is runnable,
    running or dying. *)
Theorem sched_yield_correct s :
  sched_pre s → ∃ x s', sched_yield s = Leave x s' ∧ yield_post s x s'.
Proof.
  intros Hpre. pose proof (sched_yield_spec s (λ _ _, False) Hpre) as H.
  unfold wpx in H. destruct (sched_yield s) as [| |]; [done|eauto|done].
Qed.

(** No starvation: however the other environments' states change between
    yields, an environment that stays runnable is run within NENV yields. *)
Theorem sched_yield_fair e (st st' : nat → kst) (x : nat → kexit) :
  0 ≤ e < NENV →
  (∀ n, sched_pre (st n) ∧ runnable (st n) e ∧
        sched_yield (st n) = Leave (x n) (st' n) ∧
        env_counter (st (S n)) = env_counter (st' n)) →
  ∃ n, Z.of_nat n < NENV ∧ x n = ToUser e.
Proof.
  intros He Hrun. change NENV with 1024 in He.
  set (d n := 1 + (e - env_counter (st n) - 1) mod 1024).
  assert (Hstep : ∀ n, x n = ToUser e ∨ d (S n) < d n).
  { intros n. destruct (Hrun n) as (Hpre & Hr & Hy & Hc).
    pose proof (sched_yield_spec (st n) (λ _ _, False) Hpre) as H.
    unfold wpx in H. rewrite Hy in H.
    destruct H as [(k & Hk & Hrk & Hno & -> & Hc' & _)|[Hno _]];
      [|exfalso; by apply (Hno e)].
    change NENV with 1024 in Hk.
    assert (Hd : slot (st n) (d n) = e).
    { unfold slot, d. change NENV with 1024. destruct Hpre as [_ ? _]. zlia. }
    assert (k ≤ d n).
    { destruct (decide (k ≤ d n)); [done|]. exfalso. apply (Hno (d n)).
      - unfold d in *. zlia.
      - by rewrite Hd. }
    destruct (decide (k = d n)) as [->|Hne]; [left; by rewrite Hd|right].
    unfold d at 1. rewrite Hc, Hc'. unfold slot. change NENV with 1024.
    unfold d in *. clear -He H Hne Hk. zlia. }
  assert (Hb : ∀ n, (∃ m, (m < n)%nat ∧ x m = ToUser e) ∨ d n ≤ 1024 - Z.of_nat n).
  { induction n as [|n IH].
    - right. unfold d. zlia.
    - destruct IH as [(m & Hm & Hx)|Hd]; [left; exists m; split; [lia|done]|].
      destruct (Hstep n) as [Hx|Hx]; [left; exists n; split; [lia|done]|].
      right. lia. }
  destruct (Hb 1024%nat) as [(m & Hm & Hx)|Hd].
  - exists m. split; [change NENV with 1024; lia|done].
  - exfalso. unfold d in Hd. zlia.
Qed.

(** env_run on the current environment does not mark it running.  If it is
    runnable (it may make itself so with sys_env_set_status), it runs on this CPU
    with status RUNNABLE, and another CPU's sched_yield runs it a second time. *)
Theorem sched_yield_runs_twice s e c :
  sched_pre s → 0 ≤ e < NENV → curenv s = Some e → runnable s e →
  (∀ q, q ≠ e → ¬ runnable s q) → cpu_env (cpu_at s c) = None →
  ∃ s', sched_yield s = Leave (ToUser e) s' ∧
    ∃ s'', sched_yield (set_kernel_lock (mkLock 1 (Some c)) (set_cpunum c s')) =
             Leave (ToUser e) s''.
Proof.
  intros Hpre He Hcur Hr Hno Hc. pose proof (sched_yield_spec s (λ _ _, False) Hpre) as H.
  unfold wpx in H. destruct (sched_yield s) as [|x s'|]; [done| |done].
  destruct H as [(k & Hk & Hrk & _ & -> & Hct & Hs')|[Hn _]]; [|by destruct (Hn e)].
  assert (Hslot : slot s k = e).
  { destruct (decide (slot s k = e)); [done|]. by destruct (Hno (slot s k)). }
  rewrite Hslot in *. rewrite decide_True in Hs' by done.
  exists s'. split; [done|]. set (t := set_kernel_lock _ _).
  assert (Hrun : ∀ q, runnable t q ↔ q = e).
  { intros q. change (runnable t q) with (runnable s' q). unfold runnable.
    destruct (decide (q = e)) as [->|Hq].
    - rewrite (re_env _ _ _ Hs'). by split.
    - rewrite (re_other _ _ _ Hs') by done. split; [|done]. intros Hq'. by destruct (Hno q). }
  assert (Hpre' : sched_pre t).
  { destruct Hpre as [_ Hc0 Hb]. split; [done| |].
    - change (env_counter t) with (env_counter s'). by rewrite Hct.
    - change (boot_pml4e t) with (boot_pml4e s'). by rewrite (re_boot _ _ _ Hs'). }
  pose proof (sched_yield_spec t (λ _ _, False) Hpre') as H.
  unfold wpx in H. destruct (sched_yield t) as [|x s''|]; [done| |done].
  destruct H as [(k' & _ & Hr' & _ & -> & _)|[Hn _]].
  - apply Hrun in Hr'. rewrite Hr'. by exists s''.
  - destruct (Hn e He). by apply Hrun.
Qed.

(** ** Instances *)

Definition ex_sched : kst := upd_env 0 (set_env_status ENV_RUNNABLE) ex_kst.

Lemma ex_sched_pre : sched_pre ex_kst ∧ sched_pre ex_sched.
Proof. split; split; by vm_compute. Qed.

Lemma sched_yield_correct_witness :
  ∃ s', sched_yield ex_kst = Leave (ToUser 0) s'.
Proof.
  destruct (sched_yield_correct ex_kst (proj1 ex_sched_pre)) as (x & s' & Hy & H).
  exists s'. rewrite Hy. f_equal.
  destruct H as [(k & Hk & Hr & _)|[_ H]].
  - exfalso. revert Hr. unfold runnable, env_at. change (envs ex_kst) with ({[0 := ex_env]} : gmap Z Env).
    unfold getd. destruct (decide (slot ex_kst k = 0)) as [->|Hs].
    + by vm_compute.
    + rewrite lookup_singleton_ne by done. by vm_compute.
  - by destruct H as [-> _].
Defined.

Definition ex_ran : kst :=
  match sched_yield ex_sched with Leave _ s' => s' | _ => ex_sched end.

Lemma sched_yield_fair_witness :
  ∃ n : nat, Z.of_nat n < NENV ∧ ToUser 0 = ToUser 0.
Proof.
  apply (sched_yield_fair 0 (λ _, ex_sched) (λ _, ex_ran) (λ _, ToUser 0)); [by vm_compute|].
  intros n. split_and!; [apply ex_sched_pre|reflexivity|by vm_compute|by vm_compute].
Defined.

Lemma sched_yield_runs_twice_witness :
  ∃ s', sched_yield ex_sched = Leave (ToUser 0) s'.
Proof.
  destruct (sched_yield_runs_twice ex_sched 0 1) as (s' & Hy & _).
  - apply ex_sched_pre.
  - by vm_compute.
  - reflexivity.
  - reflexivity.
  - intros q Hq. unfold runnable. unfold ex_sched. rewrite env_at_upd_ne by done.
    unfold env_at. change (envs ex_kst) with ({[0 := ex_env]} : gmap Z Env).
    unfold getd. rewrite lookup_singleton_ne by done. by vm_compute.
  - reflexivity.
  - by exists s'.
Defined.
