(* ===== verification/E1000.v ===== *)
(** * The network card driver (kern/e1000.c)

    The driver's descriptor rings live in [nic]; packet buffers are physical
    pages.  [hw_send] is the card's side of the transmit ring, from the 8254x
    manual: it sends the descriptor at its head while head and tail differ, and
    reports it done.  The driver's debug printing is left out. *)

From S2P Require Import Prelude Mem KState Pmap PageAlloc UserMem.

Definition NUM_TX_DESC : Z := 64.
Definition NUM_RX_DESC : Z := 64.
Definition E1000_TXD_BUFFER_LENGTH : Z := 0x5EE.

(** Where the linker put the descriptor arrays. *)
Class NicImage := { img_txdesc : Z; img_rxdesc : Z }.

Definition tx0 : tx_desc := mkTx 0 0 0 0.
Definition rx0 : rx_desc := mkRx 0 0 0.

Definition set_txd (v : gmap Z tx_desc) (n : NicState) : NicState :=
  mkNic v (rxDescArr n) (tx_desc_tail n) (rx_desc_tail n) (map_region n).
Definition set_rxd (v : gmap Z rx_desc) (n : NicState) : NicState :=
  mkNic (txDescArr n) v (tx_desc_tail n) (rx_desc_tail n) (map_region n).
Definition set_tx_tail (v : Z) (n : NicState) : NicState :=
  mkNic (txDescArr n) (rxDescArr n) v (rx_desc_tail n) (map_region n).
Definition set_rx_tail (v : Z) (n : NicState) : NicState :=
  mkNic (txDescArr n) (rxDescArr n) (tx_desc_tail n) v (map_region n).
Definition set_reg (r v : Z) (n : NicState) : NicState :=
  mkNic (txDescArr n) (rxDescArr n) (tx_desc_tail n) (rx_desc_tail n)
    (<[Z.shiftr r 2 := u32 v]> (map_region n)).

Definition txd (n : NicState) (i : Z) : tx_desc := getd tx0 (txDescArr n) i.
Definition rxd (n : NicState) (i : Z) : rx_desc := getd rx0 (rxDescArr n) i.
Definition upd_nic (f : NicState → NicState) : K unit :=
  modify (λ s, set_nic (f (nic s)) s).

(** At boot a missing page is taken for a fault. *)
Definition initializeTxDescriptors : K unit :=
  for_each 0 NUM_TX_DESC (λ i,
    p ← page_alloc true; page ← deref p;
    upd_nic (λ n, set_txd (<[i := mkTx (page2pa page) E1000_TXD_BUFFER_LENGTH 0x09 0x1]>
      (txDescArr n)) n)).

Definition initializeRxDescriptors : K unit :=
  for_each 0 NUM_RX_DESC (λ i,
    p ← page_alloc true; page ← deref p;
    upd_nic (λ n, set_rxd (<[i := mkRx (page2pa page) (rx_length (rxd n i))
      (rx_status (rxd n i))]> (rxDescArr n)) n)).

(** The descriptor at the tail takes a packet of [n] bytes; [None]: still busy. *)
Definition tx_push (len : Z) (n : NicState) : option NicState :=
  let t := tx_desc_tail n in
  let d := txd n t in
  if Z.land (tx_status d) 0x1 =? 0 then None
  else
    let t' := (t + 1) mod NUM_TX_DESC in
    Some (set_reg 0x3818 t' (set_tx_tail t'
      (set_txd (<[t := mkTx (tx_addr d) (u16 len) (tx_cmd d) 0]> (txDescArr n)) n))).

(** [src] is a user address in the address space [cr3]. *)
Definition pci_transmit_packet (cr3 src n : Z) : K Z :=
  if E1000_TXD_BUFFER_LENGTH <? n then mret (-1)
  else
    s ← get;
    match tx_push n (nic s) with
    | None => mret (-1)
    | Some nic' =>
        pg ← pa2page (tx_addr (txd (nic s) (tx_desc_tail (nic s))));
        va ← page2kva pg;
        for_each 0 n (λ i,
          b ← uread8 cr3 (u64 (src + i));
          modify (λ s, set_k_mem (stb (k_mem s) (va - KERNBASE + i) b) s));;
        upd_nic (λ _, nic');;
        mret 0
    end.

Definition pci_receive_packet (cr3 dst : Z) : K Z :=
  s ← get;
  let t := (rx_desc_tail (nic s) + 1) mod NUM_RX_DESC in
  let d := rxd (nic s) t in
  if Z.land (rx_status d) 0x1 =? 0 then mret (-1)
  else
    upd_nic (set_rx_tail t);;
    if Z.land (rx_status d) 0x2 =? 0 then panic
    else
      let n := rx_length d in
      pg ← pa2page (rx_addr d);
      va ← page2kva pg;
      for_each 0 n (λ i, b ← kread 1 (va + i); uwrite8 cr3 (u64 (dst + i)) b);;
      upd_nic (λ x, set_reg 0x2818 t (set_rxd
        (<[t := mkRx (rx_addr d) (rx_length d) (Z.land (rx_status d) 0xfc)]>
           (rxDescArr x)) x));;
      mret n.

Section attach.
Context `{NicImage}.

(** pci_func_enable only talks to PCI configuration space. *)
Definition pci_func_attach_E1000 (reg_base reg_size : Z) : K Z :=
  _ ← mmio_map_region reg_base reg_size;
  tp ← PADDR img_txdesc;
  rp ← PADDR img_rxdesc;
  upd_nic (λ n,
    set_reg 0x5404 (Z.lor 0x5634 0x80000000) (set_reg 0x5400 0x12005452
    (set_reg 0x5200 0 (set_reg 0x2808 (Z.shiftl NUM_RX_DESC 4) (set_reg 0x2800 rp
    (set_reg 0x100 0x4008002 (set_reg 0x2818 0 (set_reg 0x2810 1
    (set_reg 0x3808 (Z.shiftl NUM_TX_DESC 4) (set_reg 0x3800 tp
    (set_reg 0x410 0x60200A (set_reg 0x400 0x4008A
    (set_reg 0x3818 0 (set_reg 0x3810 0 n))))))))))))));;
  initializeTxDescriptors;;
  initializeRxDescriptors;;
  mret 0.
End attach.

(** ** The transmit ring *)

(** Driver and card: the ring, the card's head, and the lengths sent so far. *)
Record tx_sys : Type := mkTxSys { tx_nic : NicState; tx_head : Z; tx_sent : list Z }.

(** The card, reading the tail register. *)
Definition hw_send (x : tx_sys) : option tx_sys :=
  let n := tx_nic x in
  let h := tx_head x in
  if h =? getd 0 (map_region n) (Z.shiftr 0x3818 2) then None
  else
    let d := txd n h in
    Some (mkTxSys
      (set_txd (<[h := mkTx (tx_addr d) (tx_length d) (tx_cmd d) (Z.lor (tx_status d) 1)]>
         (txDescArr n)) n)
      ((h + 1) mod NUM_TX_DESC) (tx_sent x ++ [tx_length d])).

Inductive tx_step : tx_sys → tx_sys → Prop :=
  | tx_transmit len x n' : 0 ≤ len ≤ E1000_TXD_BUFFER_LENGTH →
      tx_push len (tx_nic x) = Some n' →
      tx_step x (mkTxSys n' (tx_head x) (tx_sent x))
  | tx_card x x' : hw_send x = Some x' → tx_step x x'.

(** The packets handed over and not yet sent, in order, are the [k] descriptors
    from the head; they are busy and the others are done. *)
Record tx_inv (x : tx_sys) (q : list Z) : Prop := {
  ti_head : 0 ≤ tx_head x < NUM_TX_DESC;
  ti_len : Z.of_nat (length q) ≤ NUM_TX_DESC;
  ti_tail : tx_desc_tail (tx_nic x) = (tx_head x + Z.of_nat (length q)) mod NUM_TX_DESC;
  ti_reg : getd 0 (map_region (tx_nic x)) (Z.shiftr 0x3818 2) = tx_desc_tail (tx_nic x);
  ti_busy : ∀ i : nat, (i < length q)%nat →
    let d := txd (tx_nic x) ((tx_head x + Z.of_nat i) mod NUM_TX_DESC) in
    tx_status d = 0 ∧ q !! i = Some (tx_length d);
  ti_done : ∀ i, Z.of_nat (length q) ≤ i < NUM_TX_DESC →
    Z.land (tx_status (txd (tx_nic x) ((tx_head x + i) mod NUM_TX_DESC))) 1 = 1
}.

Section tx_ring.
Implicit Types (x : tx_sys) (q : list Z).

Lemma txd_insert n i d j :
  txd (set_txd (<[i := d]> (txDescArr n)) n) j = if decide (i = j) then d else txd n j.
Proof. unfold txd. cbn [txDescArr set_txd]. by rewrite getd_insert. Qed.

Lemma mod64_inj h i j :
  0 ≤ i < 64 → 0 ≤ j < 64 → (h + i) mod 64 = (h + j) mod 64 → i = j.
Proof. intros. zlia. Qed.

Lemma tx_push_full x q len :
  tx_inv x q → Z.of_nat (length q) = NUM_TX_DESC → tx_push len (tx_nic x) = None.
Proof.
  intros [Hh Hl Ht Hr Hb Hd] Hf. unfold tx_push. unfold NUM_TX_DESC in *.
  assert (tx_desc_tail (tx_nic x) = (tx_head x + Z.of_nat 0) mod 64) as ->.
  { rewrite Ht, Hf. cbn. zlia. }
  destruct (Hb 0%nat) as [-> _]; [lia|done].
Qed.

Lemma tx_push_ok x q len :
  tx_inv x q → Z.of_nat (length q) < NUM_TX_DESC → 0 ≤ len < 65536 →
  ∃ n', tx_push len (tx_nic x) = Some n' ∧
    tx_inv (mkTxSys n' (tx_head x) (tx_sent x)) (q ++ [len]).
Proof.
  intros [Hh Hl Ht Hr Hb Hd] Hf Hlen. unfold tx_push, NUM_TX_DESC in *.
  set (k := Z.of_nat (length q)) in *.
  rewrite Ht. rewrite Hd by lia. cbn [Z.eqb]. eexists. split; [reflexivity|].
  split; cbn [tx_nic tx_head tx_sent]; unfold NUM_TX_DESC.
  - done.
  - rewrite length_app. cbn. lia.
  - cbn. rewrite length_app. cbn. fold k. unfold k. zlia.
  - cbn [map_region set_reg set_tx_tail set_txd tx_desc_tail]. rewrite getd_insert_eq.
    apply u32_id. zlia.
  - intros i Hi. rewrite length_app in Hi. cbn in Hi.
    change (txd (set_reg ?a ?b (set_tx_tail ?c ?n))) with (txd n). rewrite txd_insert.
    destruct (decide (i = length q)) as [->|Hne].
    + rewrite decide_True by done. cbn. rewrite u16_id by done. split; [done|].
      rewrite lookup_app_r by lia. by rewrite Nat.sub_diag.
    + rewrite decide_False by (intros E; apply mod64_inj in E; unfold k in *; lia).
      rewrite lookup_app_l by lia. apply Hb. lia.
  - intros i Hi. rewrite length_app in Hi. cbn in Hi.
    change (txd (set_reg ?a ?b (set_tx_tail ?c ?n))) with (txd n). rewrite txd_insert.
    rewrite decide_False by (intros E; apply mod64_inj in E; unfold k in *; lia).
    apply Hd. lia.
Qed.

Lemma hw_send_ok x l q :
  tx_inv x (l :: q) → Z.of_nat (length (l :: q)) < NUM_TX_DESC →
  ∃ x', hw_send x = Some x' ∧ tx_sent x' = tx_sent x ++ [l] ∧ tx_inv x' q.
Proof.
  intros [Hh Hl Ht Hr Hb Hd] Hf. unfold hw_send, NUM_TX_DESC in *. cbn [length] in *.
  rewrite Hr, Ht. rewrite (proj2 (Z.eqb_neq _ _)) by zlia.
  destruct (Hb 0%nat) as [Hs0 Hl0]; [lia|].
  assert (Hh0 : (tx_head x + Z.of_nat 0) mod 64 = tx_head x) by zlia.
  rewrite Hh0 in *. cbn in Hl0. injection Hl0 as Hl0.
  eexists. split; [reflexivity|]. split; [cbn; by rewrite <- Hl0|].
  assert (Hshift : ∀ i, ((tx_head x + 1) mod 64 + i) mod 64 = (tx_head x + (i + 1)) mod 64)
    by (intros; zlia).
  split; cbn [tx_nic tx_head tx_sent]; unfold NUM_TX_DESC.
  - zlia.
  - lia.
  - cbn. rewrite Ht, Hshift. f_equal. lia.
  - exact Hr.
  - intros i Hi. rewrite txd_insert, Hshift.
    rewrite decide_False by zlia.
    replace (Z.of_nat i + 1) with (Z.of_nat (S i)) by lia. apply (Hb (S i)). lia.
  - intros i Hi. rewrite txd_insert, Hshift. case_decide as E.
    + cbn. rewrite Hs0. done.
    + apply Hd. assert (i ≠ 63) by (intros ->; apply E; zlia). lia.
Qed.

Lemma hw_send_idle x q :
  tx_inv x q → length q = 0%nat ∨ Z.of_nat (length q) = NUM_TX_DESC → hw_send x = None.
Proof.
  intros [Hh _ Ht Hr _ _] Hq. unfold hw_send, NUM_TX_DESC in *.
  rewrite Hr, Ht. rewrite (proj2 (Z.eqb_eq _ _)); [done|]. destruct Hq as [-> | ->]; zlia.
Qed.

Lemma tx_inv_step x q x' : tx_inv x q → tx_step x x' → ∃ q', tx_inv x' q'.
Proof.
  intros Hinv Hs. pose proof (ti_len _ _ Hinv) as Hl.
  destruct Hs as [len x n' Hlen Hp|x x' Hw].
  - destruct (decide (Z.of_nat (length q) = NUM_TX_DESC)) as [Hf|Hf].
    + by rewrite (tx_push_full x q len) in Hp.
    + unfold E1000_TXD_BUFFER_LENGTH in Hlen.
      destruct (tx_push_ok x q len) as (n'' & Hp' & Hi); [done|lia|lia|].
      rewrite Hp in Hp'. injection Hp' as <-. eauto.
  - destruct q as [|l q].
    { by rewrite (hw_send_idle x []) in Hw by auto. }
    destruct (decide (Z.of_nat (length (l :: q)) = NUM_TX_DESC)) as [Hf|Hf].
    { by rewrite (hw_send_idle x (l :: q)) in Hw by auto. }
    destruct (hw_send_ok x l q) as (x'' & Hw' & _ & Hi); [done|lia|].
    rewrite Hw in Hw'. injection Hw' as <-. eauto.
Qed.

(** After pci_func_attach_E1000: every descriptor is done, both ends at 0. *)
Definition tx_initial x : Prop :=
  tx_head x = 0 ∧ tx_desc_tail (tx_nic x) = 0 ∧ tx_sent x = [] ∧
  getd 0 (map_region (tx_nic x)) (Z.shiftr 0x3818 2) = 0 ∧
  ∀ i, 0 ≤ i < NUM_TX_DESC → tx_status (txd (tx_nic x) i) = 1.

Inductive tx_reach : tx_sys → Prop :=
  | tx_reach_init x : tx_initial x → tx_reach x
  | tx_reach_step x y : tx_reach x → tx_step x y → tx_reach y.

Lemma tx_reach_inv x : tx_reach x → ∃ q, tx_inv x q.
Proof.
  induction 1 as [x (Hh & Ht & _ & Hr & Hs)|x y _ [q Hq] Hst]; [|by eapply tx_inv_step].
  exists []. split; rewrite ?Hh, ?Ht; try done.
  - cbn. lia.
  - intros i Hi. unfold NUM_TX_DESC in *. cbn in Hi. rewrite Hs by zlia. done.
Qed.
End tx_ring.

(** The transmit ring is a FIFO of at most 64 packets.  In every
    interleaving of the driver and the card, with [q] the packets accepted and not
    yet sent: the driver accepts a packet exactly when [q] holds fewer than 64, and
    appends it without touching a descriptor the card still owns; the card, when
    it has work (0 < |q| < 64), sends the oldest packet next. *)
Theorem tx_ring_fifo x :
  tx_reach x → ∃ q, tx_inv x q ∧
    (∀ len, 0 ≤ len ≤ E1000_TXD_BUFFER_LENGTH →
      match tx_push len (tx_nic x) with
      | Some n' => Z.of_nat (length q) < 64 ∧
                   tx_inv (mkTxSys n' (tx_head x) (tx_sent x)) (q ++ [len])
      | None => Z.of_nat (length q) = 64
      end) ∧
    match hw_send x, q with
    | Some x', l :: q' => tx_sent x' = tx_sent x ++ [l] ∧ tx_inv x' q'
    | Some _, [] => False
    | None, _ => q = [] ∨ Z.of_nat (length q) = 64
    end.
Proof.
  intros [q Hq]%tx_reach_inv. exists q. pose proof (ti_len _ _ Hq) as Hl.
  change NUM_TX_DESC with 64 in Hl. split_and!; [done| |].
  - intros len Hlen. destruct (decide (Z.of_nat (length q) = 64)) as [Hf|Hf].
    + by rewrite (tx_push_full x q len).
    + unfold E1000_TXD_BUFFER_LENGTH in Hlen.
      destruct (tx_push_ok x q len) as (n' & -> & Hi);
        [done|change NUM_TX_DESC with 64; lia|lia|]. split; [lia|done].
  - destruct q as [|l q]; [rewrite (hw_send_idle x []) by auto; by left|].
    destruct (decide (Z.of_nat (length (l :: q)) = 64)) as [Hf|Hf].
    + rewrite (hw_send_idle x (l :: q)) by auto. by right.
    + destruct (hw_send_ok x l q) as (x' & -> & Hs & Hi);
        [done|change NUM_TX_DESC with 64; lia|]. done.
Qed.

Fixpoint tx_fill (n : nat) (x : tx_sys) : tx_sys :=
  match n with
  | O => x
  | S n' => match tx_push 60 (tx_nic x) with
            | Some nic' => tx_fill n' (mkTxSys nic' (tx_head x) (tx_sent x))
            | None => x
            end
  end.

Lemma tx_fill_reach n x : tx_reach x → tx_reach (tx_fill n x).
Proof.
  revert x. induction n as [|n IH]; intros x Hx; [done|]. cbn [tx_fill].
  destruct (tx_push 60 (tx_nic x)) as [n'|] eqn:E; [|done].
  apply IH. eapply tx_reach_step; [exact Hx|]. eapply tx_transmit; [|exact E].
  by unfold E1000_TXD_BUFFER_LENGTH.
Qed.

Lemma tx_push_none x q len :
  tx_inv x q → 0 ≤ len < 65536 → tx_push len (tx_nic x) = None →
  Z.of_nat (length q) = 64.
Proof.
  intros Hq Hl Hn. pose proof (ti_len _ _ Hq) as Hlen.
  destruct (decide (Z.of_nat (length q) = NUM_TX_DESC)) as [Hf|Hf]; [exact Hf|].
  destruct (tx_push_ok x q len) as (n' & E & _); [exact Hq|lia|exact Hl|].
  by rewrite E in Hn.
Qed.

(** The driver can fill all 64 descriptors; tail and head are then equal, which
    the card reads as an empty ring, and nothing is ever sent again. *)
Theorem tx_ring_stalls x :
  tx_reach x → (∃ q, tx_inv x q ∧ Z.of_nat (length q) = 64) → ∀ x', ¬ tx_step x x'.
Proof.
  intros _ (q & Hq & Hf) x' Hs. destruct Hs as [len x n' _ Hp|x x' Hw].
  - by rewrite (tx_push_full x q len) in Hp.
  - by rewrite (hw_send_idle x q) in Hw by auto.
Qed.

(** ** Instances *)

Definition ex_tx0 : tx_sys :=
  mkTxSys (mkNic (list_to_map ((λ i, (i, mkTx 0 0 9 1)) <$> seqZ 0 64)) ∅ 0 0 ∅) 0 [].

Lemma ex_tx_reach : tx_reach ex_tx0.
Proof.
  apply tx_reach_init. split_and!; [done..|].
  intros i Hi. change NUM_TX_DESC with 64 in Hi.
  assert (H : forallb (λ i, tx_status (txd (tx_nic ex_tx0) i) =? 1) (seqZ 0 64) = true)
    by (vm_compute; reflexivity).
  rewrite forallb_forall in H. apply Z.eqb_eq, H, list_elem_of_In, elem_of_seqZ. lia.
Qed.

Lemma tx_ring_fifo_witness : ∃ n', tx_push 60 (tx_nic ex_tx0) = Some n'.
Proof.
  assert (0 ≤ 60 ≤ E1000_TXD_BUFFER_LENGTH) as H60 by (unfold E1000_TXD_BUFFER_LENGTH; lia).
  assert (tx_push 60 (tx_nic ex_tx0) ≠ None) as Hne by (vm_compute; discriminate).
  destruct (tx_ring_fifo ex_tx0 ex_tx_reach) as (q & Hq & Hp & _).
  pose proof (Hp 60 H60) as Hp60. revert Hne Hp60.
  generalize (tx_push 60 (tx_nic ex_tx0)). intros [n'|] Hne _; [by exists n'|congruence].
Defined.

(** 64 transmissions before the card sends anything. *)
Lemma tx_ring_stalls_witness :
  tx_push 60 (tx_nic (tx_fill 64 ex_tx0)) = None ∧ ∀ x', ¬ tx_step (tx_fill 64 ex_tx0) x'.
Proof.
  assert (Hnone : tx_push 60 (tx_nic (tx_fill 64 ex_tx0)) = None) by (vm_compute; reflexivity).
  split; [exact Hnone|]. revert Hnone. pose proof (tx_fill_reach 64 _ ex_tx_reach) as Hr.
  revert Hr. generalize (tx_fill 64 ex_tx0). intros x Hr Hnone.
  apply tx_ring_stalls; [exact Hr|]. destruct (tx_reach_inv _ Hr) as [q Hq].
  exists q. split; [exact Hq|]. apply (tx_push_none x q 60); [exact Hq|lia|exact Hnone].
Defined.
