(* ===== verification/Syscall.v ===== *)
(** * System calls (kern/syscall.c)

    Every handler and the dispatcher.  A handler's [uint32_t result] that is
    returned as [int] is the integer itself.  User memory is accessed under the
    page tables of the current environment ([user_cr3]). *)

From S2P Require Import Prelude Mem Printfmt KState Pmap PageAlloc PageTable Mapping.
From S2P Require Import Spinlock Time UserMem Env Sched E1000.
From S2P Require Console.

Definition user_cr3 : K Z :=
  s ← get; e ← deref (curenv s); mret (env_cr3 (env_at s e)).

(** [cprintf("%.*s", len, s)]: the precision is [(int) len]; when it is negative,
    up to the first NUL. *)
Definition sys_cputs (va len : Z) : K unit :=
  s ← get; e ← deref (curenv s);
  user_mem_assert e va len PTE_U;;
  cr3 ← user_cr3;
  let n := if i32 len <? 0 then 2 ^ 48 else i32 len in
  bytes ← uread_str (Z.to_nat n) cr3 va;
  modify (emit (Cputs bytes)).

Definition sys_cgetc : K Z :=
  s ← get;
  let '(ch, c) := Console.cons_getc (cons s) in
  modify (set_cons c);; mret ch.

Definition sys_getenvid : K Z :=
  s ← get; e ← deref (curenv s); mret (env_id (env_at s e)).

Definition sys_env_destroy (envid : Z) : K Z :=
  r ← envid2env envid true;
  if fst r <? 0 then mret (fst r)
  else e ← deref (snd r); env_destroy e;; mret 0.

Definition sys_yield : K unit := sched_yield.

Definition sys_exofork : K Z :=
  s ← get; cur ← deref (curenv s);
  r ← env_alloc (env_id (env_at s cur));
  if negb (fst r =? 0) then mret (fst r)
  else
    e ← deref (snd r);
    upd_env_m e (set_env_status ENV_NOT_RUNNABLE);;
    s ← get;
    upd_env_m e (set_env_tf (env_tf (env_at s cur)));;
    upd_env_m e (λ v, set_env_tf (set_tf_regs (set_reg_rax 0 (tf_regs (env_tf v))) (env_tf v)) v);;
    s ← get; mret (env_id (env_at s e)).

Definition sys_env_set_status (envid status : Z) : K Z :=
  r ← envid2env envid true;
  if negb (fst r =? 0) then mret (fst r)
  else if (status <? 0) || (4 <? status) then mret (- E_INVAL)
  else
    e ← deref (snd r);
    upd_env_m e (set_env_status status);; mret (fst r).

(** Layout of struct Trapframe. *)
Definition read_regs (cr3 va : Z) : K PushRegs :=
  r15 ← uread 8 cr3 va; r14 ← uread 8 cr3 (va + 8); r13 ← uread 8 cr3 (va + 16);
  r12 ← uread 8 cr3 (va + 24); r11 ← uread 8 cr3 (va + 32); r10 ← uread 8 cr3 (va + 40);
  r9 ← uread 8 cr3 (va + 48); r8 ← uread 8 cr3 (va + 56); rsi ← uread 8 cr3 (va + 64);
  rdi ← uread 8 cr3 (va + 72); rbp ← uread 8 cr3 (va + 80); rdx ← uread 8 cr3 (va + 88);
  rcx ← uread 8 cr3 (va + 96); rbx ← uread 8 cr3 (va + 104); rax ← uread 8 cr3 (va + 112);
  mret (mkPushRegs r15 r14 r13 r12 r11 r10 r9 r8 rsi rdi rbp rdx rcx rbx rax).
Definition read_tf (cr3 va : Z) : K Trapframe :=
  regs ← read_regs cr3 va;
  es ← uread 2 cr3 (va + 120); ds ← uread 2 cr3 (va + 128);
  trapno ← uread 8 cr3 (va + 136); err ← uread 8 cr3 (va + 144);
  rip ← uread 8 cr3 (va + 152); cs ← uread 2 cr3 (va + 160);
  eflags ← uread 8 cr3 (va + 168); rsp ← uread 8 cr3 (va + 176);
  ss ← uread 2 cr3 (va + 184);
  mret (mkTrapframe regs es ds trapno err rip cs eflags rsp ss).

(** [result] is unsigned, so [result < 0] never holds: a bad [envid] goes on to
    store through the NULL that envid2env left. *)
Definition sys_env_set_trapframe (envid tf : Z) : K Z :=
  if tf =? 0 then mret (- E_BAD_ENV)
  else
    r ← envid2env envid true;
    cr3 ← user_cr3;
    cs ← uread 2 cr3 (tf + 160);
    uwrite 2 cr3 (tf + 160) (Z.lor cs 3);;
    fl ← uread 8 cr3 (tf + 168);
    uwrite 8 cr3 (tf + 168) (Z.lor fl FL_IF);;
    v ← read_tf cr3 tf;
    e ← deref (snd r);
    upd_env_m e (set_env_tf v);; mret (fst r).

Definition sys_env_set_pgfault_upcall (envid func : Z) : K Z :=
  r ← envid2env envid true;
  if negb (fst r =? 0) then mret (fst r)
  else e ← deref (snd r); upd_env_m e (set_env_pgfault_upcall func);; mret 0.

(** The permission test shared by sys_page_alloc and sys_page_map. *)
Definition perm_ok (perm : Z) : bool :=
  truthy (Z.land perm PTE_U) && truthy (Z.land perm PTE_P) &&
  negb (truthy (Z.land perm (Z.lnot PTE_SYSCALL))).

Definition sys_page_alloc (envid va perm : Z) : K Z :=
  r ← envid2env envid true;
  if negb (fst r =? 0) then mret (fst r)
  else if negb (perm_ok perm) then mret (- E_INVAL)
  else if negb (va mod PGSIZE =? 0) || (UTOP <? va) then mret (- E_INVAL)
  else
    pp ← page_alloc false;
    match pp with
    | None => mret (- E_NO_MEM)
    | Some _ =>
        e ← deref (snd r); s ← get;
        page_insert (env_pml4e (env_at s e)) pp va (Z.lor perm PTE_P)
    end.

Definition sys_page_map (srcenvid srcva dstenvid dstva perm : Z) : K Z :=
  rs ← envid2env srcenvid true;
  if negb (fst rs =? 0) then mret (fst rs)
  else
    rd ← envid2env dstenvid false;
    if negb (fst rd =? 0) then mret (fst rd)
    else if negb (perm_ok perm) then mret (- E_INVAL)
    else if (negb (dstva mod PGSIZE =? 0) || (UTOP <? dstva)) ||
            (negb (srcva mod PGSIZE =? 0) || (UTOP <? srcva)) then mret (- E_INVAL)
    else
      src ← deref (snd rs); s ← get;
      l ← page_lookup (env_pml4e (env_at s src)) srcva;
      match l with
      | None => mret (- E_INVAL)
      | Some (pp, pte_store) =>
          e ← kload pte_store;
          if (Z.land e PTE_W =? 0) && negb (Z.land perm PTE_W =? 0) then mret (- E_INVAL)
          else
            dst ← deref (snd rd); s ← get;
            page_insert (env_pml4e (env_at s dst)) (Some pp) dstva perm
      end.

Definition sys_page_unmap (envid va : Z) : K Z :=
  r ← envid2env envid true;
  if negb (fst r =? 0) then mret (- E_BAD_ENV)
  else if (va =? 0) || (UTOP <=? va) || negb (va mod PGSIZE =? 0) then mret (- E_INVAL)
  else
    e ← deref (snd r); s ← get;
    page_remove (env_pml4e (env_at s e)) va;; mret 0.

(** Where the lookup fails for [srcva >= UTOP], the code reads [*pte_store]
    through an uninitialised pointer; the value is not used, and the read is
    left out.  The result of sys_page_map is tested with [0 <], which no result
    satisfies, so a failed mapping is not reported. *)
Definition sys_ipc_try_send (envid value srcva perm : Z) : K Z :=
  let perm := Z.lor perm PTE_P in
  rd ← envid2env envid false;
  if negb (fst rd =? 0) then mret (- E_BAD_ENV)
  else
    rs ← envid2env 0 false;
    if negb (fst rs =? 0) then mret (- E_BAD_ENV)
    else
      dst ← deref (snd rd); s ← get;
      if env_ipc_recving (env_at s dst) =? 0 then mret (- E_IPC_NOT_RECV)
      else
        src ← deref (snd rs);
        l ← page_lookup (env_pml4e (env_at s src)) srcva;
        srcperm ← match l with
                  | Some (_, pte_store) => e ← kload pte_store; mret (Some (Z.land e PTE_SYSCALL))
                  | None => mret (if srcva <? UTOP then None else Some 0)
                  end;
        match srcperm with
        | None => mret (- E_INVAL)
        | Some srcperm =>
            if (srcva <? UTOP) &&
               (negb (srcva mod PGSIZE =? 0) ||
                negb (Z.land srcperm (Z.lor PTE_U PTE_P) =? Z.lor PTE_U PTE_P))
            then mret (- E_INVAL)
            else if (srcva <? UTOP) && negb (Z.land perm PTE_W =? 0) &&
                    (Z.land srcperm PTE_W =? 0)
            then mret (- E_INVAL)
            else
              s ← get;
              if envid =? env_id (env_at s src) then panic
              else
                upd_env_m dst (set_env_ipc_recving 0);;
                upd_env_m dst (set_env_ipc_from (env_id (env_at s src)));;
                upd_env_m dst (set_env_ipc_value value);;
                s ← get;
                r ← (if (srcva <? UTOP) && (env_ipc_dstva (env_at s dst) <? UTOP) then
                       upd_env_m dst (set_env_ipc_perm perm);;
                       sys_page_map (env_id (env_at s src)) srcva (env_id (env_at s dst))
                         (env_ipc_dstva (env_at s dst)) (i32 perm)
                     else mret 0);
                if 0 <? r then mret (- E_NO_MEM)
                else upd_env_m dst (set_env_status ENV_RUNNABLE);; mret 0
        end.

Definition sys_ipc_recv (dstva : Z) : K Z :=
  r ← envid2env 0 false;
  if negb (fst r =? 0) then mret (- E_BAD_ENV)
  else if (dstva <? UTOP) && negb (dstva mod PGSIZE =? 0) then mret (- E_INVAL)
  else
    e ← deref (snd r);
    when (dstva <? UTOP) (upd_env_m e (set_env_ipc_dstva dstva));;
    upd_env_m e (set_env_ipc_recving 1);;
    upd_env_m e (set_env_status ENV_NOT_RUNNABLE);;
    upd_env_m e (λ v, set_env_tf (set_tf_regs (set_reg_rax 0 (tf_regs (env_tf v))) (env_tf v)) v);;
    sys_yield;;
    mret 0.

Definition sys_time_msec : K Z := t ← time_msec; mret (i32 t).

Definition sys_net_rx (buf : Z) : K Z :=
  s ← get; e ← deref (curenv s);
  user_mem_assert e buf PGSIZE PTE_U;;
  cr3 ← user_cr3; pci_receive_packet cr3 buf.

Definition sys_net_tx (buf size : Z) : K Z :=
  s ← get; e ← deref (curenv s);
  user_mem_assert e buf size PTE_U;;
  cr3 ← user_cr3; pci_transmit_packet cr3 buf size.

(** System call numbers, inc/syscall.h. *)
Definition SYS_cputs : Z := 0.
Definition SYS_cgetc : Z := 1.
Definition SYS_getenvid : Z := 2.
Definition SYS_env_destroy : Z := 3.
Definition SYS_page_alloc : Z := 4.
Definition SYS_page_map : Z := 5.
Definition SYS_page_unmap : Z := 6.
Definition SYS_exofork : Z := 7.
Definition SYS_env_set_status : Z := 8.
Definition SYS_env_set_trapframe : Z := 9.
Definition SYS_env_set_pgfault_upcall : Z := 10.
Definition SYS_yield : Z := 11.
Definition SYS_ipc_try_send : Z := 12.
Definition SYS_ipc_recv : Z := 13.
Definition SYS_time_msec : Z := 14.
Definition SYS_net_tx : Z := 15.
Definition SYS_net_rx : Z := 16.

(** Arguments are 64-bit registers, truncated to the handlers' parameters. *)
Definition syscall (syscallno a1 a2 a3 a4 a5 : Z) : K Z :=
  if syscallno =? SYS_cputs then sys_cputs a1 a2;; mret 0
  else if syscallno =? SYS_cgetc then sys_cgetc
  else if syscallno =? SYS_getenvid then sys_getenvid
  else if syscallno =? SYS_env_destroy then sys_env_destroy (i32 a1)
  else if syscallno =? SYS_yield then sys_yield;; mret 0
  else if syscallno =? SYS_exofork then sys_exofork
  else if syscallno =? SYS_env_set_status then sys_env_set_status (i32 a1) (i32 a2)
  else if syscallno =? SYS_env_set_pgfault_upcall then sys_env_set_pgfault_upcall (i32 a1) a2
  else if syscallno =? SYS_ipc_try_send then sys_ipc_try_send (i32 a1) (u32 a2) a3 (u32 a4)
  else if syscallno =? SYS_ipc_recv then sys_ipc_recv a1
  else if syscallno =? SYS_page_alloc then sys_page_alloc (i32 a1) a2 (i32 a3)
  else if syscallno =? SYS_page_map then sys_page_map (i32 a1) a2 (i32 a3) a4 (i32 a5)
  else if syscallno =? SYS_page_unmap then sys_page_unmap (i32 a1) a2
  else if syscallno =? SYS_env_set_trapframe then sys_env_set_trapframe (i32 a1) a2
  else if syscallno =? SYS_net_rx then sys_net_rx a1
  else if syscallno =? SYS_net_tx then sys_net_tx a1 a2
  else if syscallno =? SYS_time_msec then sys_time_msec
  else mret (- E_NO_SYS).

(** ** Lemmas *)

(** envid2env as a function of the state: it neither fails nor changes anything
    when there is a current environment. *)
Definition named_env (s : kst) (cur envid : Z) (checkperm : bool) : option Z :=
  if envid =? 0 then Some cur
  else
    let v := env_at s (ENVX envid) in
    if (env_status v =? ENV_FREE) || negb (env_id v =? envid) then None
    else if checkperm && negb (bool_decide (ENVX envid = cur)) &&
            negb (env_parent_id v =? env_id (env_at s cur)) then None
    else Some (ENVX envid).

Lemma envid2env_spec s cur envid checkperm Q E :
  curenv s = Some cur →
  Q (match named_env s cur envid checkperm with
     | Some e => (0, Some e) | None => (- E_BAD_ENV, None) end) s →
  wpx (envid2env envid checkperm) s Q E.
Proof.
  intros Hcur HQ. unfold envid2env, named_env in *. wp_steps. rewrite Hcur.
  destruct (envid =? 0); [by wp_steps|].
  destruct ((_ =? ENV_FREE) || _); [by wp_steps|].
  destruct checkperm; cbn [andb] in *; [|by wp_steps].
  assert (bool_decide (Some (ENVX envid) = Some cur) = bool_decide (ENVX envid = cur)) as ->.
  { apply bool_decide_ext. split; congruence. }
  case_bool_decide as Hd; cbn [negb andb] in *; [by wp_steps|].
  wp_steps. apply deref_spec. destruct (_ =? _) in *; cbn [negb] in *; by wp_steps.
Qed.

Lemma perm_ok_range perm : perm_ok perm = true → 0 ≤ perm < 4096.
Proof.
  unfold perm_ok, truthy. rewrite !andb_true_iff, !negb_true_iff, negb_false_iff.
  intros [_ H%Z.eqb_eq]. rewrite <- Z.ldiff_land in H.
  apply Z.ldiff_le in H; [|done]. change PTE_SYSCALL with 3591 in H. lia.
Qed.

Lemma pt_inv_alloc s root p l :
  pt_inv s root (p :: l) → pt_inv (alloc_state false p s) root l.
Proof.
  intros [Hb Hn Hf Hr Hi]. split; [done|done|by apply free_list_alloc| |done].
  intros q t Hq Ht. destruct (Hr q t Hq Ht). set_solver.
Qed.

Lemma alloc_page s root p l q :
  pt_inv s root (p :: l) →
  page_at (alloc_state false p s) q = if decide (q = p) then mkPage None 0 else page_at s q.
Proof.
  intros Hinv. unfold alloc_state. rewrite page_at_upd. destruct (decide (p = q)) as [->|].
  - rewrite decide_True by done. unfold set_link.
    change (page_at (set_page_free_list _ s) q) with (page_at s q).
    destruct (pi_free _ _ _ Hinv) as [_ _ _ Hf]. inversion Hf as [|?? E]; subst. by rewrite E.
  - by rewrite decide_False by congruence.
Qed.

Lemma user_page_alloc s root p l pg :
  pt_inv s root (p :: l) → user_page s root (p :: l) pg →
  user_page (alloc_state false p s) root l pg.
Proof.
  intros Hinv [Hr Hf Href Hlk Ht]. pose proof (alloc_page s root p l pg Hinv) as Hp.
  rewrite decide_False in Hp by set_solver.
  split; rewrite ?Hp; try done. set_solver.
Qed.

Lemma UTOP_va_ok va : 0 ≤ va ≤ UTOP → va_ok va.
Proof. intros. apply va_ok_user. assert (UTOP < ULIM) by done. lia. Qed.

(** ** Properties *)

(** The target of a memory system call: an environment whose address space
    satisfies the page-table invariant. *)
Record vm_env (s : kst) (e root : Z) (l : list Z) : Prop := {
  ve_pml4e : env_pml4e (env_at s e) = tab_kva root;
  ve_inv : pt_inv s root l
}.

(** C19. sys_page_alloc, on every branch.  The errors come in the order of the
    code's tests and change nothing.  Otherwise a page [p] is taken from the free
    list and mapped in the target at [va] with the caller's permissions, with one
    reference, whatever was mapped there losing its own; or page_insert fails for
    want of table pages, translations are unchanged, and [p] is lost: on no free
    list, and unreferenced. *)
Theorem sys_page_alloc_correct s cur envid va perm l root :
  curenv s = Some cur → 0 ≤ va < 2 ^ 64 →
  (∀ e, named_env s cur envid true = Some e → vm_env s e root l) →
  (∀ pg, old_page s root va = Some pg → user_page s root l pg) →
  wp (sys_page_alloc envid va perm) s (λ r s',
    match named_env s cur envid true with
    | None => r = - E_BAD_ENV ∧ s' = s
    | Some e =>
        if negb (perm_ok perm) then r = - E_INVAL ∧ s' = s
        else if negb (va mod PGSIZE =? 0) || (UTOP <? va) then r = - E_INVAL ∧ s' = s
        else match l with
        | [] => r = - E_NO_MEM ∧ s' = s
        | p :: l' =>
            (r = 0 ∧ (∃ l2, pt_inv s' root l2) ∧
             pte_set root va (p * PGSIZE + Z.lor (Z.lor perm PTE_P) PTE_P) s s' ∧
             pp_ref (page_at s' p) = 1) ∨
            (r = - E_NO_MEM ∧ (length l < 4)%nat ∧
             (∀ va', va_ok va' → pte (k_mem s') root va' = pte (k_mem s) root va') ∧
             ∃ l2, pt_inv s' root l2 ∧ p ∉ l2 ∧ pp_ref (page_at s' p) = 0)
        end
    end).
Proof.
  intros Hcur Hva Hvm Hold. unfold sys_page_alloc. wp_steps.
  apply (envid2env_spec _ cur); [done|].
  destruct (named_env s cur envid true) as [e|]; cbn [fst snd]; [|by wp_steps].
  cbn [Z.eqb negb]. destruct (perm_ok perm) eqn:Hperm; cbn [negb]; [|by wp_steps].
  destruct (negb (va mod PGSIZE =? 0) || (UTOP <? va)) eqn:Hchk; [by wp_steps|].
  apply orb_false_iff in Hchk as [_ Hle%Z.ltb_ge].
  destruct (Hvm e eq_refl) as [Hpm Hinv]. wp_steps.
  eapply page_alloc_spec; [apply Hinv|apply Hinv|]. destruct l as [|p l]; [by wp_steps|].
  apply wpx_bind, deref_spec. wp_steps.
  set (s1 := alloc_state false p s).
  change (env_at s1 e) with (env_at s e). rewrite Hpm.
  pose proof (pt_inv_alloc _ _ _ _ Hinv) as Hinv1.
  pose proof (alloc_page s root p l p Hinv) as Hp. rewrite decide_True in Hp by done.
  pose proof (fl_nodup _ _ (pi_free _ _ _ Hinv)) as [Hpl _]%list.NoDup_cons.
  pose proof (walk_a_range _ _ _ _ Hinv) as Hpr.
  pose proof (UTOP_va_ok va ltac:(lia)) as Hok.
  assert (Hold1 : ∀ pg, old_page s1 root va = Some pg → user_page s1 root l pg).
  { intros pg Hpg. apply user_page_alloc; [done|]. by apply Hold. }
  eapply wpx_conseq.
  { apply (page_insert_spec s1 root va p (Z.lor perm PTE_P) l); try done.
    - fold s1 in Hp. by rewrite Hp.
    - apply (lor_range _ _ 12); [done|by apply perm_ok_range|done]. }
  intros r s2 [(-> & Hl & l2 & Hg)|(-> & Hrm)].
  - right. split_and!; [done|cbn; lia| |].
    + intros va' Hva'. by apply (grow_pte s1 root l s2 l2 va').
    + exists l2. split_and!; [apply Hg|by intros ?%Hg|].
      rewrite (gr_pages _ _ _ _ _ Hg) by done. unfold s1. by rewrite Hp.
  - left. split_and!; [done| |exact (rm_pte _ _ _ _ _ _ _ _ Hrm)|].
    + destruct (rm_inv _ _ _ _ _ _ _ _ Hrm) as (l2 & ? & _). by exists l2.
    + rewrite (rm_refs _ _ _ _ _ _ _ _ Hrm p) by done. fold s1 in Hp. rewrite Hp. cbn [pp_ref].
      rewrite (decide_True (P := Some p = Some p)) by done.
      rewrite decide_False; [done|]. intros Ho. destruct (Hold p Ho) as [_ Hf _ _ _].
      apply Hf. by constructor.
Qed.

(** The receiver after a send of [value] by [from] without a page. *)
Definition delivered (value from : Z) (v : Env) : Env :=
  set_env_status ENV_RUNNABLE (set_env_ipc_value value
    (set_env_ipc_from from (set_env_ipc_recving 0 v))).

(** Sending a word (no page: srcva >= UTOP), on every branch.  The send fails
    with E_IPC_NOT_RECV, changing nothing, unless the target is blocked receiving;
    otherwise it delivers the value and the sender's id, makes the target runnable
    and clears its receiving flag, so that a second send fails until it receives
    again; no other environment and no translation changes.  (The target's
    env_ipc_perm keeps its old value.) *)
Theorem sys_ipc_try_send_word s cur envid value srcva perm root l :
  curenv s = Some cur → envid ≠ env_id (env_at s cur) →
  UTOP ≤ srcva → va_ok srcva → vm_env s cur root l → ptes_real s root →
  wp (sys_ipc_try_send envid value srcva perm) s (λ r s',
    match named_env s cur envid false with
    | None => r = - E_BAD_ENV ∧ s' = s
    | Some d =>
        if env_ipc_recving (env_at s d) =? 0 then r = - E_IPC_NOT_RECV ∧ s' = s
        else r = 0 ∧ env_at s' d = delivered value (env_id (env_at s cur)) (env_at s d) ∧
             env_ipc_recving (env_at s' d) = 0 ∧
             (∀ q, q ≠ d → env_at s' q = env_at s q) ∧ curenv s' = curenv s ∧
             same_view root s s'
    end).
Proof.
  intros Hcur Hself Hsrc Hva [Hpm Hinv] Hreal. unfold sys_ipc_try_send. wp_steps.
  apply (envid2env_spec _ cur); [done|].
  destruct (named_env s cur envid false) as [d|]; cbn [fst snd]; [|by wp_steps].
  cbn [Z.eqb negb]. wp_steps. apply (envid2env_spec _ cur); [done|]. cbn [named_env Z.eqb fst snd negb].
  wp_steps. apply deref_spec. wp_steps.
  destruct (env_ipc_recving (env_at s d) =? 0) eqn:Hrecv; [by wp_steps|].
  wp_steps. apply deref_spec. wp_steps. rewrite Hpm.
  eapply wpx_conseq; [apply page_lookup_spec; [done|done|by apply Hreal]|].
  intros l0 s1 (l1 & Hg & Hl0).
  assert (Haux : curenv s1 = curenv s ∧ ∀ q, env_at s1 q = env_at s q).
  { destruct (gr_aux _ _ _ _ _ Hg) as (_ & He & Hc & Hn & _).
    unfold curenv, cpu_at, env_at. by rewrite Hc, Hn, He. }
  destruct Haux as [Hc1 He1]. pose proof (grow_view root s l s1 l1 Hinv Hg) as Hv.
  wp_steps.
  assert (Hsp : ∃ x, (match l0 with
     | Some (_, pte_store) => e ← kload pte_store; mret (Some (Z.land e PTE_SYSCALL))
     | None => mret (if srcva <? UTOP then None else Some 0) end) s1 =
     (Ret (Some x) s1 : outcome kst kexit (option Z))).
  { destruct l0 as [[pg ptr]|].
    - destruct Hl0 as (_ & _ & t & Ht & ->).
      destruct (pi_range _ _ _ (gr_inv _ _ _ _ _ Hg) _ _ (va_path_vpath _ Hva) Ht) as [Htr _].
      assert (wp (kload (slot_kva t (PTX srcva))) s1 (λ _ s', s' = s1)) as Hk
        by (apply kload_spec; [done|apply land_511|done]).
      apply wp_returns in Hk as (e & s' & Hk & ->). exists (Z.land e PTE_SYSCALL).
      unfold mbind, M_bind. by rewrite Hk.
    - rewrite (proj2 (Z.ltb_ge _ _)) by done. by exists 0. }
  destruct Hsp as [x Hx]. eapply wp_of_run; [exact Hx|]. clear Hx.
  rewrite (proj2 (Z.ltb_ge srcva UTOP)) by done. cbn [andb]. wp_steps.
  rewrite !He1. rewrite (proj2 (Z.eqb_neq envid _)) by done.
  apply wpx_bind, upd_env_first. intros s2 Hu. do 2 upd_next Hu. wp_steps.
  cbn [Z.ltb Z.compare]. upd_next Hu. wp_steps.
  destruct Hu as [Hd Ho Hr]. rewrite He1 in Hd.
  split_and!; [done|exact Hd|by rewrite Hd| | |].
  - intros q Hq. rewrite Ho by done. apply He1.
  - rewrite Hr. exact Hc1.
  - rewrite Hr. exact Hv.
Qed.

(** ** Runs that panic *)

Definition panics {A} (m : K A) (s : kst) : Prop := ∃ s', m s = Panic s'.
Definition no_leave {A} (m : K A) : Prop :=
  ∀ s, match m s with Leave _ _ => False | _ => True end.

Lemma panics_bind {A B} (m : K A) (k : A → K B) s :
  no_leave m → (∀ a s', m s = Ret a s' → panics (k a) s') → panics (m ≫= k) s.
Proof.
  intros Hm Hk. specialize (Hm s). unfold panics, mbind, M_bind.
  destruct (m s) as [a s'|?|s'] eqn:E; [by apply Hk|done|by exists s'].
Qed.

Lemma no_leave_bind {A B} (m : K A) (k : A → K B) :
  no_leave m → (∀ a, no_leave (k a)) → no_leave (m ≫= k).
Proof.
  intros Hm Hk s. specialize (Hm s). unfold mbind, M_bind.
  destruct (m s) as [a s'| |]; [apply Hk|done|done].
Qed.

Lemma no_leave_ret {A} (a : A) : no_leave (mret a).
Proof. done. Qed.

Lemma no_leave_uread8 cr3 va : no_leave (uread8 cr3 va).
Proof. intros s. unfold uread8, mbind, M_bind, get. by destruct (translate _ _ _). Qed.

Lemma no_leave_uwrite8 cr3 va v : no_leave (uwrite8 cr3 va v).
Proof. intros s. unfold uwrite8, mbind, M_bind, get. by destruct (translate _ _ _). Qed.

Lemma no_leave_uread n cr3 va : no_leave (uread n cr3 va).
Proof.
  revert va. induction n as [|n IH]; intros va; cbn [uread]; [apply no_leave_ret|].
  apply no_leave_bind; [apply no_leave_uread8|]. intros b.
  apply no_leave_bind; [apply IH|]. intros r. apply no_leave_ret.
Qed.

Lemma no_leave_uwrite n cr3 va v : no_leave (uwrite n cr3 va v).
Proof.
  revert va v. induction n as [|n IH]; intros va v; cbn [uwrite]; [apply no_leave_ret|].
  apply no_leave_bind; [apply no_leave_uwrite8|]. intros _. apply IH.
Qed.

Lemma no_leave_user_cr3 : no_leave user_cr3.
Proof. intros s. unfold user_cr3, mbind, M_bind, get. by destruct (curenv s). Qed.

Create HintDb noleave.
#[export] Hint Resolve no_leave_bind no_leave_ret no_leave_uread no_leave_uwrite
  no_leave_user_cr3 : noleave.

(** sys_env_set_trapframe never reports E_BAD_ENV for a bad environment id:
    the unsigned [result < 0] test is dead, so the kernel goes on to copy the trap
    frame through the NULL pointer and panics. *)
Theorem sys_env_set_trapframe_bad_env s cur envid tf :
  curenv s = Some cur → named_env s cur envid true = None → tf ≠ 0 →
  panics (sys_env_set_trapframe envid tf) s.
Proof.
  intros Hcur Hn Htf. unfold sys_env_set_trapframe.
  rewrite (proj2 (Z.eqb_neq tf 0)) by done.
  assert (He : envid2env envid true s = Ret (- E_BAD_ENV, None) s).
  { pose proof (envid2env_spec s cur envid true (λ r s', r = (- E_BAD_ENV, None) ∧ s' = s)
      (λ _ _, False) Hcur) as H. rewrite Hn in H.
    destruct (wp_returns _ _ _ (H (conj eq_refl eq_refl))) as (r & s' & -> & -> & ->). done. }
  apply panics_bind; [intros t; unfold no_leave|].
  { unfold envid2env, mbind, M_bind, get.
    repeat first [done | case_match; try done | destruct (curenv t); cbn [deref] in *]. }
  intros r s1 Hr. rewrite He in Hr. injection Hr as <- <-. cbn [snd].
  do 6 (apply panics_bind; [solve [unfold read_tf, read_regs; eauto 40 with noleave]|];
        intros ? ? _).
  by eexists.
Qed.

(** ** Instances *)

Lemma ex_vm_env : vm_env ex_kst 0 1 [2; 3; 4; 5; 6].
Proof. split; [reflexivity|exact ex_pt_inv]. Qed.

Lemma sys_page_alloc_correct_witness :
  wp (sys_page_alloc 0 0x800000 (Z.lor PTE_U PTE_P)) ex_kst (λ r s',
    r = 0 ∧ pte (k_mem s') 1 0x800000 = 0x2005 ∧ pp_ref (page_at s' 2) = 1).
Proof.
  eapply wpx_conseq.
  { apply (sys_page_alloc_correct ex_kst 0 0 0x800000 (Z.lor PTE_U PTE_P) [2; 3; 4; 5; 6] 1);
      [reflexivity|by vm_compute|intros e [= <-]; exact ex_vm_env|by rewrite ex_old]. }
  intros r s'. change (named_env ex_kst 0 0 true) with (Some 0).
  change (perm_ok (Z.lor PTE_U PTE_P)) with true. cbn [negb].
  change (negb (0x800000 mod PGSIZE =? 0) || (UTOP <? 0x800000)) with false.
  intros [(-> & _ & Hp & Href)|(_ & Hl & _)]; [|cbn in Hl; lia].
  split_and!; [done| |exact Href]. rewrite Hp by exact ex_va. reflexivity.
Defined.

(** Environment 1 waits for a message. *)
Definition ex_ipc : kst :=
  upd_env 1 (λ v, set_env_ipc_recving 1 (set_env_status ENV_NOT_RUNNABLE (set_env_id 4097 v)))
    ex_kst.

Lemma sys_ipc_try_send_word_witness :
  wp (sys_ipc_try_send 4097 42 UTOP 0) ex_ipc (λ r s',
    r = 0 ∧ env_ipc_value (env_at s' 1) = 42 ∧ env_ipc_from (env_at s' 1) = 4096 ∧
    env_status (env_at s' 1) = ENV_RUNNABLE).
Proof.
  eapply wpx_conseq.
  { apply (sys_ipc_try_send_word ex_ipc 0 4097 42 UTOP 0 1 [2; 3; 4; 5; 6]);
      [reflexivity|vm_compute; congruence|reflexivity| | |].
    - apply UTOP_va_ok. split; vm_compute; congruence.
    - split; [reflexivity|]. eapply pt_inv_ext; [..|exact ex_pt_inv]; reflexivity.
    - exact ex_ptes_real. }
  intros r s'. change (named_env ex_ipc 0 4097 false) with (Some 1).
  change (env_ipc_recving (env_at ex_ipc 1) =? 0) with false.
  intros (-> & He & _). rewrite He. split_and!; reflexivity.
Defined.

Lemma sys_env_set_trapframe_bad_env_witness :
  panics (sys_env_set_trapframe 77 0x800000) ex_kst.
Proof.
  apply (sys_env_set_trapframe_bad_env ex_kst 0 77 0x800000);
    [reflexivity|reflexivity|congruence].
Defined.
