(* ===== verification/Trap.v ===== *)
(** * Traps (kern/trap.c)

    [trap] is entered with the processor's trap frame and, for page faults, the
    faulting address from CR2.  Printing is left out; the kernel monitor, which
    talks to the operator, is a parameter. *)

From S2P Require Import Prelude Mem Printfmt KState Pmap PageAlloc PageTable Mapping.
From S2P Require Import Spinlock Time UserMem Env Sched E1000 Syscall.
From S2P Require Console.

Definition T_BRKPT : Z := 3.
Definition T_PGFLT : Z := 14.
Definition T_SYSCALL : Z := 48.
Definition T_DEFAULT : Z := 500.
Definition IRQ_OFFSET : Z := 32.
Definition IRQ_TIMER : Z := 0.
Definition IRQ_KBD : Z := 1.
Definition IRQ_SERIAL : Z := 4.
Definition IRQ_SPURIOUS : Z := 7.

(** ** Gates: vector and privilege level, in the order of trap_init *)

Definition trap_gates : list (Z * Z) :=
  [ (0, 0); (1, 0); (2, 0); (T_BRKPT, 3); (4, 0); (5, 0); (6, 0); (7, 0); (8, 0);
    (10, 0); (11, 0); (12, 0); (13, 0); (T_PGFLT, 0); (16, 0); (17, 0); (18, 0); (19, 0);
    (T_SYSCALL, 3); (T_DEFAULT, 0);
    (IRQ_OFFSET + IRQ_TIMER, 0); (IRQ_OFFSET + IRQ_KBD, 0); (IRQ_OFFSET + 2, 0);
    (IRQ_OFFSET + 3, 0); (IRQ_OFFSET + IRQ_SERIAL, 0); (IRQ_OFFSET + 5, 0);
    (IRQ_OFFSET + 6, 0); (IRQ_OFFSET + IRQ_SPURIOUS, 0); (IRQ_OFFSET + 8, 0);
    (IRQ_OFFSET + 9, 0); (IRQ_OFFSET + 10, 0); (IRQ_OFFSET + 11, 0); (IRQ_OFFSET + 12, 0);
    (IRQ_OFFSET + 13, 0); (IRQ_OFFSET + 14, 0); (IRQ_OFFSET + 15, 0) ].

(** The kernel stack pointer trap_init_percpu puts in CPU [i]'s task state, and
    the top of the stack mem_init_mp maps for it. *)
Definition ts_esp0 (i : Z) : Z := KSTACKTOP + i * (KSTKSIZE + KSTKGAP).
Definition kstacktop (i : Z) : Z := KSTACKTOP - i * (KSTKSIZE + KSTKGAP).

(** ** Page faults *)

(** Which trap frame [tf] points to: the saved one of an environment, or the one
    on the kernel stack. *)
Inductive tfptr : Type := TfEnv (e : Z) | TfStack (tf : Trapframe).

Definition get_tf (p : tfptr) : K Trapframe :=
  match p with
  | TfEnv e => gets (λ s, env_tf (env_at s e))
  | TfStack tf => mret tf
  end.
(** A store to a frame on the kernel stack has no effect after [trap]. *)
Definition upd_tf (p : tfptr) (f : Trapframe → Trapframe) : K unit :=
  match p with
  | TfEnv e => upd_env_m e (λ v, set_env_tf (f (env_tf v)) v)
  | TfStack _ => mret tt
  end.

Definition UTF_SIZE : Z := 160.   (* sizeof(struct UTrapframe) *)

Definition regs_words (r : PushRegs) : list Z :=
  [ reg_r15 r; reg_r14 r; reg_r13 r; reg_r12 r; reg_r11 r; reg_r10 r; reg_r9 r; reg_r8 r;
    reg_rsi r; reg_rdi r; reg_rbp r; reg_rdx r; reg_rcx r; reg_rbx r; reg_rax r ].

(** Store 64-bit fields at the given offsets, in order. *)
Fixpoint uwrite_fields (cr3 base : Z) (l : list (Z * Z)) : K unit :=
  match l with
  | [] => mret tt
  | (off, v) :: l' => uwrite 8 cr3 (u64 (base + off)) v;; uwrite_fields cr3 base l'
  end.

(** The stores to [*utf], in the order of the code. *)
Definition utf_fields (tf : Trapframe) (fault_va : Z) : list (Z * Z) :=
  (144, tf_eflags tf) :: (8, tf_err tf) :: (0, fault_va) ::
  zip ((λ i, 16 + 8 * i) <$> seqZ 0 15) (regs_words (tf_regs tf)) ++
  [ (136, tf_rip tf); (152, tf_rsp tf) ].

Definition page_fault_handler (p : tfptr) (fault_va : Z) : K unit :=
  tf ← get_tf p;
  if Z.land (tf_cs tf) 3 =? 0 then panic
  else
    s ← get; cur ← deref (curenv s);
    let upcall := env_pgfault_upcall (env_at s cur) in
    if negb (upcall =? 0) then
      user_mem_assert cur (UXSTACKTOP - PGSIZE) PGSIZE (Z.lor (Z.lor PTE_W PTE_U) PTE_P);;
      utf ← (if negb ((tf_rsp tf <? UXSTACKTOP) && (UXSTACKTOP - PGSIZE <? tf_rsp tf))
             then mret (UXSTACKTOP - UTF_SIZE)
             else if u64 (tf_rsp tf - UTF_SIZE - 8) <? UXSTACKTOP - PGSIZE
             then env_destroy cur;; panic    (* env_destroy(curenv) does not return *)
             else mret (u64 (tf_rsp tf - UTF_SIZE - 8)));
      s ← get;
      uwrite_fields (env_cr3 (env_at s cur)) utf (utf_fields tf fault_va);;
      upd_tf p (set_tf_rip upcall);;
      upd_tf p (set_tf_rsp utf);;
      env_run cur
    else env_destroy cur.

(** ** Dispatch *)

Section trap.
Context (monitor : K unit).

Definition kbd_intr : K unit := modify (λ s, set_cons (Console.kbd_intr (cons s)) s).
Definition serial_intr : K unit := modify (λ s, set_cons (Console.serial_intr (cons s)) s).

Definition syscall_trap (p : tfptr) (tf : Trapframe) : K unit :=
  let r := tf_regs tf in
  v ← syscall (reg_rax r) (reg_rdx r) (reg_rcx r) (reg_rbx r) (reg_rdi r) (reg_rsi r);
  upd_tf p (λ t, set_tf_regs (set_reg_rax (u64 v) (tf_regs t)) t).

(** After the page-fault handler or the monitor returns, the code falls through
    to the interrupt tests, of which none matches, and to the last part. *)
Definition trap_dispatch (p : tfptr) (fault_va : Z) : K unit :=
  tf ← get_tf p;
  let no := tf_trapno tf in
  if no =? T_SYSCALL then syscall_trap p tf
  else
    (if no =? T_PGFLT then page_fault_handler p fault_va
     else if no =? T_BRKPT then monitor else mret tt);;
    if no =? IRQ_OFFSET + IRQ_SPURIOUS then mret tt
    else
      (if no =? IRQ_OFFSET + IRQ_TIMER then time_tick;; modify (emit Eoi);; sched_yield
       else if no =? IRQ_OFFSET + IRQ_KBD then kbd_intr;; sched_yield
       else if no =? IRQ_OFFSET + IRQ_SERIAL then serial_intr;; sched_yield
       else mret tt);;
      tf ← get_tf p;
      if tf_cs tf =? GD_KT then panic
      else s ← get; cur ← deref (curenv s); env_destroy cur.

Definition trap (tf : Trapframe) (fault_va : Z) : K unit :=
  s ← get;
  let old := cpu_status (cpu_at s (cpunum s)) in
  modify (set_cpu_status CPU_STARTED);;
  when (old =? CPU_HALTED) lock_kernel;;
  p ← (if Z.land (tf_cs tf) 3 =? 3 then
         lock_kernel;;
         s ← get; cur ← deref (curenv s);
         when (env_status (env_at s cur) =? ENV_DYING)
           (env_free cur;; modify (set_curenv None);; sched_yield);;
         upd_env_m cur (set_env_tf tf);;
         mret (TfEnv cur)
       else mret (TfStack tf));
  trap_dispatch p fault_va;;
  s ← get;
  match curenv s with
  | Some c => if env_status (env_at s c) =? ENV_RUNNING then env_run c else sched_yield
  | None => sched_yield
  end.
End trap.

(** ** The page-fault frame *)

Lemma uwrite_fields_spec root base pg o l s (Q : unit → kst → Prop) E :
  user_view (k_mem s) root base pg → 0 ≤ o → o + UTF_SIZE ≤ PGSIZE →
  Forall (λ x, 0 ≤ x.1 ≤ UTF_SIZE - 8) l →
  Q tt (set_k_mem (st_fields (k_mem s) (pg * PGSIZE + o) l) s) →
  wpx (uwrite_fields (root * PGSIZE) (base + o) l) s Q E.
Proof.
  revert s. induction l as [|[off v] l IH]; intros s Huv H0 H1 Hl HQ.
  - cbn [uwrite_fields]. wp_steps. by destruct s.
  - apply Forall_cons_iff in Hl as [Ho Hl]. cbn [fst] in Ho. unfold UTF_SIZE in *.
    cbn [uwrite_fields]. wp_steps.
    pose proof (uv_ok _ _ _ _ Huv) as [Hr48 _]. change (2 ^ 48) with 281474976710656 in Hr48.
    rewrite u64_id by (unfold PGSIZE in *; lia).
    rewrite <- Z.add_assoc. eapply uwrite_page; [exact Huv|lia|cbn; lia|].
    intros Huv'. apply IH; [exact Huv'|done|done|done|].
    cbn [k_mem set_k_mem]. cbn [st_fields] in HQ. by rewrite Z.add_assoc.
Qed.

Lemma utf_offsets tf fault_va :
  (utf_fields tf fault_va).*1 =
    144 :: 8 :: 0 :: ((λ i, 16 + 8 * i) <$> seqZ 0 15) ++ [136; 152].
Proof. reflexivity. Qed.

Lemma utf_offsets_ok tf fault_va :
  Forall (λ x, 0 ≤ x.1 ≤ UTF_SIZE - 8) (utf_fields tf fault_va) ∧
  Forall (λ x, x.1 mod 8 = 0) (utf_fields tf fault_va) ∧
  NoDup (utf_fields tf fault_va).*1.
Proof.
  split_and!.
  - rewrite <- (list.Forall_fmap fst (λ o, 0 ≤ o ≤ UTF_SIZE - 8)). rewrite utf_offsets.
    vm_compute. repeat constructor; congruence.
  - rewrite <- (list.Forall_fmap fst (λ o, o mod 8 = 0)). rewrite utf_offsets.
    vm_compute. repeat constructor.
  - rewrite utf_offsets. vm_compute. repeat constructor; set_solver.
Qed.

Lemma user_view_grow root s l s' l' base pg :
  pt_inv s root l → grow root s l s' l' → pg ∉ l → user_view (k_mem s) root base pg →
  user_view (k_mem s') root base pg.
Proof.
  intros Hinv Hg Hpg [Hb Hp Ho Ha Hok Hpte Hpage].
  pose proof (grow_pte s root l s' l' base Hg Hok) as E.
  split; rewrite ?E; try done; [apply Hg|by apply Hg|].
  intros p Hvp Ht. destruct (tbl (k_mem s) root p) as [t|] eqn:Et.
  - pose proof (gr_tbl _ _ _ _ _ Hg _ _ Hvp Et). simplify_eq. by apply (Ho p).
  - by eapply Hpg, (gr_new _ _ _ _ _ Hg).
Qed.

(** A one-page user_mem_assert that passes. *)
Lemma user_mem_assert_page s e root l va perm Q E :
  pt_inv s root l → ptes_real s root → env_pml4e (env_at s e) = tab_kva root →
  0 ≤ va < 2 ^ 40 → va mod PGSIZE = 0 → page_ok s root (Z.lor perm PTE_U) va = true →
  (∀ s' l', grow root s l s' l' → Q tt s') →
  wpx (user_mem_assert e va PGSIZE perm) s Q E.
Proof.
  intros Hinv Hreal He Hva Hal Hok HQ. unfold user_mem_assert. wp_steps.
  change (2 ^ 40) with 1099511627776 in Hva.
  eapply wpx_mono; [eapply user_mem_check_spec; [done..|pow2; lia]| |done].
  intros r s' (Hp & _ & l' & _ & Hg).
  assert (check_lo va = va) as Hlo by (unfold check_lo; lia).
  assert (check_hi va PGSIZE = va + PGSIZE) as Hhi.
  { unfold check_hi. rewrite Hlo. unfold PGSIZE in *. rewrite u64_id by (pow2; lia).
    rewrite ROUNDUP_page by (unfold PGSIZE; pow2; lia). unfold PGSIZE. zlia. }
  rewrite Hlo, Hhi in Hp. destruct Hp as [[-> _]|(_ & k & Hk & Hk2 & Hbad & _)].
  - cbn [Z.ltb Z.compare when]. wp_steps. by eapply HQ, Hg.
  - exfalso. unfold PGSIZE in *. assert (k = 0) as -> by lia.
    rewrite Z.mul_0_l, Z.add_0_r in Hbad. congruence.
Qed.

Definition XBASE : Z := UXSTACKTOP - PGSIZE.
Definition upcall_perm : Z := Z.lor (Z.lor (Z.lor PTE_W PTE_U) PTE_P) PTE_U.

(** An environment with a page-fault upcall and an exception stack. *)
Record upcall_pre (s : kst) (cur root : Z) (l : list Z) (pg : Z) : Prop := {
  up_cur : curenv s = Some cur;
  up_lock : lock_held s;
  up_pml4e : env_pml4e (env_at s cur) = tab_kva root;
  up_cr3 : env_cr3 (env_at s cur) = root * PGSIZE;
  up_inv : pt_inv s root l;
  up_real : ptes_real s root;
  up_pg : pg ∉ l;
  up_view : user_view (k_mem s) root XBASE pg;
  up_ok : page_ok s root upcall_perm XBASE = true;
  up_set : env_pgfault_upcall (env_at s cur) ≠ 0
}.

(** Where the frame goes: below the word left for the return address when the
    fault happened on the exception stack, else at its top. *)
Definition utf_addr (rsp : Z) : Z :=
  if (rsp <? UXSTACKTOP) && (XBASE <? rsp) then rsp - UTF_SIZE - 8 else UXSTACKTOP - UTF_SIZE.

(** C36. A user page fault of an environment with an upcall and an exception stack that
    can be written and has the room resumes the environment at the upcall, with the
    stack pointer at a frame on its exception stack, 160 bytes below the
    top, or 168 below the faulting stack pointer when that was already on it; the
    frame holds the fault address, error code, all fifteen registers, and the
    instruction pointer, flags and stack pointer of the fault; the environment's
    own registers are kept; the kernel lock is released. *)
Theorem page_fault_upcall s cur root l pg fault_va (tf := env_tf (env_at s cur)) :
  upcall_pre s cur root l pg → Z.land (tf_cs tf) 3 ≠ 0 → 0 ≤ tf_rsp tf < 2 ^ 64 →
  XBASE ≤ utf_addr (tf_rsp tf) →
  wpx (page_fault_handler (TfEnv cur) fault_va) s (λ _ _, False) (λ x s',
    x = ToUser cur ∧ kernel_lock s' = mkLock 0 None ∧
    env_tf (env_at s' cur) = set_tf_rsp (utf_addr (tf_rsp tf))
      (set_tf_rip (env_pgfault_upcall (env_at s cur)) tf) ∧
    ∀ off v, (off, v) ∈ utf_fields tf fault_va →
      ld64 (k_mem s') (pg * PGSIZE + (utf_addr (tf_rsp tf) - XBASE) + off) = u64 v).
Proof.
  intros [Pcur Plock Ppm Pcr3 Pinv Preal Ppg Pview Pok Pset] Hcs Hrsp Hroom. unfold page_fault_handler, get_tf. wp_steps. fold tf.
  rewrite (proj2 (Z.eqb_neq _ 0)) by done. wp_steps. rewrite Pcur. apply deref_spec.
  rewrite (proj2 (Z.eqb_neq _ 0)) by done. cbn [negb]. wp_steps.
  apply (user_mem_assert_page s cur root l _ _ _ _ Pinv Preal Ppm);
    [split; by vm_compute|by vm_compute|exact Pok|].
  intros s1 l1 Hg. pose proof (user_view_grow _ _ _ _ _ _ _ Pinv Hg Ppg Pview) as Huv.
  destruct (gr_aux _ _ _ _ _ Hg) as (_ & Hen & Hcp & Hcn & _ & _ & _ & _ & Hlk & _).
  assert (He1 : ∀ q, env_at s1 q = env_at s q) by (intros; unfold env_at; by rewrite Hen).
  wp_steps. eapply (wp_of_run _ _ _ _ (utf_addr (tf_rsp tf)) s1).
  { revert Hroom. unfold utf_addr, XBASE, UTF_SIZE.
    destruct ((tf_rsp tf <? UXSTACKTOP) && (UXSTACKTOP - PGSIZE <? tf_rsp tf)) eqn:Ec;
      cbn [negb]; [|done].
    apply andb_true_iff in Ec as [E1%Z.ltb_lt E2%Z.ltb_lt]. intros Hroom.
    change UXSTACKTOP with 4018143232 in *. unfold PGSIZE in *.
    rewrite u64_id by (pow2; lia). rewrite (proj2 (Z.ltb_ge _ _)) by lia. done. }
  wp_steps. rewrite He1, Pcr3.
  assert (Hra : 0 ≤ utf_addr (tf_rsp tf) - XBASE ∧
            utf_addr (tf_rsp tf) - XBASE + UTF_SIZE ≤ PGSIZE).
  { split; [lia|]. unfold utf_addr, XBASE, UTF_SIZE, PGSIZE.
    destruct (Z.ltb_spec (tf_rsp tf) UXSTACKTOP); cbn [andb]; [|lia].
    destruct (_ <? _); lia. }
  set (o := utf_addr (tf_rsp tf) - XBASE) in *.
  replace (utf_addr (tf_rsp tf)) with (XBASE + o) by (unfold o; lia).
  destruct (utf_offsets_ok tf fault_va) as (Hoff & Hal & Hnd).
  eapply uwrite_fields_spec; [exact Huv|lia|lia|exact Hoff|].
  wp_steps. unfold upd_tf. set (s2 := set_k_mem _ s1).
  apply upd_env_first. intros s3 Hu3. wp_steps.
  eapply (upd_env_next _ _ _ _ _ _ _ Hu3). intros s0 [Hd Ho Hr].
  assert (Hcur : curenv s0 = Some cur).
  { rewrite Hr. change (curenv (set_envs _ s2)) with (curenv s1).
    unfold curenv, cpu_at. rewrite Hcp, Hcn. exact Pcur. }
  eapply wpx_mono; [apply (env_run_spec cur s0 (λ _ _, False))|done|].
  { unfold lock_held. rewrite Hr. change (kernel_lock s1 = mkLock 1 (Some (cpunum s1))).
    rewrite Hlk, Hcn. exact Plock. }
  intros x s' [-> Hs']. rewrite decide_True in Hs' by done. destruct Hs'.
  split_and!; [done|done| |].
  - rewrite re_env, Hd. change (env_at s2 cur) with (env_at s1 cur). by rewrite He1.
  - intros off v Hin. rewrite re_mem, Hr.
    change (k_mem (set_envs (envs s0) s2)) with
      (st_fields (k_mem s1) (pg * PGSIZE + o) (utf_fields tf fault_va)).
    by apply ld64_st_fields.
Qed.

(** user_mem_assert tests for any of the permission bits: an exception stack that is
    mapped read-only passes, and the first store of the frame is a page fault of the
    kernel, which panics. *)
Theorem readonly_stack_panics s cur root l fault_va (tf := env_tf (env_at s cur)) :
  curenv s = Some cur → env_pml4e (env_at s cur) = tab_kva root → env_cr3 (env_at s cur) = root * PGSIZE →
  pt_inv s root l → ptes_real s root → tables_present (k_mem s) root → env_pgfault_upcall (env_at s cur) ≠ 0 →
  page_ok s root upcall_perm XBASE = true → Z.land (pte (k_mem s) root XBASE) PTE_W = 0 →
  Z.land (tf_cs tf) 3 ≠ 0 → UXSTACKTOP ≤ tf_rsp tf →
  ∃ s', page_fault_handler (TfEnv cur) fault_va s = Panic s'.
Proof.
  intros Pcur Ppm Pcr3 Pinv Preal Ptab Pset Pok Hro Hcs Hrsp.
  assert (wp (user_mem_assert cur XBASE PGSIZE (Z.lor (Z.lor PTE_W PTE_U) PTE_P)) s
    (λ _ s', ∃ l', grow root s l s' l')) as Hw.
  { apply (user_mem_assert_page s cur root l _ _ _ _ Pinv Preal Ppm); [split; by vm_compute|by vm_compute|exact Pok|eauto]. }
  destruct (wp_returns _ _ _ Hw) as ([] & s1 & Hs1 & l1 & Hg).
  destruct (gr_aux _ _ _ _ _ Hg) as (_ & Hen & _).
  assert (Hva : va_ok XBASE) by (apply va_ok_user; split; by vm_compute).
  destruct (pte_in_page (k_mem s1) root XBASE (UXSTACKTOP - UTF_SIZE + 144 - XBASE)) as (Hva' & Hpte & _);
    [done|by vm_compute|split; by vm_compute|].
  replace (XBASE + (UXSTACKTOP - UTF_SIZE + 144 - XBASE)) with (UXSTACKTOP - UTF_SIZE + 144) in Hva', Hpte by lia.
  exists s1. unfold page_fault_handler, get_tf, mbind, M_bind, mret, M_ret, get, gets, deref. cbv beta iota.
  fold tf. rewrite (proj2 (Z.eqb_neq _ 0)) by done. rewrite Pcur. cbv beta iota zeta delta [mret M_ret].
  rewrite (proj2 (Z.eqb_neq (env_pgfault_upcall _) 0)) by done. cbn [negb].
  fold XBASE. rewrite Hs1. cbv beta iota. rewrite (proj2 (Z.ltb_ge (tf_rsp tf) UXSTACKTOP)) by done. cbn [andb negb].
  assert (He1 : env_at s1 cur = env_at s cur) by (unfold env_at; by rewrite Hen). rewrite He1, Pcr3.
  cbn [utf_fields uwrite_fields uwrite]. unfold uwrite8, mbind, M_bind, get.
  change (u64 (UXSTACKTOP - UTF_SIZE + 144)) with (UXSTACKTOP - UTF_SIZE + 144).
  rewrite translate_refused; [done|apply Hg|by apply (gr_present _ _ _ _ _ Hg)|done|].
  rewrite Hpte, (grow_pte s root l s1 l1 XBASE Hg Hva). intros Hb. cbn [need_bits] in Hb.
  assert (Z.land (Z.land (pte (k_mem s) root XBASE) PTE_PW) PTE_W = Z.land (pte (k_mem s) root XBASE) PTE_W) as H1
    by (by rewrite <- Z.land_assoc).
  rewrite Hb, Hro in H1. by vm_compute in H1.
Qed.

(** ** No return *)

Definition never_ret {A} (m : K A) : Prop := ∀ s a s', m s ≠ Ret a s'.

Lemma never_ret_bind {A B} (m : K A) (k : A → K B) :
  (∀ a, never_ret (k a)) → never_ret (m ≫= k).
Proof.
  intros Hk s b s'. unfold mbind, M_bind. destruct (m s); [apply Hk|done|done].
Qed.

Lemma never_ret_leave {A} x : never_ret (leave x : K A).
Proof. done. Qed.

Lemma never_ret_env_run e : never_ret (env_run e).
Proof. unfold env_run, env_pop_tf. repeat (apply never_ret_bind; intros ?). done. Qed.

Lemma never_ret_sched_halt : never_ret sched_halt.
Proof.
  unfold sched_halt. do 2 (apply never_ret_bind; intros ?). case_match; [|done].
  repeat (apply never_ret_bind; intros ?). done.
Qed.

Lemma never_ret_sched_yield : never_ret sched_yield.
Proof.
  unfold sched_yield. do 2 (apply never_ret_bind; intros ?).
  repeat case_match; auto using never_ret_env_run, never_ret_sched_halt.
Qed.

(** [trap] never returns to its caller: every trap ends in user mode, in a
    halted CPU, in the monitor, spinning for the kernel lock, or in a panic. *)
Theorem trap_never_returns monitor tf fault_va : never_ret (trap monitor tf fault_va).
Proof.
  unfold trap. repeat (apply never_ret_bind; intros ?).
  repeat case_match; auto using never_ret_env_run, never_ret_sched_yield.
Qed.

(** Only the breakpoint and the system call can be raised by user code; and one
    gate, T_DEFAULT, is written past the end of the 256-entry table. *)
Theorem trap_gates_user :
  (∀ v, (v, 3) ∈ trap_gates ↔ v = T_BRKPT ∨ v = T_SYSCALL) ∧
  (∀ v d, (v, d) ∈ trap_gates → 256 ≤ v ↔ v = T_DEFAULT).
Proof.
  split.
  - intros v. split.
    + intros H. assert (forallb (λ x, if x.2 =? 3 then (x.1 =? T_BRKPT) || (x.1 =? T_SYSCALL)
        else true) trap_gates = true) as Hall by reflexivity.
      rewrite forallb_forall in Hall. specialize (Hall _ (proj1 (list_elem_of_In _ _) H)).
      cbn in Hall. apply orb_true_iff in Hall as [?%Z.eqb_eq|?%Z.eqb_eq]; auto.
    + intros [-> | ->]; unfold trap_gates; set_solver.
  - intros v d H.
    assert (forallb (λ x, if 256 <=? x.1 then x.1 =? T_DEFAULT else true) trap_gates = true)
      as Hall by reflexivity.
    rewrite forallb_forall in Hall. specialize (Hall _ (proj1 (list_elem_of_In _ _) H)). cbn in Hall.
    split; [|by intros ->]. intros Hv. rewrite (proj2 (Z.leb_le _ _)) in Hall by done.
    by apply Z.eqb_eq.
Qed.

(** trap_init_percpu adds the per-CPU offset to KSTACKTOP, mem_init_mp subtracts
    it: on CPU [i > 0] the kernel runs on a stack in the direct map of physical
    pages [24 i - 16 .. 24 i), none of which is mapped as a kernel stack; on
    CPUs 1 to 6 these are base-memory pages that page_init put on the free
    list. *)
Theorem kernel_stack_misplaced s i a :
  kern_end s ≤ npages s → 1 ≤ i < NCPU → ts_esp0 i - KSTKSIZE ≤ a < ts_esp0 i →
  KERNBASE ≤ a ∧
  (∀ j, 0 ≤ j < NCPU → ¬ kstacktop j - KSTKSIZE ≤ a < kstacktop j) ∧
  (i ≤ 6 → (a - KERNBASE) / PGSIZE ∈ init_list s).
Proof.
  intros _ Hi Ha. unfold ts_esp0, kstacktop, KSTKSIZE, KSTKGAP, KSTACKTOP, PGSIZE in *.
  change NCPU with 8 in *. split_and!; [lia|intros j Hj; lia|]. intros H6.
  unfold init_list. rewrite !elem_of_app, !elem_of_seqZ.
  assert (8 ≤ (a - KERNBASE) / 4096 < 144) by (split; zlia). right. left. lia.
Qed.

(** ** Instances *)

Definition ex_user : kst :=
  upd_env 0 (λ v, set_env_pgfault_upcall 0x800020 (set_env_cr3 4096 (set_env_tf
    (set_tf_cs (Z.lor GD_UT 3) (set_tf_rsp 0x800000 tf0)) v))) ex_kst.

Lemma ex_upcall : ∃ s l pg, upcall_pre s 0 1 l pg ∧
  env_tf (env_at s 0) = set_tf_cs (Z.lor GD_UT 3) (set_tf_rsp 0x800000 tf0).
Proof.
  assert (Hinv : pt_inv ex_user 1 [2; 3; 4; 5; 6])
    by (eapply pt_inv_ext; [..|exact ex_pt_inv]; reflexivity).
  assert (Hva : va_ok XBASE) by (apply va_ok_user; by vm_compute).
  destruct (wp_returns _ _ _ (pml4e_walk_spec ex_user 1 _ XBASE true Hinv Hva))
    as (r & s1 & _ & l1 & Hg & _ & Hr).
  destruct r as [ptr|]; [|destruct Hr as [_ Hr]; specialize (Hr eq_refl); cbn in Hr; lia].
  destruct Hr as (t & Ht & _). pose proof (gr_inv _ _ _ _ _ Hg) as Hinv1.
  assert (Hv : 0 ≤ 0x8007 < 2 ^ 64) by done.
  set (s2 := leaf_state s1 XBASE t 0x8007).
  pose proof (leaf_pt_inv s1 1 l1 Hinv1 XBASE t 0x8007 Hva Ht Hv) as Hinv2.
  pose proof (leaf_pte s1 1 l1 Hinv1 XBASE t 0x8007 Hva Ht Hv) as Hpte.
  pose proof (leaf_tbl s1 1 l1 Hinv1 XBASE t 0x8007 Hva Ht Hv) as Htbl.
  pose proof (leaf_entries s1 1 XBASE t 0x8007 Hv) as Hent.
  assert (Hx : pte (k_mem s2) 1 XBASE = 0x8007).
  { rewrite Hpte by done. by rewrite decide_True. }
  assert (Hold : ∀ va, va_ok va → pte (k_mem s1) 1 va = 0).
  { intros va Hok. rewrite (grow_pte ex_user 1 _ s1 l1 va Hg Hok). apply ex_pte. }
  destruct (gr_aux _ _ _ _ _ Hg) as (Hnp & Hen & Hcp & Hcn & _ & _ & _ & _ & Hlk & _).
  assert (He : ∀ q, env_at s2 q = env_at ex_user q)
    by (intros q; unfold env_at; change (envs s2) with (envs s1); by rewrite Hen).
  assert (Hoff : ∀ p, vpath p → tbl (k_mem s2) 1 p ≠ Some 8).
  { intros p Hp H8. unfold s2 in H8. rewrite Htbl in H8 by done.
    destruct (tbl (k_mem ex_user) 1 p) as [t'|] eqn:E.
    - pose proof (gr_tbl _ _ _ _ _ Hg _ _ Hp E). apply ex_tbl in E as [_ ->]. congruence.
    - pose proof (gr_new _ _ _ _ _ Hg _ _ Hp E H8). set_solver. }
  exists s2, l1, 8. split; [|by rewrite He].
  split; rewrite ?He; [| |reflexivity|reflexivity|exact Hinv2| | | | |by vm_compute].
  - unfold curenv, cpu_at. change (cpus s2) with (cpus s1). change (cpunum s2) with (cpunum s1).
    by rewrite Hcp, Hcn.
  - unfold lock_held. change (kernel_lock s1 = mkLock 1 (Some (cpunum s1))).
    by rewrite Hlk, Hcn.
  - intros va Hok. unfold s2. rewrite Hpte by done. change (npages (leaf_state _ _ _ _)) with (npages s1).
    rewrite Hnp. case_decide; [by vm_compute|]. by rewrite Hold.
  - intros H8%Hg. set_solver.
  - split; [apply Hinv2| |exact Hoff|reflexivity|exact Hva|by rewrite Hx|by rewrite Hx].
    intros p t' j Hp Hl Ht' Hj. unfold s2 in *. rewrite Htbl in Ht' by done.
    rewrite (Hent p) by done. case_decide as Hd; [by intros _; vm_compute|].
    apply (gr_present _ _ _ _ _ Hg) with p; [|done..].
    intros p0 t0 i0 _ _ _ _ H0. destruct H0. apply ldn_zero. intros.
    unfold ldb. change (k_mem ex_user) with (∅ : mem). by rewrite !getd_empty.
  - unfold page_ok. rewrite Hx. by vm_compute.
Qed.

Lemma page_fault_upcall_witness :
  ∃ s x s', page_fault_handler (TfEnv 0) 0xdeadb000 s = Leave x s' ∧
    tf_rsp (env_tf (env_at s' 0)) = UXSTACKTOP - 160.
Proof.
  destruct ex_upcall as (s & l & pg & Hpre & Htf).
  pose proof (page_fault_upcall s 0 1 l pg 0xdeadb000 Hpre) as H. rewrite Htf in H.
  specialize (H ltac:(by vm_compute) ltac:(by vm_compute) ltac:(by vm_compute)).
  unfold wpx in H. destruct (page_fault_handler (TfEnv 0) 0xdeadb000 s) as [|x s'|] eqn:E;
    [done| |done].
  exists s, x, s'. split; [exact E|]. destruct H as (_ & _ & -> & _). reflexivity.
Defined.

Lemma kernel_stack_misplaced_witness : (ts_esp0 1 - 8 - KERNBASE) / PGSIZE ∈ init_list ex_boot.
Proof.
  apply (kernel_stack_misplaced ex_boot 1 (ts_esp0 1 - 8)); by vm_compute.
Defined.
