(* ===== verification/Pipe.v ===== *)
(** * Pipes (lib/pipe.c)

    The reader and the writer are two environments that share the page of the
    [struct Pipe]; either can be preempted between any two accesses to it.
    [read_step] and [write_step] are devpipe_read and devpipe_write cut at those
    accesses; [pipe_step] interleaves them.  The second part is _pipeisclosed:
    the reference counts of the three pages of a pipe, under every interleaving
    of closes and dups. *)
From S2P Require Import Prelude.

Definition PIPEBUFSIZ : Z := 32.

Record Pipe : Type := mkPipe { p_rpos : Z; p_wpos : Z; p_buf : gmap Z Z }.

(** [p_rpos] and [p_wpos] are 32-bit signed; [sizeof] makes the second
    comparison a 64-bit unsigned one. *)
Definition pipe_empty (p : Pipe) : bool := p_rpos p =? p_wpos p.
Definition pipe_full (p : Pipe) : bool :=
  u64 (u64 (p_rpos p) + PIPEBUFSIZ) <=? u64 (p_wpos p).
Definition pipe_peek (p : Pipe) : Z := getd 0 (p_buf p) (Z.rem (p_rpos p) PIPEBUFSIZ).
Definition pipe_bump_r (p : Pipe) : Pipe := mkPipe (i32 (p_rpos p + 1)) (p_wpos p) (p_buf p).
Definition pipe_store (c : Z) (p : Pipe) : Pipe :=
  mkPipe (p_rpos p) (p_wpos p) (<[Z.rem (p_wpos p) PIPEBUFSIZ := u8 c]> (p_buf p)).
Definition pipe_bump_w (p : Pipe) : Pipe := mkPipe (p_rpos p) (i32 (p_wpos p + 1)) (p_buf p).

(** ** One reader and one writer *)

(** Where an environment is: outside, at the loop test, about to call
    _pipeisclosed, about to move a byte, about to advance its position. *)
Inductive ppc : Type := PIdle | PTest | PClosed | PByte | PBump.

(** A call in progress, or the last one: the counter [i] is the length of
    [r_buf].  [r_all] collects the bytes of every call. *)
Record reader : Type := mkReader
  { r_pc : ppc; r_n : Z; r_buf : list Z; r_ret : Z; r_all : list Z }.
(** [w_buf] is the caller's buffer, [w_i] the counter; [w_all] collects the
    bytes handed over. *)
Record writer : Type := mkWriter
  { w_pc : ppc; w_buf : list Z; w_i : nat; w_ret : Z; w_all : list Z }.

Definition read_goto (pc : ppc) (r : reader) : reader :=
  mkReader pc (r_n r) (r_buf r) (r_ret r) (r_all r).
Definition read_return (v : Z) (r : reader) : reader :=
  mkReader PIdle (r_n r) (r_buf r) v (r_all r).
Definition read_call (n : Z) (r : reader) : reader := mkReader PTest n [] (r_ret r) (r_all r).

(** devpipe_read; [closed] is what _pipeisclosed answers. *)
Definition read_step (closed : bool) (p : Pipe) (r : reader) : Pipe * reader :=
  let i := Z.of_nat (length (r_buf r)) in
  match r_pc r with
  | PIdle => (p, r)
  | PTest =>
      if i <? r_n r then
        if pipe_empty p then
          if 0 <? i then (p, read_return i r) else (p, read_goto PClosed r)
        else (p, read_goto PByte r)
      else (p, read_return i r)
  | PClosed => if closed then (p, read_return 0 r) else (p, read_goto PTest r)
  | PByte =>
      let c := pipe_peek p in
      (p, mkReader PBump (r_n r) (r_buf r ++ [c]) (r_ret r) (r_all r ++ [c]))
  | PBump => (pipe_bump_r p, read_goto PTest r)
  end.

Definition write_goto (pc : ppc) (w : writer) : writer :=
  mkWriter pc (w_buf w) (w_i w) (w_ret w) (w_all w).
Definition write_return (v : Z) (w : writer) : writer :=
  mkWriter PIdle (w_buf w) (w_i w) v (w_all w).
Definition write_call (buf : list Z) (w : writer) : writer :=
  mkWriter PTest buf 0 (w_ret w) (w_all w).

(** devpipe_write *)
Definition write_step (closed : bool) (p : Pipe) (w : writer) : Pipe * writer :=
  let c := nth (w_i w) (w_buf w) 0 in
  match w_pc w with
  | PIdle => (p, w)
  | PTest =>
      if Z.of_nat (w_i w) <? Z.of_nat (length (w_buf w)) then
        if pipe_full p then (p, write_goto PClosed w) else (p, write_goto PByte w)
      else (p, write_return (Z.of_nat (w_i w)) w)
  | PClosed => if closed then (p, write_return 0 w) else (p, write_goto PTest w)
  | PByte => (pipe_store c p, write_goto PBump w)
  | PBump =>
      (pipe_bump_w p,
       mkWriter PTest (w_buf w) (S (w_i w)) (w_ret w) (w_all w ++ [u8 c]))
  end.

Record pipe_sys : Type := mkPS { ps_pipe : Pipe; ps_rd : reader; ps_wr : writer }.

Inductive pipe_step : pipe_sys → pipe_sys → Prop :=
  | ps_read_call p r w n : r_pc r = PIdle → 0 ≤ n →
      pipe_step (mkPS p r w) (mkPS p (read_call n r) w)
  | ps_write_call p r w buf : w_pc w = PIdle →
      pipe_step (mkPS p r w) (mkPS p r (write_call buf w))
  | ps_read p r w closed p' r' : read_step closed p r = (p', r') →
      pipe_step (mkPS p r w) (mkPS p' r' w)
  | ps_write p r w closed p' w' : write_step closed p w = (p', w') →
      pipe_step (mkPS p r w) (mkPS p' r w').

(** [pg] is the page as pipe() leaves it.  Neither pipe() nor sys_page_alloc, which
    calls page_alloc(0), writes to it: its fields are what the frame held before. *)
Definition pipe0 (pg : Pipe) : pipe_sys :=
  mkPS pg (mkReader PIdle 0 [] 0 []) (mkWriter PIdle [] 0 0 []).

Inductive pipe_reach (pg : Pipe) : pipe_sys → Prop :=
  | pipe_reach_init : pipe_reach pg (pipe0 pg)
  | pipe_reach_step x y : pipe_reach pg x → pipe_step x y → pipe_reach pg y.

Section fifo.
(** The position at which the pipe starts. *)
Context (base : Z).

Definition room (p : Pipe) : Prop := p_wpos p < p_rpos p + PIPEBUFSIZ.
Definition cell (p : Pipe) (k : Z) : Z := getd 0 (p_buf p) (k mod PIPEBUFSIZ).

(** Bytes the reader has taken and not yet counted in [p_rpos]. *)
Definition taken (pc : ppc) : Z := match pc with PBump => 1 | _ => 0 end.

Record pipe_inv (x : pipe_sys) : Prop := {
  pi_wpos : p_wpos (ps_pipe x) = base + Z.of_nat (length (w_all (ps_wr x)));
  pi_rpos : p_rpos (ps_pipe x) + taken (r_pc (ps_rd x)) =
            base + Z.of_nat (length (r_all (ps_rd x)));
  pi_base : 0 ≤ base;
  pi_pos : base ≤ p_rpos (ps_pipe x) ≤ p_wpos (ps_pipe x);
  pi_cap : p_wpos (ps_pipe x) ≤ p_rpos (ps_pipe x) + PIPEBUFSIZ;
  pi_fifo : r_all (ps_rd x) `prefix_of` w_all (ps_wr x);
  pi_byte : r_pc (ps_rd x) = PByte → p_rpos (ps_pipe x) < p_wpos (ps_pipe x) ∧
    Z.of_nat (length (r_buf (ps_rd x))) < r_n (ps_rd x);
  pi_len : Z.of_nat (length (r_buf (ps_rd x))) ≤ r_n (ps_rd x);
  pi_eof : r_pc (ps_rd x) = PClosed → r_buf (ps_rd x) = [];
  pi_ret : r_pc (ps_rd x) = PIdle → r_ret (ps_rd x) = Z.of_nat (length (r_buf (ps_rd x)));
  pi_room : w_pc (ps_wr x) = PByte ∨ w_pc (ps_wr x) = PBump → room (ps_pipe x);
  pi_cells : ∀ k, p_rpos (ps_pipe x) ≤ k < p_wpos (ps_pipe x) →
    cell (ps_pipe x) k = nth (Z.to_nat (k - base)) (w_all (ps_wr x)) 0;
  pi_stored : w_pc (ps_wr x) = PBump → cell (ps_pipe x) (p_wpos (ps_pipe x)) =
    u8 (nth (w_i (ps_wr x)) (w_buf (ps_wr x)) 0);
  pi_rbuf : r_buf (ps_rd x) `suffix_of` r_all (ps_rd x);
  pi_wbuf : List.map u8 (take (w_i (ps_wr x)) (w_buf (ps_wr x))) `suffix_of` w_all (ps_wr x);
  pi_wi : w_pc (ps_wr x) = PByte ∨ w_pc (ps_wr x) = PBump →
    (w_i (ps_wr x) < length (w_buf (ps_wr x)))%nat
}.

Definition no_wrap (x : pipe_sys) : Prop := base + Z.of_nat (length (w_all (ps_wr x))) < 2 ^ 31.

Lemma pipe_empty_spec x : pipe_inv x →
  pipe_empty (ps_pipe x) = true ↔ p_rpos (ps_pipe x) = p_wpos (ps_pipe x).
Proof. intros _. apply Z.eqb_eq. Qed.

Lemma pipe_full_spec x : pipe_inv x → no_wrap x →
  pipe_full (ps_pipe x) = true ↔ ¬ room (ps_pipe x).
Proof.
  intros [Hw _ H0b Hp Hc _ _ _ _ _ _ _ _ _ _ _] Hn. unfold pipe_full, room, no_wrap, PIPEBUFSIZ in *.
  pow2. rewrite (u64_id (p_rpos _)) by lia. rewrite (u64_id (p_wpos _)) by lia.
  rewrite u64_id by lia. rewrite Z.leb_le. lia.
Qed.

Lemma rem_mod k : 0 ≤ k → Z.rem k PIPEBUFSIZ = k mod PIPEBUFSIZ.
Proof. intros. by apply Z.rem_mod_nonneg. Qed.

Lemma cell_store_ne p c k :
  0 ≤ p_rpos p ≤ p_wpos p → p_wpos p < p_rpos p + PIPEBUFSIZ → p_rpos p ≤ k < p_wpos p →
  cell (pipe_store c p) k = cell p k.
Proof.
  unfold cell, PIPEBUFSIZ. intros H1 H2 H3. cbn [pipe_store p_buf].
  rewrite Z.rem_mod_nonneg by (unfold PIPEBUFSIZ; lia).
  apply getd_insert_ne. unfold PIPEBUFSIZ. zlia.
Qed.

Lemma cell_store_eq p c : 0 ≤ p_wpos p → cell (pipe_store c p) (p_wpos p) = u8 c.
Proof. intros. unfold cell. cbn [pipe_store p_buf p_wpos]. rewrite rem_mod by done. apply getd_insert_eq. Qed.

Lemma pipe_peek_cell p : 0 ≤ p_rpos p → pipe_peek p = cell p (p_rpos p).
Proof. intros. unfold pipe_peek, cell. by rewrite rem_mod. Qed.

Lemma read_step_inv p r w closed p' r' :
  pipe_inv (mkPS p r w) → no_wrap (mkPS p r w) → read_step closed p r = (p', r') →
  pipe_inv (mkPS p' r' w).
Proof.
  intros Hi Hn. pose proof (pipe_empty_spec _ Hi) as He.
  destruct r as [pc n buf ret all]. unfold read_step, read_goto, read_return.
  cbn [r_pc r_n r_buf r_ret r_all] in *.
  destruct Hi as [Hw Hr H0b Hp Hc Hf Hb Hln Heo Hre Hro Hce Hst Hrb Hwb Hwi]. cbn in *.
  destruct pc; intros E; repeat case_match; simplify_eq; cbn [taken] in *;
    try (split; cbn; done || lia).
  - assert (buf = []) as -> by (apply nil_length_inv; apply Z.ltb_ge in H1; lia).
    split; cbn; done || lia.
  - specialize (Heo eq_refl) as ->. split; cbn; done || lia.
  - specialize (Hb eq_refl) as [Hb Hbn].
    assert (Hpk : pipe_peek p' = nth (length all) (w_all w) 0).
    { rewrite pipe_peek_cell by lia. rewrite Hce by lia. f_equal. lia. }
    destruct Hf as [rest Hrest]. destruct rest as [|c rest].
    { rewrite Hrest, app_nil_r in Hw. lia. }
    assert (c = pipe_peek p') as ->.
    { rewrite Hpk, Hrest, app_nth2, Nat.sub_diag by lia. done. }
    split; cbn; try done; try (rewrite ?length_app; cbn; lia).
    + exists rest. by rewrite Hrest, <- app_assoc.
    + destruct Hrb as [pre ->]. exists pre. by rewrite app_assoc.
  - unfold no_wrap in Hn. cbn in *. pow2. unfold room, pipe_bump_r, PIPEBUFSIZ in *.
    destruct Hf as [rest Hrest]. pose proof (f_equal length Hrest) as Hlen.
    rewrite length_app in Hlen. rewrite (i32_id (p_rpos p + 1)) by lia.
    split; cbn; unfold room, PIPEBUFSIZ; cbn; try done; try lia; eauto.
    + by exists rest.
    + intros k Hk. apply Hce. lia.
Qed.

Lemma write_step_inv p r w closed p' w' :
  pipe_inv (mkPS p r w) → no_wrap (mkPS p' r w') → write_step closed p w = (p', w') →
  pipe_inv (mkPS p' r w').
Proof.
  intros Hi Hn E.
  assert (Hn0 : no_wrap (mkPS p r w)).
  { destruct w as [pc buf i ret all]. unfold no_wrap, write_step in *. cbn in *.
    destruct pc; repeat case_match; simplify_eq; cbn in *;
      rewrite ?length_app in Hn; cbn in *; lia. }
  pose proof (pipe_full_spec _ Hi Hn0) as Hfull.
  destruct w as [pc buf i ret all]. unfold write_step, write_goto, write_return in E.
  destruct Hi as [Hw Hr H0b Hp Hc Hf Hb Hln Heo Hre Hro Hce Hst Hrb Hwb Hwi]. cbn in *.
  destruct pc; repeat case_match; simplify_eq;
    try (split; cbn; done || (intros [?|?]; discriminate)).
  - apply Z.ltb_lt in H. split; cbn; try done.
    + intros _. destruct (decide (room p')) as [|Hr']; [done|]. apply Hfull in Hr'. done.
    + intros _. lia.
  - assert (Hroom : room p) by auto. unfold room in Hroom. split; cbn; try done.
    + intros k Hk. rewrite cell_store_ne by lia. auto.
    + intros _. apply cell_store_eq. lia.
    + auto.
  - assert (Hroom : room p) by auto. unfold room, no_wrap in *. cbn in Hn.
    rewrite length_app in Hn. cbn in Hn. pow2. unfold pipe_bump_w.
    rewrite (i32_id (p_wpos p + 1)) by lia.
    split; cbn; rewrite ?length_app; cbn; try done; try lia.
    + by apply prefix_app_r.
    + intros Hpc. specialize (Hb Hpc). lia.
    + intros [?|?]; discriminate.
    + intros k Hk. unfold cell in *. cbn. destruct (decide (k = p_wpos p)) as [->|].
      * rewrite Hst by done. rewrite app_nth2 by lia.
        replace (Z.to_nat (p_wpos p - base) - length all)%nat with 0%nat by lia. done.
      * rewrite Hce by lia. rewrite app_nth1 by lia. done.
    + destruct Hwb as [pre ->]. exists pre. rewrite <- app_assoc. f_equal.
      rewrite (take_S_r buf i (nth i buf 0)); [by rewrite map_app|].
      destruct (nth_lookup_or_length buf i 0) as [|Hlen]; [done|].
      specialize (Hwi (or_intror eq_refl)). lia.
    + intros [?|?]; discriminate.
Qed.

Lemma pipe_step_inv x y : pipe_inv x → no_wrap y → pipe_step x y → pipe_inv y.
Proof.
  intros Hi Hn Hs. destruct Hs as [p r w n Hpc H0|p r w buf Hpc|p r w cl p' r' E|p r w cl p' w' E].
  - destruct Hi as [Hw Hr H0b Hp Hc Hf Hb Hln Heo Hre Hro Hce Hst Hrb Hwb Hwi]. cbn in *.
    rewrite Hpc in *. split; cbn; try done. apply suffix_nil.
  - destruct Hi as [Hw Hr H0b Hp Hc Hf Hb Hln Heo Hre Hro Hce Hst Hrb Hwb Hwi]. cbn in *.
    split; cbn; try done; [by intros [?|?]|apply suffix_nil|by intros [?|?]].
  - by eapply read_step_inv.
  - by eapply write_step_inv.
Qed.

Lemma pipe_step_mono x y : pipe_step x y → w_all (ps_wr x) `prefix_of` w_all (ps_wr y).
Proof.
  intros [p r w n|p r w buf|p r w cl p' r' E|p r w cl p' w' E]; cbn; try done.
  destruct w as [pc buf i ret all]. unfold write_step in E. cbn in *.
  destruct pc; repeat case_match; simplify_eq; cbn; try done. by apply prefix_app_r.
Qed.

Lemma pipe_reach_inv pg x : p_rpos pg = base → p_wpos pg = base → 0 ≤ base →
  pipe_reach pg x → no_wrap x → pipe_inv x.
Proof.
  intros Hr Hw Hb. induction 1 as [|x y Hx IH Hs]; intros Hn.
  - split; cbn; try done; try lia; try (by intros [?|?]). unfold PIPEBUFSIZ. lia.
  - eapply pipe_step_inv; [apply IH| |]; [|done..].
    apply pipe_step_mono, prefix_length in Hs. unfold no_wrap in *. lia.
Qed.
End fifo.

(** C37. A pipe is a FIFO of 32 bytes, if its page starts with equal positions that
    are not negative.  In every interleaving of one reader and one writer, preempted
    at any access, while the positions stay below 2^31: the bytes the reader has
    taken are a prefix of the bytes the writer handed over, at most 32 behind; a call
    of devpipe_read that returned [v] took exactly the last [v] of them, at most as
    many as were asked for; and a write in progress has handed over the first [w_i]
    bytes of its buffer, in order. *)
Theorem pipe_fifo pg x :
  p_rpos pg = p_wpos pg → 0 ≤ p_wpos pg → pipe_reach pg x →
  p_wpos pg + Z.of_nat (length (w_all (ps_wr x))) < 2 ^ 31 →
  let r := ps_rd x in let w := ps_wr x in
  r_all r `prefix_of` w_all w ∧
  Z.of_nat (length (w_all w)) - Z.of_nat (length (r_all r)) ≤ PIPEBUFSIZ ∧
  r_buf r `suffix_of` r_all r ∧ Z.of_nat (length (r_buf r)) ≤ r_n r ∧
  (r_pc r = PIdle → r_ret r = Z.of_nat (length (r_buf r))) ∧
  List.map u8 (take (w_i w) (w_buf w)) `suffix_of` w_all w.
Proof.
  intros He H0 Hx Hn. destruct (pipe_reach_inv (p_wpos pg) pg x He eq_refl H0 Hx Hn) as
    [Hw Hr H0b Hp Hc Hf Hb Hln Heo Hre Hro Hce Hst Hrb Hwb Hwi].
  assert (0 ≤ taken (r_pc (ps_rd x)) ≤ 1) by (destruct (r_pc (ps_rd x)); cbn; lia).
  split_and!; try done. lia.
Qed.

(** ** Is the other end closed?

    The reference counts of the reader's file descriptor page, the writer's, and
    the data page.  dup and fork map the data page before the descriptor (fork
    copies pages from the top down), devpipe_close unmaps the descriptor before
    the data; [dup_r], [dup_w] and [closing] count the environments in between. *)
Record pipe_refs : Type := mkRefs
  { ref_r : Z; ref_w : Z; ref_p : Z; dup_r : Z; dup_w : Z; closing : Z }.

(** One system call of one environment. *)
Inductive ref_step : pipe_refs → pipe_refs → Prop :=
  | dup_data_r r w p d e c : 0 < r →
      ref_step (mkRefs r w p d e c) (mkRefs r w (p + 1) (d + 1) e c)
  | dup_data_w r w p d e c : 0 < w →
      ref_step (mkRefs r w p d e c) (mkRefs r w (p + 1) d (e + 1) c)
  | dup_fd_r r w p d e c : 0 < d →
      ref_step (mkRefs r w p d e c) (mkRefs (r + 1) w p (d - 1) e c)
  | dup_fd_w r w p d e c : 0 < e →
      ref_step (mkRefs r w p d e c) (mkRefs r (w + 1) p d (e - 1) c)
  | dup_fail_r r w p d e c : 0 < d →
      ref_step (mkRefs r w p d e c) (mkRefs r w (p - 1) (d - 1) e c)
  | dup_fail_w r w p d e c : 0 < e →
      ref_step (mkRefs r w p d e c) (mkRefs r w (p - 1) d (e - 1) c)
  | close_fd_r r w p d e c : 0 < r →
      ref_step (mkRefs r w p d e c) (mkRefs (r - 1) w p d e (c + 1))
  | close_fd_w r w p d e c : 0 < w →
      ref_step (mkRefs r w p d e c) (mkRefs r (w - 1) p d e (c + 1))
  | close_data r w p d e c : 0 < c →
      ref_step (mkRefs r w p d e c) (mkRefs r w (p - 1) d e (c - 1)).

(** After [pipe]: each descriptor once, the data page under both. *)
Definition refs0 : pipe_refs := mkRefs 1 1 2 0 0 0.

Inductive refs_reach : pipe_refs → Prop :=
  | refs_init : refs_reach refs0
  | refs_step a b : refs_reach a → ref_step a b → refs_reach b.

(** One round of _pipeisclosed, from what it reads in order: env_runs, the count
    of its descriptor page, the count of the data page, env_runs.  [None]: the
    environment was rescheduled meanwhile, and the loop goes round again. *)
Definition pipeisclosed_round (n fdref pref nn : Z) : option bool :=
  if n =? nn then Some (fdref =? pref) else None.

Record refs_inv (a : pipe_refs) : Prop := {
  ri_sum : ref_p a = ref_r a + ref_w a + dup_r a + dup_w a + closing a;
  ri_nonneg : 0 ≤ ref_r a ∧ 0 ≤ ref_w a ∧ 0 ≤ dup_r a ∧ 0 ≤ dup_w a ∧ 0 ≤ closing a
}.

Lemma refs_reach_inv a : refs_reach a → refs_inv a.
Proof.
  induction 1 as [|a b _ [Hs Hn] Hst]; [by split|].
  destruct Hst; split; cbn in *; lia.
Qed.

(** _pipeisclosed, when the two counts are read in one state: an end is
    reported closed only if no environment has the other end, nor is duplicating
    it; and when no close or dup is under way the answer is exact. *)
Theorem pipeisclosed_exact a n :
  refs_reach a →
  (pipeisclosed_round n (ref_r a) (ref_p a) n = Some true → ref_w a = 0 ∧ dup_w a = 0) ∧
  (pipeisclosed_round n (ref_w a) (ref_p a) n = Some true → ref_r a = 0 ∧ dup_r a = 0) ∧
  (dup_r a = 0 → dup_w a = 0 → closing a = 0 →
     pipeisclosed_round n (ref_r a) (ref_p a) n = Some (ref_w a =? 0) ∧
     pipeisclosed_round n (ref_w a) (ref_p a) n = Some (ref_r a =? 0)).
Proof.
  intros [Hs Hn]%refs_reach_inv. unfold pipeisclosed_round. rewrite Z.eqb_refl.
  split_and!.
  - intros [= H%Z.eqb_eq]. lia.
  - intros [= H%Z.eqb_eq]. lia.
  - intros ???. split; f_equal; apply Bool.eq_true_iff_eq;
      rewrite !Z.eqb_eq; lia.
Qed.

(** The two counts are read one after the other, and [env_runs] only shows that
    the environment kept its own CPU: on another CPU a second reader can close
    its end in between, and a reader is told the pipe is closed while a writer
    still has it. *)
Theorem pipeisclosed_race :
  ∃ a b c, refs_reach a ∧ ref_step a b ∧ ref_step b c ∧
    pipeisclosed_round 7 (ref_r a) (ref_p c) 7 = Some true ∧ 0 < ref_w c.
Proof.
  exists (mkRefs 2 1 3 0 0 0), (mkRefs 1 1 3 0 0 1), (mkRefs 1 1 2 0 0 0).
  split_and!; [|by constructor..|reflexivity|done].
  apply (refs_step (mkRefs 1 1 3 1 0 0)); [|by apply dup_fd_r].
  apply (refs_step refs0); [constructor|]. by apply dup_data_r.
Qed.

(** copy_shared_pages (lib/spawn.c) goes upwards, so it maps the child's
    descriptor page before the data page; until it gets there, the reader of a
    fresh pipe is told it is closed. *)
Definition spawn_share_fd_r (a : pipe_refs) : pipe_refs :=
  mkRefs (ref_r a + 1) (ref_w a) (ref_p a) (dup_r a) (dup_w a) (closing a).

Theorem spawn_order_race :
  let a := spawn_share_fd_r refs0 in
  pipeisclosed_round 7 (ref_r a) (ref_p a) 7 = Some true ∧ 0 < ref_w a.
Proof. by split. Qed.

(** ** Instances *)

(** A run given by which environment moves: [true] the reader. *)
Fixpoint pipe_run (l : list bool) (x : pipe_sys) : pipe_sys :=
  match l with
  | [] => x
  | true :: l' => let '(p, r) := read_step false (ps_pipe x) (ps_rd x) in
                  pipe_run l' (mkPS p r (ps_wr x))
  | false :: l' => let '(p, w) := write_step false (ps_pipe x) (ps_wr x) in
                   pipe_run l' (mkPS p (ps_rd x) w)
  end.

Lemma pipe_run_reach pg l x : pipe_reach pg x → pipe_reach pg (pipe_run l x).
Proof.
  revert x. induction l as [|[] l IH]; intros [p r w] Hx; cbn; [done|..].
  - destruct (read_step false p r) as [p' r'] eqn:E. apply IH.
    eapply pipe_reach_step; [exact Hx|]. by econstructor.
  - destruct (write_step false p w) as [p' w'] eqn:E. apply IH.
    eapply pipe_reach_step; [exact Hx|]. by eapply ps_write.
Qed.

(** On a frame that was in use the positions can differ: the reader then takes bytes
    that nobody has written. *)
Theorem pipe_page_not_cleared :
  ∃ pg x, pipe_reach pg x ∧ w_all (ps_wr x) = [] ∧ r_all (ps_rd x) = [120].
Proof.
  set (pg := mkPipe 0 1 {[0 := 120]}).
  exists pg, (pipe_run [true; true] (mkPS pg (read_call 1 (ps_rd (pipe0 pg))) (ps_wr (pipe0 pg)))).
  split_and!; [|done|done]. apply pipe_run_reach. eapply pipe_reach_step; [apply pipe_reach_init|].
  by apply ps_read_call.
Qed.

(** A writes "ab" and B reads one byte, their steps interleaved, on a frame that was
    in use. *)
Definition ex_page : Pipe := mkPipe 7 7 {[7 := 120]}.
Definition ex_pipe : pipe_sys :=
  pipe_run [false; true; false; true; false; true; false; false; false; true; true; true; true]
    (mkPS ex_page (read_call 1 (ps_rd (pipe0 ex_page))) (write_call [97; 98] (ps_wr (pipe0 ex_page)))).

Lemma pipe_fifo_witness :
  r_ret (ps_rd ex_pipe) = 1 ∧ r_all (ps_rd ex_pipe) = [97] ∧
  r_all (ps_rd ex_pipe) `prefix_of` w_all (ps_wr ex_pipe).
Proof.
  split; [by vm_compute|]. split; [by vm_compute|].
  apply (pipe_fifo ex_page ex_pipe); [done|done| |by vm_compute].
  apply pipe_run_reach.
  eapply pipe_reach_step; [|by apply ps_write_call].
  eapply pipe_reach_step; [apply pipe_reach_init|]. by apply ps_read_call.
Defined.

Lemma pipeisclosed_exact_witness :
  let a := mkRefs 1 0 1 0 0 0 in pipeisclosed_round 7 (ref_r a) (ref_p a) 7 = Some true.
Proof.
  apply (pipeisclosed_exact (mkRefs 1 0 1 0 0 0) 7); [|done..].
  apply (refs_step (mkRefs 1 0 2 0 0 1)); [|by apply close_data].
  apply (refs_step refs0); [constructor|by apply close_fd_w].
Defined.
