(* ===== verification/Bc.v ===== *)
(** * The block cache of the file server (fs/bc.c, fs/ide.c)

    Disk block [b] appears in the server's memory at [DISKMAP + b * BLKSIZE].
    [fs_mapped] and [fs_dirty] are the PTE_P and PTE_D bits of that range.  An
    access to an unmapped block faults to [bc_pgfault], which reads it in.

    The page-fault handler modelled is that of JOS-with-file-system/fs/bc.c; the
    one in JOS-with-network repeats part of the body before the page is mapped,
    and panics there ([bc_pgfault_merged]). *)
From stdpp Require Import gmap.
From S2P Require Import Prelude Mem StringC Printfmt KState.

Definition BLKSIZE : Z := PGSIZE.
Definition BLKBITSIZE : Z := BLKSIZE * 8.
Definition SECTSIZE : Z := 512.
Definition BLKSECTS : Z := BLKSIZE / SECTSIZE.
Definition DISKMAP : Z := 0x10000000.
Definition DISKSIZE : Z := 0xC0000000.

Record FsState : Type := mkFs
  { fs_mem : mem;             (* the server's memory *)
    fs_mapped : gset Z;       (* blocks in the cache *)
    fs_dirty : gset Z;
    fs_disk : mem;            (* by byte of the disk *)
    fs_free_pages : Z;        (* pages the kernel can still give *)
    super : Z;                (* 0 until fs_init sets it; likewise bitmap *)
    bitmap : Z }.

Definition set_fs_mem (v : mem) (s : FsState) : FsState :=
  mkFs v (fs_mapped s) (fs_dirty s) (fs_disk s) (fs_free_pages s) (super s) (bitmap s).
Definition set_fs_cache (m d : gset Z) (s : FsState) : FsState :=
  mkFs (fs_mem s) m d (fs_disk s) (fs_free_pages s) (super s) (bitmap s).
Definition set_fs_disk (v : mem) (s : FsState) : FsState :=
  mkFs (fs_mem s) (fs_mapped s) (fs_dirty s) v (fs_free_pages s) (super s) (bitmap s).
Definition set_fs_free_pages (v : Z) (s : FsState) : FsState :=
  mkFs (fs_mem s) (fs_mapped s) (fs_dirty s) (fs_disk s) v (super s) (bitmap s).

Definition F : Type → Type := M FsState False.

Definition in_map (va : Z) : bool := (DISKMAP <=? va) && (va <? DISKMAP + DISKSIZE).
Definition blk_of (va : Z) : Z := (va - DISKMAP) / BLKSIZE.
Definition blk_va (b : Z) : Z := DISKMAP + b * BLKSIZE.

(** ** fs/ide.c: the drive itself never fails. *)
Definition ide_read (secno dst nsecs : Z) : F Z :=
  assert_ (nsecs <=? 256);;
  modify (λ s, set_fs_mem (store_bytes (fs_mem s) dst
    (load_bytes (fs_disk s) (secno * SECTSIZE) (Z.to_nat (nsecs * SECTSIZE)))) s);;
  mret 0.
Definition ide_write (secno src nsecs : Z) : F Z :=
  assert_ (nsecs <=? 256);;
  modify (λ s, set_fs_disk (store_bytes (fs_disk s) (secno * SECTSIZE)
    (load_bytes (fs_mem s) src (Z.to_nat (nsecs * SECTSIZE)))) s);;
  mret 0.

Definition va_is_mapped (va : Z) (s : FsState) : bool := bool_decide (blk_of va ∈ fs_mapped s).
Definition va_is_dirty (va : Z) (s : FsState) : bool := bool_decide (blk_of va ∈ fs_dirty s).

(** sys_page_alloc of the page of block [b], and sys_page_map of a page onto
    itself, which clears its dirty bit. *)
Definition map_new (b : Z) : F unit :=
  n ← gets fs_free_pages;
  if n <=? 0 then panic
  else modify (λ s, set_fs_free_pages (n - 1) (set_fs_cache ({[b]} ∪ fs_mapped s) (fs_dirty s) s)).
Definition remap (b : Z) : F unit :=
  s ← get;
  if bool_decide (b ∈ fs_mapped s)
  then modify (set_fs_cache (fs_mapped s) (fs_dirty s ∖ {[b]}))
  else panic.

(** Reads of [super->s_nblocks] and of the bitmap, by way of [touch]: the access
    to an address, which may fault. *)
Section with_touch.
Context (touch : Z → F unit).

Definition load32_by (va : Z) : F Z := touch va;; gets (λ s, ld32 (fs_mem s) va).

Definition block_is_free_by (blockno : Z) : F bool :=
  sup ← gets super;
  if sup =? 0 then mret false
  else
    nb ← load32_by (sup + 4);
    if nb <=? blockno then mret false
    else
      bm ← gets bitmap;
      w ← load32_by (bm + 4 * (blockno / 32));
      mret (truthy (Z.land w (Z.shiftl 1 (blockno mod 32)))).

Definition bc_pgfault (fault_va : Z) : F unit :=
  let blockno := blk_of fault_va in
  if negb (in_map fault_va) then panic
  else
    sup ← gets super;
    bad ← (if sup =? 0 then mret false
           else nb ← load32_by (sup + 4); mret (nb <=? blockno));
    if (bad : bool) then panic
    else
      let addr := fault_va - fault_va mod BLKSIZE in
      map_new (blk_of addr);;
      _ ← ide_read (u32 (blockno * BLKSECTS)) addr BLKSECTS;
      remap (blk_of addr);;
      bm ← gets bitmap;
      free ← (if bm =? 0 then mret false else block_is_free_by blockno);
      if (free : bool) then panic else mret tt.

(** The handler of JOS-with-network/fs/bc.c up to its second copy of the body:
    the page is not mapped, so its uvpt entry is 0, and sys_page_map refuses the
    permissions 0. *)
Definition bc_pgfault_merged (fault_va : Z) : F unit :=
  let blockno := blk_of fault_va in
  if negb (in_map fault_va) then panic
  else
    sup ← gets super;
    bad ← (if sup =? 0 then mret false
           else nb ← load32_by (sup + 4); mret (nb <=? blockno));
    if (bad : bool) then panic
    else
      s ← get;
      (if va_is_mapped fault_va s && (fault_va mod PGSIZE =? 0) then mret tt else panic);;
      bm ← gets bitmap;
      free ← (if bm =? 0 then mret false else block_is_free_by blockno);
      if (free : bool) then panic else bc_pgfault fault_va.
End with_touch.

(** A fault on a block reads its bitmap block, which may fault and read bitmap
    block 2; that one holds its own bit.  A deeper nesting does not occur. *)
Fixpoint touch_depth (n : nat) (va : Z) : F unit :=
  s ← get;
  if in_map va && negb (va_is_mapped va s) then
    match n with
    | O => panic
    | Datatypes.S n' => bc_pgfault (touch_depth n') va
    end
  else mret tt.
Definition touch : Z → F unit := touch_depth 3.

Definition diskaddr (blockno : Z) : F Z :=
  if blockno =? 0 then panic
  else
    sup ← gets super;
    if sup =? 0 then mret (blk_va blockno)
    else
      nb ← load32_by touch (sup + 4);
      if nb <=? blockno then panic else mret (blk_va blockno).

Definition flush_block (addr : Z) : F unit :=
  let blockno := blk_of addr in
  if negb (in_map addr) then panic
  else
    s ← get;
    if negb (va_is_mapped addr s) || negb (va_is_dirty addr s) then mret tt
    else
      let addr := addr - addr mod BLKSIZE in
      _ ← ide_write (u32 (blockno * BLKSECTS)) addr BLKSECTS;
      remap (blk_of addr).

(** ** Accesses of fs.c to the server's memory *)

(** The blocks under [n] bytes at [va]; an access touches each of them. *)
Definition blocks_of (va n : Z) : list Z :=
  List.filter (λ b, in_map (blk_va b)) (seqZ (blk_of va) (blk_of (va + n - 1) + 1 - blk_of va)).
Definition touch_all (va n : Z) : F unit :=
  for_each (blk_of va) (blk_of (va + n - 1) + 1) (λ b, touch (blk_va b)).
Definition mark_dirty (va n : Z) (s : FsState) : FsState :=
  set_fs_cache (fs_mapped s) (list_to_set (blocks_of va n) ∪ fs_dirty s) s.

Definition load8 (va : Z) : F Z := touch_all va 1;; gets (λ s, ldb (fs_mem s) va).
Definition load32 (va : Z) : F Z := touch_all va 4;; gets (λ s, ld32 (fs_mem s) va).
Definition store8 (va v : Z) : F unit :=
  touch_all va 1;; modify (λ s, mark_dirty va 1 (set_fs_mem (stb (fs_mem s) va v) s)).
Definition store32 (va v : Z) : F unit :=
  touch_all va 4;; modify (λ s, mark_dirty va 4 (set_fs_mem (st32 (fs_mem s) va v) s)).
Definition move (dst src n : Z) : F unit :=
  touch_all src n;; touch_all dst n;;
  modify (λ s, mark_dirty dst n (set_fs_mem (memmove (fs_mem s) dst src n) s)).

Definition block_is_free : Z → F bool := block_is_free_by touch.

(** ** Coherence of the cache *)

Definition NDISKBLKS : Z := DISKSIZE / BLKSIZE.

(** Every block in the cache that is not marked dirty is as on disk. *)
Record coherent (s : FsState) : Prop := {
  co_range : ∀ b, b ∈ fs_mapped s → 0 ≤ b < NDISKBLKS;
  co_eq : ∀ b off, b ∈ fs_mapped s → b ∉ fs_dirty s → 0 ≤ off < BLKSIZE →
    ldb (fs_mem s) (blk_va b + off) = ldb (fs_disk s) (b * BLKSIZE + off);
  co_mem : bytes_ok (fs_mem s);
  co_disk : bytes_ok (fs_disk s)
}.

(** [I] survives [m], whatever [m] returns. *)
Definition keeps (I : FsState → Prop) {A} (m : F A) : Prop :=
  ∀ s, I s → match m s with Ret _ s' => I s' | _ => True end.

Section keeps_rules.
Context (I : FsState → Prop).

Lemma keeps_bind {A B} (m : F A) (k : A → F B) :
  keeps I m → (∀ a, keeps I (k a)) → keeps I (m ≫= k).
Proof.
  intros Hm Hk s Hs. specialize (Hm s Hs). unfold mbind, M_bind.
  destruct (m s) as [a s'|x s'|s']; [by apply Hk|done|done].
Qed.
Lemma keeps_ret {A} (a : A) : keeps I (mret a).
Proof. by intros s Hs. Qed.
Lemma keeps_get : keeps I get.
Proof. by intros s Hs. Qed.
Lemma keeps_gets {A} (f : FsState → A) : keeps I (gets f).
Proof. by intros s Hs. Qed.
Lemma keeps_panic {A} : keeps I (panic : F A).
Proof. by intros s Hs. Qed.
Lemma keeps_assert b : keeps I (assert_ b).
Proof. destruct b; [apply keeps_ret|apply keeps_panic]. Qed.
Lemma keeps_when b m : keeps I m → keeps I (when b m).
Proof. intros. destruct b; [done|apply keeps_ret]. Qed.
Lemma keeps_for_n {R} n i (body : Z → F (option R)) :
  (∀ j, keeps I (body j)) → keeps I (for_n n i body).
Proof.
  intros Hb. revert i. induction n as [|n IH]; intros i; cbn [for_n]; [apply keeps_ret|].
  apply keeps_bind; [apply Hb|]. intros [x|]; [apply keeps_ret|apply IH].
Qed.
Lemma keeps_for_range {R} lo hi (body : Z → F (option R)) :
  (∀ j, keeps I (body j)) → keeps I (for_range lo hi body).
Proof. intros. by apply keeps_for_n. Qed.
Lemma keeps_for_each lo hi (body : Z → F unit) :
  (∀ j, keeps I (body j)) → keeps I (for_each lo hi body).
Proof.
  intros Hb. apply keeps_bind; [|intros; apply keeps_ret].
  apply keeps_for_range. intros j. apply keeps_bind; [apply Hb|intros; apply keeps_ret].
Qed.
End keeps_rules.

Create HintDb keeps.
#[export] Hint Resolve keeps_ret keeps_get keeps_gets keeps_panic keeps_assert : keeps.

(** Split a program into its calls and discharge them from the database. *)
Ltac keeps_tac :=
  repeat first
    [ solve [auto with keeps]
    | apply keeps_bind; [|intros]
    | apply keeps_when
    | apply keeps_for_range; intros
    | apply keeps_for_each; intros
    | case_match ].

Lemma blk_of_va b off : 0 ≤ off < BLKSIZE → blk_of (blk_va b + off) = b.
Proof. unfold blk_of, blk_va, BLKSIZE, PGSIZE. intros. zlia. Qed.

Lemma in_map_blk b : in_map (blk_va b) = true ↔ 0 ≤ b < NDISKBLKS.
Proof.
  unfold in_map, blk_va, NDISKBLKS, BLKSIZE, PGSIZE, DISKMAP, DISKSIZE.
  rewrite andb_true_iff, Z.leb_le, Z.ltb_lt. zlia.
Qed.

Lemma in_map_range va : in_map va = true → 0 ≤ blk_of va < NDISKBLKS.
Proof.
  unfold in_map, blk_of, NDISKBLKS, BLKSIZE, PGSIZE, DISKMAP, DISKSIZE.
  rewrite andb_true_iff, Z.leb_le, Z.ltb_lt. zlia.
Qed.

Lemma blocks_of_in va n c :
  va ≤ c < va + n → 0 ≤ blk_of c < NDISKBLKS → blk_of c ∈ blocks_of va n.
Proof.
  intros Hc Hb. unfold blocks_of. apply list_elem_of_In, filter_In.
  rewrite in_map_blk. split; [|done]. apply list_elem_of_In, elem_of_seqZ.
  unfold blk_of, BLKSIZE, PGSIZE in *. zlia.
Qed.

(** A write within the bytes whose blocks it marks. *)
Lemma coherent_write va n (g : mem → mem) s :
  (∀ m c, c < va ∨ va + n ≤ c → ldb (g m) c = ldb m c) →
  (∀ m, bytes_ok m → bytes_ok (g m)) →
  coherent s → coherent (mark_dirty va n (set_fs_mem (g (fs_mem s)) s)).
Proof.
  intros Hg Hok [Hr He Hm Hd]. split; cbn; [done| |by apply Hok|done].
  intros b off Hb Hdirty Hoff. rewrite not_elem_of_union in Hdirty. destruct Hdirty as [Hn Hnd].
  rewrite Hg; [by apply He|].
  destruct (decide (blk_va b + off < va)); [by left|].
  destruct (decide (va + n ≤ blk_va b + off)); [by right|]. exfalso. apply Hn.
  apply elem_of_list_to_set. rewrite <- (blk_of_va b off) at 1 by done.
  apply blocks_of_in; [lia|]. rewrite blk_of_va by done. auto.
Qed.

(** bc_pgfault's page: mapped, read from the disk, marked clean. *)
Definition read_in (b : Z) (s : FsState) : FsState :=
  mkFs (store_bytes (fs_mem s) (blk_va b)
          (load_bytes (fs_disk s) (b * BLKSIZE) (Z.to_nat BLKSIZE)))
       ({[b]} ∪ fs_mapped s) (fs_dirty s ∖ {[b]}) (fs_disk s) (fs_free_pages s - 1)
       (super s) (bitmap s).

Lemma coherent_read_in b s : 0 ≤ b < NDISKBLKS → coherent s → coherent (read_in b s).
Proof.
  intros Hb [Hr He Hm Hd]. split; cbn [read_in fs_mapped fs_mem fs_disk fs_dirty]; [| | |done].
  - intros c. rewrite elem_of_union, elem_of_singleton. intros [->|?]; auto.
  - intros c off Hc Hn Hoff. rewrite ldb_copy by done.
    unfold blk_va, BLKSIZE, PGSIZE in *. case_decide as Hin.
    + f_equal. lia.
    + assert (c ≠ b) by (intros ->; lia). apply He; set_solver.
  - by apply bytes_ok_store_bytes.
Qed.

(** flush_block's write and clean-up. *)
Definition written_back (b : Z) (s : FsState) : FsState :=
  mkFs (fs_mem s) (fs_mapped s) (fs_dirty s ∖ {[b]})
       (store_bytes (fs_disk s) (b * BLKSIZE)
          (load_bytes (fs_mem s) (blk_va b) (Z.to_nat BLKSIZE)))
       (fs_free_pages s) (super s) (bitmap s).

Lemma coherent_written_back b s : coherent s → coherent (written_back b s).
Proof.
  intros [Hr He Hm Hd]. split; cbn [written_back fs_mapped fs_mem fs_disk fs_dirty]; [done| |done|].
  - intros c off Hc Hn Hoff. rewrite ldb_copy by done.
    unfold blk_va, BLKSIZE, PGSIZE in *. case_decide as Hin.
    + f_equal. lia.
    + assert (c ≠ b) by (intros ->; lia). apply He; set_solver.
  - by apply bytes_ok_store_bytes.
Qed.

Lemma blk_sector b : 0 ≤ b < NDISKBLKS → u32 (b * BLKSECTS) * SECTSIZE = b * BLKSIZE.
Proof.
  intros Hb. change NDISKBLKS with 786432 in Hb. change BLKSECTS with 8.
  rewrite u32_id by lia. unfold SECTSIZE, BLKSIZE, PGSIZE. lia.
Qed.

Lemma page_addr va : va - va mod BLKSIZE = blk_va (blk_of va).
Proof. unfold blk_va, blk_of, BLKSIZE, PGSIZE, DISKMAP. zlia. Qed.

Lemma blk_of_blk_va b : blk_of (blk_va b) = b.
Proof. unfold blk_va, blk_of, BLKSIZE, PGSIZE, DISKMAP. zlia. Qed.

Lemma read_in_run {A} b (k : F A) s :
  0 ≤ b < NDISKBLKS →
  (map_new b;; _ ← ide_read (u32 (b * BLKSECTS)) (blk_va b) BLKSECTS; remap b;; k) s =
  if fs_free_pages s <=? 0 then Panic s else k (read_in b s).
Proof.
  intros Hb. unfold map_new, mbind, M_bind, gets at 1. destruct (_ <=? 0); [done|].
  unfold ide_read, modify, assert_, mbind, M_bind. rewrite (blk_sector b Hb).
  change (BLKSECTS <=? 256) with true. cbn [mret M_ret].
  unfold remap, get, mbind, M_bind. rewrite bool_decide_true; [done|].
  cbn [set_fs_mem set_fs_free_pages set_fs_cache fs_mapped]. set_solver.
Qed.

Lemma write_back_run b s :
  0 ≤ b < NDISKBLKS → b ∈ fs_mapped s →
  (_ ← ide_write (u32 (b * BLKSECTS)) (blk_va b) BLKSECTS; remap b) s =
  Ret tt (written_back b s).
Proof.
  intros Hb Hm. unfold ide_write, modify, assert_, mbind, M_bind. rewrite (blk_sector b Hb).
  change (BLKSECTS <=? 256) with true. cbn [mret M_ret].
  unfold remap, get, mbind, M_bind. rewrite bool_decide_true; [done|exact Hm].
Qed.

Section touch_keeps.
Context (t : Z → F unit) (Ht : ∀ va, keeps coherent (t va)).

Lemma keeps_load32_by va : keeps coherent (load32_by t va).
Proof. unfold load32_by. apply keeps_bind; auto with keeps. Qed.

Lemma keeps_block_is_free_by b : keeps coherent (block_is_free_by t b).
Proof. pose proof keeps_load32_by. unfold block_is_free_by. keeps_tac. Qed.

Lemma keeps_bc_pgfault va : keeps coherent (bc_pgfault t va).
Proof.
  pose proof keeps_load32_by. pose proof keeps_block_is_free_by. unfold bc_pgfault.
  destruct (in_map va) eqn:Hin; cbn [negb]; [|auto with keeps].
  apply keeps_bind; [auto with keeps|intros sup].
  apply keeps_bind; [keeps_tac|intros []]; [auto with keeps|].
  rewrite page_addr, blk_of_blk_va. apply in_map_range in Hin.
  intros s Hs. cbv zeta. rewrite read_in_run by done. destruct (_ <=? 0); [done|].
  revert s Hs. intros s Hs. pose proof (coherent_read_in _ s Hin Hs) as Hs'.
  revert Hs'. generalize (read_in (blk_of va) s). fold (keeps coherent (A := unit)).
  match goal with |- ∀ x, coherent x → match ?m x with _ => _ end => change (keeps coherent m) end.
  keeps_tac.
Qed.
End touch_keeps.

Lemma keeps_touch va : keeps coherent (touch va).
Proof.
  unfold touch. generalize 3%nat. intros n. revert va.
  induction n as [|n IH]; intros va; cbn [touch_depth]; apply keeps_bind; auto with keeps;
    intros s0; case_match; auto with keeps. by apply keeps_bc_pgfault.
Qed.
#[export] Hint Resolve keeps_touch : keeps.

Lemma keeps_touch_all va n : keeps coherent (touch_all va n).
Proof. unfold touch_all. keeps_tac. Qed.
#[export] Hint Resolve keeps_touch_all : keeps.

Lemma keeps_modify (I : FsState → Prop) g : (∀ s, I s → I (g s)) → keeps I (modify g).
Proof. intros Hg s Hs. by apply Hg. Qed.

Lemma keeps_block_is_free b : keeps coherent (block_is_free b).
Proof. apply keeps_block_is_free_by, keeps_touch. Qed.

Lemma keeps_load8 va : keeps coherent (load8 va).
Proof. unfold load8. keeps_tac. Qed.
Lemma keeps_load32 va : keeps coherent (load32 va).
Proof. unfold load32. keeps_tac. Qed.

Lemma keeps_diskaddr b : keeps coherent (diskaddr b).
Proof. pose proof (keeps_load32_by touch keeps_touch). unfold diskaddr. keeps_tac. Qed.

Lemma keeps_store8 va v : keeps coherent (store8 va v).
Proof.
  unfold store8. apply keeps_bind; [auto with keeps|intros _].
  apply keeps_modify. intros s. apply (coherent_write va 1 (λ m, stb m va v)).
  - intros m c Hc. apply ldb_stb_ne. lia.
  - intros m. apply bytes_ok_stb.
Qed.
Lemma keeps_store32 va v : keeps coherent (store32 va v).
Proof.
  unfold store32. apply keeps_bind; [auto with keeps|intros _].
  apply keeps_modify. intros s. apply (coherent_write va 4 (λ m, st32 m va v)).
  - intros m c Hc. apply ldb_stn_out. lia.
  - intros m. apply bytes_ok_stn.
Qed.
Lemma keeps_move dst src n : keeps coherent (move dst src n).
Proof.
  unfold move. apply keeps_bind; [auto with keeps|intros _].
  apply keeps_bind; [auto with keeps|intros _].
  apply keeps_modify. intros s. apply (coherent_write dst n (λ m, memmove m dst src n)).
  - intros m c Hc. by apply memmove_out.
  - intros m. apply bytes_ok_memmove.
Qed.

Lemma keeps_flush_block va : keeps coherent (flush_block va).
Proof.
  unfold flush_block. destruct (in_map va) eqn:Hin; cbn [negb]; [|auto with keeps].
  apply in_map_range in Hin. intros s Hs. unfold get, mbind at 1, M_bind at 1.
  unfold va_is_mapped, va_is_dirty. case_bool_decide as Hm; cbn [negb orb]; [|done].
  case_bool_decide as Hd; cbn [negb]; [|done].
  rewrite page_addr, blk_of_blk_va, write_back_run by done. by apply coherent_written_back.
Qed.
#[export] Hint Resolve keeps_block_is_free keeps_load8 keeps_load32 keeps_diskaddr
  keeps_store8 keeps_store32 keeps_move keeps_flush_block : keeps.

(** The handler of JOS-with-network panics on its first fault. *)
Theorem merged_panics t va s :
  super s = 0 → va_is_mapped va s = false → bc_pgfault_merged t va s = Panic s.
Proof.
  intros Hs Hm. unfold bc_pgfault_merged, mbind, M_bind, gets, get.
  destruct (in_map va); [|done]. cbn [negb]. rewrite Hs. simpl. by rewrite Hm.
Qed.
