(* ===== verification/Fs.v ===== *)
(** * The file system of the file server (fs/fs.c)

    Pointers to [struct File] and to block numbers are addresses of the block
    cache.  The path and the local arrays [name], [lastelem] are lists of bytes. *)
From stdpp Require Import gmap.
From S2P Require Import Prelude Mem StringC Printfmt KState Bc.

Definition MAXNAMELEN : Z := 128.
Definition NDIRECT : Z := 10.
Definition NINDIRECT : Z := BLKSIZE / 4.
Definition FILE_SIZE : Z := 256.
Definition BLKFILES : Z := BLKSIZE / FILE_SIZE.
Definition FTYPE_DIR : Z := 1.
Definition FS_MAGIC : Z := 0x4A0530AE.

(** Fields of [struct File] and [struct Super]. *)
Definition f_name (f : Z) : Z := f.
Definition f_size (f : Z) : Z := f + 128.
Definition f_type (f : Z) : Z := f + 132.
Definition f_direct (f i : Z) : Z := f + 136 + 4 * i.
Definition f_indirect (f : Z) : Z := f + 176.
Definition s_magic (sup : Z) : Z := sup.
Definition s_nblocks (sup : Z) : Z := sup + 4.
Definition s_root (sup : Z) : Z := sup + 8.

Definition load_off_t (va : Z) : F Z := x ← load32 va; mret (i32 x).

(** ** Super block and bitmap *)

Definition check_super : F unit :=
  sup ← gets super;
  m ← load32 (s_magic sup);
  if negb (m =? FS_MAGIC) then panic
  else nb ← load32 (s_nblocks sup); if DISKSIZE / BLKSIZE <? nb then panic else mret tt.

Definition bitmap_word (bm blockno : Z) : Z := bm + 4 * (blockno / 32).
Definition bitmap_bit (blockno : Z) : Z := Z.shiftl 1 (blockno mod 32).

Definition free_block (blockno : Z) : F unit :=
  if blockno =? 0 then panic
  else
    bm ← gets bitmap;
    w ← load32 (bitmap_word bm blockno);
    store32 (bitmap_word bm blockno) (Z.lor w (bitmap_bit blockno)).

(** [blocks_allocated] only counts for a message. *)
Definition alloc_block : F Z :=
  sup ← gets super;
  nb ← load32 (s_nblocks sup);
  r ← for_range 2 nb (λ blockno,
    free ← block_is_free blockno;
    if (free : bool) then
      bm ← gets bitmap;
      w ← load32 (bitmap_word bm blockno);
      store32 (bitmap_word bm blockno) (Z.land w (Z.lnot (bitmap_bit blockno)));;
      flush_block bm;;
      mret (Some blockno)
    else mret None);
  mret (default (- E_NO_DISK) r).

Definition check_bitmap : F unit :=
  sup ← gets super;
  nb ← load32 (s_nblocks sup);
  for_each 0 ((nb + BLKBITSIZE - 1) / BLKBITSIZE) (λ i,
    free ← block_is_free (2 + i); assert_ (negb free));;
  free ← block_is_free 0; assert_ (negb free);;
  free ← block_is_free 1; assert_ (negb free).

(** ** Block pointers *)

(** The result code, and the address stored in [*ppdiskbno]. *)
Definition file_block_walk (f filebno : Z) (alloc : bool) : F (Z * Z) :=
  if NDIRECT + NINDIRECT <=? filebno then mret (- E_INVAL, 0)
  else
    size ← load_off_t (f_size f);
    if u32 (Z.quot size BLKSIZE) <? filebno then mret (- E_NOT_FOUND, 0)
    else if filebno <? 10 then mret (0, f_direct f filebno)
    else
      let filebno := filebno - 10 in
      ind ← load32 (f_indirect f);
      if negb (ind =? 0) then indirect ← diskaddr ind; mret (0, indirect + 4 * filebno)
      else if alloc then
        freeBlock ← alloc_block;
        if freeBlock =? - E_NO_DISK then mret (- E_NO_DISK, 0)
        else
          store32 (f_indirect f) freeBlock;;
          p ← diskaddr freeBlock;
          mret (0, p + 4 * filebno)
      else mret (- E_NOT_FOUND, 0).

(** The result code, and [*blk]. *)
Definition file_get_block (f filebno : Z) : F (Z * Z) :=
  if (NDIRECT + NINDIRECT <=? filebno) || (f =? 0) then mret (- E_INVAL, 0)
  else
    w ← file_block_walk f filebno true;
    if fst w <? 0 then mret (- E_NO_DISK, 0)
    else
      b ← load32 (snd w);
      if negb (b =? 0) then blk ← diskaddr b; mret (0, blk)
      else
        freeBlock ← alloc_block;
        if freeBlock =? - E_NO_DISK then mret (- E_NO_DISK, 0)
        else
          store32 (snd w) freeBlock;;
          blk ← diskaddr freeBlock;
          mret (0, blk).

Definition file_free_block (f filebno : Z) : F Z :=
  w ← file_block_walk f filebno false;
  if fst w <? 0 then mret (fst w)
  else
    b ← load32 (snd w);
    (if b =? 0 then mret tt else free_block b;; store32 (snd w) 0);;
    mret 0.

Definition nblocks_for (size : Z) : Z := u32 (Z.quot (size + BLKSIZE - 1) BLKSIZE).

Definition file_truncate_blocks (f newsize : Z) : F unit :=
  size ← load_off_t (f_size f);
  let old_nblocks := nblocks_for size in
  let new_nblocks := nblocks_for newsize in
  for_each new_nblocks old_nblocks (λ bno, _ ← file_free_block f bno; mret tt);;
  if new_nblocks <=? NDIRECT then
    ind ← load32 (f_indirect f);
    if negb (ind =? 0) then free_block ind;; store32 (f_indirect f) 0 else mret tt
  else mret tt.

Definition file_set_size (f newsize : Z) : F Z :=
  size ← load_off_t (f_size f);
  when (newsize <? size) (file_truncate_blocks f newsize);;
  store32 (f_size f) newsize;;
  flush_block f;;
  mret 0.

Definition file_flush (f : Z) : F unit :=
  size ← load_off_t (f_size f);
  for_each 0 (Z.quot (size + BLKSIZE - 1) BLKSIZE) (λ i,
    w ← file_block_walk f i false;
    if (fst w <? 0) || (snd w =? 0) then mret tt
    else
      b ← load32 (snd w);
      if b =? 0 then mret tt else a ← diskaddr b; flush_block a);;
  flush_block f;;
  ind ← load32 (f_indirect f);
  if negb (ind =? 0) then a ← diskaddr ind; flush_block a else mret tt.

(** ** Reading and writing *)

(** The loop over the blocks from [pos] to [last]; [io] copies [bn] bytes between
    a block address and the buffer.  [Some r]: the loop returned [r]. *)
Fixpoint file_loop (n : nat) (f pos last buf : Z) (io : Z → Z → Z → F unit)
    : F (option Z) :=
  if u64 pos <? u64 last then
    match n with
    | O => panic
    | S n' =>
        r ← file_get_block f (u32 (Z.quot pos BLKSIZE));
        if fst r <? 0 then mret (Some (fst r))
        else
          let bn := Z.min (BLKSIZE - Z.rem pos BLKSIZE) (last - pos) in
          io (snd r + Z.rem pos BLKSIZE) buf bn;;
          file_loop n' f (pos + bn) last (buf + bn) io
    end
  else mret None.

(** One iteration per block of the range: at most [count / BLKSIZE + 2]. *)
Definition loop_fuel (count : Z) : nat := Z.to_nat (count / BLKSIZE + 2).

Definition file_read (f buf count offset : Z) : F Z :=
  size ← load_off_t (f_size f);
  if size <=? offset then mret 0
  else
    let count := Z.min count (u64 (size - offset)) in
    r ← file_loop (loop_fuel count) f offset (offset + count) buf (λ blk buf bn, move buf blk bn);
    mret (default (i32 count) r).

Definition file_write (f buf count offset : Z) : F Z :=
  size ← load_off_t (f_size f);
  r ← (if u64 size <? u64 (offset + count) then file_set_size f (i32 (offset + count))
       else mret 0);
  if r <? 0 then mret r
  else
    r ← file_loop (loop_fuel count) f offset (offset + count) buf (λ blk buf bn, move blk buf bn);
    mret (default (i32 count) r).

(** ** Directories *)

(** [strcmp(f_name, name) == 0], for the NUL-terminated [name]. *)
Fixpoint name_eq (va : Z) (name : list Z) : F bool :=
  c ← load8 va;
  match name with
  | [] => mret (c =? 0)
  | x :: name' => if c =? x then name_eq (va + 1) name' else mret false
  end.

Definition dir_lookup (dir : Z) (name : list Z) : F (Z * Z) :=
  size ← load_off_t (f_size dir);
  assert_ (Z.rem size BLKSIZE =? 0);;
  r ← for_range 0 (u32 (Z.quot size BLKSIZE)) (λ i,
    b ← file_get_block dir i;
    if fst b <? 0 then mret (Some (fst b, 0))
    else
      for_range 0 BLKFILES (λ j,
        same ← name_eq (f_name (snd b + FILE_SIZE * j)) name;
        mret (if (same : bool) then Some (0, snd b + FILE_SIZE * j) else None)));
  mret (default (- E_NOT_FOUND, 0) r).

Definition dir_alloc_file (dir : Z) : F (Z * Z) :=
  size ← load_off_t (f_size dir);
  assert_ (Z.rem size BLKSIZE =? 0);;
  let nblock := u32 (Z.quot size BLKSIZE) in
  r ← for_range 0 nblock (λ i,
    b ← file_get_block dir i;
    if fst b <? 0 then mret (Some (fst b, 0))
    else
      for_range 0 BLKFILES (λ j,
        c ← load8 (f_name (snd b + FILE_SIZE * j));
        mret (if c =? 0 then Some (0, snd b + FILE_SIZE * j) else None)));
  match r with
  | Some r => mret r
  | None =>
      store32 (f_size dir) (size + BLKSIZE);;
      b ← file_get_block dir nblock;
      if fst b <? 0 then mret (fst b, 0) else mret (0, snd b)
  end.

Definition slash : Z := 47.
Fixpoint skip_slash (p : list Z) : list Z :=
  match p with
  | c :: p' => if c =? slash then skip_slash p' else p
  | [] => []
  end.

(** The next element of a path, and what follows it. *)
Fixpoint path_elem (p : list Z) : list Z * list Z :=
  match p with
  | c :: p' => if c =? slash then ([], p) else let '(e, r) := path_elem p' in (c :: e, r)
  | [] => ([], [])
  end.

(** What walk_path stores: [*pdir] and [*pf] (0 for NULL), and [lastelem]. *)
Record walked : Type := mkWalked { w_ret : Z; w_dir : Z; w_file : Z; w_last : list Z }.

(** One iteration per element of [path]. *)
Fixpoint walk_loop (n : nat) (path : list Z) (dir f : Z) : F walked :=
  match path, n with
  | [], _ => mret (mkWalked 0 dir f [])
  | _, O => panic
  | _, S n' =>
      let dir := f in
      let '(name, rest) := path_elem path in
      if MAXNAMELEN <=? Z.of_nat (length name) then mret (mkWalked (- E_BAD_PATH) 0 0 [])
      else
        let path := skip_slash rest in
        t ← load32 (f_type dir);
        if negb (t =? FTYPE_DIR) then mret (mkWalked (- E_NOT_FOUND) 0 0 [])
        else
          r ← dir_lookup dir name;
          if fst r <? 0 then
            mret (if (fst r =? - E_NOT_FOUND) && bool_decide (path = [])
                  then mkWalked (fst r) dir 0 name else mkWalked (fst r) 0 0 [])
          else walk_loop n' path dir (snd r)
  end.
Definition walk_path (path : list Z) : F walked :=
  sup ← gets super;
  walk_loop (length path) (skip_slash path) 0 (s_root sup).

Fixpoint store_str (va : Z) (l : list Z) : F unit :=
  match l with
  | [] => store8 va 0
  | c :: l' => store8 va c;; store_str (va + 1) l'
  end.

(** The result code, and [*pf]. *)
Definition file_create (path : list Z) : F (Z * Z) :=
  w ← walk_path path;
  if w_ret w =? 0 then mret (- E_FILE_EXISTS, 0)
  else if negb (w_ret w =? - E_NOT_FOUND) || (w_dir w =? 0) then mret (w_ret w, 0)
  else
    r ← dir_alloc_file (w_dir w);
    if fst r <? 0 then mret r
    else
      store_str (f_name (snd r)) (w_last w);;
      file_flush (w_dir w);;
      mret (0, snd r).

Definition file_open (path : list Z) : F (Z * Z) :=
  w ← walk_path path; mret (w_ret w, w_file w).

Definition file_remove (path : list Z) : F Z :=
  w ← walk_path path;
  if w_ret w <? 0 then mret (w_ret w)
  else
    let f := w_file w in
    file_truncate_blocks f 0;;
    store8 (f_name f) 0;;
    store32 (f_size f) 0;;
    flush_block f;;
    mret 0.

Definition fs_sync : F unit :=
  sup ← gets super;
  nb ← load32 (s_nblocks sup);
  for_each 1 nb (λ i, a ← diskaddr i; flush_block a).

(** ** Every operation keeps the cache coherent *)

Lemma keeps_load_off_t va : keeps coherent (load_off_t va).
Proof. unfold load_off_t. keeps_tac. Qed.
#[export] Hint Resolve keeps_load_off_t : keeps.

Lemma keeps_free_block b : keeps coherent (free_block b).
Proof. unfold free_block. keeps_tac. Qed.
Lemma keeps_alloc_block : keeps coherent alloc_block.
Proof. unfold alloc_block. keeps_tac. Qed.
#[export] Hint Resolve keeps_free_block keeps_alloc_block : keeps.

Lemma keeps_file_block_walk f n a : keeps coherent (file_block_walk f n a).
Proof. unfold file_block_walk. keeps_tac. Qed.
#[export] Hint Resolve keeps_file_block_walk : keeps.
Lemma keeps_file_get_block f n : keeps coherent (file_get_block f n).
Proof. unfold file_get_block. keeps_tac. Qed.
Lemma keeps_file_free_block f n : keeps coherent (file_free_block f n).
Proof. unfold file_free_block. keeps_tac. Qed.
#[export] Hint Resolve keeps_file_get_block keeps_file_free_block : keeps.
Lemma keeps_file_truncate_blocks f n : keeps coherent (file_truncate_blocks f n).
Proof. unfold file_truncate_blocks. keeps_tac. Qed.
#[export] Hint Resolve keeps_file_truncate_blocks : keeps.
Lemma keeps_file_set_size f n : keeps coherent (file_set_size f n).
Proof. unfold file_set_size. keeps_tac. Qed.
Lemma keeps_file_flush f : keeps coherent (file_flush f).
Proof. unfold file_flush. keeps_tac. Qed.
#[export] Hint Resolve keeps_file_set_size keeps_file_flush : keeps.

Lemma keeps_file_loop n f pos last buf io :
  (∀ a b k, keeps coherent (io a b k)) → keeps coherent (file_loop n f pos last buf io).
Proof.
  intros Hio. revert pos buf. induction n as [|n IH]; intros pos buf; cbn [file_loop]; keeps_tac.
Qed.

Lemma keeps_name_eq va name : keeps coherent (name_eq va name).
Proof. revert va. induction name as [|c name IH]; intros va; cbn [name_eq]; keeps_tac. Qed.
#[export] Hint Resolve keeps_name_eq : keeps.
Lemma keeps_dir_lookup d name : keeps coherent (dir_lookup d name).
Proof. unfold dir_lookup. keeps_tac. Qed.
Lemma keeps_dir_alloc_file d : keeps coherent (dir_alloc_file d).
Proof. unfold dir_alloc_file. keeps_tac. Qed.
#[export] Hint Resolve keeps_dir_lookup keeps_dir_alloc_file : keeps.
Lemma keeps_walk_loop n path dir f : keeps coherent (walk_loop n path dir f).
Proof.
  revert path dir f. induction n as [|n IH]; intros path dir f; cbn [walk_loop]; keeps_tac.
Qed.
Lemma keeps_walk_path path : keeps coherent (walk_path path).
Proof. pose proof keeps_walk_loop. unfold walk_path. keeps_tac. Qed.
#[export] Hint Resolve keeps_walk_path : keeps.
Lemma keeps_store_str va l : keeps coherent (store_str va l).
Proof. revert va. induction l as [|c l IH]; intros va; cbn [store_str]; keeps_tac. Qed.
#[export] Hint Resolve keeps_store_str : keeps.

(** The operations the server offers to its clients. *)
Inductive fs_op : Type :=
  | OpCreate (path : list Z) | OpOpen (path : list Z) | OpRemove (path : list Z)
  | OpRead (f buf count offset : Z) | OpWrite (f buf count offset : Z)
  | OpSetSize (f newsize : Z) | OpFlush (f : Z) | OpSync.

Definition run_op (o : fs_op) : F unit :=
  match o with
  | OpCreate p => _ ← file_create p; mret tt
  | OpOpen p => _ ← file_open p; mret tt
  | OpRemove p => _ ← file_remove p; mret tt
  | OpRead f buf count off => _ ← file_read f buf count off; mret tt
  | OpWrite f buf count off => _ ← file_write f buf count off; mret tt
  | OpSetSize f n => _ ← file_set_size f n; mret tt
  | OpFlush f => file_flush f
  | OpSync => fs_sync
  end.

Fixpoint run_ops (l : list fs_op) : F unit :=
  match l with
  | [] => mret tt
  | o :: l' => run_op o;; run_ops l'
  end.

(** C18. Coherence of the block cache.  Whatever sequence of file operations the
    server carries out, every block in the cache is a block of the disk range, and
    if its dirty bit is clear it equals the block on disk: nothing is written to
    a block, on any path of any operation, without its page being marked, and
    flush_block and the fault handler clear the mark only when the two agree. *)
Theorem cache_coherent l s s' :
  coherent s → run_ops l s = Ret tt s' →
  ∀ b, b ∈ fs_mapped s' → 0 ≤ b < NDISKBLKS ∧
    (b ∉ fs_dirty s' → ∀ off, 0 ≤ off < BLKSIZE →
      ldb (fs_mem s') (blk_va b + off) = ldb (fs_disk s') (b * BLKSIZE + off)).
Proof.
  intros Hs Hrun. assert (Hk : keeps coherent (run_ops l)).
  { clear. induction l as [|o l IH]; cbn [run_ops]; [auto with keeps|].
    apply keeps_bind; [|auto]. pose proof keeps_file_loop.
    destruct o; unfold run_op, file_create, file_open, file_remove, file_read, file_write,
      fs_sync; keeps_tac. }
  specialize (Hk s Hs). rewrite Hrun in Hk. intros b Hb. split; [by apply Hk|].
  intros Hd off Hoff. by apply Hk.
Qed.
