(* ===== verification/FsView.v ===== *)
(** * The disk as the file server sees it

    [view] is the contents of the disk through the cache: a block in the cache
    reads from memory, any other from the disk.  Bringing a block in does not
    change it.  Under [fs_ok] every access the server may make succeeds. *)
From stdpp Require Import gmap.
From S2P Require Import Prelude Mem StringC Printfmt KState Bc Fs.

Definition view (s : FsState) (a : Z) : Z :=
  if in_map a && negb (va_is_mapped a s) then ldb (fs_disk s) (a - DISKMAP)
  else ldb (fs_mem s) a.

(** [n]-byte little-endian read. *)
Fixpoint vldn (n : nat) (v : Z → Z) (a : Z) : Z :=
  match n with
  | O => 0
  | S n' => v a + 256 * vldn n' v (a + 1)
  end.
Notation vld32 := (vldn 4).

Definition nblocks (s : FsState) : Z := vld32 (view s) (blk_va 1 + 4).
Definition is_free (s : FsState) (b : Z) : bool :=
  truthy (Z.land (vld32 (view s) (bitmap_word (blk_va 2) b)) (bitmap_bit b)).

(** After fs_init, with the bitmap in the cache, and pages for the whole disk. *)
Record fs_ok (s : FsState) : Prop := {
  fo_super : super s = blk_va 1;
  fo_bitmap : bitmap s = blk_va 2;
  fo_nb : 3 ≤ nblocks s ≤ NDISKBLKS;
  fo_sb : 1 ∈ fs_mapped s;
  fo_bm : ∀ k, 0 ≤ k → k * BLKBITSIZE < nblocks s → 2 + k ∈ fs_mapped s;
  fo_mapped : ∀ b, b ∈ fs_mapped s → 0 ≤ b < nblocks s;
  fo_pages : nblocks s ≤ fs_free_pages s + Z.of_nat (size (fs_mapped s));
  fo_coh : coherent s
}.

(** An address the server may use: outside the disk range, in the cache, or in a
    block in use. *)
Definition acc (s : FsState) (va : Z) : Prop :=
  in_map va = true → blk_of va ∈ fs_mapped s ∨
    (0 < blk_of va < nblocks s ∧ is_free s (blk_of va) = false).

Definition same_disk (s s' : FsState) : Prop :=
  (∀ a, view s' a = view s a) ∧ super s' = super s ∧ bitmap s' = bitmap s.

Lemma vldn_ext n v v' a : (∀ b, a ≤ b < a + Z.of_nat n → v b = v' b) → vldn n v a = vldn n v' a.
Proof.
  revert a. induction n as [|n IH]; intros a H; cbn [vldn]; [done|].
  rewrite (H a) by lia. do 2 f_equal. apply IH. intros. apply H. lia.
Qed.

Lemma vldn_ldn n m a : vldn n (ldb m) a = ldn n m a.
Proof. revert a. induction n as [|n IH]; intros a; [done|]. cbn [vldn ldn]. by rewrite IH. Qed.

Lemma view_mapped s a : blk_of a ∈ fs_mapped s → view s a = ldb (fs_mem s) a.
Proof.
  intros H. unfold view, va_is_mapped. rewrite bool_decide_true by done.
  by rewrite andb_false_r.
Qed.

Lemma view_out s a : in_map a = false → view s a = ldb (fs_mem s) a.
Proof. intros H. unfold view. by rewrite H. Qed.

Lemma blk_of_near va k : va mod 4 = 0 → 0 ≤ k < 4 → blk_of (va + k) = blk_of va.
Proof. unfold blk_of, BLKSIZE, PGSIZE, DISKMAP. intros. zlia. Qed.

Lemma same_disk_refl s : same_disk s s.
Proof. done. Qed.

Lemma same_disk_trans a b c : same_disk a b → same_disk b c → same_disk a c.
Proof.
  intros (H1 & H2 & H3) (H4 & H5 & H6). split_and!; [|congruence..].
  intros x. by rewrite H4, H1.
Qed.

Lemma same_nblocks s s' : same_disk s s' → nblocks s' = nblocks s.
Proof. intros [H _]. apply vldn_ext. auto. Qed.

Lemma same_free s s' b : same_disk s s' → is_free s' b = is_free s b.
Proof. intros [H _]. unfold is_free. do 2 f_equal. apply vldn_ext. auto. Qed.

Lemma same_acc s s' va :
  same_disk s s' → (∀ b, b ∈ fs_mapped s → b ∈ fs_mapped s') → acc s va → acc s' va.
Proof.
  intros H Hm Ha Hin. rewrite (same_nblocks s s'), (same_free s s') by done.
  destruct (Ha Hin); auto.
Qed.

(** ** Bringing a block in *)

Lemma same_disk_read_in s b :
  0 ≤ b < NDISKBLKS → b ∉ fs_mapped s → coherent s → same_disk s (read_in b s).
Proof.
  intros Hb Hn Hc. split_and!; [|done..]. intros a. unfold view, va_is_mapped.
  cbn [read_in fs_mapped fs_mem fs_disk]. destruct (in_map a) eqn:Hin; cbn [andb].
  - apply in_map_range in Hin as Ha. destruct (decide (blk_of a = b)) as [<-|Hne].
    + rewrite (bool_decide_true (_ ∈ {[_]} ∪ _)) by set_solver.
      rewrite bool_decide_false by done. cbn [negb]. rewrite ldb_copy by apply Hc.
      unfold blk_va, blk_of, BLKSIZE, PGSIZE, DISKMAP in *.
      rewrite decide_True by zlia. f_equal. zlia.
    + assert (Heq : bool_decide (blk_of a ∈ {[b]} ∪ fs_mapped s) = bool_decide (blk_of a ∈ fs_mapped s))
        by (apply bool_decide_ext; set_solver).
      rewrite Heq. clear Heq. case_bool_decide; cbn [negb]; [|done].
      rewrite ldb_copy by apply Hc. rewrite decide_False; [done|].
      unfold blk_va, blk_of, BLKSIZE, PGSIZE, DISKMAP in *. zlia.
  - rewrite ldb_copy by apply Hc. rewrite decide_False; [done|].
    apply not_true_iff_false in Hin. intros Hr. apply Hin.
    unfold in_map. apply andb_true_iff. rewrite Z.leb_le, Z.ltb_lt.
    change NDISKBLKS with 786432 in Hb. unfold blk_va, BLKSIZE, PGSIZE, DISKMAP, DISKSIZE in *. lia.
Qed.

Lemma size_lt_bound (X : gset Z) n b :
  (∀ x, x ∈ X → 0 ≤ x < n) → 0 ≤ b < n → b ∉ X → Z.of_nat (size X) < n.
Proof.
  intros HX Hb Hn.
  assert (Hsub : {[b]} ∪ X ⊆ list_to_set (seqZ 0 n)).
  { intros x Hx. apply elem_of_list_to_set, elem_of_seqZ.
    apply elem_of_union in Hx as [->%elem_of_singleton|?%HX]; lia. }
  apply subseteq_size in Hsub. rewrite size_union in Hsub by set_solver.
  rewrite size_singleton in Hsub. rewrite size_list_to_set in Hsub by apply NoDup_seqZ.
  rewrite length_seqZ in Hsub. lia.
Qed.

Lemma fs_ok_read_in s b :
  fs_ok s → 0 ≤ b < nblocks s → b ∉ fs_mapped s → fs_ok (read_in b s).
Proof.
  intros [Hs Hb Hnb Hsb Hbm Hmp Hpg Hco] Hr Hn.
  assert (Hrb : 0 ≤ b < NDISKBLKS) by lia.
  pose proof (same_nblocks _ _ (same_disk_read_in s b Hrb Hn Hco)) as He.
  split; rewrite ?He; [done|done|done| | | | |by apply coherent_read_in];
    cbn [read_in fs_mapped fs_free_pages].
  - set_solver.
  - intros k Hk Hlt. specialize (Hbm k Hk Hlt). set_solver.
  - intros c. rewrite elem_of_union, elem_of_singleton. intros [->|?]; auto.
  - rewrite size_union, size_singleton by set_solver. lia.
Qed.

Lemma fo_pages_pos s b : fs_ok s → 0 ≤ b < nblocks s → b ∉ fs_mapped s → 0 < fs_free_pages s.
Proof.
  intros Hok Hb Hn. pose proof (size_lt_bound _ _ b (fo_mapped s Hok) Hb Hn).
  pose proof (fo_pages s Hok). lia.
Qed.

(** ** Accesses *)

Definition touched (va : Z) (s : FsState) : FsState :=
  if in_map va && negb (va_is_mapped va s) then read_in (blk_of va) s else s.

Lemma touch_mapped n va s : blk_of va ∈ fs_mapped s → touch_depth n va s = Ret tt s.
Proof.
  intros Hm. destruct n; cbn [touch_depth]; unfold get, mbind, M_bind, va_is_mapped;
    rewrite bool_decide_true by done; cbn [negb]; by rewrite andb_false_r.
Qed.

Lemma view_ld32 s va :
  va mod 4 = 0 → blk_of va ∈ fs_mapped s → vld32 (view s) va = ld32 (fs_mem s) va.
Proof.
  intros Ha Hm. rewrite <- vldn_ldn. apply vldn_ext. intros a Hr. apply view_mapped.
  replace a with (va + (a - va)) by lia. by rewrite blk_of_near by lia.
Qed.

Lemma super_word_blk : blk_of (blk_va 1 + 4) = 1.
Proof. done. Qed.

Lemma bitmap_word_blk b : 0 ≤ b → blk_of (bitmap_word (blk_va 2) b) = 2 + b / BLKBITSIZE.
Proof.
  intros. unfold bitmap_word, blk_of, blk_va, BLKBITSIZE, BLKSIZE, PGSIZE, DISKMAP. zlia.
Qed.

Lemma bitmap_word_aligned b : bitmap_word (blk_va 2) b mod 4 = 0.
Proof. unfold bitmap_word, blk_va, BLKSIZE, PGSIZE, DISKMAP. zlia. Qed.

Lemma bitmap_word_mapped s b : fs_ok s → 0 ≤ b < nblocks s →
  blk_of (bitmap_word (blk_va 2) b) ∈ fs_mapped s.
Proof.
  intros Hok Hb. rewrite bitmap_word_blk by lia. apply (fo_bm s Hok).
  - unfold BLKBITSIZE, BLKSIZE, PGSIZE. zlia.
  - unfold BLKBITSIZE, BLKSIZE, PGSIZE. zlia.
Qed.

(** Run the first command. *)
Lemma run_bind {A B} (m : F A) (k : A → F B) s a s' : m s = Ret a s' → (m ≫= k) s = k a s'.
Proof. unfold mbind, M_bind. by intros ->. Qed.
Lemma run_gets {A B} (f : FsState → A) (k : A → F B) s : (gets f ≫= k) s = k (f s) s.
Proof. done. Qed.
Lemma run_get {B} (k : FsState → F B) s : (get ≫= k) s = k s s.
Proof. done. Qed.
Lemma run_ret {A B} (a : A) (k : A → F B) s : (mret a ≫= k) s = k a s.
Proof. done. Qed.

Section touching.
Context (t : Z → F unit) (Ht : ∀ va s, blk_of va ∈ fs_mapped s → t va s = Ret tt s).

Lemma load32_by_mapped va s :
  va mod 4 = 0 → blk_of va ∈ fs_mapped s → load32_by t va s = Ret (vld32 (view s) va) s.
Proof.
  intros Ha Hm. unfold load32_by, mbind, M_bind, gets. rewrite Ht by done.
  by rewrite view_ld32.
Qed.

Lemma load_nblocks_by s : fs_ok s → load32_by t (blk_va 1 + 4) s = Ret (nblocks s) s.
Proof. intros Hok. apply load32_by_mapped; [done|apply Hok]. Qed.

Lemma block_is_free_by_ok b s : fs_ok s → 0 ≤ b →
  block_is_free_by t b s = Ret ((b <? nblocks s) && is_free s b) s.
Proof.
  intros Hok Hb. unfold block_is_free_by. rewrite run_gets.
  rewrite (fo_super s Hok). change (blk_va 1 =? 0) with false. cbn match.
  erewrite run_bind by by apply load_nblocks_by.
  destruct (Z.leb_spec (nblocks s) b); destruct (Z.ltb_spec b (nblocks s)); try lia; [done|].
  rewrite run_gets, (fo_bitmap s Hok). fold (bitmap_word (blk_va 2) b).
  erewrite run_bind; [done|]. apply load32_by_mapped; [apply bitmap_word_aligned|].
  by apply bitmap_word_mapped.
Qed.

Lemma bc_pgfault_ok va s :
  fs_ok s → acc s va → in_map va = true → blk_of va ∉ fs_mapped s →
  bc_pgfault t va s = Ret tt (read_in (blk_of va) s).
Proof.
  intros Hok Ha Hin Hn. destruct (Ha Hin) as [|[Hb Hf]]; [done|]. unfold bc_pgfault. rewrite Hin. cbn [negb].
  rewrite run_gets, (fo_super s Hok). change (blk_va 1 =? 0) with false. cbn match.
  erewrite run_bind; [|erewrite run_bind; [reflexivity|by apply load_nblocks_by]].
  rewrite (proj2 (Z.leb_gt _ _)) by lia.
  cbv zeta. rewrite page_addr, blk_of_blk_va.
  rewrite read_in_run by (pose proof (fo_nb s Hok); lia).
  pose proof (fo_pages_pos s (blk_of va) Hok ltac:(lia) Hn) as Hpg.
  rewrite (proj2 (Z.leb_gt _ _)) by done.
  assert (Hok' : fs_ok (read_in (blk_of va) s)) by (apply fs_ok_read_in; [done|lia|done]).
  rewrite run_gets, (fo_bitmap _ Hok'). change (blk_va 2 =? 0) with false. cbn match.
  erewrite run_bind by (apply block_is_free_by_ok; [done|lia]).
  assert (Hsd : same_disk s (read_in (blk_of va) s)).
  { apply same_disk_read_in; [pose proof (fo_nb s Hok); lia|done|apply Hok]. }
  rewrite (same_free _ _ _ Hsd), Hf, andb_false_r. done.
Qed.
End touching.

Lemma touch_depth_S n va s : touch_depth (S n) va s =
  if in_map va && negb (va_is_mapped va s) then bc_pgfault (touch_depth n) va s else Ret tt s.
Proof. cbn [touch_depth]. rewrite run_get. by destruct (in_map va && _). Qed.

Lemma touch_ok va s : fs_ok s → acc s va → touch va s = Ret tt (touched va s).
Proof.
  intros Hok Ha. unfold touch, touched. rewrite touch_depth_S.
  destruct (in_map va) eqn:Hin; cbn [andb]; [|done].
  unfold va_is_mapped. case_bool_decide as Hm; cbn [negb]; [done|].
  apply bc_pgfault_ok; try done. intros. by apply touch_mapped.
Qed.

Lemma touched_ok va s : fs_ok s → acc s va →
  fs_ok (touched va s) ∧ same_disk s (touched va s) ∧
  (in_map va = true → blk_of va ∈ fs_mapped (touched va s)).
Proof.
  intros Hok Ha. unfold touched, va_is_mapped. destruct (in_map va) eqn:Hin; cbn [andb]; [|done].
  case_bool_decide as Hm; cbn [negb]; [done|]. destruct (Ha Hin) as [|[Hb _]]; [done|].
  split_and!.
  - apply fs_ok_read_in; [done|lia|done].
  - apply same_disk_read_in; [pose proof (fo_nb s Hok); lia|done|apply Hok].
  - intros _. cbn. set_solver.
Qed.

Lemma in_map_start va : in_map (blk_va (blk_of va)) = in_map va.
Proof.
  apply Bool.eq_true_iff_eq. rewrite in_map_blk. split; [|apply in_map_range].
  unfold in_map, NDISKBLKS, blk_of, BLKSIZE, PGSIZE, DISKMAP, DISKSIZE.
  rewrite andb_true_iff, Z.leb_le, Z.ltb_lt. zlia.
Qed.

Lemma in_map_same a b : blk_of a = blk_of b → in_map a = in_map b.
Proof. intros H. by rewrite <- (in_map_start a), <- (in_map_start b), H. Qed.

Lemma acc_same s a b : blk_of a = blk_of b → acc s a → acc s b.
Proof. intros H Ha. unfold acc in *. by rewrite <- H, <- (in_map_same a b H). Qed.

Lemma touched_same s a b : blk_of a = blk_of b → touched a s = touched b s.
Proof. intros H. unfold touched, va_is_mapped. by rewrite H, (in_map_same a b H). Qed.

Lemma touch_all_one va n s :
  blk_of (va + n - 1) = blk_of va → fs_ok s → acc s va →
  touch_all va n s = Ret tt (touched va s).
Proof.
  intros Hb Hok Ha. unfold touch_all, for_each, for_range. rewrite Hb.
  replace (Z.to_nat (blk_of va + 1 - blk_of va)) with 1%nat by lia. cbn [for_n].
  assert (Ht : touch (blk_va (blk_of va)) s = Ret tt (touched va s)).
  { rewrite (touched_same s va (blk_va (blk_of va))) by (by rewrite blk_of_blk_va).
    apply touch_ok; [done|]. apply (acc_same s va); [by rewrite blk_of_blk_va|done]. }
  unfold mbind, M_bind. by rewrite Ht.
Qed.

Lemma blk_of_word va : va mod 4 = 0 → blk_of (va + 4 - 1) = blk_of va.
Proof. intros. replace (va + 4 - 1) with (va + 3) by lia. by apply blk_of_near. Qed.

(** After an access, at [s']: the same disk, and a state like [s]. *)
Definition seen (s s' : FsState) : Prop :=
  fs_ok s' ∧ same_disk s s' ∧ (∀ a, in_map a = false → ldb (fs_mem s') a = ldb (fs_mem s) a) ∧
  (∀ b, b ∈ fs_mapped s → b ∈ fs_mapped s').

Lemma seen_refl s : fs_ok s → seen s s.
Proof. by intros. Qed.

Lemma seen_trans a b c : seen a b → seen b c → seen a c.
Proof.
  intros (_ & H1 & H2 & H3) (H4 & H5 & H6 & H7). split_and!; [done|by eapply same_disk_trans| |auto].
  intros x Hx. by rewrite H6, H2.
Qed.

Lemma touched_seen va s : fs_ok s → acc s va → seen s (touched va s).
Proof.
  intros Hok Ha. destruct (touched_ok va s Hok Ha) as (H1 & H2 & _). split_and!; [done|done| |].
  - intros a Hin. pose proof (proj1 H2 a) as Hv. by rewrite !view_out in Hv by done.
  - intros b Hb. unfold touched. case_match; [|done]. cbn. set_solver.
Qed.

Lemma view_touched_ld va s :
  fs_ok s → acc s va → va mod 4 = 0 → ld32 (fs_mem (touched va s)) va = vld32 (view s) va.
Proof.
  intros Hok Ha Hal. destruct (touched_ok va s Hok Ha) as (_ & Hsd & Hm).
  rewrite <- vldn_ldn. apply vldn_ext. intros a Hr.
  assert (Hba : blk_of a = blk_of va)
    by (replace a with (va + (a - va)) by lia; apply blk_of_near; [done|lia]).
  rewrite <- (proj1 Hsd a). destruct (in_map va) eqn:Hin.
  - symmetry. apply view_mapped. rewrite Hba. auto.
  - symmetry. apply view_out. by rewrite (in_map_same a va).
Qed.

Lemma load32_ok va s :
  fs_ok s → acc s va → va mod 4 = 0 → load32 va s = Ret (vld32 (view s) va) (touched va s).
Proof.
  intros Hok Ha Hal. unfold load32. erewrite run_bind by (apply touch_all_one; [by apply blk_of_word|done..]).
  unfold gets. by rewrite view_touched_ld.
Qed.

(** A write in one block, away from [s_nblocks]. *)
Definition off_nb (va n : Z) : Prop := va + n ≤ blk_va 1 + 4 ∨ blk_va 1 + 8 ≤ va.

Lemma write_ok va n (g : mem → mem) s :
  (∀ m c, c < va ∨ va + n ≤ c → ldb (g m) c = ldb m c) →
  (∀ m, bytes_ok m → bytes_ok (g m)) →
  (∀ a, va ≤ a < va + n → blk_of a = blk_of va) → off_nb va n →
  fs_ok s → (in_map va = true → blk_of va ∈ fs_mapped s) →
  let s' := mark_dirty va n (set_fs_mem (g (fs_mem s)) s) in
  fs_ok s' ∧ ∀ a, view s' a = if decide (va ≤ a < va + n) then ldb (g (fs_mem s)) a else view s a.
Proof.
  intros Hg Hgb Hblk Hnb Hok Hm s'.
  assert (Hv : ∀ a, view s' a = if decide (va ≤ a < va + n) then ldb (g (fs_mem s)) a else view s a).
  { intros a. case_decide as Hr.
    - destruct (in_map va) eqn:Hin.
      + rewrite view_mapped; [done|]. cbn. rewrite Hblk by done. auto.
      + rewrite view_out; [done|]. rewrite (in_map_same a va); auto.
    - unfold view, va_is_mapped. cbn. rewrite Hg by lia. done. }
  assert (Hn : nblocks s' = nblocks s).
  { unfold nblocks. apply vldn_ext. intros a Ha. rewrite Hv. rewrite decide_False; [done|].
    unfold off_nb in Hnb. lia. }
  split; [|exact Hv]. destruct Hok as [H1 H2 H3 H4 H5 H6 H7 H8].
  split; rewrite ?Hn; cbn; try done. by apply coherent_write.
Qed.

Definition byte_at (v i : Z) : Z := (v / 256 ^ i) mod 256.

(** [s'] is [s] with the word [v] at [va]. *)
Definition stored (va v : Z) (s s' : FsState) : Prop :=
  fs_ok s' ∧
  (∀ a, view s' a = if decide (va ≤ a < va + 4) then byte_at v (a - va) else view s a) ∧
  (∀ b, b ∈ fs_mapped s → b ∈ fs_mapped s').

Lemma store32_ok va v s :
  fs_ok s → acc s va → va mod 4 = 0 → off_nb va 4 →
  ∃ s', store32 va v s = Ret tt s' ∧ stored va v s s'.
Proof.
  intros Hok Ha Hal Hnb. unfold store32.
  erewrite run_bind by (apply touch_all_one; [by apply blk_of_word|done..]).
  destruct (touched_ok va s Hok Ha) as (Hok1 & Hsd & Hm).
  pose proof (touched_seen va s Hok Ha) as (_ & _ & _ & Hmm).
  destruct (write_ok va 4 (λ m, st32 m va v) (touched va s)) as [Hok2 Hv]; try done.
  - intros m c Hc. apply ldb_stn_out. lia.
  - intros m. apply bytes_ok_stn.
  - intros a Hr. replace a with (va + (a - va)) by lia. apply blk_of_near; [done|lia].
  - eexists. split; [reflexivity|]. split_and!; [exact Hok2| |exact Hmm].
    intros a. rewrite Hv. case_decide; [apply ldb_stn_in; cbn; lia|apply Hsd].
Qed.

Lemma stored_word va v s s' : stored va v s s' → vld32 (view s') va = u32 v.
Proof.
  intros (_ & Hv & _). cbn [vldn]. rewrite !Hv. rewrite !decide_True by lia.
  unfold byte_at, u32. replace (va - va) with 0 by lia.
  replace (va + 1 - va) with 1 by lia. replace (va + 1 + 1 - va) with 2 by lia.
  replace (va + 1 + 1 + 1 - va) with 3 by lia.
  change (256 ^ 0) with 1. change (256 ^ 1) with 256. change (256 ^ 2) with 65536.
  change (256 ^ 3) with 16777216. pow2. zlia.
Qed.

Lemma stored_other va v s s' n a :
  stored va v s s' → a + Z.of_nat n ≤ va ∨ va + 4 ≤ a → vldn n (view s') a = vldn n (view s) a.
Proof.
  intros (_ & Hv & _) Hd. apply vldn_ext. intros b Hb. rewrite Hv.
  rewrite decide_False; [done|lia].
Qed.

Lemma touch_mapped3 va s : blk_of va ∈ fs_mapped s → touch va s = Ret tt s.
Proof. apply touch_mapped. Qed.

Lemma diskaddr_ok b s : fs_ok s → 0 < b < nblocks s → diskaddr b s = Ret (blk_va b) s.
Proof.
  intros Hok Hb. unfold diskaddr. rewrite (proj2 (Z.eqb_neq b 0)) by lia.
  rewrite run_gets, (fo_super s Hok). change (blk_va 1 =? 0) with false. cbn match.
  erewrite run_bind by (apply load_nblocks_by; [exact touch_mapped3|done]).
  by rewrite (proj2 (Z.leb_gt _ _)) by lia.
Qed.

Lemma block_is_free_ok b s : fs_ok s → 0 ≤ b →
  block_is_free b s = Ret ((b <? nblocks s) && is_free s b) s.
Proof. intros. by apply block_is_free_by_ok; [exact touch_mapped3|..]. Qed.

Lemma written_back_same b s :
  b ∈ fs_mapped s → coherent s → same_disk s (written_back b s).
Proof.
  intros Hb Hc. split_and!; [|done..]. intros a. unfold view, va_is_mapped. cbn [written_back fs_mapped fs_mem fs_disk].
  destruct (in_map a) eqn:Hin; cbn [andb]; [|done]. case_bool_decide as Hm; cbn [negb]; [done|].
  rewrite ldb_copy by apply Hc. rewrite decide_False; [done|].
  assert (blk_of a ≠ b) by congruence. unfold blk_of, BLKSIZE, PGSIZE, DISKMAP in *. zlia.
Qed.

Lemma flush_block_ok va s :
  fs_ok s → in_map va = true →
  ∃ s', flush_block va s = Ret tt s' ∧ fs_ok s' ∧ same_disk s s' ∧
    fs_mem s' = fs_mem s ∧ fs_mapped s' = fs_mapped s ∧
    (blk_of va ∈ fs_mapped s → blk_of va ∉ fs_dirty s').
Proof.
  intros Hok Hin. unfold flush_block. rewrite Hin. cbn [negb]. rewrite run_get.
  unfold va_is_mapped, va_is_dirty. case_bool_decide as Hm; cbn [negb orb]; [|by exists s].
  case_bool_decide as Hd; cbn [negb]; [|by exists s].
  pose proof (in_map_range va Hin) as Hr.
  rewrite page_addr, blk_of_blk_va, write_back_run by done.
  exists (written_back (blk_of va) s).
  pose proof (written_back_same _ s Hm (fo_coh s Hok)) as Hsd.
  split_and!; [done| |exact Hsd|done|done|].
  2: { intros _. cbn [written_back fs_dirty]. set_solver. }
  destruct Hok as [H1 H2 H3 H4 H5 H6 H7 H8].
  split; [..|by apply coherent_written_back]; rewrite ?(same_nblocks _ _ Hsd);
    cbn [written_back super bitmap fs_mapped fs_free_pages]; done.
Qed.

(** ** Bits of the bitmap *)

Lemma land_bit w k : 0 ≤ k → truthy (Z.land w (Z.shiftl 1 k)) = Z.testbit w k.
Proof.
  intros Hk. unfold truthy. rewrite Z.shiftl_1_l.
  destruct (Z.testbit w k) eqn:E.
  - apply negb_true_iff, Z.eqb_neq. intros H0.
    assert (Z.testbit (Z.land w (2 ^ k)) k = true)
      by (rewrite Z.land_spec, E, Z.pow2_bits_true by done; done).
    rewrite H0, Z.bits_0 in H. done.
  - apply negb_false_iff, Z.eqb_eq. apply Z.bits_inj'. intros n Hn.
    rewrite Z.land_spec, Z.pow2_bits_eqb, Z.bits_0 by done.
    destruct (Z.eqb_spec k n) as [->|]; [by rewrite E|apply andb_false_r].
Qed.

Lemma is_free_bit s b :
  is_free s b = Z.testbit (vld32 (view s) (bitmap_word (blk_va 2) b)) (b mod 32).
Proof. unfold is_free, bitmap_bit. apply land_bit. zlia. Qed.

Lemma vld32_range s va :
  fs_ok s → 0 ≤ vld32 (view s) va < 2 ^ 32.
Proof.
  intros Hok. assert (H : ∀ a, 0 ≤ view s a < 256).
  { intros a. unfold view. destruct (fo_coh s Hok) as [_ _ Hm Hd]. case_match; auto. }
  cbn [vldn]. pose proof (H va). pose proof (H (va + 1)). pose proof (H (va + 1 + 1)).
  pose proof (H (va + 1 + 1 + 1)). pow2. lia.
Qed.

Lemma testbit_u32 w k : 0 ≤ k < 32 → Z.testbit (u32 w) k = Z.testbit w k.
Proof. intros. unfold u32. apply Z.mod_pow2_bits_low. lia. Qed.

(** Storing a word of the bitmap that differs in the bit of [b] only. *)
Lemma bitmap_update s s' b w x :
  0 ≤ b → stored (bitmap_word (blk_va 2) b) w s s' →
  (∀ k, 0 ≤ k < 32 → Z.testbit w k =
     if decide (k = b mod 32) then x
     else Z.testbit (vld32 (view s) (bitmap_word (blk_va 2) b)) k) →
  ∀ c, 0 ≤ c → is_free s' c = if decide (c = b) then x else is_free s c.
Proof.
  intros Hb Hst Hw c Hc. rewrite !is_free_bit.
  destruct (decide (c / 32 = b / 32)) as [He|Hne].
  - assert (Hwe : bitmap_word (blk_va 2) c = bitmap_word (blk_va 2) b)
      by (unfold bitmap_word; by rewrite He).
    rewrite Hwe, (stored_word _ _ _ _ Hst), testbit_u32, Hw by zlia.
    destruct (decide (c = b)) as [->|Hcb]; [by rewrite decide_True|].
    rewrite decide_False; [done|]. zlia.
  - rewrite decide_False by (intros ->; lia).
    rewrite (stored_other _ _ _ _ 4 _ Hst); [done|]. unfold bitmap_word. lia.
Qed.
