(* ===== verification/FsSpec.v ===== *)
(** * What the file system operations do

    Functional properties of fs/fs.c in terms of the disk contents ([view]). *)
From stdpp Require Import gmap.
From S2P Require Import Prelude Mem StringC Printfmt KState Bc Fs FsView.

(** ** The bitmap *)

Definition word_of (b : Z) : Z := bitmap_word (blk_va 2) b.

Lemma word_acc s b : fs_ok s → 0 ≤ b < nblocks s → acc s (word_of b).
Proof. intros Hok Hb _. left. by apply bitmap_word_mapped. Qed.

Lemma word_off_nb b : 0 ≤ b → off_nb (word_of b) 4.
Proof.
  intros. right. unfold word_of, bitmap_word, blk_va, BLKSIZE, PGSIZE. zlia.
Qed.

Lemma word_touched s b : fs_ok s → 0 ≤ b < nblocks s → touched (word_of b) s = s.
Proof.
  intros Hok Hb. unfold touched, va_is_mapped.
  rewrite bool_decide_true by (by apply bitmap_word_mapped). by rewrite andb_false_r.
Qed.

Lemma load_word b s : fs_ok s → 0 ≤ b < nblocks s →
  load32 (word_of b) s = Ret (vld32 (view s) (word_of b)) s.
Proof.
  intros Hok Hb. rewrite load32_ok; [by rewrite word_touched|done|by apply word_acc|].
  apply bitmap_word_aligned.
Qed.

(** [s'] is [s] with the bit of [b] set to [x]. *)
Definition bit_set (b : Z) (x : bool) (s s' : FsState) : Prop :=
  fs_ok s' ∧ (∀ c, 0 ≤ c → is_free s' c = if decide (c = b) then x else is_free s c) ∧
  (∀ a, a < word_of b ∨ word_of b + 4 ≤ a → view s' a = view s a) ∧
  (∀ c, c ∈ fs_mapped s → c ∈ fs_mapped s').

Lemma store_word b w x s :
  fs_ok s → 0 ≤ b < nblocks s →
  (∀ k, 0 ≤ k < 32 → Z.testbit w k =
     if decide (k = b mod 32) then x else Z.testbit (vld32 (view s) (word_of b)) k) →
  ∃ s', store32 (word_of b) w s = Ret tt s' ∧ bit_set b x s s'.
Proof.
  intros Hok Hb Hw.
  destruct (store32_ok (word_of b) w s) as (s' & Hrun & Hst);
    [done|by apply word_acc|apply bitmap_word_aligned|apply word_off_nb; lia|].
  exists s'. split; [done|]. pose proof Hst as (H1 & H2 & H3). split_and!; [done| | |done].
  - apply (bitmap_update s s' b w x); [lia|exact Hst|exact Hw].
  - intros a Ha. rewrite H2. rewrite decide_False; [done|lia].
Qed.

Lemma clear_bit_word w b k : 0 ≤ k < 32 →
  Z.testbit (Z.land w (Z.lnot (bitmap_bit b))) k =
  if decide (k = b mod 32) then false else Z.testbit w k.
Proof.
  intros Hk. unfold bitmap_bit. rewrite Z.shiftl_1_l, Z.land_spec, Z.lnot_spec by lia.
  rewrite Z.pow2_bits_eqb by zlia. destruct (decide (k = b mod 32)) as [->|Hne].
  - rewrite Z.eqb_refl. apply andb_false_r.
  - rewrite (proj2 (Z.eqb_neq _ _)) by congruence. apply andb_true_r.
Qed.

Lemma set_bit_word w b k : 0 ≤ k < 32 →
  Z.testbit (Z.lor w (bitmap_bit b)) k = if decide (k = b mod 32) then true else Z.testbit w k.
Proof.
  intros Hk. unfold bitmap_bit. rewrite Z.shiftl_1_l, Z.lor_spec.
  rewrite Z.pow2_bits_eqb by zlia. destruct (decide (k = b mod 32)) as [->|Hne].
  - rewrite Z.eqb_refl. apply orb_true_r.
  - rewrite (proj2 (Z.eqb_neq _ _)) by congruence. apply orb_false_r.
Qed.

Lemma bit_set_nblocks b x s s' : 0 ≤ b → bit_set b x s s' → nblocks s' = nblocks s.
Proof.
  intros Hb (_ & _ & Hv & _). apply vldn_ext. intros a Ha. apply Hv. left.
  unfold word_of, bitmap_word, blk_va, BLKSIZE, PGSIZE in *. zlia.
Qed.

Lemma free_block_ok b s : fs_ok s → 0 < b < nblocks s →
  ∃ s', free_block b s = Ret tt s' ∧ bit_set b true s s'.
Proof.
  intros Hok Hb. unfold free_block. rewrite (proj2 (Z.eqb_neq b 0)) by lia.
  rewrite run_gets, (fo_bitmap s Hok). fold (word_of b).
  erewrite run_bind by (apply load_word; [done|lia]).
  apply store_word; [done|lia|]. intros k Hk. by apply set_bit_word.
Qed.

Definition alloc_at (b : Z) : F (option Z) :=
  bm ← gets bitmap;
  w ← load32 (bitmap_word bm b);
  store32 (bitmap_word bm b) (Z.land w (Z.lnot (bitmap_bit b)));;
  flush_block bm;;
  mret (Some b).

Lemma bitmap_in_map : in_map (blk_va 2) = true.
Proof. done. Qed.

Lemma alloc_at_ok b s : fs_ok s → 2 ≤ b < nblocks s →
  ∃ s', alloc_at b s = Ret (Some b) s' ∧ bit_set b false s s' ∧ 2 ∉ fs_dirty s'.
Proof.
  intros Hok Hb. unfold alloc_at. rewrite run_gets, (fo_bitmap s Hok). fold (word_of b).
  erewrite run_bind by (apply load_word; [done|lia]).
  destruct (store_word b (Z.land (vld32 (view s) (word_of b)) (Z.lnot (bitmap_bit b))) false s)
    as (s1 & Hs1 & Hb1); [done|lia|intros; by apply clear_bit_word|].
  erewrite run_bind by exact Hs1. pose proof Hb1 as (Hok1 & Hf1 & Hv1 & Hm1).
  destruct (flush_block_ok (blk_va 2) s1 Hok1 bitmap_in_map)
    as (s2 & Hs2 & Hok2 & Hsd & Hme & Hmp & Hd).
  erewrite run_bind by exact Hs2. exists s2. split; [done|].
  rewrite blk_of_blk_va in Hd. split.
  - split_and!; [done| | |by rewrite Hmp].
    + intros c Hc. rewrite (same_free _ _ _ Hsd). auto.
    + intros a Ha. rewrite (proj1 Hsd). auto.
  - apply Hd, Hm1. pose proof (fo_bm s Hok 0) as H0. rewrite Z.add_0_r in H0.
    apply H0; [lia|]. pose proof (fo_nb s Hok). lia.
Qed.

Lemma alloc_search n i s : fs_ok s → 2 ≤ i → i + Z.of_nat n = nblocks s →
  (∃ b s', for_n n i (λ blockno, free ← block_is_free blockno;
       if (free : bool) then alloc_at blockno else mret None) s = Ret (Some b) s' ∧
     i ≤ b < nblocks s ∧ is_free s b = true ∧ (∀ c, i ≤ c < b → is_free s c = false) ∧
     bit_set b false s s' ∧ 2 ∉ fs_dirty s') ∨
  (for_n n i (λ blockno, free ← block_is_free blockno;
       if (free : bool) then alloc_at blockno else mret None) s = Ret None s ∧
     ∀ c, i ≤ c < nblocks s → is_free s c = false).
Proof.
  intros Hok. revert i. induction n as [|n IH]; intros i Hi Hn; cbn [for_n].
  { right. split; [done|]. intros. lia. }
  destruct (is_free s i) eqn:Hf.
  - left. destruct (alloc_at_ok i s Hok) as (s' & Hs' & Hpost); [lia|].
    exists i, s'. erewrite run_bind.
    2: { erewrite run_bind by (apply block_is_free_ok; [done|lia]).
         rewrite (proj2 (Z.ltb_lt _ _)) by lia. rewrite Hf. exact Hs'. }
    split_and!; try done; try lia; try apply Hpost.
  - erewrite run_bind.
    2: { erewrite run_bind by (apply block_is_free_ok; [done|lia]).
         rewrite Hf, andb_false_r. reflexivity. }
    destruct (IH (i + 1)) as [(b & s' & H1 & H2 & H3 & H4 & H5)|[H1 H2]]; [lia|lia| |].
    + left. exists b, s'. split_and!; try done; try lia; try apply H5.
      intros c Hc. destruct (decide (c = i)) as [->|]; [done|]. apply H4. lia.
    + right. split; [done|]. intros c Hc. destruct (decide (c = i)) as [->|]; [done|].
      apply H2. lia.
Qed.

(** C29. alloc_block, with the bitmap in the cache.  It returns the first free
    block from 2 on, marks that block in use and no other, changes no other byte
    of the disk, and leaves the first bitmap block flushed; it fails, changing
    nothing, exactly when no block from 2 on is free. *)
Theorem alloc_block_correct s :
  fs_ok s →
  (∃ b s', alloc_block s = Ret b s' ∧ 2 ≤ b < nblocks s ∧ is_free s b = true ∧
     (∀ c, 2 ≤ c < b → is_free s c = false) ∧ bit_set b false s s' ∧ 2 ∉ fs_dirty s') ∨
  (alloc_block s = Ret (- E_NO_DISK) s ∧ ∀ c, 2 ≤ c < nblocks s → is_free s c = false).
Proof.
  intros Hok. unfold alloc_block. rewrite run_gets, (fo_super s Hok).
  assert (Hnb : load32 (s_nblocks (blk_va 1)) s = Ret (nblocks s) s).
  { rewrite load32_ok; [|done|left; apply Hok|done]. unfold touched, va_is_mapped.
    rewrite bool_decide_true by apply Hok. by rewrite andb_false_r. }
  erewrite run_bind by exact Hnb. pose proof (fo_nb s Hok) as H3.
  destruct (alloc_search (Z.to_nat (nblocks s - 2)) 2 s Hok)
    as [(b & s' & Hrun & Hb)|[Hrun Hno]]; [lia|lia| |].
  - left. exists b, s'. split; [|exact Hb]. unfold for_range. by erewrite run_bind by exact Hrun.
  - right. split; [|exact Hno]. unfold for_range. by erewrite run_bind by exact Hrun.
Qed.

(** ** Files *)

Definition fsize (s : FsState) (f : Z) : Z := i32 (vld32 (view s) (f_size f)).
Definition find (s : FsState) (f : Z) : Z := vld32 (view s) (f_indirect f).
(** Where the number of file block [i] is kept, and that number. *)
Definition slot (s : FsState) (f i : Z) : Z :=
  if i <? 10 then f_direct f i else blk_va (find s f) + 4 * (i - 10).
Definition fblock (s : FsState) (f i : Z) : Z := vld32 (view s) (slot s f i).
(** Byte [p] of the file. *)
Definition fbyte (s : FsState) (f p : Z) : Z :=
  view s (blk_va (fblock s f (p / BLKSIZE)) + p mod BLKSIZE).

Record file_at (s : FsState) (f : Z) : Prop := {
  fa_align : f mod 4 = 0;
  fa_page : ∀ k, 0 ≤ k < FILE_SIZE → blk_of (f + k) = blk_of f;
  fa_map : in_map f = true;
  fa_acc : acc s f;
  fa_size : 0 ≤ fsize s f
}.

Definition in_use (s : FsState) (b : Z) : Prop := 0 < b < nblocks s ∧ is_free s b = false.

(** File block [i] has a disk block. *)
Record block_at (s : FsState) (f i : Z) : Prop := {
  ba_max : 0 ≤ i < NDIRECT + NINDIRECT;
  ba_size : i ≤ fsize s f / BLKSIZE;
  ba_ind : 10 ≤ i → in_use s (find s f);
  ba_blk : in_use s (fblock s f i)
}.

Lemma field_acc s f k : file_at s f → 0 ≤ k < FILE_SIZE → acc s (f + k).
Proof. intros Hf Hk. apply (acc_same s f); [by rewrite (fa_page s f)|apply Hf]. Qed.

Lemma in_use_acc s b off : in_use s b → 0 ≤ off < BLKSIZE → acc s (blk_va b + off).
Proof. intros Hb Ho _. right. rewrite blk_of_va by done. exact Hb. Qed.

Lemma load_field s f k : fs_ok s → file_at s f → 0 ≤ k < FILE_SIZE → k mod 4 = 0 →
  load32 (f + k) s = Ret (vld32 (view s) (f + k)) (touched (f + k) s) ∧ seen s (touched (f + k) s).
Proof.
  intros Hok Hf Hk Hk4. pose proof (field_acc s f k Hf Hk) as Ha.
  split; [|by apply touched_seen]. apply load32_ok; [done|done|].
  pose proof (fa_align s f Hf). zlia.
Qed.

(** What [seen] keeps of a file. *)
Lemma seen_vld s s' n a : seen s s' → vldn n (view s') a = vldn n (view s) a.
Proof. intros (_ & H & _). apply vldn_ext. intros. apply H. Qed.

Lemma seen_in_use s s' b : seen s s' → in_use s b → in_use s' b.
Proof.
  intros (_ & H & _) Hb. unfold in_use. by rewrite (same_nblocks s s'), (same_free s s').
Qed.

Lemma seen_file s s' f : seen s s' → file_at s f → file_at s' f.
Proof.
  intros Hs [H1 H2 H3 H4 H5]. split; [done..| |].
  - destruct Hs as (_ & Hsd & _ & Hm). by apply (same_acc s).
  - unfold fsize. by rewrite (seen_vld s s').
Qed.

Lemma seen_fblock s s' f i : seen s s' → fblock s' f i = fblock s f i.
Proof. intros Hs. unfold fblock, slot, find. by rewrite !(seen_vld s s'). Qed.

Lemma seen_block s s' f i : seen s s' → block_at s f i → block_at s' f i.
Proof.
  intros Hs [H1 H2 H3 H4]. split; [done| | |].
  - unfold fsize. by rewrite (seen_vld s s').
  - intros Hi. unfold find. rewrite (seen_vld s s') by done. eapply seen_in_use; eauto.
  - rewrite (seen_fblock s s') by done. by eapply seen_in_use.
Qed.

Lemma slot_acc s f i : file_at s f → block_at s f i →
  acc s (slot s f i) ∧ slot s f i mod 4 = 0.
Proof.
  intros Hf [H1 H2 H3 H4]. unfold slot. unfold NDIRECT, NINDIRECT, BLKSIZE, PGSIZE in H1.
  pose proof (fa_align s f Hf). destruct (Z.ltb_spec i 10).
  - split; [|unfold f_direct; zlia]. unfold f_direct. rewrite <- Z.add_assoc.
    apply field_acc; [done|]. unfold FILE_SIZE. lia.
  - split; [|unfold blk_va, BLKSIZE, PGSIZE, DISKMAP; zlia].
    apply in_use_acc; [by apply H3|]. unfold BLKSIZE, PGSIZE.
    change (4096 / 4) with 1024 in H1. lia.
Qed.

Lemma file_block_walk_ok s f i alloc : fs_ok s → file_at s f → block_at s f i →
  ∃ s', file_block_walk f i alloc s = Ret (0, slot s f i) s' ∧ seen s s'.
Proof.
  intros Hok Hf Hb. pose proof Hb as [H1 H2 H3 H4]. unfold file_block_walk.
  rewrite (proj2 (Z.leb_gt _ _)) by lia. unfold load_off_t.
  destruct (load_field s f 128 Hok Hf) as [Hl Hs1]; [done..|].
  erewrite run_bind; [|erewrite run_bind by exact Hl; reflexivity].
  fold (f_size f) (fsize s f) in *. pose proof (fa_size s f Hf) as Hsz.
  rewrite Z.quot_div_nonneg by done.
  assert (Hmax : fsize s f < 2147483648)
    by (unfold fsize, i32 in *; pow2; case_match; zlia).
  rewrite u32_id by (unfold BLKSIZE, PGSIZE; zlia).
  rewrite (proj2 (Z.ltb_ge _ _)) by lia. unfold slot.
  destruct (Z.ltb_spec i 10) as [Hi|Hi]; [by exists (touched (f + 128) s)|].
  set (s1 := touched (f + 128) s) in *.
  destruct (load_field s1 f 176) as [Hl2 Hs2]; [apply Hs1|by apply (seen_file s)|done..|].
  erewrite run_bind by exact Hl2. fold (f_indirect f). rewrite (seen_vld s s1) by done.
  fold (find s f). pose proof (H3 Hi) as Hu. pose proof (proj1 Hu).
  rewrite (proj2 (Z.eqb_neq _ 0)) by lia. cbn [negb].
  exists (touched (f + 176) s1). split; [|by eapply seen_trans].
  erewrite run_bind; [reflexivity|]. apply diskaddr_ok; [apply Hs2|].
  pose proof (seen_in_use s _ _ (seen_trans _ _ _ Hs1 Hs2) Hu) as [? _]. done.
Qed.

Lemma file_get_block_ok s f i : fs_ok s → file_at s f → block_at s f i →
  ∃ s', file_get_block f i s = Ret (0, blk_va (fblock s f i)) s' ∧ seen s s'.
Proof.
  intros Hok Hf Hb. unfold file_get_block. rewrite (proj2 (Z.leb_gt _ _)) by apply Hb.
  assert (f ≠ 0) by (pose proof (fa_map s f Hf); intros ->; done).
  rewrite (proj2 (Z.eqb_neq f 0)) by done. cbn [orb].
  destruct (file_block_walk_ok s f i true Hok Hf Hb) as (s1 & Hw & Hs1).
  erewrite run_bind by exact Hw. cbn [fst snd]. change (0 <? 0) with false. cbn match.
  destruct (slot_acc s f i Hf Hb) as [Ha Hal].
  assert (Ha1 : acc s1 (slot s f i)) by (destruct Hs1 as (_ & ? & _ & ?); by apply (same_acc s)).
  erewrite run_bind by (apply load32_ok; [apply Hs1|done..]).
  rewrite (seen_vld s s1) by done. fold (fblock s f i). pose proof (ba_blk s f i Hb) as Hu.
  rewrite (proj2 (Z.eqb_neq _ 0)) by (destruct Hu; lia). cbn [negb].
  pose proof (touched_seen _ _ (proj1 Hs1) Ha1) as Hs2.
  pose proof (seen_trans _ _ _ Hs1 Hs2) as Hs.
  exists (touched (slot s f i) s1). split; [|done].
  erewrite run_bind; [reflexivity|]. apply diskaddr_ok; [apply Hs2|].
  apply (seen_in_use s _ _ Hs Hu).
Qed.
