(* ===== verification/FsIO.v ===== *)
(** * file_read and file_write (fs/fs.c)

    Both walk the blocks of a range of the file and copy between the block cache
    and a buffer outside it.  [agree] relates the states before and after: the
    disk is the same but for the bytes of a set [P]. *)
From stdpp Require Import gmap.
From S2P Require Import Prelude Mem StringC Printfmt KState Bc Fs FsView FsSpec.

(** ** Buffers outside the cache *)

Record buf_ok (buf n : Z) : Prop := {
  bo_range : 0 ≤ buf ∧ buf + n < 2 ^ 64;
  bo_out : ∀ a, buf ≤ a < buf + n → in_map a = false
}.

Lemma touch_out va s : in_map va = false → touch va s = Ret tt s.
Proof. intros H. unfold touch. rewrite touch_depth_S, H. done. Qed.

Lemma for_each_nop n i (body : Z → F unit) s :
  (∀ j, i ≤ j < i + Z.of_nat n → body j s = Ret tt s) →
  for_n n i (λ j, body j;; mret (None : option unit)) s = Ret None s.
Proof.
  revert i. induction n as [|n IH]; intros i Hb; cbn [for_n]; [done|].
  erewrite run_bind; [|erewrite run_bind by (apply Hb; lia); reflexivity].
  apply IH. intros. apply Hb. lia.
Qed.

Lemma touch_all_out va n s : 1 ≤ n → (∀ a, va ≤ a < va + n → in_map a = false) →
  touch_all va n s = Ret tt s.
Proof.
  intros Hn Hout. unfold touch_all, for_each, for_range.
  erewrite run_bind; [reflexivity|]. apply for_each_nop. intros b Hb. apply touch_out.
  rewrite (in_map_same _ (Z.max va (blk_va b))).
  - apply Hout. unfold blk_va, blk_of, BLKSIZE, PGSIZE, DISKMAP in *. zlia.
  - rewrite blk_of_blk_va. unfold blk_va, blk_of, BLKSIZE, PGSIZE, DISKMAP in *. zlia.
Qed.

(** A write outside the cache. *)
Lemma write_out_ok va n (g : mem → mem) s :
  (∀ m c, c < va ∨ va + n ≤ c → ldb (g m) c = ldb m c) →
  (∀ m, bytes_ok m → bytes_ok (g m)) →
  (∀ a, va ≤ a < va + n → in_map a = false) → fs_ok s →
  let s' := mark_dirty va n (set_fs_mem (g (fs_mem s)) s) in
  fs_ok s' ∧ ∀ a, in_map a = true → view s' a = view s a.
Proof.
  intros Hg Hgb Hout Hok s'.
  assert (Hv : ∀ a, in_map a = true → view s' a = view s a).
  { intros a Hin. unfold view, va_is_mapped. cbn. rewrite Hg; [done|].
    destruct (decide (va ≤ a < va + n)) as [Hr|]; [|lia]. by rewrite Hout in Hin. }
  assert (Hn : nblocks s' = nblocks s).
  { unfold nblocks. apply vldn_ext. intros a Ha. apply Hv.
    rewrite (in_map_same a (blk_va 1 + 4)); [done|].
    replace a with (blk_va 1 + 4 + (a - (blk_va 1 + 4))) by lia. apply blk_of_near; [done|lia]. }
  split; [|exact Hv]. destruct Hok as [H1 H2 H3 H4 H5 H6 H7 H8].
  split; rewrite ?Hn; cbn; try done. by apply coherent_write.
Qed.

(** ** States that agree but for [P] *)

Definition agree (P : Z → Prop) (s s' : FsState) : Prop :=
  fs_ok s' ∧ (∀ a, in_map a = true → ¬ P a → view s' a = view s a) ∧
  (∀ b, b ∈ fs_mapped s → b ∈ fs_mapped s').

(** The blocks file_get_block reads: super block, bitmap, [f]'s, and its indirect
    block if the file is long enough to have one; until then [f_indirect] means
    nothing. *)
Definition meta_blk (s : FsState) (f b : Z) : Prop :=
  b = 1 ∨ (∃ k, 0 ≤ k ∧ k * BLKBITSIZE < nblocks s ∧ b = 2 + k) ∨ b = blk_of f ∨ 10 ≤ fsize s f / BLKSIZE ∧ b = find s f.

Lemma in_map_of_blk a : 0 ≤ blk_of a < NDISKBLKS → in_map a = true.
Proof. intros H. rewrite <- in_map_start. by apply in_map_blk. Qed.

Section agreeing.
Context (P : Z → Prop) (s s' : FsState) (f : Z).
Context (Hok : fs_ok s) (Hf : file_at s f) (Hag : agree P s s').
Context (HP : ∀ a, P a → ¬ meta_blk s f (blk_of a)).

Lemma agree_vld a :
  a mod 4 = 0 → in_map a = true → meta_blk s f (blk_of a) →
  vld32 (view s') a = vld32 (view s) a.
Proof using Hag HP.
  intros Ha Hin Hm. destruct Hag as (_ & Hv & _). apply vldn_ext. intros b Hb.
  assert (Hbb : blk_of b = blk_of a)
    by (replace b with (a + (b - a)) by lia; apply blk_of_near; [done|lia]).
  apply Hv; [by rewrite (in_map_same b a)|]. intros HPb. apply (HP b HPb). by rewrite Hbb.
Qed.

Lemma agree_nblocks : nblocks s' = nblocks s.
Proof using Hag HP. apply agree_vld; [done|done|by left]. Qed.

Lemma agree_free b : 0 ≤ b < nblocks s → is_free s' b = is_free s b.
Proof using Hok Hag HP.
  intros Hb. unfold is_free. do 2 f_equal. pose proof (bitmap_word_mapped s b Hok Hb) as Hm.
  apply agree_vld; [apply bitmap_word_aligned| |].
  - apply in_map_of_blk. pose proof (fo_mapped s Hok _ Hm). pose proof (fo_nb s Hok). lia.
  - right. left. exists (b / BLKBITSIZE). rewrite bitmap_word_blk by lia.
    unfold BLKBITSIZE, BLKSIZE, PGSIZE. split_and!; [zlia|zlia|done].
Qed.

Lemma agree_field k : 0 ≤ k < FILE_SIZE → k mod 4 = 0 →
  vld32 (view s') (f + k) = vld32 (view s) (f + k).
Proof using Hf Hag HP.
  intros Hk Hk4. pose proof (fa_align s f Hf). pose proof (fa_page s f Hf k Hk) as Hp.
  apply agree_vld; [zlia| |rewrite Hp; right; right; by left].
  rewrite (in_map_same _ f) by done. apply Hf.
Qed.

Lemma agree_fsize : fsize s' f = fsize s f.
Proof using Hf Hag HP. unfold fsize, f_size. by rewrite agree_field. Qed.

Lemma agree_find : find s' f = find s f.
Proof using Hf Hag HP. unfold find, f_indirect. by rewrite agree_field. Qed.

Lemma agree_in_use b : in_use s b → in_use s' b.
Proof using Hok Hag HP.
  intros [Hb Hu]. unfold in_use. rewrite agree_nblocks, agree_free by lia. done.
Qed.

Lemma agree_file : file_at s' f.
Proof using Hok Hf Hag HP.
  pose proof Hf as [H1 H2 H3 H4 H5]. split; [done..| |by rewrite agree_fsize].
  intros Hin. destruct Hag as (_ & _ & Hm). destruct (H4 Hin) as [Hb|Hb]; [left; auto|].
  right. by apply agree_in_use.
Qed.

Lemma in_use_blk_in_map b off : in_use s b → 0 ≤ off < BLKSIZE → in_map (blk_va b + off) = true.
Proof using Hok.
  intros [Hb _] Ho. apply in_map_of_blk. rewrite blk_of_va by done.
  pose proof (fo_nb s Hok). lia.
Qed.

Lemma agree_fblock i : block_at s f i → fblock s' f i = fblock s f i.
Proof using Hok Hf Hag HP.
  intros Hb. pose proof Hb as [H1 H2 H3 H4]. unfold fblock, slot. rewrite agree_find.
  unfold NDIRECT, NINDIRECT, BLKSIZE, PGSIZE in H1. change (4096 / 4) with 1024 in H1.
  destruct (Z.ltb_spec i 10).
  - unfold f_direct. rewrite <- Z.add_assoc. apply agree_field; [unfold FILE_SIZE; lia|zlia].
  - assert (Ho : 0 ≤ 4 * (i - 10) < BLKSIZE) by (unfold BLKSIZE, PGSIZE; lia).
    apply agree_vld; [unfold blk_va, BLKSIZE, PGSIZE, DISKMAP; zlia| |].
    + apply in_use_blk_in_map; auto.
    + rewrite blk_of_va by done. do 3 right. split; [lia|done].
Qed.

Lemma agree_block i : block_at s f i → block_at s' f i.
Proof using Hok Hf Hag HP.
  intros Hb. pose proof Hb as [H1 H2 H3 H4]. split; [done|by rewrite agree_fsize| |].
  - intros Hi. rewrite agree_find. apply agree_in_use. auto.
  - rewrite agree_fblock by done. by apply agree_in_use.
Qed.
End agreeing.

Lemma agree_seen P s s1 s2 : agree P s s1 → seen s1 s2 → agree P s s2.
Proof.
  intros (H1 & H2 & H3) (H4 & H5 & _ & H6). split_and!; [done| |auto].
  intros a Hin HP. rewrite (proj1 H5). auto.
Qed.

(** ** The loop *)

Section loop.
Context (f pos0 last buf : Z) (io : Z → Z → Z → F unit).
(** Holds when [pos] is reached. *)
Context (Inv : Z → FsState → Prop).
Context (Hget : ∀ pos s, pos0 ≤ pos < last → Inv pos s →
  fs_ok s ∧ file_at s f ∧ block_at s f (pos / BLKSIZE)).
Context (Hseen : ∀ pos s s', Inv pos s → seen s s' → Inv pos s').
Context (Hio : ∀ pos bn s, pos0 ≤ pos → 1 ≤ bn → pos + bn ≤ last →
  pos mod BLKSIZE + bn ≤ BLKSIZE → Inv pos s →
  ∃ s', io (blk_va (fblock s f (pos / BLKSIZE)) + pos mod BLKSIZE) (buf + (pos - pos0)) bn s
    = Ret tt s' ∧ Inv (pos + bn) s').

Lemma file_loop_ok n pos s :
  0 ≤ pos0 ≤ pos → pos ≤ last < 2 ^ 32 →
  (pos < last → last ≤ (pos / BLKSIZE + Z.of_nat n) * BLKSIZE) →
  Inv pos s →
  ∃ s', file_loop n f pos last (buf + (pos - pos0)) io s = Ret None s' ∧ Inv last s'.
Proof using Hget Hseen Hio.
  revert pos s. induction n as [|n IH]; intros pos s Hp Hl Hn Hi; cbn [file_loop];
    rewrite !u64_id by lia; destruct (Z.ltb_spec pos last) as [Hlt|Hge].
  - exfalso. specialize (Hn Hlt). unfold BLKSIZE, PGSIZE in *. zlia.
  - exists s. replace last with pos by lia. done.
  - destruct (Hget pos s ltac:(lia) Hi) as (Hok & Hf & Hb).
    rewrite Z.quot_div_nonneg, Z.rem_mod_nonneg, u32_id by (unfold BLKSIZE, PGSIZE in *; zlia).
    destruct (file_get_block_ok s f _ Hok Hf Hb) as (s1 & Hs1 & Hseen1).
    erewrite run_bind by exact Hs1. cbn [fst snd]. change (0 <? 0) with false. cbn match. cbv zeta.
    set (bn := Z.min (BLKSIZE - pos mod BLKSIZE) (last - pos)).
    assert (Hbn : 1 ≤ bn ∧ pos + bn ≤ last ∧ pos mod BLKSIZE + bn ≤ BLKSIZE ∧
      (pos + bn = last ∨ (pos + bn) / BLKSIZE = pos / BLKSIZE + 1))
      by (unfold bn, BLKSIZE, PGSIZE; zlia).
    destruct Hbn as (H1 & H2 & H3 & H4).
    rewrite <- (seen_fblock s s1) by done.
    destruct (Hio pos bn s1) as (s2 & Hs2 & Hi2); [lia..|by eapply Hseen|].
    erewrite run_bind by exact Hs2.
    replace (buf + (pos - pos0) + bn) with (buf + (pos + bn - pos0)) by lia.
    apply IH; [lia|lia| |exact Hi2]. intros Hlt2. specialize (Hn Hlt). lia.
  - exists s. replace last with pos by lia. done.
Qed.
End loop.

Lemma loop_fuel_enough offset count :
  0 ≤ offset → 0 ≤ count →
  offset + count ≤ (offset / BLKSIZE + Z.of_nat (loop_fuel count)) * BLKSIZE.
Proof. intros. unfold loop_fuel, BLKSIZE, PGSIZE. zlia. Qed.

(** ** Copies between a block and a buffer *)

(** Byte [p] of the file is kept at. *)
Definition faddr (s : FsState) (f p : Z) : Z := blk_va (fblock s f (p / BLKSIZE)) + p mod BLKSIZE.

(** [n] bytes from [off] on in block [b]. *)
Lemma in_block b off n a :
  0 ≤ off → off + n ≤ BLKSIZE → blk_va b + off ≤ a < blk_va b + off + n → blk_of a = b.
Proof.
  intros. replace a with (blk_va b + (a - blk_va b)) by lia. apply blk_of_va. lia.
Qed.

Lemma touch_block b off n s :
  fs_ok s → in_use s b → 0 ≤ off → 1 ≤ n → off + n ≤ BLKSIZE →
  ∃ s', touch_all (blk_va b + off) n s = Ret tt s' ∧ seen s s' ∧ b ∈ fs_mapped s'.
Proof.
  intros Hok Hu Ho Hn Hle. pose proof (in_use_acc s b off Hu ltac:(lia)) as Ha.
  assert (Hblk : blk_of (blk_va b + off) = b) by (apply blk_of_va; lia).
  exists (touched (blk_va b + off) s). split_and!.
  - apply touch_all_one; [|done|done]. rewrite Hblk. apply (in_block b off n); lia.
  - by apply touched_seen.
  - destruct (touched_ok _ s Hok Ha) as (_ & _ & Hm). rewrite Hblk in Hm. apply Hm.
    apply (in_use_blk_in_map s); [done|done|lia].
Qed.

Lemma block_addr_range s b off n : fs_ok s → in_use s b → 0 ≤ off → off + n ≤ BLKSIZE →
  0 ≤ blk_va b + off ∧ blk_va b + off + n < 2 ^ 64.
Proof.
  intros Hok [Hb _] ??. pose proof (fo_nb s Hok) as Hnb. change NDISKBLKS with 786432 in Hnb.
  unfold blk_va, BLKSIZE, PGSIZE, DISKMAP in *. pow2. lia.
Qed.

(** From a block to a buffer. *)
Lemma move_out b off n buf s :
  fs_ok s → in_use s b → 0 ≤ off → 1 ≤ n → off + n ≤ BLKSIZE → buf_ok buf n →
  ∃ s', move buf (blk_va b + off) n s = Ret tt s' ∧ agree (λ _, False) s s' ∧
    ∀ a, in_map a = false → ldb (fs_mem s') a =
      if decide (buf ≤ a < buf + n) then view s (blk_va b + off + (a - buf)) else ldb (fs_mem s) a.
Proof.
  intros Hok Hu Ho Hn Hle [Hr Hout]. unfold move.
  destruct (touch_block b off n s) as (s1 & Hs1 & (Hok1 & Hsd & Hmem & Hmm) & Hb1); [done..|].
  erewrite run_bind by exact Hs1. erewrite run_bind by (by apply touch_all_out).
  destruct (write_out_ok buf n (λ m, memmove m buf (blk_va b + off) n) s1) as [Hok2 Hv2];
    [intros; by apply memmove_out|intros; by apply bytes_ok_memmove|done|done|].
  eexists. split; [reflexivity|]. split.
  - split_and!; [exact Hok2| |exact Hmm]. intros a Hin _. rewrite Hv2 by done. apply Hsd.
  - intros a Hin. cbn [mark_dirty set_fs_cache set_fs_mem fs_mem].
    pose proof (block_addr_range s b off n Hok Hu Ho Hle).
    rewrite memmove_spec; [|apply (fo_coh s1 Hok1)|lia..].
    case_decide as Hd; [|by apply Hmem].
    rewrite <- (proj1 Hsd), view_mapped; [done|].
    by rewrite (in_block b off n) by lia.
Qed.

(** From a buffer to a block. *)
Lemma move_in b off n buf s :
  fs_ok s → in_use s b → b ≠ 1 → 0 ≤ off → 1 ≤ n → off + n ≤ BLKSIZE → buf_ok buf n →
  ∃ s', move (blk_va b + off) buf n s = Ret tt s' ∧ fs_ok s' ∧
    (∀ c, c ∈ fs_mapped s → c ∈ fs_mapped s') ∧
    (∀ a, in_map a = false → ldb (fs_mem s') a = ldb (fs_mem s) a) ∧
    ∀ a, view s' a = if decide (blk_va b + off ≤ a < blk_va b + off + n)
      then ldb (fs_mem s) (buf + (a - (blk_va b + off))) else view s a.
Proof.
  intros Hok Hu Hb1 Ho Hn Hle [Hr Hout]. unfold move.
  erewrite run_bind by (by apply touch_all_out).
  destruct (touch_block b off n s) as (s1 & Hs1 & (Hok1 & Hsd & Hmem & Hmm) & Hb); [done..|].
  erewrite run_bind by exact Hs1. set (va := blk_va b + off) in *.
  assert (Hblk : ∀ a, va ≤ a < va + n → blk_of a = b) by (intros; by apply (in_block b off n)).
  destruct (write_ok va n (λ m, memmove m va buf n) s1) as [Hok2 Hv2];
    [intros; by apply memmove_out|intros; by apply bytes_ok_memmove| | |done| |].
  - intros a Ha. rewrite !Hblk by lia. done.
  - unfold off_nb, va, blk_va, BLKSIZE, PGSIZE in *. lia.
  - intros _. by rewrite Hblk by lia.
  - pose proof (block_addr_range s b off n Hok Hu Ho Hle) as Hva. fold va in Hva.
    assert (Hmv : ∀ a, ldb (memmove (fs_mem s1) va buf n) a =
        if decide (va ≤ a < va + n) then ldb (fs_mem s1) (buf + (a - va)) else ldb (fs_mem s1) a)
      by (intros a; apply memmove_spec; [apply (fo_coh s1 Hok1)|lia..]).
    eexists. split; [reflexivity|]. split_and!; [exact Hok2|exact Hmm| |].
    + intros a Hin. cbn [mark_dirty set_fs_cache set_fs_mem fs_mem]. rewrite Hmv.
      rewrite decide_False; [by apply Hmem|]. intros Ha.
      rewrite <- (Hblk a Ha) in Hu. unfold va in *.
      assert (Hin2 : in_map a = true); [|congruence].
      apply in_map_of_blk. pose proof (fo_nb s Hok). destruct Hu as [? _]. lia.
    + intros a. rewrite Hv2, Hmv. case_decide as Ha; [|apply Hsd].
      apply Hmem, Hout. lia.
Qed.
