(* ===== verification/FsServ.v ===== *)
(** * The main loop of the file server (fs/serv.c)

    The open-file table and the request handlers.  The page of a [struct Fd] and
    the request page lie outside the disk range, in the server's memory;
    [pageref va] is the kernel's reference count of the page at [va]. *)
From stdpp Require Import gmap.
From S2P Require Import Prelude Mem StringC Printfmt KState Bc Fs.

Definition MAXOPEN : Z := 1024.
Definition FILEVA : Z := 0xD0000000.
Definition MAXPATHLEN : Z := 1024.
Definition fsreq : Z := 0x0ffff000.
Definition O_ACCMODE : Z := 0x0003.
Definition O_CREAT : Z := 0x0100.
Definition O_TRUNC : Z := 0x0200.
Definition O_EXCL : Z := 0x0400.
Definition PTE_SHARE : Z := 0x400.
Definition devfile_id : Z := 102.

Record OpenFile : Type := mkOpen { o_fileid : Z; o_file : Z; o_mode : Z; o_fd : Z }.

Record ServState : Type := mkServ
  { sv_fs : FsState; opentab : list OpenFile; pageref : Z → Z }.

Definition set_sv_fs (v : FsState) (s : ServState) : ServState :=
  mkServ v (opentab s) (pageref s).
Definition set_opentab (v : list OpenFile) (s : ServState) : ServState :=
  mkServ (sv_fs s) v (pageref s).
Definition set_pageref (v : Z → Z) (s : ServState) : ServState :=
  mkServ (sv_fs s) (opentab s) v.

Definition V : Type → Type := M ServState False.

(** A call into fs.c and bc.c. *)
Definition fs {A} (m : F A) : V A := λ s,
  match m (sv_fs s) with
  | Ret a t => Ret a (set_sv_fs t s)
  | Leave x t => Leave x (set_sv_fs t s)
  | Panic t => Panic (set_sv_fs t s)
  end.

(** Fields of [struct Fd] and of the requests. *)
Definition fd_dev_id (fd : Z) : Z := fd.
Definition fd_offset (fd : Z) : Z := fd + 4.
Definition fd_omode (fd : Z) : Z := fd + 8.
Definition fd_file_id (fd : Z) : Z := fd + 12.
Definition req_fileid (req : Z) : Z := req.
Definition req_n (req : Z) : Z := req + 8.
Definition req_buf (req : Z) : Z := req + 16.
Definition req_size (req : Z) : Z := req + 4.
Definition req_omode (req : Z) : Z := req + MAXPATHLEN.
Definition ret_buf (req : Z) : Z := req.
Definition ret_name (req : Z) : Z := req.
Definition ret_size (req : Z) : Z := req + MAXNAMELEN.
Definition ret_isdir (req : Z) : Z := req + MAXNAMELEN + 4.

Definition load64 (va : Z) : F Z := touch_all va 8;; gets (λ s, ld64 (fs_mem s) va).
Definition store64 (va v : Z) : F unit :=
  touch_all va 8;; modify (λ s, mark_dirty va 8 (set_fs_mem (st64 (fs_mem s) va v) s)).

(** ** The open-file table *)

Definition serve_init : V unit :=
  modify (λ s, set_opentab
    (imap (λ i o, mkOpen (Z.of_nat i) (o_file o) (o_mode o) (FILEVA + Z.of_nat i * PGSIZE))
       (opentab s)) s).

Definition opentab_at (i : Z) (s : ServState) : OpenFile :=
  nth (Z.to_nat i) (opentab s) (mkOpen 0 0 0 0).
Definition set_open (i : Z) (g : OpenFile → OpenFile) : V unit :=
  modify (λ s, set_opentab (alter g (Z.to_nat i) (opentab s)) s).

(** sys_page_alloc(0, va, ...): the page is the server's alone. *)
Definition sys_page_alloc_at (va : Z) : V Z :=
  n ← gets (λ s, fs_free_pages (sv_fs s));
  if n <=? 0 then mret (- E_NO_MEM)
  else
    fs (modify (set_fs_free_pages (n - 1)));;
    modify (λ s, set_pageref (λ a, if decide (a = va) then 1 else pageref s a) s);;
    mret 0.

Definition zero_page (va : Z) : F unit :=
  modify (λ s, set_fs_mem (memset (fs_mem s) va 0 PGSIZE) s).

(** The result, and the index of the entry stored in [*o]. *)
Definition openfile_alloc : V (Z * Z) :=
  r ← for_range 0 MAXOPEN (λ i,
    s ← get;
    let fd := o_fd (opentab_at i s) in
    let take_it : V (option (Z * Z)) :=
      set_open i (λ o, mkOpen (u32 (o_fileid o + MAXOPEN)) (o_file o) (o_mode o) (o_fd o));;
      fs (zero_page fd);;
      s ← get;
      mret (Some (i32 (o_fileid (opentab_at i s)), i)) in
    if pageref s fd =? 0 then
      r ← sys_page_alloc_at fd;
      if r <? 0 then mret (Some (r, 0)) else take_it
    else if pageref s fd =? 1 then take_it
    else mret None);
  mret (default (- E_MAX_OPEN, 0) r).

Definition openfile_lookup (envid fileid : Z) : V (Z * Z) :=
  let i := u32 fileid mod MAXOPEN in
  s ← get;
  let o := opentab_at i s in
  if (pageref s (o_fd o) =? 1) || negb (o_fileid o =? u32 fileid) then mret (- E_INVAL, 0)
  else mret (0, i).

(** ** Handlers *)

(** The bytes before the first NUL. *)
Fixpoint until_nul (l : list Z) : list Z :=
  match l with
  | c :: l' => if c =? 0 then [] else c :: until_nul l'
  | [] => []
  end.

(** The path of a request: MAXPATHLEN bytes, the last one overwritten by a NUL. *)
Definition req_path (req : Z) : F (list Z) :=
  gets (λ s, until_nul (load_bytes (fs_mem s) req (Z.to_nat (MAXPATHLEN - 1)))).

(** The result code, [*pg_store] and [*perm_store]. *)
Definition serve_open (envid req : Z) : V (Z * option (Z * Z)) :=
  path ← fs (req_path req);
  a ← openfile_alloc;
  if fst a <? 0 then mret (fst a, None)
  else
    let i := snd a in
    omode ← fs (load32 (req_omode req));
    let try_open := fs (file_open path) in
    f ← (if truthy (Z.land omode O_CREAT) then
           r ← fs (file_create path);
           if fst r <? 0 then
             if negb (truthy (Z.land omode O_EXCL)) && (fst r =? - E_FILE_EXISTS)
             then try_open else mret (fst r, 0)
           else mret r
         else try_open);
    if fst f <? 0 then mret (fst f, None)
    else
      r ← (if truthy (Z.land omode O_TRUNC) then fs (file_set_size (snd f) 0) else mret 0);
      if r <? 0 then mret (r, None)
      else
        set_open i (λ o, mkOpen (o_fileid o) (snd f) (o_mode o) (o_fd o));;
        o ← gets (opentab_at i);
        fs (store32 (fd_file_id (o_fd o)) (o_fileid o));;
        fs (store32 (fd_omode (o_fd o)) (Z.land omode O_ACCMODE));;
        fs (store32 (fd_dev_id (o_fd o)) devfile_id);;
        set_open i (λ o, mkOpen (o_fileid o) (o_file o) omode (o_fd o));;
        mret (0, Some (o_fd o, Z.lor (Z.lor (Z.lor PTE_P PTE_U) PTE_W) PTE_SHARE)).

Definition serve_set_size (envid req : Z) : V Z :=
  id ← fs (load32 (req_fileid req));
  r ← openfile_lookup envid id;
  if fst r <? 0 then mret (fst r)
  else
    o ← gets (opentab_at (snd r));
    sz ← fs (load32 (req_size req));
    fs (file_set_size (o_file o) (i32 sz)).

Definition serve_read (envid req : Z) : V Z :=
  id ← fs (load32 (req_fileid req));
  r ← openfile_lookup envid id;
  if fst r <? 0 then mret (fst r)
  else
    o ← gets (opentab_at (snd r));
    if (o_file o =? 0) || (o_fd o =? 0) then mret (-1)
    else
      n ← fs (load64 (req_n req));
      fs (when (PGSIZE <? n) (store64 (req_n req) PGSIZE));;
      n ← fs (load64 (req_n req));
      off ← fs (load_off_t (fd_offset (o_fd o)));
      r ← fs (file_read (o_file o) (ret_buf req) n off);
      if r <=? 0 then mret r
      else
        off ← fs (load32 (fd_offset (o_fd o)));
        fs (store32 (fd_offset (o_fd o)) (off + r));;
        mret r.

Definition serve_write (envid req : Z) : V Z :=
  id ← fs (load32 (req_fileid req));
  r ← openfile_lookup envid id;
  if fst r <? 0 then mret (fst r)
  else
    o ← gets (opentab_at (snd r));
    if (o_file o =? 0) || (o_fd o =? 0) then mret (-1)
    else
      n ← fs (load64 (req_n req));
      off ← fs (load_off_t (fd_offset (o_fd o)));
      r ← fs (file_write (o_file o) (req_buf req) n off);
      if r <? 0 then mret r
      else
        off ← fs (load32 (fd_offset (o_fd o)));
        fs (store32 (fd_offset (o_fd o)) (off + r));;
        mret r.

(** strcpy, of a name of at most [n] bytes. *)
Fixpoint strcpy_fs (n : nat) (dst src : Z) : F unit :=
  c ← load8 src;
  store8 dst c;;
  if c =? 0 then mret tt
  else match n with O => panic | Datatypes.S n' => strcpy_fs n' (dst + 1) (src + 1) end.

Definition serve_stat (envid req : Z) : V Z :=
  id ← fs (load32 (req_fileid req));
  r ← openfile_lookup envid id;
  if fst r <? 0 then mret (fst r)
  else
    o ← gets (opentab_at (snd r));
    fs (strcpy_fs (Z.to_nat PGSIZE) (ret_name req) (f_name (o_file o)));;
    sz ← fs (load32 (f_size (o_file o)));
    fs (store32 (ret_size req) sz);;
    t ← fs (load32 (f_type (o_file o)));
    fs (store32 (ret_isdir req) (Z.b2z (t =? FTYPE_DIR)));;
    mret 0.

Definition serve_flush (envid req : Z) : V Z :=
  id ← fs (load32 (req_fileid req));
  r ← openfile_lookup envid id;
  if fst r <? 0 then mret (fst r)
  else o ← gets (opentab_at (snd r)); fs (file_flush (o_file o));; mret 0.

Definition serve_remove (envid req : Z) : V Z :=
  path ← fs (req_path req); fs (file_remove path).

Definition serve_sync (envid req : Z) : V Z := fs fs_sync;; mret 0.

(** [handlers], indexed by request code. *)
Definition handlers (req : Z) : option (Z → Z → V Z) :=
  if req =? 2 then Some serve_set_size else if req =? 3 then Some serve_read
  else if req =? 4 then Some serve_write else if req =? 5 then Some serve_stat
  else if req =? 6 then Some serve_flush else if req =? 7 then Some serve_remove
  else if req =? 8 then Some serve_sync else None.

(** One round of serve() after ipc_recv has mapped the request page: what is sent
    to [whom], the result, the page and the permissions.  [None]: no reply. *)
Definition serve (req whom perm : Z) : V (option (Z * Z * Z)) :=
  if negb (truthy (Z.land perm PTE_P)) then mret None
  else if req =? 1 then
    r ← serve_open whom fsreq;
    mret (Some (fst r, default 0 (fst <$> snd r), default perm (snd <$> snd r)))
  else
    match handlers req with
    | Some h => r ← h whom fsreq; mret (Some (r, 0, perm))
    | None => mret (Some (- E_INVAL, 0, perm))
    end.

(** ** The open-file table *)

Definition fd_va (i : Z) : Z := FILEVA + i * PGSIZE.

(** The table as serve_init sets it up and openfile_alloc leaves it. *)
Record table_ok (s : ServState) : Prop := {
  to_len : length (opentab s) = Z.to_nat MAXOPEN;
  to_fd : ∀ i, 0 ≤ i < MAXOPEN → o_fd (opentab_at i s) = fd_va i;
  to_id : ∀ i, 0 ≤ i < MAXOPEN →
    0 ≤ o_fileid (opentab_at i s) < 2 ^ 32 ∧ o_fileid (opentab_at i s) mod MAXOPEN = i
}.

(** The clients sharing entry [i]; the server itself holds one reference. *)
Definition refs (s : ServState) (i : Z) : Z := pageref s (o_fd (opentab_at i s)).

(** [s'] is [s] after entry [i] was given out. *)
Definition opened (s s' : ServState) (i : Z) : Prop :=
  table_ok s' ∧
  opentab_at i s' = (let o := opentab_at i s in
    mkOpen (u32 (o_fileid o + MAXOPEN)) (o_file o) (o_mode o) (o_fd o)) ∧
  (∀ j, 0 ≤ j < MAXOPEN → j ≠ i → opentab_at j s' = opentab_at j s) ∧
  (∀ a, pageref s' a = if decide (a = fd_va i) then 1 else pageref s a) ∧
  fs_mem (sv_fs s') = memset (fs_mem (sv_fs s)) (fd_va i) 0 PGSIZE.

Lemma opentab_at_alter i j g s : 0 ≤ i < MAXOPEN → 0 ≤ j < MAXOPEN →
  length (opentab s) = Z.to_nat MAXOPEN →
  nth (Z.to_nat j) (alter g (Z.to_nat i) (opentab s)) (mkOpen 0 0 0 0) =
  if decide (j = i) then g (opentab_at i s) else opentab_at j s.
Proof.
  intros Hi Hj Hlen. unfold opentab_at. rewrite !nth_lookup. case_decide as He.
  - subst j. rewrite list_lookup_alter_eq.
    destruct (lookup_lt_is_Some_2 (opentab s) (Z.to_nat i)) as [o Ho]; [lia|]. by rewrite Ho.
  - rewrite list_lookup_alter_ne by lia. done.
Qed.

(** What the server does to entry [i], its page being allocated already. *)
Definition give_out (i : Z) (s : ServState) : ServState :=
  let s1 := set_opentab (alter (λ o, mkOpen (u32 (o_fileid o + MAXOPEN)) (o_file o) (o_mode o) (o_fd o))
    (Z.to_nat i) (opentab s)) s in
  set_sv_fs (set_fs_mem (memset (fs_mem (sv_fs s)) (o_fd (opentab_at i s)) 0 PGSIZE) (sv_fs s)) s1.

Lemma give_out_opened i s s0 : 0 ≤ i < MAXOPEN → table_ok s →
  opentab s = opentab s0 → fs_mem (sv_fs s) = fs_mem (sv_fs s0) →
  (∀ a, pageref s a = if decide (a = fd_va i) then 1 else pageref s0 a) →
  opened s0 (give_out i s) i.
Proof.
  intros Hi [H1 H2 H3] Ht Hm Hp.
  assert (Hat : ∀ j, 0 ≤ j < MAXOPEN → opentab_at j (give_out i s) =
    if decide (j = i) then mkOpen (u32 (o_fileid (opentab_at i s) + MAXOPEN))
      (o_file (opentab_at i s)) (o_mode (opentab_at i s)) (o_fd (opentab_at i s))
    else opentab_at j s) by (intros j Hj; by apply opentab_at_alter).
  assert (H0 : ∀ j, opentab_at j s = opentab_at j s0) by (intros; unfold opentab_at; by rewrite Ht).
  split_and!.
  - split.
    + cbn. by rewrite length_alter.
    + intros j Hj. rewrite Hat by done. case_decide; [subst j; cbn|]; auto.
    + intros j Hj. rewrite Hat by done. case_decide; [subst j; cbn [o_fileid]|]; auto.
      destruct (H3 i Hi) as [??]. unfold u32, MAXOPEN in *. zlia.
  - rewrite Hat by done. rewrite decide_True by done. by rewrite H0.
  - intros j Hj Hne. rewrite Hat by done. by rewrite decide_False.
  - exact Hp.
  - cbn. rewrite H2, Hm by done. done.
Qed.

Definition openfile_entry (i : Z) : V (option (Z * Z)) :=
  s ← get;
  let fd := o_fd (opentab_at i s) in
  let take_it : V (option (Z * Z)) :=
    set_open i (λ o, mkOpen (u32 (o_fileid o + MAXOPEN)) (o_file o) (o_mode o) (o_fd o));;
    fs (zero_page fd);;
    s ← get;
    mret (Some (i32 (o_fileid (opentab_at i s)), i)) in
  if pageref s fd =? 0 then
    r ← sys_page_alloc_at fd;
    if r <? 0 then mret (Some (r, 0)) else take_it
  else if pageref s fd =? 1 then take_it
  else mret None.

Lemma openfile_entry_ok i s : 0 ≤ i < MAXOPEN → table_ok s →
  if decide (refs s i = 0 ∨ refs s i = 1) then
    if decide (refs s i = 0 ∧ fs_free_pages (sv_fs s) ≤ 0)
    then openfile_entry i s = Ret (Some (- E_NO_MEM, 0)) s
    else ∃ s', openfile_entry i s = Ret (Some (i32 (o_fileid (opentab_at i s')), i)) s' ∧ opened s s' i
  else openfile_entry i s = Ret None s.
Proof.
  intros Hi Hok. unfold refs. rewrite (to_fd s Hok i Hi). unfold openfile_entry, mbind, M_bind, get.
  rewrite (to_fd s Hok i Hi).
  destruct (Z.eqb_spec (pageref s (fd_va i)) 0) as [H0|H0].
  - rewrite decide_True by auto. unfold sys_page_alloc_at, gets, mbind, M_bind.
    destruct (Z.leb_spec (fs_free_pages (sv_fs s)) 0) as [Hp|Hp].
    + by rewrite decide_True.
    + rewrite decide_False by lia.
      set (s1 := set_pageref (λ a, if decide (a = fd_va i) then 1 else pageref s a)
        (set_sv_fs (set_fs_free_pages (fs_free_pages (sv_fs s) - 1) (sv_fs s)) s)).
      exists (give_out i s1). split.
      * unfold give_out. change (opentab_at i s1) with (opentab_at i s).
        rewrite (to_fd s Hok i Hi). reflexivity.
      * apply give_out_opened; [done| |done|done|done]. destruct Hok. by split.
  - destruct (Z.eqb_spec (pageref s (fd_va i)) 1) as [H1|H1].
    + rewrite decide_True, decide_False by lia. exists (give_out i s). split.
      * unfold give_out. rewrite (to_fd s Hok i Hi). reflexivity.
      * apply give_out_opened; try done. intros a. case_decide; congruence.
    + by rewrite decide_False by lia.
Qed.

Lemma openfile_search s n i : table_ok s → 0 ≤ i → i + Z.of_nat n = MAXOPEN →
  (for_n n i openfile_entry s = Ret None s ∧ ∀ j, i ≤ j < MAXOPEN → refs s j ≠ 0 ∧ refs s j ≠ 1) ∨
  (∃ j, i ≤ j < MAXOPEN ∧ (refs s j = 0 ∨ refs s j = 1) ∧
     (∀ k, i ≤ k < j → refs s k ≠ 0 ∧ refs s k ≠ 1) ∧
     if decide (refs s j = 0 ∧ fs_free_pages (sv_fs s) ≤ 0)
     then for_n n i openfile_entry s = Ret (Some (- E_NO_MEM, 0)) s
     else ∃ s', for_n n i openfile_entry s =
       Ret (Some (i32 (o_fileid (opentab_at j s')), j)) s' ∧ opened s s' j).
Proof.
  intros Hok. revert i.
  induction n as [|n IH]; intros i Hi Hn; [left; split; [done|intros; lia]|]. cbn [for_n].
  pose proof (openfile_entry_ok i s ltac:(lia) Hok) as He. unfold mbind, M_bind.
  destruct (decide (refs s i = 0 ∨ refs s i = 1)) as [Hr|Hr].
  - right. exists i. split_and!; [lia|lia|done|intros; lia|]. case_decide; [by rewrite He|].
    destruct He as (s' & -> & Ho). by exists s'.
  - rewrite He. destruct (IH (i + 1)) as [[H1 H2]|(j & H1 & H2 & H3 & H4)]; [lia|lia| |].
    + left. split; [done|]. intros j Hj. destruct (decide (j = i)) as [->|]; [tauto|]. apply H2. lia.
    + right. exists j. split_and!; [lia|lia|done| |done].
      intros k Hk. destruct (decide (k = i)) as [->|]; [tauto|]. apply H3. lia.
Qed.

(** The three outcomes of openfile_alloc. *)
Definition alloc_outcome (s : ServState) : Prop :=
  (openfile_alloc s = Ret (- E_MAX_OPEN, 0) s ∧
     ∀ i, 0 ≤ i < MAXOPEN → refs s i ≠ 0 ∧ refs s i ≠ 1) ∨
  (∃ i, 0 ≤ i < MAXOPEN ∧ (refs s i = 0 ∨ refs s i = 1) ∧
     (∀ j, 0 ≤ j < i → refs s j ≠ 0 ∧ refs s j ≠ 1) ∧
     if decide (refs s i = 0 ∧ fs_free_pages (sv_fs s) ≤ 0)
     then openfile_alloc s = Ret (- E_NO_MEM, 0) s
     else ∃ s', openfile_alloc s = Ret (i32 (o_fileid (opentab_at i s')), i) s' ∧ opened s s' i).

Lemma openfile_alloc_ok s : table_ok s → alloc_outcome s.
Proof.
  intros Hok. unfold alloc_outcome. change openfile_alloc with
    (r ← for_range 0 MAXOPEN openfile_entry; (mret (default (- E_MAX_OPEN, 0) r) : V _)).
  unfold for_range, mbind, M_bind.
  destruct (openfile_search s (Z.to_nat (MAXOPEN - 0)) 0)
    as [[H1 H2]|(i & H1 & H2 & H3 & H4)]; [done|done|done| |].
  - left. by rewrite H1.
  - right. exists i. split_and!; [lia|lia|done|done|]. case_decide; [by rewrite H4|].
    destruct H4 as (s' & -> & Ho). by exists s'.
Qed.

Lemma openfile_alloc_cases s r s' : table_ok s → openfile_alloc s = Ret r s' →
  s' = s ∨ ∃ i, 0 ≤ i < MAXOPEN ∧ opened s s' i ∧ (refs s i = 0 ∨ refs s i = 1).
Proof.
  intros Hok Hrun. destruct (openfile_alloc_ok s Hok) as [[H1 _]|(i & Hi & Hr & _ & H1)].
  - left. congruence.
  - case_decide; [left; congruence|]. destruct H1 as (s2 & H1 & Ho). right. exists i.
    split_and!; [lia|lia|congruence|done].
Qed.

(** Opening a file.  openfile_alloc takes the first entry that no client
    shares, never one that is in use; the entry gets a new id that selects the same
    slot, a zeroed descriptor page and one reference; every other entry and every
    other page's count is as before.  It fails with E_MAX_OPEN exactly when all
    1024 entries are in use, and with E_NO_MEM when the page for a first use cannot
    be had, changing nothing. *)
Theorem openfile_alloc_correct s :
  table_ok s →
  (openfile_alloc s = Ret (- E_MAX_OPEN, 0) s ∧
     ∀ i, 0 ≤ i < MAXOPEN → refs s i ≠ 0 ∧ refs s i ≠ 1) ∨
  (∃ i, 0 ≤ i < MAXOPEN ∧ (refs s i = 0 ∨ refs s i = 1) ∧
     (∀ j, 0 ≤ j < i → refs s j ≠ 0 ∧ refs s j ≠ 1) ∧
     if decide (refs s i = 0 ∧ fs_free_pages (sv_fs s) ≤ 0)
     then openfile_alloc s = Ret (- E_NO_MEM, 0) s
     else ∃ s', openfile_alloc s = Ret (i32 (o_fileid (opentab_at i s')), i) s' ∧ opened s s' i).
Proof. apply openfile_alloc_ok. Qed.

(** A history of the table: files are opened, and clients share and drop pages.
    [k] counts the times that entry [i] got a new id. *)
Inductive table_run (i : Z) : nat → ServState → ServState → Prop :=
  | run_nil s : table_run i 0 s s
  | run_open k s r s1 s2 :
      openfile_alloc s = Ret r s1 → table_run i k s1 s2 →
      table_run i (if o_fileid (opentab_at i s1) =? o_fileid (opentab_at i s) then k else S k) s s2
  | run_client k s p s2 : table_run i k (set_pageref p s) s2 → table_run i k s s2.


Lemma table_ok_pageref p s : table_ok s → table_ok (set_pageref p s).
Proof. intros [H1 H2 H3]. by split. Qed.

Lemma table_run_ids i k s s' : 0 ≤ i < MAXOPEN → table_ok s → table_run i k s s' →
  table_ok s' ∧
  o_fileid (opentab_at i s') = u32 (o_fileid (opentab_at i s) + Z.of_nat k * MAXOPEN).
Proof.
  intros Hi Hok Hrun. induction Hrun as [s|k s r s1 s2 Hal Hrun IH|k s p s2 Hrun IH].
  - split; [done|]. destruct (to_id s Hok i Hi) as [? _]. rewrite u32_id; pow2; lia.
  - destruct (openfile_alloc_cases s r s1 Hok Hal) as [->|(j & Hj & (Hok1 & Hat & Hne & _) & _)].
    + rewrite Z.eqb_refl. auto.
    + destruct (IH Hok1) as [Hok2 ->]. split; [done|]. destruct (decide (j = i)) as [->|Hji].
      * rewrite Hat. cbn [o_fileid]. destruct (to_id s Hok i Hi) as [? _].
        destruct (Z.eqb_spec (u32 (o_fileid (opentab_at i s) + MAXOPEN)) (o_fileid (opentab_at i s)))
          as [He|_]; unfold u32, MAXOPEN in *; zlia.
      * rewrite Hne by (done || lia). by rewrite Z.eqb_refl.
  - destruct (IH (table_ok_pageref p s Hok)) as [? ->]. done.
Qed.

(** A file id is good for one opening.  Through any history of openings and
    of clients taking and dropping descriptor pages, the id that entry [i] had at
    the start is refused as soon as the entry has been given out again, up to the
    2^22 openings after which the 32-bit ids of a slot repeat. *)
Theorem file_id_fresh i k s s' env :
  0 ≤ i < MAXOPEN → table_ok s → table_run i k s s' → (0 < k)%nat → Z.of_nat k < 2 ^ 22 →
  openfile_lookup env (o_fileid (opentab_at i s)) s' = Ret (- E_INVAL, 0) s'.
Proof.
  intros Hi Hok Hrun Hk Hlt. destruct (table_run_ids i k s s' Hi Hok Hrun) as [_ Hid].
  destruct (to_id s Hok i Hi) as [Hr Hm]. unfold openfile_lookup, mbind, M_bind, get.
  rewrite u32_id, Hm, Hid by (pow2; lia).
  replace (_ =? o_fileid (opentab_at i s)) with false; [by rewrite orb_true_r|].
  symmetry. apply Z.eqb_neq. unfold u32, MAXOPEN. zlia.
Qed.

(** ** The table after serve_init *)

Lemma serve_init_ok s : length (opentab s) = Z.to_nat MAXOPEN →
  ∃ s', serve_init s = Ret tt s' ∧ table_ok s' ∧ pageref s' = pageref s ∧ sv_fs s' = sv_fs s ∧
    ∀ i, 0 ≤ i < MAXOPEN → o_fileid (opentab_at i s') = i.
Proof.
  intros Hlen. eexists. split; [reflexivity|].
  assert (Hat : ∀ i, 0 ≤ i < MAXOPEN → ∃ f m, nth (Z.to_nat i)
    (imap (λ i o, mkOpen (Z.of_nat i) (o_file o) (o_mode o) (FILEVA + Z.of_nat i * PGSIZE)) (opentab s))
    (mkOpen 0 0 0 0) = mkOpen i f m (fd_va i)).
  { intros i Hi. destruct (lookup_lt_is_Some_2 (opentab s) (Z.to_nat i)) as [o Ho]; [lia|].
    exists (o_file o), (o_mode o). rewrite nth_lookup, list_lookup_imap, Ho. cbn.
    by rewrite Z2Nat.id by lia. }
  split_and!; [|done|done|].
  - split; [cbn; by rewrite length_imap|..]; intros i Hi; destruct (Hat i Hi) as (f & m & He);
      unfold opentab_at; cbn; rewrite He; [done|]. cbn. unfold MAXOPEN in *. pow2. zlia.
  - intros i Hi. destruct (Hat i Hi) as (f & m & He). unfold opentab_at. cbn. by rewrite He.
Qed.

(** openfile_lookup refuses a count of 1, but an entry that was never opened has
    count 0: its initial id is accepted, with a null [o_file]. *)
Theorem lookup_never_opened i s s' env :
  0 ≤ i < MAXOPEN → length (opentab s) = Z.to_nat MAXOPEN → (∀ a, pageref s a = 0) →
  serve_init s = Ret tt s' → openfile_lookup env i s' = Ret (0, i) s'.
Proof.
  intros Hi Hlen Hp Hrun. destruct (serve_init_ok s Hlen) as (s1 & H1 & Hok & Href & _ & Hid).
  rewrite H1 in Hrun. injection Hrun as <-. unfold openfile_lookup, mbind, M_bind, get.
  assert (Hu : u32 i = i) by (apply u32_id; unfold MAXOPEN in *; lia).
  rewrite Hu, Z.mod_small, Hid, Href, Hp, Z.eqb_refl by done. done.
Qed.
