(* ===== verification/FsRW.v ===== *)
(** * file_read and file_write as operations on the contents of a file

    The contents of a file are a list of bytes.  file_read copies a slice of it to
    the caller's buffer, file_write within the file overwrites one; neither
    touches another file or the metadata. *)
From stdpp Require Import gmap.
From S2P Require Import Prelude Mem StringC Printfmt KState Bc Fs FsView FsSpec FsIO.

(** Bytes [lo] to [hi] of the file are on blocks in use. *)
Definition allocated (s : FsState) (f lo hi : Z) : Prop :=
  ∀ p, lo ≤ p < hi → block_at s f (p / BLKSIZE).

(** The bytes of the disk that hold them. *)
Definition data_at (s : FsState) (f lo hi a : Z) : Prop := ∃ p, lo ≤ p < hi ∧ a = faddr s f p.

Lemma fbyte_faddr s f p : fbyte s f p = view s (faddr s f p).
Proof. done. Qed.

Lemma faddr_blk s f p : blk_of (faddr s f p) = fblock s f (p / BLKSIZE).
Proof. apply blk_of_va. unfold BLKSIZE, PGSIZE. zlia. Qed.

Lemma faddr_in_map s f p : fs_ok s → block_at s f (p / BLKSIZE) → in_map (faddr s f p) = true.
Proof.
  intros Hok Hb. apply (in_use_blk_in_map s); [done|apply Hb|]. unfold BLKSIZE, PGSIZE. zlia.
Qed.

Lemma load_size s f : fs_ok s → file_at s f →
  ∃ s', load_off_t (f_size f) s = Ret (fsize s f) s' ∧ seen s s'.
Proof.
  intros Hok Hf. destruct (load_field s f 128 Hok Hf) as [Hl Hs]; [done..|].
  exists (touched (f + 128) s). split; [|done]. unfold load_off_t. by erewrite run_bind by exact Hl.
Qed.

Lemma fsize_lt s f : fsize s f < 2 ^ 31.
Proof. unfold fsize, i32. case_match; pow2; [lia|]. zlia. Qed.

(** [s'] is [s] but for the caller's buffer, which holds bytes of the file. *)
Definition read_post (s s' : FsState) (f buf offset n : Z) : Prop :=
  agree (λ _, False) s s' ∧
  ∀ a, in_map a = false → ldb (fs_mem s') a =
    if decide (buf ≤ a < buf + n) then fbyte s f (offset + (a - buf)) else ldb (fs_mem s) a.

(** [s'] is [s] but for the bytes [offset] to [offset + n] of the file, which come
    from the buffer. *)
Definition write_post (s s' : FsState) (f buf offset n : Z) : Prop :=
  agree (data_at s f offset (offset + n)) s s' ∧
  (∀ p, offset ≤ p < offset + n → view s' (faddr s f p) = ldb (fs_mem s) (buf + (p - offset))) ∧
  ∀ a, in_map a = false → ldb (fs_mem s') a = ldb (fs_mem s) a.

Lemma agree_refl P s : fs_ok s → agree P s s.
Proof. by intros. Qed.

Lemma read_post_seen s s1 s2 f buf offset n :
  read_post s s1 f buf offset n → seen s1 s2 → read_post s s2 f buf offset n.
Proof.
  intros [Ha Hm] Hs. split; [by eapply agree_seen|]. intros a Hin.
  pose proof Hs as (_ & _ & Ho & _). rewrite Ho by done. auto.
Qed.

Lemma write_post_seen s s1 s2 f buf offset n :
  write_post s s1 f buf offset n → seen s1 s2 → write_post s s2 f buf offset n.
Proof.
  intros (Ha & Hd & Hm) Hs. pose proof Hs as (_ & Hsd & Ho & _).
  split_and!; [by eapply agree_seen| |].
  - intros p Hp. rewrite (proj1 Hsd). auto.
  - intros a Hin. rewrite Ho by done. auto.
Qed.

Lemma fsize_agree0 s s' f : fs_ok s → file_at s f → agree (λ _, False) s s' →
  ∀ i, block_at s f i → fs_ok s' ∧ file_at s' f ∧ block_at s' f i ∧ fblock s' f i = fblock s f i.
Proof.
  intros Hok Hf Hag i Hb. assert (HP : ∀ a, False → ¬ meta_blk s f (blk_of a)) by done.
  split_and!; [apply Hag| | |].
  - by apply (agree_file _ s s' f Hok Hf Hag).
  - by apply (agree_block _ s s' f Hok Hf Hag).
  - by apply (agree_fblock _ s s' f Hok Hf Hag).
Qed.

Lemma read_loop s s0 f buf offset n :
  fs_ok s → file_at s f → 0 ≤ offset → 0 ≤ n → offset + n < 2 ^ 32 → buf_ok buf n →
  allocated s f offset (offset + n) → seen s s0 →
  ∃ s', file_loop (loop_fuel n) f offset (offset + n) buf (λ blk buf bn, move buf blk bn) s0
    = Ret None s' ∧ read_post s s' f buf offset n.
Proof.
  intros Hok Hf Ho Hn Hlt [Hbr Hbo] Hall Hs0.
  destruct (file_loop_ok f offset (offset + n) buf (λ blk buf bn, move buf blk bn)
    (λ pos s', read_post s s' f buf offset (pos - offset))) with (n := loop_fuel n) (pos := offset)
    (s := s0) as (s' & Hs' & Hp); [| | |lia|lia| | |].
  - intros pos s1 Hp [Hag _]. destruct (fsize_agree0 s s1 f Hok Hf Hag (pos / BLKSIZE)) as (?&?&?&?);
      [by apply Hall|done].
  - intros pos s1 s2. apply read_post_seen.
  - intros pos bn s1 Hp Hbn Hle Hblk [Hag Hm].
    pose proof (Hall pos ltac:(lia)) as Hb.
    destruct (fsize_agree0 s s1 f Hok Hf Hag _ Hb) as (Hok1 & _ & Hb1 & Hfb).
    assert (Hmod : 0 ≤ pos mod BLKSIZE) by (unfold BLKSIZE, PGSIZE; zlia).
    destruct (move_out (fblock s1 f (pos / BLKSIZE)) (pos mod BLKSIZE) bn (buf + (pos - offset)) s1)
      as (s2 & Hs2 & (Hok2 & Hv2 & Hmm2) & Hm2); [done|apply Hb1|done|done|done| |].
    { split; [lia|]. intros. apply Hbo. lia. }
    exists s2. split; [exact Hs2|]. split.
    + destruct Hag as (_ & Hv & Hmm). split_and!; [done| |auto].
      intros a Hin _. rewrite Hv2 by auto. auto.
    + intros a Hin. rewrite Hm2, Hm by done. rewrite Hfb.
      destruct (decide (buf + (pos - offset) ≤ a < buf + (pos - offset) + bn)) as [Ha|Ha].
      * rewrite decide_True by lia. unfold fbyte.
        replace (offset + (a - buf)) with (pos + (a - (buf + (pos - offset)))) by lia.
        set (k := a - (buf + (pos - offset))). assert (0 ≤ k < bn) by (unfold k; lia).
        assert (Hd : (pos + k) / BLKSIZE = pos / BLKSIZE ∧
          (pos + k) mod BLKSIZE = pos mod BLKSIZE + k) by (unfold BLKSIZE, PGSIZE in *; zlia).
        destruct Hd as [-> ->]. destruct Hag as (_ & Hv & _). rewrite Z.add_assoc. apply Hv; [|by intros []].
        rewrite <- Z.add_assoc. apply (in_use_blk_in_map s); [done|apply Hb|lia].
      * destruct (decide (buf ≤ a < buf + (pos - offset))); [rewrite decide_True by lia; done|].
        by rewrite decide_False by lia.
  - intros _. by apply loop_fuel_enough.
  - pose proof Hs0 as (H1 & H2 & H3 & H4). split.
    + split_and!; [done| |done]. intros. apply H2.
    + intros a Hin. rewrite decide_False by lia. auto.
  - rewrite Z.sub_diag, Z.add_0_r in Hs'. exists s'. split; [exact Hs'|].
    by replace (offset + n - offset) with n in Hp by lia.
Qed.

(** Facts of a range of the file whose data blocks are nobody's metadata and differ. *)
Record separate (s : FsState) (f lo hi : Z) : Prop := {
  sp_meta : ∀ p, lo ≤ p < hi → ¬ meta_blk s f (fblock s f (p / BLKSIZE));
  sp_inj : ∀ p q, lo ≤ p < hi → lo ≤ q < hi →
    fblock s f (p / BLKSIZE) = fblock s f (q / BLKSIZE) → p / BLKSIZE = q / BLKSIZE
}.

Lemma faddr_inj s f lo hi p q : separate s f lo hi → lo ≤ p < hi → lo ≤ q < hi →
  faddr s f p = faddr s f q → p = q.
Proof.
  intros Hsep Hp Hq He. assert (Hb : p / BLKSIZE = q / BLKSIZE).
  { apply (sp_inj s f lo hi Hsep); [done..|]. by rewrite <- !faddr_blk, He. }
  unfold faddr in He. rewrite Hb in He. unfold BLKSIZE, PGSIZE in *. zlia.
Qed.

Lemma data_at_meta s f lo hi : separate s f lo hi →
  ∀ a, data_at s f lo hi a → ¬ meta_blk s f (blk_of a).
Proof. intros Hsep a (p & Hp & ->). rewrite faddr_blk. by apply (sp_meta s f lo hi Hsep). Qed.

Lemma agree_data s s' f lo hi : fs_ok s → file_at s f → separate s f lo hi →
  agree (data_at s f lo hi) s s' →
  ∀ i, block_at s f i → fs_ok s' ∧ file_at s' f ∧ block_at s' f i ∧ fblock s' f i = fblock s f i.
Proof.
  intros Hok Hf Hsep Hag i Hb. pose proof (data_at_meta s f lo hi Hsep) as HP.
  split_and!; [apply Hag| | |].
  - by apply (agree_file _ s s' f Hok Hf Hag).
  - by apply (agree_block _ s s' f Hok Hf Hag).
  - by apply (agree_fblock _ s s' f Hok Hf Hag).
Qed.

Lemma data_at_mono s f lo hi hi' a : hi ≤ hi' → data_at s f lo hi a → data_at s f lo hi' a.
Proof. intros ? (p & ? & ?). exists p. split; [lia|done]. Qed.

Lemma separate_mono s f lo hi hi' : hi ≤ hi' → separate s f lo hi' → separate s f lo hi.
Proof. intros ? [H1 H2]. split; intros; [apply H1|apply H2]; lia || done. Qed.

(** One block of a write. *)
Lemma write_step s s1 f buf offset n pos bn :
  fs_ok s → file_at s f → 0 ≤ offset → offset ≤ pos → 1 ≤ bn → pos + bn ≤ offset + n →
  pos mod BLKSIZE + bn ≤ BLKSIZE → buf_ok buf n →
  allocated s f offset (offset + n) → separate s f offset (offset + n) →
  write_post s s1 f buf offset (pos - offset) →
  ∃ s2, move (blk_va (fblock s1 f (pos / BLKSIZE)) + pos mod BLKSIZE) (buf + (pos - offset)) bn s1
    = Ret tt s2 ∧ write_post s s2 f buf offset (pos + bn - offset).
Proof.
  intros Hok Hf Ho Hp Hbn Hle Hblk [Hbr Hbo] Hall Hsep (Hag & Hd & Hm).
  pose proof (Hall pos ltac:(lia)) as Hb.
  replace (offset + (pos - offset)) with pos in Hag, Hd by lia.
  assert (Hsep1 : separate s f offset pos) by (eapply separate_mono; [|done]; lia).
  destruct (agree_data s s1 f _ _ Hok Hf Hsep1 Hag _ Hb) as (Hok1 & Hf1 & Hb1 & Hfb).
  assert (Hmod : 0 ≤ pos mod BLKSIZE) by (unfold BLKSIZE, PGSIZE; zlia).
  assert (Hn1 : fblock s1 f (pos / BLKSIZE) ≠ 1).
  { rewrite Hfb. intros He. apply (sp_meta s f _ _ Hsep pos ltac:(lia)). by left. }
  destruct (move_in (fblock s1 f (pos / BLKSIZE)) (pos mod BLKSIZE) bn (buf + (pos - offset)) s1)
    as (s2 & Hs2 & Hok2 & Hmm2 & Hm2 & Hv2); [done|apply Hb1|done|done|done|done| |].
  { split; [lia|]. intros. apply Hbo. lia. }
  rewrite Hfb in Hv2, Hs2 |- *. exists s2. split; [exact Hs2|].
  assert (Hfa : ∀ k, 0 ≤ k < bn →
    faddr s f (pos + k) = blk_va (fblock s f (pos / BLKSIZE)) + pos mod BLKSIZE + k).
  { intros k Hk. unfold faddr.
    assert (Hdm : (pos + k) / BLKSIZE = pos / BLKSIZE ∧
      (pos + k) mod BLKSIZE = pos mod BLKSIZE + k) by (unfold BLKSIZE, PGSIZE in *; zlia).
    destruct Hdm as [-> ->]. lia. }
  replace (offset + (pos + bn - offset)) with (pos + bn) by lia.
  destruct Hag as (_ & Hv & Hmm). split; [split_and!; [done| |auto]|split].
  - intros a Hin Hna. rewrite Hv2. rewrite decide_False.
    + apply Hv; [done|]. intros Hda. apply Hna. by eapply data_at_mono; [|exact Hda]; lia.
    + intros Ha. apply Hna. exists (pos + (a - faddr s f pos)).
      pose proof (Hfa 0 ltac:(lia)) as H0. rewrite !Z.add_0_r in H0.
      split; [lia|]. rewrite Hfa by lia. lia.
  - intros p Hpr. rewrite Hv2. destruct (decide (p < pos)) as [Hlt|Hge].
    + rewrite decide_False; [apply Hd; lia|]. intros Ha.
      pose proof (Hfa 0 ltac:(lia)) as H0. rewrite !Z.add_0_r in H0.
      assert (He : faddr s f p = faddr s f (pos + (faddr s f p - faddr s f pos)))
        by (rewrite Hfa by lia; lia).
      apply (faddr_inj s f _ _ _ _ Hsep) in He; lia.
    + pose proof (Hfa (p - pos) ltac:(lia)) as Hk. replace (pos + (p - pos)) with p in Hk by lia.
      rewrite decide_True by lia. rewrite Hm by (apply Hbo; lia). f_equal. lia.
  - intros a Hin. rewrite Hm2 by done. auto.
Qed.

Lemma write_loop s s0 f buf offset n :
  fs_ok s → file_at s f → 0 ≤ offset → 0 ≤ n → offset + n < 2 ^ 32 → buf_ok buf n →
  allocated s f offset (offset + n) → separate s f offset (offset + n) → seen s s0 →
  ∃ s', file_loop (loop_fuel n) f offset (offset + n) buf (λ blk buf bn, move blk buf bn) s0
    = Ret None s' ∧ write_post s s' f buf offset n.
Proof.
  intros Hok Hf Ho Hn Hlt Hbuf Hall Hsep Hs0.
  destruct (file_loop_ok f offset (offset + n) buf (λ blk buf bn, move blk buf bn)
    (λ pos s', write_post s s' f buf offset (pos - offset))) with (n := loop_fuel n) (pos := offset)
    (s := s0) as (s' & Hs' & Hp); [| | |lia|lia| | |].
  - intros pos s1 Hp (Hag & _). replace (offset + (pos - offset)) with pos in Hag by lia.
    destruct (agree_data s s1 f _ _ Hok Hf (separate_mono _ _ _ pos (offset + n) ltac:(lia) Hsep) Hag
      (pos / BLKSIZE)) as (?&?&?&?); [by apply Hall|done].
  - intros pos s1 s2. apply write_post_seen.
  - intros pos bn s1 ?????. by apply write_step with (n := n).
  - intros _. by apply loop_fuel_enough.
  - rewrite Z.sub_diag. pose proof Hs0 as (H1 & H2 & H3 & H4).
    split; [split_and!; [done| |done]|split; [|done]].
    + intros. apply H2.
    + intros. lia.
  - rewrite Z.sub_diag, Z.add_0_r in Hs'. exists s'. split; [exact Hs'|].
    by replace (offset + n - offset) with n in Hp by lia.
Qed.

Lemma file_read_ok s f buf count offset :
  let n := Z.min count (Z.max 0 (fsize s f - offset)) in
  fs_ok s → file_at s f → 0 ≤ offset → 0 ≤ count → buf_ok buf n →
  allocated s f offset (offset + n) →
  ∃ s', file_read f buf count offset s = Ret n s' ∧ read_post s s' f buf offset n.
Proof.
  intros n Hok Hf Ho Hc Hbuf Hall. unfold file_read.
  destruct (load_size s f Hok Hf) as (s1 & Hs1 & Hseen). erewrite run_bind by exact Hs1.
  pose proof (fsize_lt s f) as Hlt. pose proof (fa_size s f Hf) as Hpos. change (2 ^ 31) with 2147483648 in Hlt.
  destruct (Z.leb_spec (fsize s f) offset) as [Hle|Hgt].
  - assert (Hn : n = 0) by (unfold n; lia). rewrite Hn. exists s1. split; [done|].
    destruct Hseen as (H1 & H2 & H3 & H4). split.
    + split_and!; [done| |done]. intros. apply H2.
    + intros a Hin. rewrite decide_False by lia. auto.
  - cbv zeta. rewrite u64_id by lia.
    assert (Hn : Z.min count (fsize s f - offset) = n) by (unfold n; lia). rewrite Hn.
    assert (0 ≤ n ∧ offset + n ≤ fsize s f) by (unfold n; lia).
    destruct (read_loop s s1 f buf offset n) as (s2 & Hs2 & Hp); [done|done|lia|lia|pow2; lia|done..|].
    erewrite run_bind by exact Hs2. exists s2. split; [|done].
    cbn [default mret M_ret]. by rewrite i32_id by lia.
Qed.

Lemma file_write_ok s f buf count offset :
  fs_ok s → file_at s f → 0 ≤ offset → 0 ≤ count → offset + count ≤ fsize s f →
  buf_ok buf count → allocated s f offset (offset + count) → separate s f offset (offset + count) →
  ∃ s', file_write f buf count offset s = Ret count s' ∧ write_post s s' f buf offset count.
Proof.
  intros Hok Hf Ho Hc Hle Hbuf Hall Hsep. unfold file_write.
  destruct (load_size s f Hok Hf) as (s1 & Hs1 & Hseen). erewrite run_bind by exact Hs1.
  pose proof (fsize_lt s f) as Hlt. change (2 ^ 31) with 2147483648 in Hlt.
  rewrite !u64_id by lia. rewrite (proj2 (Z.ltb_ge _ _)) by lia.
  rewrite run_ret. change (0 <? 0) with false. cbn match.
  destruct (write_loop s s1 f buf offset count) as (s2 & Hs2 & Hp); [done|done|lia|lia|pow2; lia|done..|].
  erewrite run_bind by exact Hs2. exists s2. split; [|done].
  cbn [default mret M_ret]. by rewrite i32_id by lia.
Qed.

(** ** Contents as lists *)

Definition contents (s : FsState) (f : Z) : list Z := fbyte s f <$> seqZ 0 (fsize s f).
(** [n] bytes of the caller's memory. *)
Definition mem_bytes (s : FsState) (buf n : Z) : list Z :=
  (λ i, ldb (fs_mem s) (buf + i)) <$> seqZ 0 n.

(** The abstract operations on a file. *)
Definition slice (l : list Z) (off n : Z) : list Z := take (Z.to_nat n) (drop (Z.to_nat off) l).
Definition overwrite (l : list Z) (off : Z) (data : list Z) : list Z :=
  take (Z.to_nat off) l ++ data ++ drop (Z.to_nat off + length data) l.

Lemma contents_length s f : 0 ≤ fsize s f → Z.of_nat (length (contents s f)) = fsize s f.
Proof. intros. unfold contents. rewrite length_fmap, length_seqZ. lia. Qed.

Lemma mem_bytes_length s buf n : 0 ≤ n → Z.of_nat (length (mem_bytes s buf n)) = n.
Proof. intros. unfold mem_bytes. rewrite length_fmap, length_seqZ. lia. Qed.

Lemma contents_lookup s f i : Z.of_nat i < fsize s f →
  contents s f !! i = Some (fbyte s f (Z.of_nat i)).
Proof.
  intros. unfold contents. rewrite list_lookup_fmap, lookup_seqZ_lt by lia. done.
Qed.

Lemma mem_bytes_lookup s buf n i : Z.of_nat i < n →
  mem_bytes s buf n !! i = Some (ldb (fs_mem s) (buf + Z.of_nat i)).
Proof.
  intros. unfold mem_bytes. rewrite list_lookup_fmap, lookup_seqZ_lt by lia. done.
Qed.

Lemma slice_lookup l off n i : 0 ≤ off → 0 ≤ n →
  slice l off n !! i = if decide (Z.of_nat i < n) then l !! (Z.to_nat off + i)%nat else None.
Proof.
  intros. unfold slice. case_decide.
  - rewrite lookup_take_lt by lia. apply lookup_drop.
  - apply lookup_take_ge. lia.
Qed.

Lemma slice_length l off n : 0 ≤ off → 0 ≤ n → off + n ≤ Z.of_nat (length l) →
  Z.of_nat (length (slice l off n)) = n.
Proof. intros. unfold slice. rewrite length_take, length_drop. lia. Qed.

Lemma overwrite_length l off data :
  0 ≤ off → off + Z.of_nat (length data) ≤ Z.of_nat (length l) →
  length (overwrite l off data) = length l.
Proof. intros. unfold overwrite. rewrite !length_app, length_take, length_drop. lia. Qed.

Lemma overwrite_lookup l off data i :
  0 ≤ off → off + Z.of_nat (length data) ≤ Z.of_nat (length l) →
  overwrite l off data !! i =
    if decide (off ≤ Z.of_nat i < off + Z.of_nat (length data))
    then data !! (i - Z.to_nat off)%nat else l !! i.
Proof.
  intros Ho Hle. unfold overwrite. assert (Ht : length (take (Z.to_nat off) l) = Z.to_nat off)
    by (rewrite length_take; lia).
  case_decide.
  - rewrite lookup_app_r, Ht by lia. apply lookup_app_l. lia.
  - destruct (decide (Z.of_nat i < off)).
    + rewrite lookup_app_l by lia. apply lookup_take_lt. lia.
    + rewrite lookup_app_r, Ht, lookup_app_r by lia. rewrite lookup_drop. f_equal. lia.
Qed.

(** What was written is read back. *)
Lemma slice_overwrite l off data :
  0 ≤ off → off + Z.of_nat (length data) ≤ Z.of_nat (length l) →
  slice (overwrite l off data) off (Z.of_nat (length data)) = data.
Proof.
  intros Ho Hle. apply list_eq. intros i. rewrite slice_lookup by lia. case_decide.
  - rewrite overwrite_lookup, decide_True by lia. f_equal. lia.
  - symmetry. apply lookup_ge_None_2. lia.
Qed.
