(* ===== verification/FsRefine.v ===== *)
(** * The file server as a table of files (fs/serv.c, fs/fs.c)

    The abstract server keeps the contents of each file as a list and, for each
    open file, an offset.  Rounds of serve() that read, or write within the end of
    a file, implement it. *)
From stdpp Require Import gmap.
From S2P Require Import Prelude Mem StringC Printfmt KState Bc Fs FsView FsSpec FsIO FsServ FsRW.

(** ** Memory outside the disk range *)

Notation untouched := (agree (λ _, False)).

Lemma agree_trans P s s1 s2 : agree P s s1 → agree P s1 s2 → agree P s s2.
Proof.
  intros (H1 & H2 & H3) (H4 & H5 & H6). split_and!; [done| |auto].
  intros a Hin HP. rewrite H5 by done. auto.
Qed.

Lemma agree_weaken P s s' : untouched s s' → agree P s s'.
Proof. intros (H1 & H2 & H3). split_and!; [done| |done]. intros. apply H2; auto. Qed.

Definition outside (va n : Z) : Prop := ∀ a, va ≤ a < va + n → in_map a = false.

Lemma outside_mem s m : fs_ok s → bytes_ok m →
  (∀ a, in_map a = true → ldb m a = ldb (fs_mem s) a) → untouched s (set_fs_mem m s).
Proof.
  intros Hok Hb Hm.
  assert (Hv : ∀ a, in_map a = true → view (set_fs_mem m s) a = view s a).
  { intros a Hin. unfold view, va_is_mapped. cbn. by rewrite Hm. }
  assert (Hn : nblocks (set_fs_mem m s) = nblocks s).
  { unfold nblocks. apply vldn_ext. intros a Ha. apply Hv.
    rewrite (in_map_same a (blk_va 1 + 4)); [done|].
    replace a with (blk_va 1 + 4 + (a - (blk_va 1 + 4))) by lia. apply blk_of_near; [done|lia]. }
  split_and!; [|by intros; apply Hv|done].
  destruct Hok as [H1 H2 H3 H4 H5 H6 H7 [C1 C2 C3 C4]].
  split; rewrite ?Hn; cbn; try done. split; cbn; [done| |done|done].
  intros b off Hbm Hd Ho. rewrite Hm; [auto|]. apply in_map_of_blk. rewrite blk_of_va by done. auto.
Qed.

Lemma load32_out va s : outside va 4 → load32 va s = Ret (ld32 (fs_mem s) va) s.
Proof. intros Ho. unfold load32. by erewrite run_bind by (apply touch_all_out; [lia|done]). Qed.
Lemma load64_out va s : outside va 8 → load64 va s = Ret (ld64 (fs_mem s) va) s.
Proof. intros Ho. unfold load64. by erewrite run_bind by (apply touch_all_out; [lia|done]). Qed.

Lemma mark_dirty_out va n s : 1 ≤ n → outside va n → mark_dirty va n s = set_fs_cache (fs_mapped s) (fs_dirty s) s.
Proof.
  intros Hn Ho. unfold mark_dirty. f_equal. apply set_eq. intros b. rewrite elem_of_union.
  split; [|by right]. intros [Hb|Hb]; [exfalso|done].
  apply elem_of_list_to_set, list_elem_of_In, filter_In in Hb as [Hb Hin].
  apply list_elem_of_In, elem_of_seqZ in Hb.
  assert (Hf : in_map (blk_va b) = false); [|congruence].
  rewrite (in_map_same _ (Z.max va (blk_va b))).
  - apply Ho. unfold blk_va, blk_of, BLKSIZE, PGSIZE, DISKMAP in *. zlia.
  - rewrite blk_of_blk_va. unfold blk_va, blk_of, BLKSIZE, PGSIZE, DISKMAP in *. zlia.
Qed.

Lemma stn_in_map n m va v a : outside va (Z.of_nat n) → in_map a = true →
  ldb (stn n m va v) a = ldb m a.
Proof.
  intros Ho Hin. apply ldb_stn_out. destruct (decide (va ≤ a < va + Z.of_nat n)) as [Ha|]; [|lia].
  by rewrite Ho in Hin.
Qed.

Lemma store32_out va v s : fs_ok s → outside va 4 →
  ∃ s', store32 va v s = Ret tt s' ∧ untouched s s' ∧ fs_mem s' = st32 (fs_mem s) va v.
Proof.
  intros Hok Ho. unfold store32. erewrite run_bind by (apply touch_all_out; [lia|done]).
  eexists. split; [reflexivity|]. rewrite mark_dirty_out by (done || lia). split; [|done].
  change (untouched s (set_fs_mem (st32 (fs_mem s) va v) s)).
  apply outside_mem; [done|apply bytes_ok_stn, Hok|]. intros. by apply (stn_in_map 4).
Qed.

Lemma store64_out va v s : fs_ok s → outside va 8 →
  ∃ s', store64 va v s = Ret tt s' ∧ untouched s s' ∧ fs_mem s' = st64 (fs_mem s) va v.
Proof.
  intros Hok Ho. unfold store64. erewrite run_bind by (apply touch_all_out; [lia|done]).
  eexists. split; [reflexivity|]. rewrite mark_dirty_out by (done || lia). split; [|done].
  change (untouched s (set_fs_mem (st64 (fs_mem s) va v) s)).
  apply outside_mem; [done|apply bytes_ok_stn, Hok|]. intros. by apply (stn_in_map 8).
Qed.

Lemma fsreq_outside off n : 0 ≤ off → off + n ≤ PGSIZE → outside (fsreq + off) n.
Proof.
  intros Ho Hn a Ha. unfold in_map. apply andb_false_iff. left. apply Z.leb_gt.
  unfold fsreq, DISKMAP, PGSIZE in *. lia.
Qed.

Lemma fd_outside i off n : 0 ≤ i → 0 ≤ off → outside (fd_va i + off) n.
Proof.
  intros Hi Ho a Ha. unfold in_map. apply andb_false_iff. right. apply Z.ltb_ge.
  unfold fd_va, FILEVA, DISKMAP, DISKSIZE, PGSIZE in *. lia.
Qed.

(** ** Files on disk *)

(** The files of [A] are on the disk of [s], on blocks of their own. *)
Record repr_fs (s : FsState) (A : gmap Z (list Z)) : Prop := {
  rf_ok : fs_ok s;
  rf_file : ∀ f l, A !! f = Some l → file_at s f ∧ contents s f = l;
  rf_all : ∀ f, f ∈ dom A → allocated s f 0 (fsize s f);
  rf_meta : ∀ f g p, f ∈ dom A → g ∈ dom A → 0 ≤ p < fsize s f →
    ¬ meta_blk s g (fblock s f (p / BLKSIZE));
  rf_own : ∀ f g p q, f ∈ dom A → g ∈ dom A → 0 ≤ p < fsize s f → 0 ≤ q < fsize s g →
    fblock s f (p / BLKSIZE) = fblock s g (q / BLKSIZE) → f = g ∧ p / BLKSIZE = q / BLKSIZE
}.

Lemma rf_at s A f : repr_fs s A → f ∈ dom A → file_at s f.
Proof. intros H [l Hl]%elem_of_dom. by apply (rf_file s A H) in Hl as [? _]. Qed.

(** A change of bytes that are no file's metadata. *)
Section change.
Context (P : Z → Prop) (s s' : FsState) (A A' : gmap Z (list Z)).
Context (Hr : repr_fs s A) (Hag : agree P s s').
Context (HP : ∀ a g, P a → g ∈ dom A → ¬ meta_blk s g (blk_of a)).
Context (Hdom : dom A' = dom A) (HA : ∀ f l, A' !! f = Some l → contents s' f = l).

Lemma change_file f : f ∈ dom A → file_at s' f ∧ fsize s' f = fsize s f.
Proof using Hr Hag HP.
  intros Hf. pose proof (rf_ok s A Hr). pose proof (rf_at s A f Hr Hf).
  split; [eapply agree_file|eapply agree_fsize]; eauto.
Qed.

Lemma change_block f p : f ∈ dom A → 0 ≤ p < fsize s f →
  block_at s' f (p / BLKSIZE) ∧ fblock s' f (p / BLKSIZE) = fblock s f (p / BLKSIZE).
Proof using Hr Hag HP.
  intros Hf Hp. pose proof (rf_ok s A Hr). pose proof (rf_at s A f Hr Hf).
  pose proof (rf_all s A Hr f Hf p Hp).
  split; [eapply agree_block|eapply agree_fblock]; eauto.
Qed.

Lemma change_meta g b : g ∈ dom A → meta_blk s' g b ↔ meta_blk s g b.
Proof using Hr Hag HP.
  intros Hg. pose proof (rf_ok s A Hr). pose proof (rf_at s A g Hr Hg). unfold meta_blk.
  assert (nblocks s' = nblocks s) as -> by (eapply agree_nblocks; eauto).
  assert (fsize s' g = fsize s g) as -> by (eapply agree_fsize; eauto).
  assert (find s' g = find s g) as -> by (eapply agree_find; eauto). done.
Qed.

Lemma repr_change : repr_fs s' A'.
Proof using Hr Hag HP Hdom HA.
  split; rewrite ?Hdom.
  - apply Hag.
  - intros f l Hl. assert (f ∈ dom A) by (rewrite <- Hdom; by apply elem_of_dom).
    split; [by apply change_file|auto].
  - intros f Hf p. destruct (change_file f Hf) as [_ ->]. intros. by apply change_block.
  - intros f g p Hf Hg. destruct (change_file f Hf) as [_ ->]. intros Hp.
    destruct (change_block f p Hf Hp) as [_ ->]. rewrite change_meta by done.
    by apply (rf_meta s A Hr).
  - intros f g p q Hf Hg. destruct (change_file f Hf) as [_ ->].
    destruct (change_file g Hg) as [_ ->]. intros Hp Hq.
    destruct (change_block f p Hf Hp) as [_ ->]. destruct (change_block g q Hg Hq) as [_ ->].
    by apply (rf_own s A Hr).
Qed.

Lemma change_byte f p : f ∈ dom A → 0 ≤ p < fsize s f → ¬ P (faddr s f p) →
  fbyte s' f p = fbyte s f p.
Proof using Hr Hag HP.
  intros Hf Hp Hn. unfold fbyte. destruct (change_block f p Hf Hp) as [_ ->].
  destruct Hag as (_ & Hv & _). apply Hv; [|done].
  apply (faddr_in_map s f p); [apply Hr|]. by apply (rf_all s A Hr f Hf).
Qed.

Lemma change_contents f : f ∈ dom A → (∀ p, 0 ≤ p < fsize s f → ¬ P (faddr s f p)) →
  contents s' f = contents s f.
Proof using Hr Hag HP.
  intros Hf Hn. unfold contents. destruct (change_file f Hf) as [_ ->].
  apply list_fmap_ext. intros i p Hp%lookup_seqZ. apply change_byte; [done|lia|]. apply Hn. lia.
Qed.
End change.

Lemma repr_untouched s s' A : repr_fs s A → untouched s s' → repr_fs s' A.
Proof.
  intros Hr Hag. apply (repr_change (λ _, False) s s' A A); try done.
  intros f l Hl. assert (f ∈ dom A) by (apply elem_of_dom; by exists l).
  rewrite (change_contents (λ _, False) s s' A Hr Hag); [by apply (rf_file s A Hr)|by intros ?? []|done|by intros ?? []].
Qed.

Lemma repr_size s A f l : repr_fs s A → A !! f = Some l →
  f ∈ dom A ∧ file_at s f ∧ contents s f = l ∧ fsize s f = Z.of_nat (length l).
Proof.
  intros Hr Hl. destruct (rf_file s A Hr f l Hl) as [Hf Hc].
  split_and!; [apply elem_of_dom; by exists l|done|done|].
  rewrite <- Hc. symmetry. apply contents_length, Hf.
Qed.

Lemma repr_separate s A f lo hi : repr_fs s A → f ∈ dom A → 0 ≤ lo → hi ≤ fsize s f →
  separate s f lo hi.
Proof.
  intros Hr Hf Hlo Hhi. split.
  - intros p Hp. apply (rf_meta s A Hr); [done|done|lia].
  - intros p q Hp Hq He. by apply (rf_own s A Hr f f p q Hf Hf ltac:(lia) ltac:(lia)) in He as [_ ?].
Qed.

(** file_read on a file of the table. *)
Lemma file_read_repr s A f l buf count off :
  repr_fs s A → A !! f = Some l → 0 ≤ off → 0 ≤ count →
  let out := slice l off (Z.min count (Z.max 0 (Z.of_nat (length l) - off))) in
  buf_ok buf (Z.of_nat (length out)) →
  ∃ s', file_read f buf count off s = Ret (Z.of_nat (length out)) s' ∧ untouched s s' ∧
    mem_bytes s' buf (Z.of_nat (length out)) = out ∧
    ∀ a, in_map a = false → a < buf ∨ buf + Z.of_nat (length out) ≤ a →
      ldb (fs_mem s') a = ldb (fs_mem s) a.
Proof.
  intros Hr Hl Ho Hc out. destruct (repr_size s A f l Hr Hl) as (Hd & Hf & Hcon & Hsz).
  set (n := Z.min count (Z.max 0 (Z.of_nat (length l) - off))) in *.
  assert (Hlen : Z.of_nat (length out) = n).
  { unfold out. destruct (decide (n = 0)) as [->|].
    - unfold slice. by rewrite take_0.
    - apply slice_length; unfold n in *; lia. }
  rewrite Hlen. intros Hbuf.
  destruct (file_read_ok s f buf count off) as (s' & Hs' & Hag & Hm);
    [apply Hr|done|done|done|by rewrite Hsz| |].
  { intros p Hp. apply (rf_all s A Hr f Hd). rewrite Hsz in Hp |- *. lia. }
  rewrite Hsz in Hs', Hm. fold n in Hs', Hm. exists s'. split_and!; [done|done| |].
  - apply list_eq. intros i. destruct (decide (Z.of_nat i < n)) as [Hi|Hi].
    + rewrite mem_bytes_lookup by done. unfold out. rewrite slice_lookup, decide_True by lia.
      rewrite <- Hcon, contents_lookup by (unfold n in *; lia). f_equal.
      rewrite Hm by (apply Hbuf; lia). rewrite decide_True by lia. f_equal. lia.
    + rewrite !lookup_ge_None_2; [done|lia|].
      pose proof (mem_bytes_length s' buf n ltac:(unfold n; lia)). lia.
  - intros a Hin Ha. rewrite Hm by done. rewrite decide_False by lia. done.
Qed.

(** file_write within a file of the table. *)
Lemma file_write_repr s A f l buf count off :
  repr_fs s A → A !! f = Some l → 0 ≤ off → 0 ≤ count → off + count ≤ Z.of_nat (length l) →
  buf_ok buf count →
  ∃ s', file_write f buf count off s = Ret count s' ∧
    repr_fs s' (<[f := overwrite l off (mem_bytes s buf count)]> A) ∧
    ∀ a, in_map a = false → ldb (fs_mem s') a = ldb (fs_mem s) a.
Proof.
  intros Hr Hl Ho Hc Hle Hbuf. destruct (repr_size s A f l Hr Hl) as (Hd & Hf & Hcon & Hsz).
  pose proof (repr_separate s A f off (off + count) Hr Hd Ho ltac:(lia)) as Hsep.
  destruct (file_write_ok s f buf count off) as (s' & Hs' & Hag & Hdata & Hm);
    [apply Hr|done|done|done|lia|done| |done|].
  { intros p Hp. apply (rf_all s A Hr f Hd). lia. }
  exists s'. split_and!; [done| |done].
  assert (HP : ∀ a g, data_at s f off (off + count) a → g ∈ dom A → ¬ meta_blk s g (blk_of a)).
  { intros a g (p & Hp & ->) Hg. rewrite faddr_blk. apply (rf_meta s A Hr); [done|done|lia]. }
  apply (repr_change _ s s' A _ Hr Hag HP); [by apply dom_insert_lookup_L|].
  intros g lg Hlg. destruct (decide (g = f)) as [->|Hne].
  - rewrite lookup_insert_eq in Hlg. injection Hlg as <-. apply list_eq. intros i.
    destruct (change_file _ s s' A Hr Hag HP f Hd) as [_ Hsz'].
    pose proof (mem_bytes_length s buf count Hc) as Hml.
    destruct (decide (Z.of_nat i < fsize s f)) as [Hi|Hi].
    + rewrite contents_lookup by lia. rewrite overwrite_lookup by lia. rewrite Hml. case_decide as Hr2.
      * rewrite mem_bytes_lookup by lia. f_equal.
        destruct (change_block _ s s' A Hr Hag HP f (Z.of_nat i) Hd ltac:(lia)) as [_ Hfb].
        unfold fbyte. rewrite Hfb. fold (faddr s f (Z.of_nat i)). rewrite Hdata by lia. f_equal. lia.
      * rewrite <- Hcon, contents_lookup by done. f_equal.
        apply (change_byte _ s s' A Hr Hag HP f); [done|lia|]. intros (p & Hp & He).
        apply (faddr_inj s f 0 (fsize s f)) in He; [lia| |lia|lia].
        by apply (repr_separate s A f 0 (fsize s f) Hr Hd).
    + rewrite !lookup_ge_None_2; [done| |].
      * rewrite overwrite_length; lia.
      * pose proof (contents_length s' f ltac:(lia)). lia.
  - rewrite lookup_insert_ne in Hlg by done. assert (Hg : g ∈ dom A) by (apply elem_of_dom; by exists lg).
    rewrite (change_contents _ s s' A Hr Hag HP g Hg); [by apply (rf_file s A Hr)|].
    intros q Hq (p & Hp & He). apply Hne.
    destruct (rf_own s A Hr g f q p Hg Hd Hq ltac:(lia)) as [-> _]; [|done].
    by rewrite <- !faddr_blk, He.
Qed.

(** ** The abstract server *)

Record AServ : Type := mkAServ
  { a_files : gmap Z (list Z);        (* by address of the struct File *)
    a_open : gmap Z (Z * Z) }.        (* file id: the file and the offset *)

Inductive request : Type :=
  | RRead (id n : Z)                  (* FSREQ_READ of at most n bytes *)
  | RWrite (id : Z) (data : list Z).  (* FSREQ_WRITE *)

(** The room for data in a request that fits its page. *)
Definition WRITE_MAX : Z := PGSIZE - 16.

Definition is_byte (b : Z) : bool := (0 <=? b) && (b <? 256).

(** The reply and the next state; [None] outside the specification. *)
Definition spec_step (r : request) (a : AServ) : option (Z * list Z * AServ) :=
  match r with
  | RRead id n =>
      '(f, off) ← a_open a !! id;
      l ← a_files a !! f;
      if (0 <=? n) && (n <? 2 ^ 64) then
        let out := slice l off (Z.min (Z.min n PGSIZE) (Z.max 0 (Z.of_nat (length l) - off))) in
        Some (Z.of_nat (length out), out,
              mkAServ (a_files a) (<[id := (f, off + Z.of_nat (length out))]> (a_open a)))
      else None
  | RWrite id data =>
      '(f, off) ← a_open a !! id;
      l ← a_files a !! f;
      let n := Z.of_nat (length data) in
      if (off + n <=? Z.of_nat (length l)) && (n <=? WRITE_MAX) && forallb is_byte data then
        Some (n, [], mkAServ (<[f := overwrite l off data]> (a_files a))
                             (<[id := (f, off + n)]> (a_open a)))
      else None
  end.

Fixpoint spec_run (l : list request) (a : AServ) : option (list (Z * list Z) * AServ) :=
  match l with
  | [] => Some ([], a)
  | r :: l' =>
      '(n, out, a') ← spec_step r a;
      '(outs, a'') ← spec_run l' a';
      Some ((n, out) :: outs, a'')
  end.

(** ** Rounds of serve() *)

(** The client's request page, as the server receives it at [fsreq]. *)
Definition place (r : request) (m : mem) : mem :=
  match r with
  | RRead id n => st64 (st32 m (req_fileid fsreq) id) (req_n fsreq) n
  | RWrite id data =>
      store_bytes (st64 (st32 m (req_fileid fsreq) id) (req_n fsreq) (Z.of_nat (length data)))
        (req_buf fsreq) data
  end.
Definition req_code (r : request) : Z := match r with RRead _ _ => 3 | RWrite _ _ => 4 end.

(** One request: the result sent back, and for a read the bytes in the page. *)
Definition round (whom : Z) (r : request) : V (Z * list Z) :=
  fs (modify (λ s, set_fs_mem (place r (fs_mem s)) s));;
  rep ← serve (req_code r) whom PTE_P;
  let n := default 0 (fst ∘ fst <$> rep) in
  out ← gets (λ s, match r with RRead _ _ => mem_bytes (sv_fs s) (ret_buf fsreq) n | _ => [] end);
  mret (n, out).

Fixpoint rounds (whom : Z) (l : list request) : V (list (Z * list Z)) :=
  match l with
  | [] => mret []
  | r :: l' => x ← round whom r; xs ← rounds whom l'; mret (x :: xs)
  end.

(** ** The refinement *)

Definition offset_of (s : ServState) (id : Z) : Z :=
  ld32 (fs_mem (sv_fs s)) (fd_offset (fd_va (id mod MAXOPEN))).

Record repr (s : ServState) (a : AServ) : Prop := {
  r_files : repr_fs (sv_fs s) (a_files a);
  r_table : table_ok s;
  r_open : ∀ id f off, a_open a !! id = Some (f, off) →
    let o := opentab_at (id mod MAXOPEN) s in
    0 ≤ id < 2 ^ 32 ∧ o_fileid o = id ∧ o_file o = f ∧ refs s (id mod MAXOPEN) ≠ 1 ∧
    f ∈ dom (a_files a) ∧ offset_of s id = off ∧ 0 ≤ off < 2 ^ 31
}.

Lemma slot_range id : 0 ≤ id mod MAXOPEN < MAXOPEN.
Proof. unfold MAXOPEN. zlia. Qed.

Lemma repr_lookup s a env id f off : repr s a → a_open a !! id = Some (f, off) →
  openfile_lookup env id s = Ret (0, id mod MAXOPEN) s.
Proof.
  intros Hr Ho. destruct (r_open s a Hr id f off Ho) as (Hid & He & _ & Href & _).
  unfold openfile_lookup, mbind, M_bind, get. rewrite u32_id by (pow2; lia).
  unfold refs in Href. rewrite (proj2 (Z.eqb_neq _ 1)) by done. by rewrite He, Z.eqb_refl.
Qed.

Lemma repr_entry s a id f off : repr s a → a_open a !! id = Some (f, off) →
  opentab_at (id mod MAXOPEN) s =
    mkOpen id f (o_mode (opentab_at (id mod MAXOPEN) s)) (fd_va (id mod MAXOPEN)).
Proof.
  intros Hr Ho. destruct (r_open s a Hr id f off Ho) as (_ & He & Hf & _).
  pose proof (to_fd s (r_table s a Hr) _ (slot_range id)) as Hfd.
  destruct (opentab_at _ s). cbn in *. by subst.
Qed.

(** Run [fs m]. *)
Lemma fs_bind {A B} (m : F A) (k : A → V B) s x t :
  m (sv_fs s) = Ret x t → (fs m ≫= k) s = k x (set_sv_fs t s).
Proof. unfold mbind, M_bind, fs. by intros ->. Qed.
Lemma fs_run {A B} (m : F A) (k : A → V B) s t x t' :
  m t = Ret x t' → (fs m ≫= k) (set_sv_fs t s) = k x (set_sv_fs t' s).
Proof. intros H. by erewrite fs_bind by exact H. Qed.
Lemma v_bind {A B} (m : V A) (k : A → V B) s x s' : m s = Ret x s' → (m ≫= k) s = k x s'.
Proof. unfold mbind, M_bind. by intros ->. Qed.
Lemma v_gets {A B} (f : ServState → A) (k : A → V B) s : (gets f ≫= k) s = k (f s) s.
Proof. done. Qed.

(** The offset of one open file moves; the table does not. *)
Definition advance (a : AServ) (A : gmap Z (list Z)) (id f off : Z) : AServ :=
  mkAServ A (<[id := (f, off)]> (a_open a)).

Lemma repr_advance s a t A id f off :
  repr s a → f ∈ dom A → a_open a !! id = Some (f, off) → dom A = dom (a_files a) →
  repr_fs t A → ∀ off', 0 ≤ off' < 2 ^ 31 →
  ld32 (fs_mem t) (fd_offset (fd_va (id mod MAXOPEN))) = off' →
  (∀ i x, 0 ≤ i < MAXOPEN → i ≠ id mod MAXOPEN → fd_va i ≤ x < fd_va i + PGSIZE →
     ldb (fs_mem t) x = ldb (fs_mem (sv_fs s)) x) →
  repr (set_sv_fs t s) (advance a A id f off').
Proof.
  intros [Hr1 Hr2 Hr3] HfA Ho Hdom Ht off' Hoff Hld Hfd. split; [done|by destruct Hr2; split|].
  intros id' f' off2. cbn [advance a_open a_files]. rewrite Hdom. intros Hl.
  destruct (decide (id' = id)) as [->|Hne].
  - rewrite lookup_insert_eq in Hl. injection Hl as <- <-.
    destruct (Hr3 id f off Ho) as (H1 & H2 & H3 & H4 & H5 & _). split_and!; try done; lia.
  - rewrite lookup_insert_ne in Hl by done. destruct (Hr3 id' f' off2 Hl) as (H1 & H2 & H3 & H4 & H5 & H6 & H7).
    split_and!; try done; try lia. rewrite <- H6. unfold offset_of. cbn [set_sv_fs sv_fs].
    rewrite <- !vldn_ldn. apply vldn_ext. intros x Hx. apply (Hfd (id' mod MAXOPEN)); [apply slot_range| |].
    + intros He. destruct (Hr3 id f off Ho) as (_ & H2' & _). cbv zeta in H2, H2'. congruence.
    + unfold fd_offset, PGSIZE in *. lia.
Qed.

Lemma table_ok_fs t s : table_ok s → table_ok (set_sv_fs t s).
Proof. intros [H1 H2 H3]. by split. Qed.

Lemma repr_quiet s a t : repr s a → untouched (sv_fs s) t →
  (∀ x, FILEVA ≤ x → ldb (fs_mem t) x = ldb (fs_mem (sv_fs s)) x) → repr (set_sv_fs t s) a.
Proof.
  intros [Hr1 Hr2 Hr3] Hag Hm. split; [by apply (repr_untouched (sv_fs s))|by apply table_ok_fs|].
  intros id f off Hl. destruct (Hr3 id f off Hl) as (H1 & H2 & H3 & H4 & H5 & H6 & H7).
  cbv zeta. split_and!; try done; try lia. rewrite <- H6. unfold offset_of.
  rewrite <- !vldn_ldn. apply vldn_ext. intros x Hx. apply Hm.
  pose proof (slot_range id). unfold fd_offset, fd_va, PGSIZE in Hx. lia.
Qed.

Definition in_page (x : Z) : Prop := fsreq ≤ x < fsreq + PGSIZE.

Lemma in_page_out x : in_page x → in_map x = false.
Proof.
  intros Hx. apply (fsreq_outside 0 PGSIZE); [lia|lia|]. unfold in_page in Hx. lia.
Qed.

Lemma bytes_ok_place r m : bytes_ok m → bytes_ok (place r m).
Proof.
  intros Hm. destruct r; cbn [place].
  - by repeat apply bytes_ok_stn.
  - by apply bytes_ok_store_bytes; repeat apply bytes_ok_stn.
Qed.

Definition req_id (r : request) : Z := match r with RRead id _ => id | RWrite id _ => id end.
Definition req_len (r : request) : Z :=
  match r with RRead _ n => n | RWrite _ data => Z.of_nat (length data) end.
(** A request that fits its page. *)
Definition req_fits (r : request) : Prop :=
  0 ≤ req_id r < 2 ^ 32 ∧ 0 ≤ req_len r < 2 ^ 64 ∧
  match r with
  | RRead _ _ => True
  | RWrite _ data => req_len r ≤ WRITE_MAX ∧ Forall (λ b, 0 ≤ b < 256) data
  end.

Lemma place_out r m x : req_fits r → ¬ in_page x → ldb (place r m) x = ldb m x.
Proof.
  intros (_ & _ & Hf) Hx. unfold in_page, fsreq, PGSIZE in Hx.
  assert (Hst : ∀ id n, ldb (st64 (st32 m (req_fileid fsreq) id) (req_n fsreq) n) x = ldb m x).
  { intros. rewrite !ldb_stn_out; [done|..]; unfold req_fileid, req_n, fsreq; lia. }
  destruct r as [id n|id data]; cbn [place]; [apply Hst|]. rewrite ldb_store_bytes_out; [apply Hst|].
  cbn [req_len] in Hf. unfold req_buf, fsreq, WRITE_MAX, PGSIZE in *. lia.
Qed.

Lemma place_fields r m : req_fits r →
  ld32 (place r m) (req_fileid fsreq) = req_id r ∧ ld64 (place r m) (req_n fsreq) = req_len r.
Proof.
  intros (Hid & Hn & Hf).
  assert (Hs : ∀ id n, 0 ≤ id < 2 ^ 32 → 0 ≤ n < 2 ^ 64 →
    let m' := st64 (st32 m (req_fileid fsreq) id) (req_n fsreq) n in
    ld32 m' (req_fileid fsreq) = id ∧ ld64 m' (req_n fsreq) = n).
  { intros id n Hi Hn'. cbv zeta. rewrite ldn_stn_ne, ld32_st32_eq, ld64_st64_eq
      by (unfold req_fileid, req_n, fsreq; lia).
    split; [apply u32_id|apply u64_id]; pow2; lia. }
  destruct r as [id n|id data]; cbn [place req_id req_len] in *; [by apply Hs|].
  destruct (Hs id (Z.of_nat (length data)) Hid Hn) as [H1 H2].
  split; [etransitivity; [|exact H1]|etransitivity; [|exact H2]]; apply ldn_ext; intros x Hx; apply ldb_store_bytes_out; left;
    unfold req_fileid, req_n, req_buf, fsreq in *; lia.
Qed.

Lemma place_data id data s : req_fits (RWrite id data) →
  mem_bytes (set_fs_mem (place (RWrite id data) (fs_mem s)) s) (req_buf fsreq)
    (Z.of_nat (length data)) = data.
Proof.
  intros (_ & _ & _ & Hb). apply list_eq. intros i. destruct (decide (i < length data)%nat) as [Hi|Hi].
  - rewrite mem_bytes_lookup by lia. cbn [set_fs_mem fs_mem place].
    pose proof (lookup_load_bytes (store_bytes (st64 (st32 (fs_mem s) (req_fileid fsreq) id)
      (req_n fsreq) (Z.of_nat (length data))) (req_buf fsreq) data) (req_buf fsreq)
      (length data) i Hi) as Hl.
    by rewrite load_store_bytes in Hl by done.
  - rewrite !lookup_ge_None_2; [done|lia|].
    pose proof (mem_bytes_length (set_fs_mem (place (RWrite id data) (fs_mem s)) s) (req_buf fsreq)
      (Z.of_nat (length data)) ltac:(lia)). lia.
Qed.

(** The server with the request in its page. *)
Lemma repr_place s a r : repr s a → req_fits r →
  repr (set_sv_fs (set_fs_mem (place r (fs_mem (sv_fs s))) (sv_fs s)) s) a.
Proof.
  intros Hr Hf. pose proof (rf_ok _ _ (r_files s a Hr)) as Hok. apply repr_quiet; [done|..].
  - apply outside_mem; [done|apply bytes_ok_place, Hok|]. intros x Hin. apply place_out; [done|].
    intros Hp%in_page_out. congruence.
  - intros x Hx. apply place_out; [done|]. unfold in_page, fsreq, FILEVA, PGSIZE in *. lia.
Qed.

(** ** One request *)

Lemma set_sv_fs_id s : set_sv_fs (sv_fs s) s = s.
Proof. by destruct s. Qed.

(** fd_offset is in the memory of [t] as in that of [s]. *)
Lemma fd_word s t i : (∀ x, FILEVA ≤ x → ldb (fs_mem t) x = ldb (fs_mem s) x) → 0 ≤ i →
  ld32 (fs_mem t) (fd_offset (fd_va i)) = ld32 (fs_mem s) (fd_offset (fd_va i)).
Proof.
  intros Hm Hi. apply ldn_ext. intros x Hx. apply Hm. unfold fd_offset, fd_va, PGSIZE in Hx. lia.
Qed.

Lemma load_fd_offset t i : 0 ≤ i → 0 ≤ ld32 (fs_mem t) (fd_offset (fd_va i)) < 2 ^ 31 →
  load_off_t (fd_offset (fd_va i)) t = Ret (ld32 (fs_mem t) (fd_offset (fd_va i))) t.
Proof.
  intros Hi Hr. unfold load_off_t. erewrite run_bind by (apply load32_out; by apply fd_outside).
  rewrite i32_id; [done|]. change (2 ^ 31) with 2147483648 in Hr. lia.
Qed.

Lemma clamp_req_n n t : fs_ok t → ld64 (fs_mem t) (req_n fsreq) = n →
  ∃ t', when (PGSIZE <? n) (store64 (req_n fsreq) PGSIZE) t = Ret tt t' ∧ untouched t t' ∧
    (∀ x, ¬ in_page x → ldb (fs_mem t') x = ldb (fs_mem t) x) ∧
    ld64 (fs_mem t') (req_n fsreq) = Z.min n PGSIZE.
Proof.
  intros Hok Hn. destruct (Z.ltb_spec PGSIZE n) as [Hlt|Hge]; cbn [when].
  - destruct (store64_out (req_n fsreq) PGSIZE t Hok) as (t' & Ht' & Hag & Hm);
      [apply fsreq_outside; unfold PGSIZE; lia|].
    exists t'. split_and!; [done|apply Hag..| |].
    + intros x Hx. rewrite Hm. apply ldb_stn_out. unfold in_page, req_n, fsreq, PGSIZE in *. lia.
    + rewrite Hm, ld64_st64_eq, Z.min_r by lia. done.
  - exists t. split_and!; try done. by rewrite Z.min_l.
Qed.

(** Of the pages of struct Fd, a request changes the offset of its own file. *)
Definition fds_kept (s s' : ServState) (id : Z) : Prop :=
  pageref s' = pageref s ∧ ∀ x, FILEVA ≤ x →
    x < fd_offset (fd_va (id mod MAXOPEN)) ∨ fd_offset (fd_va (id mod MAXOPEN)) + 4 ≤ x →
    ldb (fs_mem (sv_fs s')) x = ldb (fs_mem (sv_fs s)) x.

(** The store of the new offset, which ends a request. *)
Lemma advance_run s a t A id f off n {B} (k : unit → V B) :
  repr s a → a_open a !! id = Some (f, off) → dom A = dom (a_files a) → repr_fs t A →
  (∀ x, FILEVA ≤ x → ldb (fs_mem t) x = ldb (fs_mem (sv_fs s)) x) → 0 ≤ n → off + n < 2 ^ 31 →
  let fdo := fd_offset (fd_va (id mod MAXOPEN)) in
  ∃ t', (off' ← fs (load32 fdo); fs (store32 fdo (off' + n)) ≫= k) (set_sv_fs t s)
      = k tt (set_sv_fs t' s) ∧ repr (set_sv_fs t' s) (advance a A id f (off + n)) ∧
    fds_kept s (set_sv_fs t' s) id ∧
    ∀ x, x < FILEVA → ldb (fs_mem t') x = ldb (fs_mem t) x.
Proof.
  intros Hr Ho Hdom Ht Hm Hn Hlt fdo. pose proof (slot_range id) as Hi.
  destruct (r_open s a Hr id f off Ho) as (_ & _ & _ & _ & Hf & Hoff & Hoffr). unfold offset_of in Hoff.
  assert (Hout : outside fdo 4) by (apply fd_outside; lia).
  assert (Hw : ld32 (fs_mem t) fdo = off)
    by (unfold fdo; by rewrite (fd_word (sv_fs s) t) by (done || lia)).
  erewrite fs_bind by (cbn [set_sv_fs sv_fs]; by apply load32_out). rewrite Hw.
  destruct (store32_out fdo (off + n) t (rf_ok t A Ht) Hout) as (t' & Ht' & Hag & Hmem).
  exists t'. erewrite fs_bind by exact Ht'. split_and!; [done| |split; [done|]|].
  - apply (repr_advance s a t' A id f off Hr); [by rewrite Hdom|done|done| |lia| |].
    + by apply (repr_untouched t).
    + fold fdo. rewrite Hmem, ld32_st32_eq, u32_id by (change (2 ^ 31) with 2147483648 in Hlt; lia). done.
    + intros i x Hi2 Hne Hx. rewrite Hmem, ldb_stn_out.
      * apply Hm. unfold fd_va, PGSIZE in *. lia.
      * unfold fdo, fd_offset, fd_va, PGSIZE in *. lia.
  - intros x Hx Hfd. cbn [sv_fs set_sv_fs]. rewrite Hmem, ldb_stn_out by (fold fdo in Hfd; lia). by apply Hm.
  - intros x Hx. rewrite Hmem. apply ldb_stn_out. left. unfold fdo, fd_offset, fd_va, PGSIZE in *. lia.
Qed.

Lemma file_nonzero s A f : repr_fs s A → f ∈ dom A → (f =? 0) = false.
Proof.
  intros Hr Hf. apply Z.eqb_neq. intros ->. pose proof (fa_map s 0 (rf_at s A 0 Hr Hf)). done.
Qed.

Lemma fd_nonzero id : (fd_va (id mod MAXOPEN) =? 0) = false.
Proof. apply Z.eqb_neq. pose proof (slot_range id). unfold fd_va, FILEVA, PGSIZE. lia. Qed.

Lemma page_buf off n : 0 ≤ off → 0 ≤ n → off + n ≤ PGSIZE → buf_ok (fsreq + off) n.
Proof.
  intros. split; [unfold fsreq, PGSIZE in *; pow2; lia|]. by apply fsreq_outside.
Qed.

Lemma len_lt l n off : Z.of_nat (length l) < 2 ^ 31 → 0 ≤ off < 2 ^ 31 → 0 ≤ n →
  off + Z.of_nat (length (slice l off (Z.min n (Z.max 0 (Z.of_nat (length l) - off))))) < 2 ^ 31.
Proof. intros. unfold slice. rewrite length_take, length_drop. lia. Qed.

(** What read and write do first: find the open file. *)
Lemma find_open s a whom id f off (k : OpenFile → V Z) :
  repr s a → a_open a !! id = Some (f, off) →
  ld32 (fs_mem (sv_fs s)) (req_fileid fsreq) = id →
  (id ← fs (load32 (req_fileid fsreq));
   r ← openfile_lookup whom id;
   if fst r <? 0 then mret (fst r)
   else
     o ← gets (opentab_at (snd r));
     if (o_file o =? 0) || (o_fd o =? 0) then mret (-1) else k o) s =
  k (mkOpen id f (o_mode (opentab_at (id mod MAXOPEN) s)) (fd_va (id mod MAXOPEN))) s.
Proof.
  intros Hr Ho Hid. destruct (r_open s a Hr id f off Ho) as (_ & _ & _ & _ & Hf & _).
  erewrite fs_bind by (apply load32_out, (fsreq_outside 0); unfold PGSIZE; lia).
  rewrite set_sv_fs_id, Hid. erewrite v_bind by (by apply (repr_lookup s a _ id f off)).
  cbn [fst snd]. change (0 <? 0) with false. cbn match. rewrite v_gets, (repr_entry s a id f off) by done.
  cbn [o_file o_fd]. by rewrite (file_nonzero _ _ f (r_files s a Hr) Hf), fd_nonzero.
Qed.

(** The contents that a file id stands for. *)
Record at_file (s : ServState) (a : AServ) (id f off : Z) (l : list Z) : Prop := {
  af_off : ld32 (fs_mem (sv_fs s)) (fd_offset (fd_va (id mod MAXOPEN))) = off;
  af_offr : 0 ≤ off < 2 ^ 31;
  af_len : Z.of_nat (length l) < 2 ^ 31;
  af_slot : 0 ≤ id mod MAXOPEN
}.

Lemma repr_at s a id f off l : repr s a → a_open a !! id = Some (f, off) →
  a_files a !! f = Some l → at_file s a id f off l.
Proof.
  intros Hr Ho Hl. destruct (r_open s a Hr id f off Ho) as (_ & _ & _ & _ & Hf & Hoff & Hoffr).
  destruct (repr_size _ _ f l (r_files s a Hr) Hl) as (_ & _ & _ & Hsz).
  split; [done|done|rewrite <- Hsz; apply fsize_lt|apply slot_range].
Qed.

Lemma same_above_page t t' : (∀ x, ¬ in_page x → ldb (fs_mem t') x = ldb (fs_mem t) x) →
  ∀ x, FILEVA ≤ x → ldb (fs_mem t') x = ldb (fs_mem t) x.
Proof. intros H x Hx. apply H. unfold in_page, fsreq, FILEVA, PGSIZE in *. lia. Qed.

(** The read proper: from the clamped request to the reply. *)
Lemma serve_read_body s a t id f off l n :
  repr s a → a_open a !! id = Some (f, off) → a_files a !! f = Some l →
  untouched (sv_fs s) t → (∀ x, FILEVA ≤ x → ldb (fs_mem t) x = ldb (fs_mem (sv_fs s)) x) →
  0 ≤ n ≤ PGSIZE →
  let out := slice l off (Z.min n (Z.max 0 (Z.of_nat (length l) - off))) in
  let fdo := fd_offset (fd_va (id mod MAXOPEN)) in
  ∃ s', (off ← fs (load_off_t fdo);
     r ← fs (file_read f (ret_buf fsreq) n off);
     if r <=? 0 then mret r
     else off ← fs (load32 fdo); fs (store32 fdo (off + r));; mret r) (set_sv_fs t s)
    = Ret (Z.of_nat (length out)) s' ∧
    repr s' (advance a (a_files a) id f (off + Z.of_nat (length out))) ∧ fds_kept s s' id ∧
    mem_bytes (sv_fs s') (ret_buf fsreq) (Z.of_nat (length out)) = out.
Proof.
  intros Hr Ho Hl Hag1 Hfd1 Hn out fdo. destruct (repr_at s a id f off l Hr Ho Hl) as [Hoff Hoffr Hlt Hi].
  assert (Hw1 : ld32 (fs_mem t) fdo = off) by (unfold fdo; by rewrite (fd_word (sv_fs s) t) by done).
  erewrite fs_run by (apply load_fd_offset; [lia|by fold fdo; rewrite Hw1]). fold fdo. rewrite Hw1.
  pose proof (repr_untouched _ t _ (r_files s a Hr) Hag1) as Hfs1.
  pose proof (len_lt l n off Hlt Hoffr ltac:(lia)) as Hlen. fold out in Hlen.
  assert (Hlp : Z.of_nat (length out) ≤ PGSIZE) by (unfold out, slice; rewrite length_take; lia).
  destruct (file_read_repr t _ f l (ret_buf fsreq) n off Hfs1 Hl)
    as (t2 & Ht2 & Hag2 & Hout2 & Hm2); [lia|lia|fold out; apply (page_buf 0); lia|].
  fold out in Ht2, Hout2, Hm2. erewrite fs_run by exact Ht2.
  assert (Hfd2 : ∀ x, FILEVA ≤ x → ldb (fs_mem t2) x = ldb (fs_mem (sv_fs s)) x).
  { intros x Hx. rewrite <- Hfd1 by done. apply Hm2.
    - apply (fd_outside 0 (x - FILEVA) 1); unfold fd_va; lia.
    - right. unfold ret_buf, fsreq, FILEVA, PGSIZE in *. lia. }
  pose proof (repr_untouched _ t2 _ Hfs1 Hag2) as Hfs2.
  destruct (r_open s a Hr id f off Ho) as (_ & _ & _ & _ & Hf & _).
  destruct (Z.leb_spec (Z.of_nat (length out)) 0) as [Hz|Hpos].
  - exists (set_sv_fs t2 s). split_and!; [done| |by split; auto|done].
    apply (repr_advance s a t2 (a_files a) id f off); try done; [lia| |].
    + rewrite (fd_word (sv_fs s) t2), Hoff by done. lia.
    + intros i x Hi2 _ Hx. apply Hfd2. unfold fd_va, PGSIZE in Hx. lia.
  - destruct (advance_run s a t2 (a_files a) id f off (Z.of_nat (length out))
      (λ _, mret (Z.of_nat (length out))) Hr Ho eq_refl Hfs2 Hfd2) as (t3 & Ht3 & Hr3 & Hk3 & Hm3); [lia..|].
    exists (set_sv_fs t3 s). split_and!; [exact Ht3|exact Hr3|apply Hk3..|]. etransitivity; [|exact Hout2].
    apply list_fmap_ext. intros i x Hx%lookup_seqZ. apply Hm3.
    unfold ret_buf, fsreq, FILEVA, PGSIZE in *. lia.
Qed.

Lemma serve_read_ok s a whom id f off l :
  repr s a → a_open a !! id = Some (f, off) → a_files a !! f = Some l →
  ld32 (fs_mem (sv_fs s)) (req_fileid fsreq) = id →
  let n := ld64 (fs_mem (sv_fs s)) (req_n fsreq) in
  let out := slice l off (Z.min (Z.min n PGSIZE) (Z.max 0 (Z.of_nat (length l) - off))) in
  ∃ s', serve_read whom fsreq s = Ret (Z.of_nat (length out)) s' ∧
    repr s' (advance a (a_files a) id f (off + Z.of_nat (length out))) ∧ fds_kept s s' id ∧
    mem_bytes (sv_fs s') (ret_buf fsreq) (Z.of_nat (length out)) = out.
Proof.
  intros Hr Ho Hl Hid n out. pose proof (rf_ok _ _ (r_files s a Hr)) as Hok.
  assert (Hn0 : 0 ≤ n) by (pose proof (ldn_range 8 _ (req_n fsreq) (co_mem _ (fo_coh _ Hok))); lia).
  unfold serve_read. rewrite (find_open s a whom id f off) by done. cbn [o_file o_fd].
  erewrite fs_bind by (apply load64_out, (fsreq_outside 8); unfold PGSIZE; lia).
  rewrite set_sv_fs_id. fold n.
  destruct (clamp_req_n n (sv_fs s) Hok eq_refl) as (t1 & Ht1 & Hag1 & Hm1 & Hn1).
  erewrite fs_bind by exact Ht1.
  erewrite fs_run by (apply load64_out, (fsreq_outside 8); unfold PGSIZE; lia). rewrite Hn1.
  apply serve_read_body; try done; [by apply same_above_page|unfold PGSIZE; lia].
Qed.

Lemma serve_write_ok s a whom id f off l :
  repr s a → a_open a !! id = Some (f, off) → a_files a !! f = Some l →
  ld32 (fs_mem (sv_fs s)) (req_fileid fsreq) = id →
  let n := ld64 (fs_mem (sv_fs s)) (req_n fsreq) in
  off + n ≤ Z.of_nat (length l) → n ≤ WRITE_MAX →
  ∃ s', serve_write whom fsreq s = Ret n s' ∧
    repr s' (advance a (<[f := overwrite l off (mem_bytes (sv_fs s) (req_buf fsreq) n)]> (a_files a))
      id f (off + n)) ∧ fds_kept s s' id.
Proof.
  intros Hr Ho Hl Hid n Hle Hmax. pose proof (r_files s a Hr) as Hfs. pose proof (rf_ok _ _ Hfs) as Hok.
  destruct (repr_at s a id f off l Hr Ho Hl) as [Hoff Hoffr Hlt Hi].
  assert (Hn0 : 0 ≤ n) by (pose proof (ldn_range 8 _ (req_n fsreq) (co_mem _ (fo_coh _ Hok))); lia).
  unfold serve_write. rewrite (find_open s a whom id f off) by done. cbn [o_file o_fd].
  erewrite fs_bind by (apply load64_out, (fsreq_outside 8); unfold PGSIZE; lia).
  fold n. erewrite fs_run by (apply load_fd_offset; [lia|by rewrite Hoff]). rewrite Hoff.
  destruct (file_write_repr (sv_fs s) _ f l (req_buf fsreq) n off Hfs Hl)
    as (t2 & Ht2 & Hfs2 & Hm2); [lia|lia|lia|apply (page_buf 16); unfold WRITE_MAX in *; lia|].
  erewrite fs_run by exact Ht2. rewrite (proj2 (Z.ltb_ge n 0)) by lia.
  destruct (repr_size _ _ f l Hfs Hl) as (Hd & _).
  destruct (advance_run s a t2 _ id f off n (λ _, mret n) Hr Ho
    (dom_insert_lookup_L _ _ _ (mk_is_Some _ _ Hl)) Hfs2) as (t3 & Ht3 & Hr3 & Hk3 & _); [|lia|lia|].
  - intros x Hx. apply Hm2. apply (fd_outside 0 (x - FILEVA) 1); unfold fd_va; lia.
  - by exists (set_sv_fs t3 s).
Qed.

Lemma is_byte_ok l : forallb is_byte l = true → Forall (λ b, 0 ≤ b < 256) l.
Proof.
  rewrite forallb_forall. intros H. apply list.Forall_forall. intros b Hb.
  specialize (H b (proj1 (list_elem_of_In _ _) Hb)). unfold is_byte in H. lia.
Qed.

(** A request the specification answers, its file and its offset. *)
Lemma spec_step_fits s a r x : repr s a → spec_step r a = Some x →
  req_fits r ∧ ∃ f off l, a_open a !! req_id r = Some (f, off) ∧ a_files a !! f = Some l.
Proof.
  intros Hr. unfold spec_step. destruct r as [id n|id data];
    destruct (a_open a !! id) as [[f off]|] eqn:Ho; cbn; try done;
    destruct (a_files a !! f) as [l|] eqn:Hl; cbn; try done; case_match eqn:Hc; intros; try done.
  - split; [|by exists f, off, l]. destruct (r_open s a Hr id f off Ho) as (Hid & _).
    apply andb_true_iff in Hc as [?%Z.leb_le ?%Z.ltb_lt]. split; [done|]. by split.
  - split; [|by exists f, off, l]. destruct (r_open s a Hr id f off Ho) as (Hid & _).
    apply andb_true_iff in Hc as [[?%Z.leb_le ?%Z.leb_le]%andb_true_iff Hb%is_byte_ok].
    unfold req_fits. cbn. unfold WRITE_MAX, PGSIZE in *. pow2. split_and!; [lia..|done].
Qed.

Lemma serve_handler code whom h s r s' :
  handlers code = Some h → (code =? 1) = false → h whom fsreq s = Ret r s' →
  serve code whom PTE_P s = Ret (Some (r, 0, PTE_P)) s'.
Proof.
  intros Hh Hc Hrun. unfold serve. change (negb (truthy (Z.land PTE_P PTE_P))) with false.
  cbn match. rewrite Hc, Hh. by erewrite v_bind by exact Hrun.
Qed.

Lemma round_ok s a whom r n out a' :
  repr s a → spec_step r a = Some (n, out, a') →
  ∃ s', round whom r s = Ret (n, out) s' ∧ repr s' a'.
Proof.
  intros Hr Hsp. destruct (spec_step_fits s a r _ Hr Hsp) as [Hfit (f & off & l & Ho & Hl)].
  pose proof (repr_place s a r Hr Hfit) as Hr1.
  destruct (place_fields r (fs_mem (sv_fs s)) Hfit) as [Hid Hn].
  set (s1 := set_sv_fs (set_fs_mem (place r (fs_mem (sv_fs s))) (sv_fs s)) s) in *.
  unfold round. erewrite fs_bind by reflexivity. fold s1.
  destruct r as [id m|id data]; cbn [req_id req_len req_code] in *; unfold spec_step in Hsp;
    rewrite Ho in Hsp; cbn in Hsp; rewrite Hl in Hsp; cbn in Hsp; case_match eqn:Hc; try done;
    injection Hsp as <- <- <-.
  - destruct (serve_read_ok s1 a whom id f off l Hr1 Ho Hl Hid) as (s2 & Hs2 & Hr2 & _ & Hout).
    change (ld64 (fs_mem (sv_fs s1)) (req_n fsreq)) with
      (ld64 (place (RRead id m) (fs_mem (sv_fs s))) (req_n fsreq)) in Hs2, Hr2, Hout.
    rewrite Hn in Hs2, Hr2, Hout. exists s2. split; [|exact Hr2].
    erewrite v_bind by (by apply (serve_handler 3 whom serve_read)).
    cbn [default fst fmap option_fmap option_map compose]. rewrite v_gets. unfold Datatypes.id. by rewrite Hout.
  - apply andb_true_iff in Hc as [[H1%Z.leb_le H2%Z.leb_le]%andb_true_iff _].
    destruct (serve_write_ok s1 a whom id f off l Hr1 Ho Hl Hid) as (s2 & Hs2 & Hr2 & _).
    1, 2: change (ld64 (fs_mem (sv_fs s1)) (req_n fsreq)) with
      (ld64 (place (RWrite id data) (fs_mem (sv_fs s))) (req_n fsreq)); rewrite Hn; done.
    change (ld64 (fs_mem (sv_fs s1)) (req_n fsreq)) with
      (ld64 (place (RWrite id data) (fs_mem (sv_fs s))) (req_n fsreq)) in Hs2, Hr2.
    rewrite Hn in Hs2, Hr2. unfold s1 in Hr2. cbn [set_sv_fs sv_fs] in Hr2.
    rewrite (place_data id data (sv_fs s) Hfit) in Hr2. exists s2. split; [|exact Hr2].
    by erewrite v_bind by (by apply (serve_handler 4 whom serve_write)).
Qed.

(** C1. The file server implements a table of files.  Take any sequence of read
    requests, and of write requests within the end of the file and the request
    page, on open files.  serve() answers each of them, with exactly the counts and
    the bytes of the abstract server, which keeps each file as a list of bytes and
    each open file as an offset into it: reads return the slice at the offset,
    writes replace it, offsets advance, and no file sees another file's writes.
    The code goes through the block pointers, the bitmap, the block cache with its
    page faults, and the request page. *)
Theorem serve_refines whom l s a outs a' :
  repr s a → spec_run l a = Some (outs, a') →
  ∃ s', rounds whom l s = Ret outs s' ∧ repr s' a'.
Proof.
  revert s a outs a'. induction l as [|r l IH]; intros s a outs a' Hr; cbn [spec_run rounds].
  - intros [= <- <-]. by exists s.
  - destruct (spec_step r a) as [[[n out] a1]|] eqn:Hsp; cbn; [|done].
    destruct (spec_run l a1) as [[outs1 a2]|] eqn:Hrun; cbn; [|done]. intros [= <- <-].
    destruct (round_ok s a whom r n out a1 Hr Hsp) as (s1 & Hs1 & Hr1).
    destruct (IH s1 a1 outs1 a2 Hr1 Hrun) as (s2 & Hs2 & Hr2).
    exists s2. split; [|done]. erewrite v_bind by exact Hs1. by erewrite v_bind by exact Hs2.
Qed.
