(* ===== verification/FsExample.v ===== *)
(** * A small disk

    A disk of 8 blocks with two files, each open once: the hypotheses of the file
    server's theorems hold of it. *)
From stdpp Require Import gmap.
From S2P Require Import Prelude Mem StringC Printfmt KState Bc Fs FsView FsSpec FsIO FsServ FsRW FsRefine.

(** Block 1 is the super block, 2 the bitmap with block 5 free, 3 holds two struct
    Files, 4 and 6 their data. *)
Definition ex_file : Z := blk_va 3.
Definition ex_file2 : Z := blk_va 3 + 256.
Definition ex_text : list Z := [104; 101; 108; 108; 111].
Definition ex_text2 : list Z := [119; 111; 114; 108; 100; 33; 33].
Definition ex_disk : mem :=
  store_bytes (store_bytes (st32 (st32 (st32 (st32 (st32 (st32 ∅ (4096 + 4) 8) (2 * 4096) 32)
    (3 * 4096 + 128) 5) (3 * 4096 + 136) 4) (3 * 4096 + 384) 7) (3 * 4096 + 392) 6)
    (4 * 4096) ex_text) (6 * 4096) ex_text2.
(** The struct Fd of a file: device, mode, id. *)
Definition ex_fd (i id mode : Z) (m : mem) : mem :=
  st32 (st32 (st32 m (fd_dev_id (fd_va i)) devfile_id) (fd_omode (fd_va i)) mode) (fd_file_id (fd_va i)) id.
Definition ex_mem : mem := ex_fd 1 1025 1 (ex_fd 0 1024 0 (st32 (st32 ∅ (blk_va 1 + 4) 8) (blk_va 2) 32)).
Definition ex_fs : FsState := mkFs ex_mem {[1; 2]} ∅ ex_disk 8 (blk_va 1) (blk_va 2).

Lemma ex_fd_below i id mode m x : 0 ≤ i → x < FILEVA → ldb (ex_fd i id mode m) x = ldb m x.
Proof.
  intros Hi Hx. unfold ex_fd, fd_file_id, fd_omode, fd_dev_id, fd_va, PGSIZE.
  by rewrite !ldb_stn_out by lia.
Qed.

Lemma bytes_ok_empty : bytes_ok ∅.
Proof. intros a. done. Qed.

Lemma ex_coherent : coherent ex_fs.
Proof.
  split; cbn [ex_fs fs_mapped fs_mem fs_disk fs_dirty].
  - intros b. rewrite elem_of_union, !elem_of_singleton. change NDISKBLKS with 786432. lia.
  - intros b off Hb _ Ho. rewrite elem_of_union, !elem_of_singleton in Hb.
    unfold ex_mem, ex_disk, BLKSIZE, PGSIZE in *. rewrite !ldb_store_bytes_out by (left; lia).
    rewrite (ldb_stn_out 4 _ (3 * 4096 + 392)), (ldb_stn_out 4 _ (3 * 4096 + 384)),
      (ldb_stn_out 4 _ (3 * 4096 + 136)), (ldb_stn_out 4 _ (3 * 4096 + 128)) by lia.
    rewrite !ex_fd_below by (unfold blk_va, DISKMAP, BLKSIZE, PGSIZE, FILEVA; lia).
    unfold blk_va, DISKMAP, BLKSIZE, PGSIZE. destruct Hb as [-> | ->].
    + rewrite !(ldb_stn_out 4 _ _ 32) by lia. destruct (decide (4 ≤ off < 8)).
      * rewrite !ldb_stn_in by (cbn; lia). do 3 f_equal; lia.
      * by rewrite !ldb_stn_out by (cbn; lia).
    + destruct (decide (off < 4)).
      * rewrite !ldb_stn_in by (cbn; lia). do 3 f_equal; lia.
      * by rewrite !ldb_stn_out by (cbn; lia).
  - do 8 apply bytes_ok_stn. apply bytes_ok_empty.
  - do 2 apply bytes_ok_store_bytes. do 6 apply bytes_ok_stn. apply bytes_ok_empty.
Qed.

Lemma ex_nblocks : nblocks ex_fs = 8.
Proof. by vm_compute. Qed.

Lemma ex_fs_ok : fs_ok ex_fs.
Proof.
  split; rewrite ?ex_nblocks; cbn [ex_fs super bitmap fs_mapped fs_free_pages].
  - done.
  - done.
  - change NDISKBLKS with 786432. lia.
  - set_solver.
  - intros k Hk Hlt. unfold BLKBITSIZE, BLKSIZE, PGSIZE in Hlt. assert (k = 0) as -> by lia. set_solver.
  - intros b. rewrite elem_of_union, !elem_of_singleton. lia.
  - lia.
  - apply ex_coherent.
Qed.

Lemma ex_in_use b : b = 3 ∨ b = 4 ∨ b = 6 → in_use ex_fs b.
Proof. intros H. unfold in_use. rewrite ex_nblocks. destruct H as [-> | [-> | ->]]; split; (lia || by vm_compute). Qed.

(** Each file with its size and its block. *)
Definition ex_files : gmap Z (list Z) := <[ex_file := ex_text]> {[ex_file2 := ex_text2]}.
Definition ex_block (f : Z) : Z := if f =? ex_file then 4 else 6.

Lemma ex_dom f : f ∈ dom ex_files → f = ex_file ∨ f = ex_file2.
Proof. unfold ex_files. rewrite dom_insert, dom_singleton. set_solver. Qed.

Lemma ex_fsize f : f = ex_file ∨ f = ex_file2 → 0 ≤ fsize ex_fs f ≤ 7.
Proof.
  intros [-> | ->]; [change (fsize ex_fs ex_file) with 5|change (fsize ex_fs ex_file2) with 7]; lia.
Qed.

Lemma ex_fblock f p : f = ex_file ∨ f = ex_file2 → 0 ≤ p < 7 →
  fblock ex_fs f (p / BLKSIZE) = ex_block f.
Proof.
  intros Hf Hp. rewrite Z.div_small by (unfold BLKSIZE, PGSIZE; lia). by destruct Hf as [-> | ->]; vm_compute.
Qed.

Lemma ex_file_at f : f = ex_file ∨ f = ex_file2 → file_at ex_fs f.
Proof.
  intros Hf. assert (blk_of f = 3) as Hb by (by destruct Hf as [-> | ->]).
  split.
  - by destruct Hf as [-> | ->].
  - intros k Hk. rewrite Hb. destruct Hf as [-> | ->]; unfold ex_file, ex_file2.
    + rewrite blk_of_va by (unfold FILE_SIZE, BLKSIZE, PGSIZE in *; lia). done.
    + rewrite <- Z.add_assoc, blk_of_va by (unfold FILE_SIZE, BLKSIZE, PGSIZE in *; lia). done.
  - by destruct Hf as [-> | ->].
  - intros _. right. rewrite Hb. apply ex_in_use. by left.
  - by destruct Hf as [-> | ->].
Qed.

Lemma ex_meta f g : f = ex_file ∨ f = ex_file2 → g = ex_file ∨ g = ex_file2 →
  ¬ meta_blk ex_fs g (ex_block f).
Proof.
  intros Hf Hg [H|[(k & Hk & Hlt & He)|[H|[_ H]]]].
  - destruct Hf as [-> | ->]; by vm_compute in H.
  - rewrite ex_nblocks in Hlt. unfold BLKBITSIZE, BLKSIZE, PGSIZE in Hlt. assert (k = 0) as -> by lia.
    destruct Hf as [-> | ->]; by vm_compute in He.
  - destruct Hf as [-> | ->], Hg as [-> | ->]; by vm_compute in H.
  - destruct Hf as [-> | ->], Hg as [-> | ->]; by vm_compute in H.
Qed.

Lemma ex_repr_fs : repr_fs ex_fs ex_files.
Proof.
  split.
  - apply ex_fs_ok.
  - intros f l Hl. unfold ex_files in Hl.
    apply lookup_insert_Some in Hl as [[<- <-]|[_ [<- <-]%lookup_singleton_Some]];
      (split; [apply ex_file_at; auto|by vm_compute]).
  - intros f Hf%ex_dom p Hp. pose proof (ex_fsize f Hf).
    split; rewrite ?ex_fblock by (done || lia); rewrite ?Z.div_small by (unfold BLKSIZE, PGSIZE; lia).
    + done.
    + done.
    + by destruct Hf as [-> | ->].
    + apply ex_in_use. destruct Hf as [-> | ->]; auto.
  - intros f g p Hf%ex_dom Hg%ex_dom Hp. pose proof (ex_fsize f Hf). rewrite ex_fblock by (done || lia).
    by apply ex_meta.
  - intros f g p q Hf%ex_dom Hg%ex_dom Hp Hq. pose proof (ex_fsize f Hf). pose proof (ex_fsize g Hg).
    rewrite !ex_fblock by (done || lia). intros He.
    split; [|by rewrite !Z.div_small by (unfold BLKSIZE, PGSIZE; lia)].
    by destruct Hf as [-> | ->], Hg as [-> | ->]; vm_compute in He.
Qed.

(** The files are open as ids 1024 and 1025, entries 0 and 1 of the table. *)
Definition ex_entry (i : Z) : OpenFile :=
  mkOpen (if i <? 2 then 1024 + i else i)
    (if i =? 0 then ex_file else if i =? 1 then ex_file2 else 0) 0 (fd_va i).
Definition ex_tab : list OpenFile := ex_entry <$> seqZ 0 MAXOPEN.
Definition ex_serv : ServState := mkServ ex_fs ex_tab (λ _, 2).
Definition ex_aserv : AServ := mkAServ ex_files (<[1024 := (ex_file, 0)]> {[1025 := (ex_file2, 0)]}).

Lemma ex_tab_at i : 0 ≤ i < MAXOPEN → opentab_at i ex_serv = ex_entry i.
Proof.
  intros Hi. unfold opentab_at, ex_serv, ex_tab. cbn [opentab]. rewrite nth_lookup, list_lookup_fmap.
  rewrite lookup_seqZ_lt by lia. cbn [fmap option_fmap option_map default].
  by rewrite Z2Nat.id, Z.add_0_l by lia.
Qed.

Lemma ex_table_ok : table_ok ex_serv.
Proof.
  split.
  - cbn [ex_serv opentab]. unfold ex_tab. by rewrite length_fmap, length_seqZ.
  - intros i Hi. by rewrite ex_tab_at.
  - intros i Hi. rewrite ex_tab_at by done. unfold ex_entry. cbn [o_fileid]. unfold MAXOPEN in *. pow2.
    destruct (Z.ltb_spec i 2); zlia.
Qed.

Lemma ex_repr : repr ex_serv ex_aserv.
Proof.
  split; [apply ex_repr_fs|apply ex_table_ok|].
  intros id f off Hl. cbn [ex_aserv a_open] in Hl.
  apply lookup_insert_Some in Hl as [[<- [= <- <-]]|[_ [<- [= <- <-]]%lookup_singleton_Some]]; cbv zeta.
  - change (1024 mod MAXOPEN) with 0. rewrite ex_tab_at by done. pow2. split_and!; try done.
  - change (1025 mod MAXOPEN) with 1. rewrite ex_tab_at by done. pow2. split_and!; try done.
Qed.

(** ** The theorems at this disk *)

(** A read, a write to the end of the file, a read at the end of the file. *)
Definition ex_reqs : list request := [RRead 1024 3; RWrite 1024 [33; 34]; RRead 1024 100].

Lemma serve_refines_witness : ∃ s',
  rounds 7 ex_reqs ex_serv = Ret [(3, [104; 101; 108]); (2, []); (0, [])] s' ∧
  repr s' (mkAServ (<[ex_file := [104; 101; 108; 33; 34]]> ex_files)
             (<[1024 := (ex_file, 5)]> (<[1024 := (ex_file, 3)]> (a_open ex_aserv)))).
Proof. apply (serve_refines 7 ex_reqs ex_serv ex_aserv _ _ ex_repr). by vm_compute. Defined.

Lemma alloc_block_correct_witness :
  (∃ b s', alloc_block ex_fs = Ret b s' ∧ 2 ≤ b < nblocks ex_fs ∧ is_free ex_fs b = true ∧
     (∀ c, 2 ≤ c < b → is_free ex_fs c = false) ∧ bit_set b false ex_fs s' ∧ 2 ∉ fs_dirty s') ∨
  (alloc_block ex_fs = Ret (- E_NO_DISK) ex_fs ∧
     ∀ c, 2 ≤ c < nblocks ex_fs → is_free ex_fs c = false).
Proof. apply (alloc_block_correct ex_fs ex_fs_ok). Defined.

Definition ex_ops : list fs_op :=
  [OpRead ex_file fsreq 3 0; OpWrite ex_file fsreq 2 1; OpFlush ex_file; OpSetSize ex_file 1; OpSync].

Lemma cache_coherent_witness :
  match run_ops ex_ops ex_fs with
  | Ret _ s' => ∀ b, b ∈ fs_mapped s' → 0 ≤ b < NDISKBLKS ∧
      (b ∉ fs_dirty s' → ∀ off, 0 ≤ off < BLKSIZE →
        ldb (fs_mem s') (blk_va b + off) = ldb (fs_disk s') (b * BLKSIZE + off))
  | _ => False
  end.
Proof.
  destruct (run_ops ex_ops ex_fs) as [[] s'|x s'|s'] eqn:E; [|done|].
  - apply (cache_coherent ex_ops ex_fs s' ex_coherent E).
  - assert (H : match run_ops ex_ops ex_fs with Panic _ => False | _ => True end) by by vm_compute.
    by rewrite E in H.
Defined.

(** The clients have closed every file. *)
Definition ex_closed : ServState := set_pageref (λ _, 1) ex_serv.

Lemma openfile_alloc_correct_witness :
  (openfile_alloc ex_closed = Ret (- E_MAX_OPEN, 0) ex_closed ∧
     ∀ i, 0 ≤ i < MAXOPEN → refs ex_closed i ≠ 0 ∧ refs ex_closed i ≠ 1) ∨
  (∃ i, 0 ≤ i < MAXOPEN ∧ (refs ex_closed i = 0 ∨ refs ex_closed i = 1) ∧
     (∀ j, 0 ≤ j < i → refs ex_closed j ≠ 0 ∧ refs ex_closed j ≠ 1) ∧
     if decide (refs ex_closed i = 0 ∧ fs_free_pages (sv_fs ex_closed) ≤ 0)
     then openfile_alloc ex_closed = Ret (- E_NO_MEM, 0) ex_closed
     else ∃ s', openfile_alloc ex_closed = Ret (i32 (o_fileid (opentab_at i s')), i) s' ∧
       opened ex_closed s' i).
Proof. apply (openfile_alloc_correct ex_closed (table_ok_pageref _ _ ex_table_ok)). Defined.

Lemma ex_reopen : ∃ s', openfile_alloc ex_closed = Ret (2048, 0) s' ∧
  o_fileid (opentab_at 0 s') = 2048.
Proof.
  destruct (openfile_alloc_ok ex_closed (table_ok_pageref _ _ ex_table_ok))
    as [[_ H]|(i & Hi & _ & Hlo & H)]; [by destruct (H 0)|].
  destruct (decide (i = 0)) as [->|Hne]; [|by destruct (Hlo 0); [lia|]].
  rewrite decide_False in H by (intros [He _]; done). destruct H as (s' & Hs' & _ & Hat & _).
  assert (Hid : o_fileid (opentab_at 0 s') = 2048).
  { rewrite Hat. change (opentab_at 0 ex_closed) with (opentab_at 0 ex_serv). by rewrite ex_tab_at. }
  rewrite Hid in Hs'. by exists s'.
Qed.

(** Id 1024 after the entry has been given out again. *)
Lemma file_id_fresh_witness : ∃ s', openfile_alloc ex_closed = Ret (2048, 0) s' ∧
  openfile_lookup 7 1024 s' = Ret (- E_INVAL, 0) s'.
Proof.
  destruct ex_reopen as (s' & Hs' & Hid). exists s'. split; [exact Hs'|].
  assert (Hrun : table_run 0 1 ex_serv s').
  { apply (run_client 0 1 ex_serv (λ _, 1)). fold ex_closed.
    pose proof (run_open 0 0 ex_closed _ _ _ Hs' (run_nil 0 _)) as H. by rewrite Hid in H. }
  change 1024 with (o_fileid (opentab_at 0 ex_serv)).
  apply (file_id_fresh 0 1 ex_serv s' 7); [done|apply ex_table_ok|exact Hrun|lia|done].
Defined.
