(* ===== verification/Malloc.v ===== *)
(** * User-level malloc and free (lib/malloc.c)

    The arena [mbegin, mend).  [m_map] gives the pages of it that are mapped, by
    page number, with their PTE_CONTINUED bit.  A page that sys_page_alloc maps
    is not cleared: it holds what [m_mem] has there. *)
From stdpp Require Import gmap.
From S2P Require Import Prelude Mem.
From S2P Require KState.

Definition MAXMALLOC : Z := 1024 * 1024.
Definition mbegin : Z := 0x08000000.
Definition mend : Z := 0x10000000.

Record MState : Type := mkM
  { m_mem : mem;
    m_map : gmap Z bool;      (* mapped pages; true: PTE_CONTINUED *)
    m_pages : Z;              (* pages the kernel can still give *)
    mptr : Z }.

Definition set_m_mem (v : mem) (s : MState) : MState := mkM v (m_map s) (m_pages s) (mptr s).
Definition set_m_map (v : gmap Z bool) (s : MState) : MState := mkM (m_mem s) v (m_pages s) (mptr s).
Definition set_m_pages (v : Z) (s : MState) : MState := mkM (m_mem s) (m_map s) v (mptr s).
Definition set_mptr (v : Z) (s : MState) : MState := mkM (m_mem s) (m_map s) (m_pages s) v.

Definition H : Type → Type := M MState False.

Definition pg (va : Z) : Z := va / PGSIZE.
Definition ROUNDUP (a n : Z) : Z := u64 (a + n - 1) - u64 (a + n - 1) mod n.
Definition ROUNDDOWN (a n : Z) : Z := a - a mod n.

(** The system calls on the caller's own address space. *)
Definition sys_page_alloc_m (va : Z) (cont : bool) : H Z :=
  s ← get;
  if KState.UTOP <? va then mret (-3)
  else if m_pages s <=? 0 then mret (-4)
  else modify (λ s, set_m_pages (m_pages s - 1) (set_m_map (<[pg va := cont]> (m_map s)) s));; mret 0.
Definition sys_page_unmap_m (va : Z) : H unit :=
  modify (λ s, match m_map s !! pg va with
    | Some _ => set_m_pages (m_pages s + 1) (set_m_map (delete (pg va) (m_map s)) s)
    | None => s end).

(** A reference count, at the end of its page; no page, no access. *)
Definition load_ref (a : Z) : H Z :=
  s ← get; match m_map s !! pg a with Some _ => mret (ld32 (m_mem s) a) | None => panic end.
Definition store_ref (a v : Z) : H unit :=
  s ← get;
  match m_map s !! pg a with
  | Some _ => modify (set_m_mem (st32 (m_mem s) a v))
  | None => panic
  end.

(** [end_va] wraps: the loop may have no iteration. *)
Definition isfree (v n : Z) (s : MState) : bool :=
  let end_va := u64 (v + n) in
  forallb (λ i, negb (mend <=? v + i * PGSIZE) && negb (bool_decide (is_Some (m_map s !! pg (v + i * PGSIZE)))))
    (seqZ 0 ((end_va - v + PGSIZE - 1) / PGSIZE)).

(** [while (uvpt[PGNUM(c)] & PTE_CONTINUED)], to the page that ends the run. *)
Fixpoint free_loop (fuel : nat) (c : Z) : H Z :=
  s ← get;
  if bool_decide (m_map s !! pg c = Some true) then
    match fuel with
    | O => panic
    | S fuel' =>
        sys_page_unmap_m c;;
        assert_ ((mbegin <=? c + PGSIZE) && (c + PGSIZE <? mend));;
        free_loop fuel' (c + PGSIZE)
    end
  else mret c.

(** The arena has this many pages. *)
Definition NPAGES : nat := Z.to_nat ((mend - mbegin) / PGSIZE).

Definition free (v : Z) : H unit :=
  if v =? 0 then mret tt
  else
    assert_ ((mbegin <=? v) && (v <? mend));;
    c ← free_loop NPAGES (ROUNDDOWN v PGSIZE);
    r ← load_ref (c + PGSIZE - 4);
    store_ref (c + PGSIZE - 4) (u32 (r - 1));;
    if u32 (r - 1) =? 0 then sys_page_unmap_m c else mret tt.

(** A loop of at most 2^[k] rounds, [inr] ending it.  The number of rounds is not
    counted out, so that a bound no run reaches costs nothing. *)
Fixpoint loop_pow {X Y} (k : nat) (step : X → X + Y) (x : X) : X + Y :=
  match k with
  | O => step x
  | S k' => match loop_pow k' step x with inl x' => loop_pow k' step x' | r => r end
  end.

(** The search for address space, one round: [false] after the second wrap. *)
Definition search_step (n : Z) (x : Z * MState) : Z * MState + bool * MState :=
  let '(nwrap, s) := x in
  if isfree (mptr s) (n + 4) s then inr (true, s)
  else
    let s := set_mptr (u64 (mptr s + PGSIZE)) s in
    if mptr s =? mend then
      let s := set_mptr mbegin s in
      if nwrap + 1 =? 2 then inr (false, s) else inl (nwrap + 1, s)
    else inl (nwrap, s).

(** [mptr] has 2^52 pages to go around. *)
Definition SEARCH_POW : nat := 53.
Definition search (n : Z) : H bool := λ s,
  match loop_pow SEARCH_POW (search_step n) (0, s) with
  | inr (ok, s') => Ret ok s'
  | inl (_, s') => Panic s'
  end.

(** [for (; i >= 0; i -= PGSIZE) sys_page_unmap(0, mptr + i)], from page [k]. *)
Fixpoint unwind (k : nat) (base : Z) : H unit :=
  sys_page_unmap_m (base + Z.of_nat k * PGSIZE);;
  match k with O => mret tt | S k' => unwind k' base end.

(** The pages of the chunk, from page [k] on: [None] if one cannot be had, else
    the number of pages. *)
Fixpoint alloc_loop (fuel k : nat) (n : Z) : H (option nat) :=
  let i := Z.of_nat k * PGSIZE in
  if i <? n + 4 then
    match fuel with
    | O => panic
    | S fuel' =>
        s ← get;
        r ← sys_page_alloc_m (mptr s + i) (i + PGSIZE <? n + 4);
        if r <? 0 then unwind k (mptr s);; mret None
        else alloc_loop fuel' (S k) n
    end
  else mret (Some k).

Definition CHUNK_PAGES : nat := Z.to_nat (MAXMALLOC / PGSIZE + 1).

(** The part of malloc from the search on. *)
Definition malloc_fresh (n : Z) : H Z :=
  ok ← search n;
  if negb ok then mret 0
  else
    k ← alloc_loop CHUNK_PAGES 0 n;
    match k with
    | None => mret 0
    | Some k =>
        s ← get;
        store_ref (mptr s + Z.of_nat k * PGSIZE - 4) 2;;
        modify (set_mptr (mptr s + n));;
        mret (mptr s)
    end.

Definition malloc (n : Z) : H Z :=
  s ← get;
  when (mptr s =? 0) (modify (set_mptr mbegin));;
  let n := ROUNDUP n 4 in
  if MAXMALLOC <=? n then mret 0
  else
    s ← get;
    if negb (mptr s mod PGSIZE =? 0) then
      let ref := ROUNDUP (mptr s) PGSIZE - 4 in
      if mptr s / PGSIZE =? (mptr s + n - 1 + 4) / PGSIZE then
        r ← load_ref ref;
        store_ref ref (u32 (r + 1));;
        modify (set_mptr (mptr s + n));;
        mret (mptr s)
      else
        free (mptr s);;
        modify (set_mptr (ROUNDDOWN (mptr s + PGSIZE) PGSIZE));;
        malloc_fresh n
    else malloc_fresh n.

(** ** The heap

    [B] gives the live blocks: address and size.  A chunk is one page, or a run of
    continued pages and the page that ends it; the last word of that page counts
    the blocks that end in it, and [mptr] if it is inside. *)

Definition last_pg (v n : Z) : Z := (v + n + 3) / PGSIZE.
Definition ref_va (p : Z) : Z := p * PGSIZE + PGSIZE - 4.
Definition ref (s : MState) (p : Z) : Z := ld32 (m_mem s) (ref_va p).

Definition cnt (B : gmap Z Z) (p : Z) : Z :=
  Z.of_nat (size (filter (λ kv, last_pg kv.1 kv.2 = p) B)).
Definition act (a p : Z) : Z := if decide (a mod PGSIZE ≠ 0 ∧ pg a = p) then 1 else 0.

Record block_ok (s : MState) (v n : Z) : Prop := {
  b_size : 1 ≤ n;
  b_al : v mod 4 = 0 ∧ n mod 4 = 0;
  b_start : pg v < last_pg v n → v mod PGSIZE = 0;
  b_inner : ∀ p, pg v ≤ p < last_pg v n → m_map s !! p = Some true;
  b_last : m_map s !! last_pg v n = Some false
}.

(** [a] stands for [mptr]; the counts exceed what they count by [x]. *)
Record heapx (x : Z → Z) (B : gmap Z Z) (a : Z) (s : MState) : Prop := {
  h_mem : bytes_ok (m_mem s);
  h_range : ∀ p f, m_map s !! p = Some f → mbegin ≤ p * PGSIZE ∧ (p + 1) * PGSIZE ≤ mend;
  h_ptr : (a = 0 ∨ mbegin ≤ a < mend) ∧ a mod 4 = 0;
  h_blk : ∀ v n, B !! v = Some n → block_ok s v n;
  h_disj : ∀ v n v' n', B !! v = Some n → B !! v' = Some n' → v ≠ v' → v + n ≤ v' ∨ v' + n' ≤ v;
  h_act : a mod PGSIZE ≠ 0 → m_map s !! pg a = Some false ∧
    4 * cnt B (pg a) ≤ a mod PGSIZE + 4 ∧
    ∀ v n, B !! v = Some n → v + n ≤ a ∨ (pg a + 1) * PGSIZE ≤ v;
  h_ref : ∀ p, m_map s !! p = Some false →
    cnt B p + act a p + x p ≤ ref s p ≤ cnt B p + 1 + x p
}.
Definition heap (B : gmap Z Z) (s : MState) : Prop := heapx (λ _, 0) B (mptr s) s.

(** The bytes of the live blocks stay. *)
Definition kept (B : gmap Z Z) (s s' : MState) : Prop :=
  ∀ v n b, B !! v = Some n → v ≤ b < v + n → ldb (m_mem s') b = ldb (m_mem s) b.

Lemma kept_refl B s : kept B s s.
Proof. done. Qed.
Lemma kept_trans B s1 s2 s3 : kept B s1 s2 → kept B s2 s3 → kept B s1 s3.
Proof. intros H1 H2 v n b Hv Hb. rewrite (H2 v n b), (H1 v n b); done. Qed.

(** *** Counting *)

Lemma cnt_nonneg B p : 0 ≤ cnt B p.
Proof. unfold cnt. lia. Qed.

Lemma cnt_insert B v n p : B !! v = None →
  cnt (<[v := n]> B) p = cnt B p + (if decide (last_pg v n = p) then 1 else 0).
Proof.
  intros Hv. unfold cnt. case_decide as Hd.
  - rewrite map_filter_insert_True by done. rewrite map_size_insert_None; [lia|].
    rewrite map_lookup_filter, Hv. done.
  - rewrite map_filter_insert_False by done. rewrite delete_id by done. lia.
Qed.

Lemma cnt_delete B v n p : B !! v = Some n →
  cnt (delete v B) p = cnt B p - (if decide (last_pg v n = p) then 1 else 0).
Proof.
  intros Hv. rewrite <- (insert_delete_id B v n Hv) at 2.
  rewrite cnt_insert by apply lookup_delete_eq. lia.
Qed.

Lemma cnt_pos B v n : B !! v = Some n → 1 ≤ cnt B (last_pg v n).
Proof.
  intros Hv. pose proof (cnt_delete B v n (last_pg v n) Hv) as H. rewrite decide_True in H by done.
  pose proof (cnt_nonneg (delete v B) (last_pg v n)). lia.
Qed.

Lemma cnt_zero B p : (∀ v n, B !! v = Some n → last_pg v n ≠ p) → cnt B p = 0.
Proof.
  intros H. unfold cnt. rewrite map_empty_filter_2; [by rewrite map_size_empty|].
  intros v n Hv. by apply H.
Qed.

Lemma act_range a p : 0 ≤ act a p ≤ 1.
Proof. unfold act. case_decide; lia. Qed.

(** *** Blocks and pages *)

Lemma pg_spec a : pg a * PGSIZE ≤ a < (pg a + 1) * PGSIZE.
Proof. unfold pg, PGSIZE. zlia. Qed.

Lemma last_pg_spec v n : last_pg v n * PGSIZE ≤ v + n + 3 < (last_pg v n + 1) * PGSIZE.
Proof. unfold last_pg, PGSIZE. zlia. Qed.

Lemma block_page s v n b : block_ok s v n → v ≤ b < v + n → pg v ≤ pg b ≤ last_pg v n.
Proof. intros _ Hb. unfold pg, last_pg, PGSIZE. zlia. Qed.

Lemma block_mapped s v n b : block_ok s v n → v ≤ b < v + n →
  m_map s !! pg b = Some (bool_decide (pg b < last_pg v n)).
Proof.
  intros Hk Hb. pose proof (block_page s v n b Hk Hb). case_bool_decide.
  - apply (b_inner s v n Hk). lia.
  - replace (pg b) with (last_pg v n) by lia. apply Hk.
Qed.

(** No block reaches into a count. *)
Lemma ref_out s v n b p : block_ok s v n → m_map s !! p = Some false → v ≤ b < v + n →
  b < ref_va p ∨ ref_va p + 4 ≤ b.
Proof.
  intros Hk Hp Hb. destruct (decide (pg b = p)) as [<-|Hne].
  - left. rewrite (block_mapped s v n b Hk Hb) in Hp. injection Hp as Hp.
    apply bool_decide_eq_false in Hp. pose proof (block_page s v n b Hk Hb).
    pose proof (last_pg_spec v n). replace (pg b) with (last_pg v n) by lia. unfold ref_va. lia.
  - pose proof (pg_spec b). unfold ref_va, PGSIZE in *. lia.
Qed.

(** The inner pages of a block are its own. *)
Lemma inner_own x B a s v n v' n' p : heapx x B a s → B !! v = Some n → B !! v' = Some n' →
  v ≠ v' → pg v ≤ p < last_pg v n → ¬ (pg v' ≤ p ≤ last_pg v' n').
Proof.
  intros Hh Hv Hv' Hne Hp Hp'. pose proof (h_blk x B a s Hh v n Hv) as Hk.
  pose proof (h_blk x B a s Hh v' n' Hv') as Hk'. pose proof (b_inner s v n Hk p Hp) as Ht.
  assert (p < last_pg v' n') as Hlt.
  { destruct (decide (p = last_pg v' n')) as [->|]; [|lia]. by rewrite (b_last s v' n' Hk') in Ht. }
  pose proof (b_start s v n Hk ltac:(lia)). pose proof (b_start s v' n' Hk' ltac:(lia)).
  destruct (b_al s v n Hk), (b_al s v' n' Hk').
  pose proof (h_disj x B a s Hh v n v' n' Hv Hv' Hne). unfold pg, last_pg, PGSIZE in *. zlia.
Qed.

(** *** free *)

Definition drop_ref (c : Z) : H unit :=
  r ← load_ref (c + PGSIZE - 4);
  store_ref (c + PGSIZE - 4) (u32 (r - 1));;
  if u32 (r - 1) =? 0 then sys_page_unmap_m c else mret tt.

Lemma pg_ref p : pg (p * PGSIZE + PGSIZE - 4) = p.
Proof. unfold pg, PGSIZE. zlia. Qed.
Lemma pg_page p : pg (p * PGSIZE) = p.
Proof. unfold pg, PGSIZE. zlia. Qed.

Lemma ref_st_eq m p v : 0 ≤ v < 2 ^ 32 → ld32 (st32 m (ref_va p) v) (ref_va p) = v.
Proof. intros. rewrite ld32_st32_eq. apply u32_id. pow2. lia. Qed.
Lemma ref_st_ne m p q v : p ≠ q → ld32 (st32 m (ref_va p) v) (ref_va q) = ld32 m (ref_va q).
Proof. intros. apply ldn_stn_ne. unfold ref_va, PGSIZE. lia. Qed.

Lemma ref_set s p q v : 0 ≤ v < 2 ^ 32 →
  ref (set_m_mem (st32 (m_mem s) (ref_va q) v) s) p = if decide (q = p) then v else ref s p.
Proof.
  intros Hv. unfold ref. cbn [set_m_mem m_mem]. case_decide as He; [subst; by apply ref_st_eq|].
  by apply ref_st_ne.
Qed.

(** The state after a store to the count of page [q]. *)
Lemma kept_ref x B a s q v : heapx x B a s → m_map s !! q = Some false →
  kept B s (set_m_mem (st32 (m_mem s) (ref_va q) v) s).
Proof.
  intros Hh Hq v0 n b Hv Hb. cbn [set_m_mem m_mem]. apply ldb_stn_out.
  apply (ref_out s v0 n b q); [by apply (h_blk x B a s Hh)|done|done].
Qed.

(** Run the first command. *)
Lemma h_run {A C} (m : H A) (k : A → H C) s a s' : m s = Ret a s' → (m ≫= k) s = k a s'.
Proof. unfold mbind, M_bind. by intros ->. Qed.
Lemma h_get {C} (k : MState → H C) s : (get ≫= k) s = k s s.
Proof. done. Qed.

Lemma load_ref_ok s q f : m_map s !! q = Some f →
  load_ref (q * PGSIZE + PGSIZE - 4) s = Ret (ref s q) s.
Proof. intros Hq. unfold load_ref. by rewrite h_get, pg_ref, Hq. Qed.
Lemma store_ref_ok s q f v : m_map s !! q = Some f →
  store_ref (q * PGSIZE + PGSIZE - 4) v s = Ret tt (set_m_mem (st32 (m_mem s) (ref_va q) v) s).
Proof. intros Hq. unfold store_ref. by rewrite h_get, pg_ref, Hq. Qed.

(** The slack of one page. *)
Definition at_page (q k : Z) (p : Z) : Z := if decide (p = q) then k else 0.

Lemma heap_set_ref x y B a s q v : heapx x B a s → m_map s !! q = Some false →
  0 ≤ v < 2 ^ 32 → (∀ p, p ≠ q → y p = x p) →
  cnt B q + act a q + y q ≤ v ≤ cnt B q + 1 + y q →
  heapx y B a (set_m_mem (st32 (m_mem s) (ref_va q) v) s).
Proof.
  intros Hh Hq Hv Hy Hr. destruct Hh as [H1 H2 H3 H4 H5 H6 H7].
  split; cbn [set_m_mem m_mem m_map]; try done; [by apply bytes_ok_stn|..].
  - intros v0 n Hv0. destruct (H4 v0 n Hv0). by split.
  - intros p Hp. rewrite ref_set by done. case_decide as He; [by subst p|].
    rewrite Hy by congruence. by apply H7.
Qed.

(** Unmapping a page that nothing uses. *)
Lemma heap_unmap x y B a s q k : heapx x B a s → m_map s !! q = Some false →
  cnt B q = 0 → act a q = 0 → (∀ p, p ≠ q → y p = x p) →
  heapx y B a (set_m_pages k (set_m_map (delete q (m_map s)) s)).
Proof.
  intros [H1 H2 H3 H4 H5 H6 H7] Hq Hc Ha Hy.
  split; cbn [set_m_pages set_m_map m_mem m_map]; try done.
  - intros p f [_ Hp]%lookup_delete_Some. by apply (H2 p f).
  - intros v n Hv. destruct (H4 v n Hv) as [B1 B2 B3 B4 B5].
    assert (q ≠ last_pg v n) by (intros ->; pose proof (cnt_pos B v n Hv); lia).
    split; cbn [set_m_pages set_m_map m_map]; try done.
    + intros p Hp. rewrite lookup_delete_ne; [by apply B4|]. intros ->.
      specialize (B4 p Hp). congruence.
    + by rewrite lookup_delete_ne.
  - intros Hal. destruct (H6 Hal) as (A1 & A2 & A3). split_and!; [|done|done].
    rewrite lookup_delete_ne; [done|]. intros ->. unfold act in Ha. rewrite decide_True in Ha by done. lia.
  - intros p [Hne Hp]%lookup_delete_Some. rewrite Hy by done. by apply H7.
Qed.

Lemma drop_ref_ok B a s q : heapx (at_page q 1) B a s → m_map s !! q = Some false →
  ∃ s', drop_ref (q * PGSIZE) s = Ret tt s' ∧ heapx (λ _, 0) B a s' ∧ mptr s' = mptr s ∧ kept B s s'.
Proof.
  intros Hh Hq. pose proof (h_ref _ B a s Hh q Hq) as Hr.
  pose proof (ldn_range 4 (m_mem s) (ref_va q) (h_mem _ B a s Hh)) as Hlt. fold (ref s q) in Hlt.
  change (256 ^ Z.of_nat 4) with 4294967296 in Hlt. unfold at_page in Hr.
  rewrite decide_True in Hr by done. pose proof (cnt_nonneg B q). pose proof (act_range a q).
  unfold drop_ref. erewrite h_run by (by eapply load_ref_ok).
  erewrite h_run by (by eapply store_ref_ok).
  assert (Hu : u32 (ref s q - 1) = ref s q - 1) by (apply u32_id; lia). rewrite !Hu.
  set (s1 := set_m_mem (st32 (m_mem s) (ref_va q) (ref s q - 1)) s).
  assert (Hk1 : kept B s s1) by by apply (kept_ref _ B a s q (ref s q - 1) Hh).
  destruct (Z.eqb_spec (ref s q - 1) 0) as [Hz|Hz].
  - unfold sys_page_unmap_m, modify. cbn [s1 set_m_mem m_map]. rewrite pg_page, Hq.
    eexists. split_and!; [reflexivity| |done|exact Hk1].
    apply (heap_unmap (λ _, 0) (λ _, 0) B a s1 q); [|done|lia|lia|done].
    apply (heap_set_ref (at_page q 1) (λ _, 0) B a s q); try done; [pow2; lia| |lia].
    intros p Hne. unfold at_page. by rewrite decide_False.
  - exists s1. split_and!; [done| |done|exact Hk1].
    apply (heap_set_ref (at_page q 1) (λ _, 0) B a s q); try done; [pow2; lia| |lia].
    intros p Hne. unfold at_page. by rewrite decide_False.
Qed.

Definition unmapped (q : Z) (s : MState) : MState :=
  set_m_pages (m_pages s + 1) (set_m_map (delete q (m_map s)) s).
Fixpoint unmap_run (d : nat) (q : Z) (s : MState) : MState :=
  match d with O => s | S d' => unmap_run d' (q + 1) (unmapped q s) end.

Lemma unmap_ok s q f : m_map s !! q = Some f → sys_page_unmap_m (q * PGSIZE) s = Ret tt (unmapped q s).
Proof. intros Hq. unfold sys_page_unmap_m, modify. by rewrite pg_page, Hq. Qed.

Lemma free_loop_ok d fuel q s : (d ≤ fuel)%nat →
  (∀ p, q ≤ p < q + Z.of_nat d → m_map s !! p = Some true) → m_map s !! (q + Z.of_nat d) = Some false →
  mbegin ≤ q * PGSIZE → (q + Z.of_nat d) * PGSIZE < mend →
  free_loop fuel (q * PGSIZE) s = Ret ((q + Z.of_nat d) * PGSIZE) (unmap_run d q s).
Proof.
  revert fuel q s. induction d as [|d IH]; intros fuel q s Hf Hin Hend Hlo Hhi.
  - rewrite Z.add_0_r in *. destruct fuel; cbn [free_loop]; rewrite h_get, pg_page, bool_decide_false
      by (rewrite Hend; done); done.
  - destruct fuel as [|fuel]; [lia|]. cbn [free_loop unmap_run].
    rewrite h_get, pg_page, bool_decide_true by (apply Hin; lia).
    erewrite h_run by (eapply unmap_ok, Hin; lia).
    replace ((mbegin <=? q * PGSIZE + PGSIZE) && (q * PGSIZE + PGSIZE <? mend)) with true
      by (symmetry; unfold PGSIZE in *; lia).
    cbn [assert_]. replace (q * PGSIZE + PGSIZE) with ((q + 1) * PGSIZE) by lia.
    replace (q + Z.of_nat (S d)) with (q + 1 + Z.of_nat d) in * by lia.
    apply (IH fuel (q + 1) (unmapped q s)); [lia| | |unfold PGSIZE in *; lia|done].
    + intros p Hp. cbn. rewrite lookup_delete_ne by lia. apply Hin. lia.
    + cbn. by rewrite lookup_delete_ne by lia.
Qed.

(** Unmapping an inner page that no block uses. *)
Lemma heap_unmapped x B a s q : heapx x B a s → m_map s !! q = Some true →
  (∀ v n, B !! v = Some n → ¬ (pg v ≤ q ≤ last_pg v n)) → heapx x B a (unmapped q s).
Proof.
  intros [H1 H2 H3 H4 H5 H6 H7] Hq Hn.
  split; cbn [unmapped set_m_pages set_m_map m_mem m_map]; try done.
  - intros p f [_ Hp]%lookup_delete_Some. by apply (H2 p f).
  - intros v n Hv. destruct (H4 v n Hv) as [B1 B2 B3 B4 B5]. specialize (Hn v n Hv).
    pose proof (pg_spec v). pose proof (last_pg_spec v n). assert (pg v ≤ last_pg v n)
      by (unfold PGSIZE in *; lia).
    split; cbn [unmapped set_m_pages set_m_map m_map]; try done.
    + intros p Hp. rewrite lookup_delete_ne by lia. by apply B4.
    + by rewrite lookup_delete_ne by lia.
  - intros Hal. destruct (H6 Hal) as (A1 & A2 & A3). split_and!; [|done|done].
    rewrite lookup_delete_ne; [done|]. intros ->. congruence.
  - intros p [Hne Hp]%lookup_delete_Some. by apply H7.
Qed.

Lemma heap_unmap_run x B a d q s : heapx x B a s →
  (∀ p, q ≤ p < q + Z.of_nat d → m_map s !! p = Some true) →
  (∀ p v n, q ≤ p < q + Z.of_nat d → B !! v = Some n → ¬ (pg v ≤ p ≤ last_pg v n)) →
  heapx x B a (unmap_run d q s) ∧ m_mem (unmap_run d q s) = m_mem s ∧
  mptr (unmap_run d q s) = mptr s ∧
  ∀ p, p < q ∨ q + Z.of_nat d ≤ p → m_map (unmap_run d q s) !! p = m_map s !! p.
Proof.
  revert q s. induction d as [|d IH]; intros q s Hh Hin Hn; cbn [unmap_run]; [by split_and!|].
  destruct (IH (q + 1) (unmapped q s)) as (I1 & I2 & I3 & I4).
  - apply heap_unmapped; [done|apply Hin; lia|]. intros v n. apply Hn. lia.
  - intros p Hp. cbn. rewrite lookup_delete_ne by lia. apply Hin. lia.
  - intros p v n Hp. apply Hn. lia.
  - split_and!; [done..|]. intros p Hp. rewrite I4 by lia. cbn. by rewrite lookup_delete_ne by lia.
Qed.

(** Forgetting a block leaves its reference. *)
Lemma heap_forget B a s v n : heapx (λ _, 0) B a s → B !! v = Some n →
  heapx (at_page (last_pg v n) 1) (delete v B) a s.
Proof.
  intros [H1 H2 H3 H4 H5 H6 H7] Hv. split; try done.
  - intros v0 n0 [_ ?]%lookup_delete_Some. by apply H4.
  - intros v0 n0 v1 n1 [_ ?]%lookup_delete_Some [_ ?]%lookup_delete_Some. by apply H5.
  - intros Hal. destruct (H6 Hal) as (A1 & A2 & A3). split_and!; [done| |].
    + rewrite (cnt_delete B v n) by done. case_decide; lia.
    + intros v0 n0 [_ ?]%lookup_delete_Some. by apply A3.
  - intros p Hp. rewrite (cnt_delete B v n) by done. specialize (H7 p Hp). unfold at_page.
    destruct (decide (last_pg v n = p)); case_decide; try congruence; lia.
Qed.

Lemma block_range x B a s v n : heapx x B a s → B !! v = Some n →
  mbegin ≤ v ∧ (last_pg v n + 1) * PGSIZE ≤ mend ∧ pg v ≤ last_pg v n ∧ mbegin ≤ pg v * PGSIZE.
Proof.
  intros Hh Hv. pose proof (h_blk x B a s Hh v n Hv) as Hk. pose proof (b_size s v n Hk).
  pose proof (block_page s v n v Hk ltac:(lia)) as Hp.
  pose proof (block_mapped s v n v Hk ltac:(lia)) as Hm.
  pose proof (h_range x B a s Hh _ _ Hm) as [? _]. pose proof (h_range x B a s Hh _ _ (b_last s v n Hk)).
  pose proof (pg_spec v). lia.
Qed.

Lemma npages : Z.of_nat NPAGES = 32768.
Proof. unfold NPAGES. by rewrite Z2Nat.id. Qed.

Lemma free_run v d s : mbegin ≤ v → (pg v + Z.of_nat d) * PGSIZE < mend → mbegin ≤ pg v * PGSIZE →
  (∀ p, pg v ≤ p < pg v + Z.of_nat d → m_map s !! p = Some true) →
  m_map s !! (pg v + Z.of_nat d) = Some false →
  free v s = drop_ref ((pg v + Z.of_nat d) * PGSIZE) (unmap_run d (pg v) s).
Proof.
  intros Hlo Hhi Hplo Hin Hend. unfold free.
  rewrite (proj2 (Z.eqb_neq v 0)) by (unfold mbegin in Hlo; lia).
  replace ((mbegin <=? v) && (v <? mend)) with true
    by (symmetry; pose proof (pg_spec v); unfold mbegin, mend, PGSIZE in *; lia).
  cbn [assert_]. unfold mbind at 1, M_bind at 1. cbn [mret M_ret].
  replace (ROUNDDOWN v PGSIZE) with (pg v * PGSIZE) by (unfold ROUNDDOWN, pg, PGSIZE; zlia).
  pose proof npages. erewrite h_run by (apply (free_loop_ok d); [unfold mbegin, mend, PGSIZE in *; lia|done|done|done|done]).
  reflexivity.
Qed.

(** free of a live block. *)
Lemma free_ok B s v n : heap B s → B !! v = Some n →
  ∃ s', free v s = Ret tt s' ∧ heap (delete v B) s' ∧ mptr s' = mptr s ∧ kept (delete v B) s s'.
Proof.
  intros Hh Hv. destruct (block_range _ _ _ s v n Hh Hv) as (Hr1 & Hr2 & Hr3 & Hr4).
  pose proof (h_blk _ _ _ s Hh v n Hv) as Hk.
  set (d := Z.to_nat (last_pg v n - pg v)).
  assert (Hd : pg v + Z.of_nat d = last_pg v n) by (unfold d; lia).
  assert (Hin : ∀ p, pg v ≤ p < pg v + Z.of_nat d → m_map s !! p = Some true)
    by (intros p Hp; apply (b_inner s v n Hk); lia).
  rewrite (free_run v d s); [|done|unfold PGSIZE in *; lia|done|done|rewrite Hd; apply Hk].
  destruct (heap_unmap_run (at_page (last_pg v n) 1) (delete v B) (mptr s) d (pg v) s)
    as (I1 & I2 & I3 & I4); [by apply heap_forget|done| |].
  { intros p v' n' Hp [Hne Hv']%lookup_delete_Some. apply (inner_own _ B _ s v n v' n' p Hh); try done; lia. }
  rewrite Hd. destruct (drop_ref_ok (delete v B) (mptr s) (unmap_run d (pg v) s) (last_pg v n) I1)
    as (s' & Hs' & Hh' & Hp' & Hk'); [rewrite I4 by lia; apply Hk|].
  exists s'. split_and!; [exact Hs'| |congruence|].
  - unfold heap. by rewrite Hp', I3.
  - intros v0 n0 b H0 Hb. rewrite (Hk' v0 n0 b H0 Hb). by rewrite I2.
Qed.

(** *** malloc: the search *)

Lemma isfree_spec v n s : isfree v n s = true → v mod PGSIZE = 0 → 0 ≤ v + n < 2 ^ 64 →
  ∀ i, 0 ≤ i < (n + PGSIZE - 1) / PGSIZE → v + i * PGSIZE < mend ∧ m_map s !! (pg v + i) = None.
Proof.
  change (2 ^ 64) with 18446744073709551616.
  unfold isfree. intros Hf Hv Hw i Hi. rewrite u64_id in Hf by lia. cbv zeta in Hf. rewrite forallb_forall in Hf.
  assert (Hs : i ∈ seqZ 0 ((v + n - v + PGSIZE - 1) / PGSIZE)) by (replace (v + n - v) with n by lia; apply elem_of_seqZ; lia).
  apply list_elem_of_In in Hs. specialize (Hf i Hs).
  apply andb_true_iff in Hf as [H1%negb_true_iff%Z.leb_gt H2%negb_true_iff%bool_decide_eq_false].
  split; [done|]. replace (pg v + i) with (pg (v + i * PGSIZE)) by (unfold pg, PGSIZE in *; zlia).
  by apply eq_None_not_Some.
Qed.

(** An address range that wraps is free, one past the arena is not. *)
Lemma isfree_wrap v n s : v < 2 ^ 64 ≤ v + n → n ≤ 2 ^ 63 → isfree v n s = true.
Proof.
  change (2 ^ 64) with 18446744073709551616. change (2 ^ 63) with 9223372036854775808. intros Hv Hn. unfold isfree.
  assert (u64 (v + n) = v + n - 18446744073709551616) as ->.
  { unfold u64. change (2 ^ 64) with 18446744073709551616. symmetry. apply (Zmod_unique _ _ 1); lia. }
  rewrite seqZ_nil; [done|]. unfold PGSIZE. zlia.
Qed.

Lemma isfree_past v n s : mend ≤ v → 1 ≤ n → v + n < 2 ^ 64 → v mod PGSIZE = 0 → isfree v n s = false.
Proof.
  intros Hv Hn Hw Hal. destruct (isfree v n s) eqn:Hf; [|done]. unfold mend in *.
  destruct (isfree_spec v n s Hf Hal) with (i := 0) as [? _]; unfold mend, PGSIZE in *; [lia|zlia|lia].
Qed.

(** The loop with its rounds counted. *)
Fixpoint loop_rounds {X Y} (k : nat) (step : X → X + Y) (x : X) : X + Y :=
  match k with O => inl x | S k' => match step x with inl x' => loop_rounds k' step x' | r => r end end.

Lemma loop_rounds_add {X Y} i j (step : X → X + Y) x :
  loop_rounds (i + j) step x = match loop_rounds i step x with inl x' => loop_rounds j step x' | r => r end.
Proof. revert x. induction i as [|i IH]; intros x; cbn; [done|]. destruct (step x); [apply IH|done]. Qed.

Lemma loop_pow_rounds {X Y} k (step : X → X + Y) x : loop_pow k step x = loop_rounds (2 ^ k) step x.
Proof.
  revert x. induction k as [|k IH]; intros x; cbn [loop_pow]; [cbn; by destruct (step x)|].
  replace (2 ^ S k)%nat with (2 ^ k + 2 ^ k)%nat by (cbn; lia). rewrite loop_rounds_add, IH. destruct (loop_rounds (2 ^ k) step x); [apply IH|done].
Qed.

Lemma loop_rounds_enough {X Y} k (step : X → X + Y) x y j : loop_rounds k step x = inr y → (k ≤ j)%nat → loop_rounds j step x = inr y.
Proof. intros Hk Hj. replace j with (k + (j - k))%nat by lia. by rewrite loop_rounds_add, Hk. Qed.

(** Fewer than 2^53 rounds are all that search needs. *)
Lemma search_run n s k ok s' : Z.of_nat k ≤ 2 ^ 53 → loop_rounds k (search_step n) (0, s) = inr (ok, s') → search n s = Ret ok s'.
Proof.
  intros Hk Hr. unfold search. rewrite loop_pow_rounds, (loop_rounds_enough k _ _ (ok, s')); [done|done|].
  apply Nat2Z.inj_le. rewrite Nat2Z.inj_pow. change (Z.of_nat SEARCH_POW) with 53. change (Z.of_nat 2) with 2. done.
Qed.

Definition aligned_in (a : Z) : Prop := a mod PGSIZE = 0 ∧ mbegin ≤ a < mend.

Lemma set_mptr_id s : set_mptr (mptr s) s = s.
Proof. by destruct s. Qed.

Lemma search_rounds fuel nwrap n s : aligned_in (mptr s) → 0 ≤ nwrap ≤ 1 →
  (mend - mptr s) / PGSIZE + (1 - nwrap) * 32768 ≤ Z.of_nat fuel →
  ∃ ok a, loop_rounds fuel (search_step n) (nwrap, s) = inr (ok, set_mptr a s) ∧ aligned_in a ∧
    (ok = true → isfree a (n + 4) s = true).
Proof.
  revert nwrap s. induction fuel as [|fuel IH]; intros nwrap s [Hal Hr] Hw Hf; cbn [loop_rounds search_step].
  { exfalso. unfold mbegin, mend, PGSIZE in *. zlia. }
  destruct (isfree (mptr s) (n + 4) s) eqn:Hfree.
  { exists true, (mptr s). rewrite set_mptr_id. by split_and!. }
  rewrite u64_id by (unfold mbegin, mend, PGSIZE in *; lia). cbn [mptr set_mptr].
  destruct (Z.eqb_spec (mptr s + PGSIZE) mend) as [He|Hne].
  - change (set_mptr mbegin (set_mptr _ s)) with (set_mptr mbegin s).
    destruct (Z.eqb_spec (nwrap + 1) 2).
    + exists false, mbegin. split_and!; [done| |done]. split; done.
    + destruct (IH (nwrap + 1) (set_mptr mbegin s)) as (ok & a & H1 & H2 & H3).
      * split; done.
      * lia.
      * cbn [mptr set_mptr]. unfold mbegin, mend, PGSIZE in *. zlia.
      * exists ok, a. split_and!; [exact H1|done|exact H3].
  - destruct (IH nwrap (set_mptr (mptr s + PGSIZE) s)) as (ok & a & H1 & H2 & H3).
    + split; cbn [mptr set_mptr]; unfold mbegin, mend, PGSIZE in *; zlia.
    + lia.
    + cbn [mptr set_mptr]. unfold mbegin, mend, PGSIZE in *. zlia.
    + exists ok, a. split_and!; [exact H1|done|exact H3].
Qed.

(** Two passes over the arena are enough. *)
Lemma search_ok n s : aligned_in (mptr s) →
  ∃ ok a, search n s = Ret ok (set_mptr a s) ∧ aligned_in a ∧ (ok = true → isfree a (n + 4) s = true).
Proof.
  intros Hal. destruct (search_rounds (2 * NPAGES) 0 n s Hal) as (ok & a & H1 & H2 & H3); [lia| |].
  { pose proof npages. destruct Hal. unfold mbegin, mend, PGSIZE in *. zlia. }
  exists ok, a. split_and!; [|done|done]. apply (search_run n s (2 * NPAGES)); [|done].
  pose proof npages. change (2 ^ 53) with 9007199254740992. lia.
Qed.

(** From past the arena the search goes on to the end of the address space: the
    wrap test is an equality.  It ends where the range wraps, or at null. *)
Lemma search_far fuel nwrap n s : 1 ≤ n < MAXMALLOC → mptr s mod PGSIZE = 0 → mend ≤ mptr s < 2 ^ 64 →
  m_map s !! 0 = None → (2 ^ 64 - mptr s) / PGSIZE < Z.of_nat fuel →
  ∃ a, loop_rounds fuel (search_step n) (nwrap, s) = inr (true, set_mptr a s) ∧
    (a = 0 ∧ n + 4 < PGSIZE ∨ 2 ^ 64 - MAXMALLOC - PGSIZE ≤ a < 2 ^ 64).
Proof.
  change (2 ^ 64) with 18446744073709551616. intros Hn. revert s.
  induction fuel as [|fuel IH]; intros s Hal Hr H0 Hf.
  { exfalso. unfold PGSIZE in *. zlia. }
  cbn [loop_rounds search_step]. destruct (Z.ltb_spec (mptr s + (n + 4)) 18446744073709551616) as [Hlt|Hge].
  2: { rewrite isfree_wrap by (unfold MAXMALLOC in *; pow2; lia). exists (mptr s). rewrite set_mptr_id.
       split; [done|right]. unfold MAXMALLOC, PGSIZE in *. lia. }
  rewrite isfree_past by (pow2; lia || done). cbn [mptr set_mptr].
  destruct (decide (mptr s + PGSIZE = 18446744073709551616)) as [He|Hne].
  - rewrite He. change (u64 18446744073709551616) with 0. change (0 =? mend) with false. cbn match.
    destruct fuel as [|fuel]; [exfalso; unfold PGSIZE in *; zlia|]. cbn [loop_rounds search_step mptr set_mptr].
    exists 0. unfold isfree. rewrite u64_id by (unfold MAXMALLOC in *; lia).
    replace ((0 + (n + 4) - 0 + PGSIZE - 1) / PGSIZE) with 1 by (unfold PGSIZE in *; zlia).
    change (seqZ 0 1) with [0]. cbn [forallb]. change (pg (0 + 0 * PGSIZE)) with 0.
    cbn [m_map set_mptr]. rewrite H0. split; [done|left; lia].
  - rewrite u64_id by (unfold mend, PGSIZE in *; zlia).
    rewrite (proj2 (Z.eqb_neq _ mend)) by (unfold PGSIZE in *; lia).
    destruct (IH (set_mptr (mptr s + PGSIZE) s)) as (a & Ha & Hx);
      cbn [mptr set_mptr m_map]; [unfold PGSIZE in *; zlia|unfold mend, PGSIZE in *; zlia|done|unfold PGSIZE in *; zlia|].
    by exists a.
Qed.

(** *** malloc: the pages of a chunk *)

(** [k] pages from [b] on, of a chunk of [K]. *)
Fixpoint map_run (b : Z) (K k : nat) (s : MState) : MState :=
  match k with
  | O => s
  | S k' =>
      let s' := map_run b K k' s in
      set_m_pages (m_pages s' - 1)
        (set_m_map (<[b + Z.of_nat k' := bool_decide (S k' < K)%nat]> (m_map s')) s')
  end.

Lemma map_run_spec b K k s :
  m_mem (map_run b K k s) = m_mem s ∧ mptr (map_run b K k s) = mptr s ∧
  ∀ p, m_map (map_run b K k s) !! p =
    if decide (b ≤ p < b + Z.of_nat k) then Some (bool_decide (p - b + 1 < Z.of_nat K)) else m_map s !! p.
Proof.
  induction k as [|k (I1 & I2 & I3)]; cbn [map_run set_m_pages set_m_map m_mem mptr m_map].
  - split_and!; [done..|]. intros p. rewrite decide_False by lia. done.
  - split_and!; [done..|]. intros p. destruct (decide (p = b + Z.of_nat k)) as [->|Hne].
    + rewrite lookup_insert_eq, decide_True by lia. f_equal. apply bool_decide_ext. lia.
    + rewrite lookup_insert_ne, I3 by done. destruct (decide (b ≤ p < b + Z.of_nat k)).
      * by rewrite decide_True by lia.
      * by rewrite decide_False by lia.
Qed.

Lemma unmap_new q f s : m_map s !! q = None →
  unmapped q (set_m_pages (m_pages s - 1) (set_m_map (<[q := f]> (m_map s)) s)) = s.
Proof.
  destruct s as [m mp n a]. intros Hq. cbn in Hq. unfold unmapped, set_m_pages, set_m_map.
  cbn [m_mem m_map m_pages mptr]. rewrite delete_insert_id by done. by replace (n - 1 + 1) with n by lia.
Qed.

Lemma unwind_run b K k s : (∀ p, b ≤ p ≤ b + Z.of_nat k → m_map s !! p = None) →
  unwind k (b * PGSIZE) (map_run b K (S k) s) = Ret tt s.
Proof.
  induction k as [|k IH]; intros Hn.
  - cbn [unwind]. replace (b * PGSIZE + Z.of_nat 0 * PGSIZE) with (b * PGSIZE) by lia.
    erewrite h_run by (eapply unmap_ok; cbn; rewrite Z.add_0_r; apply lookup_insert_eq).
    cbn [mret M_ret map_run]. f_equal. replace (b + Z.of_nat 0) with b by lia. apply unmap_new, Hn. lia.
  - cbn [unwind]. replace (b * PGSIZE + Z.of_nat (S k) * PGSIZE) with ((b + Z.of_nat (S k)) * PGSIZE) by lia.
    erewrite h_run by (eapply unmap_ok; cbn [map_run set_m_pages set_m_map m_map]; apply lookup_insert_eq).
    assert (He : unmapped (b + Z.of_nat (S k)) (map_run b K (S (S k)) s) = map_run b K (S k) s).
    { destruct (map_run_spec b K (S k) s) as (_ & _ & Hl).
      change (map_run b K (S (S k)) s) with
        (let s1 := map_run b K (S k) s in set_m_pages (m_pages s1 - 1)
          (set_m_map (<[b + Z.of_nat (S k) := bool_decide (S (S k) < K)%nat]> (m_map s1)) s1)).
      cbv zeta. apply unmap_new. rewrite Hl, decide_False by lia. apply Hn. lia. }
    rewrite He. apply IH. intros. apply Hn. lia.
Qed.

Lemma unwind_ok b K k s : (∀ p, b ≤ p ≤ b + Z.of_nat k → m_map s !! p = None) →
  unwind k (b * PGSIZE) (map_run b K k s) = Ret tt s.
Proof.
  intros Hn. destruct (map_run_spec b K k s) as (_ & _ & Hl).
  assert (Hu : sys_page_unmap_m (b * PGSIZE + Z.of_nat k * PGSIZE) (map_run b K k s) = Ret tt (map_run b K k s)).
  { unfold sys_page_unmap_m, modify. rewrite <- Z.mul_add_distr_r, pg_page, Hl.
    rewrite decide_False by lia. by rewrite Hn by lia. }
  destruct k as [|k]; cbn [unwind]; (erewrite h_run by exact Hu); [done|].
  apply unwind_run. intros. apply Hn. lia.
Qed.

Lemma alloc_loop_ok fuel k b n s : mptr s = b * PGSIZE → 0 ≤ n →
  let K := Z.to_nat ((n + 4 + PGSIZE - 1) / PGSIZE) in
  (∀ p, b ≤ p < b + Z.of_nat K → m_map s !! p = None) → (b + Z.of_nat K) * PGSIZE ≤ mend → (k ≤ K ≤ k + fuel)%nat →
  alloc_loop fuel k n (map_run b K k s) = Ret (Some K) (map_run b K K s) ∨
  alloc_loop fuel k n (map_run b K k s) = Ret None s.
Proof.
  intros Hp Hn K. revert k. induction fuel as [|fuel IH]; intros k Hfree Hend Hk; cbn [alloc_loop].
  { left. replace k with K by lia. rewrite (proj2 (Z.ltb_ge _ _)); [done|]. unfold K, PGSIZE. zlia. }
  assert (HK : Z.of_nat K = (n + 4 + PGSIZE - 1) / PGSIZE) by (unfold K, PGSIZE; zlia).
  destruct (Z.ltb_spec (Z.of_nat k * PGSIZE) (n + 4)) as [Hlt|Hge].
  - assert (HkK : (k < K)%nat) by (unfold PGSIZE in *; zlia).
    destruct (map_run_spec b K k s) as (_ & Hm & Hl). rewrite h_get, Hm, Hp.
    unfold sys_page_alloc_m. rewrite <- Z.mul_add_distr_r, pg_page.
    assert (Hu : KState.UTOP <? (b + Z.of_nat k) * PGSIZE = false).
    { apply Z.ltb_ge. assert (mend < KState.UTOP) by done. unfold PGSIZE in *. lia. }
    rewrite Hu.
    destruct (Z.leb_spec (m_pages (map_run b K k s)) 0).
    + right. erewrite h_run by (rewrite h_get; rewrite (proj2 (Z.leb_le _ _)) by done; reflexivity).
      change (-4 <? 0) with true. cbn match. erewrite h_run by (apply unwind_ok; intros; apply Hfree; lia).
      done.
    + erewrite h_run by (rewrite h_get; rewrite (proj2 (Z.leb_gt _ _)) by done; reflexivity).
      change (0 <? 0) with false. cbn match.
      replace (Z.of_nat k * PGSIZE + PGSIZE <? n + 4) with (bool_decide (S k < K)%nat).
      * apply (IH (S k) Hfree); [done|lia].
      * apply Bool.eq_true_iff_eq. rewrite bool_decide_eq_true, Z.ltb_lt. unfold PGSIZE in *. zlia.
  - left. replace k with K by (unfold PGSIZE in *; zlia). done.
Qed.

(** *** malloc: the new block *)

Lemma heap_leave B a a' s : heapx (λ _, 0) B a s → a mod PGSIZE ≠ 0 → a' mod PGSIZE = 0 →
  mbegin ≤ a' < mend → heapx (at_page (pg a) 1) B a' s.
Proof.
  intros [H1 H2 H3 H4 H5 H6 H7] Ha Ha' Hr. split; try done.
  - split; [by right|]. unfold PGSIZE in Ha'. zlia.
  - intros p Hp. specialize (H7 p Hp). unfold act in *.
    rewrite (decide_False (P := a' mod PGSIZE ≠ 0 ∧ pg a' = p)) by tauto. unfold at_page.
    destruct (decide (p = pg a)) as [->|Hne]; [rewrite decide_True in H7 by done|rewrite decide_False in H7 by (intros [_ He]; by symmetry in He)]; lia.
Qed.

Lemma heap_move x B a a' s : heapx x B a s → a mod PGSIZE = 0 → a' mod PGSIZE = 0 →
  mbegin ≤ a' < mend → heapx x B a' s.
Proof.
  intros [H1 H2 H3 H4 H5 H6 H7] Ha Ha' Hr. split; try done.
  - split; [by right|]. unfold PGSIZE in Ha'. zlia.
  - intros p Hp. specialize (H7 p Hp). unfold act in *. rewrite decide_False in H7 by tauto.
    by rewrite decide_False by tauto.
Qed.

Lemma heap_set_mptr x B a b s : heapx x B a s → heapx x B a (set_mptr b s).
Proof.
  intros [H1 H2 H3 H4 H5 H6 H7]. split; try done. intros v n Hv. destruct (H4 v n Hv). by split.
Qed.

(** Pages that are not mapped are away from every block. *)
Lemma block_apart x B a s v n b K : heapx x B a s → B !! v = Some n → 0 < K →
  (∀ p, b ≤ p < b + K → m_map s !! p = None) → last_pg v n < b ∨ b + K ≤ pg v.
Proof.
  intros Hh Hv HK Hn. pose proof (h_blk x B a s Hh v n Hv) as Hk.
  assert (Hmap : ∀ p, pg v ≤ p ≤ last_pg v n → m_map s !! p ≠ None).
  { intros p Hp. destruct (decide (p = last_pg v n)) as [->|].
    - by rewrite (b_last s v n Hk).
    - by rewrite (b_inner s v n Hk p) by lia. }
  destruct (decide (last_pg v n < b)); [by left|]. right.
  destruct (decide (pg v < b)) as [Hlt|].
  - by destruct (Hmap b); [lia|apply Hn; lia].
  - destruct (decide (pg v < b + K)) as [Hlt|]; [|lia].
    pose proof (block_range x B a s v n Hh Hv). by destruct (Hmap (pg v)); [lia|apply Hn; lia].
Qed.

Lemma cnt_unmapped x B a s p : heapx x B a s → m_map s !! p ≠ Some false → cnt B p = 0.
Proof.
  intros Hh Hp. apply cnt_zero. intros v n Hv He. apply Hp. rewrite <- He.
  by apply (h_blk x B a s Hh).
Qed.

(** A chunk of [K] new pages for a block of [n] bytes. *)
Lemma heap_fresh B s b n : heapx (λ _, 0) B (b * PGSIZE) s → 1 ≤ n → n mod 4 = 0 →
  let K := Z.to_nat ((n + 4 + PGSIZE - 1) / PGSIZE) in
  mbegin ≤ b * PGSIZE → (b + Z.of_nat K) * PGSIZE ≤ mend →
  (∀ p, b ≤ p < b + Z.of_nat K → m_map s !! p = None) →
  let s1 := map_run b K K s in
  let v := b * PGSIZE in
  heapx (λ _, 0) (<[v := n]> B) (v + n)
    (set_m_mem (st32 (m_mem s1) (ref_va (b + Z.of_nat K - 1)) 2) s1) ∧ B !! v = None.
Proof.
  intros Hh Hn Hn4 K Hlo Hhi Hfree s1 v. destruct (map_run_spec b K K s) as (Hm & _ & Hl). fold s1 in Hm, Hl.
  assert (HK : Z.of_nat K = (n + 3) / PGSIZE + 1) by (unfold K, PGSIZE; zlia).
  assert (HK0 : 0 < Z.of_nat K) by (rewrite HK; unfold PGSIZE; zlia).
  assert (Hlast : last_pg v n = b + Z.of_nat K - 1) by (rewrite HK; unfold last_pg, v, PGSIZE; zlia).
  assert (Hpgv : pg v = b) by apply pg_page.
  assert (HvB : B !! v = None).
  { destruct (B !! v) as [m|] eqn:Hv; [|done]. pose proof (block_range _ B _ s v m Hh Hv).
    destruct (block_apart _ B _ s v m b (Z.of_nat K) Hh Hv) as [?|?]; [lia|done|lia|lia]. }
  assert (Hc0 : cnt B (last_pg v n) = 0)
    by (apply (cnt_unmapped _ B _ s _ Hh); rewrite Hfree by lia; done).
  assert (Hact : ∀ p, p ≠ last_pg v n → act (v + n) p = 0).
  { intros p Hp. unfold act. apply decide_False. intros [Hal He]. apply Hp. rewrite <- He.
    unfold pg, last_pg, v, PGSIZE in *. zlia. }
  assert (Hapart : ∀ v0 n0, B !! v0 = Some n0 → v0 + n0 ≤ v ∨ (last_pg v n + 1) * PGSIZE ≤ v0).
  { intros v0 n0 Hv0. pose proof (last_pg_spec v0 n0). pose proof (pg_spec v0).
    rewrite Hlast.
    destruct (block_apart _ B _ s v0 n0 b (Z.of_nat K) Hh Hv0) as [?|?]; [lia|done|left|right];
      unfold v, PGSIZE in *; lia. }
  split; [|done]. destruct Hh as [H1 H2 H3 H4 H5 H6 H7].
  assert (Hbl : m_map s1 !! last_pg v n = Some false)
    by (rewrite Hl, decide_True by lia; f_equal; apply bool_decide_eq_false; lia).
  split; cbn [set_m_mem m_mem m_map].
  - rewrite Hm. by apply bytes_ok_stn.
  - intros p f. rewrite Hl. case_decide; [|by apply H2]. intros _. unfold PGSIZE in *. lia.
  - pose proof (last_pg_spec v n) as Hls. rewrite Hlast in Hls.
    split; [right; unfold v, PGSIZE in *; lia|unfold v, PGSIZE; zlia].
  - intros v0 n0 [[<- <-]|[Hne Hv0]]%lookup_insert_Some.
    + split; cbn [set_m_mem m_map]; [done|split; [unfold v, PGSIZE; zlia|done]| | |done].
      * intros _. by apply Z.mod_mul.
      * intros p Hp. rewrite Hl, decide_True by lia. f_equal. apply bool_decide_eq_true. lia.
    + destruct (H4 v0 n0 Hv0) as [B1 B2 B3 B4 B5]. split; cbn [set_m_mem m_map]; [done..| |].
      * intros p Hp. rewrite Hl. case_decide; [|by apply B4]. specialize (B4 p Hp). rewrite Hfree in B4; done.
      * rewrite Hl. case_decide; [|done]. rewrite Hfree in B5; done.
  - intros v0 n0 v1 n1 [[<- <-]|[Hne Hv0]]%lookup_insert_Some [[<- <-]|[Hne1 Hv1]]%lookup_insert_Some Hd; try done.
    + pose proof (last_pg_spec v n). destruct (Hapart v1 n1 Hv1); [by right|left]. rewrite Hlast in *. unfold v, PGSIZE in *. zlia.
    + pose proof (last_pg_spec v n). destruct (Hapart v0 n0 Hv0); [by left|right]. rewrite Hlast in *. unfold v, PGSIZE in *. zlia.
    + by apply (H5 v0 n0 v1 n1).
  - intros Hal. assert (Hpg : pg (v + n) = last_pg v n) by (unfold pg, last_pg, v, PGSIZE in *; zlia).
    rewrite Hpg. split_and!; [done| |].
    + rewrite cnt_insert, Hc0, decide_True by done. unfold PGSIZE. zlia.
    + intros v0 n0 [[<- <-]|[Hne Hv0]]%lookup_insert_Some; [by left|].
      destruct (Hapart v0 n0 Hv0); [left; lia|by right].
  - intros p Hp. unfold ref. cbn [set_m_mem m_mem]. rewrite <- Hlast. rewrite cnt_insert by done.
    destruct (decide (last_pg v n = p)) as [<-|Hne].
    + rewrite ref_st_eq by done. rewrite Hc0. pose proof (act_range (v + n) (last_pg v n)). lia.
    + rewrite ref_st_ne by done. rewrite Hact by done. rewrite Hm. fold (ref s p).
      assert (Hps : m_map s !! p = Some false).
      { rewrite Hl in Hp. case_decide; [|done]. injection Hp as Hp%bool_decide_eq_false. lia. }
      specialize (H7 p Hps). pose proof (act_range (b * PGSIZE) p). lia.
Qed.

(** A block of [n] bytes at [a], in the page being filled. *)
Lemma heap_grow B a s n : heapx (λ _, 0) B a s → a mod PGSIZE ≠ 0 → 1 ≤ n → n mod 4 = 0 →
  a / PGSIZE = (a + n - 1 + 4) / PGSIZE →
  heapx (λ _, 0) (<[a := n]> B) (a + n)
    (set_m_mem (st32 (m_mem s) (ref_va (pg a)) (ref s (pg a) + 1)) s) ∧
  B !! a = None ∧ 0 ≤ ref s (pg a) + 1 < 2 ^ 32.
Proof.
  intros Hh Hal Hn Hn4 Hfit. destruct (h_act _ B a s Hh Hal) as (A1 & A2 & A3).
  pose proof (h_ref _ B a s Hh (pg a) A1) as Hr. pose proof (cnt_nonneg B (pg a)).
  pose proof (pg_spec a) as Hpg. destruct (h_ptr _ B a s Hh) as [_ Ha4].
  assert (Hlast : last_pg a n = pg a) by (unfold last_pg, pg, PGSIZE in *; zlia).
  assert (Hact : act a (pg a) = 1) by (unfold act; by apply decide_True).
  assert (Hact' : ∀ p, act (a + n) p = act a p).
  { intros p. unfold act. apply decide_ext. unfold pg, PGSIZE in *. zlia. }
  assert (HB : B !! a = None).
  { destruct (B !! a) as [m|] eqn:Hv; [|done]. destruct (A3 a m Hv); [|lia].
    pose proof (b_size s a m (h_blk _ B a s Hh a m Hv)). lia. }
  assert (Hu : 0 ≤ ref s (pg a) + 1 < 2 ^ 32) by (unfold PGSIZE in *; pow2; zlia).
  split; [|done]. destruct Hh as [H1 H2 H3 H4 H5 H6 H7].
  split; cbn [set_m_mem m_mem m_map]; [by apply bytes_ok_stn|done| | | | |].
  - pose proof (H2 _ _ A1). split; [|zlia]. right. unfold PGSIZE in *. zlia.
  - intros v0 n0 [[<- <-]|[Hne Hv0]]%lookup_insert_Some.
    + split; cbn [set_m_mem m_map]; rewrite ?Hlast; [done|done|lia|intros; lia|done].
    + destruct (H4 v0 n0 Hv0). by split.
  - intros v0 n0 v1 n1 [[<- <-]|[Hne Hv0]]%lookup_insert_Some [[<- <-]|[Hne1 Hv1]]%lookup_insert_Some Hd; try done.
    + destruct (A3 v1 n1 Hv1); [by right|left]. unfold PGSIZE in *. zlia.
    + destruct (A3 v0 n0 Hv0); [by left|right]. unfold PGSIZE in *. zlia.
    + by apply (H5 v0 n0 v1 n1).
  - intros _. assert (Hp : pg (a + n) = pg a) by (unfold pg, PGSIZE in *; zlia). rewrite Hp. split_and!; [done| |].
    + rewrite cnt_insert, Hlast, decide_True by done. unfold pg, PGSIZE in *. zlia.
    + intros v0 n0 [[<- <-]|[Hne Hv0]]%lookup_insert_Some; [by left|].
      destruct (A3 v0 n0 Hv0); [left; lia|by right].
  - intros p Hp. rewrite ref_set, cnt_insert, Hact', Hlast by done.
    cbv beta in *. destruct (decide (pg a = p)) as [<-|Hne]; [lia|]. specialize (H7 p Hp). lia.
Qed.

(** What malloc returns: null, or a new block of the rounded size. *)
Definition malloc_post (B : gmap Z Z) (s : MState) (n v : Z) (s' : MState) : Prop :=
  kept B s s' ∧
  ((v = 0 ∧ heap B s') ∨
   (v ≠ 0 ∧ B !! v = None ∧ heap (<[v := ROUNDUP n 4]> B) s')).

Lemma roundup4 n : 1 ≤ n ≤ 2 ^ 64 - 4 →
  1 ≤ ROUNDUP n 4 ∧ ROUNDUP n 4 mod 4 = 0 ∧ n ≤ ROUNDUP n 4 < n + 4.
Proof. intros Hn. unfold ROUNDUP. change (2 ^ 64) with 18446744073709551616 in Hn. rewrite u64_id by lia. zlia. Qed.

Lemma malloc_fresh_ok B s n : heap B s → aligned_in (mptr s) → 1 ≤ n < MAXMALLOC → n mod 4 = 0 →
  ∃ v s', malloc_fresh n s = Ret v s' ∧ kept B s s' ∧
    ((v = 0 ∧ heap B s') ∨ (v ≠ 0 ∧ B !! v = None ∧ heap (<[v := n]> B) s')).
Proof.
  intros Hh Hal Hn Hn4. unfold malloc_fresh.
  destruct (search_ok n s Hal) as (ok & a & Hs & [Ha1 Ha2] & Hfree).
  erewrite h_run by exact Hs. set (s1 := set_mptr a s).
  assert (Hh1 : heapx (λ _, 0) B a s1).
  { apply heap_set_mptr. destruct Hal. by apply (heap_move _ B (mptr s)); [..|unfold mend in *; lia]. }
  destruct ok; cbn [negb]; [|by exists 0, s1; split_and!; [..|left]].
  pose proof (isfree_spec a (n + 4) s (Hfree eq_refl) Ha1 ltac:(unfold mbegin, mend, MAXMALLOC in *; pow2; lia)) as Hfr.
  set (K := Z.to_nat ((n + 4 + PGSIZE - 1) / PGSIZE)) in *.
  assert (HK : Z.of_nat K = (n + 4 + PGSIZE - 1) / PGSIZE) by (unfold K, PGSIZE; zlia).
  assert (Hb : a = pg a * PGSIZE) by (unfold pg, PGSIZE in *; zlia).
  assert (Hun : ∀ p, pg a ≤ p < pg a + Z.of_nat K → m_map s1 !! p = None).
  { intros p Hp. destruct (Hfr (p - pg a)) as [_ H]; [lia|]. by replace (pg a + (p - pg a)) with p in H by lia. }
  assert (Hhi : (pg a + Z.of_nat K) * PGSIZE ≤ mend).
  { destruct (Hfr (Z.of_nat K - 1)) as [H _]; [unfold PGSIZE in *; zlia|].
    rewrite Hb in H. unfold mend, PGSIZE in *. lia. }
  destruct (alloc_loop_ok CHUNK_PAGES 0 (pg a) n s1 Hb) as [Hrun|Hrun]; [lia|exact Hun|exact Hhi| |
    cbn [map_run] in Hrun..].
  { fold K. assert (Z.of_nat CHUNK_PAGES = 257) by done. unfold MAXMALLOC, PGSIZE in *. zlia. }
  2: { erewrite h_run by exact Hrun. exists 0, s1. split_and!; [done|done|by left]. }
  fold K in Hrun. erewrite h_run by exact Hrun. cbn match. rewrite h_get.
  destruct (map_run_spec (pg a) K K s1) as (Hm2 & Hp2 & Hl2). set (s2 := map_run (pg a) K K s1) in *.
  rewrite Hp2. cbn [s1 mptr set_mptr].
  assert (Hlast : m_map s2 !! (pg a + Z.of_nat K - 1) = Some false).
  { assert (0 < Z.of_nat K) by (rewrite HK; unfold PGSIZE; zlia).
    rewrite Hl2, decide_True by lia. f_equal. apply bool_decide_eq_false. lia. }
  replace (a + Z.of_nat K * PGSIZE - 4) with ((pg a + Z.of_nat K - 1) * PGSIZE + PGSIZE - 4) by (unfold PGSIZE in *; lia).
  erewrite h_run by (eapply store_ref_ok, Hlast).
  destruct (heap_fresh B s1 (pg a) n) as [Hnew HBv]; [by rewrite <- Hb|lia|done|rewrite <- Hb; lia|exact Hhi|exact Hun|].
  fold K s2 in Hnew. rewrite <- Hb in Hnew, HBv.
  eexists a, _. split; [reflexivity|]. split.
  - intros v0 n0 x Hv0 Hx. cbn [set_mptr set_m_mem m_mem]. rewrite ldb_stn_out; [by rewrite Hm2|].
    assert (HkB : block_ok s2 v0 n0).
    { pose proof (h_blk _ _ _ _ Hnew v0 n0) as Hk. rewrite lookup_insert_ne in Hk by congruence.
      destruct (Hk Hv0). by split. }
    apply (ref_out s2 v0 n0 x (pg a + Z.of_nat K - 1) HkB Hlast Hx).
  - right. split_and!; [unfold mbegin in Ha2; lia|done|]. by apply heap_set_mptr.
Qed.

(** [mptr] is in the last page of the arena and the chunk does not fit there. *)
Definition stuck (s : MState) (n : Z) : Prop :=
  mptr s mod PGSIZE ≠ 0 ∧ mend - PGSIZE ≤ mptr s ∧
  mptr s / PGSIZE ≠ (mptr s + ROUNDUP n 4 - 1 + 4) / PGSIZE.

Lemma heap_start B s : heap B s → heap B (if mptr s =? 0 then set_mptr mbegin s else s).
Proof.
  intros Hh. destruct (Z.eqb_spec (mptr s) 0) as [H0|]; [|done]. apply heap_set_mptr.
  unfold heap in Hh. rewrite H0 in Hh. by apply (heap_move _ B 0).
Qed.

Lemma free_ptr B s : heap B s → mptr s mod PGSIZE ≠ 0 → mptr s < mend - PGSIZE →
  let a := ROUNDDOWN (mptr s + PGSIZE) PGSIZE in
  ∃ s', free (mptr s) s = Ret tt s' ∧ heap B (set_mptr a s') ∧ aligned_in a ∧ kept B s s'.
Proof.
  intros Hh Hal Hlt a. destruct (h_act _ B _ s Hh Hal) as (A1 & _ & _).
  pose proof (h_range _ B _ s Hh _ _ A1). pose proof (pg_spec (mptr s)).
  assert (Ha : a = (pg (mptr s) + 1) * PGSIZE) by (unfold a, ROUNDDOWN, pg, PGSIZE; zlia).
  assert (Hin : aligned_in a) by (rewrite Ha; unfold aligned_in, mbegin, mend, PGSIZE in *; zlia).
  rewrite (free_run (mptr s) 0 s); [|lia| |lia|intros; lia|by rewrite Z.add_0_r].
  2: { unfold mend, PGSIZE in *. zlia. }
  cbn [unmap_run]. rewrite Z.add_0_r.
  destruct (drop_ref_ok B a s (pg (mptr s))) as (s' & Hs' & Hh' & _ & Hk'); [|done|].
  { apply heap_leave; [done|done|apply Hin|]. destruct Hin. unfold mend in *. lia. }
  exists s'. split_and!; [done| |done|done]. by apply heap_set_mptr.
Qed.

Lemma malloc_ok B s n : heap B s → 1 ≤ n ≤ 2 ^ 64 - 4 → ¬ stuck s n →
  ∃ v s', malloc n s = Ret v s' ∧ malloc_post B s n v s'.
Proof.
  intros Hh0 Hn0 Hns. destruct (roundup4 n Hn0) as (Hn1 & Hn4 & _). unfold malloc. rewrite h_get.
  pose proof (heap_start B s Hh0) as Hh. set (s1 := if mptr s =? 0 then set_mptr mbegin s else s) in *.
  assert (Hrun : (when (mptr s =? 0) (modify (set_mptr mbegin)) : H unit) s = Ret tt s1)
    by (unfold s1; by destruct (mptr s =? 0)).
  assert (Hk1 : kept B s s1) by (unfold s1; by destruct (mptr s =? 0)).
  assert (Hns1 : ¬ stuck s1 n) by (unfold s1; destruct (mptr s =? 0); [by intros [? _]|done]).
  assert (Hpos : mptr s1 ≠ 0) by (unfold s1; destruct (Z.eqb_spec (mptr s) 0); done).
  erewrite h_run by exact Hrun. cbv zeta. set (m := ROUNDUP n 4) in *.
  destruct (Z.leb_spec MAXMALLOC m) as [Hbig|Hsmall].
  { exists 0, s1. split; [done|]. split; [done|]. by left. }
  rewrite h_get. destruct (h_ptr _ B _ s1 Hh) as [[|Hr] H4]; [done|].
  destruct (Z.eqb_spec (mptr s1 mod PGSIZE) 0) as [Hal|Hal]; cbn [negb].
  - destruct (malloc_fresh_ok B s1 m Hh) as (v & s' & Hs' & Hk & Hpost); [done|lia|done|].
    exists v, s'. split; [done|]. split; [by eapply kept_trans|done].
  - destruct (Z.eqb_spec (mptr s1 / PGSIZE) ((mptr s1 + m - 1 + 4) / PGSIZE)) as [Hfit|Hno].
    + destruct (heap_grow B (mptr s1) s1 m Hh Hal) as (Hh2 & HB & Hu); [lia|done|done|].
      destruct (h_act _ B _ s1 Hh Hal) as (A1 & _ & _).
      replace (ROUNDUP (mptr s1) PGSIZE - 4) with (pg (mptr s1) * PGSIZE + PGSIZE - 4)
        by (unfold ROUNDUP; rewrite u64_id by (unfold mbegin, mend, PGSIZE in *; lia);
            unfold pg, PGSIZE in *; zlia).
      erewrite h_run by (by eapply load_ref_ok). erewrite h_run by (by eapply store_ref_ok).
      rewrite u32_id by (pow2; lia). eexists (mptr s1), _. split; [reflexivity|]. split.
      * eapply kept_trans; [exact Hk1|]. by apply (kept_ref (λ _, 0) B (mptr s1) s1).
      * right. split_and!; [done|done|]. by apply heap_set_mptr.
    + assert (Hlt : mptr s1 < mend - PGSIZE)
        by (destruct (decide (mptr s1 < mend - PGSIZE)); [done|]; exfalso; apply Hns1; split_and!; [done|lia|done]).
      destruct (free_ptr B s1 Hh Hal Hlt) as (s2 & Hs2 & Hh2 & Hin & Hk2).
      erewrite h_run by exact Hs2. erewrite h_run by reflexivity.
      destruct (malloc_fresh_ok B _ m Hh2 Hin) as (v & s' & Hs' & Hk & Hpost); [lia|done|].
      exists v, s'. split; [done|]. split; [|done].
      eapply kept_trans; [exact Hk1|]. eapply kept_trans; [exact Hk2|exact Hk].
Qed.

(** The search runs off the end of the arena. *)
Definition runs_off (s : MState) (n : Z) : Prop := stuck s n ∧ ROUNDUP n 4 < MAXMALLOC.

(** The first page cannot be had. *)
Lemma alloc_none k n s r : 1 ≤ n + 4 → r < 0 →
  (∀ c, sys_page_alloc_m (mptr s) c s = Ret r s) → m_map s !! pg (mptr s) = None →
  alloc_loop (S k) 0 n s = Ret None s.
Proof.
  intros Hn Hr Hs Hm. cbn [alloc_loop]. rewrite (proj2 (Z.ltb_lt _ (n + 4))) by lia. rewrite h_get.
  change (Z.of_nat 0 * PGSIZE) with 0. rewrite Z.add_0_r. erewrite h_run by apply Hs.
  rewrite (proj2 (Z.ltb_lt r 0)) by done. cbv beta iota. erewrite h_run; [reflexivity|].
  cbn [unwind]. change (Z.of_nat 0 * PGSIZE) with 0. rewrite Z.add_0_r. erewrite h_run; [reflexivity|].
  unfold sys_page_unmap_m, modify. by rewrite Hm.
Qed.

(** There malloc goes around the whole address space, and fails. *)
Lemma fresh_far s n : 1 ≤ n < MAXMALLOC → mptr s = mend →
  (∀ p f, m_map s !! p = Some f → mbegin ≤ p * PGSIZE ∧ (p + 1) * PGSIZE ≤ mend) →
  ∃ s', malloc_fresh n s = Ret 0 s'.
Proof.
  intros Hn Hp Hmap. unfold malloc_fresh.
  assert (Hout : ∀ a, a < mbegin ∨ mend ≤ a → m_map s !! pg a = None).
  { intros a Ha. destruct (m_map s !! pg a) as [f|] eqn:E; [|done]. pose proof (Hmap _ _ E). pose proof (pg_spec a). lia. }
  assert (∃ k, Z.of_nat k = 4503599627370496) as [k Hk]
    by (exists (Z.to_nat 4503599627370496); apply Z2Nat.id; lia).
  destruct (search_far k 0 n s Hn) as (a & Ha & Hcase); rewrite ?Hp; [done|done|by apply (Hout 0); left| |].
  { rewrite Hk. by apply Z.ltb_lt. }
  apply search_run in Ha; [|rewrite Hk; done]. erewrite h_run by exact Ha. cbn [negb].
  destruct Hcase as [[-> Hsm]|Hfar].
  - destruct (Z.leb_spec (m_pages s) 0) as [Hp0|Hp0].
    + exists (set_mptr 0 s). erewrite h_run; [|apply (alloc_none _ _ _ (-4)); [lia|done| |by apply (Hout 0); left]]; [done|].
      intros c. unfold sys_page_alloc_m. rewrite h_get. cbn [set_mptr mptr m_pages]. change (KState.UTOP <? 0) with false.
      by rewrite (proj2 (Z.leb_le _ _)).
    + set (s2 := set_m_pages (m_pages s - 1) (set_m_map (<[pg 0 := (PGSIZE <? n + 4)]> (m_map s)) (set_mptr 0 s))).
      assert (Hrun : alloc_loop CHUNK_PAGES 0 n (set_mptr 0 s) = Ret (Some 1%nat) s2).
      { change CHUNK_PAGES with (S (S 255)). cbn [alloc_loop]. rewrite (proj2 (Z.ltb_lt _ (n + 4))) by lia. rewrite h_get.
        erewrite h_run; [|unfold sys_page_alloc_m; rewrite h_get; cbn [set_mptr mptr m_pages];
          change (KState.UTOP <? 0 + Z.of_nat 0 * PGSIZE) with false; rewrite (proj2 (Z.leb_gt _ _)) by done; reflexivity].
        change (0 <? 0) with false. cbv beta iota. by rewrite (proj2 (Z.ltb_ge _ _)) by lia. }
      erewrite h_run by exact Hrun. cbv beta iota. rewrite h_get. change (mptr s2) with 0.
      eexists. erewrite h_run; [reflexivity|]. apply (store_ref_ok s2 0 (PGSIZE <? n + 4)). apply lookup_insert_eq.
  - exists (set_mptr a s). change (2 ^ 64) with 18446744073709551616 in *.
    erewrite h_run; [|apply (alloc_none _ _ _ (-3)); [lia|done| |apply Hout; right; cbn [mptr set_mptr];
      unfold mend, MAXMALLOC, PGSIZE in *; lia]]; [done|].
    intros c. unfold sys_page_alloc_m. rewrite h_get. cbn [set_mptr mptr]. rewrite (proj2 (Z.ltb_lt _ _)); [done|].
    assert (KState.UTOP < 2 ^ 40) by done. change (2 ^ 40) with 1099511627776 in *. unfold MAXMALLOC, PGSIZE in *. lia.
Qed.

Lemma malloc_runs_off B s n : heap B s → 1 ≤ n ≤ 2 ^ 64 - 4 → runs_off s n → ∃ s', malloc n s = Ret 0 s'.
Proof.
  intros Hh Hn [(Hal & Hlo & Hno) Hsm]. destruct (roundup4 n Hn) as (Hn1 & Hn4 & _).
  destruct (h_act _ B _ s Hh Hal) as (A1 & _ & _). pose proof (h_range _ B _ s Hh _ _ A1) as Hrg.
  pose proof (pg_spec (mptr s)). destruct (h_ptr _ B _ s Hh) as [[Hz|Hr] _]; [by rewrite Hz in Hal|].
  unfold malloc. rewrite h_get. rewrite (proj2 (Z.eqb_neq (mptr s) 0)) by (unfold mbegin in *; lia).
  cbn [when]. erewrite h_run by reflexivity. cbv zeta. rewrite (proj2 (Z.leb_gt _ _)) by done.
  rewrite h_get, (proj2 (Z.eqb_neq _ 0)) by done. cbn [negb]. rewrite (proj2 (Z.eqb_neq _ _)) by done.
  destruct (drop_ref_ok B mbegin s (pg (mptr s))) as (s1 & Hs1 & Hh1 & _); [by apply heap_leave|done|].
  rewrite (h_run _ _ s tt s1).
  2: { rewrite (free_run (mptr s) 0 s); [|lia|unfold mend, PGSIZE in *; lia|lia|intros; lia|by rewrite Z.add_0_r].
       cbn [unmap_run]. by rewrite Z.add_0_r. }
  erewrite h_run by reflexivity.
  assert (He : ROUNDDOWN (mptr s + PGSIZE) PGSIZE = mend)
    by (unfold ROUNDDOWN, mend, mbegin, PGSIZE in *; zlia).
  rewrite He. apply fresh_far; [lia|done|apply (h_range _ _ _ _ Hh1)].
Qed.

(** The user writes to a block. *)
Lemma heap_write B s v n b x : heap B s → B !! v = Some n → v ≤ b < v + n →
  heap B (set_m_mem (stb (m_mem s) b x) s).
Proof.
  intros Hh Hv Hb. pose proof (h_blk _ B _ s Hh v n Hv) as Hk. unfold heap in *.
  destruct Hh as [H1 H2 H3 H4 H5 H6 H7]. split; cbn [set_m_mem m_mem m_map mptr]; try done.
  - by apply bytes_ok_stb.
  - intros v0 n0 Hv0. destruct (H4 v0 n0 Hv0). by split.
  - intros p Hp. replace (ref (set_m_mem _ s) p) with (ref s p); [by apply H7|].
    apply ldn_ext. intros c Hc. cbn [set_m_mem m_mem]. symmetry. apply ldb_stb_ne.
    pose proof (ref_out s v n b p Hk Hp Hb). lia.
Qed.

(** ** Programs over the heap *)

(** What a program may do: allocate, unless the search runs off the end of the
    arena; free a live block; write to a live block. *)
Inductive heap_step : gmap Z Z * MState → gmap Z Z * MState → Prop :=
  | step_malloc B s n v s' :
      1 ≤ n ≤ 2 ^ 64 - 4 → ¬ runs_off s n → malloc n s = Ret v s' →
      heap_step (B, s) (if v =? 0 then B else <[v := ROUNDUP n 4]> B, s')
  | step_free B s v n s' :
      B !! v = Some n → free v s = Ret tt s' → heap_step (B, s) (delete v B, s')
  | step_write B s v n b x :
      B !! v = Some n → v ≤ b < v + n → heap_step (B, s) (B, set_m_mem (stb (m_mem s) b x) s).

(** The arena before the first call. *)
Definition heap_init (s : MState) : Prop :=
  mptr s = 0 ∧ m_map s = ∅ ∧ bytes_ok (m_mem s).

Lemma heap_empty s : heap_init s → heap ∅ s.
Proof.
  intros (H1 & H2 & H3). unfold heap. rewrite H1. split; rewrite ?H2; try done; intros; try done.
  split; [by left|done].
Qed.

Lemma heap_step_inv x y : heap_step x y → heap x.1 x.2 → heap y.1 y.2.
Proof.
  intros [B s n v s' Hn Hoff Hrun|B s v n s' Hv Hrun|B s v n b c Hv Hb] Hh; cbn in *.
  - destruct (decide (stuck s n)) as [Hstk|Hns].
    + destruct (Z.leb_spec MAXMALLOC (ROUNDUP n 4)) as [Hbig|Hsm].
      * destruct Hstk as (Hal & _ & _). unfold malloc in Hrun. rewrite h_get in Hrun.
        rewrite (proj2 (Z.eqb_neq (mptr s) 0)) in Hrun by (intros H0; by rewrite H0 in Hal).
        cbn [when] in Hrun. erewrite h_run in Hrun by reflexivity. cbv zeta in Hrun.
        rewrite (proj2 (Z.leb_le _ _)) in Hrun by done. by injection Hrun as <- <-.
      * by destruct Hoff.
    + destruct (malloc_ok B s n Hh Hn Hns) as (v2 & s2 & H2 & _ & Hpost).
      assert (v2 = v ∧ s2 = s') as [-> ->] by (split; congruence).
      destruct Hpost as [[-> Hh']|(Hv & _ & Hh')]; [done|]. by rewrite (proj2 (Z.eqb_neq v 0)).
  - destruct (free_ok B s v n Hh Hv) as (s2 & H2 & Hh' & _). by replace s' with s2 by congruence.
  - by apply (heap_write B s v n b c).
Qed.

Lemma heap_reachable s0 B s : heap_init s0 → rtc heap_step (∅, s0) (B, s) → heap B s.
Proof.
  intros Hi%heap_empty Hr. change (heap (B, s).1 (B, s).2).
  revert Hi. change s0 with (∅ : gmap Z Z, s0).2 at 1. change (∅ : gmap Z Z) with (∅ : gmap Z Z, s0).1 at 1.
  induction Hr as [x|x y z Hst Hr IH]; [done|]. intros Hh. apply IH. by eapply heap_step_inv.
Qed.

(** C9. The heap is safe.  In every state that a program reaches by allocating,
    freeing live blocks and writing to live blocks: the live blocks lie in the
    arena on mapped pages and do not overlap; free of any of them returns; malloc
    returns null or a new block disjoint from all live ones; and neither changes a
    byte of the other live blocks, wherever their reference counts are kept.  The
    only exception is malloc when the page being filled is the last of the arena and
    the chunk does not fit in it. *)
Theorem heap_safe s0 B s :
  heap_init s0 → rtc heap_step (∅, s0) (B, s) →
  (∀ v n b, B !! v = Some n → v ≤ b < v + n → mbegin ≤ b < mend ∧ is_Some (m_map s !! pg b)) ∧
  (∀ v n v' n', B !! v = Some n → B !! v' = Some n' → v ≠ v' → v + n ≤ v' ∨ v' + n' ≤ v) ∧
  (∀ v n, B !! v = Some n → ∃ s', free v s = Ret tt s' ∧ kept (delete v B) s s') ∧
  (∀ n, 1 ≤ n ≤ 2 ^ 64 - 4 → ¬ stuck s n → ∃ v s', malloc n s = Ret v s' ∧ kept B s s' ∧
     (v ≠ 0 → ∀ v' n', B !! v' = Some n' → v + n ≤ v' ∨ v' + n' ≤ v)).
Proof.
  intros Hi Hr. pose proof (heap_reachable s0 B s Hi Hr) as Hh. split_and!.
  - intros v n b Hv Hb. pose proof (h_blk _ B _ s Hh v n Hv) as Hk.
    pose proof (block_mapped s v n b Hk Hb) as Hm. pose proof (h_range _ B _ s Hh _ _ Hm).
    pose proof (pg_spec b). rewrite Hm. split; [unfold PGSIZE in *; lia|done].
  - apply (h_disj _ B _ s Hh).
  - intros v n Hv. destruct (free_ok B s v n Hh Hv) as (s' & H1 & _ & _ & H2). by exists s'.
  - intros n Hn Hns. destruct (malloc_ok B s n Hh Hn Hns) as (v & s' & H1 & H2 & H3).
    exists v, s'. split_and!; [done|done|]. intros Hv0 v' n' Hv'. destruct H3 as [[? _]|(_ & HB & Hh')]; [done|].
    destruct (roundup4 n Hn) as (_ & _ & Hle).
    destruct (h_disj _ _ _ _ Hh' v (ROUNDUP n 4) v' n') as [?|?];
      [apply lookup_insert_eq|by rewrite lookup_insert_ne by congruence|congruence|left; lia|by right].
Qed.

(** C33. Termination of malloc.  In every state of the heap malloc returns, on every
    path.  Unless the page being filled is the last of the arena and the chunk does
    not fit in it, it returns null with the heap as it was, or a new block.  In that
    one situation [mptr] passes [mend], which the search tests for equality only: the
    search goes through the rest of the 64-bit address space, up to where the address
    range wraps, and malloc returns null. *)
Theorem malloc_returns B s n :
  heap B s → 1 ≤ n ≤ 2 ^ 64 - 4 →
  ∃ v s', malloc n s = Ret v s' ∧ (¬ runs_off s n → malloc_post B s n v s') ∧ (runs_off s n → v = 0).
Proof.
  intros Hh Hn. destruct (decide (stuck s n)) as [Hst|Hns].
  - destruct (Z.leb_spec MAXMALLOC (ROUNDUP n 4)) as [Hbig|Hsm].
    + exists 0, s. split_and!; [|by intros _; split; [|left]|done]. destruct Hst as (Hal & _ & _).
      unfold malloc. rewrite h_get, (proj2 (Z.eqb_neq (mptr s) 0)) by (intros H0; by rewrite H0 in Hal).
      cbn [when]. erewrite h_run by reflexivity. cbv zeta. by rewrite (proj2 (Z.leb_le _ _)) by done.
    + destruct (malloc_runs_off B s n Hh Hn) as (s' & H1); [done|]. exists 0, s'.
      split_and!; [done|by intros []|done].
  - destruct (malloc_ok B s n Hh Hn Hns) as (v & s' & H1 & H2). exists v, s'. split_and!; [done|done|by intros []].
Qed.

(** The rounding wraps: a request for nearly 2^64 bytes becomes one for none, and
    succeeds. *)
Theorem malloc_wraps n s : 2 ^ 64 - 3 ≤ n < 2 ^ 64 → malloc n s = malloc 0 s.
Proof.
  intros Hn. unfold malloc. assert (H0 : ROUNDUP n 4 = ROUNDUP 0 4); [|by rewrite H0].
  unfold ROUNDUP, u64. change (2 ^ 64) with 18446744073709551616 in *. zlia.
Qed.

(** ** A run *)

Definition ex_init : MState := mkM ∅ ∅ 8 0.

Lemma ex_init_ok : heap_init ex_init.
Proof. split_and!; [done|done|]. intros a. done. Qed.

(** After malloc(5): the first block of the arena. *)
Lemma ex_malloc : ∃ s, malloc 5 ex_init = Ret mbegin s ∧ rtc heap_step (∅, ex_init) ({[mbegin := 8]}, s).
Proof.
  destruct (malloc 5 ex_init) as [v s|x s|s] eqn:E;
    assert (Hc : match malloc 5 ex_init with Ret v _ => v = mbegin | _ => False end) by (by vm_compute);
    rewrite E in Hc; [|done..]. subst v. exists s. split; [done|].
  apply rtc_once. apply (step_malloc ∅ ex_init 5 mbegin s); [done| |exact E]. by intros [[H1 _] _].
Qed.

Lemma heap_safe_witness : ∃ s,
  (∀ b, mbegin ≤ b < mbegin + 8 → mbegin ≤ b < mend ∧ is_Some (m_map s !! pg b)) ∧
  ∃ s', free mbegin s = Ret tt s' ∧ kept (delete mbegin {[mbegin := 8]}) s s'.
Proof.
  destruct ex_malloc as (s & _ & Hr). exists s.
  destruct (heap_safe ex_init {[mbegin := 8]} s ex_init_ok Hr) as (H1 & _ & H3 & _). split.
  - intros b. apply (H1 mbegin 8 b). reflexivity.
  - apply (H3 mbegin 8). reflexivity.
Defined.

(** Four bytes are left in the last page of the arena. *)
Definition ex_last : MState :=
  mkM (st32 ∅ (mend - 4) 1) {[pg (mend - 8) := false]} 8 (mend - 8).

Lemma ex_last_ok : heap ∅ ex_last.
Proof.
  assert (Hp : ∀ p f, m_map ex_last !! p = Some f → p = 65535 ∧ f = false).
  { intros p f Hpf. cbn [ex_last m_map] in Hpf. change (pg (mend - 8)) with 65535 in Hpf.
    apply lookup_singleton_Some in Hpf as [<- <-]. done. }
  split.
  - apply (bytes_ok_stn 4). by intros a.
  - intros p f [-> _]%Hp. done.
  - split; [right|]; done.
  - intros v n Hv. by rewrite lookup_empty in Hv.
  - intros v n v' n' Hv. by rewrite lookup_empty in Hv.
  - intros _. split_and!; [done|done|]. intros v n Hv. by rewrite lookup_empty in Hv.
  - intros p [-> _]%Hp. by vm_compute.
Qed.

Lemma malloc_returns_witness : ∃ s', malloc 5 ex_last = Ret 0 s'.
Proof.
  destruct (malloc_returns ∅ ex_last 5 ex_last_ok) as (v & s' & Hrun & _ & Hoff); [done|].
  exists s'. rewrite Hoff in Hrun; [exact Hrun|]. split; [|done]. split_and!; [by vm_compute|by vm_compute|by vm_compute].
Defined.
