(* ===== verification/Args.v ===== *)
(** * Command-line arguments (lib/args.c)

    A string is the list of its bytes before the NUL.  [argv] holds the first
    [*argc] strings; the pointers after them are not read. *)
From stdpp Require Import list.
From S2P Require Import Prelude.

Notation cstring := (list Z).
Definition dash : Z := 45.

Record Argstate : Type := mkArgs
  { argv : list cstring; curarg : option cstring; argvalue_ : option cstring }.

Definition argc (a : Argstate) : Z := Z.of_nat (length (argv a)).

Definition argstart (v : list cstring) : Argstate :=
  mkArgs v (if 1 <? Z.of_nat (length v) then Some [] else None) None.

(** [memmove(argv + 1, argv + 2, ...)] and the decrement of [*argc]. *)
Definition shift (v : list cstring) : list cstring :=
  match v with a0 :: _ :: v' => a0 :: v' | _ => v end.

Definition argnext (a : Argstate) : Z * Argstate :=
  let take_flag (v : list cstring) (cur : cstring) :=
    match cur with
    | c :: cur' => (c, mkArgs v (Some cur') None)
    | [] => (0, mkArgs v (Some []) None)
    end in
  match curarg a with
  | None => (-1, mkArgs (argv a) None None)
  | Some [] =>
      match argv a with
      | _ :: (d :: c :: w) :: _ =>
          if d =? dash then
            let v := shift (argv a) in
            if (c =? dash) && bool_decide (w = []) then (-1, mkArgs v None None)
            else take_flag v (c :: w)
          else (-1, mkArgs (argv a) None None)
      | _ => (-1, mkArgs (argv a) None None)
      end
  | Some cur => take_flag (argv a) cur
  end.

Definition argnextvalue (a : Argstate) : option cstring * Argstate :=
  match curarg a with
  | None => (None, a)
  | Some (c :: w) => (Some (c :: w), mkArgs (argv a) (Some []) (Some (c :: w)))
  | Some [] =>
      match argv a with
      | _ :: w :: _ => (Some w, mkArgs (shift (argv a)) (Some []) (Some w))
      | _ => (None, mkArgs (argv a) None None)
      end
  end.

Definition argvalue (a : Argstate) : option cstring * Argstate :=
  match argvalue_ a with
  | Some w => (Some w, a)
  | None => argnextvalue a
  end.

(** ** The loop of a program

    [while ((i = argnext(&args)) >= 0)], calling argvalue for the flags of [takes]. *)
Section parsing.
Context (takes : Z → bool).

Fixpoint arg_loop (fuel : nat) (a : Argstate) : option (list (Z * option cstring) * Argstate) :=
  match fuel with
  | O => None
  | S fuel' =>
      let '(i, a) := argnext a in
      if i <? 0 then Some ([], a)
      else
        let '(v, a) := if takes i then argvalue a else (None, a) in
        '(out, a) ← arg_loop fuel' a;
        Some ((i, v) :: out, a)
  end.

(** ** The grammar of a command line

    [parses g ws out rest]: with [g] left of a group of flags and then the words
    [ws], the flags and values are [out] and the other arguments [rest]. *)
Definition is_flags (w : cstring) : bool :=
  match w with d :: _ :: _ => d =? dash | _ => false end.

Inductive parses : cstring → list cstring → list (Z * option cstring) → list cstring → Prop :=
  | p_end ws : match ws with [] => True | w :: _ => is_flags w = false end → parses [] ws [] ws
  | p_dashes ws : parses [] ([dash; dash] :: ws) [] ws
  | p_group c g ws out rest :
      c :: g ≠ [dash] → parses (c :: g) ws out rest → parses [] ((dash :: c :: g) :: ws) out rest
  | p_flag c g ws out rest :
      takes c = false → parses g ws out rest → parses (c :: g) ws ((c, None) :: out) rest
  | p_value c g ws out rest :
      takes c = true → g ≠ [] → parses [] ws out rest → parses (c :: g) ws ((c, Some g) :: out) rest
  | p_next c w ws out rest :
      takes c = true → parses [] ws out rest → parses [c] (w :: ws) ((c, Some w) :: out) rest
  | p_none c : takes c = true → parses [c] [] [(c, None)] [].

(** The program's name and the words that follow. *)
Definition at_group (p : cstring) (g : cstring) (ws : list cstring) (x : option cstring) : Argstate :=
  mkArgs (p :: ws) (Some g) x.

Definition weight (g : cstring) (ws : list cstring) : nat :=
  (length g + sum_list_with (λ w, S (length w)) ws)%nat.

(** Bytes of arguments are unsigned and not NUL. *)
Definition words_ok (ws : list cstring) : Prop := Forall (Forall (λ c, 0 < c)) ws.

Lemma arg_loop_stop fuel v x : arg_loop (S fuel) (mkArgs v None x) = Some ([], mkArgs v None None).
Proof. done. Qed.

Lemma arg_loop_flag fuel p c g ws x : 0 < c → takes c = false →
  arg_loop (S fuel) (at_group p (c :: g) ws x) =
  ('(out, a) ← arg_loop fuel (at_group p g ws None); Some ((c, None) :: out, a)).
Proof.
  intros Hc Ht. cbn [arg_loop]. unfold at_group. cbn [argnext curarg argv].
  rewrite (proj2 (Z.ltb_ge c 0)) by lia. by rewrite Ht.
Qed.

Lemma arg_loop_value fuel p c g ws x : 0 < c → takes c = true →
  arg_loop (S fuel) (at_group p (c :: g) ws x) =
  let '(v, a) := argnextvalue (at_group p g ws None) in
  '(out, a) ← arg_loop fuel a; Some ((c, v) :: out, a).
Proof.
  intros Hc Ht. cbn [arg_loop]. unfold at_group. cbn [argnext curarg argv].
  rewrite (proj2 (Z.ltb_ge c 0)) by lia. by rewrite Ht.
Qed.

(** At the start of a word that is a group, the loop goes on inside it. *)
Lemma arg_loop_group fuel p c g ws x : c :: g ≠ [dash] →
  arg_loop (S fuel) (at_group p [] ((dash :: c :: g) :: ws) x) =
  arg_loop (S fuel) (at_group p (c :: g) ws x).
Proof.
  intros Hne. cbn [arg_loop]. unfold at_group. cbn [argnext curarg argv shift].
  rewrite Z.eqb_refl. replace ((c =? dash) && bool_decide (g = [])) with false; [done|].
  symmetry. apply andb_false_iff. destruct (Z.eqb_spec c dash) as [->|]; [right|by left].
  apply bool_decide_eq_false. by intros ->.
Qed.

(** Enough fuel gives the parse. *)
Lemma arg_loop_parses fuel p g ws x :
  Forall (λ c, 0 < c) g → words_ok ws → (weight g ws < fuel)%nat →
  ∃ out rest, arg_loop fuel (at_group p g ws x) = Some (out, mkArgs (p :: rest) None None) ∧
    parses g ws out rest.
Proof.
  revert g ws x. induction fuel as [|fuel IH]; intros g ws x Hg Hws Hw; [lia|].
  assert (Hflag : ∀ c g ws x, Forall (λ c, 0 < c) (c :: g) → words_ok ws →
    (weight (c :: g) ws < S fuel)%nat →
    ∃ out rest, arg_loop (S fuel) (at_group p (c :: g) ws x) = Some (out, mkArgs (p :: rest) None None) ∧
      parses (c :: g) ws out rest).
  { clear -IH. intros c g ws x [Hc Hg]%list.Forall_cons_1 Hws Hw. unfold weight in Hw. cbn [length] in Hw.
    destruct (takes c) eqn:Ht.
    - rewrite arg_loop_value by done. unfold at_group. destruct g as [|c' g']; cbn [argnextvalue curarg argv shift].
      + destruct ws as [|w ws']; [|apply list.Forall_cons_1 in Hws as [Hw1 Hw2]].
        * destruct fuel as [|fuel]; [lia|]. rewrite arg_loop_stop. exists [(c, None)], [].
          split; [done|by apply p_none].
        * destruct (IH [] ws' (Some w)) as (out & rest & H1 & H2); [done|done|cbn in Hw |- *; unfold weight; cbn; lia|].
          unfold at_group in H1. rewrite H1. exists ((c, Some w) :: out), rest. split; [done|by apply p_next].
      + destruct (IH [] ws (Some (c' :: g'))) as (out & rest & H1 & H2); [done|done|unfold weight; cbn; lia|].
        unfold at_group in H1. rewrite H1. exists ((c, Some (c' :: g')) :: out), rest.
        split; [done|by apply p_value].
    - rewrite arg_loop_flag by done.
      destruct (IH g ws None) as (out & rest & H1 & H2); [done|done|unfold weight; lia|].
      rewrite H1. exists ((c, None) :: out), rest. split; [done|by apply p_flag]. }
  destruct g as [|c g]; [|by apply Hflag].
  destruct ws as [|[|d [|c g]] ws].
  - exists [], []. split; [done|by apply p_end].
  - exists [], ([] :: ws). split; [done|by apply p_end].
  - exists [], ([d] :: ws). split; [done|by apply p_end].
  - destruct (decide (d = dash)) as [->|Hd].
    + destruct (decide (c :: g = [dash])) as [[= -> ->]|Hne].
      * exists [], ws. split; [done|apply p_dashes].
      * rewrite arg_loop_group by done. apply list.Forall_cons_1 in Hws as [[_ Hcg]%list.Forall_cons_1 Hws].
        destruct (Hflag c g ws x Hcg Hws) as (out & rest & H1 & H2); [unfold weight in *; cbn in *; lia|].
        exists out, rest. split; [done|by apply p_group].
    + exists [], ((d :: c :: g) :: ws). split.
      * cbn [arg_loop]. unfold at_group. cbn [argnext curarg argv].
        by rewrite (proj2 (Z.eqb_neq d dash)).
      * apply p_end. by apply Z.eqb_neq.
Qed.

(** The grammar is unambiguous. *)
Lemma parses_fun g ws o1 r1 o2 r2 : parses g ws o1 r1 → parses g ws o2 r2 → o1 = o2 ∧ r1 = r2.
Proof.
  intros H1. revert o2 r2. induction H1 as [ws Hend|ws|c g ws out rest Hne _ IH|c g ws out rest Ht _ IH
    |c g ws out rest Ht Hg _ IH|c w ws out rest Ht _ IH|c Ht]; intros o2 r2 H2; inversion H2; subst; try done;
    try (by destruct (IH _ _ ltac:(eassumption)) as [-> ->]); try congruence.
Qed.
End parsing.

(** C22. Argument parsing.  For every command line and every choice of the flags
    that take a value, the usual loop over argnext and argvalue terminates, within
    one round per byte and word; it returns exactly the flags and values that the
    grammar [parses] assigns to the line, which is unambiguous; and it leaves in
    argv the program's name and the words that are not flags. *)
Theorem arg_loop_correct takes p ws :
  words_ok ws →
  ∃ out rest,
    (∀ fuel, (weight [] ws < fuel)%nat →
       arg_loop takes fuel (argstart (p :: ws)) = Some (out, mkArgs (p :: rest) None None)) ∧
    parses takes [] ws out rest ∧
    (∀ out' rest', parses takes [] ws out' rest' → out' = out ∧ rest' = rest).
Proof.
  intros Hws. destruct (arg_loop_parses takes (S (weight [] ws)) p [] ws None) as (out & rest & _ & Hp);
    [done|done|lia|].
  exists out, rest. split_and!; [|done|].
  - intros fuel Hf. destruct (arg_loop_parses takes fuel p [] ws None) as (out' & rest' & H1 & H2); [done..|].
    destruct (parses_fun takes [] ws _ _ _ _ Hp H2) as [-> ->].
    destruct ws as [|w ws]; [inversion H2; subst; by destruct fuel; [lia|]|].
    assert (Hs : argstart (p :: w :: ws) = at_group p [] (w :: ws) None); [|by rewrite Hs].
    unfold argstart. rewrite (proj2 (Z.ltb_lt _ _)) by (cbn; lia). done.
  - intros out' rest' Hp'. by apply (parses_fun takes [] ws).
Qed.

(** The example of inc/args.h: "-rx", "-f", "foo", "--", "-r", "duh". *)
Definition ex_words : list cstring :=
  [[45; 114; 120]; [45; 102]; [102; 111; 111]; [45; 45]; [45; 114]; [100; 117; 104]].
Definition ex_takes (c : Z) : bool := c =? 102.

Example args_h_example :
  arg_loop ex_takes 30 (argstart ([115] :: ex_words)) =
  Some ([(114, None); (120, None); (102, Some [102; 111; 111])],
        mkArgs [[115]; [45; 114]; [100; 117; 104]] None None).
Proof. reflexivity. Qed.

Lemma arg_loop_correct_witness : ∃ out rest,
  (∀ fuel, (weight [] ex_words < fuel)%nat → arg_loop ex_takes fuel (argstart ([115] :: ex_words)) =
     Some (out, mkArgs ([115] :: rest) None None)) ∧
  parses ex_takes [] ex_words out rest ∧
  (∀ out' rest', parses ex_takes [] ex_words out' rest' → out' = out ∧ rest' = rest).
Proof.
  apply (arg_loop_correct ex_takes [115] ex_words). repeat (apply list.Forall_cons_2; [repeat constructor|]).
  apply list.Forall_nil_2.
Defined.
