(* ===== verification/Fork.v ===== *)
(** * Copy-on-write fork (lib/fork.c)

    The library's side of fork, over the system calls that change address spaces
    (kern/syscall.c), here as operations on maps: [pte] gives the frame and the
    permissions of each mapped page of each environment, [tables] the page tables
    that exist, one frame each, and [pfree] the free frames.  The pages of the
    upper-level tables are not charged. *)
From stdpp Require Import gmap.
From S2P Require Import Prelude Mem Printfmt KState Syscall.

Definition PTE_COW : Z := 0x800.
Definition PTE_SHARE : Z := 0x400.
Definition FEC_WR : Z := 0x2.
Definition UTEMP : Z := 2 * PTSIZE.
Definition PFTEMP : Z := UTEMP + PTSIZE - PGSIZE.
Definition NPDENTRIES : Z := 512.

Record VM : Type := mkVM
  { pmem : mem;                     (* physical memory *)
    pfree : list Z;                 (* free frames *)
    pte : gmap (Z * Z) (Z * Z);     (* environment, page: frame, permissions *)
    tables : gset (Z * Z) }.        (* environment, page / NPDENTRIES *)

Definition set_pmem (x : mem) (s : VM) : VM := mkVM x (pfree s) (pte s) (tables s).
Definition set_pfree (x : list Z) (s : VM) : VM := mkVM (pmem s) x (pte s) (tables s).
Definition set_pte (x : gmap (Z * Z) (Z * Z)) (s : VM) : VM := mkVM (pmem s) (pfree s) x (tables s).
Definition set_tables (x : gset (Z * Z)) (s : VM) : VM := mkVM (pmem s) (pfree s) (pte s) x.

Definition U : Type → Type := M VM False.

Definition has (perm bit : Z) : bool := truthy (Z.land perm bit).
Definition vpn (va : Z) : Z := va / PGSIZE.

(** ** The system calls *)

(** The last mapping of a frame is gone: it is free. *)
Definition release (fr : Z) (s : VM) : VM :=
  if bool_decide (map_Forall (λ _ x, x.1 ≠ fr) (pte s)) then set_pfree (fr :: pfree s) s else s.

(** page_insert: a missing page table costs a frame; the page that was mapped
    there loses a reference, after the new one has gained one. *)
Definition insert_pte (e v fr perm : Z) : U Z :=
  s ← get;
  let put (s : VM) :=
    let s' := set_pte (<[(e, v) := (fr, perm)]> (pte s)) s in
    match pte s !! (e, v) with Some (old, _) => release old s' | None => s' end in
  if bool_decide ((e, v / NPDENTRIES) ∈ tables s) then modify put;; mret 0
  else match pfree s with
  | [] => mret (- E_NO_MEM)
  | _ :: l => modify (λ s, put (set_pfree l (set_tables ({[(e, v / NPDENTRIES)]} ∪ tables s) s)));; mret 0
  end.

Definition va_ok (va : Z) : bool := (va mod PGSIZE =? 0) && (va <=? UTOP).

Definition u_page_alloc (e va perm : Z) : U Z :=
  if negb (perm_ok perm && va_ok va) then mret (- E_INVAL)
  else
    s ← get;
    match pfree s with
    | [] => mret (- E_NO_MEM)
    | fr :: l => modify (set_pfree l);; insert_pte e (vpn va) fr perm
    end.
Definition u_page_map (e va e' va' perm : Z) : U Z :=
  if negb (perm_ok perm && va_ok va' && va_ok va) then mret (- E_INVAL)
  else
    s ← get;
    match pte s !! (e, vpn va) with
    | None => mret (- E_INVAL)
    | Some (fr, p) =>
        if negb (has p PTE_W) && has perm PTE_W then mret (- E_INVAL)
        else insert_pte e' (vpn va') fr perm
    end.
Definition u_page_unmap (e va : Z) : U Z :=
  if (va =? 0) || (UTOP <=? va) || negb (va mod PGSIZE =? 0) then mret (- E_INVAL)
  else
    modify (λ s, match pte s !! (e, vpn va) with
      | None => s
      | Some (fr, _) => release fr (set_pte (delete (e, vpn va) (pte s)) s) end);;
    mret 0.

(** ** Copy on write *)

(** memmove of a page; an address that is not mapped, or not writable, faults
    inside the handler. *)
Definition copy_page (e dst src : Z) : U unit :=
  s ← get;
  match pte s !! (e, vpn dst), pte s !! (e, vpn src) with
  | Some (fd, p), Some (fs, _) =>
      if has p PTE_W then
        modify (set_pmem (store_bytes (pmem s) (fd * PGSIZE)
          (load_bytes (pmem s) (fs * PGSIZE) (Z.to_nat PGSIZE))))
      else panic
  | _, _ => panic
  end.

Definition perm_of (e va : Z) (s : VM) : Z := default 0 (snd <$> pte s !! (e, vpn va)).
Definition UPW : Z := Z.lor (Z.lor PTE_U PTE_P) PTE_W.

Definition pgfault (e addr err : Z) : U unit :=
  s ← get;
  if negb (has err FEC_WR) && has (perm_of e addr s) PTE_COW then panic
  else
    r ← u_page_alloc e PFTEMP UPW;
    if r =? 0 then
      let pageaddr := addr - addr mod PGSIZE in
      copy_page e PFTEMP pageaddr;;
      r ← u_page_map e PFTEMP e pageaddr UPW;
      if r <? 0 then panic
      else r ← u_page_unmap e PFTEMP; if r <? 0 then panic else mret tt
    else panic.

(** [e] stores a byte: the processor's check, the handler, the store again. *)
Definition store_through (e va b : Z) : U unit :=
  s ← get;
  match pte s !! (e, vpn va) with
  | Some (fr, p) =>
      if has p PTE_W then modify (set_pmem (stb (pmem s) (fr * PGSIZE + va mod PGSIZE) b)) else panic
  | None => panic
  end.
Definition user_write (e va b : Z) : U unit :=
  s ← get;
  if has (perm_of e va s) PTE_W then store_through e va b
  else pgfault e va FEC_WR;; store_through e va b.

(** ** fork *)

Section fork.
Context (p c : Z).

Definition duppage (pn : Z) : U unit :=
  perm ← gets (λ s, Z.land (perm_of p (pn * PGSIZE) s) PTE_SYSCALL);
  let addr := pn * PGSIZE in
  if has perm PTE_SHARE then _ ← u_page_map p addr c addr perm; mret tt
  else if has perm PTE_W || has perm PTE_COW then
    let perm := Z.land (Z.lor perm PTE_COW) (Z.lnot PTE_W) in
    _ ← u_page_map p addr c addr perm;
    _ ← u_page_map p addr p addr perm;
    mret tt
  else _ ← u_page_map p addr c addr perm; mret tt.

(** Presence in the three upper levels of the parent's page table. *)
Definition has_pd (v : Z) (s : VM) : bool := bool_decide ((p, v / 512) ∈ tables s).
Definition has_pdpe (v : Z) (s : VM) : bool :=
  bool_decide (set_Exists (λ t, t.1 = p ∧ t.2 / 512 = v / 512 / 512) (tables s)).
Definition has_pml4e (v : Z) (s : VM) : bool :=
  bool_decide (set_Exists (λ t, t.1 = p ∧ t.2 / 512 / 512 = v / 512 / 512 / 512) (tables s)).

(** The step of the scan from [addr], before the loop's own decrement. *)
Definition skip (addr : Z) (s : VM) : Z :=
  let v := vpn addr in
  if has_pml4e v s then
    if has_pdpe v s then
      if has_pd v s then addr else addr - NPDENTRIES * PGSIZE
    else addr - NPDENTRIES * NPDENTRIES * PGSIZE
  else addr - (v / 512 / 512 / 512 + 1) * 2 ^ 39.

Fixpoint fork_loop (fuel : nat) (addr : Z) : U unit :=
  if UTEXT <=? addr then
    match fuel with
    | O => panic
    | S fuel' =>
        s ← get;
        when (has_pd (vpn addr) s && bool_decide (is_Some (pte s !! (p, vpn addr)))) (duppage (vpn addr));;
        fork_loop fuel' (u64 (skip addr s - PGSIZE))
    end
  else mret tt.

(** At most one step per page between UTEXT and the stack. *)
Definition FORK_FUEL : nat := Z.to_nat ((USTACKTOP - UTEXT) / PGSIZE + 1).

(** The child's stacks: an empty exception stack, and a copy of the parent's stack
    made through PFTEMP. *)
Definition fork_stacks : U unit :=
  _ ← u_page_alloc c (UXSTACKTOP - PGSIZE) UPW;
  _ ← u_page_alloc c (USTACKTOP - PGSIZE) UPW;
  _ ← u_page_map c (USTACKTOP - PGSIZE) p PFTEMP UPW;
  copy_page p PFTEMP (USTACKTOP - PGSIZE);;
  _ ← u_page_unmap p PFTEMP;
  mret tt.

(** The parent's path, after sys_exofork has made the child [c] and up to the
    system calls that set its upcall and let it run. *)
Definition fork : U Z :=
  fork_loop FORK_FUEL (USTACKTOP - PGSIZE);;
  fork_stacks;;
  mret c.
End fork.
