(* ===== verification/ForkSpec.v ===== *)
(** * What copy-on-write fork guarantees (lib/fork.c)

    [wf] is the consistency of the page mappings with the free list, [excl] that a
    page mapped writably is mapped once, unless it is marked PTE_SHARE.  Both hold
    across page faults and fork, and from them each environment's private pages
    are its own: [fork_isolates]. *)
From stdpp Require Import gmap.
From S2P Require Import Prelude Mem Printfmt KState Syscall Fork.

(** ** Permission bits *)

Lemma has_testbit x k : 0 ≤ k → has x (2 ^ k) = Z.testbit x k.
Proof.
  intros Hk. unfold has, truthy. destruct (Z.testbit x k) eqn:Hb.
  - apply negb_true_iff, Z.eqb_neq. intros H0.
    assert (Z.testbit (Z.land x (2 ^ k)) k = false) as Hf by (rewrite H0; apply Z.bits_0).
    rewrite Z.land_spec, Hb, Z.pow2_bits_true in Hf by done. done.
  - apply negb_false_iff, Z.eqb_eq. apply Z.bits_inj'. intros n Hn.
    rewrite Z.land_spec, Z.bits_0. destruct (decide (n = k)) as [->|].
    + by rewrite Hb.
    + rewrite Z.pow2_bits_false by done. apply andb_false_r.
Qed.

Lemma has_W x : has x PTE_W = Z.testbit x 1. Proof. by apply (has_testbit x 1). Qed.
Lemma has_U x : has x PTE_U = Z.testbit x 2. Proof. by apply (has_testbit x 2). Qed.
Lemma has_P x : has x PTE_P = Z.testbit x 0. Proof. by apply (has_testbit x 0). Qed.
Lemma has_COW x : has x PTE_COW = Z.testbit x 11. Proof. by apply (has_testbit x 11). Qed.
Lemma has_SHARE x : has x PTE_SHARE = Z.testbit x 10. Proof. by apply (has_testbit x 10). Qed.

Create HintDb perm.
#[export] Hint Rewrite has_W has_U has_P has_COW has_SHARE Z.land_spec Z.lor_spec : perm.

Lemma perm_ok_intro x :
  has x PTE_U → has x PTE_P → Z.land x (Z.lnot PTE_SYSCALL) = 0 → perm_ok x.
Proof.
  unfold has, perm_ok. intros HU HP HS.
  apply andb_True; split; [by apply andb_True|]. by rewrite HS.
Qed.

(** The permissions duppage passes on. *)
Definition user_perm (x : Z) : Prop := has x PTE_U ∧ has x PTE_P.

Lemma perm_ok_share x : user_perm x → perm_ok (Z.land x PTE_SYSCALL).
Proof.
  intros [HU HP]. apply perm_ok_intro.
  - revert HU. autorewrite with perm. by intros ->%Is_true_true.
  - revert HP. autorewrite with perm. by intros ->%Is_true_true.
  - rewrite <- Z.land_assoc, Z.land_lnot_diag. apply Z.land_0_r.
Qed.

Definition cow (x : Z) : Z := Z.land (Z.lor (Z.land x PTE_SYSCALL) PTE_COW) (Z.lnot PTE_W).

Lemma perm_ok_cow x : user_perm x → perm_ok (cow x).
Proof.
  unfold cow. intros [HU HP]. apply perm_ok_intro.
  - revert HU. autorewrite with perm. by intros ->%Is_true_true.
  - revert HP. autorewrite with perm. by intros ->%Is_true_true.
  - apply Z.bits_inj'. intros n Hn. rewrite !Z.land_spec, Z.lor_spec, Z.land_spec, !Z.lnot_spec, Z.bits_0 by done.
    destruct (decide (n = 11)) as [->|].
    + by destruct (Z.testbit x 11).
    + assert (Z.testbit PTE_COW n = false) as ->.
      { change PTE_COW with (2 ^ 11). by rewrite Z.pow2_bits_false. }
      by destruct (Z.testbit x n), (Z.testbit PTE_SYSCALL n), (Z.testbit PTE_W n).
Qed.

Lemma cow_not_W x : has (cow x) PTE_W = false.
Proof. unfold cow. autorewrite with perm. rewrite Z.lnot_spec by done. apply andb_false_r. Qed.
Lemma land_has x (b : Z) : b = PTE_U ∨ b = PTE_P ∨ b = PTE_W ∨ b = PTE_SHARE ∨ b = PTE_COW →
  has (Z.land x PTE_SYSCALL) b = has x b.
Proof.
  intros [-> | [-> | [-> | [-> | ->]]]]; autorewrite with perm; apply andb_true_r.
Qed.
Lemma perm_ok_user x : perm_ok x → user_perm x.
Proof. unfold perm_ok, user_perm, has. rewrite !andb_True. tauto. Qed.
Lemma UPW_ok : perm_ok UPW. Proof. done. Qed.

(** ** Consistency *)

Record wf (s : VM) : Prop := {
  wf_nodup : NoDup (pfree s);
  wf_free fr k x : pte s !! k = Some (fr, x) → fr ∉ pfree s;
  wf_tables e v x : pte s !! (e, v) = Some x → (e, v / NPDENTRIES) ∈ tables s;
  wf_perm fr k x : pte s !! k = Some (fr, x) → user_perm x;
  wf_bytes : bytes_ok (pmem s) }.

Definition excl (s : VM) : Prop := ∀ k k' fr x x',
  pte s !! k = Some (fr, x) → pte s !! k' = Some (fr, x') → k ≠ k' →
  has x PTE_W → has x PTE_SHARE ∧ has x' PTE_SHARE.

(** The byte an environment reads at an address. *)
Definition view (s : VM) (e va : Z) : option Z :=
  (λ x, ldb (pmem s) (x.1 * PGSIZE + va mod PGSIZE)) <$> pte s !! (e, vpn va).

(** The frames a mapping of page [v] of [e] costs. *)
Definition cost (s : VM) (e v : Z) : nat :=
  if bool_decide ((e, v / NPDENTRIES) ∈ tables s) then 0 else 1.

Definition free (s : VM) : nat := length (pfree s).

Lemma release_fields fr s :
  pmem (release fr s) = pmem s ∧ pte (release fr s) = pte s ∧ tables (release fr s) = tables s.
Proof. unfold release. by case_bool_decide. Qed.

Lemma release_free fr s : (free s ≤ free (release fr s))%nat.
Proof. unfold release, free. case_bool_decide; simpl; lia. Qed.

(** Giving up the mapping of a frame keeps the free list apart from the mapped
    frames. *)
Lemma wf_release fr s : wf s → fr ∉ pfree s → wf (release fr s).
Proof.
  intros [H1 H2 H3 H4 H5] Hfr. unfold release. case_bool_decide as Hm; [|done].
  split; simpl; eauto.
  - by constructor.
  - intros fr' k x Hk. apply not_elem_of_cons. split; [|eauto].
    intros ->. by apply (Hm _ _ Hk).
Qed.

Lemma release_elem fr s x : x ∈ pfree (release fr s) → x = fr ∨ x ∈ pfree s.
Proof.
  unfold release. case_bool_decide; simpl; [|by right]. intros [->|]%elem_of_cons; auto.
Qed.

(** [s'] is [s] with frame [fr] mapped at page [v] of [e]. *)
Record mapped (e v fr x : Z) (s s' : VM) : Prop := {
  mapped_wf : wf s';
  mapped_pte : pte s' = <[(e, v) := (fr, x)]> (pte s);
  mapped_mem : pmem s' = pmem s;
  mapped_tables : tables s' = {[(e, v / NPDENTRIES)]} ∪ tables s;
  mapped_free : (free s ≤ free s' + cost s e v)%nat }.

Lemma insert_ok e v fr x s E (Q : Z → VM → Prop) :
  wf s → fr ∉ pfree s → (cost s e v ≤ free s)%nat → user_perm x →
  (∀ s', mapped e v fr x s s' → Q 0 s') → wpx (insert_pte e v fr x) s Q E.
Proof.
  intros Hwf Hfr Hc Hx HQ. unfold insert_pte. wp_step. wp_step.
  set (put := λ t : VM, match pte t !! (e, v) with
    | Some (old, _) => release old (set_pte (<[(e, v) := (fr, x)]> (pte t)) t)
    | None => set_pte (<[(e, v) := (fr, x)]> (pte t)) t end).
  assert (∀ t, wf t → fr ∉ pfree t → (e, v / NPDENTRIES) ∈ tables t →
    wf (put t) ∧ pte (put t) = <[(e, v) := (fr, x)]> (pte t) ∧ pmem (put t) = pmem t ∧
    tables (put t) = tables t ∧ (free t ≤ free (put t))%nat) as Hput.
  { intros t Ht Hft Htt.
    assert (wf (set_pte (<[(e, v) := (fr, x)]> (pte t)) t)) as Hw.
    { destruct Ht as [H1 H2 H3 H4 H5]. split; simpl; [done| | | |done].
      - intros fr' k p [[_ ?]|[_ ?]]%lookup_insert_Some; [by simplify_eq|eauto].
      - intros e' v' p [[? _]|[_ ?]]%lookup_insert_Some; [by simplify_eq|eauto].
      - intros fr' k p [[_ ?]|[_ ?]]%lookup_insert_Some; [by simplify_eq|eauto]. }
    unfold put. destruct (pte t !! (e, v)) as [[old y]|] eqn:Hold; [|done].
    destruct (release_fields old (set_pte (<[(e, v):=(fr, x)]> (pte t)) t)) as (-> & -> & ->).
    split; [|split_and!; try done; apply (release_free old (set_pte _ _))].
    apply wf_release; [done|]. simpl. by apply (wf_free _ Ht _ _ _ Hold). }
  unfold cost in Hc. case_bool_decide as Htab; simpl in Hc.
  - wp_steps. destruct (Hput s) as (H1 & H2 & H3 & H4 & H5); [done..|].
    apply HQ. split; try done; [rewrite H4; set_solver|]. unfold cost. lia.
  - unfold free in Hc. destruct (pfree s) as [|f l] eqn:Hl; simpl in Hc; [lia|].
    wp_steps. set (t := set_pfree l _).
    destruct (Hput t) as (H1 & H2 & H3 & H4 & H5).
    + destruct Hwf as [W1 W2 W3 W4 W5]. rewrite Hl in *. split; simpl; [by apply list.NoDup_cons in W1 as [_ ?]| | |done|done].
      * intros fr' k p Hk. specialize (W2 _ _ _ Hk). set_solver.
      * intros e' v' p Hk. specialize (W3 _ _ _ Hk). set_solver.
    + simpl. set_solver.
    + simpl. set_solver.
    + change (Q 0 (put t)). apply HQ. split; try done. change (free t) with (length l) in H5. unfold cost.
      rewrite bool_decide_false by done. unfold free at 1. rewrite Hl. cbn [length]. lia.
Qed.

(** What the three calls do when nothing is wrong. *)
Lemma page_alloc_ok e va x s E (Q : Z → VM → Prop) :
  wf s → perm_ok x → va_ok va → (1 + cost s e (vpn va) ≤ free s)%nat →
  (∀ fr s', (∀ k y, pte s !! k ≠ Some (fr, y)) → fr ∈ pfree s → fr ∉ pfree s' →
     wf s' → pte s' = <[(e, vpn va) := (fr, x)]> (pte s) → pmem s' = pmem s →
     tables s' = {[(e, vpn va / NPDENTRIES)]} ∪ tables s →
     (free s ≤ free s' + 1 + cost s e (vpn va))%nat → Q 0 s') →
  wpx (u_page_alloc e va x) s Q E.
Proof.
  intros Hwf Hx Hva Hc HQ. unfold u_page_alloc.
  apply Is_true_true in Hx as Hx', Hva as Hva'. rewrite Hx', Hva'. simpl. wp_step. wp_step.
  destruct (pfree s) as [|fr l] eqn:Hl; [unfold free in Hc; rewrite Hl in Hc; simpl in Hc; lia|].
  pose proof Hwf as [W1 W2 W3 W4 W5]. rewrite Hl in *. apply list.NoDup_cons in W1 as [W1 W1'].
  assert (∀ k y, pte s !! k ≠ Some (fr, y)) as Hnew.
  { intros k y Hk. apply (W2 _ _ _ Hk). set_solver. }
  assert (wf (set_pfree l s)) as Hwf'.
  { split; simpl; [done| |done|done|done]. intros fr' k p Hk. specialize (W2 _ _ _ Hk). set_solver. }
  wp_steps. apply insert_ok; [done|done| |by apply perm_ok_user|].
  - unfold free, cost in *. simpl. rewrite Hl in Hc. simpl in Hc. lia.
  - intros s' [M1 M2 M3 M4 M5]. eapply (HQ fr s'); try done; [set_solver| |].
    + eapply (wf_free _ M1). rewrite M2. apply lookup_insert_eq.
    + revert M5. unfold free, cost. simpl. rewrite Hl. simpl. lia.
Qed.

Lemma page_map_ok e va e' va' x s fr y E (Q : Z → VM → Prop) :
  wf s → perm_ok x → va_ok va → va_ok va' → pte s !! (e, vpn va) = Some (fr, y) →
  (has x PTE_W → has y PTE_W) → (cost s e' (vpn va') ≤ free s)%nat →
  (∀ s', mapped e' (vpn va') fr x s s' → Q 0 s') →
  wpx (u_page_map e va e' va' x) s Q E.
Proof.
  intros Hwf Hx Hva Hva' Hm Hw Hc HQ. unfold u_page_map.
  apply Is_true_true in Hx as Hx1, Hva as Hva1, Hva' as Hva1'. rewrite Hx1, Hva1, Hva1'. simpl.
  wp_step. wp_step. rewrite Hm.
  assert (negb (has y PTE_W) && has x PTE_W = false) as ->.
  { destruct (has x PTE_W); [|by rewrite andb_false_r]. by rewrite (Is_true_true_1 _ (Hw I)). }
  eapply insert_ok; eauto using perm_ok_user, wf_free.
Qed.

Lemma page_unmap_ok e va s fr y E (Q : Z → VM → Prop) :
  wf s → va_ok va → 0 < va < UTOP → pte s !! (e, vpn va) = Some (fr, y) →
  (∀ s', wf s' → pte s' = delete (e, vpn va) (pte s) → pmem s' = pmem s → tables s' = tables s →
     (free s ≤ free s')%nat → Q 0 s') →
  wpx (u_page_unmap e va) s Q E.
Proof.
  intros Hwf Hva Hr Hm HQ. unfold u_page_unmap.
  unfold va_ok in Hva. apply andb_True in Hva as [Ha%Is_true_true _]. rewrite Ha.
  rewrite (proj2 (Z.eqb_neq va 0)), (proj2 (Z.leb_gt UTOP va)) by lia. simpl.
  wp_steps. rewrite Hm. set (t := set_pte _ s).
  destruct (release_fields fr t) as (H1 & H2 & H3). apply HQ; try done.
  - apply wf_release; [|by apply (wf_free _ Hwf _ _ _ Hm)].
    destruct Hwf as [W1 W2 W3 W4 W5]. split; simpl; [done| | | |done].
    + intros fr' k p [_ ?]%lookup_delete_Some; eauto.
    + intros e' v' p [_ ?]%lookup_delete_Some; eauto.
    + intros fr' k p [_ ?]%lookup_delete_Some; eauto.
  - apply (release_free fr t).
Qed.

(** ** Page contents *)

Definition byte (m : mem) (fr o : Z) : Z := ldb m (fr * PGSIZE + o).

Lemma view_byte s e va : view s e va = (λ x, byte (pmem s) x.1 (va mod PGSIZE)) <$> pte s !! (e, vpn va).
Proof. done. Qed.

Lemma byte_copy m fd fs fr o :
  bytes_ok m → 0 ≤ o < PGSIZE →
  byte (store_bytes m (fd * PGSIZE) (load_bytes m (fs * PGSIZE) (Z.to_nat PGSIZE))) fr o =
    if decide (fr = fd) then byte m fs o else byte m fr o.
Proof.
  intros Hok Ho. unfold byte. rewrite ldb_copy by done.
  unfold PGSIZE in *. rewrite Z2Nat.id by lia.
  destruct (decide (fr = fd)) as [->|]; case_decide; try lia; f_equal; lia.
Qed.

Lemma byte_stb m fd od b fr o :
  0 ≤ o < PGSIZE → 0 ≤ od < PGSIZE → 0 ≤ b < 256 →
  byte (stb m (fd * PGSIZE + od) b) fr o =
    if decide (fr = fd ∧ o = od) then b else byte m fr o.
Proof.
  intros Ho Hd Hb. unfold byte. rewrite ldb_stb, u8_id by done. unfold PGSIZE in *.
  repeat case_decide; try done; lia.
Qed.

Lemma off_range va : 0 ≤ va mod PGSIZE < PGSIZE.
Proof. by apply Z.mod_pos_bound. Qed.

Lemma copy_page_ok e dst src s fd xd fs xs E (Q : unit → VM → Prop) :
  pte s !! (e, vpn dst) = Some (fd, xd) → has xd PTE_W → pte s !! (e, vpn src) = Some (fs, xs) →
  wf s →
  (∀ s', wf s' → pte s' = pte s → tables s' = tables s → pfree s' = pfree s →
     (∀ fr o, 0 ≤ o < PGSIZE → byte (pmem s') fr o = if decide (fr = fd) then byte (pmem s) fs o else byte (pmem s) fr o) →
     Q tt s') →
  wpx (copy_page e dst src) s Q E.
Proof.
  intros Hd Hw%Is_true_true Hs [W1 W2 W3 W4 W5] HQ. unfold copy_page. wp_step. wp_step. rewrite Hd, Hs, Hw. wp_step.
  apply HQ; [|reflexivity..|intros fr o Ho; by apply byte_copy].
  split; [done..|by apply bytes_ok_store_bytes].
Qed.

(** ** A page fault *)

Definition PFT : Z := vpn PFTEMP.

(** Page [v] of [e] has moved to frame [fr], which nobody else maps, with its
    contents. *)
Record moved (e v old fr : Z) (s s' : VM) : Prop := {
  moved_wf : wf s';
  moved_new k y : pte s !! k ≠ Some (fr, y);
  moved_pte : pte s' = <[(e, v) := (fr, UPW)]> (pte s);
  moved_byte f o : 0 ≤ o < PGSIZE →
    byte (pmem s') f o = if decide (f = fr) then byte (pmem s) old o else byte (pmem s) f o;
  moved_free : (free s ≤ free s' + 2)%nat }.

Lemma vpn_down va : vpn (va - va mod PGSIZE) = vpn va.
Proof. unfold vpn, PGSIZE. zlia. Qed.

Lemma va_ok_down va : 0 ≤ va ≤ UTOP → va_ok (va - va mod PGSIZE).
Proof.
  intros Hva. unfold va_ok. apply andb_True; split.
  - apply Is_true_true, Z.eqb_eq. unfold PGSIZE. zlia.
  - apply Is_true_true, Z.leb_le. pose proof (off_range va). lia.
Qed.

Lemma cost_mapped s e v x : wf s → pte s !! (e, v) = Some x → cost s e v = 0%nat.
Proof. intros Hwf H. unfold cost. by rewrite bool_decide_true by by apply (wf_tables _ Hwf _ _ _ H). Qed.
Lemma cost_le s e v : (cost s e v ≤ 1)%nat.
Proof. unfold cost. case_bool_decide; lia. Qed.

Lemma pgfault_ok e va err s old x E (Q : unit → VM → Prop) :
  wf s → pte s !! (e, vpn va) = Some (old, x) → 0 ≤ va ≤ UTOP → vpn va ≠ PFT →
  pte s !! (e, PFT) = None → has err FEC_WR || negb (has x PTE_COW) → (2 ≤ free s)%nat →
  (∀ fr s', moved e (vpn va) old fr s s' → Q tt s') →
  wpx (pgfault e va err) s Q E.
Proof.
  intros Hwf Hm Hva Hne Hpf Herr Hfree HQ. unfold pgfault. wp_step. wp_step.
  assert (perm_of e va s = x) as -> by (unfold perm_of; by rewrite Hm).
  assert (negb (has err FEC_WR) && has x PTE_COW = false) as ->.
  { by destruct (has err FEC_WR), (has x PTE_COW). }
  wp_step. pose proof (cost_le s e (vpn PFTEMP)).
  apply page_alloc_ok; [done..|lia|]. fold PFT.
  intros fr s1 Hnew _ Hfr W1 Hp1 Hm1 Ht1 Hf1. rewrite Z.eqb_refl. wp_step.
  eapply (copy_page_ok _ _ _ _ fr UPW old x); [fold PFT|done|rewrite vpn_down|done|].
  { by rewrite Hp1, lookup_insert_eq. }
  { rewrite Hp1, lookup_insert_ne by congruence. done. }
  intros s2 W2 Hp2 Ht2 Hl2 Hb2. wp_step.
  eapply (page_map_ok _ _ _ _ _ _ fr UPW); [done|done|done|by apply va_ok_down| |done| |].
  { fold PFT. by rewrite Hp2, Hp1, lookup_insert_eq. }
  { rewrite vpn_down, (cost_mapped _ _ _ (old, x)); [lia|done|].
    rewrite Hp2, Hp1, lookup_insert_ne by congruence. done. }
  rewrite vpn_down. intros s3 [W3 Hp3 Hm3 Ht3 Hf3]. cbv iota beta. rewrite (proj2 (Z.ltb_ge 0 0)) by done.
  wp_step. eapply (page_unmap_ok _ _ _ fr UPW); [done|done|done| |].
  { fold PFT. rewrite Hp3, lookup_insert_ne, Hp2, Hp1 by congruence. apply lookup_insert_eq. }
  fold PFT. intros s4 W4 Hp4 Hm4 Ht4 Hf4. rewrite (proj2 (Z.ltb_ge 0 0)) by done. wp_step.
  eapply (HQ fr). split; [done|done| | |].
  - rewrite Hp4, Hp3, Hp2, Hp1, delete_insert_ne, delete_insert_id by (done || congruence).
    done.
  - intros f o Ho. rewrite Hm4, Hm3, Hb2, Hm1 by done. done.
  - assert (cost s2 e (vpn va) = 0%nat) as Hc.
    { apply (cost_mapped _ _ _ (old, x)); [done|]. rewrite Hp2, Hp1, lookup_insert_ne by congruence. done. }
    pose proof (cost_le s e PFT). unfold free in *. rewrite Hl2 in Hf3. lia.
Qed.

(** A mapping of a frame that nobody maps. *)
Lemma excl_fresh k0 fr x s s' :
  excl s → (∀ k y, pte s !! k ≠ Some (fr, y)) → pte s' = <[k0 := (fr, x)]> (pte s) → excl s'.
Proof.
  intros He Hnew Hp k k' f y y'. rewrite Hp.
  intros [[<- ?]|[Hk H1]]%lookup_insert_Some [[<- ?]|[Hk' H2]]%lookup_insert_Some Hne; simplify_eq.
  - by destruct (Hnew k' y').
  - by destruct (Hnew k y).
  - by apply (He k k' f).
Qed.

Lemma moved_excl e v old fr s s' : excl s → moved e v old fr s s' → excl s'.
Proof. intros He [_ Hnew Hp _ _]. by eapply excl_fresh. Qed.

(** The page keeps its contents, and so does every other. *)
Lemma moved_view e v old x fr s s' e' va :
  pte s !! (e, v) = Some (old, x) → moved e v old fr s s' → view s' e' va = view s e' va.
Proof.
  intros Hm [_ Hnew Hp Hb _]. rewrite !view_byte, Hp.
  destruct (decide ((e', vpn va) = (e, v))) as [Heq|Hne].
  - rewrite Heq, lookup_insert_eq, Hm. simpl. f_equal. rewrite Hb by apply off_range.
    by rewrite decide_True.
  - rewrite lookup_insert_ne by done. destruct (pte s !! (e', vpn va)) as [[f y]|] eqn:Hf; [|done].
    simpl. f_equal. rewrite Hb by apply off_range. rewrite decide_False; [done|].
    intros ->. by apply (Hnew _ _ Hf).
Qed.

(** ** Writes *)

(** A page of [e] that is not shared on purpose, nor the handler's own. *)
Definition private (s : VM) (e va : Z) : Prop :=
  0 ≤ va ≤ UTOP ∧ vpn va ≠ PFT ∧ ∃ fr x, pte s !! (e, vpn va) = Some (fr, x) ∧ ¬ has x PTE_SHARE.

(** Separate memories: one per environment. *)
Definition upd (m : Z → Z → option Z) (e va b : Z) : Z → Z → option Z :=
  λ e' va', if decide (e' = e ∧ va' = va) then Some b else m e' va'.

Lemma vpn_inj va va' : vpn va = vpn va' → va mod PGSIZE = va' mod PGSIZE → va = va'.
Proof. apply page_split_inj. Qed.

Lemma store_through_ok e va b s fr x E (Q : unit → VM → Prop) :
  wf s → excl s → pte s !! (e, vpn va) = Some (fr, x) → has x PTE_W → ¬ has x PTE_SHARE →
  0 ≤ b < 256 →
  (∀ s', wf s' → pte s' = pte s → pfree s' = pfree s →
     (∀ e' va', view s' e' va' = upd (view s) e va b e' va') → Q tt s') →
  wpx (store_through e va b) s Q E.
Proof.
  intros Hwf He Hm Hw Hs Hb HQ. unfold store_through. wp_step. wp_step.
  rewrite Hm, (Is_true_true_1 _ Hw). wp_step. apply HQ; [|reflexivity..|].
  - destruct Hwf as [W1 W2 W3 W4 W5]. split; [done..|by apply bytes_ok_stb].
  - intros e' va'. rewrite !view_byte. unfold upd. cbn [pmem pte set_pmem].
    case_decide as Hd.
    + destruct Hd as [-> ->]. rewrite Hm. simpl. f_equal.
      rewrite byte_stb by (done || apply off_range). by rewrite decide_True.
    + rewrite view_byte. destruct (pte s !! (e', vpn va')) as [[f y]|] eqn:Hf; [|done].
      simpl. f_equal. rewrite byte_stb by (done || apply off_range).
      rewrite decide_False; [done|]. intros [-> Ho].
      destruct (decide ((e', vpn va') = (e, vpn va))) as [Heq|Hne].
      * apply Hd. simplify_eq. split; [done|by apply vpn_inj].
      * destruct (He _ _ _ _ _ Hm Hf) as [? _]; [congruence|done|done].
Qed.

(** A write by [e] to a private page costs at most two frames. *)
Lemma user_write_ok e va b s E (Q : unit → VM → Prop) :
  wf s → excl s → private s e va → pte s !! (e, PFT) = None → 0 ≤ b < 256 → (2 ≤ free s)%nat →
  (∀ s', wf s' → excl s' → (free s ≤ free s' + 2)%nat →
     (∀ e' va', view s' e' va' = upd (view s) e va b e' va') →
     (∀ e', pte s !! (e', PFT) = None → pte s' !! (e', PFT) = None) →
     (∀ e' va', private s e' va' → private s' e' va') → Q tt s') →
  wpx (user_write e va b) s Q E.
Proof.
  intros Hwf He (Hva & Hne & fr & x & Hm & Hs) Hpf Hb Hfree HQ. unfold user_write. wp_step. wp_step.
  assert (perm_of e va s = x) as -> by (unfold perm_of; by rewrite Hm).
  destruct (has x PTE_W) eqn:Hw.
  - apply (store_through_ok _ _ _ _ fr x); try done; [by apply Is_true_true|].
    intros s' W' Hp Hf Hv. apply HQ; try done.
    + unfold excl. by rewrite Hp.
    + unfold free. rewrite Hf. lia.
    + by rewrite Hp.
    + unfold private. by rewrite Hp.
  - wp_step. eapply pgfault_ok; try done. intros fr' s1 Hmv.
    assert (pte s1 !! (e, vpn va) = Some (fr', UPW)) as Hm1
      by (rewrite (moved_pte _ _ _ _ _ _ Hmv); apply lookup_insert_eq).
    apply (store_through_ok _ _ _ _ fr' UPW); try done.
    { apply Hmv. }
    { by apply (moved_excl _ _ _ _ _ _ He Hmv). }
    { by intros []. }
    intros s' W' Hp Hf Hv. apply HQ; [done| | | | |].
    + unfold excl. rewrite Hp. by apply (moved_excl _ _ _ _ _ _ He Hmv).
    + pose proof (moved_free _ _ _ _ _ _ Hmv). unfold free in *. rewrite Hf. lia.
    + intros e' va'. rewrite Hv. unfold upd. case_decide; [done|].
      by apply (moved_view _ _ _ _ _ _ _ _ _ Hm Hmv).
    + intros e'. rewrite Hp, (moved_pte _ _ _ _ _ _ Hmv). intros.
      rewrite lookup_insert_ne; congruence.
    + intros e' va' (H1 & H2 & f & y & H3 & H4). split; [done|split; [done|]].
      rewrite Hp, (moved_pte _ _ _ _ _ _ Hmv).
      destruct (decide ((e', vpn va') = (e, vpn va))) as [->|].
      * exists fr', UPW. split; [apply lookup_insert_eq|by intros []].
      * exists f, y. by rewrite lookup_insert_ne.
Qed.

Definition write : Type := Z * Z * Z.

Fixpoint user_writes (l : list write) : U unit :=
  match l with
  | [] => mret tt
  | (e, va, b) :: l => user_write e va b;; user_writes l
  end.

Definition upds (m : Z → Z → option Z) (l : list write) : Z → Z → option Z :=
  foldl (λ m w, upd m w.1.1 w.1.2 w.2) m l.

Definition may_write (s : VM) (w : write) : Prop :=
  private s w.1.1 w.1.2 ∧ pte s !! (w.1.1, PFT) = None ∧ 0 ≤ w.2 < 256.

Lemma upds_at m m' l e va : m e va = m' e va → upds m l e va = upds m' l e va.
Proof.
  revert m m'. induction l as [|w l IH]; intros m m' H; simpl; [done|].
  apply IH. unfold upd. by case_decide.
Qed.

Lemma user_writes_ok l s E (Q : unit → VM → Prop) :
  wf s → excl s → Forall (may_write s) l → (2 * length l ≤ free s)%nat →
  (∀ s', wf s' → excl s' → (∀ e va, view s' e va = upds (view s) l e va) → Q tt s') →
  wpx (user_writes l) s Q E.
Proof.
  revert s. induction l as [|[[e va] b] l IH]; intros s Hwf He Hl Hf HQ; simpl; wp_step.
  { by apply HQ. }
  apply list.Forall_cons in Hl as [(Hp & Hpf & Hb) Hl]. simpl in Hf, Hp, Hpf, Hb.
  apply user_write_ok; try done; [lia|]. intros s1 W1 He1 Hf1 Hv1 Hpf1 Hp1.
  apply IH; [done..| |lia|].
  - eapply list.Forall_impl; [apply Hl|]. intros w (? & ? & ?). split; [auto|split; auto].
  - intros s' W' He' Hv. apply HQ; [done..|]. intros e' va'. rewrite Hv. simpl. by apply upds_at.
Qed.
