(* ===== verification/ForkCopy.v ===== *)
(** * fork copies the address space (lib/fork.c)

    The scan of fork ends, every page it reaches is mapped into the child, and
    from then on the private pages of the parent and of the child are separate
    memories. *)
From stdpp Require Import gmap.
From S2P Require Import Prelude Mem Printfmt KState Syscall Fork ForkSpec.

(** ** The scan *)

Section scan.
Context (p : Z).

(** The pages fork looks at, in order. *)
Fixpoint scan (fuel : nat) (addr : Z) (s : VM) : list Z :=
  if UTEXT <=? addr then
    match fuel with
    | O => []
    | S fuel' => vpn addr :: scan fuel' (u64 (skip p addr s - PGSIZE)) s
    end
  else [].

Definition same_tables (s s' : VM) : Prop := ∀ x, (p, x) ∈ tables s ↔ (p, x) ∈ tables s'.

Lemma exists_tables_ext (P : Z → Prop) s s' :
  same_tables s s' →
  set_Exists (λ t, t.1 = p ∧ P t.2) (tables s) ↔ set_Exists (λ t, t.1 = p ∧ P t.2) (tables s').
Proof. intros H. split; intros ([e x] & Hx & He & HP); simpl in *; subst e; exists (p, x); (split; [by apply H|done]). Qed.

Lemma has_pd_ext v s s' : same_tables s s' → has_pd p v s = has_pd p v s'.
Proof. intros H. apply bool_decide_ext, H. Qed.

Lemma skip_ext addr s s' : same_tables s s' → skip p addr s = skip p addr s'.
Proof.
  intros H. unfold skip. rewrite (has_pd_ext _ s s') by done.
  assert (has_pml4e p (vpn addr) s = has_pml4e p (vpn addr) s') as ->
    by (by apply bool_decide_ext, (exists_tables_ext (λ x, x / 512 / 512 = _))).
  assert (has_pdpe p (vpn addr) s = has_pdpe p (vpn addr) s') as ->
    by (by apply bool_decide_ext, (exists_tables_ext (λ x, x / 512 = _))).
  done.
Qed.

Lemma scan_ext fuel addr s s' : same_tables s s' → scan fuel addr s = scan fuel addr s'.
Proof.
  intros H. revert addr. induction fuel as [|f IH]; intros addr; simpl; [done|].
  rewrite (skip_ext _ s s') by done. case_match; [by rewrite IH|done].
Qed.

(** The parent has its program and its stack. *)
Record has_program (s : VM) : Prop := {
  hp_text : (p, vpn UTEXT / NPDENTRIES) ∈ tables s;
  hp_stack : (p, vpn (USTACKTOP - PGSIZE) / NPDENTRIES) ∈ tables s }.

(** Where the scan can be: in a gigabyte that has a page directory, or still
    near the top of one that has none. *)
Definition scan_at (s : VM) (addr : Z) : Prop :=
  0 ≤ addr ≤ USTACKTOP - PGSIZE ∧
  (has_pdpe p (vpn addr) s ∨ 2 ^ 30 - 2 ^ 21 - 2 ^ 12 * (5 - addr / 2 ^ 30) ≤ addr mod 2 ^ 30).

Lemma vpn_gb addr : vpn addr / 512 / 512 = addr / 2 ^ 30.
Proof. unfold vpn, PGSIZE. rewrite !Z.div_div by done. done. Qed.

Lemma has_pdpe_gb s a b : a / 2 ^ 30 = b / 2 ^ 30 → has_pdpe p (vpn a) s → has_pdpe p (vpn b) s.
Proof. unfold has_pdpe. rewrite !vpn_gb. by intros ->. Qed.

Lemma has_pdpe_table s va : (p, vpn va / NPDENTRIES) ∈ tables s → has_pdpe p (vpn va) s.
Proof. intros H. apply bool_decide_pack. by exists (p, vpn va / NPDENTRIES). Qed.

Lemma has_pml4e_user s addr : has_program s → 0 ≤ addr ≤ USTACKTOP - PGSIZE → has_pml4e p (vpn addr) s = true.
Proof.
  intros [H _] Ha. apply bool_decide_eq_true_2. exists (p, vpn UTEXT / NPDENTRIES).
  split; [done|split; [done|]]. rewrite vpn_gb. trans 0; [done|]. symmetry.
  change (USTACKTOP - PGSIZE) with 4018130944 in Ha. change (2 ^ 30) with 1073741824. zlia.
Qed.

Lemma scan_step s addr :
  has_program s → scan_at s addr → UTEXT ≤ addr →
  u64 (skip p addr s - PGSIZE) = skip p addr s - PGSIZE ∧
  scan_at s (skip p addr s - PGSIZE) ∧ skip p addr s ≤ addr.
Proof.
  intros Hp [Ha Hat] Hlo. unfold skip. rewrite has_pml4e_user by done.
  change (USTACKTOP - PGSIZE) with 4018130944 in *. change UTEXT with 8388608 in *.
  assert (∀ next, 0 ≤ next → next ≤ addr →
    (next / 2 ^ 30 = addr / 2 ^ 30 ∧ has_pdpe p (vpn addr) s ∨
     2 ^ 30 - 2 ^ 21 - 2 ^ 12 * (5 - next / 2 ^ 30) ≤ next mod 2 ^ 30) →
    u64 next = next ∧ scan_at s next) as Hnext.
  { intros next H0 H1 H2. split; [apply u64_id; lia|].
    unfold scan_at. change (USTACKTOP - PGSIZE) with 4018130944. split; [lia|].
    destruct H2 as [[H2 H3]|H2]; [left; by eapply has_pdpe_gb|by right]. }
  destruct (has_pdpe p (vpn addr) s) eqn:Hpd.
  - set (a := if has_pd p (vpn addr) s then addr else addr - NPDENTRIES * PGSIZE).
    assert (a = addr ∨ a = addr - 2097152) as Hcase by (unfold a; case_match; auto).
    clearbody a. apply and_assoc. split; [|destruct Hcase as [-> | ->]; lia].
    apply Hnext; unfold PGSIZE; [lia..|]. change (2 ^ 30) with 1073741824. change (2 ^ 21) with 2097152.
    change (2 ^ 12) with 4096.
    destruct (decide ((a - 4096) / 1073741824 = addr / 1073741824)); [by left|right; zlia].
  - destruct Hat as [[]|Hat].
    change (NPDENTRIES * NPDENTRIES * PGSIZE) with 1073741824.
    assert (addr / 2 ^ 30 ≠ 0) as Hnz.
    { intros H0. assert (has_pdpe p (vpn addr) s) as Hc; [|by rewrite Hpd in Hc].
      apply (has_pdpe_gb s UTEXT); [by rewrite H0|]. apply has_pdpe_table, Hp. }
    revert Hat Hnz. change (2 ^ 30) with 1073741824 in *. change (2 ^ 21) with 2097152 in *. change (2 ^ 12) with 4096 in *.
    intros Hat Hnz.
    apply and_assoc. split; [|lia]. apply Hnext; unfold PGSIZE; [zlia..|]. right. zlia.
Qed.

Lemma scan_range fuel s addr v :
  has_program s → scan_at s addr → v ∈ scan fuel addr s → vpn UTEXT ≤ v ≤ vpn addr.
Proof.
  intros Hp. revert addr. induction fuel as [|f IH]; intros addr Hat; simpl; case_match eqn:Hle; try set_solver.
  apply Z.leb_le in Hle. destruct (scan_step s addr) as (Hu & Hn & Hd); [done..|]. rewrite Hu.
  assert (∀ a b, a ≤ b → vpn a ≤ vpn b) as Hmono by (intros; by apply Z.div_le_mono).
  intros [->|Hin]%elem_of_cons; [split; [by apply Hmono|done]|].
  apply IH in Hin; [|done]. split; [lia|]. etransitivity; [apply Hin|]. apply Hmono. unfold PGSIZE. lia.
Qed.
End scan.

(** ** What the scan has copied *)

(** Two mappings of one frame, shared on purpose or not in the same way. *)
Definition same_page (o o' : option (Z * Z)) : Prop :=
  match o, o' with
  | Some (f, x), Some (f', x') => f = f' ∧ has x PTE_SHARE = has x' PTE_SHARE
  | None, None => True
  | _, _ => False
  end.

Lemma same_page_refl o : same_page o o.
Proof. by destruct o as [[]|]. Qed.
Lemma same_page_trans o1 o2 o3 : same_page o1 o2 → same_page o2 o3 → same_page o1 o3.
Proof. destruct o1 as [[]|], o2 as [[]|], o3 as [[]|]; simpl; try tauto. intros [-> ->] [-> ->]. done. Qed.

(** Mapping a frame once more, not writably unless it is shared. *)
Lemma excl_again k0 k fr x y s s' :
  excl s → pte s !! k0 = Some (fr, x) → pte s' = <[k := (fr, y)]> (pte s) →
  (has y PTE_W → has x PTE_W) → has y PTE_SHARE = has x PTE_SHARE →
  k = k0 ∨ (has x PTE_W → has x PTE_SHARE) → excl s'.
Proof.
  intros He H0 Hp Hw Hsh Hx k1 k2 f z z'. rewrite Hp.
  intros [[<- ?]|[Hk1 H1]]%lookup_insert_Some [[<- ?]|[Hk2 H2]]%lookup_insert_Some Hne HW; simplify_eq.
  - rewrite Hsh. destruct (decide (k0 = k2)) as [->|]; [|by eapply (He k0 k2); eauto]. simplify_eq.
    destruct Hx as [->|Hx]; [done|]. auto.
  - rewrite Hsh. destruct (decide (k0 = k1)) as [->|].
    + simplify_eq. destruct Hx as [->|Hx]; [done|]. auto.
    + destruct (He k1 k0 f z x); auto.
  - by apply (He k1 k2 f).
Qed.

Section copy.
Context (p c : Z) (Hpc : p ≠ c).

(** The page tables the child still lacks. *)
Definition lacks (s : VM) : gset (Z * Z) := filter (λ t, t.1 = p ∧ (c, t.2) ∉ tables s) (tables s).

Record copied (s0 s : VM) (k : nat) (vis : list Z) : Prop := {
  cp_wf : wf s;
  cp_excl : excl s;
  cp_mem : pmem s = pmem s0;
  cp_tables : same_tables p s s0;
  cp_other e v : e ≠ p → e ≠ c → pte s !! (e, v) = pte s0 !! (e, v);
  cp_parent v : same_page (pte s !! (p, v)) (pte s0 !! (p, v));
  cp_child v : same_page (pte s !! (c, v)) (if decide (v ∈ vis) then pte s0 !! (p, v) else None);
  cp_free : (size (lacks s) + k ≤ free s)%nat }.

(** The part of [copied] that a step of [duppage] establishes. *)
Record dup_post (v fr x y : Z) (s s' : VM) : Prop := {
  dp_wf : wf s';
  dp_excl : excl s';
  dp_mem : pmem s' = pmem s;
  dp_tables : tables s' = {[(c, v / NPDENTRIES)]} ∪ tables s;
  dp_other e w : (e, w) ≠ (p, v) → (e, w) ≠ (c, v) → pte s' !! (e, w) = pte s !! (e, w);
  dp_parent : pte s' !! (p, v) = Some (fr, x);
  dp_child : pte s' !! (c, v) = Some (fr, y);
  dp_free : (free s ≤ free s' + cost s c v)%nat }.

Lemma vpn_page v : vpn (v * PGSIZE) = v.
Proof. by apply Z.div_mul. Qed.

Lemma va_ok_page v : 0 ≤ v * PGSIZE ≤ UTOP → va_ok (v * PGSIZE).
Proof.
  intros Hv. apply andb_True. rewrite !Is_true_true. split; [by apply Z.eqb_eq, Z.mod_mul|].
  apply Z.leb_le, Hv.
Qed.

(** The page only goes to the child: shared, or not writable. *)
Lemma dup_map_ok v fr x s y E (Q : Z → VM → Prop) :
  wf s → excl s → pte s !! (p, v) = Some (fr, x) → 0 ≤ v * PGSIZE ≤ UTOP →
  (cost s c v ≤ free s)%nat → (has x PTE_W → has x PTE_SHARE) → y = Z.land x PTE_SYSCALL →
  (∀ s', dup_post v fr x y s s' → Q 0 s') →
  wpx (u_page_map p (v * PGSIZE) c (v * PGSIZE) y) s Q E.
Proof.
  intros Hwf He Hm Hv Hc Hx -> HQ.
  eapply (page_map_ok _ _ _ _ _ _ fr x); [done| |by apply va_ok_page..| | | |].
  - eapply perm_ok_share, wf_perm; eauto.
  - by rewrite vpn_page.
  - rewrite land_has; auto.
  - by rewrite vpn_page.
  - rewrite vpn_page. intros s' [W1 W2 W3 W4 W5]. apply HQ. split; try done.
    + eapply excl_again; [done|exact Hm|done|..]; rewrite ?land_has; auto 6.
    + intros. rewrite W2. by rewrite lookup_insert_ne.
    + rewrite W2, lookup_insert_ne by congruence. done.
    + rewrite W2. by rewrite lookup_insert_eq.
Qed.

Lemma cow_share x : has (cow x) PTE_SHARE = has x PTE_SHARE.
Proof.
  unfold cow. autorewrite with perm. rewrite Z.lnot_spec by done.
  change (Z.testbit PTE_SYSCALL 10) with true. change (Z.testbit PTE_COW 10) with false.
  change (Z.testbit PTE_W 10) with false. by destruct (Z.testbit x 10).
Qed.

(** A writable or copy-on-write page becomes copy-on-write in both. *)
Lemma dup_cow_ok v fr x s E (Q : unit → VM → Prop) :
  wf s → excl s → pte s !! (p, v) = Some (fr, x) → 0 ≤ v * PGSIZE ≤ UTOP →
  (cost s c v ≤ free s)%nat →
  (∀ s', dup_post v fr (cow x) (cow x) s s' → Q tt s') →
  wpx (u_page_map p (v * PGSIZE) c (v * PGSIZE) (cow x) ≫= λ _,
       u_page_map p (v * PGSIZE) p (v * PGSIZE) (cow x) ≫= λ _, mret tt) s Q E.
Proof.
  intros Hwf He Hm Hv Hc HQ. pose proof (wf_perm _ Hwf _ _ _ Hm) as Hu.
  assert (¬ has (cow x) PTE_W) as HnW by (rewrite cow_not_W; by intros []).
  wp_step. eapply (page_map_ok _ _ _ _ _ _ fr x); [done| |by apply va_ok_page..| | | |];
    rewrite ?vpn_page; [by apply perm_ok_cow|done|done|done|].
  intros s1 [W1 P1 M1 T1 F1]. wp_step.
  assert (pte s1 !! (p, v) = Some (fr, x)) as Hm1 by (rewrite P1, lookup_insert_ne by congruence; done).
  eapply (page_map_ok _ _ _ _ _ _ fr x); [done| |by apply va_ok_page..| | | |];
    rewrite ?vpn_page; [by apply perm_ok_cow|done|done| |].
  { rewrite (cost_mapped _ _ _ _ W1 Hm1). lia. }
  intros s2 [W2 P2 M2 T2 F2]. wp_step. apply HQ.
  rewrite (cost_mapped _ _ _ _ W1 Hm1) in F2.
  assert (pte s2 = <[(c, v) := (fr, cow x)]> (<[(p, v) := (fr, cow x)]> (pte s))) as P.
  { rewrite P2, P1. apply insert_insert_ne. congruence. }
  split; [done| |congruence| | | | |lia].
  - set (s' := set_pte (<[(p, v) := (fr, cow x)]> (pte s)) s).
    assert (excl s') as He'.
    { eapply (excl_again (p, v) (p, v) fr x (cow x) s); try done; [apply cow_share|by left]. }
    eapply (excl_again (p, v) (c, v) fr (cow x) (cow x) s'); try done.
    { apply lookup_insert_eq. }
    right. done.
  - rewrite T2, T1. apply set_eq. intros t. rewrite !elem_of_union, !elem_of_singleton. split; [|tauto].
    intros [-> | ?]; [|tauto]. right. by apply (wf_tables _ Hwf _ _ _ Hm).
  - intros e w H1 H2. rewrite P, !lookup_insert_ne by done. done.
  - by rewrite P2, lookup_insert_eq.
  - by rewrite P, lookup_insert_eq.
Qed.

Lemma duppage_ok v fr x s E (Q : unit → VM → Prop) :
  wf s → excl s → pte s !! (p, v) = Some (fr, x) → 0 ≤ v * PGSIZE ≤ UTOP →
  (cost s c v ≤ free s)%nat →
  (∀ s' x' y, has x' PTE_SHARE = has x PTE_SHARE → has y PTE_SHARE = has x PTE_SHARE →
     dup_post v fr x' y s s' → Q tt s') →
  wpx (duppage p c v) s Q E.
Proof.
  intros Hwf He Hm Hv Hc HQ. unfold duppage. wp_step. wp_step.
  assert (perm_of p (v * PGSIZE) s = x) as -> by (unfold perm_of; by rewrite vpn_page, Hm).
  rewrite !land_has by auto 6.
  destruct (has x PTE_SHARE) eqn:Hs; [|destruct (has x PTE_W || has x PTE_COW) eqn:Hw].
  - wp_step. eapply dup_map_ok; try done; [by rewrite Hs|]. intros s' Hd. wp_step.
    eapply (HQ s'); [exact Hs| |done]. rewrite land_has; auto 6.
  - apply (dup_cow_ok _ fr x); try done. intros s' Hd.
    eapply (HQ s'); [..|done]; by rewrite cow_share.
  - apply orb_false_iff in Hw as [Hw _].
    wp_step. eapply dup_map_ok; try done; [by rewrite Hw|]. intros s' Hd. wp_step.
    eapply (HQ s'); [exact Hs| |done]. rewrite land_has; auto 6.
Qed.

(** The budget pays for the child's new page table. *)
Lemma lacks_step v x s s' :
  wf s → pte s !! (p, v) = Some x → tables s' = {[(c, v / NPDENTRIES)]} ∪ tables s →
  (size (lacks s') + cost s c v ≤ size (lacks s))%nat.
Proof.
  intros Hwf Hm Ht. pose proof (wf_tables _ Hwf _ _ _ Hm) as Hp.
  assert (lacks s' ⊆ lacks s) as Hsub.
  { intros [e t]. unfold lacks. rewrite !elem_of_filter, Ht. simpl. set_solver. }
  unfold cost. case_bool_decide as Hc; [pose proof (subseteq_size _ _ Hsub); lia|].
  assert ((p, v / NPDENTRIES) ∈ lacks s) by (unfold lacks; by rewrite elem_of_filter).
  assert (lacks s' ⊆ lacks s ∖ {[(p, v / NPDENTRIES)]}) as Hsub'.
  { intros t Hin. apply elem_of_difference. split; [by apply Hsub|].
    intros ->%elem_of_singleton. unfold lacks in Hin. rewrite elem_of_filter, Ht in Hin. set_solver. }
  pose proof (subseteq_size _ _ Hsub'). rewrite size_difference, size_singleton in H0 by set_solver.
  assert (size (lacks s) ≠ 0%nat); [|lia]. apply size_non_empty_iff. set_solver.
Qed.

Lemma copied_step s0 s k vis v fr x x' y s' :
  copied s0 s k vis → pte s !! (p, v) = Some (fr, x) →
  has x' PTE_SHARE = has x PTE_SHARE → has y PTE_SHARE = has x PTE_SHARE →
  dup_post v fr x' y s s' → copied s0 s' k (vis ++ [v]).
Proof.
  intros [C1 C2 C3 C4 C5 C6 C7 C8] Hm Hx Hy [D1 D2 D3 D4 D5 D6 D7 D8].
  pose proof (C6 v) as Hv. rewrite Hm in Hv.
  split; try done; [congruence| | | | |].
  - intros t. rewrite <- (C4 t), D4, elem_of_union, elem_of_singleton. split; [|tauto].
    intros [?|?]; [congruence|done].
  - intros e w ??. rewrite D5 by congruence. auto.
  - intros w. destruct (decide (w = v)) as [->|]; [|rewrite D5 by congruence; auto].
    rewrite D6. eapply same_page_trans; [|apply Hv]. by split.
  - intros w. destruct (decide (w = v)) as [->|].
    + rewrite D7, decide_True by set_solver. eapply same_page_trans; [|apply Hv]. by split.
    + rewrite D5 by congruence. specialize (C7 w).
      destruct (decide (w ∈ vis)); [rewrite decide_True by set_solver|rewrite decide_False by set_solver]; done.
  - pose proof (lacks_step _ _ _ _ C1 Hm D4). lia.
Qed.

(** A page that is not mapped is visited without effect. *)
Lemma copied_skip s0 s k vis v :
  copied s0 s k vis → pte s !! (p, v) = None → copied s0 s k (vis ++ [v]).
Proof.
  intros [C1 C2 C3 C4 C5 C6 C7 C8] Hm. split; try done.
  pose proof (C6 v) as Hv. rewrite Hm in Hv. intros w. specialize (C7 w).
  destruct (decide (w = v)) as [->|].
  - rewrite decide_True by set_solver.
    destruct (pte s0 !! (p, v)) as [[]|] eqn:H0; [done|]. by case_decide.
  - destruct (decide (w ∈ vis)); [rewrite decide_True by set_solver|rewrite decide_False by set_solver]; done.
Qed.

Lemma has_program_ext s s' : same_tables p s s' → has_program p s' → has_program p s.
Proof. intros H [??]. by split; apply H. Qed.

Lemma scan_at_ext s s' addr : same_tables p s s' → scan_at p s' addr → scan_at p s addr.
Proof.
  intros H. unfold scan_at.
  assert (has_pdpe p (vpn addr) s = has_pdpe p (vpn addr) s') as ->
    by (by apply bool_decide_ext, (exists_tables_ext p (λ x, x / 512 = _))).
  done.
Qed.

Lemma page_bound addr : 0 ≤ addr ≤ USTACKTOP - PGSIZE → 0 ≤ vpn addr * PGSIZE ≤ UTOP.
Proof.
  change (USTACKTOP - PGSIZE) with 4018130944. change UTOP with (ltac:(let x := eval vm_compute in UTOP in exact x)).
  unfold vpn, PGSIZE. zlia.
Qed.

(** The scan ends within its fuel and copies every page it visits. *)
Lemma fork_loop_ok fuel addr s0 s k vis E (Q : unit → VM → Prop) :
  has_program p s0 → scan_at p s0 addr → copied s0 s k vis →
  (Z.to_nat ((addr - UTEXT) / PGSIZE + 1) ≤ fuel)%nat →
  (∀ s', copied s0 s' k (vis ++ scan p fuel addr s0) → Q tt s') →
  wpx (fork_loop p c fuel addr) s Q E.
Proof.
  intros Hp. revert addr s vis. induction fuel as [|f IH]; intros addr s vis Hat Hc Hfuel HQ.
  - cbn [fork_loop scan] in *. destruct (UTEXT <=? addr) eqn:Hle.
    + apply Z.leb_le in Hle. exfalso. revert Hfuel. unfold PGSIZE. zlia.
    + wp_step. apply HQ. by rewrite app_nil_r.
  - cbn [fork_loop scan] in *. destruct (UTEXT <=? addr) eqn:Hle; [|wp_step; apply HQ; by rewrite app_nil_r].
    apply Z.leb_le in Hle. destruct (scan_step p s0 addr) as (Hu & Hn & Hd); [done..|].
    wp_step. wp_step. rewrite (skip_ext p addr s s0) by apply Hc. rewrite Hu in *. wp_step.
    assert (∀ s', copied s0 s' k (vis ++ [vpn addr]) →
      wpx (fork_loop p c f (skip p addr s0 - PGSIZE)) s' Q E) as Hnext.
    { intros s' Hc'. eapply IH; [done|exact Hc'| |].
      - revert Hfuel Hd. unfold PGSIZE. zlia.
      - intros s''. rewrite <- app_assoc. apply HQ. }
    destruct (pte s !! (p, vpn addr)) as [[fr x]|] eqn:Hm.
    + assert (has_pd p (vpn addr) s) as ->%Is_true_true.
      { apply bool_decide_pack. eapply (wf_tables s), Hm. apply Hc. }
      rewrite bool_decide_true by eauto. simpl.
      pose proof (lacks_step (vpn addr) _ s (set_tables ({[(c, vpn addr / NPDENTRIES)]} ∪ tables s) s) (cp_wf _ _ _ _ Hc) Hm eq_refl).
      eapply (duppage_ok _ fr x); [apply Hc..|exact Hm|apply page_bound, Hat| |].
      * pose proof (cp_free _ _ _ _ Hc). lia.
      * intros s' x' y Hx Hy Hd'. apply Hnext. by apply (copied_step _ s _ _ _ fr x x' y).
    + rewrite andb_comm. simpl.
      wp_step. apply Hnext. by apply copied_skip.
Qed.
End copy.

(** ** fork *)

Definition STK : Z := vpn (USTACKTOP - PGSIZE).
Definition UXS : Z := vpn (UXSTACKTOP - PGSIZE).
Definition visited (p : Z) (s : VM) : list Z := scan p FORK_FUEL (USTACKTOP - PGSIZE) s.

Lemma same_page_view s s' e e' va :
  same_page (pte s !! (e, vpn va)) (pte s' !! (e', vpn va)) →
  (∀ fr x, pte s' !! (e', vpn va) = Some (fr, x) →
     byte (pmem s) fr (va mod PGSIZE) = byte (pmem s') fr (va mod PGSIZE)) →
  view s e va = view s' e' va.
Proof.
  intros Hs Hb. rewrite !view_byte.
  destruct (pte s !! _) as [[f x]|], (pte s' !! _) as [[f' x']|]; try done.
  destruct Hs as [-> _]. simpl. by rewrite (Hb f' x').
Qed.

Lemma same_page_private s s' e e' va :
  same_page (pte s !! (e, vpn va)) (pte s' !! (e', vpn va)) → private s' e' va → private s e va.
Proof.
  intros Hs (H1 & H2 & fr & x & Hm & Hx). rewrite Hm in Hs. split; [done|split; [done|]].
  destruct (pte s !! _) as [[f y]|]; [|done]. destruct Hs as [-> Hs]. exists fr, y. by rewrite Hs.
Qed.

Lemma fork_fuel : (Z.to_nat ((USTACKTOP - PGSIZE - UTEXT) / PGSIZE + 1) ≤ FORK_FUEL)%nat.
Proof. unfold FORK_FUEL. apply Z2Nat.inj_le; done. Qed.

Section fork.
Context (p c : Z).

(** An environment with a program and a stack, a child as sys_exofork leaves it,
    and frames for the child's page tables, its two stack pages and theirs. *)
Record fork_pre (s : VM) : Prop := {
  fp_ne : p ≠ c;
  fp_wf : wf s;
  fp_excl : excl s;
  fp_text : is_Some (pte s !! (p, vpn UTEXT));
  fp_stack : is_Some (pte s !! (p, STK));
  fp_temp : pte s !! (p, PFT) = None;
  fp_child v : pte s !! (c, v) = None;
  fp_free : (size (lacks p c s) + 5 ≤ free s)%nat }.

(** What the parent gets from fork. *)
Record forked (s s' : VM) : Prop := {
  fk_wf : wf s';
  fk_excl : excl s';
  fk_view e va : e ≠ c → view s' e va = view s e va;
  fk_copy va : vpn va ∈ visited p s → view s' c va = view s p va;
  fk_rest va : vpn va ∉ visited p s → vpn va ≠ UXS → view s' c va = None;
  fk_private va : private s p va → private s' p va;
  fk_child va : private s p va → vpn va ∈ visited p s → private s' c va;
  fk_temp : pte s' !! (p, PFT) = None ∧ pte s' !! (c, PFT) = None;
  fk_free : (free s ≤ free s' + size (lacks p c s) + 5)%nat }.

Lemma fork_pre_program s : fork_pre s → has_program p s.
Proof.
  intros [? Hwf ? [??] [??] ???]. split; eapply (wf_tables _ Hwf); eauto.
Qed.

Lemma scan_at_top s : fork_pre s → scan_at p s (USTACKTOP - PGSIZE).
Proof.
  intros H. split; [done|]. left. apply has_pdpe_table. by apply (fork_pre_program _ H).
Qed.

Lemma visited_range s v : fork_pre s → v ∈ visited p s → vpn UTEXT ≤ v ≤ STK.
Proof. intros H. apply scan_range; [by apply fork_pre_program|by apply scan_at_top]. Qed.

Lemma visited_stack s v : v = STK → v ∈ visited p s.
Proof.
  intros ->. unfold visited. destruct FORK_FUEL as [|f] eqn:Hf.
  - exfalso. pose proof fork_fuel as H. rewrite Hf in H. inversion H.
  - left.
Qed.
Lemma STK_UXS : STK < UXS. Proof. done. Qed.
Lemma PFT_UTEXT : PFT < vpn UTEXT. Proof. done. Qed.

Lemma copied_start s : fork_pre s → copied p c s s (free s - size (lacks p c s)) [].
Proof.
  intros H. pose proof H as [????????]. split; try done.
  - intros v. apply same_page_refl.
  - intros v. by rewrite fp_child0.
  - lia.
Qed.

(** The two pages fork gives the child itself. *)
Record stacked (s s' : VM) (f1 f2 : Z) : Prop := {
  sk_wf : wf s';
  sk_new1 k y : pte s !! k ≠ Some (f1, y);
  sk_new2 k y : pte s !! k ≠ Some (f2, y);
  sk_ne : f1 ≠ f2;
  sk_pte : pte s' = <[(c, STK) := (f2, UPW)]> (<[(c, UXS) := (f1, UPW)]> (pte s));
  sk_byte fr x f o : pte s !! (p, STK) = Some (fr, x) → 0 ≤ o < PGSIZE →
    byte (pmem s') f o = if decide (f = f2) then byte (pmem s) fr o else byte (pmem s) f o;
  sk_free : (free s ≤ free s' + 5)%nat }.

Lemma fork_stacks_ok s fr x E (Q : unit → VM → Prop) :
  p ≠ c → wf s → pte s !! (p, STK) = Some (fr, x) → pte s !! (p, PFT) = None →
  pte s !! (c, UXS) = None → (5 ≤ free s)%nat →
  (∀ s' f1 f2, stacked s s' f1 f2 → Q tt s') →
  wpx (fork_stacks p c) s Q E.
Proof.
  intros Hpc Hwf Hm Ht Hux Hf HQ. unfold fork_stacks. wp_step.
  pose proof (cost_le s c UXS) as K1.
  apply page_alloc_ok; [done..|fold UXS; lia|]. fold UXS. intros f1 s1 N1 I1 O1 W1 P1 M1 T1 F1.
  pose proof (cost_le s1 c STK) as K2. wp_step.
  apply page_alloc_ok; [done..|fold STK; lia|]. fold STK. intros f2 s2 N2 I2 O2 W2 P2 M2 T2 F2.
  pose proof (cost_le s2 p PFT) as K3. wp_step.
  eapply (page_map_ok _ _ _ _ _ _ f2 UPW); [done..| |done|fold PFT; lia|].
  { fold STK. by rewrite P2, lookup_insert_eq. }
  fold PFT. intros s3 [W3 P3 M3 T3 F3]. wp_step.
  assert (pte s3 !! (p, STK) = Some (fr, x)) as Hm3.
  { rewrite P3, P2, P1, !lookup_insert_ne by congruence. done. }
  eapply (copy_page_ok _ _ _ _ f2 UPW fr x); [fold PFT|done|exact Hm3|done|].
  { by rewrite P3, lookup_insert_eq. }
  intros s4 W4 P4 T4 F4 B4. wp_step.
  eapply (page_unmap_ok _ _ _ f2 UPW); [done..| |].
  { fold PFT. by rewrite P4, P3, lookup_insert_eq. }
  fold PFT. intros s5 W5 P5 M5 T5 F5. wp_step. apply (HQ s5 f1 f2). split; [done|done| | | | |].
  - intros k y Hk. destruct (decide (k = (c, UXS))) as [->|]; [congruence|].
    apply (N2 k y). by rewrite P1, lookup_insert_ne.
  - intros <-. apply (N2 (c, UXS) UPW). by rewrite P1, lookup_insert_eq.
  - rewrite P5, P4, P3, P2, P1. rewrite delete_insert_id; [done|].
    rewrite !lookup_insert_ne by congruence. done.
  - intros fr' x' f o Hm' Ho. simplify_eq. rewrite M5, B4, M3, M2, M1 by done. done.
  - unfold free in *. rewrite F4 in F5. lia.
Qed.

Lemma forked_of_stacked s s1 s' f1 f2 k vis :
  fork_pre s → (size (lacks p c s) + k = free s)%nat → vis = visited p s →
  copied p c s s1 k vis → stacked s1 s' f1 f2 → forked s s'.
Proof.
  intros Hpre Hk -> [C1 C2 C3 C4 C5 C6 C7 C8] [K1 K2 K3 K4 K5 K6 K7].
  pose proof (fp_ne _ Hpre) as Hpc. destruct (fp_stack _ Hpre) as [[fr0 x0] Hstk].
  assert (∃ x, pte s1 !! (p, STK) = Some (fr0, x) ∧ has x PTE_SHARE = has x0 PTE_SHARE) as (x & Hm & Hx).
  { specialize (C6 STK). rewrite Hstk in C6. destruct (pte s1 !! (p, STK)) as [[f y]|]; [|done].
    destruct C6 as [-> ?]. by exists y. }
  assert (∀ f o, (∃ k y, pte s1 !! k = Some (f, y)) → 0 ≤ o < PGSIZE → byte (pmem s') f o = byte (pmem s1) f o) as Hb.
  { intros f o (k' & y & Hk') Ho. rewrite (K6 _ _ _ _ Hm Ho), decide_False; [done|].
    intros ->. by apply (K3 k' y). }
  assert (∀ e va, (e, vpn va) ≠ (c, STK) → (e, vpn va) ≠ (c, UXS) → view s' e va = view s1 e va) as Hv.
  { intros e va ??. apply same_page_view.
    - rewrite K5, !lookup_insert_ne by done. apply same_page_refl.
    - intros f y Hf. apply Hb; [by eexists _, _|apply off_range]. }
  assert (∀ va, vpn va ∈ visited p s → vpn va ≠ UXS) as HUX.
  { intros va Hin%visited_range; [|done]. pose proof STK_UXS. lia. }
  split; [done| | | | | | | |].
  - eapply (excl_fresh (c, STK) f2 UPW (set_pte (<[(c, UXS) := (f1, UPW)]> (pte s1)) s1)); [|intros k' y|done].
    + eapply (excl_fresh (c, UXS) f1 UPW s1); done.
    + simpl. intros [[? ?]|[? ?]]%lookup_insert_Some; [by simplify_eq|by apply (K3 k' y)].
  - intros e va He. rewrite Hv by congruence. apply same_page_view; [|intros; by rewrite C3].
    destruct (decide (e = p)) as [->|]; [apply C6|]. rewrite C5 by done. apply same_page_refl.
  - intros va Hin. destruct (decide (vpn va = STK)) as [Heq|Hne].
    + rewrite !view_byte, Heq, Hstk, K5, lookup_insert_eq. simpl. f_equal.
      rewrite (K6 _ _ _ _ Hm) by apply off_range. rewrite decide_True by done. by rewrite C3.
    + rewrite Hv by (intros ?; simplify_eq; by apply (HUX va)). apply same_page_view; [|intros; by rewrite C3].
      specialize (C7 (vpn va)). by rewrite decide_True in C7.
  - intros va Hnin Hux. rewrite Hv, view_byte by (intros ?; simplify_eq; by apply Hnin, visited_stack).
    specialize (C7 (vpn va)). rewrite decide_False in C7 by done. by destruct (pte s1 !! _) as [[]|].
  - intros va Hp. eapply (same_page_private s' s); [|done].
    rewrite K5, !lookup_insert_ne by congruence. apply C6.
  - intros va Hp Hin. destruct (decide (vpn va = STK)) as [Heq|Hne].
    + destruct Hp as (H1 & H2 & _). split; [done|split; [done|]]. exists f2, UPW.
      rewrite Heq, K5, lookup_insert_eq. split; [done|by intros []].
    + eapply (same_page_private s' s); [|exact Hp].
      rewrite K5, !lookup_insert_ne by (intros ?; simplify_eq; by apply (HUX va)).
      specialize (C7 (vpn va)). by rewrite decide_True in C7.
  - rewrite K5, !lookup_insert_ne by done. split.
    + specialize (C6 PFT). rewrite (fp_temp _ Hpre) in C6. by destruct (pte s1 !! _) as [[]|].
    + specialize (C7 PFT). rewrite decide_False in C7; [by destruct (pte s1 !! _) as [[]|]|].
      intros Hin%visited_range; [|done]. pose proof PFT_UTEXT. lia.
  - lia.
Qed.

Lemma fork_ok s E (Q : Z → VM → Prop) :
  fork_pre s → (∀ s', forked s s' → Q c s') → wpx (fork p c) s Q E.
Proof.
  intros Hpre HQ. pose proof Hpre as [Hpc Hwf He Ht Hs Htmp Hc Hf]. unfold fork. wp_step.
  eapply (fork_loop_ok p c Hpc _ _ s); [by apply fork_pre_program|by apply scan_at_top|by apply copied_start|apply fork_fuel|].
  rewrite app_nil_l. intros s1 H1. wp_step.
  pose proof H1 as [C1 C2 C3 C4 C5 C6 C7 C8]. destruct Hs as [[fr x] Hstk].
  pose proof (C6 STK) as K. rewrite Hstk in K. destruct (pte s1 !! (p, STK)) as [[f y]|] eqn:Hm; [|done].
  eapply (fork_stacks_ok s1 f y); [done..| | |lia|].
  - specialize (C6 PFT). rewrite Htmp in C6. by destruct (pte s1 !! _) as [[]|].
  - specialize (C7 UXS). rewrite decide_False in C7; [by destruct (pte s1 !! _) as [[]|]|].
    intros Hin%visited_range; [|done]. pose proof STK_UXS. lia.
  - intros s' f1 f2 Hsk. wp_step. apply HQ. eapply forked_of_stacked; [done| |reflexivity|exact H1|exact Hsk]. lia.
Qed.
End fork.

(** ** Isolation *)

(** A write by the parent, or by the child at a page it was given, to one of the
    parent's private pages. *)
Definition fork_write (p c : Z) (s : VM) (w : write) : Prop :=
  (w.1.1 = p ∨ w.1.1 = c ∧ vpn w.1.2 ∈ visited p s) ∧ private s p w.1.2 ∧ 0 ≤ w.2 < 256.

(** C3. After fork the child has the parent's memory as it was, and every later
    write to a private page, by either, in any order and through any number of
    copy-on-write faults, changes the writer's memory at that address and nothing
    else: the two behave as separate memories that start out equal on the pages
    the scan visited.  The free frames pay for the child's page tables, its
    stacks, and two per write. *)
Theorem fork_isolates p c s l :
  fork_pre p c s → Forall (fork_write p c s) l →
  (size (lacks p c s) + 5 + 2 * length l ≤ free s)%nat →
  wp (fork p c ≫= λ r, user_writes l ≫= λ _, mret r) s (λ r s', r = c ∧ wf s' ∧ excl s' ∧
    ∀ e va, e ≠ c ∨ vpn va ∈ visited p s →
      view s' e va = upds (λ e, view s (if decide (e = c) then p else e)) l e va).
Proof.
  intros Hpre Hl Hfree. wp_step. apply fork_ok; [done|]. intros s1 [K1 K2 K3 K4 K4' K5 K6 K7 K8].
  wp_step. apply user_writes_ok; [done..| |lia|].
  - eapply list.Forall_impl; [exact Hl|]. intros [[e va] b] (He & Hp & Hb). simpl in *.
    destruct He as [-> | [-> Hin]]; (split; [auto|split; [apply K7|done]]).
  - intros s' W He Hv. wp_step. split; [done|split; [done|split; [done|]]].
    intros e va Hd. rewrite Hv. apply upds_at. case_decide as Hc.
    + subst. destruct Hd; [done|]. by apply K4.
    + by apply K3.
Qed.

(** ** Examples *)

(** Environment 1 has a page of text, a page of stack, and a page at [v]. *)
Definition ex_vm (v : Z) (n : nat) : VM :=
  mkVM ∅ ((λ i, 20 + Z.of_nat i) <$> seq 0 n)
    (<[(1, vpn UTEXT) := (10, UPW)]> (<[(1, STK) := (11, UPW)]> {[(1, v) := (12, UPW)]}))
    {[(1, vpn UTEXT / NPDENTRIES); (1, STK / NPDENTRIES); (1, v / NPDENTRIES)]}.

Lemma ex_vm_pte v n k fr x :
  pte (ex_vm v n) !! k = Some (fr, x) →
  x = UPW ∧ (k = (1, vpn UTEXT) ∧ fr = 10 ∨ k = (1, STK) ∧ fr = 11 ∨ k = (1, v) ∧ fr = 12).
Proof.
  unfold ex_vm. cbn [pte].
  intros [[<- ?]|[_ [[<- ?]|[_ [<- ?]%lookup_singleton_Some]]%lookup_insert_Some]]%lookup_insert_Some;
    simplify_eq; tauto.
Qed.

Lemma ex_vm_pre v n :
  v ≠ vpn UTEXT → v ≠ STK → v ≠ PFT →
  (size (lacks 1 2 (ex_vm v n)) + 5 ≤ n)%nat → fork_pre 1 2 (ex_vm v n).
Proof.
  intros H1 H2 H3 Hn. split; [done| | | | | | |].
  - split.
    + apply NoDup_fmap; [intros ???; lia|apply NoDup_seq].
    + intros fr k x [_ Hk]%ex_vm_pte [i [Hi _]]%list_elem_of_fmap. lia.
    + intros e w [fr x] [_ Hk]%ex_vm_pte. cbn [tables ex_vm].
      destruct Hk as [[? _]|[[? _]|[? _]]]; simplify_eq; set_solver.
    + intros fr k x [-> _]%ex_vm_pte. done.
    + intros a. cbn [pmem ex_vm]. unfold ldb. rewrite !getd_empty. lia.
  - intros k k' fr x x' [_ Hk]%ex_vm_pte [_ Hk']%ex_vm_pte Hne. exfalso. apply Hne.
    destruct Hk as [[-> ?]|[[-> ?]|[-> ?]]], Hk' as [[-> ?]|[[-> ?]|[-> ?]]]; done || lia.
  - eexists. cbn [pte ex_vm]. apply lookup_insert_eq.
  - eexists. cbn [pte ex_vm]. rewrite lookup_insert_ne by done. apply lookup_insert_eq.
  - cbn [pte ex_vm]. rewrite !lookup_insert_ne by done. apply lookup_singleton_ne. congruence.
  - intros w. cbn [pte ex_vm]. rewrite !lookup_insert_ne by done. by apply lookup_singleton_ne.
  - unfold free. cbn [pfree ex_vm]. by rewrite length_fmap, length_seq.
Qed.

(** fork loses a page.  Where a page table is missing, the loop's own decrement
    comes on top of the jump over its two megabytes, and the last page of the two
    megabytes below is not looked at: a page mapped there is not in the child. *)
Theorem fork_loses_page :
  ∃ s va, fork_pre 1 2 s ∧ UTEXT ≤ va < USTACKTOP ∧ is_Some (pte s !! (1, vpn va)) ∧
    wp (fork 1 2) s (λ _ s', view s' 2 va = None).
Proof.
  set (v := STK / NPDENTRIES * NPDENTRIES - NPDENTRIES - 1).
  assert (fork_pre 1 2 (ex_vm v 8)) as Hpre by (apply ex_vm_pre; [done..|vm_compute; lia]).
  exists (ex_vm v 8), (v * PGSIZE). rewrite vpn_page. split; [done|split; [done|split]].
  - eexists. cbn [pte ex_vm]. rewrite !lookup_insert_ne by done. apply lookup_singleton_eq.
  - apply fork_ok; [done|]. intros s' Hf. apply (fk_rest _ _ _ _ Hf); rewrite vpn_page; [|done].
    apply (bool_decide_unpack _). vm_compute. exact I.
Qed.

Lemma fork_isolates_witness :
  wp (fork 1 2 ≫= λ r, user_writes [(1, UTEXT, 65); (2, UTEXT, 66)] ≫= λ _, mret r) (ex_vm (vpn UTEXT + 1) 12)
    (λ r s', r = 2 ∧ view s' 1 UTEXT = Some 65 ∧ view s' 2 UTEXT = Some 66).
Proof.
  assert (vpn UTEXT ∈ visited 1 (ex_vm (vpn UTEXT + 1) 12)) as Hvis.
  { apply (bool_decide_unpack _). vm_compute. exact I. }
  assert (private (ex_vm (vpn UTEXT + 1) 12) 1 UTEXT) as Hpriv.
  { split; [done|split; [done|]]. exists 10, UPW. split; [apply lookup_insert_eq|by intros []]. }
  eapply wpx_conseq.
  - apply (fork_isolates 1 2 (ex_vm (vpn UTEXT + 1) 12) [(1, UTEXT, 65); (2, UTEXT, 66)]).
    + apply ex_vm_pre; [done..|vm_compute; lia].
    + constructor; [split; [by left|by split]|].
      constructor; [split; [by right|by split]|constructor].
    + vm_compute. lia.
  - intros r s' (-> & _ & _ & Hv). split; [done|].
    rewrite (Hv 1 UTEXT), (Hv 2 UTEXT) by auto. done.
Defined.
