(* ===== verification/Shell.v ===== *)
(** * The shell's command line (user/sh.c)

    _gettoken, gettoken and the part of runcmd that reads a command and sets up its
    descriptors: its words, its redirections, its pipes, and what ends it, with the
    exits that a failing call leads to.  The line is a string in the shell's memory,
    which the tokenizer cuts up in place with NULs.  The calls of the library are
    the operations of a record, over a state of their own. *)
From Stdlib Require Import String.
From S2P Require Import Prelude Mem StringC Printfmt.

Definition WHITESPACE : list Z := [32; 9; 13; 10].
Definition SYMBOLS : list Z := [60; 124; 62; 38; 59; 40; 41].
Definition MAXARGS : nat := 16.
Definition WORD : Z := 119.

(** [strchr] in a constant string; the NUL is not found. *)
Definition among (l : list Z) (c : Z) : bool := existsb (Z.eqb c) l.

(** The memory, and the static variables of gettoken. *)
Record Sh : Type := mkSh { sh_mem : mem; nc : Z; np1 : Z; np2 : Z }.

(** [while (strchr(WHITESPACE, *s)) *s++ = 0]; the loop of a word. *)
Fixpoint skip_white (fuel : nat) (m : mem) (s : Z) : option (mem * Z) :=
  match fuel with
  | O => None
  | S f => if among WHITESPACE (ldb m s) then skip_white f (stb m s 0) (s + 1) else Some (m, s)
  end.
Fixpoint word_end (fuel : nat) (m : mem) (s : Z) : option Z :=
  match fuel with
  | O => None
  | S f =>
      if negb (ldb m s =? 0) && negb (among (WHITESPACE ++ SYMBOLS) (ldb m s))
      then word_end f m (s + 1) else Some s
  end.

(** The token's code, and the state but for [nc]. *)
Definition _gettoken (fuel : nat) (s : Z) (st : Sh) : option (Z * Sh) :=
  if s =? 0 then Some (0, st)
  else
    '(m, s) ← skip_white fuel (sh_mem st) s;
    let t := ldb m s in
    if t =? 0 then Some (0, mkSh m (nc st) 0 0)
    else if among SYMBOLS t then Some (t, mkSh (stb m s 0) (nc st) s (s + 1))
    else e ← word_end fuel m s; Some (WORD, mkSh m (nc st) s e).

Definition set_nc (x : Z) (st : Sh) : Sh := mkSh (sh_mem st) x (np1 st) (np2 st).

(** [gettoken(s, 0)] and [gettoken(0, &p)]. *)
Definition gettoken_start (fuel : nat) (s : Z) (st : Sh) : option Sh :=
  '(t, st) ← _gettoken fuel s st; Some (set_nc t st).
Definition gettoken (fuel : nat) (st : Sh) : option (Z * Z * Sh) :=
  '(t, st') ← _gettoken fuel (np2 st) st; Some (nc st, np1 st, set_nc t st').

(** What runcmd asks of the rest of the system: open, dup and close, whose results
    it ignores, pipe with the two descriptors, and fork. *)
Record Sys (W : Type) : Type := mkSys
  { sys_open : list Z → Z → W → Z * W;
    sys_dup : Z → Z → W → W;
    sys_close : Z → W → W;
    sys_pipe : W → Z * (Z * Z) * W;
    sys_fork : W → Z * W }.
Arguments mkSys {W} _ _ _ _ _.
Arguments sys_open {W} _ _ _ _.
Arguments sys_dup {W} _ _ _ _.
Arguments sys_close {W} _ _ _.
Arguments sys_pipe {W} _ _.
Arguments sys_fork {W} _ _.

(** [O_RDONLY], and [O_WRONLY|O_CREAT|O_TRUNC]. *)
Definition O_READ : Z := 0.
Definition O_REPLACE : Z := 0x301.

(** The string at [p], as open sees it. *)
Fixpoint c_string (fuel : nat) (m : mem) (p : Z) : option (list Z) :=
  match fuel with
  | O => None
  | S f => if ldb m p =? 0 then Some [] else l ← c_string f m (p + 1); Some (ldb m p :: l)
  end.

(** How the loop of runcmd ends: at [runit] with [pipe_child], by exit(), or by the
    panic. *)
Inductive ending : Type := RunIt (pipe_child : Z) | Exit | BadToken.

Section runcmd.
Context {W : Type} (sys : Sys W).

(** [if (fd != to) { dup(fd, to); close(fd); }] *)
Definition move_fd (fd to : Z) (w : W) : W :=
  if fd =? to then w else sys_close sys fd (sys_dup sys fd to w).

(** The words of the command are in [argv]; a child of the fork begins a new one. *)
Fixpoint run_args (n fuel : nat) (argv : list Z) (st : Sh) (w : W) : option (ending * list Z * Sh * W) :=
  match n with
  | O => None
  | S n' =>
      '(c, t, st) ← gettoken fuel st;
      if c =? WORD then
        if Nat.eqb (length argv) MAXARGS then Some (Exit, argv, st, w)
        else run_args n' fuel (argv ++ [t]) st w
      else if (c =? 60) || (c =? 62) then
        '(c', t', st) ← gettoken fuel st;
        if negb (c' =? WORD) then Some (Exit, argv, st, w)
        else
          path ← c_string fuel (sh_mem st) t';
          let '(fd, w) := sys_open sys path (if c =? 60 then O_READ else O_REPLACE) w in
          if fd <? 0 then Some (Exit, argv, st, w)
          else run_args n' fuel argv st (move_fd fd (if c =? 60 then 0 else 1) w)
      else if c =? 124 then
        let '(r, p, w) := sys_pipe sys w in
        if r <? 0 then Some (Exit, argv, st, w)
        else
          let '(r, w) := sys_fork sys w in
          if r <? 0 then Some (Exit, argv, st, w)
          else if r =? 0 then run_args n' fuel [] st (sys_close sys p.2 (move_fd p.1 0 w))
          else Some (RunIt r, argv, st, sys_close sys p.1 (move_fd p.2 1 w))
      else if c =? 0 then Some (RunIt 0, argv, st, w)
      else Some (BadToken, argv, st, w)
  end.
End runcmd.

(** [argv[argc] = 0], into an array of MAXARGS: [None] outside it. *)
Definition end_argv (argv : list Z) : option (list Z) :=
  if Nat.ltb (length argv) MAXARGS then Some (argv ++ [0]) else None.

(** ** The reference: tokens of a line *)

Inductive token : Type := TWord (w : list Z) | TSym (x : Z).

Definition flush (w : list Z) : list token := match w with [] => [] | _ => [TWord w] end.
Fixpoint lex (w : list Z) (l : list Z) : list token :=
  match l with
  | [] => flush w
  | x :: l =>
      if among WHITESPACE x then flush w ++ lex [] l
      else if among SYMBOLS x then flush w ++ TSym x :: lex [] l
      else lex (w ++ [x]) l
  end.

(** One command of a line of tokens, and what is left. *)
Fixpoint command {W} (sys : Sys W) (args : list (list Z)) (ts : list token) (w : W)
    : ending * list (list Z) * list token * W :=
  match ts with
  | [] => (RunIt 0, args, [], w)
  | TWord x :: ts =>
      if Nat.eqb (length args) MAXARGS then (Exit, args, ts, w) else command sys (args ++ [x]) ts w
  | TSym x :: ts =>
      if (x =? 60) || (x =? 62) then
        match ts with
        | TWord name :: ts =>
            let '(fd, w) := sys_open sys name (if x =? 60 then O_READ else O_REPLACE) w in
            if fd <? 0 then (Exit, args, ts, w)
            else command sys args ts (move_fd sys fd (if x =? 60 then 0 else 1) w)
        | _ => (Exit, args, tail ts, w)
        end
      else if x =? 124 then
        let '(r, p, w) := sys_pipe sys w in
        if r <? 0 then (Exit, args, ts, w)
        else
          let '(r, w) := sys_fork sys w in
          if r <? 0 then (Exit, args, ts, w)
          else if r =? 0 then command sys [] ts (sys_close sys p.2 (move_fd sys p.1 0 w))
          else (RunIt r, args, ts, sys_close sys p.1 (move_fd sys p.2 1 w))
      else (BadToken, args, ts, w)
  end.

(** ** Scanning *)

Definition is_word (x : Z) : bool := negb (among WHITESPACE x) && negb (among SYMBOLS x).

(** A string that no word runs into. *)
Definition stops (r : list Z) : Prop := match r with [] => True | x :: _ => is_word x = false end.

Lemma among_app l l' x : among (l ++ l') x = among l x || among l' x.
Proof. apply existsb_app. Qed.

Lemma among_zero : among WHITESPACE 0 = false ∧ among SYMBOLS 0 = false.
Proof. done. Qed.

(** The memory changes from [s] on, and not from [e] on. *)
Definition cut (m m' : mem) (s e : Z) : Prop := ∀ b, b < s ∨ e ≤ b → ldb m' b = ldb m b.

Lemma cut_refl m s e : cut m m s e.
Proof. by intros b _. Qed.

Lemma cut_cstr m m' s e l : cut m m' s e → cstr m e l → cstr m' e l.
Proof. intros H. apply cstr_ext. intros b Hb. symmetry. apply H. lia. Qed.

Lemma cut_stb m s m' e : s + 1 ≤ e → cut (stb m s 0) m' (s + 1) e → cut m m' s e.
Proof. intros Hs H b Hb. rewrite (H b) by lia. apply ldb_stb_ne. lia. Qed.

Lemma cstr_stb m s l : cstr m (s + 1) l → cstr (stb m s 0) (s + 1) l.
Proof. apply cstr_ext. intros b Hb. symmetry. apply ldb_stb_ne. lia. Qed.

(** Blanks are skipped and overwritten. *)
Lemma skip_white_ok fuel m s l :
  cstr m s l → (length l < fuel)%nat →
  ∃ m' s' r, skip_white fuel m s = Some (m', s') ∧ cstr m' s' r ∧ lex [] r = lex [] l ∧
    match r with [] => True | x :: _ => among WHITESPACE x = false end ∧
    s ≤ s' ∧ s' + Z.of_nat (length r) = s + Z.of_nat (length l) ∧ cut m m' s s' ∧
    (s < s' → ldb m' s = 0).
Proof.
  revert m s l. induction fuel as [|f IH]; intros m s l Hs Hf; [lia|]. cbn [skip_white].
  destruct l as [|x l].
  { exists m, s, []. apply cstr_nil in Hs as Hs0. rewrite Hs0. split_and!; try done; try lia. }
  apply cstr_cons in Hs as Hs'. destruct Hs' as (Hx & Hr & Hl). rewrite Hx. cbn [length] in *.
  destruct (among WHITESPACE x) eqn:Hw.
  - destruct (IH (stb m s 0) (s + 1) l) as (m' & s' & r & H1 & H2 & H3 & H4 & H5 & H6 & H7 & H8);
      [by apply cstr_stb|lia|].
    exists m', s', r. split_and!; try done; try lia.
    + rewrite H3. cbn [lex]. by rewrite Hw.
    + apply cut_stb; [lia|done].
    + intros _. rewrite (H7 s) by lia. by rewrite ldb_stb_eq.
  - exists m, s, (x :: l). split_and!; try done; cbn [length]; try lia.
Qed.

Lemma word_end_ok fuel m s l :
  cstr m s l → (length l < fuel)%nat →
  ∃ w r, l = w ++ r ∧ Forall (λ x, is_word x = true) w ∧ stops r ∧
    word_end fuel m s = Some (s + Z.of_nat (length w)) ∧ cstr m (s + Z.of_nat (length w)) r.
Proof.
  revert s l. induction fuel as [|f IH]; intros s l Hs Hf; [lia|]. cbn [word_end].
  destruct l as [|x l].
  { exists [], []. apply cstr_nil in Hs as Hs0. rewrite Hs0. simpl. split_and!; try done; [f_equal; lia|].
    by rewrite Z.add_0_r. }
  apply cstr_cons in Hs as Hs'. destruct Hs' as (Hx & Hr & Hl). rewrite Hx. cbn [length] in *.
  rewrite (proj2 (Z.eqb_neq x 0)), among_app, negb_orb by lia. fold (is_word x). cbn [negb andb].
  destruct (is_word x) eqn:Hw.
  - destruct (IH (s + 1) l) as (w & r & -> & H1 & H2 & H3 & H4); [done|lia|].
    exists (x :: w), r. cbn [length].
    replace (s + Z.of_nat (S (length w))) with (s + 1 + Z.of_nat (length w)) by lia.
    split_and!; try done. by constructor.
  - exists [], (x :: l). simpl. rewrite Z.add_0_r. by split_and!.
Qed.

Lemma lex_word w v r : Forall (λ x, is_word x = true) w → stops r →
  lex v (w ++ r) = flush (v ++ w) ++ lex [] r.
Proof.
  intros Hw Hr. revert v. induction Hw as [|x w Hx Hw IH]; intros v; cbn [app].
  - rewrite app_nil_r. destruct r as [|x r]; [by rewrite app_nil_r|].
    cbn [stops] in Hr. cbn [lex]. unfold is_word in Hr.
    destruct (among WHITESPACE x); [done|]. cbn [negb andb] in Hr. destruct (among SYMBOLS x); done.
  - cbn [lex]. unfold is_word in Hx. apply andb_prop in Hx as [H1%negb_true_iff H2%negb_true_iff].
    rewrite H1, H2, IH, <- app_assoc. done.
Qed.

(** ** The token that has been read ahead *)

Definition code (t : token) : Z := match t with TWord _ => WORD | TSym x => x end.

(** [st] is ahead by one token of the tokens [ts] of the line. *)
Inductive ahead (fuel : nat) (st : Sh) : list token → Prop :=
  | ahead_end : nc st = 0 → np2 st = 0 → ahead fuel st []
  | ahead_sym r :
      0 < np2 st → cstr (sh_mem st) (np2 st) r → (length r < fuel)%nat →
      nc st ∈ SYMBOLS → ahead fuel st (TSym (nc st) :: lex [] r)
  | ahead_word w r :
      0 < np1 st → cstr (sh_mem st) (np2 st) r → (length r < fuel)%nat →
      nc st = WORD → np2 st = np1 st + Z.of_nat (length w) → w ≠ [] → (length w < fuel)%nat →
      load_bytes (sh_mem st) (np1 st) (length w) = w → Forall (λ c, 0 < c < 256) w → stops r →
      ahead fuel st (TWord w :: lex [] r).

Lemma elem_of_among l x : among l x = true → x ∈ l.
Proof. intros (y & Hy & ->%Z.eqb_eq)%existsb_exists. by apply list_elem_of_In. Qed.

(** Reading a token at [s]. *)
Lemma _gettoken_ok fuel s st l :
  0 < s → cstr (sh_mem st) s l → (length l < fuel)%nat →
  ∃ t st', _gettoken fuel s st = Some (t, st') ∧ ahead fuel (set_nc t st') (lex [] l) ∧
    (∀ b, b < s → ldb (sh_mem st') b = ldb (sh_mem st) b) ∧
    (stops l → ldb (sh_mem st') s = 0) ∧ (np2 st' = 0 ∧ t = 0 ∨ s < np2 st').
Proof.
  intros Hpos Hs Hf. unfold _gettoken. rewrite (proj2 (Z.eqb_neq s 0)) by lia.
  destruct (skip_white_ok fuel _ s l Hs Hf) as (m & a & r & -> & Hr & <- & Hw & Ha & Hlen & Hcut & Hz).
  cbn [mbind option_bind].
  assert (∀ m', (∀ b, b < s → ldb m' b = ldb m b) → ∀ b, b < s → ldb m' b = ldb (sh_mem st) b) as Hbelow.
  { intros m' Hm' b Hb. rewrite Hm' by done. apply Hcut. lia. }
  assert (∀ m', ldb m' a = 0 → (s < a → ldb m' s = ldb m s) → ldb m' s = 0) as Hzero.
  { intros m' H0 H1. destruct (decide (s < a)); [rewrite H1 by done; auto|]. by replace s with a by lia. }
  destruct r as [|x r].
  { apply cstr_nil in Hr as Hx. rewrite Hx. eexists _, _. split; [reflexivity|].
    split; [by constructor|]. split; [by apply Hbelow|]. split; [|by left]. intros _. by apply Hzero. }
  apply cstr_cons in Hr as Hr'. destruct Hr' as (Hx & Hb & Hr'). rewrite Hx. cbn [length] in Hlen.
  rewrite (proj2 (Z.eqb_neq x 0)) by lia. destruct (among SYMBOLS x) eqn:Hsym.
  - eexists _, _. split; [reflexivity|]. split; [|split; [|split]].
    + cbn [lex]. rewrite Hw, Hsym. apply (ahead_sym fuel (mkSh (stb m a 0) x a (a + 1)) r); simpl;
        [lia|by apply cstr_stb|lia|by apply elem_of_among].
    + apply Hbelow. intros b Hb'. simpl. apply ldb_stb_ne. lia.
    + intros _. apply Hzero; simpl; [by rewrite ldb_stb_eq|]. intros. apply ldb_stb_ne. lia.
    + right. simpl. lia.
  - destruct (word_end_ok fuel m a (x :: r)) as (w & r' & Heq & Hall & Hst & -> & Hend); [done|cbn [length]; lia|].
    destruct w as [|y w].
    { simpl in Heq. subst r'. simpl in Hst. unfold is_word in Hst. by rewrite Hw, Hsym in Hst. }
    cbn [mbind option_bind]. eexists _, _. split; [reflexivity|].
    pose proof Hr as (Hld & Hby & _). rewrite Heq in Hld, Hby.
    rewrite length_app, load_bytes_app in Hld. apply app_inj_1 in Hld as [Hld _]; [|apply length_load_bytes].
    apply list.Forall_app in Hby as [Hby _].
    assert (length (x :: r) = (length (y :: w) + length r')%nat) as Hll by (rewrite Heq; apply length_app).
    cbn [length] in Hll.
    split; [|split; [|split]].
    + rewrite Heq, lex_word by done. cbn [app flush].
      apply (ahead_word fuel (mkSh m WORD a (a + Z.of_nat (length (y :: w)))) (y :: w) r'); simpl; try done; simpl in *; lia.
    + by apply Hbelow.
    + intros Hst'. simpl. destruct (decide (s < a)) as [|Hge]; [auto|]. exfalso.
      assert (s = a) as -> by lia. destruct l as [|z l]; [simpl in Hlen; lia|].
      apply cstr_cons in Hs as (Hz' & _). rewrite <- (Hcut a), Hx in Hz' by lia. subst z.
      simpl in Hst'. unfold is_word in Hst'. by rewrite Hw, Hsym in Hst'.
    + right. cbn [np2 length]. lia.
Qed.

(** gettoken hands out the token read ahead; a word is then ended by a NUL, and
    nothing before the next token changes any more. *)
Definition extends (st st' : Sh) : Prop :=
  if decide (np2 st = 0) then sh_mem st' = sh_mem st ∧ np2 st' = 0
  else (∀ b, b < np2 st → ldb (sh_mem st') b = ldb (sh_mem st) b) ∧ (np2 st' = 0 ∨ np2 st < np2 st').

(** The string [w] at [p], before the scan point. *)
Definition holds (st : Sh) (p : Z) (w : list Z) : Prop :=
  cstr (sh_mem st) p w ∧ (np2 st = 0 ∨ p + Z.of_nat (length w) < np2 st).

Lemma holds_extends st st' p w : extends st st' → holds st p w → holds st' p w.
Proof.
  unfold extends. intros Hx [Hc He]. case_decide as H0.
  - destruct Hx as [Hm Hn]. split; [by rewrite Hm|by left].
  - destruct Hx as [Hm Hn], He as [He|He]; [done|]. split; [|lia].
    eapply cstr_ext, Hc. intros b Hb. symmetry. apply Hm. lia.
Qed.

Lemma gettoken_ok fuel st ts :
  ahead fuel st ts →
  ∃ p st', gettoken fuel st = Some (hd 0 (code <$> ts), p, st') ∧ ahead fuel st' (tail ts) ∧
    extends st st' ∧ match ts with TWord w :: _ => holds st' p w | _ => True end.
Proof.
  intros Ha. unfold gettoken, extends. destruct Ha as [H1 H2|r H1 H2 H3 H4|w r H1 H2 H3 H4 H5 H6 Hwl H7 H8 H9].
  - rewrite H2, H1. cbn [_gettoken Z.eqb mbind option_bind]. eexists _, _.
    split; [reflexivity|]. split; [by constructor|]. by rewrite decide_True.
  - destruct (_gettoken_ok fuel (np2 st) st r H1 H2 H3) as (t & st' & -> & Ht & Hb & _ & Hn).
    cbn [mbind option_bind]. eexists _, _. rewrite decide_False by lia. split; [reflexivity|].
    split; [done|]. split; [|done]. split; [done|]. destruct Hn as [[? _]|?]; auto.
  - destruct (_gettoken_ok fuel (np2 st) st r) as (t & st' & -> & Ht & Hb & Hz & Hn); [lia|done..|].
    cbn [mbind option_bind].
    assert (np2 st' = 0 ∨ np2 st < np2 st') as Hn' by (destruct Hn as [[? _]|?]; auto).
    eexists _, _. rewrite decide_False by lia. split; [cbn [fmap list_fmap hd code]; rewrite H4; reflexivity|].
    split; [done|]. split; [done|]. split; [split; [|split; [done|]]|cbn [np2 set_nc]; lia]; cbn [sh_mem set_nc].
    + rewrite <- H7 at 2. apply load_bytes_ext. intros b Hb'. apply Hb. lia.
    + rewrite <- H5. by apply Hz.
Qed.

(** ** runcmd *)

Definition words_at (st : Sh) : list Z → list (list Z) → Prop := Forall2 (holds st).
Lemma words_at_extends st st' l l' : extends st st' → words_at st l l' → words_at st' l l'.
Proof. intros Hx H. eapply list.Forall2_impl; [exact H|]. intros ??. by apply holds_extends. Qed.

Lemma c_string_ok fuel m p l : cstr m p l → (length l < fuel)%nat → c_string fuel m p = Some l.
Proof.
  revert p l. induction fuel as [|f IH]; intros p l Hl Hf; [lia|]. cbn [c_string].
  destruct l as [|x l].
  - apply cstr_nil in Hl. by rewrite Hl.
  - apply cstr_cons in Hl as (Hx & Hr & Hl). rewrite Hx, (proj2 (Z.eqb_neq x 0)) by lia.
    cbn [length] in Hf. rewrite (IH (p + 1) l) by (done || lia). done.
Qed.

Lemma sym_cases fuel st x ts : ahead fuel st (TSym x :: ts) → x ∈ SYMBOLS.
Proof. inversion 1; subst; done. Qed.

Lemma sym_code x : x ∈ SYMBOLS → (x =? WORD) = false ∧ (x =? 0) = false.
Proof.
  intros Hx. apply (list.Forall_forall (λ x, (x =? WORD) = false ∧ (x =? 0) = false) SYMBOLS); [|done].
  unfold SYMBOLS. by repeat constructor.
Qed.

Lemma ahead_fuel fuel st x ts : ahead fuel st (TWord x :: ts) → (length x < fuel)%nat.
Proof. by inversion 1; subst. Qed.

Lemma run_args_ok {W} (sys : Sys W) n fuel ts argv args st w :
  ahead fuel st ts → (length ts < n)%nat → words_at st argv args →
  ∃ e argv' st' args' ts' w',
    run_args sys n fuel argv st w = Some (e, argv', st', w') ∧
    command sys args ts w = (e, args', ts', w') ∧ words_at st' argv' args' ∧ ahead fuel st' ts'.
Proof.
  revert ts argv args st w. induction n as [|n IH]; intros ts argv args st w Ha Hn Hw; [lia|].
  cbn [run_args]. destruct (gettoken_ok fuel st ts Ha) as (p & st1 & -> & Ha1 & Hx1 & Hp).
  cbn [mbind option_bind]. eapply words_at_extends in Hw; [|exact Hx1].
  destruct ts as [|[x|x] ts]; cbn [fmap list_fmap hd code tail length command] in *.
  - rewrite Z.eqb_refl. cbn [orb Z.eqb]. by eexists _, _, _, _, _, _.
  - rewrite Z.eqb_refl, (list.Forall2_length _ _ _ Hw). case_match; [by eexists _, _, _, _, _, _|].
    apply IH; [done|lia|]. apply Forall2_app; [done|]. by constructor.
  - pose proof (sym_cases _ _ _ _ Ha) as Hx.
    destruct (sym_code _ Hx) as [-> ->].
    destruct ((x =? 60) || (x =? 62)).
    + destruct (gettoken_ok fuel st1 ts Ha1) as (p' & st2 & -> & Ha2 & Hx2 & Hp').
      cbn [mbind option_bind]. eapply words_at_extends in Hw; [|exact Hx2].
      destruct ts as [|[name|y] ts]; cbn [fmap list_fmap hd code tail length command] in *.
      * by eexists _, _, _, _, _, _.
      * rewrite Z.eqb_refl. cbn [negb]. rewrite (c_string_ok _ _ _ name (proj1 Hp')) by (by eapply ahead_fuel).
        cbn [mbind option_bind]. destruct (sys_open sys name _ w) as [fd w1].
        case_match; [by eexists _, _, _, _, _, _|]. apply IH; [done|lia|done].
      * pose proof (sym_cases _ _ _ _ Ha1) as Hy.
        destruct (sym_code _ Hy) as [-> _].
        by eexists _, _, _, _, _, _.
    + destruct (x =? 124); [|by eexists _, _, _, _, _, _].
      destruct (sys_pipe sys w) as [[r q] w1]. case_match; [by eexists _, _, _, _, _, _|].
      destruct (sys_fork sys w1) as [r' w2]. case_match; [by eexists _, _, _, _, _, _|].
      case_match; [|by eexists _, _, _, _, _, _]. apply IH; [done|lia|constructor].
Qed.

Lemma lex_length w l : (length (lex w l) ≤ length (flush w) + length l)%nat.
Proof.
  revert w. induction l as [|x l IH]; intros w; cbn [lex length]; [lia|].
  destruct (among WHITESPACE x); [|destruct (among SYMBOLS x)].
  - rewrite length_app. specialize (IH []). simpl in IH. lia.
  - rewrite length_app. specialize (IH []). simpl in *. lia.
  - specialize (IH (w ++ [x])). destruct w; simpl in *; lia.
Qed.

(** C23. The shell reads a command line as its grammar says.  For every line in
    memory, and whatever open, pipe and fork answer, runcmd's loop ends, with the
    words, the calls on files and descriptors, in their order, and the ending that
    the tokens of the line give: a redirection opens the file and moves it to its
    descriptor, a pipe makes a child that goes on with the next command, and a call
    that fails ends the command.  Every pointer in argv is the address of its word
    as a string of its own, still intact when the loop ends. *)
Theorem runcmd_reads_line {W} (sys : Sys W) fuel s l st w :
  0 < s → cstr (sh_mem st) s l → (length l < fuel)%nat →
  ∃ st0 e argv st' args ts w',
    gettoken_start fuel s st = Some st0 ∧
    run_args sys (S (length l)) fuel [] st0 w = Some (e, argv, st', w') ∧
    command sys [] (lex [] l) w = (e, args, ts, w') ∧ words_at st' argv args.
Proof.
  intros Hs Hl Hf. destruct (_gettoken_ok fuel s st l Hs Hl Hf) as (t & st1 & Hrun & Ha & _).
  exists (set_nc t st1). unfold gettoken_start. rewrite Hrun. cbn [mbind option_bind].
  edestruct (run_args_ok sys (S (length l)) fuel (lex [] l) [] [] (set_nc t st1) w) as (e & argv & st' & args & ts & w' & H1 & H2 & H3 & _);
    [exact Ha| |by constructor|].
  { pose proof (lex_length [] l). simpl in *. lia. }
  exists e, argv, st', args, ts, w'. auto.
Qed.

(** A command of sixteen words passes the test for too many arguments, and its
    terminating null pointer is then stored past the end of argv. *)
Theorem argv_overrun {W} (sys : Sys W) fuel s l st ws w :
  0 < s → cstr (sh_mem st) s l → (length l < fuel)%nat →
  lex [] l = TWord <$> ws → length ws = MAXARGS →
  ∃ st0 argv st', gettoken_start fuel s st = Some st0 ∧
    run_args sys (S (length l)) fuel [] st0 w = Some (RunIt 0, argv, st', w) ∧ end_argv argv = None.
Proof.
  intros Hs Hl Hf Hlex Hlen. destruct (_gettoken_ok fuel s st l Hs Hl Hf) as (t & st1 & Hrun & Ha & _).
  exists (set_nc t st1). unfold gettoken_start. rewrite Hrun. cbn [mbind option_bind].
  edestruct (run_args_ok sys (S (length l)) fuel (lex [] l) [] [] (set_nc t st1) w) as (e & argv & st' & args & ts & w' & H1 & H2 & H3 & _);
    [exact Ha| |by constructor|].
  { pose proof (lex_length [] l). simpl in *. lia. }
  assert (∀ vs args, (length args + length vs ≤ MAXARGS)%nat →
    command sys args (TWord <$> vs) w = (RunIt 0, args ++ vs, [], w)) as Hcmd.
  { clear. induction vs as [|v vs IH]; intros args Hn; cbn [fmap list_fmap command]; [by rewrite app_nil_r|].
    cbn [length] in Hn. rewrite (proj2 (Nat.eqb_neq _ _)) by lia. rewrite IH, <- app_assoc; [done|].
    rewrite length_app. simpl. lia. }
  rewrite Hlex, Hcmd in H2 by (simpl; lia). simplify_eq.
  exists argv, st'. split; [done|]. split; [done|]. unfold end_argv.
  rewrite (list.Forall2_length _ _ _ H3). simpl. rewrite Hlen. done.
Qed.

(** ** An example *)

(** The calls, recorded; descriptors 3 and 4 are free, and the fork is in the child. *)
Inductive call : Type :=
  | COpen (path : list Z) (mode : Z) | CDup (a b : Z) | CClose (a : Z) | CPipe | CFork.
Definition ex_sys : Sys (list call) :=
  mkSys (λ p m w, (3, w ++ [COpen p m])) (λ a b w, w ++ [CDup a b]) (λ a w, w ++ [CClose a])
    (λ w, (0, (3, 4), w ++ [CPipe])) (λ w, (0, w ++ [CFork])).

Definition ex_line : list Z := str "ls -l<in | wc"%string.
Definition ex_sh : Sh := mkSh (store_bytes ∅ 4096 ex_line) 0 0 0.

(** The child of "ls -l<in | wc" runs wc, reading from the pipe. *)
Lemma runcmd_reads_line_witness :
  ∃ st0 argv st', gettoken_start 20 4096 ex_sh = Some st0 ∧
    run_args ex_sys 14 20 [] st0 [] = Some (RunIt 0, argv, st',
      [COpen (str "in"%string) O_READ; CDup 3 0; CClose 3; CPipe; CFork; CDup 3 0; CClose 3; CClose 4]) ∧
    words_at st' argv [str "wc"%string].
Proof.
  destruct (runcmd_reads_line ex_sys 20 4096 ex_line ex_sh []) as (st0 & e & argv & st' & args & ts & w' & H1 & H2 & H3 & H4).
  - lia.
  - split; [by vm_compute|]. split; [|by vm_compute]. apply (bool_decide_unpack _). by vm_compute.
  - vm_compute. lia.
  - vm_compute in H3. simplify_eq. exists st0, argv, st'. auto.
Defined.
