(* ===== verification/Fd.v ===== *)
(** * File descriptors (lib/fd.c, and pipe() of lib/pipe.c)

    A descriptor is a page at a fixed address, a struct Fd, with a page of data
    beside it; both are shared with other environments through PTE_SHARE.  The
    operations run in environment [e] over the mappings of [Fork.VM].  A struct Dev
    is a record of functions, as in the code (its name, used in messages only, is
    left out); the functions that pipe.c gives the
    pipe device are in [Pipe]. *)
From stdpp Require Import gmap.
From S2P Require Import Prelude Mem Printfmt KState Syscall FsServ Fork.

Definition MAXFD : Z := 32.
Definition FDTABLE : Z := 0xD0000000.
Definition FILEDATA : Z := FDTABLE + MAXFD * PGSIZE.
Definition INDEX2FD (i : Z) : Z := FDTABLE + u64 i * PGSIZE.
Definition INDEX2DATA (i : Z) : Z := FILEDATA + i * PGSIZE.
Definition fd2num (fd : Z) : Z := u64 (fd - FDTABLE) / PGSIZE.
Definition fd2data (fd : Z) : Z := INDEX2DATA (fd2num fd).
Definition O_RDONLY : Z := 0.
Definition O_WRONLY : Z := 1.

Record Dev : Type := mkDev
  { dev_id : Z;
    dev_read : option (Z → Z → Z → U Z);
    dev_write : option (Z → Z → Z → U Z);
    dev_close : option (Z → U Z);
    dev_stat : option (Z → Z → U Z);
    dev_trunc : option (Z → Z → U Z) }.

Section fd.
Context (e : Z) (devtab : list Dev).

(** [uvpd[VPD(va)] & PTE_P], and then [uvpt[PGNUM(va)] & PTE_P]. *)
Definition present (va : Z) (s : VM) : bool :=
  bool_decide ((e, vpn va / NPDENTRIES) ∈ tables s) && bool_decide (is_Some (pte s !! (e, vpn va))).

(** Loads and stores of a field of a struct.  The pages of descriptors are
    writable; a store to one that is not would fault. *)
Definition frame_of (va : Z) (w : bool) : U Z :=
  s ← get;
  match pte s !! (e, vpn va) with
  | Some (fr, x) => if w && negb (has x PTE_W) then panic else mret (fr * PGSIZE + va mod PGSIZE)
  | None => panic
  end.
Definition get32 (va : Z) : U Z := a ← frame_of va false; gets (λ s, i32 (ld32 (pmem s) a)).
Definition put8 (va v : Z) : U unit := a ← frame_of va true; modify (λ s, set_pmem (stb (pmem s) a v) s).
Definition put32 (va v : Z) : U unit := a ← frame_of va true; modify (λ s, set_pmem (st32 (pmem s) a v) s).
Definition put64 (va v : Z) : U unit := a ← frame_of va true; modify (λ s, set_pmem (st64 (pmem s) a v) s).

(** The result and [*fd_store]. *)
Definition fd_alloc : U (Z * Z) :=
  r ← for_range 0 MAXFD (λ i,
    s ← get; mret (if present (INDEX2FD i) s then None else Some (INDEX2FD i)));
  mret (match r with Some fd => (0, fd) | None => (- E_MAX_OPEN, 0) end).

Definition fd_lookup (fdnum : Z) : U (Z * Z) :=
  if (fdnum <? 0) || (MAXFD <=? fdnum) then mret (- E_INVAL, 0)
  else
    s ← get;
    if present (INDEX2FD fdnum) s then mret (0, INDEX2FD fdnum) else mret (- E_INVAL, 0).

Definition dev_lookup (id : Z) : option Dev := List.find (λ d, dev_id d =? id) devtab.

Definition fd_close (fd : Z) (must_exist : bool) : U Z :=
  l ← fd_lookup (i32 (fd2num fd));
  if (l.1 <? 0) || negb (fd =? l.2) then mret (if must_exist then l.1 else 0)
  else
    id ← get32 (fd_dev_id fd);
    r ← match dev_lookup id with
        | Some d => match dev_close d with Some f => f fd | None => mret 0 end
        | None => mret (- E_INVAL)
        end;
    _ ← u_page_unmap e fd;
    mret r.

Definition close (fdnum : Z) : U Z :=
  l ← fd_lookup fdnum;
  if l.1 <? 0 then mret l.1 else fd_close l.2 true.

Definition close_all : U unit := for_each 0 MAXFD (λ i, _ ← close i; mret tt).

Definition perm_at (va : Z) (s : VM) : Z := Z.land (perm_of e va s) PTE_SYSCALL.

Definition dup (oldfdnum newfdnum : Z) : U Z :=
  l ← fd_lookup oldfdnum;
  if l.1 <? 0 then mret l.1
  else
    let oldfd := l.2 in
    _ ← close newfdnum;
    let newfd := INDEX2FD newfdnum in
    let ova := fd2data oldfd in
    let nva := fd2data newfd in
    let err r := _ ← u_page_unmap e newfd; _ ← u_page_unmap e nva; mret r in
    s ← get;
    r ← (if present ova s then u_page_map e ova e nva (perm_at ova s) else mret 0);
    if r <? 0 then err r
    else
      s ← get;
      r ← u_page_map e oldfd e newfd (perm_at oldfd s);
      if r <? 0 then err r else mret newfdnum.

(** fd_lookup and dev_lookup, for the operations that dispatch. *)
Definition fd_dev (fdnum : Z) : U (Z * Z * option Dev) :=
  l ← fd_lookup fdnum;
  if l.1 <? 0 then mret (l.1, l.2, None)
  else
    id ← get32 (fd_dev_id l.2);
    mret (match dev_lookup id with Some d => (0, l.2, Some d) | None => (- E_INVAL, l.2, None) end).

Definition read (fdnum buf n : Z) : U Z :=
  '(r, fd, d) ← fd_dev fdnum;
  match d with
  | None => mret r
  | Some d =>
      m ← get32 (fd_omode fd);
      if Z.land m O_ACCMODE =? O_WRONLY then mret (- E_INVAL)
      else match dev_read d with None => mret (- E_NOT_SUPP) | Some f => f fd buf n end
  end.

Definition write (fdnum buf n : Z) : U Z :=
  '(r, fd, d) ← fd_dev fdnum;
  match d with
  | None => mret r
  | Some d =>
      m ← get32 (fd_omode fd);
      if Z.land m O_ACCMODE =? O_RDONLY then mret (- E_INVAL)
      else match dev_write d with None => mret (- E_NOT_SUPP) | Some f => f fd buf n end
  end.

(** [tot] is an int, compared as a size_t. *)
Fixpoint readn_loop (fuel : nat) (fdnum buf n tot : Z) : U Z :=
  if u64 tot <? n then
    match fuel with
    | O => panic
    | S fuel' =>
        m ← read fdnum (buf + tot) (u64 (n - tot));
        let m := i32 m in
        if m <? 0 then mret m
        else if m =? 0 then mret tot
        else readn_loop fuel' fdnum buf n (i32 (tot + m))
    end
  else mret tot.
Definition readn (fdnum buf n : Z) : U Z := readn_loop (Z.to_nat n) fdnum buf n 0.

Definition seek (fdnum offset : Z) : U Z :=
  l ← fd_lookup fdnum;
  if l.1 <? 0 then mret l.1 else put32 (fd_offset l.2) offset;; mret 0.

Definition ftruncate (fdnum newsize : Z) : U Z :=
  '(r, fd, d) ← fd_dev fdnum;
  match d with
  | None => mret r
  | Some d =>
      m ← get32 (fd_omode fd);
      if Z.land m O_ACCMODE =? O_RDONLY then mret (- E_INVAL)
      else match dev_trunc d with None => mret (- E_NOT_SUPP) | Some f => f fd newsize end
  end.

(** struct Stat: the name, the size, whether a directory, and the device, for
    which the address of its struct stands. *)
Definition st_size (st : Z) : Z := st + 128.
Definition st_isdir (st : Z) : Z := st + 132.
Definition st_dev (st : Z) : Z := st + 136.

Definition fstat (dev_addr : Dev → Z) (fdnum st : Z) : U Z :=
  '(r, fd, d) ← fd_dev fdnum;
  match d with
  | None => mret r
  | Some d =>
      match dev_stat d with
      | None => mret (- E_NOT_SUPP)
      | Some f =>
          put8 st 0;; put32 (st_size st) 0;; put32 (st_isdir st) 0;; put64 (st_dev st) (dev_addr d);;
          f fd st
      end
  end.

(** ** pipe() *)

Definition devpipe_id : Z := 112.
Definition PIPE_PERM : Z := Z.lor (Z.lor (Z.lor PTE_P PTE_W) PTE_U) PTE_SHARE.

Definition devpipe_close (fd : Z) : U Z := _ ← u_page_unmap e fd; u_page_unmap e (fd2data fd).

(** [strcpy(stat->st_name, "<pipe>")], then the other fields; a struct Pipe starts
    with the read and the write position. *)
Fixpoint put_str (va : Z) (l : list Z) : U unit :=
  match l with [] => put8 va 0 | c :: l => put8 va c;; put_str (va + 1) l end.
Definition devpipe_stat (dev_addr : Z) (fd st : Z) : U Z :=
  let p := fd2data fd in
  put_str st [60; 112; 105; 112; 101; 62];;
  w ← get32 (p + 4); r ← get32 p;
  put32 (st_size st) (w - r);; put32 (st_isdir st) 0;; put64 (st_dev st) dev_addr;;
  mret 0.

(** The result, [pfd[0]] and [pfd[1]]; the labels err to err3 of the code. *)
Definition pipe : U (Z * Z * Z) :=
  let err r : U (Z * Z * Z) := mret (r, 0, 0) in
  let err1 fd0 r := _ ← u_page_unmap e fd0; err r in
  let err2 fd0 fd1 r := _ ← u_page_unmap e fd1; err1 fd0 r in
  let err3 fd0 fd1 va r := _ ← u_page_unmap e va; err2 fd0 fd1 r in
  '(r, fd0) ← fd_alloc;
  if r <? 0 then err r
  else
    r ← u_page_alloc e fd0 PIPE_PERM;
    if r <? 0 then err r
    else
      '(r, fd1) ← fd_alloc;
      if r <? 0 then err1 fd0 r
      else
        r ← u_page_alloc e fd1 PIPE_PERM;
        if r <? 0 then err1 fd0 r
        else
          let va := fd2data fd0 in
          r ← u_page_alloc e va PIPE_PERM;
          if r <? 0 then err2 fd0 fd1 r
          else
            r ← u_page_map e va e (fd2data fd1) PIPE_PERM;
            if r <? 0 then err3 fd0 fd1 va r
            else
              put32 (fd_dev_id fd0) devpipe_id;; put32 (fd_omode fd0) O_RDONLY;;
              put32 (fd_dev_id fd1) devpipe_id;; put32 (fd_omode fd1) O_WRONLY;;
              mret (0, fd2num fd0, fd2num fd1).
End fd.
