(* ===== verification/FdSpec.v ===== *)
(** * What pipe() and dup() do to the descriptor table (lib/fd.c, lib/pipe.c)

    Every branch, the ones that run out of memory included. *)
From stdpp Require Import gmap.
From S2P Require Import Prelude Mem Printfmt KState Syscall FsServ Fork ForkSpec Fd.

(** Into the branch of an error. *)
Ltac on_error := cbv beta iota zeta; rewrite (proj2 (Z.ltb_lt _ 0)) by done.

(** ** The system calls, when memory may run out *)

Section calls.
Context (e : Z).
Implicit Types (s : VM).

Lemma alloc_cases va x s E (Q : Z → VM → Prop) :
  wf s → perm_ok x → va_ok va →
  (∀ fr s', (∀ k y, pte s !! k ≠ Some (fr, y)) → wf s' →
     pte s' = <[(e, vpn va) := (fr, x)]> (pte s) → pmem s' = pmem s → Q 0 s') →
  (∀ s', wf s' → pte s' = pte s → pmem s' = pmem s → Q (- E_NO_MEM) s') →
  wpx (u_page_alloc e va x) s Q E.
Proof.
  intros Hwf Hx Hva Hok Herr.
  destruct (decide (1 + cost s e (vpn va) ≤ free s)%nat) as [Hf|Hf].
  { apply page_alloc_ok; try done. intros; eapply Hok; eauto. }
  unfold u_page_alloc. apply Is_true_true in Hx as Hx', Hva as Hva'. rewrite Hx', Hva'. simpl. wp_step. wp_step.
  destruct (pfree s) as [|fr l] eqn:Hl; [wp_steps; by apply Herr|].
  unfold free, cost in Hf. rewrite Hl in Hf. simpl in Hf.
  case_bool_decide as Ht; [lia|]. destruct l as [|? ?]; [|simpl in Hf; lia].
  wp_step. wp_step. unfold insert_pte. wp_step. wp_step. cbn [tables set_pfree pfree].
  rewrite bool_decide_false by done. wp_step. apply Herr; [|done..].
  destruct Hwf as [W1 W2 W3 W4 W5]. split; simpl; [constructor| |done..].
  intros fr' k p _ Hin. by apply elem_of_nil in Hin.
Qed.

Lemma map_cases va va' x s fr y E (Q : Z → VM → Prop) :
  wf s → perm_ok x → va_ok va → va_ok va' → pte s !! (e, vpn va) = Some (fr, y) →
  (has x PTE_W → has y PTE_W) →
  (∀ s', wf s' → pte s' = <[(e, vpn va') := (fr, x)]> (pte s) → pmem s' = pmem s → Q 0 s') →
  Q (- E_NO_MEM) s →
  wpx (u_page_map e va e va' x) s Q E.
Proof.
  intros Hwf Hx Hva Hva' Hm Hw Hok Herr.
  destruct (decide (cost s e (vpn va') ≤ free s)%nat) as [Hf|Hf].
  { eapply page_map_ok; try done. intros s' []. by apply Hok. }
  unfold u_page_map. apply Is_true_true in Hx as Hx1, Hva as Hva1, Hva' as Hva1'. rewrite Hx1, Hva1, Hva1'. simpl.
  wp_step. wp_step. rewrite Hm.
  assert (negb (has y PTE_W) && has x PTE_W = false) as ->.
  { destruct (has x PTE_W); [|by rewrite andb_false_r]. by rewrite (Is_true_true_1 _ (Hw I)). }
  unfold insert_pte. wp_step. wp_step. unfold cost in Hf. case_bool_decide as Ht; [lia|].
  unfold free in Hf. destruct (pfree s); [by wp_step|simpl in Hf; lia].
Qed.

Lemma unmap_all va s E (Q : Z → VM → Prop) :
  wf s → va_ok va → 0 < va < UTOP →
  (∀ s', wf s' → pte s' = delete (e, vpn va) (pte s) → pmem s' = pmem s → Q 0 s') →
  wpx (u_page_unmap e va) s Q E.
Proof.
  intros Hwf Hva Hr HQ. destruct (pte s !! (e, vpn va)) as [[fr y]|] eqn:Hm.
  { eapply page_unmap_ok; try done. intros. by apply HQ. }
  unfold u_page_unmap. unfold va_ok in Hva. apply andb_True in Hva as [Ha%Is_true_true _]. rewrite Ha.
  rewrite (proj2 (Z.eqb_neq va 0)), (proj2 (Z.leb_gt UTOP va)) by lia. simpl.
  wp_steps. rewrite Hm. apply HQ; try done. by rewrite delete_id.
Qed.
End calls.

(** ** Addresses of the table *)

Definition fdp (i : Z) : Z := vpn FDTABLE + i.
Definition datap (i : Z) : Z := vpn FILEDATA + i.

Section addresses.
Context (i : Z) (Hi : 0 ≤ i < MAXFD).

Lemma INDEX2FD_eq : INDEX2FD i = FDTABLE + i * PGSIZE.
Proof. unfold INDEX2FD. rewrite u64_id; [done|]. unfold MAXFD in Hi. lia. Qed.
Lemma fd2num_fd : fd2num (INDEX2FD i) = i.
Proof.
  rewrite INDEX2FD_eq. unfold fd2num, MAXFD, PGSIZE in *. rewrite u64_id by lia.
  replace (FDTABLE + i * 4096 - FDTABLE) with (i * 4096) by lia. by apply Z.div_mul.
Qed.
Lemma fd2data_fd : fd2data (INDEX2FD i) = INDEX2DATA i.
Proof. unfold fd2data. by rewrite fd2num_fd. Qed.
Lemma vpn_fd : vpn (INDEX2FD i) = fdp i.
Proof. rewrite INDEX2FD_eq. unfold vpn, fdp, vpn. by rewrite Z.div_add. Qed.
Lemma vpn_data : vpn (INDEX2DATA i) = datap i.
Proof. unfold INDEX2DATA, vpn, datap, vpn. by rewrite Z.div_add. Qed.
Lemma fd_range : 0 < INDEX2FD i < UTOP.
Proof. rewrite INDEX2FD_eq. unfold MAXFD, FDTABLE, PGSIZE in *. assert (UTOP > 0xE0000000) by done. lia. Qed.
Lemma data_range : 0 < INDEX2DATA i < UTOP.
Proof. unfold INDEX2DATA, FILEDATA, MAXFD, FDTABLE, PGSIZE in *. assert (UTOP > 0xE0000000) by done. lia. Qed.
Lemma fd_va_ok : va_ok (INDEX2FD i).
Proof.
  apply andb_True. rewrite !Is_true_true, Z.eqb_eq, Z.leb_le. pose proof fd_range. split; [|lia].
  rewrite INDEX2FD_eq. by rewrite Z.mod_add.
Qed.
Lemma data_va_ok : va_ok (INDEX2DATA i).
Proof.
  apply andb_True. rewrite !Is_true_true, Z.eqb_eq, Z.leb_le. pose proof data_range. split; [|lia].
  unfold INDEX2DATA. by rewrite Z.mod_add.
Qed.
Lemma fd_mod : INDEX2FD i mod PGSIZE = 0.
Proof. rewrite INDEX2FD_eq. by rewrite Z.mod_add. Qed.
End addresses.

Lemma fdp_ne i j : i ≠ j → fdp i ≠ fdp j. Proof. unfold fdp. lia. Qed.
Lemma fdp_datap i j : 0 ≤ i < MAXFD → 0 ≤ j → fdp i ≠ datap j.
Proof.
  unfold fdp, datap, MAXFD. change (vpn FILEDATA) with (vpn FDTABLE + 32). lia.
Qed.

Lemma key_data (e i j : Z) : 0 ≤ i < MAXFD → 0 ≤ j → (e, fdp i) ≠ (e, datap j).
Proof. intros ?? [=]. by eapply fdp_datap. Qed.
Lemma key_fd (e i j : Z) : i ≠ j → (e, fdp i) ≠ (e, fdp j).
Proof. intros ? [=]. by eapply fdp_ne. Qed.

#[export] Hint Resolve fd_range data_range fd_va_ok data_va_ok fdp_ne fdp_datap : jos.

(** ** Reading the table *)

Section table.
Context (e : Z) (devtab : list Dev).

Definition is_open (s : VM) (i : Z) : Prop := is_Some (pte s !! (e, fdp i)).

Lemma present_mapped s va : wf s → present e va s = bool_decide (is_Some (pte s !! (e, vpn va))).
Proof.
  intros Hwf. unfold present. destruct (pte s !! (e, vpn va)) as [x|] eqn:Hm.
  - rewrite bool_decide_true; [done|]. by apply (wf_tables _ Hwf _ _ _ Hm).
  - apply andb_false_r.
Qed.

Lemma present_open s i : wf s → 0 ≤ i < MAXFD → present e (INDEX2FD i) s = bool_decide (is_open s i).
Proof. intros. rewrite present_mapped by done. by rewrite vpn_fd. Qed.

Lemma fd_alloc_ok s E (Q : Z * Z → VM → Prop) :
  wf s →
  (∀ i, 0 ≤ i < MAXFD → ¬ is_open s i → (∀ j, 0 ≤ j < i → is_open s j) → Q (0, INDEX2FD i) s) →
  ((∀ i, 0 ≤ i < MAXFD → is_open s i) → Q (- E_MAX_OPEN, 0) s) →
  wpx (fd_alloc e) s Q E.
Proof.
  intros Hwf Hok Herr. unfold fd_alloc. wp_step.
  eapply (wpx_for_range _ _ _ _ _ _ (λ i s', s' = s ∧ ∀ j, 0 ≤ j < i → is_open s j)); [done|split; [done|lia]| |].
  - intros i s' Hi [-> Hj]. wp_step. wp_step. wp_step. rewrite present_open by done. case_bool_decide as Ho.
    + split; [done|]. intros j Hj'. destruct (decide (j = i)) as [->|]; [done|]. apply Hj. lia.
    + wp_step. by apply Hok.
  - intros s' [-> Hj]. wp_step. by apply Herr.
Qed.

Lemma fd_lookup_ok s i E (Q : Z * Z → VM → Prop) :
  wf s → 0 ≤ i < MAXFD → is_open s i → Q (0, INDEX2FD i) s → wpx (fd_lookup e i) s Q E.
Proof.
  intros Hwf Hi Ho HQ. unfold fd_lookup. rewrite (proj2 (Z.ltb_ge i 0)), (proj2 (Z.leb_gt MAXFD i)) by lia.
  simpl. wp_step. wp_step. rewrite present_open, bool_decide_true by done. by wp_step.
Qed.

Lemma fd_lookup_closed s i E (Q : Z * Z → VM → Prop) :
  wf s → (0 ≤ i < MAXFD → ¬ is_open s i) → Q (- E_INVAL, 0) s → wpx (fd_lookup e i) s Q E.
Proof.
  intros Hwf Hi HQ. unfold fd_lookup. destruct ((i <? 0) || (MAXFD <=? i)) eqn:Hr; [by wp_step|].
  apply orb_false_iff in Hr as [?%Z.ltb_ge ?%Z.leb_gt].
  wp_step. wp_step. rewrite present_open, bool_decide_false by auto. by wp_step.
Qed.
End table.

(** ** pipe() *)

Section pipe.
Context (e : Z).

(** The data page of a descriptor that is not open is not mapped. *)
Definition data_closed (s : VM) : Prop :=
  ∀ i, 0 ≤ i < MAXFD → ¬ is_open e s i → pte s !! (e, datap i) = None.

(** Taking back the last mapping made. *)
Lemma unmap_back va s m x E (Q : Z → VM → Prop) :
  wf s → va_ok va → 0 < va < UTOP → pte s = <[(e, vpn va) := x]> m → m !! (e, vpn va) = None →
  (∀ s', wf s' → pte s' = m → pmem s' = pmem s → Q 0 s') →
  wpx (u_page_unmap e va) s Q E.
Proof.
  intros Hwf Hva Hr Hp Hm HQ. apply unmap_all; [done..|]. intros s' W P M. apply HQ; [done| |done].
  by rewrite P, Hp, delete_insert_id.
Qed.

Definition field (s : VM) (fr o : Z) : Z := ld32 (pmem s) (fr * PGSIZE + o).

Lemma put32_ok i o v s fr x E (Q : unit → VM → Prop) :
  wf s → 0 ≤ i < MAXFD → 0 ≤ o < 16 → pte s !! (e, fdp i) = Some (fr, x) → has x PTE_W →
  (∀ s', wf s' → pte s' = pte s → pmem s' = st32 (pmem s) (fr * PGSIZE + o) v → Q tt s') →
  wpx (put32 e (INDEX2FD i + o) v) s Q E.
Proof.
  intros Hwf Hi Ho Hm Hw HQ. unfold put32, frame_of. wp_step. wp_step. wp_step.
  assert (vpn (INDEX2FD i + o) = fdp i ∧ (INDEX2FD i + o) mod PGSIZE = o) as [-> ->].
  { pose proof (fd_mod i Hi). rewrite <- (vpn_fd i Hi). unfold vpn, PGSIZE in *. zlia. }
  rewrite Hm, (Is_true_true_1 _ Hw). simpl. wp_step. wp_step. apply HQ; [|reflexivity..].
  destruct Hwf as [W1 W2 W3 W4 W5]. split; [done..|exact (bytes_ok_stn 4 _ _ _ W5)].
Qed.

(** [s'] is [s] with the pipe of descriptors [i] and [j]. *)
Definition piped (s s' : VM) (i j : Z) : Prop := ∃ fi fj fd,
  fi ≠ fj ∧ fi ≠ fd ∧ fj ≠ fd ∧
  (∀ k y, pte s !! k ≠ Some (fi, y) ∧ pte s !! k ≠ Some (fj, y) ∧ pte s !! k ≠ Some (fd, y)) ∧
  pte s' = <[(e, datap j) := (fd, PIPE_PERM)]> (<[(e, datap i) := (fd, PIPE_PERM)]>
    (<[(e, fdp j) := (fj, PIPE_PERM)]> (<[(e, fdp i) := (fi, PIPE_PERM)]> (pte s)))) ∧
  field s' fi 0 = devpipe_id ∧ field s' fi 8 = O_RDONLY ∧
  field s' fj 0 = devpipe_id ∧ field s' fj 8 = O_WRONLY ∧
  (∀ fr o, fr ≠ fi → fr ≠ fj → 0 ≤ o < PGSIZE → byte (pmem s') fr o = byte (pmem s) fr o).

Definition failed (s s' : VM) : Prop := pte s' = pte s ∧ pmem s' = pmem s.

(** The four fields, once everything is mapped. *)
Lemma pipe_fields s i j fi fj E (Q : Z * Z * Z → VM → Prop) :
  wf s → 0 ≤ i < MAXFD → 0 ≤ j < MAXFD → fi ≠ fj →
  pte s !! (e, fdp i) = Some (fi, PIPE_PERM) → pte s !! (e, fdp j) = Some (fj, PIPE_PERM) →
  (∀ s', wf s' → pte s' = pte s →
    field s' fi 0 = devpipe_id → field s' fi 8 = O_RDONLY →
    field s' fj 0 = devpipe_id → field s' fj 8 = O_WRONLY →
    (∀ fr o, fr ≠ fi → fr ≠ fj → 0 ≤ o < PGSIZE → byte (pmem s') fr o = byte (pmem s) fr o) →
    Q (0, i, j) s') →
  wpx (put32 e (fd_dev_id (INDEX2FD i)) devpipe_id;; put32 e (fd_omode (INDEX2FD i)) O_RDONLY;;
       put32 e (fd_dev_id (INDEX2FD j)) devpipe_id;; put32 e (fd_omode (INDEX2FD j)) O_WRONLY;;
       mret (0, fd2num (INDEX2FD i), fd2num (INDEX2FD j))) s Q E.
Proof.
  intros Hwf Hi Hj Hne Hmi Hmj HQ. unfold fd_dev_id, fd_omode. wp_step.
  rewrite <- (Z.add_0_r (INDEX2FD i)) at 1.
  eapply (put32_ok i 0); [done|done|lia|exact Hmi|done|]. intros s1 W1 P1 M1. wp_step.
  eapply (put32_ok i 8); [done|done|lia|by rewrite P1|done|]. intros s2 W2 P2 M2. wp_step.
  rewrite <- (Z.add_0_r (INDEX2FD j)) at 1.
  eapply (put32_ok j 0); [done|done|lia|by rewrite P2, P1|done|]. intros s3 W3 P3 M3. wp_step.
  eapply (put32_ok j 8); [done|done|lia|by rewrite P3, P2, P1|done|]. intros s4 W4 P4 M4. wp_step.
  rewrite !fd2num_fd by done.
  assert (∀ fr o o' v m n, fr ≠ n → 0 ≤ o ≤ 12 → 0 ≤ o' ≤ 12 →
    ld32 (st32 m (n * PGSIZE + o) v) (fr * PGSIZE + o') = ld32 m (fr * PGSIZE + o')) as Hout.
  { intros fr o o' v m n ???. unfold PGSIZE. apply ldn_stn_ne; lia. }
  apply HQ; [done|congruence|..]; unfold field; rewrite ?M4, ?M3, ?M2, ?M1.
  - rewrite 2!Hout by (done || lia). rewrite ldn_stn_ne by lia. by rewrite ldn_stn_eq.
  - rewrite 2!Hout by (done || lia). by rewrite ldn_stn_eq.
  - rewrite ldn_stn_ne by lia. by rewrite ldn_stn_eq.
  - by rewrite ldn_stn_eq.
  - intros fr o Hfi Hfj Ho. unfold byte, PGSIZE in *. rewrite !ldb_stn_out by lia. done.
Qed.

(** The four mappings of a pipe: three frames that nobody had, and the
    descriptor pages are still there at the end. *)
Lemma pipe_mappings s P1 P2 P3 P4 i j fi fj fd :
  0 ≤ i < MAXFD → 0 ≤ j < MAXFD → i ≠ j → ¬ is_open e s i → ¬ is_open e s j →
  (∀ k y, pte s !! k ≠ Some (fi, y)) → (∀ k y, P1 !! k ≠ Some (fj, y)) → (∀ k y, P2 !! k ≠ Some (fd, y)) →
  P1 = <[(e, fdp i) := (fi, PIPE_PERM)]> (pte s) → P2 = <[(e, fdp j) := (fj, PIPE_PERM)]> P1 →
  P3 = <[(e, datap i) := (fd, PIPE_PERM)]> P2 → P4 = <[(e, datap j) := (fd, PIPE_PERM)]> P3 →
  fi ≠ fj ∧ fi ≠ fd ∧ fj ≠ fd ∧
  (∀ k y, pte s !! k ≠ Some (fi, y) ∧ pte s !! k ≠ Some (fj, y) ∧ pte s !! k ≠ Some (fd, y)) ∧
  P4 !! (e, fdp i) = Some (fi, PIPE_PERM) ∧ P4 !! (e, fdp j) = Some (fj, PIPE_PERM).
Proof.
  intros Hi Hj Hij Hni Hnj N1 N2 N3 E1 E2 E3 E4.
  assert (P2 !! (e, fdp i) = Some (fi, PIPE_PERM)) as Hs2i.
  { rewrite E2, lookup_insert_ne, E1; [apply lookup_insert_eq|]. by apply key_fd, not_eq_sym. }
  assert (P2 !! (e, fdp j) = Some (fj, PIPE_PERM)) as Hs2j by (rewrite E2; apply lookup_insert_eq).
  assert (∀ k x, 0 ≤ k < MAXFD → P2 !! (e, fdp k) = x → P4 !! (e, fdp k) = x) as Hkeep.
  { intros k x Hk <-. rewrite E4, E3, !lookup_insert_ne; [done|..]; apply not_eq_sym, key_data; lia. }
  split_and!; [..|by apply Hkeep|by apply Hkeep].
  - intros ->. apply (N2 (e, fdp i) PIPE_PERM). rewrite E1. apply lookup_insert_eq.
  - intros ->. by eapply N3.
  - intros ->. by eapply N3.
  - intros k y. split_and!; [apply N1|..]; intros Hk.
    + apply (N2 k y). rewrite E1, lookup_insert_ne; [done|]. intros <-. apply Hni. by eexists.
    + apply (N3 k y). rewrite E2, E1, !lookup_insert_ne; [done|..]; intros <-; [apply Hni|apply Hnj]; by eexists.
Qed.

Lemma pipe_ok s E (Q : Z * Z * Z → VM → Prop) :
  wf s → data_closed s →
  (∀ s' i j, wf s' → 0 ≤ i < j → j < MAXFD → ¬ is_open e s i → ¬ is_open e s j →
     (∀ k, 0 ≤ k < j → k ≠ i → is_open e s k) → piped s s' i j → Q (0, i, j) s') →
  (∀ s' r, wf s' → r < 0 → failed s s' → Q (r, 0, 0) s') →
  wpx (pipe e) s Q E.
Proof.
  intros Hwf Hdc Hok Herr. unfold pipe. wp_step.
  apply fd_alloc_ok; [done| |intros _; on_error; wp_step; by apply Herr].
  intros i Hi Hno Hlt. cbn [Z.ltb Z.compare]. wp_step.
  assert (pte s !! (e, fdp i) = None) as Hni by (by apply eq_None_not_Some).
  apply alloc_cases; [done|done|auto with jos| |intros; on_error; wp_step; by apply Herr].
  rewrite vpn_fd by done. intros fi s1 N1 W1 P1 M1. cbn [Z.ltb Z.compare]. wp_step.
  assert (∀ k, is_open e s1 k ↔ k = i ∨ is_open e s k) as Hop.
  { intros k. unfold is_open. rewrite P1. destruct (decide (k = i)) as [->|].
    - rewrite lookup_insert_eq. split; eauto.
    - rewrite lookup_insert_ne by (by apply key_fd, not_eq_sym). naive_solver. }
  (* giving the first descriptor back *)
  assert (∀ t r, wf t → r < 0 → pte t = pte s1 → pmem t = pmem s →
    wpx (u_page_unmap e (INDEX2FD i) ≫= λ _, mret (r, 0, 0)) t Q E) as Herr1.
  { intros t r Wt Hr Pt Mt. wp_step. eapply unmap_back; [done|auto with jos..|rewrite vpn_fd, Pt, P1 by done; done|by rewrite vpn_fd|].
    intros s' W' P' M'. wp_step. apply Herr; [done..|]. split; congruence. }
  apply fd_alloc_ok; [done| |intros _; on_error; by apply Herr1].
  intros j Hj Hnoj Hltj. cbn [Z.ltb Z.compare]. wp_step.
  rewrite Hop in Hnoj. assert (i ≠ j ∧ ¬ is_open e s j) as [Hij Hnoj'] by (split; [intros ->|]; tauto).
  assert (i < j) as Hlt'.
  { destruct (decide (j < i)); [|lia]. exfalso. apply Hnoj'. apply Hlt. lia. }
  assert (pte s1 !! (e, fdp j) = None) as Hnj.
  { apply eq_None_not_Some. intros H. apply Hnoj. by apply Hop. }
  apply alloc_cases; [done|done|auto with jos| |].
  2: { intros s2 W2 P2 M2. on_error. apply Herr1; congruence || done. }
  rewrite vpn_fd by done. intros fj s2 N2 W2 P2 M2. cbn [Z.ltb Z.compare].
  assert (∀ t r, wf t → r < 0 → pte t = pte s2 → pmem t = pmem s →
    wpx (u_page_unmap e (INDEX2FD j) ≫= λ _, u_page_unmap e (INDEX2FD i) ≫= λ _, mret (r, 0, 0)) t Q E) as Herr2.
  { intros t r Wt Hr Pt Mt. wp_step. eapply unmap_back; [done|auto with jos..|rewrite vpn_fd, Pt, P2 by done; done|by rewrite vpn_fd|].
    intros s' W' P' M'. apply Herr1; congruence || done. }
  rewrite fd2data_fd by done. wp_step. apply alloc_cases; [done|done|by apply data_va_ok| |].
  2: { intros s3 W3 P3 M3. on_error. apply Herr2; congruence || done. }
  rewrite vpn_data by done. intros fd s3 N3 W3 P3 M3. cbn [Z.ltb Z.compare].
  assert (∀ k, 0 ≤ k < MAXFD → ¬ is_open e s k → pte s2 !! (e, datap k) = None) as Hdata.
  { intros k Hk Hnk. rewrite P2, P1, !lookup_insert_ne; [by apply Hdc|..];
      apply key_data; lia. }
  rewrite fd2data_fd by done. wp_step.
  eapply map_cases; [done|done|by apply data_va_ok..| |done| |].
  { rewrite vpn_data, P3 by done. apply lookup_insert_eq. }
  2: { on_error. wp_step. eapply unmap_back; [done|by apply data_va_ok|by apply data_range|rewrite vpn_data, P3 by done; done|rewrite vpn_data by done; by apply Hdata|].
       intros s' W' P' M'. apply Herr2; congruence || done. }
  rewrite vpn_data by done. intros s4 W4 P4 M4. cbn [Z.ltb Z.compare].
  destruct (pipe_mappings s (pte s1) (pte s2) (pte s3) (pte s4) i j fi fj fd) as (Hf1 & Hf2 & Hf3 & Hnew & Hs4i & Hs4j); try done; try lia.
  apply (pipe_fields _ i j fi fj); auto.
  intros s' W' P' F1 F2 F3 F4 Hb. apply Hok; try done; try lia.
  { intros k Hk Hki. destruct (proj1 (Hop k)); [apply Hltj; lia|done|done]. }
  exists fi, fj, fd. split_and!; try done; [congruence|].
  intros fr o ???. rewrite Hb by done. congruence.
Qed.
End pipe.

(** ** Closing *)

(** What fd.c relies on of a device: its close function touches only the two
    pages of the descriptor, and unmaps what it unmaps. *)
Record closes (e : Z) (i : Z) (s s' : VM) : Prop := {
  cl_wf : wf s';
  cl_other k : k ≠ (e, fdp i) → k ≠ (e, datap i) → pte s' !! k = pte s !! k;
  cl_fd : pte s' !! (e, fdp i) = pte s !! (e, fdp i) ∨ pte s' !! (e, fdp i) = None;
  cl_data : pte s' !! (e, datap i) = pte s !! (e, datap i) ∨ pte s' !! (e, datap i) = None }.

Class DevLaws (e : Z) (devtab : list Dev) : Prop := dev_closes :
  ∀ d f, In d devtab → dev_close d = Some f → ∀ i s,
    0 ≤ i < MAXFD → wf s → is_open e s i → wpx (f (INDEX2FD i)) s (λ _ s', closes e i s s') (λ _ _, False).

Lemma closes_refl e i s : wf s → closes e i s s.
Proof. intros. split; auto. Qed.

(** Both pages of a descriptor go. *)
Lemma unmap_both e i s E (Q : Z → VM → Prop) : 0 ≤ i < MAXFD → wf s →
  (∀ s', wf s' → (∀ k, k ≠ (e, fdp i) → k ≠ (e, datap i) → pte s' !! k = pte s !! k) →
     ¬ is_open e s' i → pte s' !! (e, datap i) = None → Q 0 s') →
  wpx (u_page_unmap e (INDEX2FD i)) s (λ _ s', wpx (u_page_unmap e (INDEX2DATA i)) s' Q E) E.
Proof.
  intros Hi Hwf HQ. apply unmap_all; [done|auto with jos..|].
  rewrite vpn_fd by done. intros s1 W1 P1 M1.
  apply unmap_all; [done|by apply data_va_ok|by apply data_range|]. rewrite vpn_data by done.
  intros s2 W2 P2 M2. apply HQ; [done| | |by rewrite P2; apply lookup_delete_eq].
  - intros k H1 H2. rewrite P2, P1, !lookup_delete_ne by done. done.
  - intros [? H]. rewrite P2, lookup_delete_ne, P1, lookup_delete_eq in H; [done|].
    apply not_eq_sym, key_data; lia.
Qed.

(** The close function of pipes keeps the law. *)
Lemma devpipe_close_laws e i s : 0 ≤ i < MAXFD → wf s →
  wpx (devpipe_close e (INDEX2FD i)) s (λ _ s', closes e i s s' ∧ ¬ is_open e s' i ∧ pte s' !! (e, datap i) = None) (λ _ _, False).
Proof.
  intros Hi Hwf. unfold devpipe_close. rewrite fd2data_fd by done. wp_step. apply unmap_both; [done..|].
  intros s' W P Hf Hd. split; [|done]. split; [done..|right|by right].
  by apply eq_None_not_Some.
Qed.

#[global] Instance devpipe_laws e rd wr st : DevLaws e [mkDev devpipe_id rd wr (Some (devpipe_close e)) st None].
Proof.
  intros d f [<-|[]] [= <-] i s Hi Hwf _. eapply wpx_conseq; [by apply devpipe_close_laws|].
  by intros r s' (? & _).
Qed.

Section dup.
Context (e : Z) (devtab : list Dev) `{!DevLaws e devtab}.

Lemma close_ok i s Q :
  wf s → 0 ≤ i < MAXFD →
  (∀ r s', closes e i s s' → ¬ is_open e s' i → Q r s') →
  wp (close e devtab i) s Q.
Proof.
  intros Hwf Hi HQ. unfold close. wp_step. destruct (decide (is_open e s i)) as [Ho|Hno].
  - apply fd_lookup_ok; [done..|]. cbn [fst snd Z.ltb Z.compare]. unfold fd_close. wp_step.
    rewrite fd2num_fd, i32_id by (done || (unfold MAXFD in Hi; lia)).
    apply fd_lookup_ok; [done..|]. cbn [fst snd Z.ltb Z.compare orb]. rewrite Z.eqb_refl. cbn [negb].
    wp_step. unfold get32, frame_of, fd_dev_id. wp_step. wp_step. wp_step. rewrite vpn_fd by done.
    pose proof Ho as [[fr x] Hm]. rewrite Hm. cbn [andb]. wp_step. wp_step. wp_step.
    assert (∀ r s', closes e i s s' → wp (u_page_unmap e (INDEX2FD i) ≫= λ _, mret r) s' Q) as Hend.
    { intros r s1 [C1 C2 C3 C4]. wp_step. apply unmap_all; [done|auto with jos..|].
      rewrite vpn_fd by done. intros s2 W2 P2 M2. wp_step.
      assert (pte s2 !! (e, fdp i) = None) as Hf by (rewrite P2; apply lookup_delete_eq).
      apply HQ; [|by intros [? ?]; congruence]. split; [done| |by right|].
      - intros k H1 H2. rewrite P2, lookup_delete_ne by done. auto.
      - rewrite P2, lookup_delete_ne by (apply key_data; lia). done. }
    unfold dev_lookup. destruct (List.find _ devtab) as [d|] eqn:Hd.
    + apply find_some in Hd as [Hin _]. destruct (dev_close d) as [f|] eqn:Hc.
      * eapply wpx_mono; [eapply dev_closes; eauto|intros r s' ?; by apply Hend|done].
      * wp_step. apply Hend. by apply closes_refl.
    + wp_step. apply Hend. by apply closes_refl.
  - apply fd_lookup_closed; [done..|]. on_error. wp_step. apply HQ; [by apply closes_refl|done].
Qed.

(** What dup leaves of the descriptor [i], now a duplicate of [j]. *)
Record duplicate (j i : Z) (s s' : VM) : Prop := {
  du_fd fr x : pte s !! (e, fdp j) = Some (fr, x) → pte s' !! (e, fdp i) = Some (fr, Z.land x PTE_SYSCALL);
  du_data fr x : pte s !! (e, datap j) = Some (fr, x) → pte s' !! (e, datap i) = Some (fr, Z.land x PTE_SYSCALL) }.

Lemma dup_ok old new s Q :
  wf s → 0 ≤ old < MAXFD → 0 ≤ new < MAXFD → old ≠ new → is_open e s old →
  (∀ r s', wf s' → (∀ k, k ≠ (e, fdp new) → k ≠ (e, datap new) → pte s' !! k = pte s !! k) →
     (r = new ∧ duplicate old new s s' ∨
      r = - E_NO_MEM ∧ ¬ is_open e s' new ∧ pte s' !! (e, datap new) = None) → Q r s') →
  wp (dup e devtab old new) s Q.
Proof.
  intros Hwf Hold Hnew Hne Ho HQ. unfold dup. wp_step. apply fd_lookup_ok; [done..|].
  cbn [fst snd Z.ltb Z.compare]. wp_step. apply close_ok; [done..|].
  intros _ s1 [C1 C2 C3 C4] Hclosed. rewrite !fd2data_fd by done. wp_step. wp_step.
  assert (pte s1 !! (e, fdp old) = pte s !! (e, fdp old)) as Hfd.
  { apply C2; [by apply key_fd|apply key_data; lia]. }
  assert (pte s1 !! (e, datap old) = pte s !! (e, datap old)) as Hdata.
  { apply C2; [apply not_eq_sym, key_data; lia|]. intros [=]. unfold datap in *. lia. }
  destruct Ho as [[fr x] Hm].
  (* the label err *)
  assert (∀ t, wf t → (∀ k, k ≠ (e, fdp new) → k ≠ (e, datap new) → pte t !! k = pte s !! k) →
    wp (u_page_unmap e (INDEX2FD new) ≫= λ _, u_page_unmap e (INDEX2DATA new) ≫= λ _, mret (- E_NO_MEM)) t Q) as Herr.
  { intros t Wt Ht. wp_step. eapply wpx_conseq; [apply (unmap_both e new t _ (λ _ t', Q (- E_NO_MEM) t')); [done..|]|
      intros ? t' Ht'; wp_step; eapply wpx_conseq; [exact Ht'|by intros]].
    intros t' Wt' Pt' Hfd' Hdata'. apply HQ; [done| |auto].
    intros k H1 H2. rewrite Pt' by done. auto. }
  (* the descriptor, once the data page is there *)
  assert (∀ t, wf t → (∀ k, k ≠ (e, fdp new) → k ≠ (e, datap new) → pte t !! k = pte s !! k) →
    (∀ fr x, pte s !! (e, datap old) = Some (fr, x) → pte t !! (e, datap new) = Some (fr, Z.land x PTE_SYSCALL)) →
    wp (u_page_map e (INDEX2FD old) e (INDEX2FD new) (perm_at e (INDEX2FD old) t) ≫= λ r,
      if r <? 0 then u_page_unmap e (INDEX2FD new) ≫= λ _, u_page_unmap e (INDEX2DATA new) ≫= λ _, mret r
      else mret new) t Q) as Hlast.
  { intros t Wt Ht Hdt. assert (pte t !! (e, fdp old) = Some (fr, x)) as Hmt.
    { rewrite Ht; [done|by apply key_fd|apply key_data; lia]. }
    assert (perm_at e (INDEX2FD old) t = Z.land x PTE_SYSCALL) as ->
      by (unfold perm_at, perm_of; by rewrite vpn_fd, Hmt).
    wp_step. eapply map_cases; [done|eapply perm_ok_share, wf_perm; eauto|auto with jos..|by rewrite vpn_fd| | |].
    - rewrite land_has; auto.
    - rewrite vpn_fd by done. intros s2 W2 P2 M2. cbn [Z.ltb Z.compare]. wp_step. apply HQ; [done| |].
      + intros k H1 H2. rewrite P2, lookup_insert_ne by done. auto.
      + left. split; [done|]. split.
        * intros fr' x' H. simplify_eq. rewrite P2. apply lookup_insert_eq.
        * intros fr' x' H. rewrite P2, lookup_insert_ne by (apply key_data; lia). auto.
    - on_error. by apply Herr. }
  rewrite present_mapped, vpn_data, Hdata by done.
  assert (perm_at e (INDEX2DATA old) s1 = Z.land (default 0 (snd <$> pte s !! (e, datap old))) PTE_SYSCALL) as ->
    by (unfold perm_at, perm_of; by rewrite vpn_data, Hdata).
  destruct (pte s !! (e, datap old)) as [[fd y]|] eqn:Hd; cbn [fmap option_fmap option_map default from_option snd].
  - rewrite bool_decide_true by eauto.
    wp_step. eapply map_cases; [done|eapply perm_ok_share, wf_perm; eauto|by apply data_va_ok..|by rewrite vpn_data, Hdata| | |].
    + simpl. rewrite land_has; auto.
    + rewrite vpn_data by done. intros s2 W2 P2 M2. cbn [Z.ltb Z.compare]. wp_step. wp_step. apply Hlast; [done| |].
      * intros k H1 H2. rewrite P2, lookup_insert_ne by done. auto.
      * intros fr' x' H. simplify_eq. rewrite P2. apply lookup_insert_eq.
    + on_error. by apply Herr.
  - rewrite bool_decide_false by (by intros [? ?]). wp_step. cbn [Z.ltb Z.compare]. wp_step.
    apply Hlast; [done|auto|done].
Qed.
End dup.

(** ** Theorems *)

(** C26. pipe() on every branch, wherever memory runs out: either it returns two
    new descriptors, the two lowest that were not open, with descriptor pages of
    their own marked as the read end and the write end, and one fresh data page
    mapped beside both; or it returns an error and every mapping and every byte is
    as before, nothing half made. *)
Theorem pipe_correct e s :
  wf s → data_closed e s →
  wp (pipe e) s (λ r s', wf s' ∧
    let '(r, i, j) := r in
    (r = 0 ∧ 0 ≤ i < j ∧ j < MAXFD ∧ ¬ is_open e s i ∧ ¬ is_open e s j ∧
       (∀ k, 0 ≤ k < j → k ≠ i → is_open e s k) ∧ piped e s s' i j) ∨
    (r < 0 ∧ pte s' = pte s ∧ pmem s' = pmem s)).
Proof.
  intros Hwf Hdc. apply pipe_ok; [done..| |].
  - intros s' i j W Hi Hj Hni Hnj Hk Hp. split; [done|]. left. by split_and!; try lia.
  - intros s' r W Hr [Hp Hm]. split; [done|]. by right.
Qed.

(** dup on every branch, whatever was open at the new number and whichever
    device closes it.  Afterwards the new number is a duplicate of the old one,
    with the same descriptor page, so a shared offset, and the same data page; or,
    when a page table could not be had, it is closed, data page included.  No other
    page of any environment is mapped differently. *)
Theorem dup_correct e devtab `{!DevLaws e devtab} old new s :
  wf s → 0 ≤ old < MAXFD → 0 ≤ new < MAXFD → old ≠ new → is_open e s old →
  wp (dup e devtab old new) s (λ r s', wf s' ∧
    (∀ k, k ≠ (e, fdp new) → k ≠ (e, datap new) → pte s' !! k = pte s !! k) ∧
    (r = new ∧ duplicate e old new s s' ∨
     r = - E_NO_MEM ∧ ¬ is_open e s' new ∧ pte s' !! (e, datap new) = None)).
Proof. intros. apply dup_ok; try done. Qed.

(** dup does not check the new number: the descriptor page for number 32 is the
    data page of descriptor 0, which is replaced. *)
Theorem dup_out_of_range e devtab old s fr x :
  wf s → 0 ≤ old < MAXFD → pte s !! (e, fdp old) = Some (fr, x) → pte s !! (e, datap old) = None →
  wp (dup e devtab old MAXFD) s (λ r s', r = MAXFD ∧ pte s' !! (e, datap 0) = Some (fr, Z.land x PTE_SYSCALL)).
Proof.
  intros Hwf Hi Hm Hd. unfold dup. wp_step. apply fd_lookup_ok; [done..|by eexists|].
  cbn [fst snd Z.ltb Z.compare]. wp_step. unfold close. wp_step. apply fd_lookup_closed; [done|by intros []|].
  on_error. wp_step. wp_step. wp_step. rewrite (fd2data_fd old Hi), present_mapped, vpn_data, Hd by done.
  rewrite bool_decide_false by (by intros [? ?]). wp_step. wp_step. cbn [Z.ltb Z.compare]. wp_step. wp_step.
  assert (perm_at e (INDEX2FD old) s = Z.land x PTE_SYSCALL) as ->
    by (unfold perm_at, perm_of; by rewrite vpn_fd, Hm).
  wp_step. change (INDEX2FD MAXFD) with (INDEX2DATA 0).
  assert (cost s e (datap 0) = 0%nat) as Hc.
  { unfold cost. rewrite bool_decide_true; [done|]. pose proof (wf_tables _ Hwf _ _ _ Hm) as Ht.
    replace (datap 0 / NPDENTRIES) with (fdp old / NPDENTRIES); [done|].
    unfold fdp, datap, NPDENTRIES, MAXFD in *. change (vpn FDTABLE) with 851968. change (vpn FILEDATA) with 852000. zlia. }
  eapply page_map_ok; [done|eapply perm_ok_share, wf_perm; eauto|by apply fd_va_ok|done|by rewrite vpn_fd| |change (vpn (INDEX2DATA 0)) with (datap 0); lia|].
  - rewrite land_has; auto.
  - change (vpn (INDEX2DATA 0)) with (datap 0). intros s' [W' P' _ _ _]. cbn [Z.ltb Z.compare]. wp_step.
    split; [done|]. rewrite P'. apply lookup_insert_eq.
Qed.

(** ** Instances *)

(** Environment 1 with only descriptor 0 open. *)
Definition ex_fd_vm : VM :=
  mkVM ∅ [20; 21; 22; 23; 24] {[(1, fdp 0) := (10, PIPE_PERM)]} {[(1, fdp 0 / NPDENTRIES)]}.

Lemma ex_fd_wf : wf ex_fd_vm.
Proof.
  split; cbn [pte pfree pmem tables ex_fd_vm].
  - apply (bool_decide_unpack _). by vm_compute.
  - intros fr k x [_ [= <- _]]%lookup_singleton_Some. apply (bool_decide_unpack _). by vm_compute.
  - intros e v x [[= <- <-] _]%lookup_singleton_Some. by apply elem_of_singleton.
  - by intros fr k x [_ [= _ <-]]%lookup_singleton_Some.
  - intros a. unfold ldb. rewrite !getd_empty. lia.
Qed.

Lemma pipe_correct_witness :
  wp (pipe 1) ex_fd_vm (λ r s', r = (0, 1, 2) ∧ piped 1 ex_fd_vm s' 1 2).
Proof.
  assert (data_closed 1 ex_fd_vm) as Hdc.
  { intros i Hi _. cbn [pte ex_fd_vm]. apply lookup_singleton_ne. apply key_data; unfold MAXFD in *; lia. }
  pose proof (pipe_correct 1 ex_fd_vm ex_fd_wf Hdc) as H. unfold wpx in *.
  assert (∃ s', pipe 1 ex_fd_vm = Ret (0, 1, 2) s') as [s' Hrun] by (eexists; vm_compute; reflexivity).
  rewrite Hrun in *. destruct H as (_ & [(_ & _ & _ & _ & _ & _ & Hp)|[Hr _]]); [done|lia].
Defined.

Lemma dup_correct_witness :
  wp (dup 1 [] 0 5) ex_fd_vm (λ r s', r = 5 ∧ pte s' !! (1, fdp 5) = Some (10, PIPE_PERM)).
Proof.
  assert (DevLaws 1 []) as Hlaws by (by intros ? ? []).
  assert (pte ex_fd_vm !! (1, fdp 0) = Some (10, PIPE_PERM)) as Hm by apply lookup_singleton_eq.
  pose proof (dup_correct 1 [] 0 5 ex_fd_vm ex_fd_wf) as H.
  assert (∃ s', dup 1 [] 0 5 ex_fd_vm = Ret 5 s') as [s' Hrun] by (eexists; vm_compute; reflexivity).
  unfold wpx in *. rewrite Hrun in *.
  destruct H as (_ & _ & [[_ Hd]|[? _]]); [done|done|done|by eexists| |done].
  split; [done|]. by apply (du_fd _ _ _ _ _ Hd _ _ Hm).
Defined.
