(* ===== verification/Stdio.v ===== *)
(** * Buffered output and line input (lib/printf.c, lib/fprintf.c, lib/readline.c)

    cprintf and fprintf run vprintfmt ([Printfmt]) with a putch that collects
    characters in a buffer; readline edits a line in a static buffer.  What a
    write to a descriptor does is an argument, a function of the bytes and of the
    state [W] it works on. *)
From Stdlib Require Import String.
From S2P Require Import Prelude Mem StringC Printfmt.

(** ** lib/printf.c *)

(** [buf[0..idx)], the characters counted so far, and the calls of sys_cputs. *)
Record cbuf : Type := mkCbuf { c_buf : list Z; c_cnt : Z; c_calls : list (list Z) }.

Definition cput (b : cbuf) (ch : Z) : cbuf :=
  let buf := c_buf b ++ [u8 ch] in
  if Z.of_nat (length buf) =? 256 - 1
  then mkCbuf [] (i32 (c_cnt b + 1)) (c_calls b ++ [buf])
  else mkCbuf buf (i32 (c_cnt b + 1)) (c_calls b).

(** The calls of sys_cputs, and the result. *)
Definition vcprintf (fuel : nat) (fmt : list Z) (args : list vaarg) : option (list (list Z) * Z) :=
  out ← vprintfmt fuel None fmt args;
  let b := fold_left cput out (mkCbuf [] 0 []) in
  Some (c_calls b ++ [c_buf b], c_cnt b).

(** The calls print the output in order, and it is counted. *)
Lemma cput_fold out b :
  let b' := fold_left cput out b in
  concat (c_calls b') ++ c_buf b' = concat (c_calls b) ++ c_buf b ++ (u8 <$> out) ∧
  (0 ≤ c_cnt b → c_cnt b + Z.of_nat (length out) < 2 ^ 31 → c_cnt b' = c_cnt b + Z.of_nat (length out)).
Proof.
  revert b. induction out as [|ch out IH]; intros b; cbn [fold_left fmap list_fmap length].
  { split; [by rewrite app_nil_r|lia]. }
  destruct (IH (cput b ch)) as [-> Hc]. clear IH. split.
  - unfold cput. case_match; cbn [c_calls c_buf].
    + rewrite concat_app. simpl. by rewrite app_nil_r, <- !app_assoc.
    + by rewrite <- !app_assoc.
  - intros H0 Hlt. assert (c_cnt (cput b ch) = c_cnt b + 1) as Hb.
    { unfold cput. pow2. case_match; simpl; apply i32_id; lia. }
    rewrite Hc, Hb; lia.
Qed.

(** ** lib/fprintf.c *)

Section fprintf.
Context {W : Type} (write : list Z → W → Z * W).

Record printbuf : Type := mkPbuf { p_buf : list Z; p_result : Z; p_error : Z; p_dev : W }.

Definition writebuf (b : printbuf) : printbuf :=
  if 0 <? p_error b then
    let '(result, w) := write (p_buf b) (p_dev b) in
    mkPbuf (p_buf b) (if 0 <? result then p_result b + result else p_result b)
      (if result =? Z.of_nat (length (p_buf b)) then p_error b else if result <? 0 then result else 0) w
  else b.

Definition putch (b : printbuf) (ch : Z) : printbuf :=
  let b := mkPbuf (p_buf b ++ [u8 ch]) (p_result b) (p_error b) (p_dev b) in
  if Z.of_nat (length (p_buf b)) =? 256 then
    let b := writebuf b in mkPbuf [] (p_result b) (p_error b) (p_dev b)
  else b.

Definition vfprintf (fuel : nat) (fmt : list Z) (args : list vaarg) (w : W) : option (Z * W) :=
  out ← vprintfmt fuel None fmt args;
  let b := fold_left putch out (mkPbuf [] 0 1 w) in
  let b := if 0 <? Z.of_nat (length (p_buf b)) then writebuf b else b in
  Some (i32 (if p_result b =? 0 then p_error b else p_result b), p_dev b).

(** The reference: the blocks are written in order until one is not taken in
    full; the result is the number of bytes taken, or else the error. *)
Fixpoint send (blocks : list (list Z)) (taken : Z) (w : W) : Z * Z * W :=
  match blocks with
  | [] => (taken, 1, w)
  | b :: blocks =>
      let '(r, w) := write b w in
      let taken := if 0 <? r then taken + r else taken in
      if r =? Z.of_nat (length b) then send blocks taken w else (taken, Z.min r 0, w)
  end.

Lemma send_app bs bs' t w :
  send (bs ++ bs') t w = let '(t', e, w') := send bs t w in if e =? 1 then send bs' t' w' else (t', e, w').
Proof.
  revert t w. induction bs as [|b bs IH]; intros t w; [done|]. cbn [app send].
  destruct (write b w) as [r w']. destruct (r =? Z.of_nat (length b)); [apply IH|].
  by rewrite (proj2 (Z.eqb_neq (Z.min r 0) 1)) by lia.
Qed.

(** The buffer after some characters: full blocks are sent, the rest is held. *)
Definition sent (blocks : list (list Z)) (w0 : W) (b : printbuf) : Prop :=
  let '(t, e, w) := send blocks 0 w0 in
  p_result b = t ∧ p_dev b = w ∧ (if 0 <? p_error b then p_error b = 1 ∧ e = 1 else p_error b = e).

Lemma send_error bs t w : (send bs t w).1.2 = 1 ∨ (send bs t w).1.2 ≤ 0.
Proof.
  revert t w. induction bs as [|b bs IH]; intros t w; [by left|]. cbn [send].
  destruct (write b w) as [r w']. case_match; [apply IH|]. right. simpl. lia.
Qed.

Lemma sent_writebuf blocks w0 b : sent blocks w0 b → sent (blocks ++ [p_buf b]) w0 (writebuf b).
Proof.
  unfold sent, writebuf. rewrite send_app. pose proof (send_error blocks 0 w0) as Herr.
  destruct (send blocks 0 w0) as [[t e] w]. simpl in Herr. intros (Hr & Hw & He).
  destruct (0 <? p_error b) eqn:Hp.
  - destruct He as [He ->]. cbn [Z.eqb Pos.eqb send]. rewrite Hw.
    destruct (write (p_buf b) w) as [r w']. cbn [p_result p_error p_dev]. rewrite Hr.
    destruct (r =? Z.of_nat (length (p_buf b))); [by rewrite He|].
    assert ((if r <? 0 then r else 0) = Z.min r 0) as -> by (destruct (Z.ltb_spec r 0); lia).
    by rewrite (proj2 (Z.ltb_ge 0 (Z.min r 0))) by lia.
  - rewrite Hp, He in *. apply Z.ltb_ge in Hp. by rewrite (proj2 (Z.eqb_neq e 1)) by lia.
Qed.

Lemma putch_fold out w0 b blocks :
  sent blocks w0 b → (length (p_buf b) < 256)%nat → Forall (λ c, length c = 256%nat) blocks →
  ∃ blocks', sent blocks' w0 (fold_left putch out b) ∧ (length (p_buf (fold_left putch out b)) < 256)%nat ∧
    Forall (λ c, length c = 256%nat) blocks' ∧
    concat blocks' ++ p_buf (fold_left putch out b) = concat blocks ++ p_buf b ++ (u8 <$> out).
Proof.
  revert b blocks. induction out as [|ch out IH]; intros b blocks Hs Hl Hb; cbn [fold_left].
  { exists blocks. by rewrite app_nil_r. }
  set (b' := mkPbuf (p_buf b ++ [u8 ch]) (p_result b) (p_error b) (p_dev b)).
  assert (length (p_buf b') = S (length (p_buf b))) as Hl' by (simpl; rewrite length_app; simpl; lia).
  unfold putch at 2 4 6. fold b'. destruct (Z.eqb_spec (Z.of_nat (length (p_buf b'))) 256) as [Hfull|Hfull].
  - edestruct (IH (mkPbuf [] (p_result (writebuf b')) (p_error (writebuf b')) (p_dev (writebuf b'))) (blocks ++ [p_buf b']))
      as (bs & H1 & H2 & H3 & H4).
    + by apply (sent_writebuf blocks w0 b').
    + simpl. lia.
    + apply list.Forall_app. split; [done|]. constructor; [lia|done].
    + exists bs. split_and!; try done. rewrite H4, concat_app. simpl. by rewrite app_nil_r, <- !app_assoc.
  - edestruct (IH b' blocks) as (bs & H1 & H2 & H3 & H4); [done|lia|done|].
    exists bs. split_and!; try done. rewrite H4. simpl. by rewrite <- app_assoc.
Qed.
End fprintf.

(** ** lib/readline.c *)

Definition BUFLEN : Z := 1024.

Section readline.
Context (buf : Z).

(** What getchar returned, call by call; the loop waits when that ends ([None]).
    The echo is left out. *)
Fixpoint readline_loop (input : list Z) (m : mem) (i : Z) : option (Z * mem) :=
  match input with
  | [] => None
  | c :: input =>
      if c <? 0 then Some (0, m)
      else if ((c =? 8) || (c =? 127)) && (0 <? i) then readline_loop input m (i - 1)
      else if (32 <=? c) && (i <? BUFLEN - 1) then readline_loop input (stb m (buf + i) c) (i + 1)
      else if (c =? 10) || (c =? 13) then Some (buf, stb m (buf + i) 0)
      else readline_loop input m i
  end.
Definition readline (input : list Z) (m : mem) : option (Z * mem) := readline_loop input m 0.

(** The reference: the line as a list; [Some None] at the end of the input. *)
Fixpoint edit (line : list Z) (input : list Z) : option (option (list Z)) :=
  match input with
  | [] => None
  | c :: input =>
      if c <? 0 then Some None
      else if ((c =? 8) || (c =? 127)) && negb (bool_decide (line = [])) then edit (removelast line) input
      else if (32 <=? c) && (Z.of_nat (length line) <? BUFLEN - 1) then edit (line ++ [c]) input
      else if (c =? 10) || (c =? 13) then Some (Some line)
      else edit line input
  end.

(** The buffer holds the line; nothing else has changed. *)
Definition holds_line (m0 m : mem) (line : list Z) : Prop :=
  load_bytes m buf (length line) = line ∧ Forall (λ c, 0 < c < 256) line ∧
  Z.of_nat (length line) < BUFLEN ∧ ∀ b, b < buf ∨ buf + BUFLEN ≤ b → ldb m b = ldb m0 b.

Lemma holds_snoc m0 m line c :
  holds_line m0 m line → 0 < c < 256 → Z.of_nat (length line) < BUFLEN - 1 →
  holds_line m0 (stb m (buf + Z.of_nat (length line)) c) (line ++ [c]).
Proof.
  intros (H1 & H2 & H3 & H4) Hc Hl. unfold holds_line. rewrite length_app, load_bytes_app. cbn [length load_bytes].
  split; [|split; [|split]].
  - f_equal.
    + rewrite <- H1 at 3. apply load_bytes_ext. intros b Hb. apply ldb_stb_ne. lia.
    + rewrite ldb_stb_eq, u8_id by lia. done.
  - apply list.Forall_app. split; [done|]. by constructor.
  - lia.
  - intros b Hb. rewrite ldb_stb_ne by lia. auto.
Qed.

Lemma holds_back m0 m line c : holds_line m0 m (line ++ [c]) → holds_line m0 m line.
Proof.
  intros (H1 & H2 & H3 & H4). rewrite length_app, load_bytes_app in *. simpl in *.
  apply app_inj_1 in H1 as [H1 _]; [|apply length_load_bytes]. apply list.Forall_app in H2 as [H2 _].
  split_and!; auto. lia.
Qed.

Lemma readline_loop_ok input m0 m line :
  Forall (λ c, c < 256) input → holds_line m0 m line →
  match edit line input with
  | None => readline_loop input m (Z.of_nat (length line)) = None
  | Some None => ∃ m', readline_loop input m (Z.of_nat (length line)) = Some (0, m')
  | Some (Some l) => ∃ m', readline_loop input m (Z.of_nat (length line)) = Some (buf, m') ∧
      cstr m' buf l ∧ Z.of_nat (length l) < BUFLEN ∧
      ∀ b, b < buf ∨ buf + BUFLEN ≤ b → ldb m' b = ldb m0 b
  end.
Proof.
  intros Hin. revert m line. induction Hin as [|c input Hc Hin IH]; intros m line Hl; [done|].
  cbn [edit readline_loop]. destruct (Z.ltb_spec c 0); [by eexists|].
  assert (0 <? Z.of_nat (length line) = negb (bool_decide (line = []))) as ->.
  { destruct line; [done|]. rewrite bool_decide_false by done. apply Z.ltb_lt. simpl. lia. }
  destruct (((c =? 8) || (c =? 127)) && negb (bool_decide (line = []))) eqn:Hdel.
  { apply andb_prop in Hdel as [_ Hne%negb_true_iff%bool_decide_eq_false].
    destruct (exists_last Hne) as (l & x & ->). rewrite removelast_last.
    replace (Z.of_nat (length (l ++ [x])) - 1) with (Z.of_nat (length l)) by (rewrite length_app; simpl; lia).
    apply IH. by eapply holds_back. }
  destruct ((32 <=? c) && (Z.of_nat (length line) <? BUFLEN - 1)) eqn:Hadd.
  { apply andb_prop in Hadd as [H1%Z.leb_le H2%Z.ltb_lt].
    replace (Z.of_nat (length line) + 1) with (Z.of_nat (length (line ++ [c]))) by (rewrite length_app; simpl; lia).
    apply IH. apply holds_snoc; [done|lia|done]. }
  destruct ((c =? 10) || (c =? 13)); [|by apply IH].
  eexists. split; [reflexivity|]. destruct Hl as (H1 & H2 & H3 & H4). split; [|split; [done|]].
  - split; [|split; [done|]].
    + rewrite <- H1 at 3. apply load_bytes_ext. intros b Hb. apply ldb_stb_ne. lia.
    + by rewrite ldb_stb_eq.
  - intros b Hb. rewrite ldb_stb_ne by lia. auto.
Qed.
End readline.

(** ** Theorems *)

(** Formatted output to a descriptor, for any format and whatever the writes
    do.  The bytes of the output go out in order in blocks of at most 256, as long
    as every block is taken in full; the first write that fails or falls short is
    the last.  The result is the number of bytes taken; when that is zero, the
    error, or 1 if nothing went wrong. *)
Theorem vfprintf_delivers {W} (write : list Z → W → Z * W) fuel fmt args w out :
  vprintfmt fuel None fmt args = Some out →
  ∃ blocks, concat blocks = u8 <$> out ∧ Forall (λ b, 0 < Z.of_nat (length b) ≤ 256) blocks ∧
    vfprintf write fuel fmt args w =
      Some (let '(t, e, w') := send write blocks 0 w in (i32 (if t =? 0 then e else t), w')).
Proof.
  intros Hout. unfold vfprintf. rewrite Hout. cbn [mbind option_bind].
  destruct (putch_fold write out w (mkPbuf [] 0 1 w) []) as (bs & Hs & Hl & Hb & Hc); [done|simpl; lia|done|].
  simpl in Hc. set (b := fold_left _ out _) in *.
  assert (Forall (λ b, 0 < Z.of_nat (length b) ≤ 256) bs) as Hb'
    by (eapply list.Forall_impl; [exact Hb|]; intros x Hx; simpl in Hx; lia).
  assert (∀ bs b, sent write bs w b → (let '(t, e, w') := send write bs 0 w in (i32 (if t =? 0 then e else t), w')) =
    (i32 (if p_result b =? 0 then p_error b else p_result b), p_dev b)) as Hend.
  { clear. intros bs b. unfold sent. destruct (send write bs 0 w) as [[t e] w']. intros (-> & -> & He).
    destruct (0 <? p_error b); [by destruct He as [-> ->]|by rewrite He]. }
  destruct (Z.ltb_spec 0 (Z.of_nat (length (p_buf b)))) as [Hne|He].
  - exists (bs ++ [p_buf b]). split; [|split].
    + rewrite concat_app. simpl. by rewrite app_nil_r.
    + apply list.Forall_app. split; [done|]. constructor; [lia|done].
    + f_equal. symmetry. apply Hend. by apply sent_writebuf.
  - exists bs. split; [|split; [done|f_equal; symmetry; by apply Hend]].
    destruct (p_buf b); [by rewrite app_nil_r in Hc|simpl in He; lia].
Qed.

(** C39. Reading a line.  For every input readline behaves as a line editor over
    lists: it waits for more exactly when the editor has no line yet, returns NULL
    at an error or the end of the input, and otherwise its buffer with the edited
    line as a string, never writing outside the 1024 bytes of the buffer. *)
Theorem readline_correct buf input m :
  Forall (λ c, c < 256) input →
  match edit [] input with
  | None => readline buf input m = None
  | Some None => ∃ m', readline buf input m = Some (0, m')
  | Some (Some l) => ∃ m', readline buf input m = Some (buf, m') ∧
      cstr m' buf l ∧ Z.of_nat (length l) < BUFLEN ∧
      ∀ b, b < buf ∨ buf + BUFLEN ≤ b → ldb m' b = ldb m b
  end.
Proof. intros Hin. apply (readline_loop_ok buf input m m []); [done|]. by split_and!. Qed.

(** Nothing printed is reported as one byte. *)
Theorem fprintf_empty {W} (write : list Z → W → Z * W) w : vfprintf write 1 [] [] w = Some (1, w).
Proof. done. Qed.

(** A delete at the start of a line is kept as a character. *)
Theorem readline_delete buf m : ∃ m', readline buf [127; 10] m = Some (buf, m') ∧ cstr m' buf [127].
Proof.
  destruct (readline_loop_ok buf [127; 10] m m []) as (m' & H1 & H2 & _); [by repeat constructor|by split_and!|]. eauto.
Qed.

(** ** Instances *)

(** A device that takes everything. *)
Definition ex_write (b : list Z) (w : list Z) : Z * list Z := (Z.of_nat (length b), w ++ b).

Lemma vfprintf_delivers_witness :
  ∃ blocks, concat blocks = str "x = 7"%string ∧
    vfprintf ex_write 20 (str "x = %d"%string) [VInt 7] [] =
      Some (let '(t, e, w') := send ex_write blocks 0 [] in (i32 (if t =? 0 then e else t), w')).
Proof.
  destruct (vfprintf_delivers ex_write 20 (str "x = %d"%string) [VInt 7] [] (str "x = 7"%string)) as (bs & H1 & _ & H3).
  - vm_compute. reflexivity.
  - exists bs. split; [rewrite H1; vm_compute; reflexivity|exact H3].
Defined.

Lemma readline_correct_witness :
  ∃ m', readline 4096 (str "lx"%string ++ [8] ++ str "s"%string ++ [10]) ∅ = Some (4096, m') ∧
    cstr m' 4096 (str "ls"%string).
Proof.
  destruct (readline_correct 4096 (str "lx"%string ++ [8] ++ str "s"%string ++ [10]) ∅) as (m' & H1 & H2 & _).
  - apply (bool_decide_unpack _). vm_compute. exact I.
  - exists m'. split; [exact H1|exact H2].
Defined.
