(* ===== verification/Threads.v ===== *)
(** * Cooperative threads of the network server (net/lwip/jos/arch: threadq.h,
    thread.c)

    Thread contexts live in a heap and are queued through [tc_queue_link]; the run
    queue and the kill queue are pairs of pointers into it.  A use of a pointer
    that is not a live context panics, so a theorem on a run that returns also
    excludes NULL dereferences and uses after free.  [Ctx] is what jos_setjmp saves
    and jos_longjmp restores; [regs] is the one in the processor.  The results of
    malloc are arguments.  Calls of the tc_onhalt functions are logged. *)
From S2P Require Import Prelude Mem Printfmt.

Section threads.
Context {Ctx : Type}.

Record thread_queue : Type := mkTQ { tq_first : Z; tq_last : Z }.

Record thread_context : Type := mkTC {
  tc_tid : Z; tc_stack_bottom : Z; tc_name : list Z; tc_entry : Z; tc_arg : Z;
  tc_jb : Ctx; tc_wait_addr : Z; tc_wakeup : bool; tc_onhalt : list Z; tc_queue_link : Z
}.

Record tst : Type := mkTst {
  heap : gmap Z thread_context;   (* the contexts allocated by thread_create *)
  stacks : gset Z;                (* the stacks allocated by thread_create *)
  run_queue : thread_queue;       (* thread_queue *)
  kill_queue : thread_queue;
  cur_tc : Z;
  max_tid : Z;
  regs : Ctx;
  halted : list (Z * Z)           (* calls of tc_onhalt: function, tid *)
}.

Inductive texit : Type := Exited.

Definition T := M tst texit.

Definition set_heap h s := mkTst h (stacks s) (run_queue s) (kill_queue s) (cur_tc s)
  (max_tid s) (regs s) (halted s).
Definition set_stacks x s := mkTst (heap s) x (run_queue s) (kill_queue s) (cur_tc s)
  (max_tid s) (regs s) (halted s).
Definition set_run q s := mkTst (heap s) (stacks s) q (kill_queue s) (cur_tc s)
  (max_tid s) (regs s) (halted s).
Definition set_kill q s := mkTst (heap s) (stacks s) (run_queue s) q (cur_tc s)
  (max_tid s) (regs s) (halted s).
Definition set_cur c s := mkTst (heap s) (stacks s) (run_queue s) (kill_queue s) c
  (max_tid s) (regs s) (halted s).
Definition set_max_tid n s := mkTst (heap s) (stacks s) (run_queue s) (kill_queue s) (cur_tc s)
  n (regs s) (halted s).
Definition set_regs r s := mkTst (heap s) (stacks s) (run_queue s) (kill_queue s) (cur_tc s)
  (max_tid s) r (halted s).
Definition add_halted x s := mkTst (heap s) (stacks s) (run_queue s) (kill_queue s) (cur_tc s)
  (max_tid s) (regs s) (halted s ++ [x]).

Definition set_link l c := mkTC (tc_tid c) (tc_stack_bottom c) (tc_name c) (tc_entry c)
  (tc_arg c) (tc_jb c) (tc_wait_addr c) (tc_wakeup c) (tc_onhalt c) l.
Definition set_jb j c := mkTC (tc_tid c) (tc_stack_bottom c) (tc_name c) (tc_entry c)
  (tc_arg c) j (tc_wait_addr c) (tc_wakeup c) (tc_onhalt c) (tc_queue_link c).
Definition set_wait a w c := mkTC (tc_tid c) (tc_stack_bottom c) (tc_name c) (tc_entry c)
  (tc_arg c) (tc_jb c) a w (tc_onhalt c) (tc_queue_link c).
Definition set_onhalt f c := mkTC (tc_tid c) (tc_stack_bottom c) (tc_name c) (tc_entry c)
  (tc_arg c) (tc_jb c) (tc_wait_addr c) (tc_wakeup c) f (tc_queue_link c).

Definition tderef (p : Z) : T thread_context :=
  s ← get; match heap s !! p with Some c => mret c | None => panic end.
Definition tupd (p : Z) (f : thread_context → thread_context) : T unit :=
  c ← tderef p; modify (λ s, set_heap (<[p := f c]> (heap s)) s).

(** ** threadq.h: the queues are named by their accessors *)

Inductive qname : Type := RunQ | KillQ.

Definition tq (q : qname) (s : tst) : thread_queue :=
  match q with RunQ => run_queue s | KillQ => kill_queue s end.
Definition set_tq (q : qname) (x : thread_queue) (s : tst) : tst :=
  match q with RunQ => set_run x s | KillQ => set_kill x s end.

Definition threadq_init (q : qname) : T unit := modify (set_tq q (mkTQ 0 0)).

Definition threadq_push (q : qname) (tc : Z) : T unit :=
  tupd tc (set_link 0);;
  t ← gets (tq q);
  if tq_first t =? 0 then modify (set_tq q (mkTQ tc tc))
  else
    tupd (tq_last t) (set_link tc);;
    modify (set_tq q (mkTQ (tq_first t) tc)).

Definition threadq_pop (q : qname) : T Z :=
  t ← gets (tq q);
  if tq_first t =? 0 then mret 0
  else
    let tc := tq_first t in
    c ← tderef tc;
    modify (set_tq q (mkTQ (tc_queue_link c) (tq_last t)));;
    tupd tc (set_link 0);;
    mret tc.

(** ** thread.c *)

Definition THREAD_NUM_ONHALT : Z := 4.
Definition name_size : Z := 32.
Definition stack_size : Z := PGSIZE.

Definition thread_init : T unit := threadq_init RunQ;; modify (set_max_tid 0).

Definition thread_id : T Z := c ← gets cur_tc; x ← tderef c; mret (tc_tid x).

(** [while (tc) { body; tc = tc->tc_queue_link }] *)
Fixpoint walk (fuel : nat) (tc : Z) (body : Z → T unit) : T unit :=
  match fuel with
  | O => panic
  | S fuel' =>
      if tc =? 0 then mret tt
      else body tc;; c ← tderef tc; walk fuel' (tc_queue_link c) body
  end.

(** One more than the contexts there are. *)
Definition walk_fuel (s : tst) : nat := S (size (heap s)).

Definition thread_wakeup (addr : Z) : T unit :=
  s ← get;
  walk (walk_fuel s) (tq_first (run_queue s)) (λ tc,
    c ← tderef tc;
    when (tc_wait_addr c =? addr) (tupd tc (set_wait (tc_wait_addr c) true))).

Fixpoint count_wakeups (fuel : nat) (tc : Z) (n : Z) : T Z :=
  match fuel with
  | O => panic
  | S fuel' =>
      if tc =? 0 then mret n
      else c ← tderef tc;
           count_wakeups fuel' (tc_queue_link c) (if tc_wakeup c then n + 1 else n)
  end.

Definition thread_wakeups_pending : T Z :=
  s ← get; count_wakeups (walk_fuel s) (tq_first (run_queue s)) 0.

(** [tc_nonhalt] is the length of [tc_onhalt]. *)
Definition thread_onhalt (fn : Z) : T Z :=
  cur ← gets cur_tc;
  c ← tderef cur;
  if THREAD_NUM_ONHALT <=? Z.of_nat (length (tc_onhalt c)) then mret (- E_NO_MEM)
  else tupd cur (set_onhalt (tc_onhalt c ++ [fn]));; mret 0.

Definition alloc_tid : T Z :=
  tid ← gets max_tid;
  modify (set_max_tid (u32 (tid + 1)));;
  m ← gets max_tid;
  if m =? u32 (-1) then panic else mret tid.

Definition thread_set_name (name : list Z) : list Z := take (Z.to_nat (name_size - 1)) name.

(** The thread's id, or None with -E_NO_MEM.  [mtc] and [mstack] are what the two
    calls of malloc give, 0 for NULL; [fresh_jb stacktop] has rip at thread_entry and
    the other registers zero. *)
Definition thread_create (fresh_jb : Z → Ctx) (name : list Z) (entry arg mtc mstack : Z) : T (option Z * Z) :=
  if mtc =? 0 then mret (None, - E_NO_MEM)
  else
    tid ← alloc_tid;
    if mstack =? 0 then mret (None, - E_NO_MEM)
    else
      let stacktop := mstack + stack_size - 8 in
      modify (λ s, set_heap (<[mtc := mkTC tid mstack (thread_set_name name) entry (u32 arg)
                     (fresh_jb stacktop) 0 false [] 0]> (heap s))
                   (set_stacks ({[mstack]} ∪ stacks s) s));;
      threadq_push RunQ mtc;;
      mret (Some tid, 0).

Definition thread_clean (tc : Z) : T unit :=
  if tc =? 0 then mret tt
  else
    c ← tderef tc;
    _ ← for_range 0 (Z.of_nat (length (tc_onhalt c))) (λ i,
          modify (add_halted (nth (Z.to_nat i) (tc_onhalt c) 0, tc_tid c));;
          mret (None : option unit));
    modify (λ s, set_stacks (stacks s ∖ {[tc_stack_bottom c]}) s);;
    modify (λ s, set_heap (delete tc (heap s)) s).

(** [true] when jos_longjmp was taken: the code after the call then runs only
    when the caller's own context is restored. *)
Definition thread_yield : T bool :=
  next ← threadq_pop RunQ;
  if next =? 0 then mret false
  else
    cur ← gets cur_tc;
    when (negb (cur =? 0))
      (r ← gets regs; tupd cur (set_jb r);; threadq_push RunQ cur);;
    modify (set_cur next);;
    c ← tderef next;
    modify (set_regs (tc_jb c));;
    mret true.

(** thread_wait, cut at its calls of thread_yield and sys_time_msec: entry, the
    test of the loop ([cell] is [*addr], [p] the last time read), exit. *)
Definition thread_wait_enter (addr : Z) : T unit := cur ← gets cur_tc; tupd cur (set_wait addr false).
Definition thread_wait_more (addr cell val msec s p : Z) : T bool :=
  cur ← gets cur_tc;
  c ← tderef cur;
  mret ((p <? msec) && negb (p <? s) && negb (negb (addr =? 0) && negb (cell =? val)) && negb (tc_wakeup c)).
Definition thread_wait_leave : T unit := cur ← gets cur_tc; tupd cur (set_wait 0 false).

Definition thread_halt : T unit :=
  k ← threadq_pop KillQ;
  thread_clean k;;
  cur ← gets cur_tc;
  threadq_push KillQ cur;;
  modify (set_cur 0);;
  switched ← thread_yield;
  if switched : bool then mret tt else leave Exited.

(** ** The queues are lists *)

(** [chain h p l]: following the links from [p] visits [l] and ends at NULL. *)
Fixpoint chain (h : gmap Z thread_context) (p : Z) (l : list Z) : Prop :=
  match l with
  | [] => p = 0
  | t :: r => p = t ∧ t ≠ 0 ∧ ∃ c, h !! t = Some c ∧ chain h (tc_queue_link c) r
  end.

Definition queue_of (h : gmap Z thread_context) (q : thread_queue) (l : list Z) : Prop :=
  chain h (tq_first q) l ∧ NoDup l ∧ (∀ t, list.last l = Some t → tq_last q = t).

Lemma chain_first h p l : chain h p l → p = 0 ↔ l = [].
Proof. destruct l; cbn; naive_solver. Qed.

Lemma tc_chain_ext h h' p l :
  (∀ t, t ∈ l → tc_queue_link <$> h' !! t = tc_queue_link <$> h !! t) →
  chain h p l → chain h' p l.
Proof.
  revert p. induction l as [|t r IH]; intros p He; [done|]. intros (-> & Hn & c & Hc & Hr).
  pose proof (He t ltac:(left)) as Ht. rewrite Hc in Ht. cbn in Ht.
  destruct (h' !! t) as [c'|] eqn:Hc'; [|done]. cbn in Ht. injection Ht as Ht.
  split; [done|]. split; [done|]. exists c'. split; [done|]. rewrite Ht. apply IH; [|done].
  intros u Hu. apply He. by right.
Qed.

Lemma chain_in h p l t : chain h p l → t ∈ l → t ≠ 0 ∧ is_Some (h !! t).
Proof.
  revert p. induction l as [|u r IH]; intros p Hc Ht; [by apply elem_of_nil in Ht|].
  destruct Hc as (-> & Hn & c & Hc & Hr). apply elem_of_cons in Ht as [->|Ht]; [by rewrite Hc|].
  by eapply IH.
Qed.

(** Linking a new last element. *)
Lemma chain_snoc h p l last t c ct :
  chain h p (l ++ [last]) → NoDup (l ++ [last]) → t ∉ l ++ [last] → t ≠ 0 →
  h !! last = Some c → h !! t = Some ct → tc_queue_link ct = 0 →
  chain (<[last := set_link t c]> h) p (l ++ [last; t]).
Proof.
  revert p. induction l as [|u r IH]; intros p Hc Hd Ht Ht0 Hl Hct Hz.
  - cbn in *. destruct Hc as (-> & Hn & c' & Hc' & Hr). split; [done|]. split; [done|].
    exists (set_link t c). rewrite lookup_insert_eq. split; [done|]. split; [done|]. split; [done|].
    exists ct. rewrite lookup_insert_ne; [done|]. set_solver.
  - cbn in *. destruct Hc as (-> & Hn & c' & Hc' & Hr).
    apply list.NoDup_cons in Hd as [Hu Hd]. split; [done|]. split; [done|]. exists c'.
    rewrite lookup_insert_ne; [|set_solver]. split; [done|]. apply IH; try done. set_solver.
Qed.

Lemma queue_of_ext h h' q l :
  (∀ t, t ∈ l → tc_queue_link <$> h' !! t = tc_queue_link <$> h !! t) →
  queue_of h q l → queue_of h' q l.
Proof. intros He (Hc & Hd & Hl). split; [|done]. by eapply tc_chain_ext. Qed.

Lemma queue_of_empty h q : tq_first q = 0 → queue_of h q [].
Proof. intros Hq. split; [done|]. split; [constructor|done]. Qed.

(** [h'] is [h] up to the links of the threads in [L]. *)
Definition relinked (L : list Z) (h h' : gmap Z thread_context) : Prop :=
  ∀ t, (set_link 0 <$> h' !! t = set_link 0 <$> h !! t) ∧ (t ∉ L → h' !! t = h !! t).

Lemma relinked_refl L h : relinked L h h.
Proof. done. Qed.

Lemma relinked_trans L1 L2 h1 h2 h3 :
  relinked L1 h1 h2 → relinked L2 h2 h3 → relinked (L1 ++ L2) h1 h3.
Proof.
  intros H12 H23 t. destruct (H12 t) as [Ha Hb], (H23 t) as [Hc Hd]. split; [congruence|].
  intros Ht. rewrite not_elem_of_app in Ht. destruct Ht. by rewrite Hd, Hb.
Qed.

Lemma relinked_sub L L' h h' : relinked L h h' → L ⊆ L' → relinked L' h h'.
Proof. intros Hr Hs t. destruct (Hr t) as [? He]. split; [done|]. intros Ht. apply He. set_solver. Qed.

Lemma relinked_is_Some L h h' t : relinked L h h' → is_Some (h' !! t) ↔ is_Some (h !! t).
Proof.
  intros Hr. destruct (Hr t) as [He _]. rewrite <- (fmap_is_Some (set_link 0) (h' !! t)), He.
  apply fmap_is_Some.
Qed.

(** Equal up to links; a field [f] other than the link is then the same. *)
Definition upto_links (h h' : gmap Z thread_context) : Prop :=
  ∀ t, set_link 0 <$> h' !! t = set_link 0 <$> h !! t.

Lemma relinked_upto L h h' : relinked L h h' → upto_links h h'.
Proof. intros Hr t. apply Hr. Qed.

Lemma upto_field {A} (f : thread_context → A) h h' :
  upto_links h h' → (∀ c l, f (set_link l c) = f c) → ∀ t, f <$> h' !! t = f <$> h !! t.
Proof.
  intros Hr Hf t. specialize (Hr t).
  assert (∀ o : option thread_context, f <$> o = f <$> (set_link 0 <$> o)) as Ho.
  { intros [c|]; cbn; [by rewrite Hf|done]. }
  by rewrite Ho, Hr, <- Ho.
Qed.

Lemma queue_relinked L h h' q l :
  relinked L h h' → (∀ t, t ∈ L → t ∉ l) → queue_of h q l → queue_of h' q l.
Proof.
  intros Hr Hd. apply queue_of_ext. intros t Ht. destruct (Hr t) as [_ He].
  rewrite He; [done|]. intros Hl. by apply (Hd t).
Qed.

Lemma relinked_link L h t c x :
  h !! t = Some c → t ∈ L → relinked L h (<[t := set_link x c]> h).
Proof.
  intros Hc Ht u. destruct (decide (t = u)) as [<-|Hu].
  - rewrite lookup_insert_eq, Hc. done.
  - by rewrite lookup_insert_ne.
Qed.

Lemma tderef_ok p s Q E c : heap s !! p = Some c → Q c s → wpx (tderef p) s Q E.
Proof. intros Hc HQ. unfold tderef. wp_steps. by rewrite Hc. Qed.

Lemma tupd_ok p f s Q E c :
  heap s !! p = Some c → Q tt (set_heap (<[p := f c]> (heap s)) s) → wpx (tupd p f) s Q E.
Proof. intros Hc HQ. unfold tupd. wp_steps. eapply tderef_ok; [done|]. by wp_steps. Qed.

(** A new queue pointer and relinked contexts: all that push and pop change. *)
Definition requeue (q : qname) (h : gmap Z thread_context) (x : thread_queue) (s : tst) : tst :=
  set_tq q x (set_heap h s).

Lemma push_ok q t s l Q E :
  queue_of (heap s) (tq q s) l → t ∉ l → t ≠ 0 → is_Some (heap s !! t) →
  (∀ h x, queue_of h x (l ++ [t]) → relinked (l ++ [t]) (heap s) h → Q tt (requeue q h x s)) →
  wpx (threadq_push q t) s Q E.
Proof.
  intros (Hc & Hd & Hl) Ht Ht0 [c Hct] HQ. unfold threadq_push. wp_steps.
  eapply tupd_ok; [done|]. wp_steps.
  set (h1 := <[t := set_link 0 c]> (heap s)).
  replace (tq q (set_heap h1 s)) with (tq q s) by (by destruct q).
  assert (relinked [t] (heap s) h1) as Hr1 by (apply relinked_link; [done|set_solver]).
  destruct (tq_first (tq q s) =? 0) eqn:Hz; [apply Z.eqb_eq in Hz|apply Z.eqb_neq in Hz].
  - apply (chain_first _ _ _ Hc) in Hz as ->. wp_steps. apply (HQ h1 (mkTQ t t)); [|done].
    split; [|split; [apply NoDup_singleton|cbn; congruence]].
    cbn. split; [done|]. split; [done|]. exists (set_link 0 c). split; [apply lookup_insert_eq|done].
  - destruct l as [|u l' _] using rev_ind; [by apply chain_first in Hc as [_ Hc]; rewrite Hc in Hz|].
    rewrite (Hl u) by apply last_snoc.
    apply not_elem_of_app in Ht as Ht'. destruct Ht' as [Ht1 Ht2]. rewrite not_elem_of_cons in Ht2.
    destruct (chain_in _ _ _ u Hc) as [Hu0 [cu Hcu]]; [set_solver|].
    assert (h1 !! u = Some cu) as Hcu1 by (unfold h1; rewrite lookup_insert_ne; [done|naive_solver]).
    wp_steps. eapply tupd_ok; [done|]. wp_steps. set (h2 := <[u := set_link t cu]> h1).
    replace (set_tq q _ _) with (requeue q h2 (mkTQ (tq_first (tq q s)) t) s) by (by destruct q).
    apply HQ.
    + split; [|split].
      * cbn. rewrite <- app_assoc. assert (h1 !! t = Some (set_link 0 c)) as Ht1' by apply lookup_insert_eq.
        eapply chain_snoc; [|done|exact Ht|done|done|exact Ht1'|done].
        eapply tc_chain_ext; [|done]. intros v Hv. unfold h1. rewrite lookup_insert_ne; [done|].
        intros <-. by apply Ht.
      * apply list.NoDup_app. split; [done|]. split; [set_solver|apply NoDup_singleton].
      * intros v Hv. rewrite last_snoc in Hv. by injection Hv.
    + eapply relinked_sub; [eapply (relinked_trans [t] [u])|set_solver]; [done|].
      apply relinked_link; [done|set_solver].
Qed.

Lemma pop_ok q s l Q E :
  queue_of (heap s) (tq q s) l →
  match l with
  | [] => Q 0 s
  | t :: r => ∀ h x, t ≠ 0 → queue_of h x r → relinked [t] (heap s) h → Q t (requeue q h x s)
  end →
  wpx (threadq_pop q) s Q E.
Proof.
  intros (Hc & Hd & Hl) HQ. unfold threadq_pop. wp_steps. destruct l as [|t r].
  { cbn in Hc. rewrite Hc. cbn. by wp_steps. }
  destruct Hc as (Hf & Ht & c & Hct & Hr). rewrite Hf.
  destruct (t =? 0) eqn:Hz; [by apply Z.eqb_eq in Hz|]. wp_steps.
  eapply tderef_ok; [done|]. wp_steps. eapply tupd_ok.
  { destruct q; cbn; done. }
  wp_steps. apply list.NoDup_cons in Hd as [Htr Hd].
  set (h := <[t := set_link 0 c]> (heap s)).
  replace (set_heap _ _) with (requeue q h (mkTQ (tc_queue_link c) (tq_last (tq q s))) s) by (by destruct q).
  assert (relinked [t] (heap s) h) as Hrl by (apply relinked_link; [done|set_solver]).
  apply HQ; try done. split; [|split; [done|]].
  - cbn. eapply tc_chain_ext; [|done]. intros u Hu. unfold h. rewrite lookup_insert_ne; [done|].
    intros <-. by apply Htr.
  - intros u Hu. cbn. apply Hl. destruct r; [done|]. exact Hu.
Qed.

(** ** The invariant of the scheduler

    [l] is the run queue, [k] the kill queue.  Every live context is current, or in
    exactly one of the queues; thread ids are distinct. *)

Definition current (s : tst) : list Z := if cur_tc s =? 0 then [] else [cur_tc s].

Record threads_ok (s : tst) (l k : list Z) : Prop := {
  tok_run : queue_of (heap s) (run_queue s) l;
  tok_kill : queue_of (heap s) (kill_queue s) k;
  tok_one : (length k ≤ 1)%nat;
  tok_nodup : NoDup (l ++ k ++ current s);
  tok_all : ∀ t, is_Some (heap s !! t) ↔ t ∈ l ++ k ++ current s;
  tok_max : 0 ≤ max_tid s < 2 ^ 32 - 1;
  tok_tid : ∀ t c, heap s !! t = Some c → 0 ≤ tc_tid c < max_tid s;
  tok_tids : ∀ t t' c c', heap s !! t = Some c → heap s !! t' = Some c' →
    tc_tid c = tc_tid c' → t = t';
  tok_stack : ∀ x, x ∈ stacks s ↔ ∃ t c, heap s !! t = Some c ∧ tc_stack_bottom c = x;
  tok_stacks : ∀ t t' c c', heap s !! t = Some c → heap s !! t' = Some c' →
    tc_stack_bottom c = tc_stack_bottom c' → t = t';
  tok_onhalt : ∀ t c, heap s !! t = Some c → Z.of_nat (length (tc_onhalt c)) ≤ THREAD_NUM_ONHALT
}.

(** Equal up to links and saved contexts. *)
Definition core (c : thread_context) : Z * Z * list Z :=
  (tc_tid c, tc_stack_bottom c, tc_onhalt c).

Lemma core_facts (h h' : gmap Z thread_context) t c :
  (∀ t, core <$> h' !! t = core <$> h !! t) → h' !! t = Some c →
  ∃ c0, h !! t = Some c0 ∧ tc_tid c = tc_tid c0 ∧ tc_stack_bottom c = tc_stack_bottom c0 ∧
    tc_onhalt c = tc_onhalt c0.
Proof.
  intros He Hc. specialize (He t). rewrite Hc in He. destruct (h !! t) as [c0|]; [|done].
  injection He as ???. eauto.
Qed.

(** The invariant after a reordering: same contexts up to links and saved
    contexts, the members permuted. *)
Lemma threads_ok_move s s' l k l' k' :
  threads_ok s l k →
  queue_of (heap s') (run_queue s') l' → queue_of (heap s') (kill_queue s') k' →
  (length k' ≤ 1)%nat → l' ++ k' ++ current s' ≡ₚ l ++ k ++ current s →
  (∀ t, core <$> heap s' !! t = core <$> heap s !! t) →
  max_tid s' = max_tid s → stacks s' = stacks s → threads_ok s' l' k'.
Proof.
  intros [] Hl Hk H1 Hp Hc Hm Hs. split; try done.
  - by rewrite Hp.
  - intros t. rewrite Hp, <- tok_all0, <- (fmap_is_Some core), Hc. apply fmap_is_Some.
  - by rewrite Hm.
  - intros t c Ht. destruct (core_facts _ _ _ _ Hc Ht) as (c0 & H0 & -> & _ & _).
    rewrite Hm. by apply (tok_tid0 t).
  - intros t t' c c' Ht Ht'. destruct (core_facts _ _ _ _ Hc Ht) as (c0 & H0 & -> & _ & _).
    destruct (core_facts _ _ _ _ Hc Ht') as (c1 & H1' & -> & _ & _). by apply tok_tids0.
  - intros x. rewrite Hs, tok_stack0. split; intros (t & c & Ht & Hx).
    + destruct (core_facts (heap s') (heap s) t c) as (c0 & H0 & _ & He & _); [done..|].
      exists t, c0. by rewrite <- He.
    + destruct (core_facts _ _ _ _ Hc Ht) as (c0 & H0 & _ & He & _).
      exists t, c0. by rewrite <- He.
  - intros t t' c c' Ht Ht'. destruct (core_facts _ _ _ _ Hc Ht) as (c0 & H0 & _ & -> & _).
    destruct (core_facts _ _ _ _ Hc Ht') as (c1 & H1' & _ & -> & _). by apply tok_stacks0.
  - intros t c Ht. destruct (core_facts _ _ _ _ Hc Ht) as (c0 & H0 & _ & _ & ->). by eapply tok_onhalt0.
Qed.

(** ** thread_yield *)

(** The contexts once the running thread's registers are saved. *)
Definition saved (s : tst) : gmap Z thread_context :=
  if cur_tc s =? 0 then heap s else alter (set_jb (regs s)) (cur_tc s) (heap s).

Record yielded (s s' : tst) (t : Z) (l k : list Z) : Prop := {
  yd_ok : threads_ok s' (l ++ current s) k;
  yd_cur : cur_tc s' = t;
  yd_regs : Some (regs s') = tc_jb <$> heap s !! t;
  yd_heap : upto_links (saved s) (heap s');
  yd_halted : halted s' = halted s;
  yd_max : max_tid s' = max_tid s
}.

Lemma core_saved s t : core <$> saved s !! t = core <$> heap s !! t.
Proof.
  unfold saved. case_match; [done|]. destruct (decide (cur_tc s = t)) as [<-|Ht].
  - rewrite lookup_alter_eq. by destruct (heap s !! cur_tc s).
  - by rewrite lookup_alter_ne.
Qed.

Lemma current_in s l k : threads_ok s l k → cur_tc s ≠ 0 →
  cur_tc s ∉ l ∧ cur_tc s ∉ k ∧ is_Some (heap s !! cur_tc s).
Proof.
  intros Hok Hc. assert (current s = [cur_tc s]) as Hcur.
  { unfold current. by rewrite (proj2 (Z.eqb_neq _ _) Hc). }
  pose proof (tok_nodup _ _ _ Hok) as Hd. rewrite Hcur in Hd.
  apply list.NoDup_app in Hd as (_ & H1 & Hd). apply list.NoDup_app in Hd as (_ & H2 & _).
  split; [|split].
  - intros Hl. by apply (H1 _ Hl), elem_of_app; right; left.
  - intros Hk. apply (H2 _ Hk). by left.
  - apply (tok_all _ _ _ Hok). rewrite Hcur. set_solver.
Qed.

(** The end of thread_yield: [t] becomes current. *)
Lemma switch_ok s t r k h x Q E :
  threads_ok s (t :: r) k → queue_of h x (r ++ current s) → queue_of h (kill_queue s) k →
  upto_links (saved s) h →
  (∀ s', yielded s s' t r k → Q true s') →
  wpx (modify (set_cur t);; c ← tderef t; modify (set_regs (tc_jb c));; mret true)
    (requeue RunQ h x s) Q E.
Proof.
  intros Hok Hq Hk Hu HQ. wp_steps.
  destruct (chain_in _ _ _ t (proj1 (tok_run _ _ _ Hok)) ltac:(left)) as [Ht [c0 Hc0]].
  assert (tc_jb <$> h !! t = tc_jb <$> heap s !! t) as Hjb.
  { rewrite (upto_field tc_jb _ _ Hu) by done. unfold saved. case_match eqn:Hz; [done|].
    rewrite lookup_alter_ne; [done|]. apply Z.eqb_neq in Hz.
    destruct (current_in _ _ _ Hok Hz) as [Hn _]. intros <-. apply Hn. left. }
  rewrite Hc0 in Hjb. destruct (h !! t) as [c|] eqn:Hc; [|done].
  eapply tderef_ok; [exact Hc|]. wp_steps. apply HQ. split; try done.
  - eapply threads_ok_move; try done.
    + apply (tok_one _ _ _ Hok).
    + unfold current at 2. cbn [cur_tc set_regs set_cur requeue set_tq set_run set_heap].
      rewrite (proj2 (Z.eqb_neq _ _) Ht). rewrite <- app_assoc, (Permutation_app_comm k). solve_Permutation.
    + intros u. cbn [heap set_regs set_cur requeue set_tq set_run set_heap].
      rewrite (upto_field core _ _ Hu) by done. apply core_saved.
  - cbn. by rewrite Hc0, <- Hjb.
Qed.

Lemma yield_ok s l k Q E :
  threads_ok s l k →
  match l with
  | [] => Q false s
  | t :: r => ∀ s', yielded s s' t r k → Q true s'
  end →
  wpx thread_yield s Q E.
Proof.
  intros Hok HQ. unfold thread_yield. wp_steps. eapply pop_ok; [apply (tok_run _ _ _ Hok)|].
  destruct l as [|t r]; [by wp_steps|]. intros h x Ht Hq Hr.
  destruct (t =? 0) eqn:Hz; [by apply Z.eqb_eq in Hz|]. wp_steps.
  change (cur_tc (requeue RunQ h x s)) with (cur_tc s).
  pose proof (tok_nodup _ _ _ Hok) as Hd.
  assert (t ∉ k) as Htk. { apply list.NoDup_cons in Hd as [Hd _]. set_solver. }
  pose proof (queue_relinked _ _ _ _ k Hr ltac:(set_solver) (tok_kill _ _ _ Hok)) as Hk.
  destruct (cur_tc s =? 0) eqn:Hc; cbn [negb when]; [wp_step|apply Z.eqb_neq in Hc].
  - eapply switch_ok; try done.
    + unfold current. by rewrite Hc, app_nil_r.
    + unfold saved. rewrite Hc. by eapply relinked_upto.
  - wp_steps. change (regs (requeue RunQ h x s)) with (regs s).
    destruct (current_in _ _ _ Hok Hc) as (Hcl & Hck & c & Hcc).
    destruct (Hr (cur_tc s)) as [_ Hcr]. rewrite Hcc in Hcr.
    assert (h !! cur_tc s = Some c) as Hch by (apply Hcr; set_solver).
    eapply tupd_ok; [exact Hch|]. set (h1 := <[cur_tc s := set_jb (regs s) c]> h).
    assert (∀ q l', queue_of h q l' → queue_of h1 q l') as Hq1.
    { intros q l'. apply queue_of_ext. intros u _. unfold h1. rewrite lookup_insert.
      case_decide as Hu; [|done]. subst u. by rewrite Hch. }
    eapply push_ok; [apply Hq1; exact Hq|set_solver|done|cbn; unfold h1; by rewrite lookup_insert_eq|].
    intros h2 x2 Hq2 Hr2. change (requeue RunQ h2 x2 _) with (requeue RunQ h2 x2 s).
    eapply switch_ok; try done.
    + unfold current. rewrite (proj2 (Z.eqb_neq _ _) Hc). done.
    + eapply queue_relinked; [exact Hr2| |by apply Hq1].
      intros u Hu Huk. apply elem_of_app in Hu as [Hu|Hu]; [|set_solver].
      apply list.NoDup_cons in Hd as [_ Hd]. apply list.NoDup_app in Hd as (_ & Hd & _).
      apply (Hd u Hu). set_solver.
    + intros u. destruct (Hr2 u) as [-> _]. cbn [heap requeue set_tq set_run set_heap].
      unfold h1, saved. rewrite (proj2 (Z.eqb_neq _ _) Hc), lookup_insert. case_decide as Hu.
      * subst u. by rewrite lookup_alter_eq, Hcc.
      * rewrite lookup_alter_ne by done. apply Hr.
Qed.

(** ** Rounds

    [body t r] is what thread [t] makes of its registers between two yields. *)

(** The context in which [t] goes on. *)
Definition ctx_of (s : tst) (t : Z) : option Ctx :=
  if cur_tc s =? t then Some (regs s) else tc_jb <$> heap s !! t.

Section rounds.
Context (body : Z → Ctx → Ctx).

Definition slice : T bool :=
  modify (λ s, set_regs (body (cur_tc s) (regs s)) s);; thread_yield.

(** [n] slices, and who ran. *)
Fixpoint slices (n : nat) : T (list Z) :=
  match n with
  | O => mret []
  | S n' => c ← gets cur_tc; slice;; r ← slices n'; mret (c :: r)
  end.

Definition ring (s : tst) (k : list Z) (ts : list Z) : Prop :=
  match ts with [] => False | c :: l => cur_tc s = c ∧ c ≠ 0 ∧ threads_ok s l k end.

Lemma threads_ok_regs s l k r : threads_ok s l k → threads_ok (set_regs r s) l k.
Proof. intros Hok. by eapply threads_ok_move; try apply Hok. Qed.

Lemma slice_ok s k c l Q E :
  ring s k (c :: l) →
  (∀ x s', ring s' k (l ++ [c]) → max_tid s' = max_tid s → halted s' = halted s →
     (∀ t, ctx_of s' t = (if t =? c then body c else id) <$> ctx_of s t) → Q x s') →
  wpx slice s Q E.
Proof.
  intros (Hcur & Hc & Hok) HQ. unfold slice. wp_steps. rewrite Hcur.
  apply (threads_ok_regs _ _ _ (body c (regs s))) in Hok.
  set (s1 := set_regs (body c (regs s)) s) in *.
  assert (cur_tc s1 = c) as Hcur1 by done.
  assert (∀ t, ctx_of s1 t = (if t =? c then body c else id) <$> ctx_of s t) as Hs1.
  { intros t. unfold ctx_of. rewrite Hcur1, Hcur, Z.eqb_sym. case_match; [done|]. by rewrite option_fmap_id. }
  eapply yield_ok; [exact Hok|]. destruct l as [|t r].
  { apply HQ; done. }
  intros s' [Hok' Hcur' Hregs Hheap Hh Hm]. apply HQ; try done.
  - cbn. split; [done|]. split.
    + by apply (chain_in _ _ _ t (proj1 (tok_run _ _ _ Hok))); left.
    + unfold current in Hok'. rewrite Hcur1, (proj2 (Z.eqb_neq _ _) Hc) in Hok'. done.
  - intros u. rewrite <- Hs1. unfold ctx_of. rewrite Hcur', Hcur1.
    assert (t ≠ c) as Htc.
    { destruct (current_in _ _ _ Hok) as [Hn _]; [by rewrite Hcur1|]. rewrite Hcur1 in Hn.
      intros ->. apply Hn. left. }
    pose proof (upto_field tc_jb _ _ Hheap ltac:(done) u) as Hu.
    unfold saved in Hu. rewrite Hcur1, (proj2 (Z.eqb_neq _ _) Hc) in Hu.
    destruct (t =? u) eqn:Htu.
    + apply Z.eqb_eq in Htu as <-. rewrite Hregs. rewrite (proj2 (Z.eqb_neq c t)) by done. done.
    + rewrite Hu. destruct (c =? u) eqn:Hcu.
      * apply Z.eqb_eq in Hcu as <-. rewrite lookup_alter_eq.
        destruct (current_in _ _ _ Hok) as (_ & _ & cc & Hcc); [by rewrite Hcur1|].
        rewrite Hcur1 in Hcc. by rewrite Hcc.
      * apply Z.eqb_neq in Hcu. by rewrite lookup_alter_ne.
Qed.

Lemma slices_ok a b s k Q E :
  NoDup (a ++ b) → ring s k (a ++ b) →
  (∀ s', ring s' k (b ++ a) → max_tid s' = max_tid s → halted s' = halted s →
     (∀ t, ctx_of s' t = (if decide (t ∈ a) then body t else id) <$> ctx_of s t) → Q a s') →
  wpx (slices (length a)) s Q E.
Proof.
  revert b s Q. induction a as [|c a IH]; intros b s Q Hd Hr HQ.
  - cbn [slices length]. wp_step. apply HQ; [by rewrite app_nil_r|done|done|].
    intros t. rewrite decide_False by set_solver. by rewrite option_fmap_id.
  - cbn [slices length]. wp_steps. rewrite (proj1 Hr). eapply slice_ok; [exact Hr|].
    intros _ s1 Hr1 Hm1 Hh1 Hc1. wp_step. rewrite <- app_assoc in Hr1.
    cbn in Hd. apply list.NoDup_cons in Hd as [Hn Hd].
    eapply (IH (b ++ [c])); [|exact Hr1|].
    + rewrite app_assoc. apply list.NoDup_app. split; [done|]. split; [set_solver|apply NoDup_singleton].
    + intros s2 Hr2 Hm2 Hh2 Hc2. wp_steps. apply HQ; [by rewrite <- app_assoc in Hr2|congruence|congruence|].
      intros t. rewrite Hc2, Hc1. destruct (t =? c) eqn:Htc.
      * apply Z.eqb_eq in Htc as ->. rewrite decide_False by set_solver.
        rewrite decide_True by left. by rewrite option_fmap_id.
      * apply Z.eqb_neq in Htc. rewrite option_fmap_id.
        destruct (decide (t ∈ a)); [rewrite decide_True by set_solver|rewrite decide_False by set_solver]; done.
Qed.

(** Yielding is round-robin: one slice for each runnable thread runs each of
    them once, in the order of the run queue, in the context it had left, and
    gives the processor back to the first with the queue as it was. *)
Theorem yield_round_robin s k c l :
  threads_ok s l k → cur_tc s = c → c ≠ 0 →
  wp (slices (S (length l))) s (λ ran s', ran = c :: l ∧
    threads_ok s' l k ∧ cur_tc s' = c ∧
    ∀ t, t ∈ c :: l → ctx_of s' t = body t <$> ctx_of s t).
Proof.
  intros Hok Hcur Hc. assert (ring s k ((c :: l) ++ [])) as Hr by (rewrite app_nil_r; done).
  eapply (slices_ok (c :: l) []); [|exact Hr|].
  - rewrite app_nil_r. apply list.NoDup_cons. subst c. split.
    + by apply (current_in _ _ _ Hok).
    + by apply (tok_run _ _ _ Hok).
  - intros s' (Hc' & _ & Hok') _ _ Hctx. split; [done|]. split; [done|]. split; [done|].
    intros t Ht. rewrite Hctx. by rewrite decide_True.
Qed.
End rounds.

(** ** thread_wakeup *)

Definition mark (f : thread_context → thread_context) (l : list Z)
    (h : gmap Z thread_context) : gmap Z thread_context :=
  fold_left (λ h t, alter f t h) l h.

Lemma mark_lookup f l h t : NoDup l →
  mark f l h !! t = (if decide (t ∈ l) then f else id) <$> h !! t.
Proof.
  unfold mark. revert h. induction l as [|u l IH]; intros h Hd; cbn [fold_left].
  - rewrite decide_False by set_solver. by rewrite option_fmap_id.
  - apply list.NoDup_cons in Hd as [Hu Hd]. rewrite IH by done.
    destruct (decide (t = u)) as [->|Ht].
    + rewrite decide_False, (decide_True (P := u ∈ u :: l)) by (done || left).
      by rewrite option_fmap_id, lookup_alter_eq.
    + rewrite lookup_alter_ne by done.
      destruct (decide (t ∈ l)); [rewrite decide_True by set_solver|rewrite decide_False by set_solver]; done.
Qed.

Lemma chain_length h p l : chain h p l → NoDup l → (length l < S (size h))%nat.
Proof.
  intros Hc Hd. rewrite <- size_dom.
  assert (size (list_to_set l : gset Z) = length l) as <-.
  { by rewrite size_list_to_set. }
  apply Nat.lt_succ_r, subseteq_size. intros t Ht. apply elem_of_list_to_set in Ht.
  apply elem_of_dom. by apply (chain_in h p l).
Qed.

(** A loop over a queue whose body changes only the context it is at, and not
    its link. *)
Lemma walk_ok f body fuel p l s Q E :
  chain (heap s) p l → NoDup l → (length l < fuel)%nat →
  (∀ c, tc_queue_link (f c) = tc_queue_link c) →
  (∀ t h Q', is_Some (h !! t) → Q' tt (set_heap (alter f t h) s) → wpx (body t) (set_heap h s) Q' E) →
  Q tt (set_heap (mark f l (heap s)) s) →
  wpx (walk fuel p body) s Q E.
Proof.
  intros Hc Hd Hf Hlink Hb HQ.
  enough (∀ h, chain h p l → Q tt (set_heap (mark f l h) s) → wpx (walk fuel p body) (set_heap h s) Q E) as Hg.
  { specialize (Hg (heap s)). replace (set_heap (heap s) s) with s in Hg by (by destruct s). by apply Hg. }
  clear Hc HQ. revert p l Hd Hf. induction fuel as [|fuel IH]; intros p l Hd Hf h Hc HQ; [lia|].
  cbn [walk]. destruct l as [|t r].
  { cbn in Hc. rewrite Hc. cbn. by wp_steps. }
  destruct Hc as (-> & Ht & c & Hct & Hr). rewrite (proj2 (Z.eqb_neq _ _) Ht). wp_steps.
  apply list.NoDup_cons in Hd as [Htr Hd]. apply Hb; [by rewrite Hct|]. wp_steps.
  eapply tderef_ok; [cbn; rewrite lookup_alter_eq, Hct; reflexivity|]. rewrite Hlink.
  apply (IH _ r); [done|cbn in Hf; lia| |done]. eapply tc_chain_ext; [|exact Hr].
  intros u Hu. rewrite lookup_alter_ne; [done|]. by intros ->.
Qed.

Definition wake (addr : Z) (c : thread_context) : thread_context :=
  if tc_wait_addr c =? addr then set_wait (tc_wait_addr c) true c else c.

Lemma wakeup_ok addr s l k Q E :
  threads_ok s l k →
  Q tt (set_heap (mark (wake addr) l (heap s)) s) → wpx (thread_wakeup addr) s Q E.
Proof.
  intros Hok HQ. pose proof (tok_run _ _ _ Hok) as (Hc & Hd & _).
  unfold thread_wakeup. wp_steps. eapply walk_ok; [exact Hc|exact Hd|by apply (chain_length _ _ _ Hc)| | |exact HQ].
  { intros c. unfold wake. by case_match. }
  intros t h Q' [c Hct] HQ'. wp_steps. eapply tderef_ok; [done|].
  assert (alter (wake addr) t h = <[t := wake addr c]> h) as Ha.
  { apply map_eq. intros u. destruct (decide (t = u)) as [<-|Hu].
    - by rewrite lookup_alter_eq, lookup_insert_eq, Hct.
    - by rewrite lookup_alter_ne, lookup_insert_ne. }
  rewrite Ha in HQ'. clear Ha. unfold wake in HQ'.
  destruct (tc_wait_addr c =? addr); cbn [when].
  - eapply tupd_ok; [done|exact HQ'].
  - wp_steps. by rewrite insert_id in HQ'.
Qed.

(** A change of one context that its link, id, stack and onhalt list survive. *)
Lemma threads_ok_heap s l k h :
  threads_ok s l k →
  (∀ t, tc_queue_link <$> h !! t = tc_queue_link <$> heap s !! t) →
  (∀ t, core <$> h !! t = core <$> heap s !! t) → threads_ok (set_heap h s) l k.
Proof.
  intros Hok Hl Hc. eapply threads_ok_move; [exact Hok|..]; try done.
  - eapply queue_of_ext; [|apply Hok]. intros; apply Hl.
  - eapply queue_of_ext; [|apply Hok]. intros; apply Hl.
  - apply Hok.
Qed.

Lemma threads_ok_wake addr s l k :
  threads_ok s l k → threads_ok (set_heap (mark (wake addr) l (heap s)) s) l k.
Proof.
  intros Hok. assert (NoDup l) as Hd by apply (tok_run _ _ _ Hok).
  apply threads_ok_heap; [done|..]; intros t; rewrite mark_lookup by done; case_decide;
    destruct (heap s !! t); cbn; unfold wake; by repeat case_match.
Qed.

(** ** thread_halt *)

Definition calls_of (c : thread_context) : list (Z * Z) := (λ fn, (fn, tc_tid c)) <$> tc_onhalt c.

Lemma clean_ok t c s Q E :
  t ≠ 0 → heap s !! t = Some c →
  Q tt (mkTst (delete t (heap s)) (stacks s ∖ {[tc_stack_bottom c]}) (run_queue s) (kill_queue s)
          (cur_tc s) (max_tid s) (regs s) (halted s ++ calls_of c)) →
  wpx (thread_clean t) s Q E.
Proof.
  intros Ht Hc HQ. unfold thread_clean. rewrite (proj2 (Z.eqb_neq _ _) Ht). wp_steps.
  eapply tderef_ok; [done|]. wp_steps.
  apply wpx_for_range with (I := λ i s', s' = mkTst (heap s) (stacks s) (run_queue s) (kill_queue s)
    (cur_tc s) (max_tid s) (regs s) (halted s ++ take (Z.to_nat i) (calls_of c))); [lia| | |].
  - cbn. rewrite app_nil_r. by destruct s.
  - intros i s' Hi ->. wp_steps. unfold add_halted. cbn. f_equal. rewrite <- app_assoc. f_equal.
    replace (Z.to_nat (i + 1)) with (S (Z.to_nat i)) by lia.
    symmetry. apply take_S_r. unfold calls_of. rewrite list_lookup_fmap.
    destruct (lookup_lt_is_Some_2 (tc_onhalt c) (Z.to_nat i)) as [x Hx]; [lia|].
    rewrite Hx. cbn. do 2 f_equal. symmetry. by apply nth_lookup_Some.
  - intros s' ->. wp_steps. cbn. rewrite Nat2Z.id, take_ge; [exact HQ|].
    unfold calls_of. by rewrite length_fmap.
Qed.

(** What remains once the thread that halted before is freed. *)
Record reaped (s s' : tst) (l k : list Z) : Prop := {
  rp_ok : threads_ok s' l [];
  rp_cur : cur_tc s' = cur_tc s;
  rp_regs : regs s' = regs s;
  rp_max : max_tid s' = max_tid s;
  rp_run : run_queue s' = run_queue s;
  rp_heap : ∀ t, t ∉ k → heap s' !! t = heap s !! t;
  rp_halted : halted s' = halted s ++ mjoin ((λ t, from_option calls_of [] (heap s !! t)) <$> k)
}.

Lemma threads_ok_free s l t c h x :
  threads_ok s l [t] → heap s !! t = Some c → queue_of h x [] → relinked [t] (heap s) h →
  threads_ok (mkTst (delete t h) (stacks s ∖ {[tc_stack_bottom c]}) (run_queue s) x
    (cur_tc s) (max_tid s) (regs s) (halted s ++ calls_of c)) l [].
Proof.
  intros [] Hc Hq Hr.
  assert (∀ u, delete t h !! u = if decide (t = u) then None else heap s !! u) as Hl.
  { intros u. rewrite lookup_delete. case_decide as Hu; [done|].
    apply (Hr u). rewrite list_elem_of_singleton. by intros ->. }
  assert (∀ u cu, delete t h !! u = Some cu → t ≠ u ∧ heap s !! u = Some cu) as Hl'.
  { intros u cu. rewrite Hl. by case_decide. }
  assert (t ∉ l ∧ t ∉ current s ∧ NoDup (l ++ current s)) as (Htl & Htc & Hd).
  { apply list.NoDup_app in tok_nodup0 as (H1 & H2 & H3). cbn in H3.
    apply list.NoDup_cons in H3 as [H3 H4]. split; [|split].
    - intros Hl1. apply (H2 t Hl1). left.
    - done.
    - apply list.NoDup_app. split; [done|]. split; [|done]. intros u Hu1 Hu2. apply (H2 u Hu1). by right. }
  split; cbn [heap run_queue kill_queue max_tid stacks]; try done.
  - eapply queue_of_ext; [|exact tok_run0]. intros u Hu. rewrite Hl, decide_False; [done|]. by intros ->.
  - cbn; lia.
  - intros u. rewrite Hl. cbn. case_decide as Hu.
    + subst u. split; [by intros []|]. change (current _) with (current s). set_solver.
    + rewrite tok_all0. change (current (mkTst _ _ _ _ _ _ _ _)) with (current s). set_solver.
  - intros u cu [_ Hu]%Hl'. by eapply tok_tid0.
  - intros u u' cu cu' [_ Hu]%Hl' [_ Hu']%Hl'. by apply tok_tids0.
  - intros y. rewrite elem_of_difference, tok_stack0, elem_of_singleton. split.
    + intros [(u & cu & Hu & <-) Hne]. exists u, cu. split; [|done]. rewrite Hl, decide_False; [done|].
      intros <-. rewrite Hc in Hu. by injection Hu as ->.
    + intros (u & cu & [Hne Hu]%Hl' & <-). split; [eauto|]. intros He. by apply Hne, (tok_stacks0 t u c cu).
  - intros u u' cu cu' [_ Hu]%Hl' [_ Hu']%Hl'. by apply tok_stacks0.
  - intros u cu [_ Hu]%Hl'. by eapply tok_onhalt0.
Qed.

Lemma reap_ok s l k (K : T unit) Q E :
  threads_ok s l k → (∀ s', reaped s s' l k → wpx K s' Q E) →
  wpx (t ← threadq_pop KillQ; thread_clean t;; K) s Q E.
Proof.
  intros Hok HK. wp_step. eapply pop_ok; [apply (tok_kill _ _ _ Hok)|].
  destruct k as [|t [|? k]]; [| |by pose proof (tok_one _ _ _ Hok) as H1; cbn in H1; lia].
  - wp_steps. unfold thread_clean. cbn. apply HK. split; try done. cbn. by rewrite app_nil_r.
  - intros h x Ht Hq Hr. wp_step.
    destruct (chain_in _ _ _ t (proj1 (tok_kill _ _ _ Hok)) ltac:(left)) as [_ [c Hc]].
    destruct (h !! t) as [c'|] eqn:Hc'.
    2: { apply (relinked_is_Some _ _ _ t) in Hr. rewrite Hc, Hc' in Hr. by destruct Hr as [_ []]. }
    assert (tc_stack_bottom c' = tc_stack_bottom c ∧ calls_of c' = calls_of c) as [Hsb Hcalls].
    { pose proof (upto_field core _ _ (relinked_upto _ _ _ Hr) ltac:(done) t) as He.
      rewrite Hc, Hc' in He. injection He as H1 H2 H3. unfold calls_of. by rewrite H1, H2, H3. }
    eapply clean_ok; [done|exact Hc'|]. cbn [heap stacks run_queue kill_queue cur_tc max_tid regs halted
      requeue set_tq set_kill set_heap]. apply HK. rewrite Hsb, Hcalls. split; try done.
    + by apply threads_ok_free.
    + intros u Hu. cbn. rewrite lookup_delete_ne by set_solver. by apply Hr.
    + cbn. rewrite Hc. cbn. by rewrite app_nil_r.
Qed.

(** The state of the scheduler after thread_halt: the halted thread waits to be
    freed, the one that waited is gone, and [r] runs. *)
Record halted_to (s s' : tst) (t : Z) (l k : list Z) : Prop := {
  ht_ok : threads_ok s' l [cur_tc s];
  ht_cur : cur_tc s' = t;
  ht_max : max_tid s' = max_tid s;
  ht_halted : halted s' = halted s ++ mjoin ((λ t, from_option calls_of [] (heap s !! t)) <$> k);
  ht_heap : ∀ u, u ∉ k → set_link 0 <$> heap s' !! u = set_link 0 <$> heap s !! u
}.

Lemma park_ok s l h x :
  threads_ok s l [] → cur_tc s ≠ 0 → queue_of h x [cur_tc s] → relinked [cur_tc s] (heap s) h →
  threads_ok (set_cur 0 (requeue KillQ h x s)) l [cur_tc s].
Proof.
  intros Hok Hc Hq Hr. destruct (current_in _ _ _ Hok Hc) as (Hcl & _ & _).
  eapply threads_ok_move; [exact Hok|..]; try done.
  - eapply queue_relinked; [exact Hr| |apply (tok_run _ _ _ Hok)]. set_solver.
  - unfold current. cbn [cur_tc set_cur requeue set_tq set_kill set_heap].
    rewrite (proj2 (Z.eqb_neq _ _) Hc). done.
  - intros u. by apply (upto_field core _ _ (relinked_upto _ _ _ Hr)).
Qed.

Lemma halt_ok s l k Q E :
  threads_ok s l k → cur_tc s ≠ 0 →
  (∀ s', match l with
         | [] => halted_to s s' 0 [] k → E Exited s'
         | t :: r => halted_to s s' t r k → Some (regs s') = tc_jb <$> heap s !! t → Q tt s'
         end) →
  wpx thread_halt s Q E.
Proof.
  intros Hok Hc HQ. unfold thread_halt. eapply reap_ok; [done|].
  intros s1 [Hok1 Hcur1 Hregs1 Hmax1 Hrun1 Hheap1 Hhalt1]. wp_steps.
  destruct (current_in s1 l []) as (_ & _ & Hin); [done|by rewrite Hcur1|].
  eapply push_ok; [apply (tok_kill _ _ _ Hok1)|set_solver|by rewrite Hcur1|done|].
  intros h x Hq Hr. cbn [app] in Hq, Hr. wp_steps. rewrite Hcur1 in Hq, Hr.
  assert (threads_ok (set_cur 0 (requeue KillQ h x s1)) l [cur_tc s]) as Hok2.
  { rewrite <- Hcur1. apply park_ok; by rewrite ?Hcur1. }
  eapply yield_ok; [exact Hok2|]. destruct l as [|t r].
  - wp_steps. apply HQ. split; try done. intros u Hu. rewrite <- Hheap1 by done. apply Hr.
  - intros s' [Hok' Hcur' Hregs' Hheap' Hhalt' Hmax']. wp_steps. apply HQ.
    + split; [|done|by rewrite Hmax'|by rewrite Hhalt'|].
      2: { intros u Hu. rewrite (Hheap' u), <- Hheap1 by done. apply Hr. }
      unfold current in Hok'. cbn in Hok'. by rewrite app_nil_r in Hok'.
    + rewrite Hregs'. cbn [heap set_cur requeue set_tq set_kill set_heap].
      rewrite (upto_field tc_jb _ _ (relinked_upto _ _ _ Hr)) by done.
      rewrite Hheap1; [done|]. intros Htk.
      pose proof (tok_nodup _ _ _ Hok) as Hd. cbn in Hd. apply list.NoDup_cons in Hd as [Hd _]. set_solver.
Qed.

(** ** thread_create, thread_onhalt *)

Context (fresh_jb : Z → Ctx).

Lemma alloc_tid_ok s Q E :
  0 ≤ max_tid s → max_tid s + 1 < 2 ^ 32 - 1 →
  Q (max_tid s) (set_max_tid (max_tid s + 1) s) → wpx alloc_tid s Q E.
Proof.
  intros H0 H1 HQ. unfold alloc_tid. wp_steps. cbn [max_tid set_max_tid].
  pow2. rewrite u32_id by lia. change (u32 (-1)) with 4294967295.
  rewrite (proj2 (Z.eqb_neq _ _)) by lia. by wp_steps.
Qed.

Definition new_tc (s : tst) (name : list Z) (entry arg mstack : Z) : thread_context :=
  mkTC (max_tid s) mstack (thread_set_name name) entry (u32 arg)
    (fresh_jb (mstack + stack_size - 8)) 0 false [] 0.

Lemma threads_ok_new s l k t c n h x :
  threads_ok s l k → heap s !! t = None → t ≠ 0 → tc_stack_bottom c ∉ stacks s →
  tc_tid c = max_tid s → tc_onhalt c = [] → n = max_tid s + 1 → n < 2 ^ 32 - 1 →
  queue_of h x (l ++ [t]) → relinked (l ++ [t]) (<[t := c]> (heap s)) h →
  threads_ok (mkTst h ({[tc_stack_bottom c]} ∪ stacks s) x (kill_queue s) (cur_tc s) n (regs s)
    (halted s)) (l ++ [t]) k.
Proof.
  intros [] Ht Ht0 Hst Htid Hon -> Hn Hq Hr.
  assert (t ∉ l ++ k ++ current s) as Hnew.
  { rewrite <- tok_all0, Ht. by intros []. }
  assert (∀ u cu, h !! u = Some cu →
    (u = t ∧ core cu = core c) ∨ (∃ c0, heap s !! u = Some c0 ∧ core cu = core c0)) as Hl.
  { intros u cu Hu. pose proof (upto_field core _ _ (relinked_upto _ _ _ Hr) ltac:(done) u) as He.
    rewrite Hu, lookup_insert in He. case_decide; [left|right].
    - injection He as ???. unfold core. split; congruence.
    - destruct (heap s !! u) as [c0|]; [|done]. injection He as ???. exists c0. unfold core.
      split; congruence. }
  assert (∀ cu c0, core cu = core c0 → tc_tid cu = tc_tid c0 ∧ tc_stack_bottom cu = tc_stack_bottom c0
    ∧ tc_onhalt cu = tc_onhalt c0) as Hcore.
  { intros cu c0 He. injection He as ???. done. }
  assert (∀ u cu, heap s !! u = Some cu → ∃ c1, h !! u = Some c1 ∧ core c1 = core cu) as Hback.
  { intros u cu Hu. pose proof (upto_field core _ _ (relinked_upto _ _ _ Hr) ltac:(done) u) as He.
    assert (t ≠ u) by congruence. rewrite lookup_insert_ne, Hu in He by done.
    destruct (h !! u) as [c1|]; [|done]. exists c1. split; [done|]. by injection He as ???; unfold core; congruence. }
  assert (h !! t <> None) as Hh.
  { assert (is_Some (h !! t)) as [? ->]; [|done].
    apply (relinked_is_Some _ _ _ t Hr). by rewrite lookup_insert_eq. }
  destruct (h !! t) as [ct|] eqn:Hct; [clear Hh|done].
  assert (core ct = core c) as Hcc.
  { destruct (Hl t ct Hct) as [[_ ?]|(c0 & Hc0 & _)]; [done|congruence]. }
  split; cbn [heap run_queue kill_queue max_tid stacks]; try done.
  - eapply queue_relinked; [exact Hr| |].
    + intros u Hu Huk. apply elem_of_app in Hu as [Hu|Hu%list_elem_of_singleton].
      * apply list.NoDup_app in tok_nodup0 as (_ & Hd & _). apply (Hd u Hu), elem_of_app. by left.
      * subst u. apply Hnew, elem_of_app. right. apply elem_of_app. by left.
    + eapply queue_of_ext; [|exact tok_kill0]. intros u Hu. rewrite lookup_insert_ne; [done|].
      intros <-. apply Hnew, elem_of_app. right. apply elem_of_app. by left.
  - change (current (mkTst _ _ _ _ _ _ _ _)) with (current s).
    assert ((l ++ [t]) ++ k ++ current s ≡ₚ t :: l ++ k ++ current s) as ->.
    { rewrite <- app_assoc. symmetry. apply Permutation_middle. }
    by apply list.NoDup_cons.
  - intros u. change (current (mkTst _ _ _ _ _ _ _ _)) with (current s).
    rewrite (relinked_is_Some _ _ _ u Hr), lookup_insert_is_Some, tok_all0, !elem_of_app,
      list_elem_of_singleton. clear. destruct (decide (t = u)); naive_solver.
  - lia.
  - intros u cu Hu. destruct (Hl u cu Hu) as [[-> He]|(c0 & H0 & He)];
      destruct (Hcore _ _ He) as (-> & _ & _); [lia|]. specialize (tok_tid0 _ _ H0). lia.
  - intros u u' cu cu' Hu Hu' He.
    destruct (Hl u cu Hu) as [[-> H1]|(c0 & H0 & H1)], (Hl u' cu' Hu') as [[-> H2]|(c0' & H0' & H2)];
      destruct (Hcore _ _ H1) as (Hi1 & _ & _), (Hcore _ _ H2) as (Hi2 & _ & _); [done|..].
    + specialize (tok_tid0 _ _ H0'). lia.
    + specialize (tok_tid0 _ _ H0). lia.
    + apply (tok_tids0 u u' c0 c0'); [done..|congruence].
  - intros y. rewrite elem_of_union, elem_of_singleton, tok_stack0. split.
    + intros [->|(u & cu & Hu & <-)].
      * exists t, ct. split; [done|]. by apply Hcore.
      * destruct (Hback u cu Hu) as (c1 & H1 & He). exists u, c1. split; [done|]. by apply Hcore.
    + intros (u & cu & Hu & <-). destruct (Hl u cu Hu) as [[-> He]|(c0 & H0 & He)].
      * left. by apply Hcore.
      * right. exists u, c0. split; [done|]. symmetry. by apply Hcore.
  - intros u u' cu cu' Hu Hu' He.
    destruct (Hl u cu Hu) as [[-> H1]|(c0 & H0 & H1)], (Hl u' cu' Hu') as [[-> H2]|(c0' & H0' & H2)];
      destruct (Hcore _ _ H1) as (_ & Hi1 & _), (Hcore _ _ H2) as (_ & Hi2 & _); [done|..].
    + destruct Hst. apply tok_stack0. exists u', c0'. split; [done|congruence].
    + destruct Hst. apply tok_stack0. exists u, c0. split; [done|congruence].
    + apply (tok_stacks0 u u' c0 c0'); [done..|congruence].
  - intros u cu Hu. destruct (Hl u cu Hu) as [[-> He]|(c0 & H0 & He)];
      destruct (Hcore _ _ He) as (_ & _ & ->); [by rewrite Hon|by eapply tok_onhalt0].
Qed.

Lemma create_ok name entry arg mtc mstack s l k Q E :
  threads_ok s l k → heap s !! mtc = None → mstack ∉ stacks s → max_tid s + 1 < 2 ^ 32 - 1 →
  (mtc = 0 → Q (None, - E_NO_MEM) s) →
  (mtc ≠ 0 → mstack = 0 → Q (None, - E_NO_MEM) (set_max_tid (max_tid s + 1) s)) →
  (∀ s', mtc ≠ 0 → mstack ≠ 0 → threads_ok s' (l ++ [mtc]) k → cur_tc s' = cur_tc s →
     regs s' = regs s → max_tid s' = max_tid s + 1 → halted s' = halted s →
     upto_links (<[mtc := new_tc s name entry arg mstack]> (heap s)) (heap s') →
     Q (Some (max_tid s), 0) s') →
  wpx (thread_create fresh_jb name entry arg mtc mstack) s Q E.
Proof.
  intros Hok Hm Hs Hn H1 H2 H3. unfold thread_create.
  destruct (mtc =? 0) eqn:Hz; [apply Z.eqb_eq in Hz; wp_steps; auto|apply Z.eqb_neq in Hz].
  wp_steps. apply alloc_tid_ok; [apply (tok_max _ _ _ Hok)|done|].
  destruct (mstack =? 0) eqn:Hz'; [apply Z.eqb_eq in Hz'; wp_steps; auto|apply Z.eqb_neq in Hz'].
  wp_steps. set (c := new_tc s name entry arg mstack).
  assert (mtc ∉ l) as Hml.
  { intros Hl. destruct (chain_in _ _ _ mtc (proj1 (tok_run _ _ _ Hok)) Hl) as [_ [? He]]. congruence. }
  eapply (push_ok _ _ _ l); [|done|done|cbn; by rewrite lookup_insert_eq|].
  - eapply queue_of_ext; [|apply (tok_run _ _ _ Hok)]. intros u Hu. cbn.
    rewrite lookup_insert_ne; [done|]. by intros ->.
  - intros h x Hq Hr. wp_steps. apply H3; try done.
    + by apply (threads_ok_new s l k mtc c).
    + by eapply relinked_upto.
Qed.

Lemma threads_ok_onhalt s l k t c f :
  threads_ok s l k → heap s !! t = Some c → Z.of_nat (length f) ≤ THREAD_NUM_ONHALT →
  threads_ok (set_heap (<[t := set_onhalt f c]> (heap s)) s) l k.
Proof.
  intros [] Hc Hf. set (h := <[t := set_onhalt f c]> (heap s)).
  assert (∀ u cu, h !! u = Some cu → ∃ c0, heap s !! u = Some c0 ∧ tc_tid cu = tc_tid c0 ∧
    tc_stack_bottom cu = tc_stack_bottom c0 ∧ Z.of_nat (length (tc_onhalt cu)) ≤ THREAD_NUM_ONHALT) as Hl.
  { intros u cu. unfold h. rewrite lookup_insert. case_decide as Hu.
    - intros [= <-]. subst u. by exists c.
    - intros H. exists cu. eauto. }
  assert (∀ u, tc_queue_link <$> h !! u = tc_queue_link <$> heap s !! u) as Hlk.
  { intros u. unfold h. rewrite lookup_insert. case_decide as Hu; [|done]. subst u. by rewrite Hc. }
  split; cbn [heap set_heap run_queue kill_queue max_tid stacks]; try done; fold h.
  - eapply queue_of_ext; [|done]. intros; apply Hlk.
  - eapply queue_of_ext; [|done]. intros; apply Hlk.
  - intros u. rewrite <- (fmap_is_Some tc_queue_link), Hlk, fmap_is_Some. apply tok_all0.
  - intros u cu (c0 & H0 & -> & _ & _)%Hl. by eapply tok_tid0.
  - intros u u' cu cu' (c0 & H0 & -> & _ & _)%Hl (c1 & H1 & -> & _ & _)%Hl. by apply tok_tids0.
  - intros y. rewrite tok_stack0. split.
    + intros (u & cu & Hu & <-). destruct (decide (t = u)) as [<-|Hn].
      * exists t, (set_onhalt f c). unfold h. rewrite lookup_insert_eq. split; [done|]. cbn. congruence.
      * exists u, cu. unfold h. by rewrite lookup_insert_ne.
    + intros (u & cu & (c0 & H0 & _ & He & _)%Hl & <-). exists u, c0. by rewrite He.
  - intros u u' cu cu' (c0 & H0 & _ & -> & _)%Hl (c1 & H1 & _ & -> & _)%Hl. by apply tok_stacks0.
  - by intros u cu (c0 & H0 & _ & _ & ?)%Hl.
Qed.

Lemma onhalt_ok fn s l k Q E :
  threads_ok s l k → cur_tc s ≠ 0 →
  (∀ c, heap s !! cur_tc s = Some c → Z.of_nat (length (tc_onhalt c)) = THREAD_NUM_ONHALT →
     Q (- E_NO_MEM) s) →
  (∀ c, heap s !! cur_tc s = Some c →
     threads_ok (set_heap (<[cur_tc s := set_onhalt (tc_onhalt c ++ [fn]) c]> (heap s)) s) l k →
     Q 0 (set_heap (<[cur_tc s := set_onhalt (tc_onhalt c ++ [fn]) c]> (heap s)) s)) →
  wpx (thread_onhalt fn) s Q E.
Proof.
  intros Hok Hc HQ1 HQ2. destruct (current_in _ _ _ Hok Hc) as (_ & _ & c & Hcc).
  pose proof (tok_onhalt _ _ _ Hok _ _ Hcc) as Hlen.
  unfold thread_onhalt. wp_steps. eapply tderef_ok; [done|].
  destruct (THREAD_NUM_ONHALT <=? _) eqn:Hz; [apply Z.leb_le in Hz|apply Z.leb_gt in Hz].
  { wp_steps. apply (HQ1 c); [done|lia]. }
  wp_steps. eapply tupd_ok; [done|]. wp_steps. apply HQ2; [done|].
  apply threads_ok_onhalt; [done..|]. rewrite length_app. cbn. lia.
Qed.

Lemma set_wait_ok a w s l k Q E :
  threads_ok s l k → cur_tc s ≠ 0 →
  (∀ c, heap s !! cur_tc s = Some c →
     threads_ok (set_heap (<[cur_tc s := set_wait a w c]> (heap s)) s) l k →
     Q tt (set_heap (<[cur_tc s := set_wait a w c]> (heap s)) s)) →
  wpx (cur ← gets cur_tc; tupd cur (set_wait a w)) s Q E.
Proof.
  intros Hok Hc HQ. destruct (current_in _ _ _ Hok Hc) as (_ & _ & c & Hcc). wp_steps.
  eapply tupd_ok; [done|]. apply HQ; [done|].
  apply threads_ok_heap; [done|..]; intros t; rewrite lookup_insert; case_decide as Ht; try done;
    subst t; by rewrite Hcc.
Qed.

(** ** Every sequence of calls

    What the running thread may call; contexts and stacks come fresh from malloc,
    and the ids are not used up. *)
Inductive top : Type :=
  | TCreate (name : list Z) (entry arg mtc mstack : Z) | TYield | THalt
  | TWakeup (addr : Z) | TPending | TOnhalt (fn : Z) | TWaitEnter (addr : Z) | TWaitLeave
  | TCompute (r : Ctx).

Definition run_top (o : top) : T unit :=
  match o with
  | TCreate n e a mtc mstack => thread_create fresh_jb n e a mtc mstack;; mret tt
  | TYield => thread_yield;; mret tt
  | THalt => thread_halt
  | TWakeup a => thread_wakeup a
  | TPending => thread_wakeups_pending;; mret tt
  | TOnhalt f => thread_onhalt f;; mret tt
  | TWaitEnter a => thread_wait_enter a
  | TWaitLeave => thread_wait_leave
  | TCompute r => modify (set_regs r)
  end.

Definition allowed (s : tst) (o : top) : Prop :=
  match o with
  | TCreate _ _ _ mtc mstack =>
      heap s !! mtc = None ∧ mstack ∉ stacks s ∧ max_tid s + 1 < 2 ^ 32 - 1
  | THalt | TOnhalt _ | TWaitEnter _ | TWaitLeave => cur_tc s ≠ 0
  | _ => True
  end.

Inductive treach : tst → Prop :=
  | treach_init r s : thread_init (mkTst ∅ ∅ (mkTQ 0 0) (mkTQ 0 0) 0 0 r []) = Ret tt s → treach s
  | treach_step s o x s' : treach s → allowed s o → run_top o s = Ret x s' → treach s'.

Lemma pending_ok s l k Q E :
  threads_ok s l k → (∀ n, Q n s) → wpx thread_wakeups_pending s Q E.
Proof.
  intros Hok HQ. pose proof (tok_run _ _ _ Hok) as (Hc & Hd & _).
  unfold thread_wakeups_pending. wp_steps. unfold walk_fuel.
  pose proof (chain_length _ _ _ Hc Hd) as Hf. clear Hd Hok. generalize dependent (S (size (heap s))).
  intros fuel. generalize 0 as n. revert Hc. generalize (tq_first (run_queue s)) as p.
  revert l. induction fuel as [|fuel IH]; intros l p Hc n Hf; [lia|].
  cbn [count_wakeups]. destruct l as [|t r].
  { cbn in Hc. rewrite Hc. cbn. by wp_steps. }
  destruct Hc as (-> & Ht & c & Hct & Hr). rewrite (proj2 (Z.eqb_neq _ _) Ht). wp_steps.
  eapply tderef_ok; [done|]. apply (IH r); [done|cbn in Hf; lia].
Qed.

Lemma top_ok s l k o :
  threads_ok s l k → allowed s o →
  wpx (run_top o) s (λ _ s', ∃ l' k', threads_ok s' l' k') (λ _ s', ∃ k', threads_ok s' [] k').
Proof.
  intros Hok Ha. destruct o; cbn [run_top allowed] in *.
  - destruct Ha as (H1 & H2 & H3). wp_steps. eapply create_ok; [done..| | |].
    + intros _. wp_steps. eauto.
    + intros _ _. wp_steps. exists l, k. pose proof (tok_max _ _ _ Hok).
      destruct Hok. split; try done; cbn; [lia|].
      intros t c Ht. specialize (tok_tid0 t c Ht). lia.
    + intros s' _ _ Hok' _ _ _ _ _. wp_steps. eauto.
  - wp_steps. eapply yield_ok; [done|]. destruct l as [|t r].
    + wp_steps. eauto.
    + intros s' [Hok' *]. wp_steps. eauto.
  - eapply halt_ok; [done..|]. intros s'. destruct l as [|t r].
    + intros [Hok' *]. eauto.
    + intros [Hok' *] _. eauto.
  - eapply wakeup_ok; [done|]. eexists _, _. by apply threads_ok_wake.
  - wp_steps. eapply pending_ok; [done|]. intros n. wp_steps. eauto.
  - wp_steps. eapply onhalt_ok; [done..| |].
    + intros. wp_steps. eauto.
    + intros c _ Hok'. wp_steps. eauto.
  - eapply set_wait_ok; [done..|]. eauto.
  - eapply set_wait_ok; [done..|]. eauto.
  - wp_steps. eexists _, _. by apply threads_ok_regs.
Qed.

Lemma thread_init_ok r s :
  thread_init (mkTst ∅ ∅ (mkTQ 0 0) (mkTQ 0 0) 0 0 r []) = Ret tt s → threads_ok s [] [].
Proof.
  intros [= <-]. split; cbn; try done.
  - by apply queue_of_empty.
  - by apply queue_of_empty.
  - lia.
  - constructor.
  - intros t. rewrite lookup_empty. split; [by intros []|]. by intros ?%elem_of_nil.
  - intros x. split; [set_solver|]. intros (t & c & Ht & _). by rewrite lookup_empty in Ht.
Qed.

Lemma treach_ok s : treach s → ∃ l k, threads_ok s l k.
Proof.
  induction 1 as [r s H|s o x s' _ (l & k & Hok) Ha Hrun]; [eauto using thread_init_ok|].
  pose proof (top_ok _ _ _ _ Hok Ha) as Hw. unfold wpx in Hw. by rewrite Hrun in Hw.
Qed.

(** C7. Memory safety of the thread package, for every sequence of calls by the
    threads: the queues stay well formed (each live context is running or in one
    queue, once; at most one halted thread is kept, as the comment in thread_halt
    says; ids are distinct; the stacks are exactly those of live contexts), and no
    call reads or writes a context that was freed, or NULL. *)
Theorem threads_safe s :
  treach s → (∃ l k, threads_ok s l k) ∧
  ∀ o, allowed s o → ∀ s', run_top o s ≠ Panic s'.
Proof.
  intros Hr. destruct (treach_ok s Hr) as (l & k & Hok). split; [eauto|].
  intros o Ha s' Hp. pose proof (top_ok _ _ _ _ Hok Ha) as Hw. unfold wpx in Hw. by rewrite Hp in Hw.
Qed.
End threads.

Arguments tst : clear implicits.
Arguments thread_context : clear implicits.

(** ** Instances *)

Module ThreadsExample.
(** Thread 100 runs, thread 200 waits; a context is a number. *)
Definition tc1 : thread_context Z := mkTC 0 300 [] 0 0 5 0 false [9] 0.
Definition tc2 : thread_context Z := mkTC 1 400 [] 0 0 6 0 false [] 0.
Definition two : tst Z :=
  mkTst (<[100 := tc1]> {[200 := tc2]}) {[300; 400]} (mkTQ 200 200) (mkTQ 0 0) 100 2 7 [].

Lemma two_heap t c : heap two !! t = Some c → (t = 100 ∧ c = tc1) ∨ (t = 200 ∧ c = tc2).
Proof.
  cbn. intros [[<- <-]|[_ [<- <-]%lookup_singleton_Some]]%lookup_insert_Some; eauto.
Qed.

Lemma two_ok : threads_ok two [200] [].
Proof.
  split.
  - split; [|split; [apply NoDup_singleton|by intros t [= <-]]].
    split; [done|]. split; [done|]. by exists tc2.
  - by apply queue_of_empty.
  - cbn; lia.
  - by apply (bool_decide_unpack _).
  - intros t. split.
    + intros [c [[-> _]|[-> _]]%two_heap]; set_solver.
    + intros Ht. cbn in Ht. assert (t = 200 ∨ t = 100) as [-> | ->] by set_solver; by eexists.
  - cbn; lia.
  - intros t c [[-> ->]|[-> ->]]%two_heap; cbn; lia.
  - intros t t' c c' [[-> ->]|[-> ->]]%two_heap [[-> ->]|[-> ->]]%two_heap; done.
  - intros x. cbn. rewrite elem_of_union, !elem_of_singleton. split.
    + intros [-> | ->]; [exists 100, tc1|exists 200, tc2]; done.
    + intros (t & c & [[-> ->]|[-> ->]]%two_heap & <-); auto.
  - intros t t' c c' [[-> ->]|[-> ->]]%two_heap [[-> ->]|[-> ->]]%two_heap; done.
  - intros t c [[-> ->]|[-> ->]]%two_heap; cbn; unfold THREAD_NUM_ONHALT; lia.
Qed.

(** The threads count their slices: 7 becomes 8, 6 becomes 7. *)
Lemma yield_round_robin_witness :
  ∃ s', slices (λ _ r, r + 1) 2 two = Ret [100; 200] s' ∧ ctx_of s' 100 = Some 8 ∧ ctx_of s' 200 = Some 7.
Proof.
  destruct (wp_returns _ _ _ (yield_round_robin (λ _ r, r + 1) two [] 100 [200] two_ok eq_refl ltac:(done)))
    as (ran & s' & Hrun & -> & _ & _ & Hctx).
  exists s'. split; [exact Hrun|]. split; rewrite Hctx by set_solver; reflexivity.
Defined.

(** A thread is created and yielded to: the second thread halts after the first. *)
Definition boot : T unit :=
  thread_init;; thread_create (λ sp, sp) [104; 105] 0 0 100 300;;
  thread_create (λ sp, sp) [] 0 0 200 400;; thread_yield;; thread_halt.

Lemma boot_halts :
  match boot (mkTst ∅ ∅ (mkTQ 0 0) (mkTQ 0 0) 0 0 0 []) with
  | Ret _ s => cur_tc s = 200 ∧ tq_first (kill_queue s) = 100 ∧ regs s = 400 + 4096 - 8
  | _ => False
  end.
Proof. by vm_compute. Qed.

Definition started : tst Z :=
  match thread_init (mkTst ∅ ∅ (mkTQ 0 0) (mkTQ 0 0) 0 0 0 []) with Ret _ s => s | _ => two end.

Lemma threads_safe_witness : ∃ s : tst Z, treach (λ sp, sp) s ∧ tq_first (run_queue s) = 100 ∧
  ∀ s', run_top (λ sp, sp) TYield s ≠ Panic s'.
Proof.
  set (o := TCreate [104; 105] 0 0 100 300 : top (Ctx := Z)).
  assert (treach (λ sp, sp) started) as H0 by (by eapply (treach_init _ 0)).
  destruct (run_top (λ sp, sp) o started) as [[] s| |] eqn:Hrun; [|by vm_compute in Hrun..].
  exists s. assert (treach (λ sp, sp) s) as Hs.
  { eapply treach_step; [exact H0| |exact Hrun]. by vm_compute. }
  split; [exact Hs|]. split; [vm_compute in Hrun; by injection Hrun as <-|].
  by apply (threads_safe (λ sp, sp) s Hs).
Defined.
End ThreadsExample.
