(* ===== verification/SysArch.v ===== *)
(** * Semaphores and mailboxes of the network server
    (net/lwip/jos/arch/sys_arch.c, over the threads of [Threads])

    The functions that can wait are cut where a thread may lose the processor,
    that is at the loop of sys_arch_sem_wait and at the loop of thread_wait; a
    thread's context is then its control point [pc], saved and restored by
    thread_yield.  The BSD lists are lists of indices.  An index outside an array
    panics.  [clock n] is what the n-th sys_time_msec returns; malloc's results are
    arguments.  [n_log] records what the calls did. *)
From S2P Require Import Prelude Mem Printfmt Threads.

Definition NSEM : Z := 256.
Definition NMBOX : Z := 128.
Definition MBOXSLOTS : Z := 32.
Definition SYS_MBOX_NULL : Z := -1.
Definition SYS_SEM_NULL : Z := -1.
Definition SYS_ARCH_NOWAIT : Z := 0xfffffffe.
Definition SYS_ARCH_TIMEOUT : Z := 0xffffffff.
Definition ERR_OK : Z := 0.
Definition ERR_MEM : Z := -1.

Record sys_sem_entry : Type := mkSem {
  sem_freed : bool; sem_gen : Z; sem_counter : Z; sem_waiters : Z }.
(** The union's [v]. *)
Definition sem_v (s : sys_sem_entry) : Z := sem_counter s + 2 ^ 16 * sem_waiters s.

Record sys_mbox_entry : Type := mkMbox {
  mb_freed : bool; mb_head : Z; mb_nextq : Z; mb_msg : gmap Z Z;
  queued_msg : Z; free_msg : Z }.

(** What remains of the caller when sys_arch_sem_wait returns. *)
Inductive kont : Type :=
  | KSem | KPost (mbox msg : Z) | KTrypost (mbox msg : Z) | KFetch (mbox : Z).

(** sys_arch_sem_wait's variables. *)
Record swait : Type := mkWait { w_sem : Z; w_tm : Z; w_gen : Z; w_waited : Z }.

(** In other code; at the loop of sys_arch_sem_wait; at the loop of thread_wait,
    with its variables; just back from its thread_yield. *)
Inductive pc : Type :=
  | PRun
  | PLoop (k : kont) (w : swait)
  | PWait (k : kont) (w : swait) (a val until s p : Z)
  | PYield (k : kont) (w : swait) (a val until s : Z).

Inductive ev : Type :=
  | EvNew (mbox : Z) | EvPosted (mbox msg : Z) | EvFetched (mbox msg : Z)
  | EvTimeout (mbox : Z) | EvSem (sem r : Z) | EvErr (mbox r : Z).

Record net : Type := mkNet {
  n_th : tst pc;
  sems : gmap Z sys_sem_entry; sem_free : list Z;
  mboxes : gmap Z sys_mbox_entry; mbox_free : list Z;
  n_clock : nat; n_log : list ev
}.

Definition N := M net texit.

Definition set_th t s := mkNet t (sems s) (sem_free s) (mboxes s) (mbox_free s) (n_clock s) (n_log s).
Definition set_sems x s := mkNet (n_th s) x (sem_free s) (mboxes s) (mbox_free s) (n_clock s) (n_log s).
Definition set_sem_free x s := mkNet (n_th s) (sems s) x (mboxes s) (mbox_free s) (n_clock s) (n_log s).
Definition set_mboxes x s := mkNet (n_th s) (sems s) (sem_free s) x (mbox_free s) (n_clock s) (n_log s).
Definition set_mbox_free x s := mkNet (n_th s) (sems s) (sem_free s) (mboxes s) x (n_clock s) (n_log s).
Definition tick s := mkNet (n_th s) (sems s) (sem_free s) (mboxes s) (mbox_free s) (S (n_clock s)) (n_log s).
Definition add_log e s := mkNet (n_th s) (sems s) (sem_free s) (mboxes s) (mbox_free s) (n_clock s) (n_log s ++ [e]).

Definition lift {A} (m : M (tst pc) texit A) : N A := λ s,
  match m (n_th s) with
  | Ret a t => Ret a (set_th t s)
  | Leave x t => Leave x (set_th t s)
  | Panic t => Panic (set_th t s)
  end.

Definition goto (p : pc) : N unit := lift (modify (set_regs p)).

Definition sem_at (i : Z) : N sys_sem_entry :=
  s ← get; match sems s !! i with Some x => mret x | None => panic end.
Definition mbox_at (i : Z) : N sys_mbox_entry :=
  s ← get; match mboxes s !! i with Some x => mret x | None => panic end.
Definition sem_set (i : Z) (x : sys_sem_entry) : N unit := modify (λ s, set_sems (<[i := x]> (sems s)) s).
Definition mbox_set (i : Z) (x : sys_mbox_entry) : N unit := modify (λ s, set_mboxes (<[i := x]> (mboxes s)) s).

Definition set_freed b x := mkSem b (sem_gen x) (sem_counter x) (sem_waiters x).
Definition set_gen g x := mkSem (sem_freed x) g (sem_counter x) (sem_waiters x).
Definition set_counter c x := mkSem (sem_freed x) (sem_gen x) c (sem_waiters x).
Definition set_waiters w x := mkSem (sem_freed x) (sem_gen x) (sem_counter x) w.
Definition set_mb_freed b x := mkMbox b (mb_head x) (mb_nextq x) (mb_msg x) (queued_msg x) (free_msg x).
Definition set_head h x := mkMbox (mb_freed x) h (mb_nextq x) (mb_msg x) (queued_msg x) (free_msg x).
Definition set_nextq n x := mkMbox (mb_freed x) (mb_head x) n (mb_msg x) (queued_msg x) (free_msg x).
Definition set_msg m x := mkMbox (mb_freed x) (mb_head x) (mb_nextq x) m (queued_msg x) (free_msg x).
Definition set_mb_sems q f x := mkMbox (mb_freed x) (mb_head x) (mb_nextq x) (mb_msg x) q f.

(** ** Initialisation and allocation *)

Definition sys_init : N unit :=
  for_each 0 NSEM (λ i,
    x ← sem_at i; sem_set i (set_freed true x);;
    modify (λ s, set_sem_free (i :: sem_free s) s));;
  for_each 0 NMBOX (λ i,
    x ← mbox_at i; mbox_set i (set_mb_freed true x);;
    modify (λ s, set_mbox_free (i :: mbox_free s) s)).

Definition sys_sem_new (count : Z) : N Z :=
  s ← get;
  match sem_free s with
  | [] => mret SYS_SEM_NULL
  | se :: rest =>
      modify (set_sem_free rest);;
      x ← sem_at se;
      assert_ (sem_freed x);;
      sem_set se (set_gen (i32 (sem_gen x + 1)) (set_counter (u8 count) (set_freed false x)));;
      mret se
  end.

Definition sys_sem_free (sem : Z) : N unit :=
  x ← sem_at sem;
  assert_ (negb (sem_freed x));;
  sem_set sem (set_gen (i32 (sem_gen x + 1)) (set_freed true x));;
  modify (λ s, set_sem_free (sem :: sem_free s) s).

Definition sys_mbox_free (mbox : Z) : N unit :=
  b ← mbox_at mbox;
  assert_ (negb (mb_freed b));;
  sys_sem_free (queued_msg b);;
  sys_sem_free (free_msg b);;
  modify (λ s, set_mbox_free (mbox :: mbox_free s) s);;
  mbox_set mbox (set_mb_freed true b).

Definition sys_mbox_new (size : Z) : N Z :=
  assert_ (size <? MBOXSLOTS);;
  s ← get;
  match mbox_free s with
  | [] => mret SYS_MBOX_NULL
  | i :: rest =>
      modify (set_mbox_free rest);;
      b ← mbox_at i;
      assert_ (mb_freed b);;
      q ← sys_sem_new 0;
      f ← sys_sem_new MBOXSLOTS;
      mbox_set i (set_mb_sems q f (set_nextq 0 (set_head (-1) (set_mb_freed false b))));;
      if (q =? SYS_SEM_NULL) || (f =? SYS_SEM_NULL) then
        sys_mbox_free i;;
        mret SYS_MBOX_NULL
      else modify (add_log (EvNew i));; mret i
  end.

Section sys_arch.
Context (clock : nat → Z).
(** The address of [sems]; an entry has 32 bytes, and [v] is its third word. *)
Context (sems_base : Z).
Definition sem_addr (i : Z) : Z := sems_base + 32 * i + 8.

Definition sys_time_msec : N Z :=
  n ← gets n_clock; modify tick;; mret (u32 (clock n)).

(** ** Signalling and waiting *)

Definition sys_sem_signal (sem : Z) : N unit :=
  x ← sem_at sem;
  assert_ (negb (sem_freed x));;
  let x := set_counter (u16 (sem_counter x + 1)) x in
  sem_set sem x;;
  when (negb (sem_waiters x =? 0))
    (sem_set sem (set_waiters 0 x);; lift (thread_wakeup (sem_addr sem))).

Definition sys_arch_sem_wait (k : kont) (sem tm_msec : Z) : N unit :=
  x ← sem_at sem;
  assert_ (negb (sem_freed x));;
  goto (PLoop k (mkWait sem tm_msec (sem_gen x) 0)).

(** ** Mailboxes: up to the wait, and after it *)

Definition sys_mbox_trypost (mbox msg : Z) : N unit :=
  b ← mbox_at mbox;
  assert_ (negb (mb_freed b));;
  sys_arch_sem_wait (KTrypost mbox msg) (free_msg b) 0.

Definition sys_mbox_post (mbox msg : Z) : N unit :=
  b ← mbox_at mbox;
  assert_ (negb (mb_freed b));;
  sys_arch_sem_wait (KPost mbox msg) (free_msg b) 0.

Definition trypost_rest (mbox msg : Z) : N Z :=
  b ← mbox_at mbox;
  if mb_nextq b =? mb_head b then mret ERR_MEM
  else
    let slot := mb_nextq b in
    let b := set_msg (<[slot := msg]> (mb_msg b)) (set_nextq (Z.rem (slot + 1) MBOXSLOTS) b) in
    let b := if mb_head b =? -1 then set_head slot b else b in
    mbox_set mbox b;;
    modify (add_log (EvPosted mbox msg));;
    sys_sem_signal (queued_msg b);;
    mret ERR_OK.

Definition sys_arch_mbox_fetch (mbox tm_msec : Z) : N unit :=
  b ← mbox_at mbox;
  assert_ (negb (mb_freed b));;
  sys_arch_sem_wait (KFetch mbox) (queued_msg b) tm_msec.

Definition sys_arch_mbox_tryfetch (mbox : Z) : N unit := sys_arch_mbox_fetch mbox SYS_ARCH_NOWAIT.

Definition fetch_rest (mbox waited : Z) : N unit :=
  if waited =? SYS_ARCH_TIMEOUT then modify (add_log (EvTimeout mbox))
  else
    b ← mbox_at mbox;
    let slot := mb_head b in
    if slot =? -1 then panic
    else
      modify (add_log (EvFetched mbox (getd 0 (mb_msg b) slot)));;
      let b := set_head (Z.rem (slot + 1) MBOXSLOTS) b in
      let b := if mb_head b =? mb_nextq b then set_head (-1) b else b in
      mbox_set mbox b;;
      sys_sem_signal (free_msg b).

(** sys_arch_sem_wait returns [r] to its caller. *)
Definition wait_return (k : kont) (sem r : Z) : N unit :=
  match k with
  | KSem => modify (add_log (EvSem sem r))
  | KPost m msg => e ← trypost_rest m msg; assert_ (e =? ERR_OK)
  | KTrypost m msg => e ← trypost_rest m msg; modify (add_log (EvErr m e))
  | KFetch m => fetch_rest m r
  end;;
  goto PRun.

(** ** The steps of a thread that waits *)

(** One round of the loop of sys_arch_sem_wait, up to the loop of thread_wait. *)
Definition loop_step (k : kont) (w : swait) : N unit :=
  if (w_tm w =? 0) || (w_waited w <? w_tm w) then
    x ← sem_at (w_sem w);
    if 0 <? sem_counter x then
      sem_set (w_sem w) (set_counter (u16 (sem_counter x - 1)) x);;
      wait_return k (w_sem w) (w_waited w)
    else if w_tm w =? SYS_ARCH_NOWAIT then wait_return k (w_sem w) SYS_ARCH_TIMEOUT
    else
      a ← sys_time_msec;
      let sleep_until := if negb (w_tm w =? 0) then u32 (a + (w_tm w - w_waited w)) else u32 (-1) in
      sem_set (w_sem w) (set_waiters 1 x);;
      let cur_v := sem_v (set_waiters 1 x) in
      t ← sys_time_msec;
      lift (thread_wait_enter (sem_addr (w_sem w)));;
      goto (PWait k w a cur_v sleep_until t t)
  else wait_return k (w_sem w) SYS_ARCH_TIMEOUT.

(** One round of the loop of thread_wait; after it, the rest of the round of
    sys_arch_sem_wait. *)
Definition wait_step (k : kont) (w : swait) (a val until s p : Z) : N unit :=
  x ← sem_at (w_sem w);
  more ← lift (thread_wait_more (sem_addr (w_sem w)) (sem_v x) val until s p);
  if more : bool then
    goto (PYield k w a val until s);;
    lift thread_yield;; mret tt
  else
    lift thread_wait_leave;;
    if negb (w_gen w =? sem_gen x) then wait_return k (w_sem w) SYS_ARCH_TIMEOUT
    else
      b ← sys_time_msec;
      goto (PLoop k (mkWait (w_sem w) (w_tm w) (w_gen w) (u32 (w_waited w + (b - a))))).

Definition resume_step (k : kont) (w : swait) (a val until s : Z) : N unit :=
  p ← sys_time_msec; goto (PWait k w a val until s p).

(** ** Threads *)

Definition sys_thread_new (name : list Z) (func arg stacksize lt mtc mstack : Z) : N Z :=
  assert_ (negb (lt =? 0));;
  assert_ (stacksize <=? PGSIZE);;
  r ← lift (thread_create (λ _, PRun) name func lt mtc mstack);
  assert_ (negb (snd r <? 0));;
  mret (default 0 (fst r)).

(** What a thread may call when it is not waiting. *)
Inductive call : Type :=
  | CSemNew (count : Z) | CSemFree (sem : Z) | CSignal (sem : Z) | CSemWait (sem tm : Z)
  | CMboxNew (size : Z) | CMboxFree (mbox : Z)
  | CPost (mbox msg : Z) | CTrypost (mbox msg : Z) | CFetch (mbox tm : Z)
  | CThread (name : list Z) (func arg stacksize lt mtc mstack : Z) | CYield | CHalt.

Definition run_call (c : call) : N unit :=
  match c with
  | CSemNew n => sys_sem_new n;; mret tt
  | CSemFree i => sys_sem_free i
  | CSignal i => sys_sem_signal i
  | CSemWait i tm => sys_arch_sem_wait KSem i tm
  | CMboxNew n => sys_mbox_new n;; mret tt
  | CMboxFree i => sys_mbox_free i
  | CPost m x => sys_mbox_post m x
  | CTrypost m x => sys_mbox_trypost m x
  | CFetch m tm => sys_arch_mbox_fetch m tm
  | CThread n f a sz lt mtc mstack => sys_thread_new n f a sz lt mtc mstack;; mret tt
  | CYield => lift thread_yield;; mret tt
  | CHalt => lift thread_halt
  end.

(** One step of the running thread; [c] is the call it makes if it is in other
    code. *)
Definition sys_step (c : call) : N unit :=
  p ← gets (λ s, regs (n_th s));
  match p with
  | PRun => run_call c
  | PLoop k w => loop_step k w
  | PWait k w a val until s p => wait_step k w a val until s p
  | PYield k w a val until s => resume_step k w a val until s
  end.
End sys_arch.

(** ** Rules for the pieces *)

Lemma wpx_lift {A} (m : M (tst pc) texit A) s Q E :
  wpx m (n_th s) (λ a t, Q a (set_th t s)) (λ x t, E x (set_th t s)) → wpx (lift m) s Q E.
Proof. unfold wpx, lift. by destruct (m (n_th s)). Qed.

Lemma sem_at_ok i x s Q E : sems s !! i = Some x → Q x s → wpx (sem_at i) s Q E.
Proof. intros Hx HQ. unfold sem_at. wp_steps. by rewrite Hx. Qed.

Lemma mbox_at_ok i b s Q E : mboxes s !! i = Some b → Q b s → wpx (mbox_at i) s Q E.
Proof. intros Hx HQ. unfold mbox_at. wp_steps. by rewrite Hx. Qed.

Lemma assert_true (b : bool) s Q E : b = true → Q tt s → wpx (assert_ b : N unit) s Q E.
Proof. by intros ->. Qed.

(** ** What a mailbox holds *)

(** The messages posted to and fetched from mailbox [m] since it was made. *)
Definition hist1 (m : Z) (h : list Z * list Z) (e : ev) : list Z * list Z :=
  match e with
  | EvNew m' => if m' =? m then ([], []) else h
  | EvPosted m' x => if m' =? m then (fst h ++ [x], snd h) else h
  | EvFetched m' x => if m' =? m then (fst h, snd h ++ [x]) else h
  | _ => h
  end.
Definition hist (m : Z) (log : list ev) : list Z * list Z := fold_left (hist1 m) log ([], []).
Definition posted m s : list Z := fst (hist m (n_log s)).
Definition fetched m s : list Z := snd (hist m (n_log s)).

Lemma hist_snoc m log e : hist m (log ++ [e]) = hist1 m (hist m log) e.
Proof. unfold hist. by rewrite fold_left_app. Qed.

(** The ring of [b] holds [q]. *)
Record mbox_rep (b : sys_mbox_entry) (q : list Z) : Prop := {
  mr_len : Z.of_nat (length q) ≤ MBOXSLOTS;
  mr_nextq : 0 ≤ mb_nextq b < MBOXSLOTS;
  mr_empty : q = [] → mb_head b = -1;
  mr_head : q ≠ [] → 0 ≤ mb_head b < MBOXSLOTS ∧
    mb_nextq b = (mb_head b + Z.of_nat (length q)) mod MBOXSLOTS;
  mr_msg : ∀ i, (i < length q)%nat →
    getd 0 (mb_msg b) ((mb_head b + Z.of_nat i) mod MBOXSLOTS) = nth i q 0
}.

(** The body of sys_mbox_trypost, and of sys_arch_mbox_fetch, on the entry. *)
Definition put_entry (msg : Z) (b : sys_mbox_entry) : sys_mbox_entry :=
  let slot := mb_nextq b in
  let b := set_msg (<[slot := msg]> (mb_msg b)) (set_nextq (Z.rem (slot + 1) MBOXSLOTS) b) in
  if mb_head b =? -1 then set_head slot b else b.
Definition take_entry (b : sys_mbox_entry) : sys_mbox_entry :=
  let b := set_head (Z.rem (mb_head b + 1) MBOXSLOTS) b in
  if mb_head b =? mb_nextq b then set_head (-1) b else b.

Lemma rep_full b q : mbox_rep b q → Z.of_nat (length q) < MBOXSLOTS → mb_nextq b ≠ mb_head b.
Proof.
  intros [] Hlt. destruct q as [|x q].
  - rewrite mr_empty0 by done. lia.
  - destruct mr_head0 as [Hh Hn]; [done|]. unfold MBOXSLOTS in *. intros He.
    cbn [length] in *. rewrite He in Hn. zlia.
Qed.

Lemma rep_put b q msg :
  mbox_rep b q → Z.of_nat (length q) < MBOXSLOTS → mbox_rep (put_entry msg b) (q ++ [msg]).
Proof.
  intros [] Hlt. unfold put_entry, MBOXSLOTS in *. rewrite Z.rem_mod_nonneg by lia.
  assert (length (q ++ [msg]) = S (length q)) as Hl by (rewrite length_app; cbn; lia).
  destruct q as [|y q].
  - cbn [mb_head set_msg set_nextq]. rewrite mr_empty0 by done. cbn [Z.eqb Pos.eqb].
    split; unfold MBOXSLOTS; cbn; try lia; try done.
    + apply Z.mod_pos_bound. lia.
    + intros [|i] Hi; [|lia]. rewrite Z.add_0_r, Z.mod_small by lia. by rewrite getd_insert_eq.
  - destruct mr_head0 as [Hh Hn]; [done|]. cbn [mb_head set_msg set_nextq].
    rewrite (proj2 (Z.eqb_neq _ _)) by lia.
    split; rewrite ?Hl; cbn [mb_head mb_nextq mb_msg set_msg set_nextq]; try done.
    + unfold MBOXSLOTS. lia.
    + unfold MBOXSLOTS. apply Z.mod_pos_bound. lia.
    + intros _. split; [done|]. rewrite Hn. unfold MBOXSLOTS. zlia.
    + intros i Hi. unfold MBOXSLOTS. destruct (decide (i = length (y :: q))) as [->|Hi'].
      * rewrite app_nth2, Nat.sub_diag by lia. rewrite <- Hn. by rewrite getd_insert_eq.
      * rewrite app_nth1 by lia. rewrite getd_insert_ne; [apply mr_msg0; lia|].
        rewrite Hn. zlia.
Qed.

Lemma rep_take b x q : mbox_rep b (x :: q) →
  getd 0 (mb_msg b) (mb_head b) = x ∧ mb_head b ≠ -1 ∧ mbox_rep (take_entry b) q.
Proof.
  intros []. destruct mr_head0 as [Hh Hn]; [done|]. unfold MBOXSLOTS in *. cbn [length] in *.
  split; [|split; [lia|]].
  { specialize (mr_msg0 0%nat ltac:(lia)). by rewrite Z.add_0_r, Z.mod_small in mr_msg0 by lia. }
  unfold take_entry, MBOXSLOTS. rewrite Z.rem_mod_nonneg by lia. cbn [mb_head mb_nextq set_head].
  destruct (_ =? _) eqn:He; [apply Z.eqb_eq in He|apply Z.eqb_neq in He].
  - assert (q = []) as ->. { destruct q; [done|]. exfalso. cbn [length] in *. rewrite Hn in He. zlia. }
    split; cbn; unfold MBOXSLOTS; try done; lia.
  - assert (q ≠ []) as Hq. { intros ->. cbn in *. apply He. by rewrite Hn. }
    split; cbn [mb_head mb_nextq mb_msg set_head]; unfold MBOXSLOTS; try done; try lia.
    + intros _. split; [apply Z.mod_pos_bound; lia|]. rewrite Hn. zlia.
    + intros i Hi. specialize (mr_msg0 (S i) ltac:(lia)). cbn [nth] in mr_msg0. rewrite <- mr_msg0.
      f_equal. zlia.
Qed.

(** ** The invariant *)

Definition live (s : net) (m : Z) (b : sys_mbox_entry) : Prop :=
  mboxes s !! m = Some b ∧ mb_freed b = false.

(** [i] belongs to mailbox [m]. *)
Definition owns (s : net) (m i : Z) : Prop := ∃ b, live s m b ∧ (i = queued_msg b ∨ i = free_msg b).
Definition client (s : net) (i : Z) : Prop := ∀ m, ¬ owns s m i.

Definition live_sem (s : net) (i : Z) (x : sys_sem_entry) : Prop :=
  sems s !! i = Some x ∧ sem_freed x = false.

(** Mailbox [m] holds what was posted and not yet fetched, and its two counters
    count messages and free slots. *)
Record mbox_ok (s : net) (m : Z) (b : sys_mbox_entry) (q : list Z) : Prop := {
  mo_rep : mbox_rep b q;
  mo_fifo : posted m s = fetched m s ++ q;
  mo_queued : ∃ x, live_sem s (queued_msg b) x ∧ sem_counter x = Z.of_nat (length q);
  mo_free : ∃ x, live_sem s (free_msg b) x ∧ sem_counter x = MBOXSLOTS - Z.of_nat (length q)
}.

(** The two halves of the union. *)
Definition sem_range (x : sys_sem_entry) : Prop :=
  0 ≤ sem_counter x < 2 ^ 16 ∧ (sem_waiters x = 0 ∨ sem_waiters x = 1).

Record data_ok (s : net) : Prop := {
  do_range : ∀ i x, sems s !! i = Some x → sem_range x;
  do_sems : ∀ i, is_Some (sems s !! i) ↔ 0 ≤ i < NSEM;
  do_mboxes : ∀ i, is_Some (mboxes s !! i) ↔ 0 ≤ i < NMBOX;
  do_sem_nodup : NoDup (sem_free s);
  do_sem_free : ∀ i, i ∈ sem_free s ↔ ∃ x, sems s !! i = Some x ∧ sem_freed x = true;
  do_mbox_nodup : NoDup (mbox_free s);
  do_mbox_free : ∀ i, i ∈ mbox_free s ↔ ∃ x, mboxes s !! i = Some x ∧ mb_freed x = true;
  do_mbox : ∀ m b, live s m b → ∃ q, mbox_ok s m b q;
  do_own : ∀ m m' i, owns s m i → owns s m' i → m = m';
  do_two : ∀ m b, live s m b → queued_msg b ≠ free_msg b
}.

Section invariant.
Context (clock : nat → Z) (sems_base : Z).

(** A waiting thread's semaphore is its own call's; [t] bounds the time it has
    waited. *)
Definition wait_ok (s : net) (k : kont) (w : swait) (t : Z) : Prop :=
  0 ≤ w_waited w ≤ t ∧ (∃ x, live_sem s (w_sem w) x ∧ w_gen w = sem_gen x) ∧
  match k with
  | KSem => client s (w_sem w)
  | KPost m _ | KTrypost m _ => w_tm w = 0 ∧ ∃ b, live s m b ∧ free_msg b = w_sem w
  | KFetch m => ∃ b, live s m b ∧ queued_msg b = w_sem w
  end.

Definition pc_ok (s : net) (p : pc) : Prop :=
  match p with
  | PRun => True
  | PLoop k w => wait_ok s k w (clock (n_clock s))
  | PWait k w a val _ _ _ | PYield k w a val _ _ =>
      wait_ok s k w a ∧ a ≤ clock (n_clock s) ∧ val = 2 ^ 16
  end.

(** The control points of the running thread and of the runnable ones. *)
Definition pcs_ok (s : net) (t : tst pc) (l : list Z) : Prop :=
  pc_ok s (regs t) ∧ ∀ u c, u ∈ l → heap t !! u = Some c → pc_ok s (tc_jb c).

(** Only threads wait; the code that calls thread_init is not one. *)
Record th_ok (s : net) (t : tst pc) (l k : list Z) : Prop := {
  to_th : threads_ok t l k;
  to_pcs : pcs_ok s t l;
  to_run : cur_tc t = 0 → regs t = PRun
}.

Record net_ok (s : net) : Prop := {
  no_th : ∃ l k, th_ok s (n_th s) l k;
  no_data : data_ok s
}.

(** ** What the invariant of a waiting thread depends on *)

Definition sem_shape (x : sys_sem_entry) : bool * Z := (sem_freed x, sem_gen x).
Definition mbox_shape (b : sys_mbox_entry) : bool * Z * Z := (mb_freed b, queued_msg b, free_msg b).

Record same_shape (s s' : net) : Prop := {
  ss_sems : ∀ i, sem_shape <$> sems s' !! i = sem_shape <$> sems s !! i;
  ss_mboxes : ∀ i, mbox_shape <$> mboxes s' !! i = mbox_shape <$> mboxes s !! i
}.

Lemma shape_sym s s' : same_shape s s' → same_shape s' s.
Proof. intros []. by split. Qed.

Lemma shape_live s s' m b : same_shape s s' → live s m b →
  ∃ b', live s' m b' ∧ queued_msg b' = queued_msg b ∧ free_msg b' = free_msg b.
Proof.
  intros [_ Hs] [Hb Hf]. specialize (Hs m). rewrite Hb in Hs. unfold live.
  destruct (mboxes s' !! m) as [b'|]; [|done]. injection Hs as H1 H2 H3. exists b'.
  by rewrite H1.
Qed.

Lemma shape_owns s s' m i : same_shape s s' → owns s m i ↔ owns s' m i.
Proof.
  assert (∀ s s', same_shape s s' → owns s m i → owns s' m i) as H.
  { clear. intros s s' Hs (b & Hb & Hi). destruct (shape_live _ _ _ _ Hs Hb) as (b' & Hb' & Hq & Hf).
    exists b'. by rewrite Hq, Hf. }
  split; apply H; [done|by apply shape_sym].
Qed.

Lemma shape_sem s s' i x : same_shape s s' → live_sem s i x →
  ∃ x', live_sem s' i x' ∧ sem_gen x' = sem_gen x.
Proof.
  intros [Hs _] [Hb Hf]. specialize (Hs i). rewrite Hb in Hs. unfold live_sem.
  destruct (sems s' !! i) as [x'|]; [|done]. injection Hs as H1 H2. exists x'. by rewrite H1.
Qed.

(** From [s] to [s'] everything but the semaphores in [F] stays allocated. *)
Record keeps (F : Z → Prop) (s s' : net) : Prop := {
  kp_sem : ∀ i x, live_sem s i x → ¬ F i → ∃ x', live_sem s' i x' ∧ sem_gen x' = sem_gen x;
  kp_mbox : ∀ m b, live s m b → ¬ F (queued_msg b) ∨ ¬ F (free_msg b) →
    ∃ b', live s' m b' ∧ queued_msg b' = queued_msg b ∧ free_msg b' = free_msg b;
  kp_client : ∀ i x, live_sem s i x → ¬ F i → client s i → client s' i;
  kp_clock : clock (n_clock s) ≤ clock (n_clock s')
}.

Lemma shape_keeps s s' :
  same_shape s s' → clock (n_clock s) ≤ clock (n_clock s') → keeps (λ _, False) s s'.
Proof.
  intros Hs Hc. split; [| | |done].
  - intros i x Hx _. by eapply shape_sem.
  - intros m b Hb _. by eapply shape_live.
  - intros i x _ _ Hcl m Ho. apply (Hcl m). by apply (shape_owns _ _ _ _ Hs).
Qed.

Definition pc_sem (p : pc) : option Z :=
  match p with PRun => None | PLoop _ w | PWait _ w _ _ _ _ _ | PYield _ w _ _ _ _ => Some (w_sem w) end.

Lemma wait_ok_keeps F s s' k w t t' :
  keeps F s s' → ¬ F (w_sem w) → t ≤ t' → wait_ok s k w t → wait_ok s' k w t'.
Proof.
  intros [Hs Hm Hcl _] HF Ht (Hw & (x & Hx & Hg) & Hk). split; [lia|]. split.
  - destruct (Hs _ _ Hx HF) as (x' & Hx' & Hg'). exists x'. by rewrite Hg'.
  - destruct k as [|m msg|m msg|m].
    + by eapply Hcl.
    + destruct Hk as (H0 & b & Hb & Hf). split; [done|].
      destruct (Hm _ _ Hb) as (b' & Hb' & Hq & Hf'); [right; congruence|]. exists b'. by rewrite Hf'.
    + destruct Hk as (H0 & b & Hb & Hf). split; [done|].
      destruct (Hm _ _ Hb) as (b' & Hb' & Hq & Hf'); [right; congruence|]. exists b'. by rewrite Hf'.
    + destruct Hk as (b & Hb & Hf).
      destruct (Hm _ _ Hb) as (b' & Hb' & Hq & Hf'); [left; congruence|]. exists b'. by rewrite Hq.
Qed.

Lemma pc_ok_keeps F s s' p :
  keeps F s s' → (∀ i, pc_sem p = Some i → ¬ F i) → pc_ok s p → pc_ok s' p.
Proof.
  intros Hs HF. destruct p; cbn in *; [done| | |].
  - apply (wait_ok_keeps F); auto. apply Hs.
  - intros [Hw Ha]. split; [by eapply wait_ok_keeps; eauto; lia|]. pose proof (kp_clock _ _ _ Hs). split; [lia|tauto].
  - intros [Hw Ha]. split; [by eapply wait_ok_keeps; eauto; lia|]. pose proof (kp_clock _ _ _ Hs). split; [lia|tauto].
Qed.

(** No thread of [t] waits on a semaphore of [F]. *)
Definition unwaited (F : Z → Prop) (t : tst pc) (l : list Z) : Prop :=
  (∀ i, pc_sem (regs t) = Some i → ¬ F i) ∧
  ∀ u c i, u ∈ l → heap t !! u = Some c → pc_sem (tc_jb c) = Some i → ¬ F i.

Lemma th_ok_keeps F s s' t l k :
  keeps F s s' → unwaited F t l → th_ok s t l k → th_ok s' t l k.
Proof.
  intros Hs [HF1 HF2] [H1 [H2 H3] H4]. split; [done| |done]. split; [by eapply pc_ok_keeps|].
  intros u c Hu Hc. eapply pc_ok_keeps; [done|intros i; by apply (HF2 u)|by eapply H3].
Qed.

Lemma wait_ok_shape s s' k w t t' :
  same_shape s s' → clock (n_clock s) ≤ clock (n_clock s') → t ≤ t' → wait_ok s k w t → wait_ok s' k w t'.
Proof. intros Hs Hc. apply (wait_ok_keeps (λ _, False)); [by apply shape_keeps|tauto]. Qed.

Lemma pc_ok_shape s s' p :
  same_shape s s' → clock (n_clock s) ≤ clock (n_clock s') → pc_ok s p → pc_ok s' p.
Proof. intros Hs Hc. apply (pc_ok_keeps (λ _, False)); [by apply shape_keeps|tauto]. Qed.

Lemma th_ok_shape s s' t l k :
  same_shape s s' → clock (n_clock s) ≤ clock (n_clock s') → th_ok s t l k → th_ok s' t l k.
Proof.
  intros Hs Hc. apply (th_ok_keeps (λ _, False)); [by apply shape_keeps|]. split; tauto.
Qed.

(** ** The threads *)

Lemma th_regs s t l k p :
  th_ok s t l k → pc_ok s p → (cur_tc t = 0 → p = PRun) → th_ok s (set_regs p t) l k.
Proof. intros [H1 [H2 H3] H4] Hp Hc. split; [by apply threads_ok_regs|by split|done]. Qed.

Lemma th_yield s t l k Q E :
  th_ok s t l k → (∀ b t' l', th_ok s t' l' k → Q b t') → wpx thread_yield t Q E.
Proof.
  intros Ht HQ. destruct Ht as [H1 [H2 H3] H4] eqn:He. eapply yield_ok; [exact H1|].
  destruct l as [|u r]; [by eapply HQ|]. intros t' [Hok Hcur Hregs Hheap _ _].
  apply (HQ _ _ (r ++ current t)). split; [done| |].
  - split.
    + destruct (heap t !! u) as [c|] eqn:Hc; [|done]. injection Hregs as ->.
      apply (H3 u c); [left|done].
    + intros v c Hv Hc. pose proof (upto_field tc_jb _ _ Hheap ltac:(done) v) as Hj.
      rewrite Hc in Hj. unfold saved in Hj. destruct (cur_tc t =? 0) eqn:Hz.
      * unfold current in Hv. rewrite Hz, app_nil_r in Hv.
        destruct (heap t !! v) as [c0|] eqn:Hc0; [|done]. injection Hj as ->.
        apply (H3 v c0); [by right|done].
      * destruct (decide (cur_tc t = v)) as [<-|Hn].
        -- rewrite lookup_alter_eq in Hj. destruct (heap t !! cur_tc t); [|done].
           injection Hj as ->. done.
        -- rewrite lookup_alter_ne in Hj by done. unfold current in Hv. rewrite Hz in Hv.
           destruct (heap t !! v) as [c0|] eqn:Hc0; [|done]. injection Hj as ->.
           apply (H3 v c0); [|done]. right. apply elem_of_app in Hv as [Hv|Hv]; [done|].
           by apply list_elem_of_singleton in Hv.
  - intros Hz. exfalso. destruct (chain_in _ _ _ u (proj1 (tok_run _ _ _ H1)) ltac:(left)) as [Hu _].
    congruence.
Qed.

(** Changes of the heap that keep ids, links and saved contexts. *)
Lemma th_heap s t l k h :
  th_ok s t l k → threads_ok (set_heap h t) l k →
  (∀ u, tc_jb <$> h !! u = tc_jb <$> heap t !! u) → th_ok s (set_heap h t) l k.
Proof.
  intros [H1 [H2 H3] H4] Hok Hj. split; [done| |done]. split; [done|].
  intros u c Hu Hc. specialize (Hj u). cbn in Hc. rewrite Hc in Hj.
  destruct (heap t !! u) as [c0|] eqn:Hc0; [|done]. injection Hj as ->. by apply (H3 u c0).
Qed.

Lemma th_wakeup s t l k addr Q E :
  th_ok s t l k → (∀ t', th_ok s t' l k → cur_tc t' = cur_tc t → regs t' = regs t → Q tt t') →
  wpx (thread_wakeup addr) t Q E.
Proof.
  intros Ht HQ. eapply wakeup_ok; [apply Ht|]. apply HQ; try done.
  apply th_heap; [done|apply threads_ok_wake, Ht|]. intros u.
  rewrite mark_lookup by apply (tok_run _ _ _ (to_th _ _ _ _ Ht)).
  destruct (heap t !! u); [|by case_decide]. case_decide; cbn; [|done]. unfold wake. by case_match.
Qed.

Lemma th_set_wait s t l k a w Q E :
  th_ok s t l k → cur_tc t ≠ 0 →
  (∀ t' c, th_ok s t' l k → cur_tc t' = cur_tc t → regs t' = regs t →
     heap t' !! cur_tc t = Some (set_wait a w c) → Q tt t') →
  wpx (cur ← gets cur_tc; tupd cur (set_wait a w)) t Q E.
Proof.
  intros Ht Hc HQ. eapply set_wait_ok; [apply Ht|done|]. intros c Hcc Hok. apply (HQ _ c); try done.
  - apply th_heap; [done|done|]. intros u. rewrite lookup_insert. case_decide as Hu; [|done].
    subst u. by rewrite Hcc.
  - cbn. by rewrite lookup_insert_eq.
Qed.

Lemma th_halt s t l k Q :
  th_ok s t l k → cur_tc t ≠ 0 →
  (∀ t' l' k', th_ok s t' l' k' → Q tt t') →
  wpx thread_halt t Q (λ _ _, True).
Proof.
  intros Ht Hc HQ. destruct Ht as [H1 [H2 H3] H4]. pose proof (tok_nodup _ _ _ H1) as Hd.
  eapply halt_ok; [exact H1|done|]. intros t'. destruct l as [|u r]; [done|].
  intros [Hok Hcur _ _ Hheap] Hregs. apply (HQ _ r [cur_tc t]).
  assert (∀ v, v ∈ u :: r → v ∉ k) as Hk.
  { intros v Hv Hvk. apply list.NoDup_app in Hd as (_ & Hd & _). apply (Hd v Hv), elem_of_app. by left. }
  split; [done| |].
  - split.
    + destruct (heap t !! u) as [c|] eqn:Hc'; [|done]. injection Hregs as ->. apply (H3 u c); [left|done].
    + intros v c Hv Hvc. specialize (Hheap v (Hk v ltac:(by right))). rewrite Hvc in Hheap.
      destruct (heap t !! v) as [c0|] eqn:Hc0; [|done]. injection Hheap as ????? Hj ???.
      rewrite Hj. apply (H3 v c0); [by right|done].
  - intros Hz. exfalso. destruct (chain_in _ _ _ u (proj1 (tok_run _ _ _ H1)) ltac:(left)) as [Hu _].
    congruence.
Qed.

Lemma th_create s t l k name entry arg mtc mstack Q E :
  th_ok s t l k → heap t !! mtc = None → mstack ∉ stacks t → max_tid t + 1 < 2 ^ 32 - 1 →
  mtc ≠ 0 → mstack ≠ 0 →
  (∀ t', th_ok s t' (l ++ [mtc]) k → Q (Some (max_tid t), 0) t') →
  wpx (thread_create (λ _, PRun) name entry arg mtc mstack) t Q E.
Proof.
  intros [H1 [H2 H3] H4] Hm Hs Hn Hm0 Hs0 HQ.
  eapply create_ok; [done..|].
  intros t' _ _ Hok Hcur Hregs _ _ Hheap. apply HQ. split; [done| |by rewrite Hcur, Hregs].
  split; [by rewrite Hregs|]. intros v c Hv Hc.
  pose proof (upto_field tc_jb _ _ Hheap ltac:(done) v) as Hj. rewrite Hc, lookup_insert in Hj.
  case_decide as Hv'; [by injection Hj as ->|].
  destruct (heap t !! v) as [c0|] eqn:Hc0; [|done]. injection Hj as ->. apply (H3 v c0); [|done].
  apply elem_of_app in Hv as [Hv|Hv]; [done|]. apply list_elem_of_singleton in Hv. congruence.
Qed.

(** ** The data *)

Lemma shape_freed_sem s s' i :
  same_shape s s' →
  (∃ x, sems s' !! i = Some x ∧ sem_freed x = true) ↔ (∃ x, sems s !! i = Some x ∧ sem_freed x = true).
Proof.
  intros [Hs _]. specialize (Hs i).
  split; intros (x & Hx & Hf); rewrite Hx in Hs; [destruct (sems s !! i) as [y|]|destruct (sems s' !! i) as [y|]];
    try done; injection Hs as H1 H2; exists y; split; congruence.
Qed.

Lemma shape_freed_mbox s s' i :
  same_shape s s' →
  (∃ x, mboxes s' !! i = Some x ∧ mb_freed x = true) ↔ (∃ x, mboxes s !! i = Some x ∧ mb_freed x = true).
Proof.
  intros [_ Hs]. specialize (Hs i).
  split; intros (x & Hx & Hf); rewrite Hx in Hs; [destruct (mboxes s !! i) as [y|]|destruct (mboxes s' !! i) as [y|]];
    try done; injection Hs as H1 H2 H3; exists y; split; congruence.
Qed.

Lemma data_frame s s' :
  data_ok s → same_shape s s' → sem_free s' = sem_free s → mbox_free s' = mbox_free s →
  (∀ i x, sems s' !! i = Some x → sem_range x) →
  (∀ m b, live s' m b → ∃ q, mbox_ok s' m b q) → data_ok s'.
Proof.
  intros [] Hs Hf Hm Hrange Hq. split; rewrite ?Hf, ?Hm; try done.
  - intros i. rewrite <- do_sems0, <- (fmap_is_Some sem_shape), (ss_sems _ _ Hs). apply fmap_is_Some.
  - intros i. rewrite <- do_mboxes0, <- (fmap_is_Some mbox_shape), (ss_mboxes _ _ Hs). apply fmap_is_Some.
  - intros i. rewrite do_sem_free0. symmetry. by apply shape_freed_sem.
  - intros i. rewrite do_mbox_free0. symmetry. by apply shape_freed_mbox.
  - intros m m' i H1 H2. apply (do_own0 m m' i); by apply (shape_owns _ _ _ _ Hs).
  - intros m b Hb. destruct (shape_live _ _ _ _ (shape_sym _ _ Hs) Hb) as (b' & Hb' & <- & <-).
    by eapply do_two0.
Qed.

(** A mailbox whose semaphores and history did not change. *)
Lemma mbox_ok_frame s s' m b q :
  mbox_ok s m b q → hist m (n_log s') = hist m (n_log s) →
  (∀ i x, i = queued_msg b ∨ i = free_msg b → live_sem s i x →
     ∃ x', live_sem s' i x' ∧ sem_counter x' = sem_counter x) →
  mbox_ok s' m b q.
Proof.
  intros [Hr Hq (xq & Hxq & Hcq) (xf & Hxf & Hcf)] Hh Hs. split; [done| | |].
  - unfold posted, fetched. by rewrite Hh.
  - destruct (Hs _ _ (or_introl eq_refl) Hxq) as (x' & Hx' & Hc). exists x'. by rewrite Hc.
  - destruct (Hs _ _ (or_intror eq_refl) Hxf) as (x' & Hx' & Hc). exists x'. by rewrite Hc.
Qed.

(** An entry that changes its waiters, or a client's counter. *)
Lemma set_sem_shape s i x x' :
  sems s !! i = Some x → sem_shape x' = sem_shape x →
  same_shape s (set_sems (<[i := x']> (sems s)) s).
Proof.
  intros Hx Hs. split; [|done]. intros j. cbn. rewrite lookup_insert. case_decide as Hj; [|done].
  subst j. rewrite Hx. cbn. by rewrite Hs.
Qed.

Lemma range_insert (h : gmap Z sys_sem_entry) i y :
  (∀ j x, h !! j = Some x → sem_range x) → sem_range y →
  ∀ j x, <[i := y]> h !! j = Some x → sem_range x.
Proof. intros Hh Hy j x [[_ <-]|[_ Hj]]%lookup_insert_Some; eauto. Qed.

Lemma data_set_sem s i x x' :
  data_ok s → live_sem s i x → sem_shape x' = sem_shape x → sem_range x' →
  sem_counter x' = sem_counter x ∨ client s i →
  data_ok (set_sems (<[i := x']> (sems s)) s).
Proof.
  intros Hd [Hx Hf] Hs Hrg Hc. eapply data_frame; [exact Hd|by eapply set_sem_shape|done|done| |].
  { by apply range_insert; [apply Hd|]. }
  intros m b Hb. destruct (do_mbox _ Hd m b Hb) as [q Hq]. exists q.
  eapply mbox_ok_frame; [exact Hq|done|]. intros j y Hj [Hy Hyf].
  destruct (decide (i = j)) as [<-|Hij].
  - exists x'. unfold live_sem. cbn. rewrite lookup_insert_eq. injection Hs as H1 H2.
    rewrite H1. replace y with x by congruence. split; [done|].
    destruct Hc as [Hc|Hc]; [done|]. exfalso. apply (Hc m). by exists b.
  - exists y. unfold live_sem. cbn. by rewrite lookup_insert_ne.
Qed.

(** A post or a fetch, as a change of the data: the entry of [m], its two
    semaphores, and the log. *)
Lemma data_move s s' m b b' xq xf yq yf e q' :
  data_ok s → live s m b →
  live_sem s (queued_msg b) xq → live_sem s (free_msg b) xf →
  sem_shape yq = sem_shape xq → sem_shape yf = sem_shape xf → sem_range yq → sem_range yf →
  mbox_shape b' = mbox_shape b →
  sems s' = <[queued_msg b := yq]> (<[free_msg b := yf]> (sems s)) →
  mboxes s' = <[m := b']> (mboxes s) → sem_free s' = sem_free s → mbox_free s' = mbox_free s →
  n_log s' = n_log s ++ [e] → (∀ m' h, m' ≠ m → hist1 m' h e = h) →
  mbox_rep b' q' → sem_counter yq = Z.of_nat (length q') →
  sem_counter yf = MBOXSLOTS - Z.of_nat (length q') →
  posted m s' = fetched m s' ++ q' →
  data_ok s' ∧ same_shape s s'.
Proof.
  intros Hd [Hb Hbf] [Hxq Hqf] [Hxf Hff] Hyq Hyf Hrq Hrf Hb' Hs Hm Hsf Hmf Hlog Hhist Hrep Hcq Hcf Hfifo.
  pose proof (do_two _ Hd m b (conj Hb Hbf)) as H2.
  assert (same_shape s s') as Hsh.
  { split; intros i.
    - rewrite Hs, !lookup_insert. repeat case_decide; subst; rewrite ?Hxq, ?Hxf; cbn; congruence.
    - rewrite Hm, lookup_insert. case_decide; subst; rewrite ?Hb; cbn; congruence. }
  split; [|done]. eapply data_frame; [exact Hd|exact Hsh|done|done| |].
  { rewrite Hs. apply range_insert; [apply range_insert; [apply Hd|done]|done]. }
  injection Hyq as Hyq1 Hyq2. injection Hyf as Hyf1 Hyf2. injection Hb' as Hb1 Hb2 Hb3.
  intros m' b1 [Hb1' Hf1]. rewrite Hm, lookup_insert in Hb1'. case_decide as Hmm.
  - subst m'. injection Hb1' as <-. exists q'. split; [done|done| |].
    + exists yq. unfold live_sem. rewrite Hb2, Hs, lookup_insert_eq. split; [|done]. split; congruence.
    + exists yf. unfold live_sem. rewrite Hb3, Hs, lookup_insert_ne, lookup_insert_eq by done.
      split; [|done]. split; congruence.
  - destruct (do_mbox _ Hd m' b1 (conj Hb1' Hf1)) as [q Hq]. exists q.
    eapply mbox_ok_frame; [exact Hq| |].
    + rewrite Hlog, hist_snoc. apply Hhist. congruence.
    + intros i x Hi [Hx Hxf']. exists x. unfold live_sem. rewrite Hs.
      assert (owns s m' i) as Ho by (exists b1; done).
      assert (∀ j, owns s m j → j ≠ i) as Hne.
      { intros j Hj <-. apply Hmm. by apply (do_own _ Hd m m' j). }
      rewrite !lookup_insert_ne; [done|..]; apply Hne; exists b; unfold live; auto.
Qed.

Lemma signal_ok s t l k i x Q E :
  live_sem s i x → th_ok t (n_th s) l k →
  (∀ t' x', th_ok t t' l k → cur_tc t' = cur_tc (n_th s) → regs t' = regs (n_th s) →
     sem_shape x' = sem_shape x → sem_counter x' = u16 (sem_counter x + 1) →
     (sem_waiters x' = sem_waiters x ∨ sem_waiters x' = 0) →
     Q tt (set_th t' (set_sems (<[i := x']> (sems s)) s))) →
  wpx (sys_sem_signal sems_base i) s Q E.
Proof.
  intros [Hx Hf] Ht HQ. unfold sys_sem_signal. wp_steps. eapply sem_at_ok; [done|]. wp_steps.
  apply assert_true; [by rewrite Hf|]. wp_steps. unfold sem_set. wp_steps.
  destruct (negb _) eqn:Hw; cbn [when].
  - wp_steps. apply wpx_lift. eapply th_wakeup; [exact Ht|]. intros t' Ht' Hc Hr.
    cbn [sems set_sems n_th]. rewrite insert_insert_eq. apply HQ; auto.
  - wp_steps. assert (∀ z, set_sems z s = set_th (n_th s) (set_sems z s)) as -> by done. apply HQ; auto.
Qed.

(** A counter that changed, the waiters kept or reset. *)
Lemma range_counter x y :
  sem_range x → 0 ≤ sem_counter y < 2 ^ 16 → (sem_waiters y = sem_waiters x ∨ sem_waiters y = 0) →
  sem_range y.
Proof. intros [_ Hw] Hc Hy. split; [done|]. destruct Hy as [-> | ->]; auto. Qed.

Lemma u16_range x : 0 ≤ u16 x < 2 ^ 16.
Proof. apply Z.mod_pos_bound. lia. Qed.

(** What a completed call leaves: the invariant, in the same thread. *)
Record done_step (s s' : net) (l k : list Z) (log : list ev) : Prop := {
  ds_data : data_ok s';
  ds_shape : same_shape s s';
  ds_clock : n_clock s' = n_clock s;
  ds_th : th_ok s (n_th s') l k;
  ds_cur : cur_tc (n_th s') = cur_tc (n_th s);
  ds_log : n_log s' = n_log s ++ log
}.

Definition taken (s : net) (i : Z) (x : sys_sem_entry) : net :=
  set_sems (<[i := set_counter (u16 (sem_counter x - 1)) x]> (sems s)) s.

Lemma post_rest_ok s l k m b msg x Q E :
  data_ok s → th_ok s (n_th s) l k → live s m b → live_sem s (free_msg b) x → 0 < sem_counter x →
  (∀ s', done_step s s' l k [EvPosted m msg] → Q ERR_OK s') →
  wpx (trypost_rest sems_base m msg) (taken s (free_msg b) x) Q E.
Proof.
  intros Hd Ht [Hb Hbf] [Hx Hxf] Hpos HQ. unfold trypost_rest. wp_steps.
  eapply mbox_at_ok; [done|]. destruct (do_mbox _ Hd m b (conj Hb Hbf)) as [q [Hrep Hfifo Hq Hf]].
  destruct Hq as (xq & [Hxq Hqf] & Hcq). destruct Hf as (xf & [Hxf' _] & Hcf).
  assert (xf = x) as -> by congruence. pose proof (mr_len _ _ Hrep) as Hlen. unfold MBOXSLOTS in Hcf.
  rewrite (proj2 (Z.eqb_neq _ _)) by (eapply rep_full; [done|unfold MBOXSLOTS; lia]).
  wp_steps. unfold mbox_set. wp_steps.
  change (if mb_head _ =? -1 then _ else _) with (put_entry msg b).
  pose proof (do_two _ Hd m b (conj Hb Hbf)) as H2.
  assert (mbox_shape (put_entry msg b) = mbox_shape b) as Hsh by (unfold put_entry; by case_match).
  assert (queued_msg (put_entry msg b) = queued_msg b) as -> by (injection Hsh; congruence).
  eapply (signal_ok _ s l k _ xq).
  { split; [|done]. cbn. by rewrite lookup_insert_ne. }
  { exact Ht. }
  intros t' x' Ht' Hc Hr Hxs Hxc Hxw. wp_steps. apply HQ.
  set (s' := set_th t' _).
  assert (hist m (n_log s') = (posted m s ++ [msg], fetched m s)) as Hh.
  { change (n_log s') with (n_log s ++ [EvPosted m msg]). rewrite hist_snoc. cbn [hist1]. by rewrite Z.eqb_refl. }
  destruct (data_move s s' m b (put_entry msg b) xq x x' (set_counter (u16 (sem_counter x - 1)) x)
    (EvPosted m msg) (q ++ [msg])) as [Hd' Hs']; try done.
  - apply (range_counter xq); [by eapply (do_range _ Hd)| |exact Hxw]. rewrite Hxc. apply u16_range.
  - apply (range_counter x); [by eapply (do_range _ Hd)|apply u16_range|by left].
  - cbn. intros m' h Hm. by rewrite (proj2 (Z.eqb_neq _ _)).
  - apply rep_put; [done|]. unfold MBOXSLOTS; lia.
  - rewrite Hxc, Hcq, length_app. cbn. unfold MBOXSLOTS in Hlen. rewrite u16_id; lia.
  - cbn. rewrite length_app. unfold MBOXSLOTS in *. rewrite u16_id; cbn; lia.
  - unfold posted at 1, fetched at 1. rewrite Hh. cbn. rewrite Hfifo. by rewrite app_assoc.
Qed.

Lemma fetch_rest_ok s l k m b w x Q E :
  data_ok s → th_ok s (n_th s) l k → live s m b → live_sem s (queued_msg b) x → 0 < sem_counter x →
  w ≠ SYS_ARCH_TIMEOUT →
  (∀ s' msg r, done_step s s' l k [EvFetched m msg] → posted m s = fetched m s ++ msg :: r → Q tt s') →
  wpx (fetch_rest sems_base m w) (taken s (queued_msg b) x) Q E.
Proof.
  intros Hd Ht [Hb Hbf] [Hx Hxf] Hpos Hw HQ. unfold fetch_rest.
  rewrite (proj2 (Z.eqb_neq _ _)) by done. wp_steps.
  eapply mbox_at_ok; [done|]. destruct (do_mbox _ Hd m b (conj Hb Hbf)) as [q [Hrep Hfifo Hq Hf]].
  destruct Hq as (xq & [Hxq _] & Hcq). destruct Hf as (xf & [Hxf' Hff] & Hcf).
  assert (xq = x) as -> by congruence. destruct q as [|msg q]; [cbn in Hcq; lia|].
  destruct (rep_take _ _ _ Hrep) as (Hmsg & Hhd & Hrep').
  pose proof (mr_len _ _ Hrep) as Hlen. unfold MBOXSLOTS in Hcf, Hlen. cbn [length] in *.
  rewrite (proj2 (Z.eqb_neq _ _)) by done. wp_steps. unfold mbox_set. wp_steps.
  change (if mb_head _ =? _ then _ else _) with (take_entry b). rewrite Hmsg.
  pose proof (do_two _ Hd m b (conj Hb Hbf)) as H2.
  assert (mbox_shape (take_entry b) = mbox_shape b) as Hsh by (unfold take_entry; by case_match).
  assert (free_msg (take_entry b) = free_msg b) as -> by (injection Hsh; congruence).
  eapply (signal_ok _ s l k _ xf).
  { split; [|done]. cbn. by rewrite lookup_insert_ne. }
  { exact Ht. }
  intros t' x' Ht' Hc Hr Hxs Hxc Hxw. set (s' := set_th t' _).
  assert (hist m (n_log s') = (posted m s, fetched m s ++ [msg])) as Hh.
  { change (n_log s') with (n_log s ++ [EvFetched m msg]). rewrite hist_snoc. cbn [hist1]. by rewrite Z.eqb_refl. }
  destruct (data_move s s' m b (take_entry b) x xf (set_counter (u16 (sem_counter x - 1)) x) x'
    (EvFetched m msg) q) as [Hd' Hs']; try done.
  - apply (range_counter x); [by eapply (do_range _ Hd)|apply u16_range|by left].
  - apply (range_counter xf); [by eapply (do_range _ Hd)| |exact Hxw]. rewrite Hxc. apply u16_range.
  - cbn. rewrite insert_insert_ne by done. done.
  - cbn. intros m' h Hm. by rewrite (proj2 (Z.eqb_neq _ _)).
  - cbn. rewrite u16_id; lia.
  - rewrite Hxc, Hcf. unfold MBOXSLOTS. rewrite u16_id; lia.
  - unfold posted at 1, fetched at 1. rewrite Hh. cbn. by rewrite Hfifo, <- app_assoc.
  - by apply (HQ s' msg q).
Qed.

Definition no_hist (e : ev) : Prop := ∀ m h, hist1 m h e = h.

Lemma data_add_log s e : data_ok s → no_hist e → data_ok (add_log e s).
Proof.
  intros Hd He. eapply data_frame; [exact Hd|by split|done|done|apply Hd|].
  intros m b Hb. destruct (do_mbox _ Hd m b Hb) as [q Hq]. exists q.
  eapply mbox_ok_frame; [exact Hq| |eauto]. cbn [n_log add_log]. by rewrite hist_snoc.
Qed.

Lemma data_set_th s t : data_ok s → data_ok (set_th t s).
Proof.
  intros Hd. eapply data_frame; [exact Hd|by split|done|done|apply Hd|].
  intros m b Hb. destruct (do_mbox _ Hd m b Hb) as [q Hq]. exists q.
  eapply mbox_ok_frame; [exact Hq|done|eauto].
Qed.

Lemma data_tick s : data_ok s → data_ok (tick s).
Proof.
  intros Hd. eapply data_frame; [exact Hd|by split|done|done|apply Hd|].
  intros m b Hb. destruct (do_mbox _ Hd m b Hb) as [q Hq]. exists q.
  eapply mbox_ok_frame; [exact Hq|done|eauto].
Qed.

Lemma shape_add_log s s' e : same_shape s s' → same_shape s (add_log e s').
Proof. intros []. by split. Qed.

(** Back to other code. *)
Lemma goto_run_ok s s' l k (Q : unit → net → Prop) E :
  data_ok s' → same_shape s s' → n_clock s' = n_clock s → th_ok s (n_th s') l k →
  (∀ s2, net_ok s2 → regs (n_th s2) = PRun → n_log s2 = n_log s' → Q tt s2) → wpx (goto PRun) s' Q E.
Proof.
  intros Hd Hs Hc Ht HQ. unfold goto. apply wpx_lift. wp_steps. apply HQ; [|done|done].
  split; [|by apply data_set_th].
  exists l, k. apply th_regs; [|done|done].
  assert (th_ok s' (n_th s') l k) as Ht' by (eapply th_ok_shape; [done|by rewrite Hc|done]).
  apply (th_ok_shape s'); [by split|reflexivity|exact Ht'].
Qed.

(** What the waiting call did when it obtained its semaphore. *)
Definition returned (s s' : net) (kt : kont) (w : swait) : Prop :=
  regs (n_th s') = PRun ∧
  match kt with
  | KSem => n_log s' = n_log s ++ [EvSem (w_sem w) (w_waited w)]
  | KPost m x => n_log s' = n_log s ++ [EvPosted m x]
  | KTrypost m x => n_log s' = n_log s ++ [EvPosted m x; EvErr m ERR_OK]
  | KFetch m => ∃ x r, posted m s = fetched m s ++ x :: r ∧ n_log s' = n_log s ++ [EvFetched m x]
  end.

Lemma return_taken_ok s l k kt w t x Q E :
  data_ok s → th_ok s (n_th s) l k → wait_ok s kt w t → live_sem s (w_sem w) x →
  0 < sem_counter x → w_waited w ≠ SYS_ARCH_TIMEOUT →
  (∀ s', net_ok s' → returned s s' kt w → Q tt s') →
  wpx (wait_return sems_base kt (w_sem w) (w_waited w)) (taken s (w_sem w) x) Q E.
Proof.
  intros Hd Ht (Hw & (x' & Hx' & Hg) & Hk) Hx Hpos Hto HQ. unfold wait_return. wp_steps.
  destruct kt as [|m msg|m msg|m].
  - wp_steps. eapply (goto_run_ok s _ l k); [|by eapply shape_add_log, set_sem_shape; [apply Hx|]|done|done|].
    + apply data_add_log; [|done]. eapply data_set_sem; [done|exact Hx|done| |by right].
      apply (range_counter x); [exact (do_range _ Hd _ _ (proj1 Hx))|apply u16_range|by left].
    + intros s2 Hn Hr Hl. by apply HQ.
  - destruct Hk as (_ & b & Hb & Hf). rewrite <- Hf in *. wp_steps.
    eapply post_rest_ok; [done..|]. intros s' [Hd' Hs' Hc' Ht' _ Hl']. apply assert_true; [done|].
    eapply (goto_run_ok s); [done..|]. intros s2 Hn Hr Hl. apply HQ; [done|]. split; [done|]. by rewrite Hl.
  - destruct Hk as (_ & b & Hb & Hf). rewrite <- Hf in *. wp_steps.
    eapply post_rest_ok; [done..|]. intros s' [Hd' Hs' Hc' Ht' _ Hl']. wp_steps.
    eapply (goto_run_ok s _ l k); [by apply data_add_log|by apply shape_add_log|done|done|].
    intros s2 Hn Hr Hl. apply HQ; [done|]. split; [done|]. rewrite Hl. cbn. by rewrite Hl', <- app_assoc.
  - destruct Hk as (b & Hb & Hq). rewrite <- Hq in *.
    eapply fetch_rest_ok; [done..|]. intros s' msg r [Hd' Hs' Hc' Ht' _ Hl'] Hp.
    eapply (goto_run_ok s); [done..|]. intros s2 Hn Hr Hl. apply HQ; [done|]. split; [done|].
    exists msg, r. by rewrite Hl.
Qed.

Lemma return_timeout_ok s l k kt w t Q E :
  data_ok s → th_ok s (n_th s) l k → wait_ok s kt w t → w_tm w ≠ 0 →
  (∀ s', net_ok s' → Q tt s') →
  wpx (wait_return sems_base kt (w_sem w) SYS_ARCH_TIMEOUT) s Q E.
Proof.
  intros Hd Ht (Hw & _ & Hk) Htm HQ. unfold wait_return. wp_steps.
  destruct kt as [|m msg|m msg|m]; [|by destruct Hk|by destruct Hk|].
  - wp_steps. eapply (goto_run_ok s _ l k); [by apply data_add_log|by apply shape_add_log|done|done|auto].
  - unfold fetch_rest. rewrite Z.eqb_refl. wp_steps.
    eapply (goto_run_ok s _ l k); [by apply data_add_log|by apply shape_add_log|done|done|auto].
Qed.

(** ** The steps of a waiting thread keep the invariant *)

(** sys_time_msec has not wrapped (it does after 49 days). *)
Context (clock_mono : ∀ n, 0 ≤ clock n ≤ clock (S n)) (clock_max : ∀ n, clock n < 2 ^ 32 - 1).

Lemma time_ok s Q E : Q (clock (n_clock s)) (tick s) → wpx (sys_time_msec clock) s Q E.
Proof.
  intros HQ. unfold sys_time_msec. wp_steps. pose proof (clock_mono (n_clock s)).
  pose proof (clock_max (n_clock s)). pow2. by rewrite u32_id by lia.
Qed.

Lemma th_tick s t l k : th_ok s t l k → th_ok (tick s) t l k.
Proof. apply th_ok_shape; [by split|apply clock_mono]. Qed.

Lemma running_wait s l k : th_ok s (n_th s) l k → regs (n_th s) ≠ PRun → cur_tc (n_th s) ≠ 0.
Proof. intros Ht Hr Hc. by apply Hr, (to_run _ _ _ _ Ht). Qed.

(** Ending a step by moving the running thread to [p]. *)
Lemma goto_ok s l k p (Q : unit → net → Prop) E :
  data_ok s → th_ok s (n_th s) l k → cur_tc (n_th s) ≠ 0 → pc_ok s p →
  (∀ s', net_ok s' → Q tt s') → wpx (goto p) s Q E.
Proof.
  intros Hd Ht Hc Hp HQ. unfold goto. apply wpx_lift. wp_steps. apply HQ. split; [|by apply data_set_th].
  exists l, k. apply th_regs; [|apply (pc_ok_shape s); [by split|reflexivity|done]|done].
  apply (th_ok_shape s); [by split|reflexivity|done].
Qed.

Lemma loop_step_ok s kt w :
  net_ok s → regs (n_th s) = PLoop kt w →
  wpx (loop_step clock sems_base kt w) s (λ _ s', net_ok s') (λ _ _, True).
Proof.
  intros [(l & k & Ht) Hd] Hr. pose proof (proj1 (to_pcs _ _ _ _ Ht)) as Hp. rewrite Hr in Hp.
  cbn in Hp. pose proof Hp as (Hw & (x & Hx & Hg) & Hk). unfold loop_step.
  destruct ((w_tm w =? 0) || (w_waited w <? w_tm w)) eqn:Htm.
  2: { apply orb_false_iff in Htm as [Htm _]. apply Z.eqb_neq in Htm.
       eapply return_timeout_ok; [done..|exact Hp|done|done]. }
  wp_steps. eapply sem_at_ok; [apply Hx|]. destruct (0 <? sem_counter x) eqn:Hc.
  { apply Z.ltb_lt in Hc. unfold sem_set. wp_steps. fold (taken s (w_sem w) x).
    eapply return_taken_ok; [done..|exact Hp|done|done| |done].
    unfold SYS_ARCH_TIMEOUT. pose proof (clock_max (n_clock s)). lia. }
  destruct (w_tm w =? SYS_ARCH_NOWAIT) eqn:Hnw.
  { apply Z.eqb_eq in Hnw. eapply return_timeout_ok; [done..|exact Hp| |done].
    rewrite Hnw. unfold SYS_ARCH_NOWAIT. lia. }
  wp_steps. apply time_ok. unfold sem_set. wp_steps. apply time_ok. wp_steps. apply wpx_lift.
  set (s1 := set_sems _ (tick s)).
  assert (sem_range (set_waiters 1 x)) as Hrx by (split; [apply (do_range _ Hd _ _ (proj1 Hx))|by right]).
  assert (same_shape (tick s) s1) as Hsh by (eapply set_sem_shape; [apply Hx|done]).
  assert (data_ok s1) as Hd1 by (eapply data_set_sem; [by apply data_tick|exact Hx|done|exact Hrx|by left]).
  assert (cur_tc (n_th s) ≠ 0) as Hcur by (eapply running_wait; [exact Ht|by rewrite Hr]).
  assert (th_ok (tick s1) (n_th s) l k) as Ht1.
  { apply th_tick, (th_ok_shape (tick s)); [done|reflexivity|by apply th_tick]. }
  eapply th_set_wait; [exact Ht1|done|]. intros t' c Ht' Hcur' _ _.
  eapply (goto_ok (set_th t' (tick s1)) l k); [by apply data_set_th, data_tick| |cbn; by rewrite Hcur'| |done].
  { apply (th_ok_shape (tick s1)); [by split|reflexivity|done]. }
  split.
  - apply (wait_ok_shape s _ _ _ (clock (n_clock s))); [| |reflexivity|done].
    + destruct Hsh. by split.
    + cbn. pose proof (clock_mono (n_clock s)). pose proof (clock_mono (S (n_clock s))). lia.
  - cbn. pose proof (clock_mono (n_clock s)). pose proof (clock_mono (S (n_clock s))). split; [lia|].
    apply Z.ltb_ge in Hc. destruct (do_range _ Hd _ _ (proj1 Hx)) as [Hcr _]. unfold sem_v. cbn. lia.
Qed.

Lemma wait_step_ok s kt w a val until s0 p :
  net_ok s → regs (n_th s) = PWait kt w a val until s0 p →
  wpx (wait_step clock sems_base kt w a val until s0 p) s (λ _ s', net_ok s') (λ _ _, True).
Proof.
  intros [(l & k & Ht) Hd] Hr. pose proof (proj1 (to_pcs _ _ _ _ Ht)) as Hp. rewrite Hr in Hp.
  cbn in Hp. destruct Hp as (Hw & Ha & Hval). pose proof Hw as (Hwt & (x & Hx & Hg) & Hk).
  assert (cur_tc (n_th s) ≠ 0) as Hcur by (eapply running_wait; [exact Ht|by rewrite Hr]).
  destruct (current_in _ _ _ (to_th _ _ _ _ Ht) Hcur) as (_ & _ & c & Hc).
  unfold wait_step. wp_steps. eapply sem_at_ok; [apply Hx|]. wp_steps. apply wpx_lift.
  unfold thread_wait_more. wp_steps. eapply tderef_ok; [done|]. wp_steps.
  replace (set_th (n_th s) s) with s by (by destruct s).
  destruct (_ && _).
  - wp_steps. unfold goto. apply wpx_lift. wp_steps. apply wpx_lift.
    eapply (th_yield s _ l k); [by apply th_regs|].
    intros b t' l' Ht'. wp_steps. split; [exists l', k|by apply data_set_th, data_set_th].
    apply (th_ok_shape s); [by split|reflexivity|done].
  - wp_steps. apply wpx_lift. eapply th_set_wait; [exact Ht|done|]. intros t' c' Ht' Hcur' _ _.
    rewrite Hg, Z.eqb_refl. cbn [negb]. wp_steps. apply time_ok.
    eapply (goto_ok (tick (set_th t' s)) l k).
    + by apply data_tick, data_set_th.
    + apply th_tick, (th_ok_shape s); [by split|reflexivity|done].
    + cbn. by rewrite Hcur'.
    + cbn. pose proof (clock_mono (n_clock s)). pose proof (clock_max (n_clock s)). pow2.
      rewrite u32_id by lia. apply (wait_ok_shape s) with (clock (n_clock s)); [by split|cbn; lia|lia|].
      split; [cbn; lia|]. split; [by exists x|]. exact Hk.
    + done.
Qed.

Lemma resume_step_ok s kt w a val until s0 :
  net_ok s → regs (n_th s) = PYield kt w a val until s0 →
  wpx (resume_step clock kt w a val until s0) s (λ _ s', net_ok s') (λ _ _, True).
Proof.
  intros [(l & k & Ht) Hd] Hr. pose proof (proj1 (to_pcs _ _ _ _ Ht)) as Hp. rewrite Hr in Hp.
  cbn in Hp. assert (cur_tc (n_th s) ≠ 0) as Hcur by (eapply running_wait; [exact Ht|by rewrite Hr]).
  unfold resume_step. wp_steps. apply time_ok.
  eapply (goto_ok _ l k); [by apply data_tick|by apply th_tick|done| |done].
  apply (pc_ok_shape s); [by split|apply clock_mono|done].
Qed.

(** ** Allocation *)

Lemma owned_live s m i : data_ok s → owns s m i → ∃ x, live_sem s i x.
Proof.
  intros Hd (b & Hb & Hi). destruct (do_mbox _ Hd m b Hb) as [q [_ _ (xq & Hq & _) (xf & Hf & _)]].
  destruct Hi as [-> | ->]; eauto.
Qed.

Definition sem_allocated (i : Z) (rest : list Z) (y : sys_sem_entry) (s : net) : net :=
  set_sems (<[i := y]> (sems s)) (set_sem_free rest s).

Lemma data_sem_new s i rest x y :
  data_ok s → sem_free s = i :: rest → sems s !! i = Some x → sem_freed x = true → sem_freed y = false →
  sem_range y →
  data_ok (sem_allocated i rest y s) ∧ keeps (λ _, False) s (sem_allocated i rest y s) ∧
  client (sem_allocated i rest y s) i.
Proof.
  intros Hd Hfree Hx Hfx Hfy Hry. pose proof Hd as [].
  rewrite Hfree in do_sem_nodup0. apply list.NoDup_cons in do_sem_nodup0 as [Hni Hnd].
  assert (∀ j z, live_sem s j z → live_sem (sem_allocated i rest y s) j z) as Hkeep.
  { intros j z [Hz Hfz]. split; [|done]. cbn. rewrite lookup_insert_ne; [done|]. intros ->. congruence. }
  split; [split; try done; [by apply range_insert|..]|].
  - intros j. cbn. rewrite lookup_insert_is_Some, <- do_sems0.
    destruct (decide (i = j)) as [<-|]; [|naive_solver]. rewrite Hx. naive_solver.
  - intros j. cbn. rewrite lookup_insert. specialize (do_sem_free0 j). rewrite Hfree in do_sem_free0.
    case_decide as Hj.
    + subst j. split; [done|]. intros (? & [= <-] & ?). congruence.
    + rewrite <- do_sem_free0, elem_of_cons. naive_solver.
  - intros m b Hb. destruct (do_mbox0 m b Hb) as [q Hq]. exists q.
    eapply mbox_ok_frame; [exact Hq|done|]. eauto.
  - split; [split|].
    + eauto.
    + eauto.
    + done.
    + reflexivity.
    + intros m Ho. destruct (owned_live s m i Hd Ho) as (z & Hz & Hfz). congruence.
Qed.

(** A semaphore handed back by the client that has it. *)
Definition sem_released (i : Z) (y : sys_sem_entry) (s : net) : net :=
  set_sem_free (i :: sem_free s) (set_sems (<[i := y]> (sems s)) s).

Lemma data_sem_free s i x y :
  data_ok s → live_sem s i x → client s i → sem_freed y = true → sem_range y →
  data_ok (sem_released i y s) ∧ keeps (λ j, j = i) s (sem_released i y s).
Proof.
  intros Hd [Hx Hfx] Hcl Hfy Hry. pose proof Hd as [].
  assert (∀ j z, live_sem s j z → j ≠ i → live_sem (sem_released i y s) j z) as Hkeep.
  { intros j z [Hz Hfz] Hj. split; [|done]. cbn. by rewrite lookup_insert_ne. }
  split; [split; try done; [by apply range_insert|..]|].
  - intros j. cbn. rewrite lookup_insert_is_Some, <- do_sems0.
    destruct (decide (i = j)) as [<-|]; [|naive_solver]. rewrite Hx. naive_solver.
  - cbn. apply list.NoDup_cons. split; [|done]. rewrite do_sem_free0. intros (z & Hz & Hfz). congruence.
  - intros j. cbn. rewrite lookup_insert, elem_of_cons, do_sem_free0. case_decide as Hj.
    + subst j. naive_solver.
    + naive_solver.
  - intros m b Hb. destruct (do_mbox0 m b Hb) as [q Hq]. exists q.
    eapply mbox_ok_frame; [exact Hq|done|]. intros j z Hj Hz. exists z. split; [|done].
    apply Hkeep; [done|]. intros ->. apply (Hcl m). by exists b.
  - split; [|eauto|done|reflexivity]. intros j z Hz Hj. eauto.
Qed.

(** A mailbox over two semaphores of the client. *)
Definition mbox_allocated (m : Z) (rest : list Z) (b : sys_mbox_entry) (s : net) : net :=
  add_log (EvNew m) (set_mboxes (<[m := b]> (mboxes s)) (set_mbox_free rest s)).

Lemma data_mbox_new s m rest b0 b xq xf :
  data_ok s → mbox_free s = m :: rest → mboxes s !! m = Some b0 → mb_freed b0 = true →
  mb_freed b = false → mb_head b = -1 → mb_nextq b = 0 → queued_msg b ≠ free_msg b →
  live_sem s (queued_msg b) xq → sem_counter xq = 0 → client s (queued_msg b) →
  live_sem s (free_msg b) xf → sem_counter xf = MBOXSLOTS → client s (free_msg b) →
  data_ok (mbox_allocated m rest b s).
Proof.
  intros Hd Hfree Hm Hfm Hfb Hhd Hnx Hne Hq Hcq Hclq Hf Hcf Hclf. pose proof Hd as [].
  rewrite Hfree in do_mbox_nodup0. apply list.NoDup_cons in do_mbox_nodup0 as [Hni Hnd].
  set (s' := mbox_allocated m rest b s).
  assert (∀ m' b', live s' m' b' → (m' = m ∧ b' = b) ∨ (m' ≠ m ∧ live s m' b')) as Hlive.
  { intros m' b' [Hb' Hf']. cbn in Hb'. rewrite lookup_insert in Hb'. case_decide as Hmm.
    - injection Hb' as ->. auto.
    - right. split; [congruence|done]. }
  assert (∀ m' i, owns s' m' i → (m' = m ∧ (i = queued_msg b ∨ i = free_msg b)) ∨ (m' ≠ m ∧ owns s m' i)) as Hown.
  { intros m' i (b' & Hb' & Hi). destruct (Hlive _ _ Hb') as [[-> ->]|[Hmm Hb1]]; [by left|].
    right. split; [done|]. by exists b'. }
  split; try done.
  - intros j. cbn. rewrite lookup_insert_is_Some, <- do_mboxes0.
    destruct (decide (m = j)) as [<-|]; [|naive_solver]. rewrite Hm. naive_solver.
  - intros j. cbn. rewrite lookup_insert. specialize (do_mbox_free0 j). rewrite Hfree in do_mbox_free0.
    case_decide as Hj.
    + subst j. split; [done|]. intros (? & [= <-] & ?). congruence.
    + rewrite <- do_mbox_free0, elem_of_cons. naive_solver.
  - intros m' b' Hb'. destruct (Hlive _ _ Hb') as [[-> ->]|[Hmm Hb1]].
    + exists []. split.
      * split; cbn; rewrite ?Hhd, ?Hnx; unfold MBOXSLOTS; try done; lia.
      * unfold posted, fetched. change (n_log s') with (n_log s ++ [EvNew m]).
        rewrite hist_snoc. cbn [hist1]. by rewrite Z.eqb_refl.
      * by exists xq.
      * exists xf. split; [done|]. cbn. lia.
    + destruct (do_mbox0 m' b' Hb1) as [q Hq']. exists q. eapply mbox_ok_frame; [exact Hq'| |eauto].
      change (n_log s') with (n_log s ++ [EvNew m]). rewrite hist_snoc. cbn [hist1].
      by rewrite (proj2 (Z.eqb_neq _ _)).
  - intros m1 m2 i H1 H2.
    destruct (Hown _ _ H1) as [[-> Hi1]|[Hn1 Ho1]], (Hown _ _ H2) as [[-> Hi2]|[Hn2 Ho2]]; [done|..].
    + destruct Hi1 as [-> | ->]; [by destruct (Hclq m2)|by destruct (Hclf m2)].
    + destruct Hi2 as [-> | ->]; [by destruct (Hclq m1)|by destruct (Hclf m1)].
    + by apply (do_own0 m1 m2 i).
  - intros m' b' Hb'. destruct (Hlive _ _ Hb') as [[-> ->]|[Hmm Hb1]]; [done|by eapply do_two0].
Qed.

(** Freeing a mailbox frees its semaphores. *)
Definition mbox_released (m : Z) (b : sys_mbox_entry) (yq yf : sys_sem_entry) (s : net) : net :=
  set_mboxes (<[m := set_mb_freed true b]> (mboxes s))
    (set_mbox_free (m :: mbox_free s)
      (sem_released (free_msg b) yf (sem_released (queued_msg b) yq s))).

Lemma data_mbox_free s m b yq yf :
  data_ok s → live s m b → sem_freed yq = true → sem_freed yf = true → sem_range yq → sem_range yf →
  let s' := mbox_released m b yq yf s in
  data_ok s' ∧ keeps (λ j, j = queued_msg b ∨ j = free_msg b) s s'.
Proof.
  intros Hd Hb Hyq Hyf Hrq Hrf s'. pose proof Hd as []. pose proof (do_two0 m b Hb) as H2.
  destruct (do_mbox0 m b Hb) as [q0 [_ _ (xq & [Hxq Hfq] & _) (xf & [Hxf Hff] & _)]].
  assert (∀ j z, live_sem s j z → j ≠ queued_msg b → j ≠ free_msg b → live_sem s' j z) as Hkeep.
  { intros j z [Hz Hfz] Hj1 Hj2. split; [|done]. cbn. by rewrite !lookup_insert_ne. }
  assert (∀ m' b', live s' m' b' → m' ≠ m ∧ live s m' b') as Hlive.
  { intros m' b' [Hb' Hf']. cbn in Hb'. rewrite lookup_insert in Hb'. case_decide as Hmm.
    - injection Hb' as <-. done.
    - split; [congruence|done]. }
  assert (∀ m' i, owns s' m' i → m' ≠ m ∧ owns s m' i) as Hown.
  { intros m' i (b' & Hb' & Hi). destruct (Hlive _ _ Hb') as [Hmm Hb1]. split; [done|]. by exists b'. }
  assert (∀ m' i, owns s' m' i → i ≠ queued_msg b ∧ i ≠ free_msg b) as Hne.
  { intros m' i [Hmm Ho]%Hown. split; intros ->; apply Hmm; eapply do_own0; try done; exists b; auto. }
  destruct Hb as [Hb Hfb].
  assert (queued_msg b ∉ sem_free s) as Hniq by (rewrite do_sem_free0; intros (z & Hz & Hfz); congruence).
  assert (free_msg b ∉ sem_free s) as Hnif by (rewrite do_sem_free0; intros (z & Hz & Hfz); congruence).
  assert (m ∉ mbox_free s) as Hnim by (rewrite do_mbox_free0; intros (z & Hz & Hfz); congruence).
  split; [split; try done; [exact (range_insert _ _ _ (range_insert _ _ _ do_range0 Hrq) Hrf)|..]|].
  - intros j. cbn. rewrite !lookup_insert_is_Some, <- do_sems0.
    destruct (decide (free_msg b = j)) as [<-|Hj1]; [rewrite Hxf; split; [eauto|by left]|].
    destruct (decide (queued_msg b = j)) as [<-|Hj2]; [rewrite Hxq; split; [eauto|auto]|].
    clear -Hj1 Hj2. naive_solver.
  - intros j. cbn. rewrite lookup_insert_is_Some, <- do_mboxes0.
    destruct (decide (m = j)) as [<-|]; [|naive_solver]. rewrite Hb. naive_solver.
  - cbn. apply list.NoDup_cons. split; [|by apply list.NoDup_cons].
    rewrite elem_of_cons. intros [He|He]; [congruence|done].
  - intros j. cbn. rewrite !lookup_insert, !elem_of_cons, do_sem_free0. clear -Hyq Hyf H2.
    destruct (decide (free_msg b = j)); [naive_solver|].
    destruct (decide (queued_msg b = j)); naive_solver.
  - cbn. by apply list.NoDup_cons.
  - intros j. cbn. rewrite lookup_insert, elem_of_cons, do_mbox_free0. clear.
    destruct (decide (m = j)); naive_solver.
  - intros m' b' Hb'. destruct (Hlive _ _ Hb') as [Hmm Hb1]. destruct (do_mbox0 m' b' Hb1) as [q Hq].
    exists q. eapply mbox_ok_frame; [exact Hq|done|]. intros j z Hj Hz. exists z. split; [|done].
    destruct (Hne m' j) as [? ?]; [by exists b'|]. by apply Hkeep.
  - intros m1 m2 i [_ H1]%Hown [_ H3]%Hown. by eapply do_own0.
  - intros m' b' [_ Hb']%Hlive. by eapply do_two0.
  - split; [| | |reflexivity].
    + intros j z Hz Hj. exists z. split; [|done]. apply Hkeep; [done|tauto..].
    + intros m' b' Hb' HF. exists b'. split; [|done]. destruct Hb' as [Hb' Hf']. split; [|done].
      cbn. rewrite lookup_insert_ne; [done|]. intros <-. rewrite Hb in Hb'. injection Hb' as ->. tauto.
    + intros i x _ _ Hcl m' [_ Ho]%Hown. by apply (Hcl m').
Qed.

Lemma range_new c x :
  sem_range x → sem_range (set_gen (i32 (sem_gen x + 1)) (set_counter (u8 c) (set_freed false x))).
Proof.
  intros [_ Hw]. split; [|done]. cbn. pose proof (Z.mod_pos_bound c (2 ^ 8) ltac:(lia)).
  unfold u8. pow2. lia.
Qed.

(** ** The calls on every branch *)

Lemma sem_new_ok c s Q E :
  (∀ i, i ∈ sem_free s → ∃ x, sems s !! i = Some x ∧ sem_freed x = true) →
  (sem_free s = [] → Q SYS_SEM_NULL s) →
  (∀ i rest x, sem_free s = i :: rest → sems s !! i = Some x → sem_freed x = true →
     Q i (sem_allocated i rest (set_gen (i32 (sem_gen x + 1)) (set_counter (u8 c) (set_freed false x))) s)) →
  wpx (sys_sem_new c) s Q E.
Proof.
  intros Hf H0 H1. unfold sys_sem_new. wp_steps. destruct (sem_free s) as [|i rest] eqn:Hfree.
  { wp_steps. auto. }
  destruct (Hf i) as (x & Hx & Hfx); [left|]. wp_steps. eapply sem_at_ok; [done|]. wp_steps.
  apply assert_true; [done|]. unfold sem_set. wp_steps. by apply (H1 i rest x).
Qed.

Lemma sem_free_ok i x s Q E :
  live_sem s i x →
  Q tt (sem_released i (set_gen (i32 (sem_gen x + 1)) (set_freed true x)) s) →
  wpx (sys_sem_free i) s Q E.
Proof.
  intros [Hx Hf] HQ. unfold sys_sem_free. wp_steps. eapply sem_at_ok; [done|]. wp_steps.
  apply assert_true; [by rewrite Hf|]. unfold sem_set. by wp_steps.
Qed.

Lemma mbox_free_ok m b s Q E :
  data_ok s → live s m b →
  (∀ yq yf, sem_freed yq = true → sem_freed yf = true → sem_range yq → sem_range yf →
     Q tt (mbox_released m b yq yf s)) →
  wpx (sys_mbox_free m) s Q E.
Proof.
  intros Hd Hb HQ. pose proof (do_two _ Hd m b Hb) as H2.
  destruct (do_mbox _ Hd m b Hb) as [q0 [_ _ (xq & [Hxq Hfq] & _) (xf & [Hxf Hff] & _)]].
  destruct Hb as [Hb Hfb]. unfold sys_mbox_free. wp_steps. eapply mbox_at_ok; [done|]. wp_steps.
  apply assert_true; [by rewrite Hfb|]. wp_steps. eapply sem_free_ok; [by split|]. wp_steps.
  eapply sem_free_ok.
  { split; [|exact Hff]. cbn. by rewrite lookup_insert_ne. }
  unfold mbox_set. wp_steps. apply HQ; try done; [exact (do_range _ Hd _ _ Hxq)|exact (do_range _ Hd _ _ Hxf)].
Qed.

Lemma mbox_new_ok size s Q E :
  data_ok s → size < MBOXSLOTS → (mbox_free s ≠ [] → (2 ≤ length (sem_free s))%nat) →
  (mbox_free s = [] → Q SYS_MBOX_NULL s) →
  (∀ m s', data_ok s' → keeps (λ _, False) s s' → n_th s' = n_th s →
     (∃ b, live s' m b) → posted m s' = [] → fetched m s' = [] → Q m s') →
  wpx (sys_mbox_new size) s Q E.
Proof.
  intros Hd Hsz Hsem H0 H1. unfold sys_mbox_new. wp_steps. apply assert_true; [by apply Z.ltb_lt|].
  wp_steps. destruct (mbox_free s) as [|m rest] eqn:Hfree; [wp_steps; auto|]. specialize (Hsem ltac:(done)).
  destruct (proj1 (do_mbox_free _ Hd m)) as (b0 & Hb0 & Hfb0); [rewrite Hfree; left|].
  wp_steps. eapply mbox_at_ok; [done|]. wp_steps. apply assert_true; [done|]. wp_steps.
  pose proof (do_sem_free _ Hd) as Hf.
  eapply sem_new_ok; [intros i Hi; exact (proj1 (Hf i) Hi)|intros He; cbn in He; rewrite He in Hsem; cbn in Hsem; lia|].
  intros q r1 xq Hq Hxq Hfq. cbn in Hq, Hxq. wp_steps.
  set (yq := set_gen _ (set_counter (u8 0) _)).
  destruct (data_sem_new s q r1 xq yq Hd Hq Hxq Hfq eq_refl
    (range_new 0 xq (do_range _ Hd _ _ Hxq))) as (Hd1 & Hk1 & Hc1).
  set (s1 := sem_allocated q r1 yq s) in *.
  eapply sem_new_ok; [intros i Hi; exact (proj1 (do_sem_free _ Hd1 i) Hi)|intros He; cbn in He; rewrite Hq, He in Hsem; cbn in Hsem; lia|].
  intros f r2 xf Hf2 Hxf Hff. cbn in Hf2. wp_steps.
  set (yf := set_gen _ (set_counter (u8 MBOXSLOTS) _)).
  change (sems (sem_allocated q r1 yq (set_mbox_free rest s))) with (sems s1) in Hxf.
  destruct (data_sem_new s1 f r2 xf yf Hd1 Hf2 Hxf Hff eq_refl
    (range_new MBOXSLOTS xf (do_range _ Hd1 _ _ Hxf))) as (Hd2 & Hk2 & Hc2).
  set (s2 := sem_allocated f r2 yf s1) in *.
  assert (live_sem s1 q yq) as Hlq1 by (split; [cbn; by rewrite lookup_insert_eq|done]).
  assert (q ≠ f) as Hqf. { intros <-. destruct Hlq1 as [Hl1 Hl2]. congruence. }
  assert (0 ≤ q ∧ 0 ≤ f) as [Hq0 Hf0].
  { pose proof (proj1 (do_sems _ Hd q) ltac:(by rewrite Hxq)).
    pose proof (proj1 (do_sems _ Hd1 f) ltac:(by rewrite Hxf)). lia. }
  unfold mbox_set. wp_steps. unfold SYS_SEM_NULL. rewrite !(proj2 (Z.eqb_neq _ _)) by lia. cbn [orb].
  wp_steps. set (b := set_mb_sems q f _).
  change (add_log _ _) with (mbox_allocated m rest b s2).
  assert (data_ok (mbox_allocated m rest b s2)) as Hd3.
  { apply (data_mbox_new s2 m rest b0 b yq yf); try done.
    - split; [cbn; rewrite lookup_insert_ne by done; by rewrite lookup_insert_eq|done].
    - split; [cbn; by rewrite lookup_insert_eq|done]. }
  apply H1; [done| |done| | |].
  - assert (∀ m' b', live s m' b' → live (mbox_allocated m rest b s2) m' b') as Hlm.
    { intros m' b' [Hb' Hfb']. split; [|done]. cbn. rewrite lookup_insert_ne; [done|]. intros <-. congruence. }
    split; [| | |reflexivity].
    + intros i x Hx _. destruct (kp_sem _ _ _ Hk1 i x Hx) as (x1 & Hx1 & Hg1); [tauto|].
      destruct (kp_sem _ _ _ Hk2 i x1 Hx1) as (x2 & Hx2 & Hg2); [tauto|]. exists x2.
      split; [exact Hx2|congruence].
    + eauto.
    + intros i x [Hx Hfx] _ Hcl m' (b' & [Hb' Hfb'] & Hi). cbn in Hb'. rewrite lookup_insert in Hb'.
      case_decide as Hmm.
      * injection Hb' as <-. cbn in Hi. destruct Hi as [-> | ->]; [congruence|].
        destruct (kp_sem _ _ _ Hk1 f x (conj Hx Hfx)) as (x1 & [Hx1 Hfx1] & _); [tauto|]. congruence.
      * apply (Hcl m'). by exists b'.
  - exists b. split; [cbn; by rewrite lookup_insert_eq|done].
  - unfold posted. change (n_log _) with (n_log s ++ [EvNew m]). rewrite hist_snoc. cbn [hist1].
    by rewrite Z.eqb_refl.
  - unfold fetched. change (n_log _) with (n_log s ++ [EvNew m]). rewrite hist_snoc. cbn [hist1].
    by rewrite Z.eqb_refl.
Qed.

(** ** Every interleaving *)

(** What the server's code keeps to: it uses mailboxes and semaphores it was given
    and has not freed, leaves a mailbox's semaphores alone, frees nothing that a
    thread waits on, and makes a mailbox only when two semaphores are left. *)
Definition call_ok (s : net) (c : call) : Prop :=
  let t := n_th s in
  let quiet F := ∀ l, queue_of (heap t) (run_queue t) l → unwaited F t l in
  match c with
  | CSemNew _ | CYield => True
  | CSemFree i => client s i ∧ (∃ x, live_sem s i x) ∧ quiet (λ j, j = i)
  | CSignal i => client s i ∧ ∃ x, live_sem s i x
  | CSemWait i _ => client s i ∧ (∃ x, live_sem s i x) ∧ cur_tc t ≠ 0
  | CMboxNew n => n < MBOXSLOTS ∧ (mbox_free s ≠ [] → (2 ≤ length (sem_free s))%nat)
  | CMboxFree m => ∃ b, live s m b ∧ quiet (λ j, j = queued_msg b ∨ j = free_msg b)
  | CPost m _ | CTrypost m _ | CFetch m _ => (∃ b, live s m b) ∧ cur_tc t ≠ 0
  | CThread _ _ _ sz lt mtc mstack => lt ≠ 0 ∧ sz ≤ PGSIZE ∧ heap t !! mtc = None ∧
      mstack ∉ stacks t ∧ max_tid t + 1 < 2 ^ 32 - 1 ∧ mtc ≠ 0 ∧ mstack ≠ 0
  | CHalt => cur_tc t ≠ 0
  end.

Lemma net_ok_keeps F s s' l k :
  th_ok s (n_th s) l k → data_ok s' → keeps F s s' → unwaited F (n_th s) l → n_th s' = n_th s → net_ok s'.
Proof.
  intros Ht Hd Hk Hu Hn. split; [|done]. exists l, k. rewrite Hn. by eapply th_ok_keeps.
Qed.

Lemma unwaited_false t l : unwaited (λ _, False) t l.
Proof. split; tauto. Qed.

Lemma net_ok_th s t l k : data_ok s → th_ok s t l k → net_ok (set_th t s).
Proof.
  intros Hd Ht. split; [|by apply data_set_th]. exists l, k.
  apply (th_ok_shape s); [by split|reflexivity|done].
Qed.

(** A call that begins to wait. *)
Lemma start_wait_ok s kt i tm x Q E :
  net_ok s → cur_tc (n_th s) ≠ 0 → live_sem s i x →
  match kt with
  | KSem => client s i
  | KPost m _ | KTrypost m _ => tm = 0 ∧ ∃ b, live s m b ∧ free_msg b = i
  | KFetch m => ∃ b, live s m b ∧ queued_msg b = i
  end →
  (∀ s', net_ok s' → Q tt s') →
  wpx (sys_arch_sem_wait kt i tm) s Q E.
Proof.
  intros [(l & k & Ht) Hd] Hc [Hx Hf] Hk HQ. unfold sys_arch_sem_wait. wp_steps.
  eapply sem_at_ok; [done|]. wp_steps. apply assert_true; [by rewrite Hf|].
  eapply (goto_ok s l k); [done..| |done]. cbn. split; [cbn; pose proof (clock_mono (n_clock s)); lia|].
  split; [by exists x|]. exact Hk.
Qed.

Lemma call_keeps_ok s c :
  net_ok s → regs (n_th s) = PRun → call_ok s c →
  wpx (run_call sems_base c) s (λ _ s', net_ok s') (λ _ _, True).
Proof.
  intros Hn Hr Hc. pose proof Hn as [(l & k & Ht) Hd].
  pose proof (tok_run _ _ _ (to_th _ _ _ _ Ht)) as Hq.
  destruct c; cbn [run_call call_ok] in *.
  - wp_steps. eapply sem_new_ok; [apply (do_sem_free _ Hd)|intros; by wp_steps|].
    intros i rest x Hi Hx Hf. wp_steps.
    destruct (data_sem_new s i rest x (set_gen (i32 (sem_gen x + 1)) (set_counter (u8 count) (set_freed false x))))
      as (Hd' & Hk & _); [done..|by eapply range_new, (do_range _ Hd)|]. by eapply net_ok_keeps; [exact Ht|done|done|apply unwaited_false|].
  - destruct Hc as (Hcl & (x & Hx) & Hu). eapply sem_free_ok; [done|].
    set (y := set_gen _ _). destruct (data_sem_free s sem x y) as (Hd' & Hk); [done..|exact (do_range _ Hd _ _ (proj1 Hx))|].
    by eapply net_ok_keeps; [exact Ht|done|done|apply Hu|].
  - destruct Hc as (Hcl & x & Hx). eapply signal_ok; [done|exact Ht|].
    intros t' x' Ht' _ _ Hs Hxc Hxw. assert (same_shape s (set_sems (<[sem := x']> (sems s)) s)) as Hsh
      by (eapply set_sem_shape; [apply Hx|done]).
    apply (net_ok_th _ _ l k).
    + eapply data_set_sem; [done|exact Hx|done| |by right].
      apply (range_counter x); [exact (do_range _ Hd _ _ (proj1 Hx))|rewrite Hxc; apply u16_range|done].
    + eapply th_ok_shape; [done|reflexivity|done].
  - destruct Hc as (Hcl & (x & Hx) & Hcur). by eapply start_wait_ok.
  - destruct Hc as [Hsz Hsem]. wp_steps. eapply mbox_new_ok; [done..|intros; by wp_steps|].
    intros m s' Hd' Hk Hth _ _ _. wp_steps. by eapply net_ok_keeps; [exact Ht|done|done|apply unwaited_false|].
  - destruct Hc as (b & Hb & Hu). eapply mbox_free_ok; [done..|]. intros yq yf Hyq Hyf ? ?.
    destruct (data_mbox_free s mbox b yq yf) as (Hd' & Hk); [done..|].
    by eapply net_ok_keeps; [exact Ht|done|done|apply Hu|].
  - destruct Hc as ((b & [Hb Hf]) & Hcur). unfold sys_mbox_post. wp_steps.
    eapply mbox_at_ok; [done|]. wp_steps. apply assert_true; [by rewrite Hf|].
    destruct (do_mbox _ Hd mbox b (conj Hb Hf)) as [q [_ _ _ (xf & Hxf & _)]].
    eapply start_wait_ok; [done..|split; [done|by exists b]|done].
  - destruct Hc as ((b & [Hb Hf]) & Hcur). unfold sys_mbox_trypost. wp_steps.
    eapply mbox_at_ok; [done|]. wp_steps. apply assert_true; [by rewrite Hf|].
    destruct (do_mbox _ Hd mbox b (conj Hb Hf)) as [q [_ _ _ (xf & Hxf & _)]].
    eapply start_wait_ok; [done..|split; [done|by exists b]|done].
  - destruct Hc as ((b & [Hb Hf]) & Hcur). unfold sys_arch_mbox_fetch. wp_steps.
    eapply mbox_at_ok; [done|]. wp_steps. apply assert_true; [by rewrite Hf|].
    destruct (do_mbox _ Hd mbox b (conj Hb Hf)) as [q [_ _ (xq & Hxq & _) _]].
    eapply start_wait_ok; [done..|by exists b|done].
  - destruct Hc as (H1 & H2 & H3 & H4 & H5 & H6 & H7). unfold sys_thread_new. wp_steps.
    apply assert_true; [by apply negb_true_iff, Z.eqb_neq|]. wp_steps.
    apply assert_true; [by apply Z.leb_le|]. wp_steps. apply wpx_lift.
    eapply th_create; [exact Ht|done..|]. intros t' Ht'. wp_steps. apply assert_true; [done|]. wp_steps.
    by eapply net_ok_th.
  - wp_steps. apply wpx_lift. eapply th_yield; [exact Ht|]. intros b t' l' Ht'. wp_steps. by eapply net_ok_th.
  - apply wpx_lift. eapply th_halt; [exact Ht|done|]. intros t' l' k' Ht'. by eapply net_ok_th.
Qed.

Lemma sys_step_ok s c :
  net_ok s → (regs (n_th s) = PRun → call_ok s c) →
  wpx (sys_step clock sems_base c) s (λ _ s', net_ok s') (λ _ _, True).
Proof.
  intros Hn Hc. unfold sys_step. wp_steps. destruct (regs (n_th s)) as [|kt w|kt w a v u s0 p|kt w a v u s0] eqn:Hr.
  - by apply call_keeps_ok; auto.
  - by apply loop_step_ok.
  - by apply wait_step_ok.
  - by apply resume_step_ok.
Qed.

(** The tables of the C program: zero, and the list heads NULL. *)
Definition array {V} (n : Z) (v : V) : gmap Z V :=
  list_to_map ((λ i, (Z.of_nat i, v)) <$> seq 0 (Z.to_nat n)).
Definition net0 : net := mkNet
  (mkTst ∅ ∅ (mkTQ 0 0) (mkTQ 0 0) 0 0 PRun [])
  (array NSEM (mkSem false 0 0 0)) [] (array NMBOX (mkMbox false 0 0 ∅ 0 0)) [] 0 [].

(** thread_init and sys_init have run, and then the threads take steps: at each,
    the thread that has the processor goes on, or makes any call. *)
Inductive net_reach : net → Prop :=
  | net_init s : (lift thread_init;; sys_init) net0 = Ret tt s → net_reach s
  | net_step s c x s' : net_reach s → (regs (n_th s) = PRun → call_ok s c) →
      sys_step clock sems_base c s = Ret x s' → net_reach s'.

Lemma array_lookup {V} n (v : V) j :
  array n v !! j = if decide (0 ≤ j < n) then Some v else None.
Proof.
  unfold array. case_decide as Hj.
  - apply elem_of_list_to_map_1.
    + rewrite <- list_fmap_compose. apply NoDup_fmap_2; [intros x y; cbn; lia|apply NoDup_seq].
    + apply list_elem_of_fmap. exists (Z.to_nat j). split; [f_equal; lia|]. apply elem_of_seq. lia.
  - apply not_elem_of_list_to_map_1. rewrite <- list_fmap_compose. intros (x & -> & Hx)%list_elem_of_fmap.
    apply elem_of_seq in Hx. cbn in Hj. lia.
Qed.

(** The first [i] entries of a table are on its free list. *)
Definition freed_upto {V} (n i : Z) (v : bool → V) (m : gmap Z V) (l : list Z) : Prop :=
  (∀ j, m !! j = if decide (0 ≤ j < n) then Some (v (bool_decide (j < i))) else None) ∧
  NoDup l ∧ ∀ j, j ∈ l ↔ 0 ≤ j < i.

Lemma freed_upto_step {V} n i (v : bool → V) m l :
  0 ≤ i < n → freed_upto n i v m l → freed_upto n (i + 1) v (<[i := v true]> m) (i :: l).
Proof.
  intros Hi (Hm & Hd & Hl). split; [|split].
  - intros j. rewrite lookup_insert, Hm. case_decide as Hj.
    + subst j. rewrite decide_True by lia. by rewrite bool_decide_true by lia.
    + case_decide; [|done]. do 2 f_equal. apply bool_decide_ext. lia.
  - apply list.NoDup_cons. split; [|done]. rewrite Hl. lia.
  - intros j. rewrite elem_of_cons, Hl. lia.
Qed.

Lemma sys_init_ok : wp (lift thread_init;; sys_init) net0 (λ _ s, net_ok s).
Proof.
  wp_steps. apply wpx_lift. unfold thread_init, threadq_init. wp_steps. unfold sys_init. wp_steps.
  set (t0 := set_max_tid 0 _).
  apply wpx_for_each with (I := λ i s, ∃ ms l, s = mkNet t0 ms l (array NMBOX (mkMbox false 0 0 ∅ 0 0)) [] 0 [] ∧
    freed_upto NSEM i (λ b, mkSem b 0 0 0) ms l); [done| | |].
  - exists (array NSEM (mkSem false 0 0 0)), []. split; [done|]. split; [|split; [constructor|]].
    + intros j. rewrite array_lookup. case_decide; [|done]. by rewrite bool_decide_false by lia.
    + intros j. split; [by intros ?%elem_of_nil|lia].
  - intros i s Hi (ms & l & -> & Hf). wp_steps. eapply sem_at_ok.
    { cbn. rewrite (proj1 Hf), decide_True by lia. reflexivity. }
    unfold sem_set. wp_steps. eexists _, _. split; [done|]. cbn. by apply freed_upto_step.
  - intros s (ms & l & -> & Hs).
    apply wpx_for_each with (I := λ i s, ∃ bs r, s = mkNet t0 ms l bs r 0 [] ∧
      freed_upto NMBOX i (λ b, mkMbox b 0 0 ∅ 0 0) bs r); [done| | |].
    + exists (array NMBOX (mkMbox false 0 0 ∅ 0 0)), []. split; [done|]. split; [|split; [constructor|]].
      * intros j. rewrite array_lookup. case_decide; [|done]. by rewrite bool_decide_false by lia.
      * intros j. split; [by intros ?%elem_of_nil|lia].
    + intros i s Hi (bs & r & -> & Hf). wp_steps. eapply mbox_at_ok.
      { cbn. rewrite (proj1 Hf), decide_True by lia. reflexivity. }
      unfold mbox_set. wp_steps. eexists _, _. split; [done|]. cbn. by apply freed_upto_step.
    + intros s (bs & r & -> & Hb). destruct Hs as (Hs1 & Hs2 & Hs3), Hb as (Hb1 & Hb2 & Hb3). split.
      { exists [], []. split; [by eapply (thread_init_ok PRun)| |done].
        split; [done|]. intros u c Hu. by apply elem_of_nil in Hu. }
      assert (∀ m b, ¬ live (mkNet t0 ms l bs r 0 []) m b) as Hno.
      { intros m b [Hm Hf]. cbn in Hm. rewrite Hb1 in Hm. case_decide as Hm'; [|done].
        injection Hm as <-. rewrite bool_decide_true in Hf by lia. done. }
      split; cbn [sems mboxes sem_free mbox_free]; try done.
      * intros i x. rewrite Hs1. case_decide; [|done]. intros [= <-]. split; [cbn; lia|by left].
      * intros i. rewrite Hs1. case_decide; naive_solver.
      * intros i. rewrite Hb1. case_decide; naive_solver.
      * intros i. rewrite Hs3, Hs1. case_decide as Hi; [|naive_solver].
        rewrite bool_decide_true by lia. naive_solver.
      * intros i. rewrite Hb3, Hb1. case_decide as Hi; [|naive_solver].
        rewrite bool_decide_true by lia. naive_solver.
      * intros m b Hm. by destruct (Hno m b).
      * intros m m' i (b & Hm & _). by destruct (Hno m b).
      * intros m b Hm. by destruct (Hno m b).
Qed.

Lemma net_reach_ok s : net_reach s → net_ok s.
Proof.
  induction 1 as [s Hs|s c x s' _ Hn Hc Hstep].
  - pose proof sys_init_ok as Hw. unfold wpx in Hw. by rewrite Hs in Hw.
  - pose proof (sys_step_ok s c Hn Hc) as Hw. unfold wpx in Hw. by rewrite Hstep in Hw.
Qed.

(** C5. Mailboxes of the network server are first-in first-out queues of at most
    32 messages, in every interleaving of any number of cooperative threads whose
    calls keep to [call_ok] (they name live objects, free nothing that a thread waits
    on, make a mailbox only with two semaphores left, and get memory for threads),
    while the clock, in milliseconds, does not go back and is below 2^32 - 1: what
    was fetched is a prefix of what was posted, the ring holds the rest in order,
    and the two semaphores count its messages and its free slots. *)
Theorem mailbox_fifo s m b :
  net_reach s → live s m b →
  ∃ q, posted m s = fetched m s ++ q ∧ Z.of_nat (length q) ≤ MBOXSLOTS ∧ mbox_rep b q ∧
    (∃ x, sems s !! queued_msg b = Some x ∧ sem_counter x = Z.of_nat (length q)) ∧
    (∃ x, sems s !! free_msg b = Some x ∧ sem_counter x = MBOXSLOTS - Z.of_nat (length q)).
Proof.
  intros Hr Hb. destruct (do_mbox _ (no_data _ (net_reach_ok s Hr)) m b Hb) as
    [q [Hrep Hq (xq & [Hxq _] & Hcq) (xf & [Hxf _] & Hcf)]].
  exists q. split; [done|]. split; [apply Hrep|]. split; [done|]. split; eauto.
Qed.

(** C31. No step of a thread panics, while the calls keep to [call_ok] and the clock
    does not go back and is below 2^32 - 1: sys_arch_mbox_fetch always finds the message
    its semaphore promised, sys_mbox_post never finds the ring full, no semaphore
    or mailbox is used after it was freed, and no thread context either. *)
Theorem sys_arch_never_panics s c s' :
  net_reach s → (regs (n_th s) = PRun → call_ok s c) → sys_step clock sems_base c s ≠ Panic s'.
Proof.
  intros Hr Hc Hp. pose proof (sys_step_ok s c (net_reach_ok s Hr) Hc) as Hw. unfold wpx in Hw.
  by rewrite Hp in Hw.
Qed.

(** The loop of thread_wait, once the counter is positive: the value has changed,
    so the loop ends whatever the clock says. *)
Lemma wait_step_positive s l k kt w a until s0 p x Q E :
  0 < sems_base → data_ok s → th_ok s (n_th s) l k →
  regs (n_th s) = PWait kt w a (2 ^ 16) until s0 p →
  live_sem s (w_sem w) x → 0 < sem_counter x →
  (∀ s' w', data_ok s' → th_ok s' (n_th s') l k → regs (n_th s') = PLoop kt w' →
     w_sem w' = w_sem w → w_tm w' = w_tm w → sems s' = sems s → mboxes s' = mboxes s →
     n_log s' = n_log s → Q tt s') →
  wpx (wait_step clock sems_base kt w a (2 ^ 16) until s0 p) s Q E.
Proof.
  intros Hbase Hd Ht Hr [Hx Hf] Hpos HQ.
  pose proof (proj1 (to_pcs _ _ _ _ Ht)) as Hp. rewrite Hr in Hp. cbn in Hp.
  destruct Hp as ((Hwt & (x' & [Hx' _] & Hg) & Hk) & Ha & _). assert (x' = x) as -> by congruence.
  assert (cur_tc (n_th s) ≠ 0) as Hcur by (eapply running_wait; [exact Ht|by rewrite Hr]).
  destruct (current_in _ _ _ (to_th _ _ _ _ Ht) Hcur) as (_ & _ & tc & Htc).
  unfold wait_step. wp_steps. eapply sem_at_ok; [exact Hx|]. wp_steps. apply wpx_lift.
  unfold thread_wait_more. wp_steps. eapply tderef_ok; [exact Htc|]. wp_steps.
  replace (set_th (n_th s) s) with s by (by destruct s).
  destruct (do_range _ Hd _ _ Hx) as [Hcr Hwr].
  pose proof (proj1 (do_sems _ Hd (w_sem w)) ltac:(by rewrite Hx)) as Hi.
  rewrite (proj2 (Z.eqb_neq (sem_addr sems_base (w_sem w)) 0)) by (unfold sem_addr; lia).
  rewrite (proj2 (Z.eqb_neq (sem_v x) (2 ^ 16))) by (unfold sem_v; destruct Hwr as [-> | ->]; lia).
  cbn [negb andb]. rewrite !andb_false_r. cbn [andb]. wp_steps. apply wpx_lift.
  eapply th_set_wait; [exact Ht|done|]. intros t' c' Ht' Hcur' _ _.
  rewrite Hg, Z.eqb_refl. cbn [negb]. wp_steps. apply time_ok.
  unfold goto. apply wpx_lift. wp_steps.
  set (s1 := set_th _ _).
  assert (same_shape s s1) as Hsh by by split.
  assert (clock (n_clock s) ≤ clock (n_clock s1)) as Hck by apply clock_mono.
  eapply HQ; try done.
  - by apply data_set_th, data_tick, data_set_th.
  - apply th_regs; [by apply (th_ok_shape s)| |cbn; by rewrite Hcur'].
    cbn. pose proof (clock_mono (n_clock s)). pose proof (clock_max (n_clock s)). pow2.
    rewrite u32_id by lia. apply (wait_ok_shape s) with (clock (n_clock s)); [by split|cbn; lia|lia|].
    split; [cbn; lia|]. split; [by exists x|]. exact Hk.
Qed.

Lemma loop_step_positive s l k kt w x Q E :
  data_ok s → th_ok s (n_th s) l k → regs (n_th s) = PLoop kt w → w_tm w = 0 →
  live_sem s (w_sem w) x → 0 < sem_counter x →
  (∀ s', net_ok s' → returned s s' kt w → Q tt s') →
  wpx (loop_step clock sems_base kt w) s Q E.
Proof.
  intros Hd Ht Hr Htm Hx Hpos HQ. pose proof (proj1 (to_pcs _ _ _ _ Ht)) as Hp. rewrite Hr in Hp.
  cbn in Hp. pose proof Hp as (Hw & _). unfold loop_step. rewrite Htm. cbn [orb]. rewrite Z.eqb_refl. cbn [orb].
  wp_steps. eapply sem_at_ok; [apply Hx|]. rewrite (proj2 (Z.ltb_lt _ _)) by done.
  unfold sem_set. wp_steps. fold (taken s (w_sem w) x).
  eapply return_taken_ok; [done|exact Ht|exact Hp|done|done| |done].
  unfold SYS_ARCH_TIMEOUT. pose proof (clock_max (n_clock s)). lia.
Qed.

Lemma sys_step_at s c p Q E :
  regs (n_th s) = p →
  wpx match p with
      | PRun => run_call sems_base c
      | PLoop k w => loop_step clock sems_base k w
      | PWait k w a val until s p => wait_step clock sems_base k w a val until s p
      | PYield k w a val until s => resume_step clock k w a val until s
      end s Q E →
  wpx (sys_step clock sems_base c) s Q E.
Proof. intros <-. unfold sys_step. by wp_steps. Qed.

(** C30. No wake-up is lost: in a state that calls within [call_ok] reach, with a clock
    that does not go back and is below 2^32 - 1, a thread that waits without a
    time-out and is given the processor while its semaphore is positive has it after
    three of its own steps, whether or not tc_wakeup was set; a fetch
    then has the oldest message, and a post has posted. *)
Theorem no_lost_wakeup s kt w a val until s0 x c :
  0 < sems_base → net_reach s → regs (n_th s) = PYield kt w a val until s0 → w_tm w = 0 →
  sems s !! w_sem w = Some x → 0 < sem_counter x →
  wp (sys_step clock sems_base c;; sys_step clock sems_base c;; sys_step clock sems_base c) s
    (λ _ s', ∃ w', w_sem w' = w_sem w ∧ returned s s' kt w').
Proof.
  intros Hbase Hreach Hr Htm Hx Hpos. destruct (net_reach_ok s Hreach) as [(l & k & Ht) Hd].
  pose proof (proj1 (to_pcs _ _ _ _ Ht)) as Hp. rewrite Hr in Hp. cbn in Hp.
  destruct Hp as ((Hwt & (x' & [Hx' Hf] & Hg) & Hk) & Ha & ->). assert (x' = x) as -> by congruence.
  assert (cur_tc (n_th s) ≠ 0) as Hcur by (eapply running_wait; [exact Ht|by rewrite Hr]).
  wp_step. eapply sys_step_at; [exact Hr|]. unfold resume_step. wp_steps. apply time_ok.
  unfold goto at 1. apply wpx_lift. wp_step. wp_step. set (s1 := set_th _ (tick s)).
  assert (th_ok s1 (n_th s1) l k) as Ht1.
  { apply th_regs; [apply (th_ok_shape s); [by split|apply clock_mono|done]| |done].
    apply (pc_ok_shape s); [by split|apply clock_mono|].
    split; [split; [done|split; [by exists x|exact Hk]]|done]. }
  eapply sys_step_at; [reflexivity|].
  eapply wait_step_positive; [done|by apply data_set_th, data_tick|exact Ht1|reflexivity|by split|done|].
  intros s2 w2 Hd2 Ht2 Hr2 Hs2 Htm2 Hsems Hmb Hlog.
  eapply sys_step_at; [exact Hr2|].
  eapply (loop_step_positive _ _ _ _ _ x); [done..|congruence| |done|].
  { unfold live_sem. by rewrite Hs2, Hsems. }
  intros s3 _ Hret. exists w2. split; [done|].
  unfold returned, posted, fetched in *. by rewrite Hlog in Hret.
Qed.
End invariant.

(** ** Instances: one thread fetches from an empty mailbox, another posts *)

Module SysArchExample.
Definition clk (n : nat) : Z := Z.min (Z.of_nat n) 1000.
Definition base : Z := 4096.

Lemma clk_mono n : 0 ≤ clk n ≤ clk (S n).
Proof. unfold clk. lia. Qed.
Lemma clk_max n : clk n < 2 ^ 32 - 1.
Proof. unfold clk. lia. Qed.

Definition state_of (m : outcome net texit unit) : net :=
  match m with Ret _ s => s | _ => net0 end.
Definition ran (m : outcome net texit unit) : bool := match m with Ret _ _ => true | _ => false end.

Lemma ran_ret m : ran m = true → m = Ret tt (state_of m).
Proof. by destruct m as [[] s| |]. Qed.

Definition go (c : call) (s : net) : net := state_of (sys_step clk base c s).

Definition st0 : net := state_of ((lift thread_init;; sys_init) net0).
Definition st2 : net := go (CThread [] 0 0 0 1 200 10000) (go (CThread [] 0 0 0 1 100 5000) st0).
Definition st3 : net := go CYield st2.
Definition st4 : net := go (CMboxNew 0) st3.
Definition st5 : net := go (CFetch 127 0) st4.
Definition st7 : net := go CYield (go CYield st5).
Definition st8 : net := go (CPost 127 7) st7.
Definition st9 : net := go CYield st8.
Definition st10 : net := go CYield st9.

Definition reached := net_reach clk base.

Lemma reach_go c s :
  reached s → (regs (n_th s) = PRun → call_ok s c) → ran (sys_step clk base c s) = true → reached (go c s).
Proof. intros Hs Hc Hr. eapply net_step; [exact Hs|exact Hc|by apply ran_ret]. Qed.

Lemma st0_reached : reached st0.
Proof. apply net_init. apply ran_ret. by vm_compute. Qed.

(** The conditions on a fresh thread, decided. *)
Definition fresh (s : net) (mtc mstack : Z) : bool :=
  bool_decide (heap (n_th s) !! mtc = None) && bool_decide (mstack ∉ stacks (n_th s)) &&
  (max_tid (n_th s) + 1 <? 2 ^ 32 - 1).

Lemma thread_call_ok s mtc mstack :
  fresh s mtc mstack = true → mtc ≠ 0 → mstack ≠ 0 → call_ok s (CThread [] 0 0 0 1 mtc mstack).
Proof.
  unfold fresh. rewrite !andb_true_iff, !bool_decide_eq_true, Z.ltb_lt. intros [[H1 H2] H3] H4 H5.
  by repeat split.
Qed.

Definition is_live (s : net) (m : Z) : bool :=
  match mboxes s !! m with Some b => negb (mb_freed b) | None => false end.

Lemma is_live_ok s m : is_live s m = true → ∃ b, live s m b.
Proof.
  unfold is_live. destruct (mboxes s !! m) as [b|] eqn:Hb; [|done]. intros Hf%negb_true_iff.
  by exists b.
Qed.

Lemma st2_reached : reached st2.
Proof.
  assert (reached (go (CThread [] 0 0 0 1 100 5000) st0)) as H1.
  { apply reach_go; [apply st0_reached| |by vm_compute]. intros _.
    apply thread_call_ok; [by vm_compute|done|done]. }
  apply reach_go; [exact H1| |by vm_compute]. intros _.
  apply thread_call_ok; [by vm_compute|done|done].
Qed.

Lemma st4_reached : reached st4.
Proof.
  assert (reached st3) as H3 by (apply reach_go; [apply st2_reached|done|by vm_compute]).
  apply reach_go; [exact H3| |by vm_compute]. intros _. split; [done|]. intros _.
  apply Nat.leb_le. by vm_compute.
Qed.

Lemma st7_reached : reached st7.
Proof.
  assert (reached st5) as H5.
  { apply reach_go; [apply st4_reached| |by vm_compute]. intros _.
    split; [apply is_live_ok; by vm_compute|by vm_compute]. }
  assert (reached (go CYield st5)) as H6 by (apply reach_go; [exact H5|done|by vm_compute]).
  apply reach_go; [exact H6|done|by vm_compute].
Qed.

Lemma st10_reached : reached st10.
Proof.
  assert (reached st8) as H8.
  { apply reach_go; [apply st7_reached| |by vm_compute]. intros _.
    split; [apply is_live_ok; by vm_compute|by vm_compute]. }
  assert (reached st9) as H9 by (apply reach_go; [exact H8|done|by vm_compute]).
  apply reach_go; [exact H9|done|by vm_compute].
Qed.

(** The message waits in the ring. *)
Lemma mailbox_fifo_witness : posted 127 st10 = [7] ∧ ∃ b q, live st10 127 b ∧ mbox_rep b q ∧
  posted 127 st10 = fetched 127 st10 ++ q.
Proof.
  split; [by vm_compute|].
  destruct (is_live_ok st10 127) as [b Hb]; [by vm_compute|].
  destruct (mailbox_fifo clk base clk_mono clk_max st10 127 b st10_reached Hb) as (q & Hq & _ & Hrep & _).
  exists b, q. exact (conj Hb (conj Hrep Hq)).
Defined.

Lemma sys_arch_never_panics_witness :
  regs (n_th st7) = PRun ∧ ¬ ∃ s', sys_step clk base (CPost 127 7) st7 = Panic s'.
Proof.
  split; [by vm_compute|]. intros [s' Hs'].
  apply (sys_arch_never_panics clk base clk_mono clk_max st7 (CPost 127 7) s' st7_reached); [|exact Hs'].
  intros _. split; [apply is_live_ok; by vm_compute|by vm_compute].
Defined.

(** The fetching thread runs again and gets the message. *)
Lemma no_lost_wakeup_witness : ∃ s', n_log s' = n_log st10 ++ [EvFetched 127 7].
Proof.
  destruct (regs (n_th st10)) as [| | |kt w a val until s0] eqn:Hr; [by vm_compute in Hr..|].
  assert (kt = KFetch 127 ∧ w_tm w = 0 ∧ w_sem w = 255) as (-> & Htm & Hsem).
  { vm_compute in Hr. injection Hr as <- <- _ _ _ _. done. }
  destruct (sems st10 !! 255) as [x|] eqn:Hx; [|by vm_compute in Hx].
  assert (0 < sem_counter x) as Hpos.
  { vm_compute in Hx. injection Hx as <-. done. }
  destruct (wp_returns _ _ _ (no_lost_wakeup clk base clk_mono clk_max st10 (KFetch 127) w a val until s0 x
    CYield ltac:(done) st10_reached Hr Htm ltac:(by rewrite Hsem) Hpos))
    as (_ & s' & _ & w' & _ & _ & m & r & Hq & Hlog).
  exists s'. rewrite Hlog. vm_compute in Hq. by injection Hq as <- _.
Defined.
End SysArchExample.
