(* ===== verification/File.v ===== *)
(** * The client of the file server (lib/file.c)

    The client and the server of [FsServ] run in turn.  fsipc lends the server the
    client's page at [fsipcbuf]: the two map the same physical page, so its bytes
    are the server's at [fsreq] while serve() runs, and the client's again after.
    The page of an open struct Fd is shared too: [c_fd] gives the server's address
    of the page that a descriptor number stands for, and a [struct Fd *] is that
    number.  Paths are lists of bytes. *)
From stdpp Require Import gmap.
From S2P Require Import Prelude Mem StringC Printfmt KState Bc Fs FsView FsSpec FsIO FsServ FsRW.
From S2P Require Import FsRefine FsExample.

Definition NFD : Z := 32.
Definition O_RDONLY : Z := 0.
Definition O_WRONLY : Z := 1.

Record client : Type := mkCl { c_mem : mem; c_serv : ServState; c_fd : gmap Z Z }.

Definition C : Type → Type := M client False.

Definition set_c_mem m c := mkCl m (c_serv c) (c_fd c).
Definition set_c_serv s c := mkCl (c_mem c) s (c_fd c).
Definition set_c_fd f c := mkCl (c_mem c) (c_serv c) f.

(** A call into the server. *)
Definition served {A} (m : V A) : C A := λ c,
  match m (c_serv c) with
  | Ret a s => Ret a (set_c_serv s c)
  | Leave x s => Leave x (set_c_serv s c)
  | Panic s => Panic (set_c_serv s c)
  end.

Section file.
(** Where the linker put the request page, and the client's environment id. *)
Context (fsipcbuf whom : Z).

Definition serv_mem (c : client) : mem := fs_mem (sv_fs (c_serv c)).

Definition lend (c : client) : client :=
  let s := c_serv c in
  set_c_serv (set_sv_fs (set_fs_mem
    (store_bytes (serv_mem c) fsreq (load_bytes (c_mem c) fsipcbuf (Z.to_nat PGSIZE))) (sv_fs s)) s) c.
Definition give_back (c : client) : client :=
  set_c_mem (store_bytes (c_mem c) fsipcbuf (load_bytes (serv_mem c) fsreq (Z.to_nat PGSIZE))) c.

(** [dst] is the descriptor whose page is to receive the reply page, if any.  The
    request page is sent with PTE_P | PTE_W | PTE_U. *)
Definition fsipc (type : Z) (dst : option Z) : C Z :=
  modify lend;;
  rep ← served (serve type whom (Z.lor (Z.lor PTE_P PTE_W) PTE_U));
  modify give_back;;
  match rep, dst with
  | Some (r, pg, _), Some fd =>
      when (negb (pg =? 0)) (modify (λ c, set_c_fd (<[fd := pg]> (c_fd c))
        (set_c_serv (set_pageref (λ a, if decide (a = pg) then pageref (c_serv c) a + 1
                                        else pageref (c_serv c) a) (c_serv c)) c)));;
      mret r
  | Some (r, _, _), None => mret r
  | None, _ => panic                        (* no reply: the client waits for ever *)
  end.

(** A field of the page of [fd]. *)
Definition fd_get (fd : Z) (field : Z → Z) : C Z :=
  c ← get;
  match c_fd c !! fd with
  | Some pg => mret (i32 (ld32 (serv_mem c) (field pg)))
  | None => panic
  end.
Definition put_mem (f : mem → mem) : C unit := modify (λ c, set_c_mem (f (c_mem c)) c).

Definition devfile_flush (fd : Z) : C Z :=
  id ← fd_get fd fd_file_id;
  put_mem (λ m, st32 m (req_fileid fsipcbuf) id);;
  fsipc 6 None.

(** [fd] is not NULL where the function is reached. *)
Definition devfile_read (fd buf n : Z) : C Z :=
  if buf =? 0 then mret (- E_INVAL)
  else
    id ← fd_get fd fd_file_id;
    put_mem (λ m, st64 (st32 m (req_fileid fsipcbuf) id) (req_n fsipcbuf) n);;
    r ← fsipc 3 None;
    let r := i32 r in
    if r <=? 0 then mret r
    else
      put_mem (λ m, store_bytes m buf (load_bytes m (ret_buf fsipcbuf) (Z.to_nat r)));;
      mret r.

Definition WRITE_CLAMP : Z := PGSIZE - (4 + 8).

Definition devfile_write (fd buf n : Z) : C Z :=
  if buf =? 0 then mret (-1)
  else
    id ← fd_get fd fd_file_id;
    put_mem (λ m, st32 m (req_fileid fsipcbuf) id);;
    let n := if WRITE_CLAMP <? n then WRITE_CLAMP else n in
    put_mem (λ m, st64 m (req_n fsipcbuf) n);;
    put_mem (λ m, store_bytes m (req_buf fsipcbuf) (load_bytes m buf (Z.to_nat n)));;
    r ← fsipc 4 None;
    mret (i32 r).

(** The result and the fields of the struct Stat. *)
Definition devfile_stat (fd : Z) : C (Z * option (list Z * Z * Z)) :=
  id ← fd_get fd fd_file_id;
  put_mem (λ m, st32 m (req_fileid fsipcbuf) id);;
  r ← fsipc 5 None;
  if i32 r <? 0 then mret (i32 r, None)
  else
    m ← gets c_mem;
    mret (0, Some (until_nul (load_bytes m (ret_name fsipcbuf) (Z.to_nat PGSIZE)),
                   i32 (ld32 m (ret_size fsipcbuf)), i32 (ld32 m (ret_isdir fsipcbuf)))).

Definition devfile_trunc (fd newsize : Z) : C Z :=
  id ← fd_get fd fd_file_id;
  put_mem (λ m, st32 (st32 m (req_fileid fsipcbuf) id) (req_size fsipcbuf) newsize);;
  fsipc 2 None.

Definition remove (path : list Z) : C Z :=
  if MAXPATHLEN <=? Z.of_nat (length path) then mret (- E_BAD_PATH)
  else put_mem (λ m, store_bytes m fsipcbuf (path ++ [0]));; fsipc 7 None.

Definition sync : C Z := fsipc 8 None.

(** ** Descriptors (lib/fd.c)

    The client's functions of a device, None where the struct Dev has none; the
    device of files, and [devtab], the devices behind it in the table. *)

Record cdev : Type := mkCdev
  { cd_id : Z; cd_read : option (Z → Z → Z → C Z); cd_write : option (Z → Z → Z → C Z);
    cd_close : option (Z → C Z) }.
Definition devfile : cdev :=
  mkCdev devfile_id (Some devfile_read) (Some devfile_write) (Some devfile_flush).
Context (devtab : list cdev).

Definition dev_lookup (id : Z) : option cdev := List.find (λ d, cd_id d =? id) (devfile :: devtab).

Definition fd_alloc : C (option Z) :=
  for_range 0 NFD (λ i, c ← get; mret (match c_fd c !! i with None => Some i | Some _ => None end)).

Definition fd_close (fd : Z) (must_exist : bool) : C Z :=
  c ← get;
  match c_fd c !! fd with
  | None => mret (if must_exist then - E_INVAL else 0)
  | Some pg =>
      id ← fd_get fd fd_dev_id;
      r ← match dev_lookup id with
          | Some d => match cd_close d with Some f => f fd | None => mret 0 end
          | None => mret (- E_INVAL)
          end;
      modify (λ c, set_c_fd (delete fd (c_fd c))
        (set_c_serv (set_pageref (λ a, if decide (a = pg) then pageref (c_serv c) a - 1
                                        else pageref (c_serv c) a) (c_serv c)) c));;
      mret r
  end.
Definition close (fd : Z) : C Z :=
  if (fd <? 0) || (NFD <=? fd) then mret (- E_INVAL) else fd_close fd true.

(** fd_lookup, dev_lookup and the test of the mode; [bad] is the mode refused, [op]
    the function of the device. *)
Definition fd_enter (fd bad : Z) (op : cdev → option (Z → Z → Z → C Z)) (buf n : Z) : C Z :=
  if (fd <? 0) || (NFD <=? fd) then mret (- E_INVAL)
  else
    c ← get;
    match c_fd c !! fd with
    | None => mret (- E_INVAL)
    | Some _ =>
        id ← fd_get fd fd_dev_id;
        match dev_lookup id with
        | None => mret (- E_INVAL)
        | Some d =>
            m ← fd_get fd fd_omode;
            if Z.land m O_ACCMODE =? bad then mret (- E_INVAL)
            else match op d with Some f => f fd buf n | None => mret (- E_NOT_SUPP) end
        end
    end.
Definition read (fd buf n : Z) : C Z := fd_enter fd O_WRONLY cd_read buf n.
Definition write (fd buf n : Z) : C Z := fd_enter fd O_RDONLY cd_write buf n.

(** [path]: None is NULL. *)
Definition open (path : option (list Z)) (mode : Z) : C Z :=
  match path with
  | None => mret (-1)
  | Some path =>
      if MAXPATHLEN <=? Z.of_nat (length path) then mret (- E_BAD_PATH)
      else
        f ← fd_alloc;
        match f with
        | None => mret (- E_MAX_OPEN)
        | Some fd =>
            put_mem (λ m, store_bytes m fsipcbuf
              (path ++ replicate (Z.to_nat (MAXPATHLEN - Z.of_nat (length path))) 0));;
            put_mem (λ m, st32 m (req_omode fsipcbuf) mode);;
            r ← fsipc 1 (Some fd);
            let r := i32 r in
            if r <? 0 then d ← fd_close fd false; mret (if d <? 0 then d else r)
            else mret fd
        end
  end.

(** ** copy: [buf] is the array of 512 bytes on its stack *)

(** The loop ends with the last [read_size], or with an error of write. *)
Fixpoint copy_loop (fuel : nat) (fd_src fd_dest buf : Z) : C Z :=
  match fuel with
  | O => panic
  | S fuel' =>
      read_size ← read fd_src buf 512;
      if 0 <? read_size then
        write_size ← write fd_dest buf read_size;
        if write_size <? 0 then mret write_size else copy_loop fuel' fd_src fd_dest buf
      else mret read_size
  end.

Definition copy (fuel : nat) (src dest : option (list Z)) (buf : Z) : C Z :=
  fd_src ← open src O_RDONLY;
  if fd_src <? 0 then mret fd_src
  else
    fd_dest ← open dest (Z.lor O_CREAT O_WRONLY);
    if fd_dest <? 0 then _ ← close fd_src; mret fd_dest
    else
      r ← copy_loop fuel fd_src fd_dest buf;
      _ ← close fd_src;
      _ ← close fd_dest;
      mret (if r <? 0 then r else 0).

(** ** The shared page *)

#[local] Opaque store_bytes load_bytes.

Lemma ldn_shift n m m' a a' :
  (∀ i, 0 ≤ i < Z.of_nat n → ldb m (a + i) = ldb m' (a' + i)) → ldn n m a = ldn n m' a'.
Proof.
  revert a a'. induction n as [|n IH]; intros a a' H; [done|]. cbn [ldn].
  rewrite <- (Z.add_0_r a) at 1. rewrite (H 0), Z.add_0_r by lia. do 2 f_equal.
  apply IH. intros i Hi. rewrite <- !Z.add_assoc. apply H. lia.
Qed.

Lemma load_bytes_shift n m m' a a' :
  (∀ i, 0 ≤ i < Z.of_nat n → ldb m (a + i) = ldb m' (a' + i)) → load_bytes m a n = load_bytes m' a' n.
Proof.
  revert a a'. induction n as [|n IH]; intros a a' H; [done|]. cbn [load_bytes].
  rewrite <- (Z.add_0_r a) at 1. rewrite (H 0), Z.add_0_r by lia. f_equal.
  apply IH. intros i Hi. rewrite <- !Z.add_assoc. apply H. lia.
Qed.

(** The server, as the abstract server [a]; the client's bytes are bytes. *)
Record crep (c : client) (a : AServ) : Prop := {
  cr_repr : repr (c_serv c) a;
  cr_bytes : bytes_ok (c_mem c)
}.

Lemma serv_bytes c a : crep c a → bytes_ok (serv_mem c).
Proof. intros [Hr _]. apply (co_mem _ (fo_coh _ (rf_ok _ _ (r_files _ _ Hr)))). Qed.

Lemma lend_ldb c a x : crep c a →
  ldb (serv_mem (lend c)) x =
    if decide (fsreq ≤ x < fsreq + PGSIZE) then ldb (c_mem c) (fsipcbuf + (x - fsreq))
    else ldb (serv_mem c) x.
Proof.
  intros Hc. unfold serv_mem, lend. cbn [c_serv set_c_serv sv_fs set_sv_fs fs_mem set_fs_mem].
  rewrite ldb_copy by apply Hc. rewrite Z2Nat.id by (unfold PGSIZE; lia). done.
Qed.

Lemma lend_serv c :
  c_serv (lend c) = set_sv_fs (set_fs_mem (serv_mem (lend c)) (sv_fs (c_serv c))) (c_serv c).
Proof. reflexivity. Qed.

Lemma lend_repr c a : crep c a → repr (c_serv (lend c)) a.
Proof.
  intros Hc. pose proof (cr_repr _ _ Hc) as Hr. pose proof (rf_ok _ _ (r_files _ _ Hr)) as Hok.
  assert (∀ x, ¬ in_page x → ldb (serv_mem (lend c)) x = ldb (serv_mem c) x) as Hout.
  { intros x Hx. rewrite (lend_ldb c a) by done. by rewrite decide_False. }
  assert (bytes_ok (serv_mem (lend c))) as Hb by apply bytes_ok_store_bytes, (serv_bytes c a Hc).
  rewrite lend_serv. generalize dependent (serv_mem (lend c)). intros m Hout Hb.
  apply repr_quiet; [done|..].
  - apply outside_mem; [done|done|]. intros x Hin. apply Hout. intros Hp%in_page_out. congruence.
  - intros x Hx. apply Hout. unfold in_page, fsreq, FILEVA, PGSIZE in *. lia.
Qed.

Lemma lend_page c a n off : crep c a → 0 ≤ off → off + Z.of_nat n ≤ PGSIZE →
  ldn n (serv_mem (lend c)) (fsreq + off) = ldn n (c_mem c) (fsipcbuf + off).
Proof.
  intros Hc Ho Hn. apply ldn_shift. intros i Hi. rewrite (lend_ldb c a) by done.
  rewrite decide_True by lia. f_equal. lia.
Qed.

Lemma lend_bytes c a off n : crep c a → 0 ≤ off → 0 ≤ n → off + n ≤ PGSIZE →
  mem_bytes (sv_fs (c_serv (lend c))) (fsreq + off) n = load_bytes (c_mem c) (fsipcbuf + off) (Z.to_nat n).
Proof.
  intros Hc Ho Hn Hle. apply list_eq. intros i. destruct (decide (Z.of_nat i < n)) as [Hi|Hi].
  - rewrite mem_bytes_lookup by done. rewrite lookup_load_bytes by lia. f_equal.
    change (fs_mem (sv_fs (c_serv (lend c)))) with (serv_mem (lend c)).
    rewrite (lend_ldb c a) by done. rewrite decide_True by lia. f_equal. lia.
  - rewrite !lookup_ge_None_2; [done| |].
    + rewrite length_load_bytes. lia.
    + pose proof (mem_bytes_length (sv_fs (c_serv (lend c))) (fsreq + off) n Hn). lia.
Qed.

(** The page of a descriptor: a file, its id and its mode. *)
Record fd_is (c : client) (fd id mode : Z) : Prop := {
  fi_num : 0 ≤ fd < NFD;
  fi_page : c_fd c !! fd = Some (fd_va (id mod MAXOPEN));
  fi_id : ld32 (serv_mem c) (fd_file_id (fd_va (id mod MAXOPEN))) = id;
  fi_mode : i32 (ld32 (serv_mem c) (fd_omode (fd_va (id mod MAXOPEN)))) = mode;
  fi_dev : ld32 (serv_mem c) (fd_dev_id (fd_va (id mod MAXOPEN))) = devfile_id
}.

(** Descriptors go on standing for the same files. *)
Definition fds_same (c c' : client) : Prop := ∀ fd id mode, fd_is c fd id mode → fd_is c' fd id mode.

(** A field other than the offset, in a state where only the offset of [id'] may
    have changed. *)
Lemma fd_field_kept s s' id id' off :
  fds_kept s s' id' → off = 0 ∨ off = 8 ∨ off = 12 →
  ld32 (fs_mem (sv_fs s')) (fd_va (id mod MAXOPEN) + off) =
  ld32 (fs_mem (sv_fs s)) (fd_va (id mod MAXOPEN) + off).
Proof.
  intros [_ Hk] Ho. apply ldn_ext. intros x Hx. pose proof (slot_range id). pose proof (slot_range id').
  apply Hk.
  - unfold fd_va, PGSIZE in Hx. lia.
  - unfold fd_offset, fd_va, PGSIZE in *.
    destruct (Z.lt_trichotomy (id mod MAXOPEN) (id' mod MAXOPEN)) as [H1|[H1|H1]]; lia.
Qed.

Lemma fds_same_kept c c' id' :
  c_fd c' = c_fd c → fds_kept (c_serv c) (c_serv c') id' → fds_same c c'.
Proof.
  intros Hf Hk fd id mode [H1 H2 H3 H4 H5]. unfold serv_mem, fd_file_id, fd_omode, fd_dev_id in *.
  split; [done|by rewrite Hf|..]; unfold serv_mem, fd_file_id, fd_omode, fd_dev_id.
  - by rewrite (fd_field_kept _ _ id id' 12 Hk) by auto.
  - by rewrite (fd_field_kept _ _ id id' 8 Hk) by auto.
  - rewrite <- (Z.add_0_r (fd_va _)). rewrite (fd_field_kept _ _ id id' 0 Hk) by auto.
    by rewrite Z.add_0_r.
Qed.

(** ** fsipc *)

Lemma served_ok {A} (m : V A) c x s' Q E :
  m (c_serv c) = Ret x s' → Q x (set_c_serv s' c) → wpx (served m) c Q E.
Proof. intros Hm HQ. unfold wpx, served. by rewrite Hm. Qed.

Lemma give_back_ldb c x : bytes_ok (serv_mem c) →
  ldb (c_mem (give_back c)) x =
    if decide (fsipcbuf ≤ x < fsipcbuf + PGSIZE) then ldb (serv_mem c) (fsreq + (x - fsipcbuf))
    else ldb (c_mem c) x.
Proof.
  intros Hb. unfold give_back. cbn [c_mem set_c_mem]. rewrite ldb_copy by done.
  rewrite Z2Nat.id by (unfold PGSIZE; lia). done.
Qed.

(** One request that is answered without a page. *)
Lemma fsipc_ok code h c a a' r s' Q E :
  crep c a → handlers code = Some h → (code =? 1) = false →
  h whom fsreq (c_serv (lend c)) = Ret r s' → repr s' a' →
  (∀ c', c_serv c' = s' → c_fd c' = c_fd c → crep c' a' →
     (∀ x, ¬ (fsipcbuf ≤ x < fsipcbuf + PGSIZE) → ldb (c_mem c') x = ldb (c_mem c) x) →
     (∀ i, 0 ≤ i < PGSIZE → ldb (c_mem c') (fsipcbuf + i) = ldb (fs_mem (sv_fs s')) (fsreq + i)) →
     Q r c') →
  wpx (fsipc code None) c Q E.
Proof.
  intros Hc Hh Hcode Hrun Hr HQ. unfold fsipc. wp_steps.
  assert (serve code whom (Z.lor (Z.lor PTE_P PTE_W) PTE_U) (c_serv (lend c)) =
    Ret (Some (r, 0, Z.lor (Z.lor PTE_P PTE_W) PTE_U)) s') as Hs.
  { unfold serve. change (negb (truthy (Z.land _ PTE_P))) with false. cbn match.
    rewrite Hcode, Hh. by erewrite v_bind by exact Hrun. }
  eapply served_ok; [exact Hs|]. wp_steps. set (c1 := set_c_serv s' (lend c)).
  assert (bytes_ok (serv_mem c1)) as Hb by apply (co_mem _ (fo_coh _ (rf_ok _ _ (r_files _ _ Hr)))).
  apply HQ; [reflexivity|reflexivity|..].
  - split; [done|]. unfold give_back. cbn [c_mem set_c_mem]. apply bytes_ok_store_bytes, Hc.
  - intros x Hx. rewrite give_back_ldb by done. by rewrite decide_False.
  - intros i Hi. rewrite give_back_ldb by done. rewrite decide_True by lia.
    by replace (fsipcbuf + i - fsipcbuf) with i by lia.
Qed.

Lemma fd_get_ok c fd id mode field Q E :
  fd_is c fd id mode →
  Q (i32 (ld32 (serv_mem c) (field (fd_va (id mod MAXOPEN))))) c → wpx (fd_get fd field) c Q E.
Proof. intros Hf HQ. unfold fd_get. wp_steps. rewrite (fi_page _ _ _ _ Hf). by wp_steps. Qed.

(** A change of the client's own memory. *)
Lemma crep_mem c a m : crep c a → bytes_ok m → crep (set_c_mem m c) a.
Proof. intros [Hr _] Hb. by split. Qed.
Lemma fd_is_mem c m fd id mode : fd_is c fd id mode → fd_is (set_c_mem m c) fd id mode.
Proof. intros []. by split. Qed.

(** Lending the page does not touch the descriptors. *)
Lemma lend_fds c a fd id mode : crep c a → fd_is c fd id mode → fd_is (lend c) fd id mode.
Proof.
  intros Hc [H1 H2 H3 H4 H5].
  assert (∀ off, 0 ≤ off → ld32 (serv_mem (lend c)) (fd_va (id mod MAXOPEN) + off) =
    ld32 (serv_mem c) (fd_va (id mod MAXOPEN) + off)) as Hl.
  { intros off Ho. apply ldn_ext. intros x Hx. rewrite (lend_ldb c a) by done. apply decide_False.
    pose proof (slot_range id). unfold fd_va, fsreq, FILEVA, PGSIZE in *. lia. }
  unfold fd_file_id, fd_omode, fd_dev_id in *.
  split; unfold fd_file_id, fd_omode, fd_dev_id; [done|done|by rewrite Hl by lia|by rewrite Hl by lia|].
  rewrite <- (Z.add_0_r (fd_va _)), Hl by lia. by rewrite Z.add_0_r.
Qed.

Lemma u32_i32 x : u32 (i32 x) = u32 x.
Proof. unfold u32, i32. case_match; zlia. Qed.

Lemma fd_id_range c a fd id mode f off :
  crep c a → fd_is c fd id mode → a_open a !! id = Some (f, off) → 0 ≤ id < 2 ^ 32.
Proof. intros Hc _ Ho. by destruct (r_open _ _ (cr_repr _ _ Hc) id f off Ho) as (Hid & _). Qed.

Lemma fds_same_mem c c' m : fds_same c c' → fds_same c (set_c_mem m c').
Proof. intros H fd id mode Hf. apply fd_is_mem. by apply H. Qed.

Lemma load_bytes_range m a n : bytes_ok m → Forall (λ x, 0 ≤ x < 256) (load_bytes m a n).
Proof.
  intros Hm. apply Forall_lookup. intros i x Hx. assert (i < n)%nat as Hi.
  { apply lookup_lt_Some in Hx. by rewrite length_load_bytes in Hx. }
  rewrite lookup_load_bytes in Hx by done. injection Hx as <-. apply Hm.
Qed.

(** The bytes of a range, as the server and as the client list them. *)
Lemma mem_bytes_load t a n m b :
  (∀ i, 0 ≤ i < Z.of_nat n → ldb (fs_mem t) (a + i) = ldb m (b + i)) →
  mem_bytes t a (Z.of_nat n) = load_bytes m b n.
Proof.
  intros H. apply list_eq. intros i. destruct (decide (i < n)%nat) as [Hi|Hi].
  - rewrite mem_bytes_lookup, lookup_load_bytes by lia. f_equal. apply H. lia.
  - rewrite !lookup_ge_None_2; [done|rewrite length_load_bytes; lia|].
    pose proof (mem_bytes_length t a (Z.of_nat n) ltac:(lia)). lia.
Qed.

(** ** Reading and writing *)

Definition apart (buf n : Z) : Prop := buf + n ≤ fsipcbuf ∨ fsipcbuf + PGSIZE ≤ buf.

Lemma devfile_read_ok c a fd id mode buf n f off l Q E :
  crep c a → fd_is c fd id mode → a_open a !! id = Some (f, off) → a_files a !! f = Some l →
  0 ≤ n < 2 ^ 64 → buf ≠ 0 →
  let out := slice l off (Z.min (Z.min n PGSIZE) (Z.max 0 (Z.of_nat (length l) - off))) in
  apart buf (Z.of_nat (length out)) →
  (∀ c', crep c' (advance a (a_files a) id f (off + Z.of_nat (length out))) → fds_same c c' →
     load_bytes (c_mem c') buf (length out) = out →
     Q (Z.of_nat (length out)) c') →
  wpx (devfile_read fd buf n) c Q E.
Proof.
  intros Hc Hfd Ho Hl Hn Hbuf out Hap HQ. unfold devfile_read.
  rewrite (proj2 (Z.eqb_neq _ _)) by done. wp_step. eapply fd_get_ok; [exact Hfd|].
  rewrite (fi_id _ _ _ _ Hfd). unfold put_mem. wp_steps.
  set (m1 := st64 _ _ _). set (c1 := set_c_mem m1 c).
  assert (crep c1 a) as Hc1.
  { apply crep_mem; [done|]. apply bytes_ok_stn, bytes_ok_stn, Hc. }
  pose proof (fd_id_range c a fd id mode f off Hc Hfd Ho) as Hid.
  assert (ld32 (serv_mem (lend c1)) (req_fileid fsreq) = id) as Hidf.
  { unfold req_fileid. rewrite <- (Z.add_0_r fsreq). rewrite (lend_page c1 a 4 0) by (done || unfold PGSIZE; lia).
    rewrite Z.add_0_r. cbn [c_mem c1 set_c_mem]. unfold m1, req_fileid, req_n.
    rewrite ldn_stn_ne, ld32_st32_eq, u32_i32, u32_id by (pow2; lia). done. }
  assert (ld64 (serv_mem (lend c1)) (req_n fsreq) = n) as Hnf.
  { unfold req_n. rewrite (lend_page c1 a 8 8) by (done || unfold PGSIZE; lia).
    cbn [c_mem c1 set_c_mem]. unfold m1, req_n. rewrite ld64_st64_eq, u64_id by (pow2; lia). done. }
  destruct (serve_read_ok (c_serv (lend c1)) a whom id f off l) as (s' & Hs' & Hr' & Hk & Hout);
    [by apply lend_repr|done..|].
  change (fs_mem (sv_fs (c_serv (lend c1)))) with (serv_mem (lend c1)) in Hs', Hr', Hout.
  rewrite Hnf in Hs', Hr', Hout. fold out in Hs', Hr', Hout.
  eapply fsipc_ok; [exact Hc1|reflexivity|reflexivity|exact Hs'|exact Hr'|].
  intros c2 Hc2 Hfd2 Hrep2 Hm2 Hp2.
  assert (Z.of_nat (length out) ≤ PGSIZE) as Hlen.
  { unfold out, slice. rewrite length_take. unfold PGSIZE. lia. }
  assert (fds_same c c2) as Hsame.
  { intros fd' id' mode' Hf'. apply (fds_same_kept (lend c1) c2 id); [done|by rewrite Hc2|].
    apply (lend_fds c1 a _ _ _ Hc1). by apply fd_is_mem. }
  assert (load_bytes (c_mem c2) fsipcbuf (length out) = out) as Hpage.
  { transitivity (mem_bytes (sv_fs s') (ret_buf fsreq) (Z.of_nat (length out))); [symmetry|exact Hout].
    apply mem_bytes_load. intros i Hi. unfold ret_buf. symmetry. apply Hp2. lia. }
  rewrite i32_id by (unfold PGSIZE in Hlen; lia).
  destruct (Z.of_nat (length out) <=? 0) eqn:Hz; [apply Z.leb_le in Hz|apply Z.leb_gt in Hz].
  - wp_steps. apply HQ; [done|done|]. destruct out; [done|cbn in Hz; lia].
  - wp_steps. rewrite Nat2Z.id. unfold ret_buf. rewrite Hpage.
    pose proof (load_bytes_range (c_mem c2) fsipcbuf (length out) (cr_bytes _ _ Hrep2)) as Hrg.
    rewrite Hpage in Hrg. apply HQ.
    + apply crep_mem; [done|]. apply bytes_ok_store_bytes, Hrep2.
    + by apply fds_same_mem.
    + by apply load_store_bytes.
Qed.

Lemma devfile_write_ok c a fd id mode buf n f off l Q E :
  crep c a → fd_is c fd id mode → a_open a !! id = Some (f, off) → a_files a !! f = Some l →
  0 ≤ n ≤ WRITE_MAX → off + n ≤ Z.of_nat (length l) → buf ≠ 0 → apart buf n →
  let data := load_bytes (c_mem c) buf (Z.to_nat n) in
  (∀ c', crep c' (advance a (<[f := overwrite l off data]> (a_files a)) id f (off + n)) → fds_same c c' →
     Q n c') →
  wpx (devfile_write fd buf n) c Q E.
Proof.
  intros Hc Hfd Ho Hl Hn Hle Hbuf Hap data HQ. unfold devfile_write.
  rewrite (proj2 (Z.eqb_neq _ _)) by done. wp_step. eapply fd_get_ok; [exact Hfd|].
  rewrite (fi_id _ _ _ _ Hfd). unfold put_mem.
  assert ((if WRITE_CLAMP <? n then WRITE_CLAMP else n) = n) as Hcl.
  { unfold WRITE_CLAMP, WRITE_MAX, PGSIZE in *. rewrite (proj2 (Z.ltb_ge _ _)) by lia. done. }
  rewrite Hcl. wp_steps. cbn [c_mem set_c_mem].
  set (m1 := st64 (st32 (c_mem c) (req_fileid fsipcbuf) (i32 id)) (req_n fsipcbuf) n).
  assert (bytes_ok m1) as Hb1 by (apply bytes_ok_stn, bytes_ok_stn, Hc).
  assert (load_bytes m1 buf (Z.to_nat n) = data) as Hdata.
  { apply load_bytes_ext. intros x Hx. unfold m1, apart, req_fileid, req_n, WRITE_MAX, PGSIZE in *.
    rewrite !ldb_stn_out by lia. done. }
  rewrite Hdata. set (m2 := store_bytes m1 _ data).
  assert (length data = Z.to_nat n) as Hdl by apply length_load_bytes.
  change (mkCl m2 (c_serv c) (c_fd c)) with (set_c_mem m2 c).
  match goal with |- wpx _ ?x _ _ => change x with (set_c_mem m2 c) end. set (c1 := set_c_mem m2 c).
  assert (crep c1 a) as Hc1 by (apply crep_mem; [done|by apply bytes_ok_store_bytes]).
  pose proof (fd_id_range c a fd id mode f off Hc Hfd Ho) as Hid.
  assert (∀ k x, fsipcbuf ≤ x → x + Z.of_nat k ≤ fsipcbuf + 16 → ldn k m2 x = ldn k m1 x) as Hhead.
  { intros k x Hx1 Hx2. apply ldn_ext. intros y Hy. apply ldb_store_bytes_out. unfold req_buf. lia. }
  assert (ld32 (serv_mem (lend c1)) (req_fileid fsreq) = id) as Hidf.
  { unfold req_fileid. rewrite <- (Z.add_0_r fsreq). rewrite (lend_page c1 a 4 0) by (done || unfold PGSIZE; lia).
    rewrite Z.add_0_r. cbn [c_mem c1 set_c_mem]. rewrite Hhead by lia. unfold m1, req_fileid, req_n.
    rewrite ldn_stn_ne, ld32_st32_eq, u32_i32, u32_id by (pow2; lia). done. }
  assert (ld64 (serv_mem (lend c1)) (req_n fsreq) = n) as Hnf.
  { unfold req_n. rewrite (lend_page c1 a 8 8) by (done || unfold PGSIZE; lia).
    cbn [c_mem c1 set_c_mem]. rewrite Hhead by lia. unfold m1, req_n.
    rewrite ld64_st64_eq, u64_id by (unfold WRITE_MAX, PGSIZE in Hn; pow2; lia). done. }
  assert (mem_bytes (sv_fs (c_serv (lend c1))) (req_buf fsreq) n = data) as Hbuf'.
  { unfold req_buf. rewrite (lend_bytes c1 a 16 n Hc1); [|lia|lia|unfold WRITE_MAX in Hn; lia].
    cbn [c_mem c1 set_c_mem]. unfold m2. rewrite <- Hdl at 1. apply load_store_bytes.
    apply load_bytes_range, Hc. }
  destruct (serve_write_ok (c_serv (lend c1)) a whom id f off l) as (s' & Hs' & Hr' & Hk);
    [by apply lend_repr|done|done|done| | |];
    change (fs_mem (sv_fs (c_serv (lend c1)))) with (serv_mem (lend c1)) in *;
    rewrite ?Hnf; [lia|lia|].
  rewrite Hnf in Hs', Hr'. rewrite Hbuf' in Hr'.
  eapply fsipc_ok; [exact Hc1|reflexivity|reflexivity|exact Hs'|exact Hr'|].
  intros c2 Hc2 Hfd2 Hrep2 Hm2 Hp2. wp_steps.
  rewrite i32_id by (unfold WRITE_MAX, PGSIZE in Hn; lia). apply HQ; [done|].
  intros fd' id' mode' Hf'. apply (fds_same_kept (lend c1) c2 id); [done|by rewrite Hc2|].
  apply (lend_fds c1 a _ _ _ Hc1). by apply fd_is_mem.
Qed.

Lemma fd_enter_ok fd bad op (f : Z → Z → Z → C Z) buf n c id mode Q E :
  fd_is c fd id mode → Z.land mode O_ACCMODE ≠ bad → op devfile = Some f →
  wpx (f fd buf n) c Q E → wpx (fd_enter fd bad op buf n) c Q E.
Proof.
  intros Hf Hm Hop HQ. pose proof Hf as [H1 H2 H3 H4 H5]. unfold fd_enter.
  rewrite (proj2 (Z.ltb_ge _ _)), (proj2 (Z.leb_gt _ _)) by lia. cbn [orb]. wp_steps. rewrite H2.
  wp_steps. eapply fd_get_ok; [exact Hf|]. rewrite H5.
  change (dev_lookup (i32 devfile_id)) with (Some devfile). cbn match. wp_steps.
  eapply fd_get_ok; [exact Hf|]. rewrite H4. by rewrite (proj2 (Z.eqb_neq _ _)), Hop.
Qed.

(** ** copy *)

Lemma overwrite_app l off x y :
  0 ≤ off → off + Z.of_nat (length x) ≤ Z.of_nat (length l) →
  overwrite (overwrite l off x) (off + Z.of_nat (length x)) y = overwrite l off (x ++ y).
Proof.
  intros Ho Hle. unfold overwrite.
  assert (length (take (Z.to_nat off) l) = Z.to_nat off) as Ht by (rewrite length_take; lia).
  replace (Z.to_nat (off + Z.of_nat (length x))) with (Z.to_nat off + length x)%nat by lia.
  set (D := drop _ l). rewrite (app_assoc _ x D).
  rewrite take_app_length' by (rewrite length_app; lia).
  rewrite drop_app_ge by (rewrite length_app; lia). unfold D. rewrite drop_drop.
  rewrite <- !app_assoc. do 3 f_equal. rewrite !length_app. f_equal. lia.
Qed.

Lemma overwrite_nil l off : 0 ≤ off ≤ Z.of_nat (length l) → overwrite l off [] = l.
Proof. intros Ho. unfold overwrite. cbn. by rewrite Nat.add_0_r, take_drop. Qed.

(** The abstract server after the rest of file [f] was copied. *)
Definition copied (a : AServ) (s d f g o p : Z) (rest ld : list Z) : AServ :=
  mkAServ (<[g := overwrite ld p rest]> (a_files a))
    (<[d := (g, p + Z.of_nat (length rest))]> (<[s := (f, o + Z.of_nat (length rest))]> (a_open a))).

Lemma copied_chunk a s d f g o p x y ld :
  s ≠ d → 0 ≤ p → p + Z.of_nat (length x) ≤ Z.of_nat (length ld) →
  copied (copied a s d f g o p x ld) s d f g (o + Z.of_nat (length x)) (p + Z.of_nat (length x)) y
    (overwrite ld p x) = copied a s d f g o p (x ++ y) ld.
Proof.
  intros Hsd Hp Hle. unfold copied. cbn [a_files a_open]. f_equal.
  - by rewrite insert_insert_eq, overwrite_app.
  - rewrite length_app. apply map_eq. intros i. rewrite !lookup_insert.
    repeat case_decide; try done; do 2 f_equal; lia.
Qed.

(** Reading [x] from one file and writing it to the other. *)
Lemma copied_advance a s d f g o p x ld : s ≠ d →
  advance (advance a (a_files a) s f (o + Z.of_nat (length x))) (<[g := overwrite ld p x]> (a_files a)) d g
    (p + Z.of_nat (length x)) = copied a s d f g o p x ld.
Proof. done. Qed.

Record copying (c : client) (a : AServ) (fs fd s d f g o p : Z) (ls ld : list Z) : Prop := {
  cp_rep : crep c a;
  cp_src : ∃ m, fd_is c fs s m ∧ Z.land m O_ACCMODE ≠ O_WRONLY;
  cp_dst : ∃ m, fd_is c fd d m ∧ Z.land m O_ACCMODE ≠ O_RDONLY;
  cp_fg : f ≠ g;
  cp_so : a_open a !! s = Some (f, o);
  cp_do : a_open a !! d = Some (g, p);
  cp_sf : a_files a !! f = Some ls;
  cp_df : a_files a !! g = Some ld;
  cp_room : p + (Z.of_nat (length ls) - o) ≤ Z.of_nat (length ld);
  cp_off : o ≤ Z.of_nat (length ls)
}.

Lemma copying_ids c a fs fd s d f g o p ls ld :
  copying c a fs fd s d f g o p ls ld → s ≠ d ∧ 0 ≤ o ∧ 0 ≤ p.
Proof.
  intros []. split; [intros ->; congruence|].
  destruct (r_open _ _ (cr_repr _ _ cp_rep0) s f o cp_so0) as (_ & _ & _ & _ & _ & _ & ? & _).
  destruct (r_open _ _ (cr_repr _ _ cp_rep0) d g p cp_do0) as (_ & _ & _ & _ & _ & _ & ? & _). done.
Qed.

Lemma copy_loop_ok fuel c a fs fd s d f g o p ls ld buf Q E :
  copying c a fs fd s d f g o p ls ld → buf ≠ 0 → apart buf 512 →
  Z.of_nat (length ls) - o < Z.of_nat fuel →
  (∀ c', crep c' (copied a s d f g o p (drop (Z.to_nat o) ls) ld) → fds_same c c' → Q 0 c') →
  wpx (copy_loop fuel fs fd buf) c Q E.
Proof.
  revert c a o p ld Q. induction fuel as [|fuel IH]; intros c a o p ld Q Hcp Hbuf Hap Hfuel HQ.
  { pose proof (cp_off _ _ _ _ _ _ _ _ _ _ _ _ Hcp). lia. }
  destruct (copying_ids _ _ _ _ _ _ _ _ _ _ _ _ Hcp) as (Hsd & Ho0 & Hp0).
  pose proof Hcp as [Hrep (ms & Hfs & Hms) (md & Hfd & Hmd) Hfg Hso Hdo Hsf Hdf Hroom Hoff].
  cbn [copy_loop]. wp_step. eapply fd_enter_ok; [exact Hfs|exact Hms|reflexivity|].
  eapply devfile_read_ok; [done|exact Hfs|exact Hso|exact Hsf|pow2; lia|done|..].
  { unfold slice. rewrite length_take. unfold apart, PGSIZE in *. lia. }
  intros c1 Hrep1 Hsame1 Hld1. set (x := slice ls o _) in *.
  set (n := Z.min (Z.min 512 PGSIZE) (Z.max 0 (Z.of_nat (length ls) - o))) in x.
  assert (n = Z.min 512 (Z.of_nat (length ls) - o)) as Hn by (unfold n, PGSIZE; lia).
  assert (Z.of_nat (length x) = n) as Hx.
  { unfold x, slice. rewrite length_take, length_drop. lia. }
  assert (drop (Z.to_nat o) ls = x ++ drop (Z.to_nat (o + n)) ls) as Hsplit.
  { unfold x, slice. replace (Z.to_nat (o + n)) with (Z.to_nat o + Z.to_nat n)%nat by lia.
    by rewrite <- drop_drop, take_drop. }
  destruct (0 <? Z.of_nat (length x)) eqn:Hz; [apply Z.ltb_lt in Hz|apply Z.ltb_ge in Hz].
  2: { assert (x = []) as Hx0 by (destruct x; [done|cbn in Hz; lia]).
    assert (o = Z.of_nat (length ls)) as Ho by lia.
    wp_steps. replace (Z.of_nat (length x)) with 0 by lia. apply HQ; [|done].
    rewrite drop_ge by lia. unfold copied. cbn [length]. rewrite overwrite_nil by lia.
    rewrite (insert_id (a_files a)) by done.
    rewrite (insert_id (<[s := _]> (a_open a))) by (rewrite lookup_insert_ne by done; rewrite Hdo; f_equal; f_equal; lia).
    rewrite Hx0 in Hrep1. exact Hrep1. }
  wp_step. eapply fd_enter_ok; [by apply Hsame1|exact Hmd|reflexivity|].
  set (a1 := advance a (a_files a) s f (o + Z.of_nat (length x))) in *.
  eapply (devfile_write_ok c1 a1 fd d md buf (Z.of_nat (length x)) g p ld);
    [done|by apply Hsame1|cbn; by rewrite lookup_insert_ne|done|unfold WRITE_MAX, PGSIZE; lia|lia|done|
     unfold apart in *; lia|].
  rewrite Nat2Z.id, Hld1. intros c2 Hrep2 Hsame2.
  unfold a1 in Hrep2. cbn [a_files advance] in Hrep2.
  rewrite (copied_advance a s d f g o p x ld Hsd) in Hrep2.
  rewrite (proj2 (Z.ltb_ge _ _)) by lia.
  eapply (IH c2 _ (o + Z.of_nat (length x)) (p + Z.of_nat (length x)) (overwrite ld p x)).
  - split; [done|exists ms|exists md|done|..].
    + split; [apply Hsame2, Hsame1, Hfs|done].
    + split; [apply Hsame2, Hsame1, Hfd|done].
    + cbn. rewrite lookup_insert_ne by done. by rewrite lookup_insert_eq.
    + cbn. by rewrite lookup_insert_eq.
    + cbn. by rewrite lookup_insert_ne.
    + cbn. by rewrite lookup_insert_eq.
    + rewrite overwrite_length by lia. lia.
    + lia.
  - done.
  - done.
  - lia.
  - intros c3 Hrep3 Hsame3. apply HQ.
    + rewrite Hsplit. rewrite <- copied_chunk by (done || lia). rewrite Hx in Hrep3 |- *. exact Hrep3.
    + intros fd' id' m' Hf'. by apply Hsame3, Hsame2, Hsame1.
Qed.

(** C6. copy() copies, through the client library and the file server: the page of
    requests goes back and forth in chunks of 512 bytes, the server walks block
    pointers and faults blocks in, and at the end the destination holds the rest
    of the source in place of its own bytes at its offset, no other file has
    changed, and every descriptor stands for what it did.  (The destination has
    the room: it is not extended.) *)
Theorem copy_loop_copies fuel c a fs fd s d f g o p ls ld buf :
  copying c a fs fd s d f g o p ls ld → buf ≠ 0 → apart buf 512 →
  Z.of_nat (length ls) - o < Z.of_nat fuel →
  ∃ c', copy_loop fuel fs fd buf c = Ret 0 c' ∧ fds_same c c' ∧
    repr (c_serv c') (copied a s d f g o p (drop (Z.to_nat o) ls) ld).
Proof.
  intros Hcp Hbuf Hap Hfuel.
  destruct (wp_returns (copy_loop fuel fs fd buf) c (λ r c', r = 0 ∧ fds_same c c' ∧
    repr (c_serv c') (copied a s d f g o p (drop (Z.to_nat o) ls) ld))) as (r & c' & Hrun & -> & H1 & H2).
  - eapply copy_loop_ok; [done..|]. intros c' Hrep Hsame. split; [done|]. split; [done|]. apply Hrep.
  - by exists c'.
Qed.

(** C32. write() of at most [WRITE_MAX] bytes, 16 less than a page, within the end of a
    file, on a descriptor of the file: it puts the caller's bytes into the abstract
    server's file at its offset and advances the offset, through the request page;
    every descriptor goes on standing for its file. *)
Theorem client_write_correct c a fd id mode buf n f off l :
  crep c a → fd_is c fd id mode → Z.land mode O_ACCMODE ≠ O_RDONLY →
  a_open a !! id = Some (f, off) → a_files a !! f = Some l →
  0 ≤ n ≤ WRITE_MAX → off + n ≤ Z.of_nat (length l) → buf ≠ 0 → apart buf n →
  ∃ c', write fd buf n c = Ret n c' ∧ fds_same c c' ∧
    repr (c_serv c') (advance a (<[f := overwrite l off (load_bytes (c_mem c) buf (Z.to_nat n))]> (a_files a))
      id f (off + n)).
Proof.
  intros Hrep Hfd Hm Ho Hl Hn Hle Hbuf Hap.
  destruct (wp_returns (write fd buf n) c (λ r c', r = n ∧ fds_same c c' ∧
    repr (c_serv c') (advance a (<[f := overwrite l off (load_bytes (c_mem c) buf (Z.to_nat n))]> (a_files a))
      id f (off + n)))) as (r & c' & Hrun & -> & H1 & H2).
  - unfold write. eapply fd_enter_ok; [done|done|reflexivity|]. eapply devfile_write_ok; [done..|].
    intros c' Hrep' Hsame. split; [done|]. split; [done|]. apply Hrep'.
  - by exists c'.
Qed.
End file.

(** ** At the small disk of [FsExample] *)

Module FileExample.
Definition ipcbuf : Z := 0x804000.
Definition stack : Z := 0xeebfd000.
(** Descriptor 0 reads the first file, descriptor 1 writes the second. *)
Definition ex_client : client := mkCl ∅ ex_serv (<[0 := fd_va 0]> {[1 := fd_va 1]}).

(** Behind the files, a device that takes all that is written to it. *)
Definition ex_devtab : list cdev := [mkCdev 99 None (Some (λ _ _ n, mret n)) None].

Lemma ex_crep : crep ex_client ex_aserv.
Proof. split; [apply ex_repr|apply bytes_ok_empty]. Qed.

Lemma ex_copying : copying ex_client ex_aserv 0 1 1024 1025 ex_file ex_file2 0 0 ex_text ex_text2.
Proof.
  split; try done.
  - apply ex_crep.
  - exists 0. split; [|done]. split; try done.
  - exists 1. split; [|done]. split; try done.
Qed.

(** "hello" over the first five of the seven bytes. *)
Lemma copy_loop_copies_witness :
  ∃ c', copy_loop ipcbuf 7 ex_devtab 10 0 1 stack ex_client = Ret 0 c' ∧
    ∃ a', repr (c_serv c') a' ∧ a_files a' !! ex_file2 = Some [104; 101; 108; 108; 111; 33; 33].
Proof.
  destruct (copy_loop_copies ipcbuf 7 ex_devtab 10 ex_client ex_aserv 0 1 1024 1025 ex_file ex_file2 0 0
    ex_text ex_text2 stack ex_copying) as (c' & Hrun & _ & Hr).
  - done.
  - right. unfold ipcbuf, stack, PGSIZE. lia.
  - cbn. lia.
  - exists c'. split; [exact Hrun|]. eexists. split; [exact Hr|]. by vm_compute.
Defined.

Lemma client_write_correct_witness :
  ∃ c', write ipcbuf 7 ex_devtab 1 stack 3 ex_client = Ret 3 c' ∧
    ∃ a', repr (c_serv c') a' ∧ a_files a' !! ex_file2 = Some [0; 0; 0; 108; 100; 33; 33].
Proof.
  destruct (cp_dst _ _ _ _ _ _ _ _ _ _ _ _ ex_copying) as (m & Hfd & Hm).
  destruct (client_write_correct ipcbuf 7 ex_devtab ex_client ex_aserv 1 1025 m stack 3 ex_file2 0 ex_text2
    ex_crep Hfd Hm) as (c' & Hrun & _ & Hr).
  - done.
  - done.
  - unfold WRITE_MAX, PGSIZE. lia.
  - cbn. lia.
  - done.
  - right. unfold ipcbuf, stack, PGSIZE. lia.
  - exists c'. split; [exact Hrun|]. eexists. split; [exact Hr|]. by vm_compute.
Defined.
End FileExample.
