(* ===== verification/MpConfig.v ===== *)
(** * The multiprocessor configuration table (kern/mpconfig.c)

    Pointers are physical addresses, which KADDR checks against the size of memory.
    The outer [option] of a result is a panic, or an access outside [cpus]; the
    inner one is NULL. *)
From S2P Require Import Prelude Mem StringC KState.

(** struct mp, struct mpconf and struct mpproc: fields, sizes. *)
Definition SIZEOF_MP : Z := 16.
Definition mp_physaddr (m : mem) (mp : Z) : Z := ld32 m (mp + 4).
Definition mp_type (m : mem) (mp : Z) : Z := ldb m (mp + 11).
Definition mp_imcrp (m : mem) (mp : Z) : Z := ldb m (mp + 12).
Definition conf_length (m : mem) (c : Z) : Z := ldn 2 m (c + 4).
Definition conf_version (m : mem) (c : Z) : Z := ldb m (c + 6).
Definition conf_entry (m : mem) (c : Z) : Z := ldn 2 m (c + 34).
Definition conf_lapicaddr (m : mem) (c : Z) : Z := ld32 m (c + 36).
Definition conf_xlength (m : mem) (c : Z) : Z := ldn 2 m (c + 40).
Definition conf_xchecksum (m : mem) (c : Z) : Z := ldb m (c + 42).
Definition conf_entries (c : Z) : Z := c + 44.
Definition SIZEOF_MPPROC : Z := 20.
Definition MPROC_EN : Z := 1.
Definition MPPROC_BOOT : Z := 2.
Definition MPPROC : Z := 0.
Definition MPLINTR : Z := 4.

(** A signature of four characters. *)
Definition sig_mp : list Z := [95; 77; 80; 95].
Definition sig_pcmp : list Z := [80; 67; 77; 80].
Definition has_sig (m : mem) (a : Z) (sig : list Z) : bool :=
  bool_decide (load_bytes m a 4 = sig).

(** The sum, an int, is returned as a byte. *)
Fixpoint sum_loop (n : nat) (m : mem) (a s : Z) : Z :=
  match n with O => s | S n' => sum_loop n' m (a + 1) (i32 (s + ldb m a)) end.
Definition sum (m : mem) (addr len : Z) : Z := u8 (sum_loop (Z.to_nat len) m addr 0).

Section mp.
Context (npages : Z) (m : mem).

Definition KADDR (pa : Z) : option Z := if pa / PGSIZE <? npages then Some pa else None.

Definition is_mp (a : Z) : bool := has_sig m a sig_mp && (sum m a SIZEOF_MP =? 0).

Fixpoint mp_scan (n : nat) (mp : Z) : option Z :=
  match n with
  | O => None
  | S n' => if is_mp mp then Some mp else mp_scan n' (mp + SIZEOF_MP)
  end.

(** [mp] runs over [a, a + len) in steps of its size. *)
Definition mpsearch1 (a len : Z) : option (option Z) :=
  mp ← KADDR a;
  lim ← KADDR (u64 (a + len));
  Some (mp_scan (Z.to_nat ((lim - mp + SIZEOF_MP - 1) / SIZEOF_MP)) mp).

Definition mpsearch : option (option Z) :=
  bda ← KADDR (Z.shiftl 0x40 4);
  let p := ldn 2 m (bda + 0x0E) in
  r ← (if truthy p then mpsearch1 (u32 (Z.shiftl p 4)) 1024
       else let p := u32 (ldn 2 m (bda + 0x13) * 1024) in mpsearch1 (u32 (p - 1024)) 1024);
  match r with Some mp => Some (Some mp) | None => mpsearch1 0xF0000 0x10000 end.

(** The configuration table and the floating pointer structure. *)
Definition mpconfig : option (option (Z * Z)) :=
  r ← mpsearch;
  match r with
  | None => Some None
  | Some mp =>
      if (mp_physaddr m mp =? 0) || negb (mp_type m mp =? 0) then Some None
      else
        conf ← KADDR (mp_physaddr m mp);
        if negb (has_sig m conf sig_pcmp) then Some None
        else if negb (sum m conf (conf_length m conf) =? 0) then Some None
        else if negb (conf_version m conf =? 1) && negb (conf_version m conf =? 4) then Some None
        else if negb (sum m (conf + conf_length m conf) (conf_xlength m conf) =? conf_xchecksum m conf)
        then Some None
        else Some (Some (conf, mp))
  end.

(** The globals that mp_init sets: [bootcpu] is an index into [cpus]; [imcr] tells
    whether the IMCR ports were written. *)
Record mpst : Type := mkMp {
  ncpu : Z; ismp : bool; lapicaddr : Z; bootcpu : Z;
  cpu_ids : gmap Z Z; cpu_stat : gmap Z Z; imcr : bool }.

(** One processor entry with these flags. *)
Definition mp_proc (flags : Z) (s : mpst) : mpst :=
  let s := if truthy (Z.land flags MPPROC_BOOT)
           then mkMp (ncpu s) (ismp s) (lapicaddr s) (ncpu s) (cpu_ids s) (cpu_stat s) (imcr s) else s in
  if ncpu s <? NCPU then
    if truthy (Z.land flags MPROC_EN)
    then mkMp (ncpu s + 1) (ismp s) (lapicaddr s) (bootcpu s) (<[ncpu s := ncpu s]> (cpu_ids s))
           (cpu_stat s) (imcr s)
    else s
  else s.

(** The loop over the entries; [n] of them are left at [p]. *)
Fixpoint mp_loop (n : nat) (p : Z) (s : mpst) : mpst :=
  match n with
  | O => s
  | S n' =>
      let t := ldb m p in
      if t =? MPPROC then mp_loop n' (p + SIZEOF_MPPROC) (mp_proc (ldb m (p + 3)) s)
      else if t <=? MPLINTR then mp_loop n' (p + 8) s
      else mkMp (ncpu s) false (lapicaddr s) (bootcpu s) (cpu_ids s) (cpu_stat s) (imcr s)
  end.

Definition mp0 : mpst := mkMp 0 false 0 0 ∅ ∅ false.

Definition mp_init : option mpst :=
  r ← mpconfig;
  match r with
  | None => Some mp0
  | Some (conf, mp) =>
      let s := mp_loop (Z.to_nat (conf_entry m conf)) (conf_entries conf)
                 (mkMp 0 true (conf_lapicaddr m conf) 0 ∅ ∅ false) in
      if bootcpu s <? NCPU then
        let st := <[bootcpu s := CPU_STARTED]> (cpu_stat s) in
        if negb (ismp s)
        then Some (mkMp 1 false 0 (bootcpu s) (cpu_ids s) st false)
        else Some (mkMp (ncpu s) true (lapicaddr s) (bootcpu s) (cpu_ids s) st
                     (truthy (mp_imcrp m mp)))
      else None
  end.

(** ** The search *)

Lemma mp_scan_spec n a :
  match mp_scan n a with
  | Some x => ∃ i : Z, 0 ≤ i < Z.of_nat n ∧ x = a + i * SIZEOF_MP ∧ is_mp x = true ∧
      ∀ j, 0 ≤ j < i → is_mp (a + j * SIZEOF_MP) = false
  | None => ∀ j, 0 ≤ j < Z.of_nat n → is_mp (a + j * SIZEOF_MP) = false
  end.
Proof.
  revert a. induction n as [|n IH]; intros a; cbn [mp_scan]; [lia|].
  destruct (is_mp a) eqn:Ha.
  - exists 0. rewrite Z.mul_0_l, Z.add_0_r. split_and!; [lia|lia|done|done|]. lia.
  - specialize (IH (a + SIZEOF_MP)). assert (∀ j, 0 < j →
      a + SIZEOF_MP + (j - 1) * SIZEOF_MP = a + j * SIZEOF_MP) as Hs by lia.
    assert (∀ k, (∀ j, 0 ≤ j < k → is_mp (a + SIZEOF_MP + j * SIZEOF_MP) = false) →
      ∀ j, 0 ≤ j < k + 1 → is_mp (a + j * SIZEOF_MP) = false) as Hext.
    { intros k Hk j Hj. destruct (decide (j = 0)) as [->|Hj0]; [by rewrite Z.mul_0_l, Z.add_0_r|].
      rewrite <- Hs by lia. apply Hk. lia. }
    destruct (mp_scan n (a + SIZEOF_MP)) as [x|].
    + destruct IH as (i & Hi & -> & Hx & Hno). exists (i + 1). split_and!; [lia|lia|lia|done|].
      by apply Hext.
    + intros j Hj. apply (Hext (Z.of_nat n)); [done|lia].
Qed.

(** ** The entries, decoded *)

(** The (type, flags) of the entries up to one of unknown type, and whether there
    is none such. *)
Fixpoint entries (n : nat) (p : Z) : list (Z * Z) * bool :=
  match n with
  | O => ([], true)
  | S n' =>
      let t := ldb m p in
      if MPLINTR <? t then ([], false)
      else
        let '(l, ok) := entries n' (p + if t =? MPPROC then SIZEOF_MPPROC else 8) in
        ((t, ldb m (p + 3)) :: l, ok)
  end.

Definition is_proc (flag : Z) (e : Z * Z) : bool := (e.1 =? MPPROC) && truthy (Z.land e.2 flag).

(** The usable processors of a list of entries. *)
Definition usable (l : list (Z * Z)) : Z := Z.of_nat (length (List.filter (is_proc MPROC_EN) l)).

(** The number of the boot processor: of the usable ones before the last entry that
    is marked so. *)
Fixpoint boot_number (k : Z) (l : list (Z * Z)) (d : Z) : Z :=
  match l with
  | [] => d
  | e :: l' =>
      boot_number (if is_proc MPROC_EN e then Z.min NCPU (k + 1) else k) l'
        (if is_proc MPPROC_BOOT e then k else d)
  end.

Lemma mp_proc_other f s :
  ismp (mp_proc f s) = ismp s ∧ lapicaddr (mp_proc f s) = lapicaddr s ∧
  cpu_stat (mp_proc f s) = cpu_stat s ∧ imcr (mp_proc f s) = imcr s.
Proof. unfold mp_proc. by repeat case_match. Qed.

Lemma mp_proc_counts f s :
  ncpu s ≤ NCPU →
  ncpu (mp_proc f s) = (if truthy (Z.land f MPROC_EN) then Z.min NCPU (ncpu s + 1) else ncpu s) ∧
  bootcpu (mp_proc f s) = (if truthy (Z.land f MPPROC_BOOT) then ncpu s else bootcpu s).
Proof.
  intros Hn. unfold mp_proc.
  destruct (truthy (Z.land f MPPROC_BOOT)); cbn [ncpu]; (destruct (ncpu s <? NCPU) eqn:Hlt;
    [apply Z.ltb_lt in Hlt|apply Z.ltb_ge in Hlt]); destruct (truthy (Z.land f MPROC_EN)); cbn; split; lia.
Qed.

Lemma mp_proc_ids f s :
  (∀ i, 0 ≤ i < ncpu s → cpu_ids s !! i = Some i) → 0 ≤ ncpu s →
  ∀ i, 0 ≤ i < ncpu (mp_proc f s) → cpu_ids (mp_proc f s) !! i = Some i.
Proof.
  intros Hs Hn i. unfold mp_proc. repeat case_match; cbn [ncpu cpu_ids]; try apply Hs;
    intros Hi; rewrite lookup_insert; case_decide; subst; try done; apply Hs; lia.
Qed.

(** The loop is the reference on the decoded entries. *)
Lemma mp_loop_ok n p s :
  0 ≤ ncpu s ≤ NCPU → ismp s = true → bytes_ok m →
  (∀ i, 0 ≤ i < ncpu s → cpu_ids s !! i = Some i) →
  let '(l, ok) := entries n p in
  let s' := mp_loop n p s in
  ismp s' = ok ∧ ncpu s' = Z.min NCPU (ncpu s + usable l) ∧
  bootcpu s' = boot_number (ncpu s) l (bootcpu s) ∧ lapicaddr s' = lapicaddr s ∧
  cpu_stat s' = cpu_stat s ∧ ∀ i, 0 ≤ i < ncpu s' → cpu_ids s' !! i = Some i.
Proof.
  revert p s. induction n as [|n IH]; intros p s Hn Hmp Hb Hid; cbn [entries mp_loop].
  { unfold usable. cbn. split_and!; try done. lia. }
  pose proof (Hb p) as Hp.
  destruct (MPLINTR <? ldb m p) eqn:Hbad; [apply Z.ltb_lt in Hbad|apply Z.ltb_ge in Hbad].
  { unfold MPLINTR, MPPROC in *. rewrite (proj2 (Z.eqb_neq _ _)), (proj2 (Z.leb_gt _ _)) by lia.
    unfold usable. cbn. split_and!; try done. lia. }
  destruct (ldb m p =? MPPROC) eqn:Ht.
  - specialize (IH (p + SIZEOF_MPPROC) (mp_proc (ldb m (p + 3)) s)).
    destruct (entries n (p + SIZEOF_MPPROC)) as [l ok].
    destruct (mp_proc_counts (ldb m (p + 3)) s) as [Hc1 Hc2]; [lia|].
    destruct (mp_proc_other (ldb m (p + 3)) s) as (Ho1 & Ho2 & Ho3 & Ho4).
    destruct IH as (H1 & H2 & H3 & H4 & H5 & H6).
    { rewrite Hc1. unfold NCPU in *. destruct (truthy _); lia. }
    { by rewrite Ho1. }
    { done. }
    { apply mp_proc_ids; [done|lia]. }
    unfold usable in *. cbn [List.filter boot_number].
    assert (∀ fl, is_proc fl (ldb m p, ldb m (p + 3)) = truthy (Z.land (ldb m (p + 3)) fl)) as Hip
      by (intros; unfold is_proc; cbn; by rewrite Ht).
    rewrite !Hip. split_and!; [done| | |congruence|congruence|done].
    + rewrite H2, Hc1. destruct (truthy (Z.land _ MPROC_EN)); cbn [length]; lia.
    + rewrite H3, Hc1, Hc2. done.
  - rewrite (proj2 (Z.leb_le _ _)) by done. specialize (IH (p + 8) s).
    destruct (entries n (p + 8)) as [l ok]. destruct IH as (H1 & H2 & H3 & H4 & H5 & H6); [done..|].
    unfold usable in *. cbn [List.filter boot_number].
    assert (∀ fl, is_proc fl (ldb m p, ldb m (p + 3)) = false) as Hip
      by (intros; unfold is_proc; cbn; by rewrite Ht).
    rewrite !Hip. split_and!; done.
Qed.

(** C17. mp_init reads the processor table: when a configuration with entries of
    known types is found, [ncpu] is the number of its usable processors, but at most
    NCPU, they are numbered in order, the boot processor is the last one marked so
    and is started, and the other globals come from the tables.  (A boot processor
    beyond the table is excluded here; see [mp_init_overrun].) *)
Theorem mp_init_correct conf mp l :
  bytes_ok m → mpconfig = Some (Some (conf, mp)) →
  entries (Z.to_nat (conf_entry m conf)) (conf_entries conf) = (l, true) →
  boot_number 0 l 0 < NCPU →
  ∃ s, mp_init = Some s ∧ ismp s = true ∧ ncpu s = Z.min NCPU (usable l) ∧
    (∀ i, 0 ≤ i < ncpu s → cpu_ids s !! i = Some i) ∧
    bootcpu s = boot_number 0 l 0 ∧ cpu_stat s = {[bootcpu s := CPU_STARTED]} ∧
    lapicaddr s = conf_lapicaddr m conf ∧ imcr s = truthy (mp_imcrp m mp).
Proof.
  intros Hb Hc He Hboot. unfold mp_init. rewrite Hc. cbn.
  pose proof (mp_loop_ok (Z.to_nat (conf_entry m conf)) (conf_entries conf)
    (mkMp 0 true (conf_lapicaddr m conf) 0 ∅ ∅ false)) as Hl. rewrite He in Hl.
  set (s := mp_loop _ _ _) in *. cbn [ncpu bootcpu lapicaddr cpu_stat ismp] in Hl.
  destruct Hl as (H1 & H2 & H3 & H4 & H5 & H6); [unfold NCPU; lia|done|done|lia|].
  rewrite H3, (proj2 (Z.ltb_lt _ _)) by done. rewrite H1. cbn [negb]. eexists. split; [reflexivity|].
  cbn [ismp ncpu cpu_ids bootcpu cpu_stat lapicaddr imcr]. rewrite H5, Z.add_0_l in *. by split_and!.
Qed.

(** After NCPU usable processors an entry that is marked as the boot processor makes
    [bootcpu] point past the table, and mp_init writes there. *)
Theorem mp_init_overrun conf mp l :
  bytes_ok m → mpconfig = Some (Some (conf, mp)) →
  entries (Z.to_nat (conf_entry m conf)) (conf_entries conf) = (l, true) →
  NCPU ≤ boot_number 0 l 0 → mp_init = None.
Proof.
  intros Hb Hc He Hboot. unfold mp_init. rewrite Hc. cbn.
  pose proof (mp_loop_ok (Z.to_nat (conf_entry m conf)) (conf_entries conf)
    (mkMp 0 true (conf_lapicaddr m conf) 0 ∅ ∅ false)) as Hl. rewrite He in Hl.
  set (s := mp_loop _ _ _) in *. cbn [ncpu bootcpu lapicaddr cpu_stat ismp] in Hl.
  destruct Hl as (H1 & H2 & H3 & H4 & H5 & H6); [unfold NCPU; lia|done|done|lia|].
  by rewrite H3, (proj2 (Z.ltb_ge _ _)).
Qed.
End mp.

(** ** A table of three processors, the second one off and the third the boot one *)

Module MpExample.
Definition bytes (a : Z) (l : list Z) (m : mem) : mem := store_bytes m a l.

(** At 0xF0010 the structure, at 0x9000 the table; 640 KB of base memory. *)
Definition ex_mp : list Z := [95; 77; 80; 95; 0; 144; 0; 0; 1; 4; 16; 0; 0; 0; 0; 0].
Definition ex_proc (id flags : Z) : list Z := [0; id; 20; flags] ++ replicate 16 0.
Definition ex_conf : list Z :=
  [80; 67; 77; 80; 112; 0; 4; 0] ++ replicate 26 0 ++ [4; 0; 0; 0; 224; 254; 0; 0; 0; 0] ++
  ex_proc 0 1 ++ ex_proc 1 0 ++ [1; 0; 0; 0; 0; 0; 0; 0] ++ ex_proc 2 3.
(** The checksum byte makes the sum zero. *)
Definition fix_sum (k len : Z) (m : mem) (a : Z) : mem := stb m (a + k) (ldb m (a + k) - sum m a len).
Definition ex_m : mem :=
  let m := bytes 0xF0010 ex_mp (bytes 0x9000 ex_conf (bytes 0x413 [128; 2] ∅)) in
  fix_sum 7 112 (fix_sum 10 16 m 0xF0010) 0x9000.

Lemma ex_m_bytes : bytes_ok ex_m.
Proof.
  unfold ex_m, fix_sum, bytes. do 2 apply bytes_ok_stb. do 3 apply bytes_ok_store_bytes.
  by intros a.
Qed.

Lemma mp_init_correct_witness :
  ∃ s, mp_init 1024 ex_m = Some s ∧ ncpu s = 2 ∧ bootcpu s = 1.
Proof.
  destruct (mp_init_correct 1024 ex_m 0x9000 0xF0010 [(0, 1); (0, 0); (1, 0); (0, 3)] ex_m_bytes)
    as (s & Hs & _ & Hn & _ & Hb & _).
  - by vm_compute.
  - by vm_compute.
  - by vm_compute.
  - exists s. split; [exact Hs|]. rewrite Hn, Hb. clear. split; reflexivity.
Defined.
End MpExample.
