(* ===== verification/Spawn.v ===== *)
(** * spawn (lib/spawn.c)

    The parent [e] builds the address space of the child [c] from an ELF file that
    it reads through [Fd.readn] and [Fd.seek], over the mappings of [Fork.VM].  The
    arguments are lists of bytes.  sys_exofork, sys_env_set_trapframe and
    sys_env_set_status do not touch address spaces: their results are arguments,
    and the calls that succeed are listed in the result. *)
From stdpp Require Import gmap.
From S2P Require Import Prelude Mem Printfmt KState Syscall Fork Fd.

(** ** struct Elf and struct Proghdr (inc/elf.h): offsets *)

Definition E_MAGIC : Z := 0.
Definition E_ENTRY : Z := 24.
Definition E_PHOFF : Z := 32.
Definition E_PHNUM : Z := 56.
Definition P_TYPE : Z := 0.
Definition P_FLAGS : Z := 4.
Definition P_OFFSET : Z := 8.
Definition P_VA : Z := 16.
Definition P_FILESZ : Z := 32.
Definition P_MEMSZ : Z := 40.
Definition SIZEOF_PROGHDR : Z := 56.
Definition ELF_MAGIC : Z := 0x464C457F.
Definition ELF_PROG_LOAD : Z := 1.
Definition ELF_PROG_FLAG_WRITE : Z := 2.
Definition ELF_BUF : Z := 512.

Definition UTEMP2USTACK (addr : Z) : Z := u64 (addr + (USTACKTOP - PGSIZE) - UTEMP).

Inductive act : Type :=
  | SetTrapframe (c rip rsp : Z) | SetStatus (c status : Z) | Destroyed (c : Z).

Section spawn.
Context (e : Z) (devtab : list Dev).

Definition getn (n : nat) (va : Z) : U Z :=
  a ← frame_of e va false; gets (λ s, ldn n (pmem s) a).

(** ** The stack of the child *)

(** The loop over the arguments, the [i]-th first. *)
Fixpoint put_args (args : list (list Z)) (argv_store i string_store : Z) : U Z :=
  match args with
  | [] => mret string_store
  | a :: args' =>
      put64 e (u64 (argv_store + 8 * i)) (UTEMP2USTACK string_store);;
      put_str e string_store a;;
      put_args args' argv_store (i + 1) (string_store + (Z.of_nat (length a) + 1))
  end.

Definition string_size (argv : list (list Z)) : Z :=
  foldr (λ a n, Z.of_nat (length a) + 1 + n) 0 argv.

(** The result and [*init_esp]. *)
Definition init_stack (child : Z) (argv : list (list Z)) : U (Z * Z) :=
  let argc := Z.of_nat (length argv) in
  let string_store := u64 (UTEMP + PGSIZE - string_size argv) in
  let argv_store := u64 (ROUNDDOWN string_store 8 - 8 * (argc + 1)) in
  if u64 (argv_store - 16) <? UTEMP then mret (- E_NO_MEM, 0)
  else
    r ← u_page_alloc e UTEMP UPW;
    if r <? 0 then mret (r, 0)
    else
      string_store ← put_args argv argv_store 0 string_store;
      put64 e (argv_store + 8 * argc) 0;;
      assert_ (string_store =? UTEMP + PGSIZE);;
      put64 e (argv_store - 8) (UTEMP2USTACK argv_store);;
      put64 e (argv_store - 16) argc;;
      let init_esp := UTEMP2USTACK (argv_store - 16) in
      r ← u_page_map e UTEMP child (USTACKTOP - PGSIZE) UPW;
      if r <? 0 then _ ← u_page_unmap e UTEMP; mret (r, init_esp)
      else
        r ← u_page_unmap e UTEMP;
        if r <? 0 then _ ← u_page_unmap e UTEMP; mret (r, init_esp)
        else mret (0, init_esp).

(** ** The segments *)

(** One page of a segment; None: go on. *)
Definition map_page (child va fd filesz fileoffset perm i : Z) : U (option Z) :=
  let stop r (k : U (option Z)) : U (option Z) := if r <? 0 then mret (Some r) else k in
  if filesz <=? u64 i then
    r ← u_page_alloc child (u64 (va + i)) perm;
    stop r (mret None)
  else
    r ← u_page_alloc e UTEMP UPW;
    stop r (
      r ← seek e fd (i32 (fileoffset + i));
      stop r (
        r ← readn e devtab fd UTEMP (Z.min PGSIZE (u64 (filesz - i)));
        stop (i32 r) (
          r ← u_page_map e UTEMP child (u64 (va + i)) perm;
          if r <? 0 then panic
          else _ ← u_page_unmap e UTEMP; mret None))).

(** [i] is an int, compared as a size_t. *)
Fixpoint map_pages (fuel : nat) (child va memsz fd filesz fileoffset perm i : Z) : U Z :=
  if u64 i <? memsz then
    match fuel with
    | O => panic
    | S fuel' =>
        r ← map_page child va fd filesz fileoffset perm i;
        match r with
        | Some r => mret r
        | None => map_pages fuel' child va memsz fd filesz fileoffset perm (i32 (i + PGSIZE))
        end
    end
  else mret 0.

Definition map_segment (child va memsz fd filesz fileoffset perm : Z) : U Z :=
  let i := va mod PGSIZE in
  let memsz := u64 (memsz + i) in
  map_pages (Z.to_nat ((memsz + PGSIZE - 1) / PGSIZE)) child (va - i) memsz fd
    (u64 (filesz + i)) (i32 (fileoffset - i)) perm 0.

(** ** Shared pages *)

Definition PTE_USER : Z := PTE_SYSCALL.

Definition copy_shared_pages (child : Z) : U Z :=
  for_each (UTEXT / PGSIZE) (UTOP / PGSIZE) (λ v,
    let addr := v * PGSIZE in
    s ← get;
    when (has_pd e v s)
      (when (has (perm_of e addr s) PTE_SHARE)
        (_ ← u_page_map e addr child addr (Z.land (perm_of e addr s) PTE_USER); mret tt)));;
  mret 0.

(** ** spawn *)

(** sys_env_destroy: the child's mappings go. *)
Definition drop_env (child : Z) (s : VM) : VM :=
  let mine := filter (λ kx, kx.1.1 = child) (pte s) in
  let rest := filter (λ kx, kx.1.1 ≠ child) (pte s) in
  foldr release (set_pte rest s) (remove_dups ((λ kx, kx.2.1) <$> map_to_list mine)).
Definition u_env_destroy (child : Z) : U unit := modify (drop_env child).

(** The loop over the program headers. *)
Fixpoint load_segments (n : nat) (child fd ph : Z) : U Z :=
  match n with
  | O => mret 0
  | S n' =>
      p_type ← getn 4 (ph + P_TYPE);
      if negb (p_type =? ELF_PROG_LOAD) then load_segments n' child fd (ph + SIZEOF_PROGHDR)
      else
        p_flags ← getn 4 (ph + P_FLAGS);
        let perm := Z.lor PTE_P PTE_U in
        let perm := if truthy (Z.land p_flags ELF_PROG_FLAG_WRITE) then Z.lor perm PTE_W else perm in
        p_va ← getn 8 (ph + P_VA); p_memsz ← getn 8 (ph + P_MEMSZ);
        p_filesz ← getn 8 (ph + P_FILESZ); p_offset ← getn 8 (ph + P_OFFSET);
        r ← map_segment child p_va p_memsz fd p_filesz (i32 p_offset) perm;
        if r <? 0 then mret r else load_segments n' child fd (ph + SIZEOF_PROGHDR)
  end.

(** [elf_buf] is the array on spawn's stack; the calls that return results other
    than 0 are arguments. *)
Context (open : U Z) (elf_buf r_exofork r_tf r_status : Z).

Definition spawn (argv : list (list Z)) : U (Z * list act) :=
  fd ← open;
  if fd <? 0 then mret (fd, [])
  else
    n ← readn e devtab fd elf_buf ELF_BUF;
    magic ← (if n =? ELF_BUF then getn 4 (elf_buf + E_MAGIC) else mret 0);
    if negb (n =? ELF_BUF) || negb (magic =? ELF_MAGIC) then
      _ ← close e devtab fd; mret (- E_NOT_EXEC, [])
    else if r_exofork <? 0 then mret (r_exofork, [])
    else
      let child := r_exofork in
      rip ← getn 8 (elf_buf + E_ENTRY);
      '(r, rsp) ← init_stack child argv;
      if r <? 0 then mret (r, [])
      else
        phoff ← getn 8 (elf_buf + E_PHOFF);
        phnum ← getn 2 (elf_buf + E_PHNUM);
        r ← load_segments (Z.to_nat phnum) child fd (u64 (elf_buf + phoff));
        if r <? 0 then
          u_env_destroy child;;
          _ ← close e devtab fd;
          mret (r, [Destroyed child])
        else
          _ ← close e devtab fd;
          r ← copy_shared_pages child;
          if r <? 0 then panic
          else if r_tf <? 0 then panic
          else if r_status <? 0 then panic
          else mret (child, [SetTrapframe child rip rsp; SetStatus child ENV_RUNNABLE]).
End spawn.
