(* ===== verification/SpawnSpec.v ===== *)
(** * What spawn builds (lib/spawn.c)

    The stack of the child, the segments, the shared pages, and spawn as a whole,
    against an interface of the device of the program's file ([FileDev]). *)
From stdpp Require Import gmap.
From S2P Require Import Prelude Mem Printfmt KState Syscall FsServ Fork ForkSpec ForkCopy Fd FdSpec Spawn.

(** ** Stores into a page that one environment maps at one address *)

Section stores.
Context (e : Z).

(** [s'] differs from [s] in memory only. *)
Record only_mem (s s' : VM) : Prop := {
  om_pte : pte s' = pte s; om_free : pfree s' = pfree s; om_tables : tables s' = tables s }.

Lemma only_mem_refl s : only_mem s s. Proof. by split. Qed.
Lemma only_mem_trans s1 s2 s3 : only_mem s1 s2 → only_mem s2 s3 → only_mem s1 s3.
Proof. intros [] []. split; congruence. Qed.
Lemma wf_only_mem s s' : wf s → only_mem s s' → bytes_ok (pmem s') → wf s'.
Proof. intros [W1 W2 W3 W4 W5] [H1 H2 H3] Hb. split; rewrite ?H1, ?H2, ?H3; done. Qed.

Lemma frame_of_ok va (w : bool) s fr x E (Q : Z → VM → Prop) :
  pte s !! (e, vpn va) = Some (fr, x) → (w → has x PTE_W) → Q (fr * PGSIZE + va mod PGSIZE) s →
  wpx (frame_of e va w) s Q E.
Proof.
  intros Hm Hw HQ. unfold frame_of. wp_step. wp_step. rewrite Hm.
  destruct w; cbn [andb]; [rewrite (Is_true_true_1 _ (Hw I)); cbn [negb]|]; by wp_step.
Qed.

Lemma getn_ok n va s fr x E (Q : Z → VM → Prop) :
  pte s !! (e, vpn va) = Some (fr, x) → Q (ldn n (pmem s) (fr * PGSIZE + va mod PGSIZE)) s →
  wpx (getn e n va) s Q E.
Proof. intros Hm HQ. unfold getn. wp_step. eapply frame_of_ok; [done|done|]. by wp_step. Qed.

(** An address in the page at [base], as an offset. *)
Context (base : Z) (Hbase : base mod PGSIZE = 0).

Lemma page_off o : 0 ≤ o < PGSIZE → vpn (base + o) = vpn base ∧ (base + o) mod PGSIZE = o.
Proof. unfold vpn, PGSIZE in *. intros. split; zlia. Qed.

Lemma put8_at o v s fr x E (Q : unit → VM → Prop) :
  0 ≤ o < PGSIZE → pte s !! (e, vpn base) = Some (fr, x) → has x PTE_W →
  Q tt (set_pmem (stb (pmem s) (fr * PGSIZE + o) v) s) → wpx (put8 e (base + o) v) s Q E.
Proof.
  intros Ho Hm Hw HQ. destruct (page_off o Ho) as [Hv Hmod]. unfold put8. wp_step.
  eapply frame_of_ok; [by rewrite Hv|done|]. rewrite Hmod. by wp_step.
Qed.

Lemma put64_at o v s fr x E (Q : unit → VM → Prop) :
  0 ≤ o < PGSIZE → pte s !! (e, vpn base) = Some (fr, x) → has x PTE_W →
  Q tt (set_pmem (st64 (pmem s) (fr * PGSIZE + o) v) s) → wpx (put64 e (base + o) v) s Q E.
Proof.
  intros Ho Hm Hw HQ. destruct (page_off o Ho) as [Hv Hmod]. unfold put64. wp_step.
  eapply frame_of_ok; [by rewrite Hv|done|]. rewrite Hmod. by wp_step.
Qed.

Lemma put_str_at l o s fr x E (Q : unit → VM → Prop) :
  0 ≤ o → o + Z.of_nat (length l) < PGSIZE → pte s !! (e, vpn base) = Some (fr, x) → has x PTE_W →
  Q tt (set_pmem (store_bytes (pmem s) (fr * PGSIZE + o) (l ++ [0])) s) →
  wpx (put_str e (base + o) l) s Q E.
Proof.
  revert o s. induction l as [|b l IH]; intros o s Ho Hl Hm Hw HQ; cbn [put_str app] in *.
  - cbn [length] in Hl. eapply put8_at; eauto with lia.
  - cbn [length] in Hl. wp_step. eapply put8_at; [lia|done|done|].
    rewrite <- Z.add_assoc. apply IH; [lia|lia|done|done|].
    cbn [pmem set_pmem]. by rewrite Z.add_assoc.
Qed.
End stores.

(** ** What init_stack writes *)

Definition STACKPAGE : Z := USTACKTOP - PGSIZE.
Definition bytes_of (l : list Z) : Prop := Forall (λ x, 0 ≤ x < 256) l.

Lemma string_size_nonneg l : 0 ≤ string_size l.
Proof. induction l as [|a l IH]; [done|]. change (0 ≤ Z.of_nat (length a) + 1 + string_size l). lia. Qed.
Lemma string_size_cons a l : string_size (a :: l) = Z.of_nat (length a) + 1 + string_size l.
Proof. reflexivity. Qed.

Lemma UTEMP2USTACK_at o : 0 ≤ o < PGSIZE → UTEMP2USTACK (UTEMP + o) = STACKPAGE + o.
Proof.
  intros Ho. unfold UTEMP2USTACK. change (USTACKTOP - PGSIZE) with STACKPAGE.
  assert (0 < STACKPAGE < 2 ^ 40) by done. unfold PGSIZE in Ho. rewrite u64_id by (pow2; lia). lia.
Qed.

(** The stores of the loop over the arguments; [b] is the address of the page,
    [av] and [st] are offsets. *)
Fixpoint args_mem (b : Z) (args : list (list Z)) (av i st : Z) (m : mem) : mem :=
  match args with
  | [] => m
  | a :: l =>
      args_mem b l av (i + 1) (st + (Z.of_nat (length a) + 1))
        (store_bytes (st64 m (b + (av + 8 * i)) (STACKPAGE + st)) (b + st) (a ++ [0]))
  end.

Lemma args_mem_bytes b args av i st m : bytes_ok m → bytes_ok (args_mem b args av i st m).
Proof.
  revert i st m. induction args as [|a l IH]; intros i st m Hm; cbn [args_mem]; [done|].
  apply IH, bytes_ok_store_bytes. exact (bytes_ok_stn 8 _ _ _ Hm).
Qed.

Lemma args_mem_out b args av i st m x :
  0 ≤ i → av + 8 * (i + Z.of_nat (length args)) ≤ st →
  x < b + av + 8 * i ∨ b + av + 8 * (i + Z.of_nat (length args)) ≤ x < b + st ∨
    b + st + string_size args ≤ x →
  ldb (args_mem b args av i st m) x = ldb m x.
Proof.
  revert i st m. induction args as [|a l IH]; intros i st m Hi Hst Hx; cbn [args_mem]; [done|].
  rewrite string_size_cons in Hx. cbn [length] in *. pose proof (string_size_nonneg l).
  rewrite IH by lia. rewrite ldb_store_bytes_out by (rewrite length_app; cbn [length]; lia).
  apply ldb_stn_out. lia.
Qed.

Lemma args_mem_at b args av i st m j a :
  0 ≤ i → 0 ≤ av → av + 8 * (i + Z.of_nat (length args)) ≤ st → st + string_size args ≤ PGSIZE →
  Forall bytes_of args → args !! j = Some a →
  ld64 (args_mem b args av i st m) (b + av + 8 * (i + Z.of_nat j)) =
    STACKPAGE + st + string_size (take j args) ∧
  load_bytes (args_mem b args av i st m) (b + st + string_size (take j args)) (S (length a)) = a ++ [0].
Proof.
  revert i st m j. induction args as [|a0 l IH]; intros i st m j Hi Hav Hst Hend Hall Hj; [done|].
  cbn [args_mem]. rewrite string_size_cons in Hend. cbn [length] in *. pose proof (string_size_nonneg l).
  inversion_clear Hall as [|?? Ha Hl].
  destruct j as [|j]; cbn [take] in *.
  - injection Hj as <-. change (string_size []) with 0. rewrite !Z.add_0_r. cbn [Z.of_nat]. rewrite ?Z.add_0_r.
    split.
    + transitivity (ld64 (st64 m (b + (av + 8 * i)) (STACKPAGE + st)) (b + av + 8 * i)).
      { apply ldn_ext. intros x Hx. rewrite args_mem_out by lia.
        apply ldb_store_bytes_out. lia. }
      rewrite <- Z.add_assoc, ld64_st64_eq. apply u64_id.
      assert (0 < STACKPAGE < 2 ^ 40) by done. unfold PGSIZE in *. pow2. lia.
    + transitivity (load_bytes (store_bytes (st64 m (b + (av + 8 * i)) (STACKPAGE + st)) (b + st) (a0 ++ [0]))
        (b + st) (length (a0 ++ [0]))).
      * rewrite length_app. cbn [length]. rewrite Nat.add_1_r. apply load_bytes_ext. intros x Hx.
        apply args_mem_out; lia.
      * apply load_store_bytes, Forall_app. split; [done|]. repeat constructor; lia.
  - cbn in Hj. rewrite string_size_cons.
    specialize (IH (i + 1) (st + (Z.of_nat (length a0) + 1))
      (store_bytes (st64 m (b + (av + 8 * i)) (STACKPAGE + st)) (b + st) (a0 ++ [0])) j).
    destruct IH as [IH1 IH2]; [lia|lia|lia|lia|done|done|]. split.
    + replace (b + av + 8 * (i + Z.of_nat (S j))) with (b + av + 8 * (i + 1 + Z.of_nat j)) by lia.
      rewrite IH1. lia.
    + replace (b + st + (Z.of_nat (length a0) + 1 + string_size (take j l))) with
        (b + (st + (Z.of_nat (length a0) + 1)) + string_size (take j l)) by lia. exact IH2.
Qed.

Section init_stack.
Context (e : Z).

Lemma put_args_ok args av i st s fr x E (Q : Z → VM → Prop) :
  pte s !! (e, vpn UTEMP) = Some (fr, x) → has x PTE_W →
  0 ≤ i → 0 ≤ av → av + 8 * (i + Z.of_nat (length args)) ≤ st → st + string_size args ≤ PGSIZE →
  Q (UTEMP + st + string_size args) (set_pmem (args_mem (fr * PGSIZE) args av i st (pmem s)) s) →
  wpx (put_args e args (UTEMP + av) i (UTEMP + st)) s Q E.
Proof.
  revert i st s. induction args as [|a l IH]; intros i st s Hm Hw Hi Hav Hst Hend HQ; cbn [put_args].
  { wp_step. change (string_size []) with 0 in *. rewrite Z.add_0_r in HQ. destruct s. exact HQ. }
  rewrite string_size_cons in *. cbn [length] in *. pose proof (string_size_nonneg l).
  assert (UTEMP < 2 ^ 30 ∧ 0 < UTEMP) as HU by done. unfold PGSIZE in Hend. pow2.
  rewrite u64_id by lia. rewrite UTEMP2USTACK_at by (unfold PGSIZE; lia). rewrite <- (Z.add_assoc UTEMP av).
  wp_step. eapply put64_at; [done|unfold PGSIZE; lia|done|done|].
  wp_step. eapply put_str_at; [done|lia|unfold PGSIZE; lia|exact Hm|done|].
  rewrite <- Z.add_assoc. apply IH; [done|done|lia|lia|lia|unfold PGSIZE; lia|].
  cbn [args_mem pmem set_pmem] in *.
  replace (UTEMP + (st + (Z.of_nat (length a) + 1)) + string_size l) with
    (UTEMP + st + (Z.of_nat (length a) + 1 + string_size l)) by lia. exact HQ.
Qed.

(** Offsets in the page: the array of pointers, with its NULL. *)
Definition argv_at (argv : list (list Z)) : Z :=
  (PGSIZE - string_size argv) / 8 * 8 - 8 * (Z.of_nat (length argv) + 1).

(** The page at [b], as the child finds it when its stack pointer is at offset
    [argv_at argv - 16]: argc, argv, the array, the strings. *)
Record stack_layout (m : mem) (b : Z) (argv : list (list Z)) : Prop := {
  sl_argc : ld64 m (b + (argv_at argv - 16)) = Z.of_nat (length argv);
  sl_argv : ld64 m (b + (argv_at argv - 8)) = STACKPAGE + argv_at argv;
  sl_null : ld64 m (b + (argv_at argv + 8 * Z.of_nat (length argv))) = 0;
  sl_args j a : argv !! j = Some a → ∃ p, 0 ≤ p ∧ p + Z.of_nat (length a) < PGSIZE ∧
    ld64 m (b + (argv_at argv + 8 * Z.of_nat j)) = STACKPAGE + p ∧
    load_bytes m (b + p) (S (length a)) = a ++ [0] }.

Definition stack_mem (b : Z) (argv : list (list Z)) (m : mem) : mem :=
  let av := argv_at argv in
  st64 (st64 (st64 (args_mem b argv av 0 (PGSIZE - string_size argv) m)
    (b + (av + 8 * Z.of_nat (length argv))) 0) (b + (av - 8)) (STACKPAGE + av))
    (b + (av - 16)) (Z.of_nat (length argv)).

Lemma argv_at_range argv : 16 ≤ argv_at argv →
  argv_at argv + 8 * (Z.of_nat (length argv) + 1) ≤ PGSIZE - string_size argv ∧
  0 ≤ string_size argv < PGSIZE ∧ Z.of_nat (length argv) < 512 ∧ argv_at argv < PGSIZE.
Proof.
  pose proof (string_size_nonneg argv). unfold argv_at, PGSIZE. intros.
  Z.to_euclidean_division_equations. lia.
Qed.

Lemma string_size_take j argv a : argv !! j = Some a →
  0 ≤ string_size (take j argv) ∧
  string_size (take j argv) + Z.of_nat (length a) + 1 ≤ string_size argv.
Proof.
  split; [apply string_size_nonneg|]. revert j H. induction argv as [|x l IH]; intros [|j] H; try done.
  - injection H as ->. cbn [take]. rewrite string_size_cons. pose proof (string_size_nonneg l).
    change (string_size []) with 0. lia.
  - cbn [take]. rewrite !string_size_cons. specialize (IH j H). lia.
Qed.

Lemma stack_mem_out b argv m x : 16 ≤ argv_at argv → x < b ∨ b + PGSIZE ≤ x →
  ldb (stack_mem b argv m) x = ldb m x.
Proof.
  intros Hf Hx. destruct (argv_at_range _ Hf) as (H1 & H2 & H3 & H4). unfold stack_mem.
  rewrite !ldb_stn_out by lia. apply args_mem_out; lia.
Qed.

Lemma stack_mem_bytes b argv m : bytes_ok m → bytes_ok (stack_mem b argv m).
Proof. intros. unfold stack_mem. do 3 apply (bytes_ok_stn 8). by apply args_mem_bytes. Qed.

Lemma stack_mem_layout b argv m : 16 ≤ argv_at argv → Forall bytes_of argv →
  stack_layout (stack_mem b argv m) b argv.
Proof.
  intros Hf Hall. destruct (argv_at_range _ Hf) as (H1 & H2 & H3 & H4).
  assert (0 < STACKPAGE < 2 ^ 40) as HS by done.
  unfold PGSIZE in *. pow2. unfold stack_mem, PGSIZE. split.
  - rewrite ld64_st64_eq. apply u64_id. lia.
  - rewrite ldn_stn_ne, ld64_st64_eq by lia. apply u64_id. lia.
  - rewrite !ldn_stn_ne by lia. by rewrite ldn_stn_eq.
  - intros j a Hj. pose proof (lookup_lt_Some _ _ _ Hj). pose proof (string_size_take _ _ _ Hj) as [??].
    destruct (args_mem_at b argv (argv_at argv) 0 (4096 - string_size argv) m j a) as [A1 A2];
      [lia|lia|lia|unfold PGSIZE; lia|done|done|].
    unfold PGSIZE. exists (4096 - string_size argv + string_size (take j argv)). split; [lia|]. split; [lia|]. split.
    + rewrite !ldn_stn_ne by lia. rewrite Z.add_0_l in A1. rewrite Z.add_assoc, A1. lia.
    + rewrite <- A2, <- Z.add_assoc. apply load_bytes_ext. intros x Hx.
      rewrite !ldb_stn_out by lia. done.
Qed.

Definition STKP : Z := vpn STACKPAGE.
Definition UT : Z := vpn UTEMP.

(** The new page [fr] of [c] at [v], and nothing else: no other memory, no other
    mapping. *)
Record one_page (c v fr x : Z) (s s' : VM) : Prop := {
  op_wf : wf s';
  op_new k y : pte s !! k ≠ Some (fr, y);
  op_pte : pte s' = <[(c, v) := (fr, x)]> (pte s);
  op_bytes f o : f ≠ fr → 0 ≤ o < PGSIZE → byte (pmem s') f o = byte (pmem s) f o }.

Lemma pointers argv : 16 ≤ argv_at argv →
  let st := u64 (UTEMP + PGSIZE - string_size argv) in
  st = UTEMP + (PGSIZE - string_size argv) ∧
  u64 (ROUNDDOWN st 8 - 8 * (Z.of_nat (length argv) + 1)) = UTEMP + argv_at argv.
Proof.
  intros Hf. destruct (argv_at_range _ Hf) as (H1 & H2 & H3 & H4). cbv zeta.
  change UTEMP with 4194304 in *. unfold PGSIZE in *.
  assert (u64 (4194304 + 4096 - string_size argv) = 4194304 + (4096 - string_size argv)) as ->
    by (rewrite u64_id by lia; lia).
  split; [done|]. unfold ROUNDDOWN. rewrite (u64_id (4194304 + (4096 - _))) by lia. unfold argv_at, PGSIZE in *.
  rewrite u64_id; Z.to_euclidean_division_equations; lia.
Qed.

Lemma init_stack_ok child argv s E (Q : Z * Z → VM → Prop) :
  wf s → pte s !! (e, UT) = None → 16 ≤ argv_at argv → Forall bytes_of argv → (3 ≤ free s)%nat →
  (e, UT) ≠ (child, STKP) →
  (∀ fr s', one_page child STKP fr UPW s s' → stack_layout (pmem s') (fr * PGSIZE) argv →
     (free s ≤ free s' + 3)%nat → Q (0, STACKPAGE + (argv_at argv - 16)) s') →
  wpx (init_stack e child argv) s Q E.
Proof.
  intros Hwf Hut Hf Hall Hfree Hne HQ. destruct (argv_at_range _ Hf) as (H1 & H2 & H3 & H4).
  unfold init_stack. destruct (pointers argv Hf) as [Hst Hav]. rewrite Hav, Hst.
  assert (UTEMP = 4194304) as HU by done.
  rewrite u64_id by (rewrite HU; unfold PGSIZE in *; lia). rewrite (proj2 (Z.ltb_ge _ _)) by lia.
  wp_step. pose proof (cost_le s e (vpn UTEMP)). apply page_alloc_ok; [done|done|done|lia|].
  intros fr s1 Hnew _ _ W1 P1 M1 T1 F1. fold UT in *. cbn [Z.ltb Z.compare]. wp_step.
  assert (pte s1 !! (e, vpn UTEMP) = Some (fr, UPW)) as Hm by (fold UT; rewrite P1; apply lookup_insert_eq).
  eapply put_args_ok; [done|done|lia|lia|lia|unfold PGSIZE in *; lia|].
  wp_step. rewrite <- Z.add_assoc. eapply put64_at; [done|unfold PGSIZE in *; lia|done|done|].
  replace (UTEMP + (PGSIZE - string_size argv) + string_size argv) with (UTEMP + PGSIZE) by lia.
  wp_step. rewrite Z.eqb_refl. cbn [assert_]. wp_step.
  wp_step. rewrite <- Z.add_sub_assoc. eapply put64_at; [done|unfold PGSIZE in *; lia|done|done|].
  wp_step. rewrite <- Z.add_sub_assoc. eapply put64_at; [done|unfold PGSIZE in *; lia|done|done|].
  cbn [pmem set_pmem]. rewrite !UTEMP2USTACK_at by (unfold PGSIZE in *; lia).
  match goal with |- wpx _ ?s' _ _ => set (s2 := s') end.
  assert (pmem s2 = stack_mem (fr * PGSIZE) argv (pmem s)) as M2
    by (rewrite <- M1; unfold stack_mem; reflexivity).
  assert (pte s2 = pte s1 ∧ tables s2 = tables s1 ∧ free s2 = free s1 ∧ pfree s2 = pfree s1)
    as (P2 & T2 & F2 & R2) by (split_and!; reflexivity).
  assert (wf s2) as W2.
  { apply (wf_only_mem s1); [exact W1|by split|]. rewrite M2. apply stack_mem_bytes, Hwf. }
  clearbody s2. rewrite <- P2 in Hm. wp_step. pose proof (cost_le s2 child (vpn STACKPAGE)).
  eapply page_map_ok; [done|done|done|done|exact Hm|done|change (USTACKTOP - PGSIZE) with STACKPAGE; lia|].
  intros s3 [W3 P3 M3 T3 F3]. cbn [Z.ltb Z.compare]. fold STKP in *. wp_step.
  assert (pte s3 !! (e, UT) = Some (fr, UPW)) as Hm3 by (rewrite P3, lookup_insert_ne by done; exact Hm).
  eapply page_unmap_ok; [done|done|done|exact Hm3|]. intros s4 W4 P4 M4 T4 F4. cbn [Z.ltb Z.compare]. wp_step.
  apply (HQ fr).
  - split; [done|done| |].
    + rewrite P4, P3, P2, P1. rewrite delete_insert_ne, delete_insert_eq, delete_id by done. done.
    + intros f o Hfo Ho. rewrite M4, M3, M2. apply stack_mem_out; [done|]. unfold PGSIZE in *. lia.
  - rewrite M4, M3, M2. by apply stack_mem_layout.
  - pose proof (cost_le s2 child (vpn (USTACKTOP - PGSIZE))). lia.
Qed.
End init_stack.

(** ** What spawn relies on of the device of the file *)

Section device.
Context (e c i : Z) (keep : Z → Prop).

(** While the device works for descriptor [i] of [e]: the mappings of [c] stay and
    so do their contents; of [e], the pages of the descriptor apart; the pages
    [keep] of [e] keep their contents.  [dst] is the frame read into.  The server
    has the blocks of the file in its cache, so that it takes no frames. *)
Record at_work (dst : Z → Prop) (s s' : VM) : Prop := {
  aw_wf : wf s';
  aw_child v : pte s' !! (c, v) = pte s !! (c, v);
  aw_parent v : v ≠ fdp i → v ≠ datap i → pte s' !! (e, v) = pte s !! (e, v);
  aw_free : (free s ≤ free s')%nat;
  aw_cbytes v fr x o : pte s !! (c, v) = Some (fr, x) → ¬ dst fr → 0 ≤ o < PGSIZE →
    byte (pmem s') fr o = byte (pmem s) fr o;
  aw_ebytes v fr x o : keep v → pte s !! (e, v) = Some (fr, x) → ¬ dst fr → 0 ≤ o < PGSIZE →
    byte (pmem s') fr o = byte (pmem s) fr o }.

Lemma at_work_refl dst s : wf s → at_work dst s s.
Proof. by split. Qed.

Lemma at_work_trans (dst : Z → Prop) s1 s2 s3 :
  (∀ v, keep v → v ≠ fdp i ∧ v ≠ datap i) →
  at_work dst s1 s2 → at_work dst s2 s3 → at_work dst s1 s3.
Proof.
  intros Hk [A1 A2 A3 A5 A6 A7] [B1 B2 B3 B5 B6 B7]. split; [done|..].
  - intros v. by rewrite B2.
  - intros v ??. by rewrite B3, A3.
  - lia.
  - intros v fr x o Hm Hd Ho. rewrite (B6 v fr x) by (rewrite ?A2; done). by apply (A6 v fr x).
  - intros v fr x o Hv Hm Hd Ho. destruct (Hk v Hv) as [Hv1 Hv2].
    rewrite (B7 v fr x) by (rewrite ?A3; done). by apply (A7 v fr x).
Qed.

(** Descriptor [i] is open for reading at [off], on a device with this id; its
    page is not a page of [c], nor a kept one. *)
Record file_at (id off : Z) (s : VM) : Prop := {
  fa_page : ∃ fr x, pte s !! (e, fdp i) = Some (fr, x) ∧ has x PTE_W ∧ field s fr 0 = id ∧
    Z.land (i32 (field s fr 8)) O_ACCMODE ≠ O_WRONLY ∧ field s fr 4 = off ∧
    (∀ v y, pte s !! (c, v) ≠ Some (fr, y)) ∧ (∀ v y, keep v → pte s !! (e, v) ≠ Some (fr, y)) }.

Context (content : list Z).
Definition flen : Z := Z.of_nat (length content).

(** [r] bytes of the file from [off] on are at offset [o0] of frame [fr]. *)
Definition was_read (s s' : VM) (fr o0 off r : Z) : Prop :=
  ∀ o, 0 ≤ o < PGSIZE → byte (pmem s') fr o =
    if decide (o0 ≤ o < o0 + r) then nth (Z.to_nat (off + (o - o0))) content 0 else byte (pmem s) fr o.

(** What a buffer must be: a page of [e] of its own, writable. *)
Record buffer (s : VM) (va fr : Z) : Prop := {
  bu_page : ∃ x, pte s !! (e, vpn va) = Some (fr, x) ∧ has x PTE_W;
  bu_sole k y : pte s !! k = Some (fr, y) → k = (e, vpn va);
  bu_fd : vpn va ≠ fdp i ∧ vpn va ≠ datap i }.

Class FileDev (d : Dev) : Prop := {
  file_read : ∃ f, dev_read d = Some f ∧ ∀ s off va fr n,
    wf s → file_at (dev_id d) off s → buffer s va fr → 0 ≤ n → va mod PGSIZE + n ≤ PGSIZE →
    wp (f (INDEX2FD i) va n) s (λ r s', at_work (eq fr) s s' ∧ file_at (dev_id d) (off + r) s' ∧
      buffer s' va fr ∧ 0 ≤ r ≤ n ∧ (r = 0 → n = 0 ∨ flen ≤ off) ∧ (r = 0 ∨ off + r ≤ flen) ∧
      was_read s s' fr (va mod PGSIZE) off r);
  file_close : ∃ f, dev_close d = Some f ∧ ∀ s off,
    wf s → file_at (dev_id d) off s → wp (f (INDEX2FD i)) s (λ _ s', at_work (λ _, False) s s') }.

(** ** Fd.read, readn, seek and close of such a descriptor *)

Context (d : Dev) (devtab : list Dev) `{!FileDev d}.
Context (Hi : 0 ≤ i < MAXFD) (Hdev : dev_lookup devtab (dev_id d) = Some d) (Hid : i32 (dev_id d) = dev_id d).
Context (Hkeep : ∀ v, keep v → v ≠ fdp i ∧ v ≠ datap i).
Context (Hlen : flen < 2 ^ 31).

Lemma file_open s off : file_at (dev_id d) off s → is_open e s i.
Proof. intros [(fr & x & H & _)]. by eexists. Qed.

Lemma get32_fd o s fr x E (Q : Z → VM → Prop) :
  0 ≤ o < 16 → pte s !! (e, fdp i) = Some (fr, x) → Q (i32 (field s fr o)) s →
  wpx (get32 e (INDEX2FD i + o)) s Q E.
Proof.
  intros Ho Hm HQ. unfold get32. wp_step. rewrite <- (vpn_fd i Hi) in Hm.
  pose proof (page_off (INDEX2FD i) (fd_mod i Hi) o) as [Hv Hmod]; [unfold PGSIZE; lia|].
  eapply frame_of_ok; [by rewrite Hv|done|]. rewrite Hmod. by wp_step.
Qed.

Lemma read_ok s off va fr n (Q : Z → VM → Prop) :
  wf s → file_at (dev_id d) off s → buffer s va fr → 0 ≤ n → va mod PGSIZE + n ≤ PGSIZE →
  (∀ r s', at_work (eq fr) s s' → file_at (dev_id d) (off + r) s' → buffer s' va fr → 0 ≤ r ≤ n →
     (r = 0 → n = 0 ∨ flen ≤ off) → (r = 0 ∨ off + r ≤ flen) →
     was_read s s' fr (va mod PGSIZE) off r → Q r s') →
  wp (read e devtab i va n) s Q.
Proof.
  intros Hwf Hfa Hb Hn Hpg HQ. unfold read, fd_dev. wp_step. wp_step.
  apply fd_lookup_ok; [done|done|by eapply file_open|]. cbn [fst snd Z.ltb Z.compare].
  pose proof (fa_page _ _ _ Hfa) as (ff & x & Hm & Hw & Hdi & Hmode & Hoff & _).
  unfold fd_dev_id. wp_step. rewrite <- (Z.add_0_r (INDEX2FD i)) at 1.
  eapply get32_fd; [lia|exact Hm|]. rewrite Hdi, Hid, Hdev. wp_step.
  wp_step. unfold fd_omode. eapply get32_fd; [lia|exact Hm|].
  rewrite (proj2 (Z.eqb_neq _ _)) by done.
  destruct file_read as (f & Hf & Hlaw). rewrite Hf.
  eapply wpx_conseq; [by apply Hlaw|]. intros r s' (?&?&?&?&?&?&?). by apply HQ.
Qed.

Lemma buffer_vpn s va va' fr : vpn va = vpn va' → buffer s va fr → buffer s va' fr.
Proof. intros H []. split; by rewrite <- H. Qed.

Lemma was_read_app s1 s2 s3 fr o0 off r r' :
  0 ≤ r → 0 ≤ r' → was_read s1 s2 fr o0 off r → was_read s2 s3 fr (o0 + r) (off + r) r' →
  was_read s1 s3 fr o0 off (r + r').
Proof.
  intros Hr Hr' H1 H2 o Ho. rewrite H2, H1 by done.
  repeat case_decide; try lia; try done. f_equal. lia.
Qed.

Lemma readn_loop_ok fuel s0 off va fr n tot s (Q : Z → VM → Prop) :
  wf s → file_at (dev_id d) (off + tot) s → buffer s va fr → at_work (eq fr) s0 s →
  was_read s0 s fr (va mod PGSIZE) off tot → 0 ≤ tot ≤ n → va mod PGSIZE + n ≤ PGSIZE →
  tot = 0 ∨ off + tot ≤ flen → n - tot ≤ Z.of_nat fuel →
  (∀ r s', at_work (eq fr) s0 s' → file_at (dev_id d) (off + r) s' → buffer s' va fr → 0 ≤ r ≤ n →
     (r < n → flen ≤ off + r) → (r = 0 ∨ off + r ≤ flen) →
     was_read s0 s' fr (va mod PGSIZE) off r → Q r s') →
  wp (readn_loop e devtab fuel i va n tot) s Q.
Proof.
  revert s tot. induction fuel as [|fuel IH]; intros s tot Hwf Hfa Hb Haw Hwr Htot Hpg Hend Hfuel HQ;
    cbn [readn_loop]; pose proof (off_range va); unfold PGSIZE in *; rewrite u64_id by lia.
  { rewrite (proj2 (Z.ltb_ge _ _)) by lia. wp_step. apply HQ; try done. lia. }
  destruct (tot <? n) eqn:Hlt; [apply Z.ltb_lt in Hlt|apply Z.ltb_ge in Hlt].
  2: { wp_step. apply HQ; try done. lia. }
  rewrite u64_id by lia. assert (vpn va = vpn (va + tot) ∧ (va + tot) mod PGSIZE = va mod PGSIZE + tot) as [Hv Hmod]
    by (unfold vpn, PGSIZE in *; split; zlia).
  wp_step. eapply read_ok; [done|done|by eapply buffer_vpn|lia|rewrite Hmod; unfold PGSIZE; lia|].
  intros r s' Haw' Hfa' Hb' Hr Hr0 Hrl Hwr'. rewrite i32_id by lia.
  rewrite (proj2 (Z.ltb_ge r 0)) by lia. rewrite Hmod in Hwr'.
  assert (at_work (eq fr) s0 s') as Haw2 by (eapply at_work_trans; eauto).
  destruct (r =? 0) eqn:Hz; [apply Z.eqb_eq in Hz|apply Z.eqb_neq in Hz].
  - wp_step. subst r. rewrite Z.add_0_r in Hfa'. apply HQ; try done; [by eapply buffer_vpn|lia|].
    rewrite <- (Z.add_0_r tot). eapply was_read_app; [lia..|exact Hwr|exact Hwr'].
  - rewrite i32_id by lia. apply IH; [apply Haw'|by rewrite Z.add_assoc|by eapply buffer_vpn|done| |lia|done|lia|lia|done].
    eapply was_read_app; [lia..|exact Hwr|exact Hwr'].
Qed.

Lemma readn_ok s off va fr n (Q : Z → VM → Prop) :
  wf s → file_at (dev_id d) off s → buffer s va fr → 0 ≤ n → va mod PGSIZE + n ≤ PGSIZE →
  (∀ r s', at_work (eq fr) s s' → file_at (dev_id d) (off + r) s' → buffer s' va fr → 0 ≤ r ≤ n →
     (r < n → flen ≤ off + r) → (r = 0 ∨ off + r ≤ flen) →
     was_read s s' fr (va mod PGSIZE) off r → Q r s') →
  wp (readn e devtab i va n) s Q.
Proof.
  intros Hwf Hfa Hb Hn Hpg HQ. unfold readn. eapply readn_loop_ok; try done.
  - by rewrite Z.add_0_r.
  - intros o Ho. by rewrite decide_False by lia.
  - lia.
  - lia.
Qed.

Lemma seek_ok s off off' (Q : Z → VM → Prop) :
  wf s → file_at (dev_id d) off s → 0 ≤ off' < 2 ^ 31 →
  (∀ s', at_work (λ _, False) s s' → file_at (dev_id d) off' s' →
     (∀ k, pte s' !! k = pte s !! k) → Q 0 s') →
  wp (seek e i off') s Q.
Proof.
  intros Hwf Hfa Ho HQ. pose proof (fa_page _ _ _ Hfa) as (ff & x & Hm & Hw & Hdi & Hmode & Hoff & Hc & Hk).
  unfold seek. wp_step. apply fd_lookup_ok; [done|done|by eapply file_open|]. cbn [fst snd Z.ltb Z.compare].
  wp_step. unfold fd_offset, put32. rewrite <- (vpn_fd i Hi) in Hm.
  pose proof (page_off (INDEX2FD i) (fd_mod i Hi) 4) as [Hv Hmod]; [unfold PGSIZE; lia|].
  wp_step. eapply frame_of_ok; [by rewrite Hv|done|]. rewrite Hmod. wp_step.
  set (s' := set_pmem _ _). assert (wf s') as W'.
  { apply (wf_only_mem s); [done|by split|]. exact (bytes_ok_stn 4 _ _ _ (wf_bytes _ Hwf)). }
  assert (∀ fr o, fr ≠ ff → 0 ≤ o < PGSIZE → byte (pmem s') fr o = byte (pmem s) fr o) as Hout.
  { intros fr o Hf Hr. apply ldb_stn_out. unfold PGSIZE in *. lia. }
  rewrite (vpn_fd i Hi) in Hm. wp_step. apply HQ; [| |done].
  - split; try done.
    + intros v fr y o Hv' _ Hr. apply Hout; [|done]. intros ->. by eapply Hc.
    + intros v fr y o Hkv Hv' _ Hr. apply Hout; [|done]. intros ->. by eapply Hk.
  - split. exists ff, x. unfold field in *. split_and!; try done.
    + rewrite <- Hdi. apply ldn_stn_ne. lia.
    + cbn [pmem s' set_pmem]. by rewrite ldn_stn_ne by lia.
    + cbn [pmem s' set_pmem]. rewrite ld32_st32_eq. apply u32_id. pow2. lia.
Qed.

Lemma unmap_any va s E (Q : Z → VM → Prop) :
  wf s → va_ok va → 0 < va < UTOP →
  (∀ s', wf s' → pte s' = delete (e, vpn va) (pte s) → pmem s' = pmem s → tables s' = tables s →
     (free s ≤ free s')%nat → Q 0 s') →
  wpx (u_page_unmap e va) s Q E.
Proof.
  intros Hwf Hva Hr HQ. destruct (pte s !! (e, vpn va)) as [[fr y]|] eqn:Hm; [by eapply page_unmap_ok|].
  unfold u_page_unmap. unfold va_ok in Hva. apply andb_True in Hva as [Ha%Is_true_true _]. rewrite Ha.
  rewrite (proj2 (Z.eqb_neq va 0)), (proj2 (Z.leb_gt UTOP va)) by lia. simpl.
  wp_steps. rewrite Hm. apply HQ; try done. by rewrite delete_id.
Qed.

Lemma close_file_ok s off (Q : Z → VM → Prop) :
  wf s → file_at (dev_id d) off s →
  (∀ r s', at_work (λ _, False) s s' → pte s' !! (e, fdp i) = None → Q r s') → wp (close e devtab i) s Q.
Proof.
  intros Hwf Hfa HQ. unfold close. wp_step.
  apply fd_lookup_ok; [done|done|by eapply file_open|]. cbn [fst snd Z.ltb Z.compare]. unfold fd_close. wp_step.
  rewrite fd2num_fd, i32_id by (done || (unfold MAXFD in Hi; lia)).
  apply fd_lookup_ok; [done|done|by eapply file_open|]. cbn [fst snd Z.ltb Z.compare orb]. rewrite Z.eqb_refl. cbn [negb].
  pose proof (fa_page _ _ _ Hfa) as (ff & x & Hm & Hw & Hdi & Hmode & Hoff & _).
  wp_step. unfold fd_dev_id. rewrite <- (Z.add_0_r (INDEX2FD i)) at 1.
  eapply get32_fd; [lia|exact Hm|]. rewrite Hdi, Hid, Hdev. destruct file_close as (f & Hf & Hlaw). rewrite Hf.
  wp_step. eapply wpx_conseq; [by eapply Hlaw|]. intros r s1 Haw. wp_step.
  apply unmap_any; [apply Haw|by apply fd_va_ok|by apply fd_range|].
  rewrite vpn_fd by done. intros s2 W2 P2 M2 T2 F2. wp_step. apply HQ; [|rewrite P2; apply lookup_delete_eq].
  destruct Haw as [A1 A2 A3 A5 A6 A7]. assert (e ≠ c ∨ e = c) as [Hec|Hec] by lia.
  - split; [done|..].
    + intros v. by rewrite P2, lookup_delete_ne by congruence.
    + intros v Hv1 Hv2. rewrite P2, lookup_delete_ne by congruence. by apply A3.
    + lia.
    + intros v fr y o. rewrite M2. apply A6.
    + intros v fr y o. rewrite M2. apply A7.
  - exfalso. pose proof (fa_page _ _ _ Hfa) as (ff' & x' & Hm' & _ & _ & _ & _ & Hc & _).
    apply (Hc (fdp i) x'). by rewrite <- Hec.
Qed.

Lemma field_ext s s' fr o : 0 ≤ o < 13 →
  (∀ j, 0 ≤ j < PGSIZE → byte (pmem s') fr j = byte (pmem s) fr j) → field s' fr o = field s fr o.
Proof.
  intros Ho Hb. unfold field. apply ldn_ext. intros x Hx.
  replace x with (fr * PGSIZE + (x - fr * PGSIZE)) by lia. apply Hb. unfold PGSIZE in *. lia.
Qed.

Lemma file_at_ext id off s s' :
  file_at id off s →
  (∀ fr x, pte s !! (e, fdp i) = Some (fr, x) →
     pte s' !! (e, fdp i) = Some (fr, x) ∧
     (∀ o, 0 ≤ o < PGSIZE → byte (pmem s') fr o = byte (pmem s) fr o) ∧
     (∀ v y, pte s' !! (c, v) = Some (fr, y) → ∃ v y, pte s !! (c, v) = Some (fr, y)) ∧
     (∀ v y, keep v → pte s' !! (e, v) = Some (fr, y) → ∃ y, pte s !! (e, v) = Some (fr, y))) →
  file_at id off s'.
Proof.
  intros [(fr & x & Hm & Hw & H1 & H2 & H3 & H4 & H5)] Hext.
  destruct (Hext fr x Hm) as (Hm' & Hb & Hc & He). split. exists fr, x.
  rewrite !(field_ext s s') by (done || lia). split_and!; try done.
  - intros v y Hv. destruct (Hc v y Hv) as (v' & y' & ?). by eapply H4.
  - intros v y Hk Hv. destruct (He v y Hk Hv) as (y' & ?). by eapply H5.
Qed.

(** ** The pages of a segment *)

(** [c] has changed at pages [P] only, [e] at those of the descriptor, and at
    most [k] frames are gone. *)
Record grown (P : Z → Prop) (k : nat) (s s' : VM) : Prop := {
  gr_wf : wf s';
  gr_child v : ¬ P v → pte s' !! (c, v) = pte s !! (c, v);
  gr_cbytes v fr x o : ¬ P v → pte s !! (c, v) = Some (fr, x) → 0 ≤ o < PGSIZE →
    byte (pmem s') fr o = byte (pmem s) fr o;
  gr_parent v : v ≠ fdp i → v ≠ datap i → pte s' !! (e, v) = pte s !! (e, v);
  gr_ebytes v fr x o : keep v → pte s !! (e, v) = Some (fr, x) → 0 ≤ o < PGSIZE →
    byte (pmem s') fr o = byte (pmem s) fr o;
  gr_free : (free s ≤ free s' + k)%nat }.

Lemma grown_refl s : wf s → grown (λ _, False) 0 s s.
Proof. intros. split; try done. lia. Qed.

Lemma grown_weaken (P P' : Z → Prop) k k' s s' :
  (∀ v, P v → P' v) → (k ≤ k')%nat → grown P k s s' → grown P' k' s s'.
Proof.
  intros HP Hk []. split; try done.
  - auto.
  - intros v fr x o Hv. apply gr_cbytes0. auto.
  - lia.
Qed.

Lemma grown_trans (P P' : Z → Prop) k k' s1 s2 s3 :
  grown P k s1 s2 → grown P' k' s2 s3 → grown (λ v, P v ∨ P' v) (k + k') s1 s3.
Proof.
  intros [A1 A2 A3 A4 A5 A6] [B1 B2 B3 B4 B5 B6]. split; [done|..].
  - intros v Hv. rewrite B2, A2 by tauto. done.
  - intros v fr x o Hv Hm Ho. rewrite (B3 v fr x) by (rewrite ?A2 by tauto; tauto). apply (A3 v fr x); tauto.
  - intros v ??. by rewrite B4, A4.
  - intros v fr x o Hv Hm Ho. destruct (Hkeep v Hv).
    rewrite (B5 v fr x) by (rewrite ?A4; done). by apply (A5 v fr x).
  - lia.
Qed.

Lemma at_work_grown s s' : at_work (λ _, False) s s' → grown (λ _, False) 0 s s'.
Proof.
  intros [A1 A2 A3 A4 A5 A6]. split; try done; [|eauto..|lia].
  intros v fr x o _ Hm Ho. by apply (A5 v fr x); [|tauto|].
Qed.

Context (Hec : e ≠ c) (HUT : ¬ keep UT).

Lemma UT_fd : UT ≠ fdp i ∧ UT ≠ datap i.
Proof.
  change UT with 1024. unfold fdp, datap. change (vpn FDTABLE) with 851968. change (vpn FILEDATA) with 852000.
  lia.
Qed.

(** Before and after each page: ready to read, at any offset. *)
Record ready (s : VM) : Prop := {
  re_wf : wf s; re_ut : pte s !! (e, UT) = None; re_file : ∃ off, file_at (dev_id d) off s }.

(** Page [v] of [c] holds the file from [foff] on, as far as [n] bytes. *)
Definition page_loaded (s : VM) (v perm foff n : Z) : Prop :=
  ∃ fr, pte s !! (c, v) = Some (fr, perm) ∧
    ∀ o, 0 ≤ o < PGSIZE → o < n → foff + o < flen →
      byte (pmem s) fr o = nth (Z.to_nat (foff + o)) content 0.

Lemma blank_page_ok va perm s (Q : Z → VM → Prop) :
  ready s → va_ok va → perm_ok perm → (2 ≤ free s)%nat →
  (∀ s', ready s' → grown (eq (vpn va)) 2 s s' → (∃ fr, pte s' !! (c, vpn va) = Some (fr, perm)) → Q 0 s') →
  wp (u_page_alloc c va perm) s Q.
Proof.
  intros [Hwf Hut [off Hfa]] Hva Hperm Hfree HQ. pose proof (cost_le s c (vpn va)).
  apply page_alloc_ok; [done|done|done|lia|]. intros fr s' Hnew _ _ W' P' M' T' F'. apply HQ.
  - split; [done|by rewrite P', lookup_insert_ne by congruence|]. exists off.
    eapply file_at_ext; [exact Hfa|]. intros ff x Hm. rewrite P', M'. split_and!; [|done|..].
    + by rewrite lookup_insert_ne by congruence.
    + intros v y [[_ [= -> _]]|[_ Hv]]%lookup_insert_Some; [by destruct (Hnew (e, fdp i) x)|eauto].
    + intros v y _ [[Heq _]|[_ Hv]]%lookup_insert_Some; [congruence|eauto].
  - split; [done|..].
    + intros v Hv. rewrite P', lookup_insert_ne; congruence.
    + intros v fr' x o _ _ _. by rewrite M'.
    + intros v _ _. rewrite P', lookup_insert_ne; congruence.
    + intros v fr' x o _ _ _. by rewrite M'.
    + lia.
  - exists fr. by rewrite P', lookup_insert_eq.
Qed.

(** The page of the parent at UTEMP while it is filled. *)
Record filled (s s' : VM) (fr foff n : Z) : Prop := {
  fi_wf : wf s';
  fi_new k y : pte s !! k ≠ Some (fr, y);
  fi_buffer : buffer s' UTEMP fr;
  fi_file : ∃ off, file_at (dev_id d) off s';
  fi_child v : pte s' !! (c, v) = pte s !! (c, v);
  fi_parent v : v ≠ fdp i → v ≠ datap i → v ≠ UT → pte s' !! (e, v) = pte s !! (e, v);
  fi_cbytes v f x o : pte s !! (c, v) = Some (f, x) → 0 ≤ o < PGSIZE → byte (pmem s') f o = byte (pmem s) f o;
  fi_ebytes v f x o : keep v → pte s !! (e, v) = Some (f, x) → 0 ≤ o < PGSIZE →
    byte (pmem s') f o = byte (pmem s) f o;
  fi_free : (free s ≤ free s' + 2)%nat;
  fi_bytes o : 0 ≤ o < n → foff + o < flen → byte (pmem s') fr o = nth (Z.to_nat (foff + o)) content 0 }.

Lemma fill_ok foff n s (K : Z → U (option Z)) (Q : option Z → VM → Prop) :
  ready s → (2 ≤ free s)%nat → 0 ≤ foff < 2 ^ 31 → 0 ≤ n ≤ PGSIZE →
  (∀ fr r s', 0 ≤ r ≤ n → filled s s' fr foff n → wp (K r) s' Q) →
  wp (u_page_alloc e UTEMP UPW ≫= λ r, if r <? 0 then mret (Some r) else
      seek e i foff ≫= λ r, if r <? 0 then mret (Some r) else
      readn e devtab i UTEMP n ≫= K) s Q.
Proof.
  intros [Hwf Hut [off Hfa]] Hfree Hfoff Hn HQ. pose proof (cost_le s e (vpn UTEMP)). destruct UT_fd as [Hu1 Hu2].
  wp_step. apply page_alloc_ok; [done|done|done|lia|]. intros fr s1 Hnew _ _ W1 P1 M1 T1 F1. fold UT in *.
  cbn [Z.ltb Z.compare]. assert (file_at (dev_id d) off s1) as Hfa1.
  { eapply file_at_ext; [exact Hfa|]. intros ff x Hm. rewrite P1, M1. split_and!; [|done|..].
    - by rewrite lookup_insert_ne by congruence.
    - intros v y [[Heq _]|[_ Hv]]%lookup_insert_Some; [congruence|eauto].
    - intros v y Hk [[Heq _]|[_ Hv]]%lookup_insert_Some; [congruence|eauto]. }
  wp_step. eapply seek_ok; [done|exact Hfa1|done|]. intros s2 Haw2 Hfa2 P2. cbn [Z.ltb Z.compare].
  assert (buffer s2 UTEMP fr) as Hb2.
  { split; fold UT; [exists UPW|..|done].
    - split; [|done]. rewrite P2, P1. apply lookup_insert_eq.
    - intros k y. rewrite P2, P1. intros [[? _]|[_ Hk]]%lookup_insert_Some; [done|by destruct (Hnew k y)]. }
  wp_step. eapply readn_ok; [apply Haw2|done|done|lia|change (UTEMP mod PGSIZE) with 0; lia|].
  intros r s3 Haw3 Hfa3 Hb3 Hr Hshort _ Hwr. change (UTEMP mod PGSIZE) with 0 in Hwr.
  destruct Haw2 as [A1 A2 A3 A5 A6 A7], Haw3 as [B1 B2 B3 B5 B6 B7].
  assert (∀ v, v ≠ UT → pte s2 !! (e, v) = pte s !! (e, v)) as Hpar.
  { intros v Hv. rewrite P2, P1, lookup_insert_ne by congruence. done. }
  assert (∀ v, pte s2 !! (c, v) = pte s !! (c, v)) as Hchi.
  { intros v. rewrite P2, P1, lookup_insert_ne by congruence. done. }
  apply (HQ fr); [done|]. split; [done|done|done|by eexists|..].
  - intros v. by rewrite B2, Hchi.
  - intros v ???. by rewrite B3, Hpar.
  - intros v f x o Hm Ho. rewrite (B6 v f x); [|by rewrite Hchi|intros ->; by eapply Hnew|done].
    rewrite (A6 v f x); [by rewrite M1| |tauto|done]. by rewrite <- P2, Hchi.
  - intros v f x o Hv Hm Ho. assert (v ≠ UT) by (intros ->; done).
    rewrite (B7 v f x); [|done|by rewrite Hpar|intros ->; by eapply Hnew|done].
    rewrite (A7 v f x); [by rewrite M1|done| |tauto|done]. by rewrite <- P2, Hpar.
  - lia.
  - intros o Ho Hlt. rewrite Hwr by lia. rewrite decide_True; [f_equal; lia|].
    split; [lia|]. destruct (decide (r < n)); [specialize (Hshort ltac:(lia)); lia|lia].
Qed.

Lemma map_page_ok va filesz foff perm j s (Q : option Z → VM → Prop) :
  ready s → (3 ≤ free s)%nat → 0 ≤ va → 0 ≤ j → va_ok (va + j) → perm_ok perm →
  0 ≤ foff → foff + j < 2 ^ 31 → j < 2 ^ 31 → 0 ≤ filesz < 2 ^ 31 →
  (∀ s', ready s' → grown (eq (vpn (va + j))) 3 s s' →
     page_loaded s' (vpn (va + j)) perm (foff + j) (filesz - j) → Q None s') →
  wp (map_page e devtab c va i filesz foff perm j) s Q.
Proof.
  intros Hre Hfree Hva Hj Hok Hperm Hf0 Hf1 Hj1 Hfs HQ. unfold map_page. pow2.
  assert (va + j ≤ UTOP) as Hle.
  { unfold va_ok in Hok. apply andb_True in Hok as [_ H%Is_true_true]. by apply Z.leb_le in H. }
  assert (UTOP < 2 ^ 40) as HU by done. pow2.
  rewrite (u64_id j), (u64_id (va + j)) by lia.
  destruct (filesz <=? j) eqn:Hcase; [apply Z.leb_le in Hcase|apply Z.leb_gt in Hcase].
  { wp_step. apply blank_page_ok; [done..|lia|]. intros s' Hre' Hgr [fr Hm]. cbn [Z.ltb Z.compare]. wp_step.
    apply HQ; [done|by eapply (grown_weaken (eq _)); [..|exact Hgr]; auto|]. exists fr. split; [done|lia]. }
  rewrite i32_id, u64_id by lia.
  apply fill_ok; [done|lia|pow2; lia|unfold PGSIZE; lia|]. intros fr r s1 Hr [W1 N1 B1 [off F1] C1 E1 CB EB FR BY].
  rewrite i32_id by (unfold PGSIZE in *; lia). rewrite (proj2 (Z.ltb_ge r 0)) by lia.
  destruct B1 as [(x & Hm & Hx) Hsole Hfd]. destruct UT_fd as [Hu1 Hu2]. destruct Hre as [Hwf Hut _].
  pose proof (cost_le s1 c (vpn (va + j))). wp_step.
  eapply page_map_ok; [done|done|done|done|exact Hm|done|lia|]. intros s2 [W2 P2 M2 _ F2].
  cbn [Z.ltb Z.compare]. fold UT in *. wp_step.
  eapply page_unmap_ok; [done|done|done|by rewrite P2, lookup_insert_ne by congruence|].
  intros s3 W3 P3 M3 _ F3. wp_step. fold UT in P3.
  assert (∀ v, v ≠ vpn (va + j) → pte s3 !! (c, v) = pte s1 !! (c, v)) as Hc.
  { intros v Hv. by rewrite P3, lookup_delete_ne, P2, lookup_insert_ne by congruence. }
  assert (∀ v, v ≠ UT → pte s3 !! (e, v) = pte s1 !! (e, v)) as He.
  { intros v Hv. by rewrite P3, lookup_delete_ne, P2, lookup_insert_ne by congruence. }
  assert (pte s3 !! (e, UT) = None) as Hut3 by (rewrite P3; apply lookup_delete_eq).
  apply HQ.
  - split; [done|done|]. exists off. eapply file_at_ext; [exact F1|]. intros ff y Hff.
    assert (ff ≠ fr) as Hne by (intros ->; specialize (Hsole _ _ Hff); congruence).
    rewrite M3, M2, He by congruence. split_and!; [done|done|..].
    + intros v z Hv. destruct (decide (v = vpn (va + j))) as [->|Hvn].
      * rewrite P3, lookup_delete_ne, P2, lookup_insert_eq in Hv by congruence. congruence.
      * rewrite Hc in Hv by done. eauto.
    + intros v z Hk Hv. rewrite He in Hv by (intros ->; done). eauto.
  - split; [done|..].
    + intros v Hv. rewrite Hc by congruence. apply C1.
    + intros v f y o Hv Hmv Ho. rewrite M3, M2. by eapply CB.
    + intros v Hv1 Hv2. destruct (decide (v = UT)) as [->|Hvu]; [congruence|]. rewrite He by done. by apply E1.
    + intros v f y o Hk Hmv Ho. rewrite M3, M2. by eapply EB.
    + lia.
  - exists fr. split.
    + by rewrite P3, lookup_delete_ne, P2, lookup_insert_eq by congruence.
    + intros o Ho Hon Hlt. rewrite M3, M2. apply BY; [unfold PGSIZE in *; lia|lia].
Qed.

Lemma page_loaded_grown P k s s' v perm foff n :
  grown P k s s' → ¬ P v → page_loaded s v perm foff n → page_loaded s' v perm foff n.
Proof.
  intros Hg Hv (fr & Hm & Hb). exists fr. split; [by rewrite (gr_child _ _ _ _ Hg)|].
  intros o Ho Hn Hl. rewrite (gr_cbytes _ _ _ _ Hg v fr perm) by done. by apply Hb.
Qed.

(** The pages of a segment: [N] of them, from page [vpn va] on. *)
Definition pages_loaded (s : VM) (v0 perm foff filesz m N : Z) : Prop :=
  ∀ j, m ≤ j < N → page_loaded s (v0 + j) perm (foff + j * PGSIZE) (filesz - j * PGSIZE).
Definition npages (memsz : Z) : Z := (memsz + PGSIZE - 1) / PGSIZE.
Definition in_pages (v0 m N v : Z) : Prop := v0 + m ≤ v < v0 + N.

Lemma map_pages_ok fuel va memsz filesz foff perm m s (Q : Z → VM → Prop) :
  let np := npages memsz in
  ready s → va mod PGSIZE = 0 → 0 ≤ va → va + np * PGSIZE ≤ UTOP → perm_ok perm →
  0 ≤ foff → 0 ≤ memsz → foff + memsz + PGSIZE ≤ 2 ^ 31 → 0 ≤ filesz < 2 ^ 31 →
  0 ≤ m ≤ np → np - m ≤ Z.of_nat fuel → (3 * Z.to_nat (np - m) ≤ free s)%nat →
  (∀ s', ready s' → grown (in_pages (vpn va) m np) (3 * Z.to_nat (np - m)) s s' →
     pages_loaded s' (vpn va) perm foff filesz m np → Q 0 s') →
  wp (map_pages e devtab fuel c va memsz i filesz foff perm (m * PGSIZE)) s Q.
Proof.
  intros np. revert m s. induction fuel as [|fuel IH];
    intros m s Hre Hva Hva0 Htop Hperm Hf0 Hm0 Hf1 Hfs Hm Hfuel Hfree HQ; cbn [map_pages].
  all: assert (m * PGSIZE < memsz ↔ m < np) as Hiff by (unfold np, npages, PGSIZE; zlia).
  all: assert (np * PGSIZE < memsz + PGSIZE) as HN by (unfold np, npages, PGSIZE; zlia).
  all: pow2; rewrite u64_id by (unfold PGSIZE in *; lia).
  { rewrite (proj2 (Z.ltb_ge _ _)) by (unfold PGSIZE in *; lia). wp_step. apply HQ; [done| |intros j ?; lia].
    eapply grown_weaken; [| |by apply grown_refl, Hre]; [done|lia]. }
  destruct (m * PGSIZE <? memsz) eqn:Hlt; [apply Z.ltb_lt in Hlt|apply Z.ltb_ge in Hlt].
  2: { wp_step. apply HQ; [done| |intros j ?; lia].
       eapply grown_weaken; [| |by apply grown_refl, Hre]; [done|lia]. }
  assert (m < np) as HmN by tauto.
  assert (vpn (va + m * PGSIZE) = vpn va + m) as Hv by (unfold vpn, PGSIZE in *; zlia).
  wp_step. apply map_page_ok; [done|lia|done|unfold PGSIZE; lia| |done|done|unfold PGSIZE in *; pow2; lia|unfold PGSIZE in *; pow2; lia|pow2; lia|].
  { unfold va_ok. apply andb_True. rewrite !Is_true_true, Z.eqb_eq, Z.leb_le. unfold PGSIZE in *. split; [zlia|lia]. }
  rewrite Hv. intros s1 Hre1 Hgr1 Hld1.
  replace (i32 (m * PGSIZE + PGSIZE)) with ((m + 1) * PGSIZE) by (rewrite i32_id; unfold PGSIZE in *; lia).
  pose proof (gr_free _ _ _ _ Hgr1) as Hfr1.
  apply IH; try done; try lia. intros s2 Hre2 Hgr2 Hld2. apply HQ; [done|..].
  - eapply grown_weaken; [| |eapply grown_trans; [exact Hgr1|exact Hgr2]]; [|lia].
    unfold in_pages. intros v [<-|?]; lia.
  - intros j Hj. destruct (decide (j = m)) as [->|Hjm]; [|apply Hld2; lia].
    eapply page_loaded_grown; [exact Hgr2| |exact Hld1]. unfold in_pages. lia.
Qed.

(** ** A segment *)

Record seg : Type := mkSeg { sg_va : Z; sg_memsz : Z; sg_filesz : Z; sg_off : Z; sg_perm : Z }.

(** What the linker guarantees: below the stack, of a size that an int holds, and
    at the same offset in a page as in the file. *)
Record seg_ok (g : seg) : Prop := {
  so_va : 0 ≤ sg_va g; so_top : sg_va g + sg_memsz g ≤ STACKPAGE;
  so_memsz : 0 ≤ sg_memsz g; so_filesz : 0 ≤ sg_filesz g < 2 ^ 31 - PGSIZE;
  so_off : 0 ≤ sg_off g; so_int : sg_off g + sg_memsz g + PGSIZE ≤ 2 ^ 31;
  so_same : sg_va g mod PGSIZE = sg_off g mod PGSIZE; so_perm : perm_ok (sg_perm g) }.

Definition seg_pages (g : seg) : Z := npages (sg_memsz g + sg_va g mod PGSIZE).
Definition in_seg (g : seg) (v : Z) : Prop := in_pages (vpn (sg_va g)) 0 (seg_pages g) v.

(** The segment is mapped with its permissions, and what the file has of it is
    there. *)
Definition seg_loaded (s : VM) (g : seg) : Prop :=
  ∀ a, sg_va g ≤ a < sg_va g + sg_memsz g → ∃ fr, pte s !! (c, vpn a) = Some (fr, sg_perm g) ∧
    (a < sg_va g + sg_filesz g → sg_off g + (a - sg_va g) < flen →
     byte (pmem s) fr (a mod PGSIZE) = nth (Z.to_nat (sg_off g + (a - sg_va g))) content 0).

Lemma seg_pages_nonneg g : seg_ok g → 0 ≤ seg_pages g.
Proof. intros []. unfold seg_pages, npages. pose proof (off_range (sg_va g)). unfold PGSIZE in *. zlia. Qed.

Lemma in_seg_below g v : seg_ok g → in_seg g v → 0 ≤ v < STKP.
Proof.
  intros [] Hv. unfold in_seg, in_pages, seg_pages, npages in Hv.
  assert (STACKPAGE = STKP * PGSIZE) as HS by done. rewrite HS in so_top0.
  unfold vpn, PGSIZE in *. zlia.
Qed.

Lemma seg_loaded_pages s g : seg_ok g →
  pages_loaded s (vpn (sg_va g)) (sg_perm g) (sg_off g - sg_va g mod PGSIZE)
    (sg_filesz g + sg_va g mod PGSIZE) 0 (seg_pages g) → seg_loaded s g.
Proof.
  intros [] Hp a Ha. specialize (Hp (vpn a - vpn (sg_va g))). unfold page_loaded, seg_pages, npages in Hp.
  replace (vpn (sg_va g) + (vpn a - vpn (sg_va g))) with (vpn a) in Hp by lia.
  destruct Hp as (fr & Hm & Hb); [unfold vpn, PGSIZE in *; zlia|]. exists fr. split; [done|].
  intros Hf Hl. pose proof (off_range a).
  assert (sg_off g - sg_va g mod PGSIZE + (vpn a - vpn (sg_va g)) * PGSIZE + a mod PGSIZE =
          sg_off g + (a - sg_va g)) as Heq by (unfold vpn, PGSIZE in *; zlia).
  rewrite Hb; [by rewrite Heq|done| |by rewrite Heq]. unfold vpn, PGSIZE in *. zlia.
Qed.

Lemma map_segment_ok g s (Q : Z → VM → Prop) :
  ready s → seg_ok g → (3 * Z.to_nat (seg_pages g) ≤ free s)%nat →
  (∀ s', ready s' → grown (in_seg g) (3 * Z.to_nat (seg_pages g)) s s' → seg_loaded s' g → Q 0 s') →
  wp (map_segment e devtab c (sg_va g) (sg_memsz g) i (sg_filesz g) (sg_off g) (sg_perm g)) s Q.
Proof.
  intros Hre Hg Hfree HQ. pose proof (seg_pages_nonneg g Hg) as Hnn. pose proof Hg as [].
  unfold map_segment. pose proof (off_range (sg_va g)). assert (STACKPAGE < 2 ^ 40) as HS by done.
  pow2. rewrite !u64_id by (unfold PGSIZE in *; lia).
  rewrite i32_id by (unfold PGSIZE in *; zlia).
  change ((sg_memsz g + sg_va g mod PGSIZE + PGSIZE - 1) / PGSIZE) with (seg_pages g).
  assert (vpn (sg_va g - sg_va g mod PGSIZE) = vpn (sg_va g)) as Hv by apply vpn_down.
  assert (sg_va g - sg_va g mod PGSIZE + seg_pages g * PGSIZE ≤ UTOP) as Htop.
  { assert (UTOP - STACKPAGE > PGSIZE) as HU by done. unfold seg_pages, npages, PGSIZE in *. zlia. }
  rewrite <- (Z.mul_0_l PGSIZE).
  apply map_pages_ok; fold (seg_pages g); try done; try (unfold PGSIZE in *; zlia).
  rewrite Hv, Z.sub_0_r. intros s' Hre' Hgr Hp. apply HQ; [done|exact Hgr|]. by apply seg_loaded_pages.
Qed.

Lemma in_seg_addr g a : seg_ok g → sg_va g ≤ a < sg_va g + sg_memsz g → in_seg g (vpn a).
Proof. intros [] Ha. unfold in_seg, in_pages, seg_pages, npages, vpn, PGSIZE in *. zlia. Qed.

Lemma seg_loaded_grown P k s s' g :
  grown P k s s' → seg_ok g → (∀ v, in_seg g v → ¬ P v) → seg_loaded s g → seg_loaded s' g.
Proof.
  intros Hg Hok Hd Hl a Ha. destruct (Hl a Ha) as (fr & Hm & Hb).
  pose proof (Hd _ (in_seg_addr g a Hok Ha)) as Hv. exists fr. split.
  - by rewrite (gr_child _ _ _ _ Hg).
  - intros Hf Hx. rewrite (gr_cbytes _ _ _ _ Hg (vpn a) fr (sg_perm g)) by (done || apply off_range). by apply Hb.
Qed.

(** ** The program headers, as the file has them *)

Fixpoint num (n : nat) (a : Z) : Z :=
  match n with O => 0 | S n' => nth (Z.to_nat a) content 0 + 256 * num n' (a + 1) end.

Definition ph_seg (a : Z) : seg :=
  mkSeg (num 8 (a + P_VA)) (num 8 (a + P_MEMSZ)) (num 8 (a + P_FILESZ)) (num 8 (a + P_OFFSET))
    (if truthy (Z.land (num 4 (a + P_FLAGS)) ELF_PROG_FLAG_WRITE)
     then Z.lor (Z.lor PTE_P PTE_U) PTE_W else Z.lor PTE_P PTE_U).

Fixpoint segments (n : nat) (a : Z) : list seg :=
  match n with
  | O => []
  | S n' =>
      if num 4 (a + P_TYPE) =? ELF_PROG_LOAD then ph_seg a :: segments n' (a + SIZEOF_PROGHDR)
      else segments n' (a + SIZEOF_PROGHDR)
  end.

Context (elf_buf : Z) (Hbuf : elf_buf mod PGSIZE + ELF_BUF ≤ PGSIZE) (Hbufk : keep (vpn elf_buf)).

(** The array of spawn holds the beginning of the file. *)
Definition elf_read (s : VM) : Prop := ∃ fr x, pte s !! (e, vpn elf_buf) = Some (fr, x) ∧
  ∀ o, 0 ≤ o < ELF_BUF → byte (pmem s) fr (elf_buf mod PGSIZE + o) = nth (Z.to_nat o) content 0.

Lemma elf_read_grown P k s s' : grown P k s s' → elf_read s → elf_read s'.
Proof.
  intros Hg (fr & x & Hm & Hb). exists fr, x. destruct (Hkeep _ Hbufk) as [H1 H2].
  split; [by rewrite (gr_parent _ _ _ _ Hg)|]. intros o Ho.
  rewrite (gr_ebytes _ _ _ _ Hg (vpn elf_buf) fr x); [by apply Hb|done|done|].
  pose proof (off_range elf_buf). unfold ELF_BUF in *. lia.
Qed.

Lemma ldn_num n m a k :
  (∀ j, 0 ≤ j < Z.of_nat n → ldb m (a + j) = nth (Z.to_nat (k + j)) content 0) → ldn n m a = num n k.
Proof.
  revert a k. induction n as [|n IH]; intros a k H; [done|]. cbn [ldn num]. f_equal.
  - rewrite <- (Z.add_0_r a), <- (Z.add_0_r k). apply H. lia.
  - f_equal. apply IH. intros j Hj. rewrite <- !Z.add_assoc. apply H. lia.
Qed.

Lemma getn_elf n o s E (Q : Z → VM → Prop) :
  elf_read s → (0 < n)%nat → 0 ≤ o → o + Z.of_nat n ≤ ELF_BUF → Q (num n o) s →
  wpx (getn e n (elf_buf + o)) s Q E.
Proof.
  intros (fr & x & Hm & Hb) Hn0 Ho Hn HQ. pose proof (off_range elf_buf). unfold ELF_BUF in *.
  assert (vpn (elf_buf + o) = vpn elf_buf ∧ (elf_buf + o) mod PGSIZE = elf_buf mod PGSIZE + o) as [Hv Hmod]
    by (unfold vpn, PGSIZE in *; split; zlia).
  eapply getn_ok; [by rewrite Hv|]. rewrite Hmod. erewrite ldn_num; [exact HQ|].
  intros j Hj. rewrite <- Hb by lia. unfold byte. f_equal. lia.
Qed.

Lemma num_range n a : bytes_of content → 0 ≤ num n a < 256 ^ Z.of_nat n.
Proof.
  intros Hb. revert a. induction n as [|n IH]; intros a; cbn [num]; [done|].
  rewrite Nat2Z.inj_succ, Z.pow_succ_r by lia. specialize (IH (a + 1)).
  assert (0 ≤ nth (Z.to_nat a) content 0 < 256); [|lia].
  destruct (nth_in_or_default (Z.to_nat a) content 0) as [Hin| ->]; [|lia].
  by apply (proj1 (List.Forall_forall _ _) Hb).
Qed.

(** Segments that share no page. *)
Definition disjoint_segs : list seg → Prop := ForallOrdPairs (λ g g', ∀ v, in_seg g v → ¬ in_seg g' v).
Definition all_pages (l : list seg) : nat := foldr (λ g n, (Z.to_nat (seg_pages g) + n)%nat) 0%nat l.
Definition in_segs (l : list seg) (v : Z) : Prop := Exists (λ g, in_seg g v) l.

Lemma load_segments_ok n a s (Q : Z → VM → Prop) :
  let l := segments n a in
  bytes_of content →
  ready s → elf_read s → 0 ≤ a → a + SIZEOF_PROGHDR * Z.of_nat n ≤ ELF_BUF →
  Forall seg_ok l → disjoint_segs l → (3 * all_pages l ≤ free s)%nat →
  (∀ s', ready s' → grown (in_segs l) (3 * all_pages l) s s' → Forall (seg_loaded s') l → Q 0 s') →
  wp (load_segments e devtab n c i (elf_buf + a)) s Q.
Proof.
  intros l Hbytes. subst l. revert a s.
  induction n as [|n IH]; intros a s Hre Helf Ha Hn Hok Hdis Hfree HQ;
    cbn [load_segments segments] in *.
  { wp_step. apply HQ; [done| |done]. eapply grown_weaken; [| |by apply grown_refl, Hre]; [done|lia]. }
  unfold SIZEOF_PROGHDR, ELF_BUF, P_TYPE in *.
  wp_step. rewrite <- Z.add_assoc. apply getn_elf; [done|lia|lia|unfold ELF_BUF; lia|].
  rewrite <- Z.add_assoc.
  destruct (num 4 (a + 0) =? ELF_PROG_LOAD) eqn:Ht; cbn [negb]; [|apply IH; try done; lia].
  do 5 (wp_step; rewrite <- Z.add_assoc; apply getn_elf;
    [done|lia|unfold P_FLAGS, P_VA, P_MEMSZ, P_FILESZ, P_OFFSET; lia
    |unfold P_FLAGS, P_VA, P_MEMSZ, P_FILESZ, P_OFFSET, ELF_BUF; lia|]).
  inversion Hok as [|? ? Hg Hok']; inversion Hdis as [|? ? Hd Hdis']; subst. cbn [all_pages foldr] in Hfree, HQ.
  rewrite (i32_id (num 8 (a + P_OFFSET))).
  2: { pose proof (so_off _ Hg). pose proof (so_int _ Hg). pose proof (so_memsz _ Hg). cbn [sg_off ph_seg] in *. unfold PGSIZE in *. pow2. lia. }
  wp_step. fold (all_pages (segments n (a + 56))) in *.
  apply (map_segment_ok (ph_seg a)); [done|done|lia|]. intros s1 Hre1 Hgr1 Hld1. cbn [Z.ltb Z.compare].
  pose proof (gr_free _ _ _ _ Hgr1).
  apply IH; [done|by eapply elf_read_grown|lia|lia|done|done|lia|].
  intros s2 Hre2 Hgr2 Hld2. apply HQ; [done|..].
  - eapply grown_weaken; [| |eapply grown_trans; [exact Hgr1|exact Hgr2]]; [|lia].
    intros v [?|?]; [by left|by right].
  - constructor; [|done]. eapply seg_loaded_grown; [exact Hgr2|done| |done].
    intros v Hv Hin. unfold in_segs in Hin. rewrite List.Exists_exists in Hin. destruct Hin as (g' & Hin & Hv').
    by apply (proj1 (List.Forall_forall _ _) Hd g' Hin v).
Qed.

(** ** Shared pages *)

Definition shared_page (s : VM) (v fr x : Z) : Prop :=
  UTEXT / PGSIZE ≤ v < UTOP / PGSIZE ∧ pte s !! (e, v) = Some (fr, x) ∧ has x PTE_SHARE.

(** After copy_shared_pages, up to page [n]. *)
Record sharing (s0 s : VM) (n : Z) : Prop := {
  sh_wf : wf s;
  sh_mem : pmem s = pmem s0;
  sh_parent v : pte s !! (e, v) = pte s0 !! (e, v);
  sh_child v fr x : v < n → shared_page s0 v fr x → pte s !! (c, v) = Some (fr, Z.land x PTE_SYSCALL);
  sh_other v : (v < n → ∀ fr x, ¬ shared_page s0 v fr x) → pte s !! (c, v) = pte s0 !! (c, v) }.

Lemma filter_drop (L : list Z) (v : Z) : v ∈ L →
  (length (filter (λ w, (v + 1 ≤ w)%Z) L) + 1 ≤ length (filter (λ w, (v ≤ w)%Z) L))%nat.
Proof.
  intros Hin. induction L as [|w L IH]; [by apply elem_of_nil in Hin|].
  rewrite !filter_cons. apply elem_of_cons in Hin as [<-|Hin].
  - rewrite decide_False, decide_True by lia. cbn [length].
    assert (∀ L : list Z, length (filter (λ w, (v + 1 ≤ w)%Z) L) ≤ length (filter (λ w, (v ≤ w)%Z) L))%nat as H; [|specialize (H L); lia].
    clear. induction L as [|w L IH]; [done|]. rewrite !filter_cons. repeat case_decide; cbn [length]; lia.
  - specialize (IH Hin). repeat case_decide; cbn [length]; lia.
Qed.

Lemma filter_mono (L : list Z) (v : Z) :
  (length (filter (λ w, (v + 1 ≤ w)%Z) L) ≤ length (filter (λ w, (v ≤ w)%Z) L))%nat.
Proof. induction L as [|w L IH]; [done|]. rewrite !filter_cons. repeat case_decide; cbn [length]; lia. Qed.

Lemma sharing_step s0 s s' v fr x :
  sharing s0 s v → shared_page s0 v fr x → wf s' → pmem s' = pmem s →
  pte s' = <[(c, v) := (fr, Z.land x PTE_SYSCALL)]> (pte s) → sharing s0 s' (v + 1).
Proof.
  intros [A1 A2 A3 A4 A5] Hsh W M P. split; [done|congruence|..].
  - intros w. rewrite P, lookup_insert_ne by congruence. apply A3.
  - intros w f y Hw Hs. destruct (decide (w = v)) as [->|Hwv].
    + rewrite P, lookup_insert_eq. destruct Hsh as (_ & H1 & _), Hs as (_ & H2 & _). congruence.
    + rewrite P, lookup_insert_ne by congruence. apply A4; [lia|done].
  - intros w Hw. destruct (decide (w = v)) as [->|Hwv]; [exfalso; apply (Hw ltac:(lia) fr x); done|].
    rewrite P, lookup_insert_ne by congruence. apply A5. intros Hlt. apply Hw. lia.
Qed.

Lemma sharing_skip s0 s v : sharing s0 s v → (∀ fr x, ¬ shared_page s0 v fr x) → sharing s0 s (v + 1).
Proof.
  intros [A1 A2 A3 A4 A5] Hn. split; try done.
  - intros w f y Hw Hs. apply A4; [|done]. destruct (decide (w = v)) as [->|]; [by destruct (Hn f y)|lia].
  - intros w Hw. apply A5. intros Hlt. apply Hw. lia.
Qed.

Lemma copy_shared_ok L s (Q : Z → VM → Prop) :
  wf s → (∀ v fr x, shared_page s v fr x → v ∈ L) → (length L ≤ free s)%nat →
  (∀ s', sharing s s' (UTOP / PGSIZE) → Q 0 s') → wp (copy_shared_pages e c) s Q.
Proof.
  intros Hwf HL Hfree HQ. unfold copy_shared_pages. wp_step.
  eapply (wpx_for_each _ _ _ _ _ _ (λ v s', sharing s s' v ∧ (length (filter (λ w, (v ≤ w)%Z) L) ≤ free s')%nat)).
  - done.
  - split; [|etrans; [apply length_filter|done]]. split; try done.
    intros v fr x Hv [? _]. lia.
  - intros v s1 Hv [Hsh Hf]. pose proof (filter_mono L v). cbv zeta. wp_step. wp_step.
    assert (vpn (v * PGSIZE) = v) as Hpv by apply vpn_page.
    destruct (pte s1 !! (e, v)) as [[fr x]|] eqn:Hm.
    2: { assert (has (perm_of e (v * PGSIZE) s1) PTE_SHARE = false) as ->
           by (unfold perm_of; by rewrite Hpv, Hm).
         rewrite (sh_parent _ _ _ Hsh) in Hm. assert (sharing s s1 (v + 1)) as Hsk
           by (apply sharing_skip; [done|intros fr x (_ & ? & _); congruence]).
         destruct (has_pd e v s1); cbn [when]; wp_steps; split; (done || lia). }
    assert (has_pd e v s1) as Hpd.
    { unfold has_pd. apply Is_true_true, bool_decide_eq_true. exact (wf_tables _ (sh_wf _ _ _ Hsh) _ _ _ Hm). }
    rewrite (Is_true_true_1 _ Hpd). cbn [when].
    assert (perm_of e (v * PGSIZE) s1 = x) as -> by (unfold perm_of; by rewrite Hpv, Hm).
    pose proof (sh_parent _ _ _ Hsh v) as Hpar. rewrite Hm in Hpar.
    destruct (has x PTE_SHARE) eqn:Hs; cbn [when].
    + assert (shared_page s v fr x) as Hsp by (split; [done|]; by rewrite <- Hpar, Hs).
      pose proof (filter_drop L v (HL _ _ _ Hsp)). pose proof (cost_le s1 c v).
      assert (va_ok (v * PGSIZE)) as Hva.
      { apply va_ok_page. assert (UTOP = UTOP / PGSIZE * PGSIZE) as -> by done. unfold PGSIZE in *.
        assert (0 ≤ UTEXT / 4096) by done. lia. }
      wp_step. eapply page_map_ok; [apply Hsh|eapply perm_ok_share, wf_perm; [apply Hsh|done]|done|done|by rewrite Hpv| |rewrite Hpv; lia|].
      { rewrite land_has; auto. }
      rewrite Hpv. intros s2 [W2 P2 M2 _ F2]. wp_step. split; [|lia].
      by eapply sharing_step.
    + wp_step. split; [|lia]. apply sharing_skip; [done|]. intros f y (_ & Hy & Hys). rewrite Hy in Hpar. injection Hpar as -> ->. by rewrite Hs in Hys.
  - intros s' [Hsh _]. wp_step. by apply HQ.
Qed.

(** ** The whole of spawn *)

Lemma one_page_grown fr x s s' : one_page c STKP fr x s s' → (free s ≤ free s' + 3)%nat → grown (eq STKP) 3 s s'.
Proof.
  intros [W N P B] Hf. split; [done|..|done].
  - intros v Hv. rewrite P, lookup_insert_ne; congruence.
  - intros v f y o Hv Hm Ho. apply B; [|done]. intros ->. by eapply N.
  - intros v _ _. rewrite P, lookup_insert_ne; congruence.
  - intros v f y o _ Hm Ho. apply B; [|done]. intros ->. by eapply N.
Qed.

Lemma one_page_ready fr x s s' : one_page c STKP fr x s s' → ready s → ready s'.
Proof.
  intros [W N P B] [_ Hut [off Hfa]]. split; [done|by rewrite P, lookup_insert_ne by congruence|].
  exists off. eapply file_at_ext; [exact Hfa|]. intros ff y Hm. split_and!.
  - by rewrite P, lookup_insert_ne by congruence.
  - intros o Ho. apply B; [|done]. intros ->. by eapply N.
  - rewrite P. intros v z [[_ [= -> _]]|[_ Hv]]%lookup_insert_Some; [by destruct (N (e, fdp i) y)|eauto].
  - rewrite P. intros v z _ [[? _]|[_ Hv]]%lookup_insert_Some; [congruence|eauto].
Qed.

Lemma stack_layout_ext s s' fr argv : 16 ≤ argv_at argv →
  (∀ o, 0 ≤ o < PGSIZE → byte (pmem s') fr o = byte (pmem s) fr o) →
  stack_layout (pmem s) (fr * PGSIZE) argv → stack_layout (pmem s') (fr * PGSIZE) argv.
Proof.
  intros Hf Hb [L1 L2 L3 L4]. destruct (argv_at_range _ Hf) as (H1 & H2 & H3 & H4).
  assert (∀ n o, 0 ≤ o → o + Z.of_nat n ≤ PGSIZE →
    ldn n (pmem s') (fr * PGSIZE + o) = ldn n (pmem s) (fr * PGSIZE + o)) as Hn.
  { intros n o Ho Hl. apply ldn_ext. intros x Hx. replace x with (fr * PGSIZE + (x - fr * PGSIZE)) by lia.
    apply Hb. lia. }
  split; [rewrite Hn by lia; done..|]. intros j a Hj. destruct (L4 j a Hj) as (p & P1 & P2 & P3 & P4).
  pose proof (lookup_lt_Some _ _ _ Hj). exists p. rewrite Hn by lia. split_and!; try done.
  rewrite <- P4. apply load_bytes_ext. intros x Hx.
  replace x with (fr * PGSIZE + (x - fr * PGSIZE)) by lia. apply Hb. lia.
Qed.

(** The file is an ELF image that spawn can load. *)
Definition phoff : Z := num 8 E_PHOFF.
Definition phnum : nat := Z.to_nat (num 2 E_PHNUM).
Definition program : list seg := segments phnum phoff.

Record elf_ok : Prop := {
  eo_bytes : bytes_of content; eo_len : ELF_BUF ≤ flen; eo_magic : num 4 E_MAGIC = ELF_MAGIC;
  eo_headers : phoff + SIZEOF_PROGHDR * Z.of_nat phnum ≤ ELF_BUF;
  eo_segs : Forall seg_ok program; eo_disjoint : disjoint_segs program }.

(** The state in which the file has been opened. *)
Record spawn_pre (argv : list (list Z)) (L : list Z) (s : VM) : Prop := {
  sp_wf : wf s; sp_utemp : pte s !! (e, UT) = None; sp_file : file_at (dev_id d) 0 s;
  sp_buf : ∃ fr, buffer s elf_buf fr; sp_addr : 0 ≤ elf_buf < UTOP;
  sp_new v : pte s !! (c, v) = None;
  sp_args : 16 ≤ argv_at argv ∧ Forall bytes_of argv;
  sp_shared v fr x : shared_page s v fr x → v ∈ L;
  sp_apart v : v ∈ fdp i :: datap i :: L → v ≠ STKP ∧ ¬ in_segs program v;
  sp_frames : (3 + 3 * all_pages program + (length L + 2) ≤ free s)%nat }.

(** The child: its stack, its segments, the shared pages, nothing else; the parent
    with its mappings and with the bytes of its kept pages, but for the buffer of the
    header, and the descriptor closed. *)
Record spawned (argv : list (list Z)) (s s' : VM) : Prop := {
  sd_wf : wf s';
  sd_stack : ∃ fr, pte s' !! (c, STKP) = Some (fr, UPW) ∧ stack_layout (pmem s') (fr * PGSIZE) argv;
  sd_segs : Forall (seg_loaded s') program;
  sd_shared v fr x : shared_page s' v fr x → pte s' !! (c, v) = Some (fr, Z.land x PTE_SYSCALL);
  sd_only v : v ≠ STKP → ¬ in_segs program v → (∀ fr x, ¬ shared_page s' v fr x) → pte s' !! (c, v) = None;
  sd_parent v : v ≠ fdp i → v ≠ datap i → pte s' !! (e, v) = pte s !! (e, v);
  sd_bytes v fr x o : keep v → v ≠ vpn elf_buf → pte s !! (e, v) = Some (fr, x) → 0 ≤ o < PGSIZE →
    byte (pmem s') fr o = byte (pmem s) fr o;
  sd_closed : pte s' !! (e, fdp i) = None ∧ pte s' !! (c, fdp i) = None }.

(** The bytes of the kept pages of [e], but for the one the header is read to. *)
Definition bytes_kept (s s' : VM) : Prop :=
  ∀ v fr x o, keep v → v ≠ vpn elf_buf → pte s !! (e, v) = Some (fr, x) → 0 ≤ o < PGSIZE →
    byte (pmem s') fr o = byte (pmem s) fr o.

Lemma bytes_kept_grown s0 s s' P k : bytes_kept s0 s →
  (∀ v, v ≠ fdp i → v ≠ datap i → pte s !! (e, v) = pte s0 !! (e, v)) → grown P k s s' → bytes_kept s0 s'.
Proof.
  intros Hb Hp Hg v fr x o Hk Hv Hm Ho. destruct (Hkeep v Hk).
  rewrite (gr_ebytes _ _ _ _ Hg v fr x o) by (rewrite ?Hp; done). by apply (Hb v fr x).
Qed.

Lemma segs_below l v : Forall seg_ok l → in_segs l v → 0 ≤ v < STKP.
Proof.
  intros Hl Hv. unfold in_segs in Hv. rewrite List.Exists_exists in Hv. destruct Hv as (g & Hin & Hg).
  eapply in_seg_below; [|done]. by apply (proj1 (List.Forall_forall _ _) Hl).
Qed.

Lemma seg_loaded_shared s s' g :
  pmem s' = pmem s → (∀ v, in_seg g v → pte s' !! (c, v) = pte s !! (c, v)) → seg_ok g →
  seg_loaded s g → seg_loaded s' g.
Proof.
  intros Hm Hp Hok Hl a Ha. destruct (Hl a Ha) as (fr & H1 & H2). exists fr.
  rewrite Hm, Hp by by apply in_seg_addr. done.
Qed.

(** Up to the end of the loading of segments, and then to the end. *)
Lemma spawn_end argv L s frs s4 s5 :
  elf_ok → spawn_pre argv L s →
  stack_layout (pmem s4) (frs * PGSIZE) argv → pte s4 !! (c, STKP) = Some (frs, UPW) →
  Forall (seg_loaded s4) program → (∀ v, v ≠ STKP → ¬ in_segs program v → pte s4 !! (c, v) = None) →
  (∀ v, v ≠ fdp i → v ≠ datap i → pte s4 !! (e, v) = pte s !! (e, v)) →
  bytes_kept s s4 → pte s4 !! (e, fdp i) = None →
  sharing s4 s5 (UTOP / PGSIZE) → (∀ v fr x, shared_page s4 v fr x → v ∈ fdp i :: datap i :: L) →
  spawned argv s s5.
Proof.
  intros He Hpre Hst Hstm Hsegs Honly Hpar Hbk Hcl Hsh HL.
  assert (∀ v fr x, shared_page s5 v fr x ↔ shared_page s4 v fr x) as Hiff
    by (intros v fr x; unfold shared_page; by rewrite (sh_parent _ _ _ Hsh)).
  assert (∀ v, (∀ fr x, ¬ shared_page s4 v fr x) → pte s5 !! (c, v) = pte s4 !! (c, v)) as Hkept.
  { intros v Hv. apply (sh_other _ _ _ Hsh). auto. }
  assert (∀ v fr x, shared_page s4 v fr x → v ≠ STKP ∧ ¬ in_segs program v) as Hap.
  { intros v fr x Hv. eapply (sp_apart _ _ _ Hpre), HL; eauto. }
  split.
  - apply Hsh.
  - exists frs. rewrite (sh_mem _ _ _ Hsh), Hkept; [done|]. intros fr x Hv. by destruct (Hap _ _ _ Hv).
  - apply List.Forall_forall. intros g Hg. pose proof (proj1 (List.Forall_forall _ _) (eo_segs He) g Hg).
    eapply seg_loaded_shared; [apply Hsh| |done|by apply (proj1 (List.Forall_forall _ _) Hsegs)].
    intros v Hv. apply Hkept. intros fr x Hs. destruct (Hap _ _ _ Hs) as [_ Hn]. apply Hn.
    apply List.Exists_exists. eauto.
  - intros v fr x Hs. apply (sh_child _ _ _ Hsh); [|by apply Hiff]. apply Hs.
  - intros v Hv Hns Hnsh. rewrite Hkept; [by apply Honly|]. intros fr x Hs. by apply (Hnsh fr x), Hiff.
  - intros v H1 H2. rewrite (sh_parent _ _ _ Hsh). by apply Hpar.
  - rewrite (sh_mem _ _ _ Hsh). exact Hbk.
  - rewrite (sh_parent _ _ _ Hsh). split; [done|].
    destruct (sp_apart _ _ _ Hpre (fdp i) ltac:(left)) as [H1 H2]. rewrite Hkept; [by apply Honly|].
    intros fr x (_ & Hm & _). congruence.
Qed.

(** The header in memory. *)
Lemma elf_header_ok s argv L (Q : Z → VM → Prop) :
  elf_ok → spawn_pre argv L s →
  (∀ s', ready s' → elf_read s' → (∀ v, pte s' !! (c, v) = None) →
     (∀ v, v ≠ fdp i → v ≠ datap i → pte s' !! (e, v) = pte s !! (e, v)) → (free s ≤ free s')%nat →
     bytes_kept s s' → Q ELF_BUF s') →
  wp (readn e devtab i elf_buf ELF_BUF) s Q.
Proof.
  intros He Hpre HQ. destruct (sp_buf _ _ _ Hpre) as [fr Hb]. pose proof (eo_len He) as Hl.
  apply (readn_ok s 0 elf_buf fr); [apply Hpre|apply Hpre|done|done|done|].
  intros r s' Haw Hfa Hb' Hr Hshort _ Hwr. destruct Haw as [A1 A2 A3 A5 A6 A7]. destruct UT_fd as [Hu1 Hu2].
  assert (r = ELF_BUF) as ->. { destruct (decide (r < ELF_BUF)); [specialize (Hshort ltac:(done))|]; lia. }
  apply HQ; [| | |done|done|].
  - split; [done| |by eexists]. rewrite A3 by done. apply Hpre.
  - destruct (bu_page _ _ _ Hb') as (x & Hm & _). exists fr, x. split; [done|]. intros o Ho.
    pose proof (off_range elf_buf). rewrite Hwr by (unfold ELF_BUF in *; lia).
    rewrite decide_True by lia. f_equal. lia.
  - intros v. rewrite A2. apply Hpre.
  - intros v f x o Hk Hv Hm Ho. apply (A7 v f x); [done|done| |done]. intros <-.
    apply (bu_sole _ _ _ Hb) in Hm. congruence.
Qed.

Lemma spawn_ok argv L s r_tf r_status (Q : Z * list act → VM → Prop) :
  elf_ok → spawn_pre argv L s → 0 ≤ c → 0 ≤ r_tf → 0 ≤ r_status →
  (∀ s', spawned argv s s' →
     Q (c, [SetTrapframe c (num 8 E_ENTRY) (STACKPAGE + (argv_at argv - 16)); SetStatus c ENV_RUNNABLE]) s') →
  wp (spawn e devtab (mret i) elf_buf c r_tf r_status argv) s Q.
Proof.
  intros He Hpre Hc Htf Hstat HQ. pose proof He as [Hbytes Hl Hmagic Hhd Hsegs Hdis].
  destruct (sp_args _ _ _ Hpre) as [Hav Hargs]. pose proof (sp_frames _ _ _ Hpre) as Hfr.
  destruct UT_fd as [Hu1 Hu2]. unfold spawn. wp_step. wp_step.
  rewrite (proj2 (Z.ltb_ge i 0)) by lia. wp_step. apply (elf_header_ok s argv L); [done|done|].
  intros s1 Hre1 Helf1 Hnew1 Hpar1 Hf1 Hbk1. rewrite Z.eqb_refl. cbn [negb orb].
  wp_step. apply getn_elf; [done|lia|done|done|]. rewrite Hmagic, Z.eqb_refl. cbn [negb].
  rewrite (proj2 (Z.ltb_ge c 0)) by done. cbv zeta. wp_step. apply getn_elf; [done|lia|done|done|].
  wp_step. apply init_stack_ok; [apply Hre1|apply Hre1|done|done|lia|congruence|].
  intros frs s2 Hone Hlay Hf2. cbn [Z.ltb Z.compare].
  pose proof (one_page_grown _ _ _ _ Hone Hf2) as Hg2. pose proof (one_page_ready _ _ _ _ Hone Hre1) as Hre2.
  pose proof (elf_read_grown _ _ _ _ Hg2 Helf1) as Helf2.
  wp_step. apply getn_elf; [done|lia|done|done|]. wp_step. apply getn_elf; [done|lia|done|done|].
  fold phoff. fold phnum. pose proof (num_range 8 E_PHOFF Hbytes) as [Hph _].
  assert (u64 (elf_buf + phoff) = elf_buf + phoff) as ->.
  { pose proof (sp_addr _ _ _ Hpre). assert (UTOP < 2 ^ 40) by done. apply u64_id.
    unfold ELF_BUF, SIZEOF_PROGHDR, phoff in *. pow2. lia. }
  wp_step. apply load_segments_ok; fold program; try done; [lia|].
  intros s3 Hre3 Hg3 Hld3. cbn [Z.ltb Z.compare]. wp_step. destruct Hre3 as [W3 U3 [off3 F3]].
  eapply close_file_ok; [done|exact F3|]. intros _ s4 Haw4 Hcl4. apply at_work_grown in Haw4 as Hg4.
  destruct Hone as [_ _ P2 _].
  assert (∀ v, v ≠ fdp i → v ≠ datap i → pte s4 !! (e, v) = pte s !! (e, v)) as Hpar4.
  { intros v H1 H2. rewrite (gr_parent _ _ _ _ Hg4), (gr_parent _ _ _ _ Hg3), (gr_parent _ _ _ _ Hg2) by done. by apply Hpar1. }
  assert (bytes_kept s s4) as Hbk4.
  { eapply bytes_kept_grown; [|intros; by rewrite (gr_parent _ _ _ _ Hg3), (gr_parent _ _ _ _ Hg2), Hpar1 by done|exact Hg4].
    eapply bytes_kept_grown; [|intros; by rewrite (gr_parent _ _ _ _ Hg2), Hpar1 by done|exact Hg3].
    by eapply bytes_kept_grown. }
  assert (∀ v fr x, shared_page s4 v fr x → v ∈ fdp i :: datap i :: L) as HL.
  { intros v fr x (Hr & Hm & Hs). destruct (decide (v = fdp i)) as [->|H1]; [left|].
    destruct (decide (v = datap i)) as [->|H2]; [right; left|]. do 2 right.
    eapply (sp_shared _ _ _ Hpre). split; [done|]. split; [|exact Hs]. by rewrite <- Hpar4. }
  assert (¬ in_segs program STKP) as Hns by (intros Hin; pose proof (segs_below _ _ Hsegs Hin); lia).
  assert (pte s2 !! (c, STKP) = Some (frs, UPW)) as Hst2 by (rewrite P2; apply lookup_insert_eq).
  assert (pte s3 !! (c, STKP) = Some (frs, UPW)) as Hst3 by (by rewrite (gr_child _ _ _ _ Hg3)).
  wp_step. apply (copy_shared_ok (fdp i :: datap i :: L)); [apply Haw4|done| |].
  { pose proof (gr_free _ _ _ _ Hg4). pose proof (gr_free _ _ _ _ Hg3). cbn [length]. lia. }
  intros s5 Hsh. cbn [Z.ltb Z.compare].
  rewrite (proj2 (Z.ltb_ge r_tf 0)), (proj2 (Z.ltb_ge r_status 0)) by done. wp_step. apply HQ.
  apply (spawn_end argv L s frs s4); try done.
  - apply (stack_layout_ext s2 s4); [done| |done]. intros o Ho.
    rewrite (gr_cbytes _ _ _ _ Hg4 STKP frs UPW), (gr_cbytes _ _ _ _ Hg3 STKP frs UPW) by (done || tauto). done.
  - by rewrite (gr_child _ _ _ _ Hg4) by tauto.
  - apply List.Forall_forall. intros g Hg. pose proof (proj1 (List.Forall_forall _ _) Hsegs g Hg).
    eapply seg_loaded_grown; [exact Hg4|done|tauto|]. by apply (proj1 (List.Forall_forall _ _) Hld3).
  - intros v Hv Hvs. rewrite (gr_child _ _ _ _ Hg4), (gr_child _ _ _ _ Hg3) by tauto.
    rewrite P2, lookup_insert_ne by congruence. apply Hnew1.
Qed.

(** C4. spawn starts the program: the child's stack page holds argc, argv and the
    strings where its stack pointer says; each loadable segment is mapped with the
    permissions of its flags and holds what the file has of it; the pages marked
    PTE_SHARE are shared; nothing else is mapped in the child.  The parent keeps its
    mappings, the descriptor's two pages apart, and the bytes of every page that the
    device of the file leaves alone, but for the buffer the header was read to; and
    the descriptor is closed, in the parent and in the child. *)
Theorem spawn_correct argv L s0 s open r_tf r_status :
  open s0 = Ret i s → elf_ok → spawn_pre argv L s → 0 ≤ c → 0 ≤ r_tf → 0 ≤ r_status →
  ∃ s', spawn e devtab open elf_buf c r_tf r_status argv s0 =
      Ret (c, [SetTrapframe c (num 8 E_ENTRY) (STACKPAGE + (argv_at argv - 16)); SetStatus c ENV_RUNNABLE]) s' ∧
    spawned argv s s'.
Proof.
  intros Hopen He Hpre Hc Htf Hst.
  destruct (wp_returns (spawn e devtab (mret i) elf_buf c r_tf r_status argv) s (λ r s',
    r = (c, [SetTrapframe c (num 8 E_ENTRY) (STACKPAGE + (argv_at argv - 16)); SetStatus c ENV_RUNNABLE]) ∧
    spawned argv s s')) as (r & s' & Hrun & -> & Hsp).
  - eapply spawn_ok; eauto.
  - exists s'. split; [|done]. rewrite <- Hrun. unfold spawn. unfold mbind at 1, M_bind. by rewrite Hopen.
Qed.

(** When sys_exofork fails, spawn returns with the file still open. *)
Theorem spawn_leaks_fd argv L s r r_tf r_status :
  elf_ok → spawn_pre argv L s → r < 0 →
  wp (spawn e devtab (mret i) elf_buf r r_tf r_status argv) s (λ x s', x = (r, []) ∧ is_open e s' i).
Proof.
  intros He Hpre Hr. pose proof He as [Hbytes Hl Hmagic Hhd Hsegs Hdis]. unfold spawn. wp_step. wp_step.
  rewrite (proj2 (Z.ltb_ge i 0)) by lia. wp_step. apply (elf_header_ok s argv L); [done|done|].
  intros s1 [_ _ [off Hfa]] Helf1 _ _ _ _. rewrite Z.eqb_refl. cbn [negb orb].
  wp_step. apply getn_elf; [done|lia|done|done|]. rewrite Hmagic, Z.eqb_refl. cbn [negb].
  rewrite (proj2 (Z.ltb_lt r 0)) by done. wp_step. split; [done|]. by eapply file_open.
Qed.
End device.
