(* ===== verification/SpawnExample.v ===== *)
(** * A device, a program and an address space on which [SpawnSpec] applies *)
From stdpp Require Import gmap.
From S2P Require Import Prelude Mem Printfmt KState Syscall FsServ Fork ForkSpec ForkCopy Fd FdSpec Spawn SpawnSpec.

(** ** A file in memory: reads are as long as they can be *)

Section ram.
Context (e c i : Z) (content : list Z).

Definition ram_read (fd va n : Z) : U Z :=
  off ← getn e 4 (fd_offset fd);
  let data := take (Z.to_nat n) (drop (Z.to_nat off) content) in
  a ← frame_of e va true;
  modify (λ s, set_pmem (store_bytes (pmem s) a data) s);;
  put32 e (fd_offset fd) (off + Z.of_nat (length data));;
  mret (Z.of_nat (length data)).
Definition ram_dev : Dev := mkDev devfile_id (Some ram_read) None (Some (λ _, mret 0)) None None.

Context (keep : Z → Prop) (Hi : 0 ≤ i < MAXFD) (Hlen : flen content < 2 ^ 31) (Hb : bytes_of content).

Lemma ram_data off n : 0 ≤ off → 0 ≤ n →
  let data := take (Z.to_nat n) (drop (Z.to_nat off) content) in
  let r := Z.of_nat (length data) in
  bytes_of data ∧ 0 ≤ r ≤ n ∧ (r = 0 → n = 0 ∨ flen content ≤ off) ∧ (r = 0 ∨ off + r ≤ flen content) ∧
  ∀ j, 0 ≤ j < r → nth (Z.to_nat j) data 0 = nth (Z.to_nat (off + j)) content 0.
Proof.
  intros Ho Hn. cbv zeta. unfold flen. rewrite length_take, length_drop. split_and!; try lia.
  - by apply Forall_take, Forall_drop.
  - intros j Hj. rewrite !nth_lookup, lookup_take, lookup_drop. rewrite decide_True by lia.
    do 2 f_equal. lia.
Qed.

#[export] Instance ram_file : FileDev e c i keep content ram_dev.
Proof.
  split.
  - exists ram_read. split; [done|]. intros s off va fr n Hwf Hfa Hbuf Hn Hpg.
    pose proof (fa_page _ _ _ _ _ _ _ Hfa) as (ff & x & Hm & Hw & Hdi & Hmode & Hoff & Hc & Hk).
    destruct Hbuf as [(y & Hmv & Hy) Hsole Hfd].
    assert (0 ≤ off < 2 ^ 32) as Ho. { rewrite <- Hoff. apply (ldn_range 4). apply Hwf. }
    assert (ff ≠ fr) as Hne by (intros ->; specialize (Hsole _ _ Hm); destruct Hfd; congruence).
    pose proof (page_off (INDEX2FD i) (fd_mod i Hi) 4) as [Hv4 Hm4]; [unfold PGSIZE; lia|].
    destruct (ram_data off n) as (D1 & D2 & D3 & D4 & D5); [lia|done|].
    unfold ram_read, fd_offset. wp_step. rewrite <- (vpn_fd i Hi) in Hm.
    eapply getn_ok; [by rewrite Hv4|]. rewrite Hm4. change (ldn 4 _ _) with (field s ff 4). rewrite Hoff.
    set (data := take _ _) in *. cbv zeta. wp_step. eapply frame_of_ok; [done|done|]. wp_step. wp_step. wp_step.
    unfold put32. wp_step. eapply frame_of_ok; [cbn [pte set_pmem]; by rewrite Hv4|done|]. rewrite Hm4.
    wp_step. wp_step. set (s' := set_pmem _ _).
    rewrite (vpn_fd i Hi) in Hm. pose proof (off_range va) as Hva.
    assert (∀ f o, f ≠ fr → f ≠ ff → 0 ≤ o < PGSIZE → byte (pmem s') f o = byte (pmem s) f o) as Hout.
    { intros f o H1 H2 Hr. unfold byte, s'. cbn [pmem set_pmem]. unfold PGSIZE in *.
      rewrite ldb_stn_out by lia. apply ldb_store_bytes_out. lia. }
    assert (∀ o, 0 ≤ o ≤ 12 → o ≠ 4 → (o = 0 ∨ o = 8 ∨ o = 12) → field s' ff o = field s ff o) as Hfield.
    { intros o Ho1 Ho2 Ho3. unfold field, s'. cbn [pmem set_pmem]. rewrite ldn_stn_ne by lia.
      apply ldn_ext. intros z Hz. apply ldb_store_bytes_out. unfold PGSIZE in *. lia. }
    assert (wf s') as W'.
    { apply (wf_only_mem s); [done|by split|]. apply (bytes_ok_stn 4), bytes_ok_store_bytes, Hwf. }
    split; [|split; [|split; [|split; [done|split; [done|split; [done|]]]]]].
    + split; try done.
      * intros v f z o Hm' Hf Hr. apply Hout; [congruence| |done]. intros ->. by eapply Hc.
      * intros v f z o Hkv Hm' Hf Hr. apply Hout; [congruence| |done]. intros ->. by eapply Hk.
    + split. exists ff, x. rewrite (Hfield 0), (Hfield 8) by lia. split_and!; try done.
      unfold field, s'. cbn [pmem set_pmem]. rewrite ld32_st32_eq. apply u32_id. pow2.
      destruct D4 as [D4|D4]; [rewrite D4|]; lia.
    + split; [by exists y|done|done].
    + intros o Hr. unfold byte, s'. cbn [pmem set_pmem].
      rewrite ldb_stn_out by (unfold PGSIZE in *; lia). case_decide as Hin.
      * replace (fr * PGSIZE + o) with (fr * PGSIZE + va mod PGSIZE + (o - va mod PGSIZE)) by lia.
        rewrite ldb_store_bytes_in by (done || lia). by rewrite D5 by lia.
      * apply ldb_store_bytes_out. lia.
  - exists (λ _, mret 0). split; [done|]. intros s off Hwf _. wp_step. by split.
Qed.
End ram.

(** ** A program of one segment; the parent's stack, the file, a shared page *)

Definition ex_prog : list Z :=
  [127; 69; 76; 70] ++ replicate 20 0 ++ [32; 0; 128; 0; 0; 0; 0; 0] ++ [64; 0; 0; 0; 0; 0; 0; 0] ++
  replicate 16 0 ++ [1; 0] ++ replicate 6 0 ++
  [1; 0; 0; 0; 6; 0; 0; 0] ++ [0; 2; 0; 0; 0; 0; 0; 0] ++ [0; 2; 128; 0; 0; 0; 0; 0] ++
  [0; 2; 128; 0; 0; 0; 0; 0] ++ [6; 0; 0; 0; 0; 0; 0; 0] ++ [136; 19; 0; 0; 0; 0; 0; 0] ++
  replicate 400 0 ++ [1; 2; 3; 4; 5; 6].
Definition ex_keep (v : Z) : Prop := v = STKP.
Definition ex_seg : seg := mkSeg 0x800200 5000 6 512 (Z.lor (Z.lor PTE_P PTE_U) PTE_W).

Definition ex_pte : gmap (Z * Z) (Z * Z) :=
  <[(1, fdp 0) := (10, PIPE_PERM)]> (<[(1, fdp 1) := (11, PIPE_PERM)]> {[(1, STKP) := (12, UPW)]}).
Definition ex_vm : VM :=
  mkVM (stb ∅ (10 * PGSIZE) devfile_id) (seqZ 20 16) ex_pte
    {[(1, fdp 0 / NPDENTRIES); (1, STKP / NPDENTRIES)]}.

Lemma ex_pte_cases k fr x : ex_pte !! k = Some (fr, x) →
  (k = (1, fdp 0) ∧ fr = 10 ∧ x = PIPE_PERM) ∨ (k = (1, fdp 1) ∧ fr = 11 ∧ x = PIPE_PERM) ∨
  (k = (1, STKP) ∧ fr = 12 ∧ x = UPW).
Proof.
  unfold ex_pte. intros [[<- [= <- <-]]|[_ H]]%lookup_insert_Some; [by left|].
  apply lookup_insert_Some in H as [[<- [= <- <-]]|[_ H]]; [by right; left|].
  apply lookup_singleton_Some in H as [<- [= <- <-]]. by right; right.
Qed.

Lemma ex_wf : wf ex_vm.
Proof.
  split; cbn [pte pfree pmem tables ex_vm].
  - apply NoDup_seqZ.
  - intros fr k x H%ex_pte_cases. rewrite elem_of_seqZ. lia.
  - intros e v x H. destruct x as [fr x]. apply ex_pte_cases in H as [[[= -> ->] _]|[[[= -> ->] _]|[[= -> ->] _]]].
    + set_solver.
    + change (fdp 1 / NPDENTRIES) with (fdp 0 / NPDENTRIES). set_solver.
    + set_solver.
  - intros fr k x [(_ & _ & ->)|[(_ & _ & ->)|(_ & _ & ->)]]%ex_pte_cases; done.
  - apply bytes_ok_stb. intros a. unfold ldb. rewrite !getd_empty. lia.
Qed.

Lemma ex_program : program ex_prog = [ex_seg]. Proof. by vm_compute. Qed.

Lemma ex_elf_ok : elf_ok ex_prog.
Proof.
  split; rewrite ?ex_program.
  - apply (bool_decide_unpack _). by vm_compute.
  - by vm_compute.
  - by vm_compute.
  - by vm_compute.
  - constructor; [|done]. split; by vm_compute.
  - repeat constructor.
Qed.

Lemma ex_pre : spawn_pre 1 2 0 ex_keep ex_prog (ram_dev 1 ex_prog) (STACKPAGE + 256) [[108; 115]; [45; 108]] [fdp 0; fdp 1] ex_vm.
Proof.
  split.
  - apply ex_wf.
  - by vm_compute.
  - split. exists 10, PIPE_PERM. split_and!; try by vm_compute.
    + intros v y H%ex_pte_cases. naive_solver.
    + intros v y -> H%ex_pte_cases. naive_solver.
  - exists 12. split.
    + exists UPW. split; by vm_compute.
    + intros k y H%ex_pte_cases. change (vpn (STACKPAGE + 256)) with STKP. naive_solver.
    + split; by vm_compute.
  - split; by vm_compute.
  - intros v. apply eq_None_not_Some. intros [[fr x] H%ex_pte_cases]. naive_solver.
  - split; [by vm_compute|]. apply (bool_decide_unpack _). by vm_compute.
  - intros v fr x (_ & H & Hs). apply ex_pte_cases in H as [([= ->] & _)|[([= ->] & _)|(_ & _ & ->)]]; [set_solver..|done].
  - rewrite ex_program. intros v Hv. split.
    + intros ->. revert Hv. apply (bool_decide_unpack _). by vm_compute.
    + intros Hin. assert (2048 ≤ v < 2050) as Hr by (inversion Hin as [? ? H|? ? H]; [exact H|inversion H]).
      assert (Forall (λ v, 851968 ≤ v) [fdp 0; datap 0; fdp 0; fdp 1]) as Hall
        by (apply (bool_decide_unpack _); by vm_compute).
      apply list_elem_of_In in Hv. pose proof (proj1 (List.Forall_forall _ _) Hall v Hv) as H. cbn beta in H. lia.
  - apply Nat.leb_le. by vm_compute.
Qed.

Lemma spawn_correct_witness :
  ∃ s', spawn 1 [ram_dev 1 ex_prog] (mret 0) (STACKPAGE + 256) 2 0 0 [[108; 115]; [45; 108]] ex_vm =
      Ret (2, [SetTrapframe 2 0x800020 (STACKPAGE + 4048); SetStatus 2 ENV_RUNNABLE]) s' ∧
    spawned 1 2 0 ex_keep ex_prog (STACKPAGE + 256) [[108; 115]; [45; 108]] ex_vm s'.
Proof.
  assert (flen ex_prog < 2 ^ 31) as Hlen by by vm_compute.
  assert (bytes_of ex_prog) as Hb by apply ex_elf_ok.
  assert (0 ≤ 0 < MAXFD) as Hi by done.
  pose proof (ram_file 1 2 0 ex_prog ex_keep Hi Hlen Hb) as Hdev.
  assert (∀ v, ex_keep v → v ≠ fdp 0 ∧ v ≠ datap 0) as Hkeep by (intros v ->; split; by vm_compute).
  destruct (spawn_correct 1 2 0 ex_keep ex_prog (ram_dev 1 ex_prog) [ram_dev 1 ex_prog] Hi eq_refl eq_refl Hkeep
    ltac:(done) ltac:(by vm_compute) (STACKPAGE + 256) ltac:(by vm_compute) ltac:(by vm_compute)
    [[108; 115]; [45; 108]] [fdp 0; fdp 1] ex_vm ex_vm (mret 0 : U Z) 0 0 ltac:(reflexivity) ex_elf_ok ex_pre
    ltac:(done) ltac:(done) ltac:(done)) as (s' & H1 & H2).
  exists s'. split; [|exact H2]. exact H1.
Defined.
