(* ===== verification/Boot.v ===== *)
(** * The boot loader (boot/main.c)

    Memory is physical; pointers and integers have 32 bits.  [disk drive lba k] is
    byte [k] of a sector; waitdisk, which polls the controller, is not modelled. *)
From S2P Require Import Prelude Mem.

Definition SECTSIZE : Z := 512.
Definition ELFHDR : Z := 0x10000.
Definition ELF_MAGIC : Z := 0x464C457F.
Definition SIZEOF_PROGHDR : Z := 56.

Section boot.
Context (disk : bool → Z → Z → Z).

(** The bytes written to ports 0x1F3 to 0x1F6, and the sector they name. *)
Definition lba_ports (offset : Z) : Z * Z * Z * Z :=
  (u8 offset, u8 (Z.shiftr offset 8), u8 (Z.shiftr offset 16), u8 (Z.lor (Z.shiftr offset 24) 0xE0)).
Definition sector (ports : Z * Z * Z * Z) : Z → Z :=
  let '(p3, p4, p5, p6) := ports in
  disk (Z.testbit p6 4) (p3 + 2 ^ 8 * p4 + 2 ^ 16 * p5 + 2 ^ 24 * Z.land p6 0xF).

Definition readsect (m : mem) (dst offset : Z) : mem :=
  store_bytes m dst (sector (lba_ports offset) <$> seqZ 0 SECTSIZE).

(** The loop of readseg; None: out of fuel. *)
Fixpoint readseg_loop (fuel : nat) (m : mem) (pa end_pa offset : Z) : option mem :=
  if pa <? end_pa then
    match fuel with
    | O => None
    | S fuel' =>
        readseg_loop fuel' (readsect m pa offset) (u32 (pa + SECTSIZE)) end_pa (u32 (offset + 1))
    end
  else Some m.

Definition SEG_FUEL : nat := Z.to_nat (2 ^ 32 / SECTSIZE).

Definition readseg (m : mem) (pa count offset : Z) : option mem :=
  let end_pa := u32 (pa + count) in
  let pa := Z.land pa (Z.lnot (SECTSIZE - 1)) in
  readseg_loop SEG_FUEL m pa end_pa (offset / SECTSIZE + 1).

(** The loop over the program headers, from [ph] on; [p_pa], [p_memsz] and
    [p_offset] are truncated to the parameters of readseg. *)
Fixpoint load_headers (n : nat) (m : mem) (ph : Z) : option mem :=
  match n with
  | O => Some m
  | S n' =>
      m' ← readseg m (u32 (ld64 m (ph + 24))) (u32 (ld64 m (ph + 40))) (u32 (ld64 m (ph + 8)));
      load_headers n' m' (ph + SIZEOF_PROGHDR)
  end.

Inductive booted : Type :=
  | Jump (entry : Z) (m : mem)      (* the kernel is entered *)
  | Bad (m : mem).                  (* not an ELF file: spin *)

Definition bootmain (m : mem) : option booted :=
  m ← readseg m ELFHDR (SECTSIZE * 8) 0;
  if negb (ld32 m ELFHDR =? ELF_MAGIC) then Some (Bad m)
  else
    let ph := u32 (ELFHDR + ld64 m (ELFHDR + 32)) in
    m ← load_headers (Z.to_nat (ldn 2 m (ELFHDR + 56))) m ph;
    Some (Jump (u32 (ld64 m (ELFHDR + 24))) m).

(** ** Sectors *)

(** Byte [x] of the disk. *)
Definition disk_byte (x : Z) : Z := disk false (x / SECTSIZE) (x mod SECTSIZE).

Lemma sector_ok offset k : 0 ≤ offset < 2 ^ 28 → sector (lba_ports offset) k = disk false offset k.
Proof.
  intros Ho. unfold sector, lba_ports.
  assert (u8 (Z.lor (Z.shiftr offset 24) 0xE0) = Z.shiftr offset 24 + 0xE0) as Hp6.
  { rewrite Z.shiftr_div_pow2 by done. unfold u8. pow2.
    assert (0 ≤ offset / 2 ^ 24 < 16) as Hr by (change (2 ^ 28) with 268435456 in Ho; change (2 ^ 24) with 16777216; zlia).
    assert (∀ i, 0 ≤ i < 16 → Z.lor i 0xE0 mod 256 = i + 0xE0) as Hall; [|by apply Hall].
    intros i Hi. assert (In i (seqZ 0 16)) as Hin by (apply list_elem_of_In, elem_of_seqZ; lia).
    revert i Hi Hin. clear. intros i _ Hin.
    repeat (destruct Hin as [<-|Hin]; [done|]). destruct Hin. }
  rewrite Hp6. rewrite !Z.shiftr_div_pow2 by done. unfold u8.
  change (2 ^ 8) with 256. change (2 ^ 16) with 65536. change (2 ^ 24) with 16777216. change (2 ^ 28) with 268435456 in Ho.
  assert (0 ≤ offset / 16777216 < 16) as Hr by zlia.
  assert (∀ i, 0 ≤ i < 16 → Z.testbit (i + 0xE0) 4 = false ∧ Z.land (i + 0xE0) 0xF = i) as Hall.
  { intros i Hi. assert (In i (seqZ 0 16)) as Hin by (apply list_elem_of_In, elem_of_seqZ; lia).
    revert Hin. clear. intros Hin. repeat (destruct Hin as [<-|Hin]; [done|]). destruct Hin. }
  destruct (Hall _ Hr) as [-> ->]. f_equal. zlia.
Qed.

Context (Hdisk : ∀ dr l k, 0 ≤ disk dr l k < 256).

Definition down (a : Z) : Z := a / SECTSIZE * SECTSIZE.
Definition up (a : Z) : Z := (a + SECTSIZE - 1) / SECTSIZE * SECTSIZE.

Lemma land_sector pa : 0 ≤ pa → Z.land pa (Z.lnot (SECTSIZE - 1)) = down pa.
Proof.
  intros Hp. change (SECTSIZE - 1) with (Z.ones 9). rewrite <- Z.ldiff_land, Z.ldiff_ones_r by done.
  by rewrite Z.shiftl_mul_pow2, Z.shiftr_div_pow2 by done.
Qed.

Lemma ldb_readsect m dst offset x : 0 ≤ offset < 2 ^ 28 →
  ldb (readsect m dst offset) x =
    if decide (dst ≤ x < dst + SECTSIZE) then disk_byte (offset * SECTSIZE + (x - dst)) else ldb m x.
Proof.
  intros Ho. unfold readsect. set (l := _ <$> _).
  assert (Z.of_nat (length l) = SECTSIZE) as Hl by (unfold l; rewrite length_fmap, length_seqZ; done).
  case_decide as Hx.
  - replace x with (dst + (x - dst)) at 1 by lia. rewrite ldb_store_bytes_in; [|..|lia].
    + unfold l. rewrite nth_lookup, list_lookup_fmap.
      rewrite (proj2 (lookup_seqZ 0 SECTSIZE (Z.to_nat (x - dst)) (x - dst))) by lia.
      cbn [fmap option_fmap option_map default id]. rewrite sector_ok by done. unfold disk_byte, SECTSIZE in *.
      f_equal; zlia.
    + apply Forall_fmap, Forall_true. intros k. cbn. unfold sector. destruct (lba_ports offset) as [[[? ?] ?] ?].
      apply Hdisk.
  - apply ldb_store_bytes_out. lia.
Qed.

(** What a sequence of sectors does to memory. *)
Definition sectors_read (m m' : mem) (lo hi sec : Z) : Prop := ∀ x,
  ldb m' x = if decide (lo ≤ x < hi) then disk_byte (sec * SECTSIZE + (x - lo)) else ldb m x.

Lemma readseg_loop_ok fuel m pa end_pa offset :
  pa mod SECTSIZE = 0 → 0 ≤ pa → end_pa ≤ 2 ^ 32 - SECTSIZE → up end_pa - pa ≤ SECTSIZE * Z.of_nat fuel →
  0 ≤ offset → offset + (up end_pa - pa) / SECTSIZE ≤ 2 ^ 28 →
  ∃ m', readseg_loop fuel m pa end_pa offset = Some m' ∧ sectors_read m m' pa (up end_pa) offset.
Proof.
  change (2 ^ 28) with 268435456. change (2 ^ 32) with 4294967296.
  revert m pa offset. induction fuel as [|fuel IH]; intros m pa offset Hal Hpa Hend Hfuel Ho Hoff; cbn [readseg_loop].
  all: assert (pa < end_pa ↔ pa < up end_pa) as Hiff by (unfold up, SECTSIZE in *; zlia).
  all: destruct (pa <? end_pa) eqn:Hlt; [apply Z.ltb_lt in Hlt|apply Z.ltb_ge in Hlt].
  1: exfalso; lia.
  1, 3: exists m; split; [done|]; intros x; by rewrite decide_False by lia.
  assert (pa + SECTSIZE ≤ up end_pa ∧ up end_pa ≤ 4294967296 - SECTSIZE) as [Hle Hup] by (unfold up, SECTSIZE in *; zlia).
  rewrite !u32_id by (unfold SECTSIZE in *; zlia).
  destruct (IH (readsect m pa offset) (pa + SECTSIZE) (offset + 1)) as (m' & Hrun & Hm');
    [unfold SECTSIZE in *; zlia|unfold SECTSIZE in *; lia|done|lia|lia|unfold SECTSIZE in *; zlia|].
  exists m'. split; [done|]. intros x. rewrite Hm', ldb_readsect by (change (2 ^ 28) with 268435456; unfold SECTSIZE in *; zlia).
  unfold SECTSIZE in *. repeat case_decide; try lia; try done. f_equal. lia.
Qed.

Record seg_fits (pa count offset : Z) : Prop := {
  sf_pa : 0 ≤ pa; sf_count : 0 ≤ count; sf_end : pa + count ≤ 2 ^ 32 - SECTSIZE;
  sf_off : 0 ≤ offset; sf_disk : offset + count ≤ 2 ^ 36 }.

Lemma readseg_ok m pa count offset : seg_fits pa count offset →
  ∃ m', readseg m pa count offset = Some m' ∧
    sectors_read m m' (down pa) (up (pa + count)) (offset / SECTSIZE + 1).
Proof.
  intros [H1 H2 H3 H4 H5]. unfold readseg. rewrite land_sector by done.
  change (2 ^ 36) with 68719476736 in H5. pow2. rewrite u32_id by (unfold SECTSIZE in *; lia).
  apply readseg_loop_ok; unfold SEG_FUEL, down, up, SECTSIZE in *; pow2;
    change (2 ^ 28) with 268435456; rewrite ?Z2Nat.id by done; zlia.
Qed.

(** ** The kernel image: the disk from its second sector on *)

Definition file (k : Z) : Z := disk_byte (SECTSIZE + k).
Fixpoint num (n : nat) (a : Z) : Z :=
  match n with O => 0 | S n' => file a + 256 * num n' (a + 1) end.

Record seg : Type := mkSeg { p_pa : Z; p_memsz : Z; p_offset : Z }.
Definition header (a : Z) : seg :=
  mkSeg (u32 (num 8 (a + 24))) (u32 (num 8 (a + 40))) (u32 (num 8 (a + 8))).
Fixpoint headers (n : nat) (a : Z) : list seg :=
  match n with O => [] | S n' => header a :: headers n' (a + SIZEOF_PROGHDR) end.

Definition phoff : Z := num 8 32.
Definition phnum : nat := Z.to_nat (num 2 56).
Definition kernel : list seg := headers phnum phoff.

(** The sectors in memory that the loading of [g] overwrites. *)
Definition covers (g : seg) (x : Z) : Prop := down (p_pa g) ≤ x < up (p_pa g + p_memsz g).

(** A segment that the loader can take: it lies in a sector as it does in the file,
    and away from the header. *)
Record seg_ok (g : seg) : Prop := {
  so_fits : seg_fits (p_pa g) (p_memsz g) (p_offset g);
  so_same : p_pa g mod SECTSIZE = p_offset g mod SECTSIZE;
  so_apart x : covers g x → ¬ ELFHDR ≤ x < ELFHDR + SECTSIZE * 8 }.

(** Loading a later segment does not overwrite bytes of an earlier one. *)
Definition in_order : list seg → Prop :=
  ForallOrdPairs (λ g g', ∀ x, p_pa g ≤ x < p_pa g + p_memsz g → ¬ covers g' x).

Record kernel_ok : Prop := {
  ko_magic : num 4 0 = ELF_MAGIC;
  ko_headers : phoff + SIZEOF_PROGHDR * Z.of_nat phnum ≤ SECTSIZE * 8;
  ko_segs : Forall seg_ok kernel; ko_order : in_order kernel }.

Definition loaded (m : mem) (g : seg) : Prop :=
  ∀ k, 0 ≤ k < p_memsz g → ldb m (p_pa g + k) = file (p_offset g + k).

Definition has_header (m : mem) : Prop := ∀ k, 0 ≤ k < SECTSIZE * 8 → ldb m (ELFHDR + k) = file k.

Lemma ldn_header n m a : has_header m → 0 ≤ a → a + Z.of_nat n ≤ SECTSIZE * 8 → ldn n m (ELFHDR + a) = num n a.
Proof.
  intros Hh. revert a. induction n as [|n IH]; intros a Ha Hn; [done|]. cbn [ldn num].
  rewrite Hh, <- Z.add_assoc, IH by lia. done.
Qed.

Lemma num_nonneg n a : 0 ≤ num n a.
Proof. revert a. induction n as [|n IH]; intros a; cbn [num]; [done|]. specialize (IH (a + 1)).
  pose proof (Hdisk false ((SECTSIZE + a) / SECTSIZE) ((SECTSIZE + a) mod SECTSIZE)).
  unfold file, disk_byte. lia.
Qed.

Lemma read_loaded m m' g : seg_ok g →
  sectors_read m m' (down (p_pa g)) (up (p_pa g + p_memsz g)) (p_offset g / SECTSIZE + 1) → loaded m' g.
Proof.
  intros [[] Hs _] Hr k Hk. rewrite Hr. unfold down, up, file, SECTSIZE in *.
  rewrite decide_True by zlia. f_equal. zlia.
Qed.

Lemma load_headers_ok n m a :
  let l := headers n a in
  has_header m → 0 ≤ a → a + SIZEOF_PROGHDR * Z.of_nat n ≤ SECTSIZE * 8 → Forall seg_ok l → in_order l →
  ∃ m', load_headers n m (ELFHDR + a) = Some m' ∧ Forall (loaded m') l ∧
    ∀ x, (∀ g, In g l → ¬ covers g x) → ldb m' x = ldb m x.
Proof.
  intros l. subst l. revert m a. induction n as [|n IH]; intros m a Hh Ha Hn Hok Hord; cbn [headers load_headers] in *.
  { exists m. done. }
  inversion Hok as [|? ? Hg Hok']; inversion Hord as [|? ? Ho Hord']; subst. unfold SIZEOF_PROGHDR, SECTSIZE in *.
  rewrite <- !Z.add_assoc. rewrite !ldn_header by (done || (unfold SECTSIZE; lia)).
  destruct (readseg_ok m _ _ _ (so_fits _ Hg)) as (m1 & Hrun & Hm1). cbn [header p_pa p_memsz p_offset] in Hrun.
  unfold mbind, option_bind. rewrite Hrun.
  assert (∀ x, ¬ covers (header a) x → ldb m1 x = ldb m x) as Hout
    by (intros x Hx; rewrite Hm1; rewrite decide_False by exact Hx; done).
  destruct (IH m1 (a + 56)) as (m' & Hrun' & Hld & Hkeep); [|lia|lia|done|done|].
  { intros k Hk. rewrite Hout; [by apply Hh|]. intros Hc. apply (so_apart _ Hg _ Hc). unfold SECTSIZE in *. lia. }
  exists m'. split; [done|]. split.
  - constructor; [|done]. intros k Hk. rewrite Hkeep.
    + by apply (read_loaded _ _ _ Hg Hm1).
    + intros g' Hin. apply (proj1 (List.Forall_forall _ _) Ho g' Hin). lia.
  - intros x Hx. rewrite Hkeep by (intros g' Hin; apply Hx; by right). apply Hout, Hx. by left.
Qed.

(** C13. The boot loader enters the kernel at the entry point of its ELF header with
    every segment in memory as it is on the disk, and changes no memory but its
    buffer and the sectors around the segments; every loop ends. *)
Theorem bootmain_loads m : kernel_ok →
  ∃ m', bootmain m = Some (Jump (u32 (num 8 24)) m') ∧ Forall (loaded m') kernel ∧
    ∀ x, ¬ ELFHDR ≤ x < ELFHDR + SECTSIZE * 8 → (∀ g, In g kernel → ¬ covers g x) → ldb m' x = ldb m x.
Proof.
  intros [Hmagic Hhd Hsegs Hord]. unfold bootmain. pose proof (num_nonneg 8 32) as Hph. fold phoff in Hph.
  destruct (readseg_ok m ELFHDR (SECTSIZE * 8) 0) as (m1 & Hrun & Hm1); [by split|].
  change (down ELFHDR) with ELFHDR in Hm1. change (up (ELFHDR + SECTSIZE * 8)) with (ELFHDR + SECTSIZE * 8) in Hm1.
  assert (has_header m1) as Hh.
  { intros k Hk. rewrite Hm1, decide_True by lia. unfold file.
    change ((0 / SECTSIZE + 1) * SECTSIZE) with SECTSIZE. f_equal. lia. }
  unfold mbind, option_bind. rewrite Hrun.
  change (ld32 m1 ELFHDR) with (ld32 m1 (ELFHDR + 0)). rewrite !ldn_header by done. rewrite Hmagic, Z.eqb_refl. cbn [negb].
  fold phoff. fold phnum. unfold SIZEOF_PROGHDR, SECTSIZE in Hhd. rewrite u32_id by (unfold ELFHDR; lia).
  destruct (load_headers_ok phnum m1 phoff) as (m' & Hrun' & Hld & Hkeep); [done|done|done|done|done|].
  rewrite Hrun'. exists m'. split; [|split; [done|]].
  - rewrite ldn_header; [done| |done..]. intros k Hk. rewrite Hkeep; [by apply Hh|].
    intros g Hin Hc. apply (so_apart _ (proj1 (List.Forall_forall _ _) Hsegs g Hin) _ Hc). lia.
  - intros x Hx Hc. rewrite Hkeep by done. by rewrite Hm1, decide_False.
Qed.
End boot.

(** ** A disk with a kernel of one segment *)

Module BootExample.
Definition ex_header : list Z :=
  [127; 69; 76; 70] ++ replicate 20 0 ++ [0x0C; 0; 0x10; 0; 0; 0; 0; 0] ++ [64; 0; 0; 0; 0; 0; 0; 0] ++
  replicate 16 0 ++ [1; 0] ++ replicate 6 0 ++
  [1; 0; 0; 0; 5; 0; 0; 0] ++ [0; 16; 0; 0; 0; 0; 0; 0] ++ replicate 8 0 ++
  [0; 0; 16; 0; 0; 0; 0; 0] ++ replicate 8 0 ++ [188; 2; 0; 0; 0; 0; 0; 0] ++ replicate 8 0.
Definition ex_disk (drive : bool) (lba k : Z) : Z :=
  let x := lba * SECTSIZE + k - SECTSIZE in
  if x <? 120 then u8 (nth (Z.to_nat x) ex_header 0) else x mod 251.

Lemma ex_disk_bytes dr l k : 0 ≤ ex_disk dr l k < 256.
Proof. unfold ex_disk, u8. case_match; zlia. Qed.

Lemma ex_kernel : kernel ex_disk = [mkSeg 0x100000 700 4096]. Proof. by vm_compute. Qed.

Lemma ex_kernel_ok : kernel_ok ex_disk.
Proof.
  split; rewrite ?ex_kernel; [by vm_compute..| |repeat constructor].
  constructor; [|done]. split; [by split|done|]. intros x Hx.
  assert (1048576 ≤ x < 1049600) as Hr by exact Hx. unfold ELFHDR, SECTSIZE. lia.
Qed.

Lemma bootmain_loads_witness :
  ∃ m', bootmain ex_disk ∅ = Some (Jump 0x10000C m') ∧ ldb m' (0x100000 + 5) = (4096 + 5) mod 251.
Proof.
  destruct (bootmain_loads ex_disk ex_disk_bytes ∅ ex_kernel_ok) as (m' & Hrun & Hld & _).
  exists m'. split; [exact Hrun|]. rewrite ex_kernel in Hld. inversion Hld as [|? ? Hg _]; subst.
  specialize (Hg 5). cbn [p_pa p_memsz p_offset] in Hg. rewrite Hg; [by vm_compute|lia].
Defined.
End BootExample.
