(* ===== verification/NetServ.v ===== *)
(** * The network server (net/serv.c) and its network interface
    (net/lwip/jos/jif/jif.c)

    Requests come as messages with a page; each is served by a thread of its own,
    and the calls into lwIP may block, so the threads run in any order: serve_thread
    is cut at its call.  lwIP is not modelled: a step has the result of the call,
    and the bytes it writes, as arguments.  [umap] maps the page numbers of the
    server to frames. *)
From stdpp Require Import gmap.
From S2P Require Import Prelude Mem Printfmt KState.

Definition QUEUE_SIZE : Z := 20.
Definition REQVA : Z := 0x0ffff000 - QUEUE_SIZE * PGSIZE.
Definition TIMER_INTERVAL : Z := 250.
Definition NSREQ_ACCEPT : Z := 1.
Definition NSREQ_BIND : Z := 2.
Definition NSREQ_SHUTDOWN : Z := 3.
Definition NSREQ_CLOSE : Z := 4.
Definition NSREQ_CONNECT : Z := 5.
Definition NSREQ_LISTEN : Z := 6.
Definition NSREQ_RECV : Z := 7.
Definition NSREQ_SEND : Z := 8.
Definition NSREQ_SOCKET : Z := 9.
Definition NSREQ_INPUT : Z := 10.
Definition NSREQ_TIMER : Z := 12.

(** The call that a request asks for; pointers are addresses. *)
Inductive lwip_call : Type :=
  | LAccept (s : Z) | LBind (s name namelen : Z) | LShutdown (s how : Z) | LClose (s : Z)
  | LConnect (s name namelen : Z) | LListen (s backlog : Z) | LRecv (s buf len flags : Z)
  | LSend (s buf size flags : Z) | LSocket (domain type protocol : Z) | LInput (pkt : Z)
  | LInvalid.

Record st_args : Type := mkArgs { reqno : Z; whom : Z; req : Z }.

(** A thread runs serve_thread: before its call, or in it. *)
Record nthread : Type := mkTh { t_args : st_args; t_called : bool }.

(** What the server has been sent: for the theorems. *)
Record request : Type := mkReq { rq_no : Z; rq_whom : Z; rq_va : Z; rq_frame : Z; rq_mem : mem }.

Record nst : Type := mkN {
  n_mem : mem;                     (* physical memory *)
  umap : gmap Z Z;                 (* page of the server: frame *)
  buse : gmap Z bool;
  n_threads : gmap Z nthread;
  n_next : Z;
  timer_envid : Z;
  received : gmap Z request;
  called : list (Z * lwip_call);
  replied : list (Z * Z * Z);      (* request, receiver, value *)
  timer_sent : list Z }.

Definition N := M nst False.

Definition set_n_mem x s := mkN x (umap s) (buse s) (n_threads s) (n_next s) (timer_envid s) (received s) (called s) (replied s) (timer_sent s).
Definition set_umap x s := mkN (n_mem s) x (buse s) (n_threads s) (n_next s) (timer_envid s) (received s) (called s) (replied s) (timer_sent s).
Definition set_buse x s := mkN (n_mem s) (umap s) x (n_threads s) (n_next s) (timer_envid s) (received s) (called s) (replied s) (timer_sent s).
Definition set_n_threads x s := mkN (n_mem s) (umap s) (buse s) x (n_next s) (timer_envid s) (received s) (called s) (replied s) (timer_sent s).
Definition set_n_next x s := mkN (n_mem s) (umap s) (buse s) (n_threads s) x (timer_envid s) (received s) (called s) (replied s) (timer_sent s).
Definition set_received x s := mkN (n_mem s) (umap s) (buse s) (n_threads s) (n_next s) (timer_envid s) x (called s) (replied s) (timer_sent s).
Definition add_called x s := mkN (n_mem s) (umap s) (buse s) (n_threads s) (n_next s) (timer_envid s) (received s) (called s ++ [x]) (replied s) (timer_sent s).
Definition add_replied x s := mkN (n_mem s) (umap s) (buse s) (n_threads s) (n_next s) (timer_envid s) (received s) (called s) (replied s ++ [x]) (timer_sent s).
Definition add_timer x s := mkN (n_mem s) (umap s) (buse s) (n_threads s) (n_next s) (timer_envid s) (received s) (called s) (replied s) (timer_sent s ++ [x]).

(** ** Buffers *)

Definition get_buffer : N Z :=
  r ← for_range 0 QUEUE_SIZE (λ i, s ← get; mret (if getd false (buse s) i then None else Some i));
  match r with
  | None => panic
  | Some i => modify (λ s, set_buse (<[i := true]> (buse s)) s);; mret (REQVA + i * PGSIZE)
  end.

Definition put_buffer (va : Z) : N unit :=
  let i := u64 (va - REQVA) / PGSIZE in
  modify (λ s, set_buse (<[i := false]> (buse s)) s).

(** ** serve_thread *)

(** A field of [n] bytes of the page at [va]; an int is signed. *)
Definition field (m : mem) (fr : Z) (n : nat) (o : Z) : Z := ldn n m (fr * PGSIZE + o).
Definition int_field (m : mem) (fr o : Z) : Z := i32 (field m fr 4 o).

(** The arguments of the call: union Nsipc (inc/ns.h) of the page of frame [fr]. *)
Definition decode (m : mem) (fr no va : Z) : lwip_call :=
  let int := int_field m fr in
  let uns := field m fr 4 in
  if no =? NSREQ_ACCEPT then LAccept (int 0)
  else if no =? NSREQ_BIND then LBind (int 0) (va + 4) (uns 20)
  else if no =? NSREQ_SHUTDOWN then LShutdown (int 0) (int 4)
  else if no =? NSREQ_CLOSE then LClose (int 0)
  else if no =? NSREQ_CONNECT then LConnect (int 0) (va + 4) (uns 20)
  else if no =? NSREQ_LISTEN then LListen (int 0) (int 4)
  else if no =? NSREQ_RECV then LRecv (int 0) va (int 4) (uns 8)
  else if no =? NSREQ_SEND then LSend (int 0) (va + 12) (int 4) (uns 8)
  else if no =? NSREQ_SOCKET then LSocket (int 0) (int 4) (int 8)
  else if no =? NSREQ_INPUT then LInput va
  else LInvalid.

Definition thread_at (k : Z) : N nthread :=
  s ← get; match n_threads s !! k with Some t => mret t | None => panic end.
Definition frame_at (va : Z) : N Z :=
  s ← get; match umap s !! (va / PGSIZE) with Some fr => mret fr | None => panic end.

(** The request codes that have a case. *)
Definition known (no : Z) : bool := (NSREQ_ACCEPT <=? no) && (no <=? NSREQ_INPUT).

(** Thread [k] runs up to its call. *)
Definition serve_call (k : Z) : N unit :=
  t ← thread_at k;
  assert_ (negb (t_called t));;
  fr ← frame_at (req (t_args t));
  s ← get;
  modify (add_called (k, decode (n_mem s) fr (reqno (t_args t)) (req (t_args t))));;
  modify (λ s, set_n_threads (<[k := mkTh (t_args t) true]> (n_threads s)) s).

(** The call returns [r]; [out] is what it wrote: the struct that lwip_accept
    filled, or the bytes that lwip_recv put into the page.  Then the rest. *)
Definition serve_return (k r : Z) (out : list Z) : N unit :=
  t ← thread_at k;
  assert_ (t_called t);;
  let a := t_args t in
  fr ← frame_at (req a);
  when ((reqno a =? NSREQ_ACCEPT) || (reqno a =? NSREQ_RECV))
    (modify (λ s, set_n_mem (store_bytes (n_mem s) (fr * PGSIZE) out) s));;
  let r := if reqno a =? NSREQ_INPUT then 0
           else if known (reqno a) then r else - E_INVAL in
  when (negb (reqno a =? NSREQ_INPUT)) (modify (add_replied (k, whom a, r)));;
  put_buffer (req a);;
  modify (λ s, set_umap (delete (req a / PGSIZE) (umap s)) s);;
  modify (λ s, set_n_threads (delete k (n_threads s)) s).

(** ** serve *)

Definition process_timer (envid start now : Z) : N unit :=
  s ← get;
  when (envid =? timer_envid s) (modify (add_timer (u32 (TIMER_INTERVAL - u32 (now - start))))).

(** One turn of the loop of serve, from get_buffer on, with what ipc_recv returns:
    the value, the sender, the permissions, and the frame of a page that was sent.
    [start] and [now] are the readings of the clock in process_timer; [args] is
    whether malloc, and [th] whether thread_create, succeeds. *)
Definition serve_turn (no from perm : Z) (page : option Z) (start now : Z) (args th : bool) : N unit :=
  va ← get_buffer;
  match page with
  | Some fr => modify (λ s, set_umap (<[va / PGSIZE := fr]> (umap s)) s)
  | None => mret tt
  end;;
  if no =? NSREQ_TIMER then process_timer from start now;; put_buffer va
  else if Z.land perm PTE_P =? 0 then mret tt
  else
    assert_ args;;
    when th (
      s ← get;
      let k := n_next s in
      modify (set_n_next (k + 1));;
      modify (set_received (<[k := mkReq no from va (default 0 page) (n_mem s)]> (received s)));;
      modify (λ s, set_n_threads (<[k := mkTh (mkArgs no from va) false]> (n_threads s)) s)).

(** ** The packets of the interface: struct jif_pkt is a length and bytes *)

(** low_level_output: the chain as the list of the payloads; None: it panics. *)
Fixpoint gather (q : list (list Z)) (m : mem) (txbuf txsize : Z) : option (mem * Z) :=
  match q with
  | [] => Some (m, txsize)
  | p :: q' =>
      if 2000 <? txsize + Z.of_nat (length p) then None
      else gather q' (store_bytes m (txbuf + txsize) p) txbuf (txsize + Z.of_nat (length p))
  end.
Definition low_level_output (q : list (list Z)) (m : mem) (pkt : Z) : option mem :=
  r ← gather q m (pkt + 4) 0;
  let '(m, txsize) := r in Some (st32 m pkt txsize).

(** low_level_input: [q] has the address and the length of each buffer of the
    chain that pbuf_alloc returned for [len] bytes. *)
Fixpoint scatter (q : list (Z * Z)) (m : mem) (rxbuf len copied : Z) : mem :=
  match q with
  | [] => m
  | (payload, qlen) :: q' =>
      let bytes := if len - copied <? qlen then len - copied else qlen in
      scatter q' (store_bytes m payload (load_bytes m (rxbuf + copied) (Z.to_nat bytes))) rxbuf len (copied + bytes)
  end.
Definition i16 (x : Z) : Z := let y := x mod 2 ^ 16 in if y <? 2 ^ 15 then y else y - 2 ^ 16.
Definition low_level_input (q : list (Z * Z)) (m : mem) (pkt : Z) : mem :=
  scatter q m (pkt + 4) (i16 (ld32 m pkt)) 0.

(** ** Every request is served once, with the arguments its client sent *)

Definition va_of (i : Z) : Z := REQVA + i * PGSIZE.

Lemma va_of_page i : va_of i / PGSIZE = REQVA / PGSIZE + i.
Proof. unfold va_of. by rewrite Z.div_add. Qed.
Lemma put_index i : 0 ≤ i < QUEUE_SIZE → u64 (va_of i - REQVA) / PGSIZE = i.
Proof.
  intros Hi. unfold va_of. replace (REQVA + i * PGSIZE - REQVA) with (i * PGSIZE) by lia.
  unfold QUEUE_SIZE, PGSIZE in *. rewrite u64_id by lia. by apply Z.div_mul.
Qed.

(** Frame [fr] is not the page of a request that is being served. *)
Definition fresh_frame (s : nst) (fr : Z) : Prop :=
  ∀ k rq, n_threads s !! k ≠ None → received s !! k = Some rq → rq_frame rq ≠ fr.

Inductive ns_step : nst → nst → Prop :=
  | ns_turn no from perm page start now args th s s' :
      (Z.land perm PTE_P ≠ 0 → is_Some page) → (∀ fr, page = Some fr → fresh_frame s fr) →
      serve_turn no from perm page start now args th s = Ret tt s' → ns_step s s'
  | ns_call k s s' : serve_call k s = Ret tt s' → ns_step s s'
  | ns_return k r out s s' : Z.of_nat (length out) ≤ PGSIZE →
      serve_return k r out s = Ret tt s' → ns_step s s'
  | ns_client fr o b s : fresh_frame s fr → 0 ≤ o < PGSIZE →
      ns_step s (set_n_mem (stb (n_mem s) (fr * PGSIZE + o) b) s).

(** The server, before the first turn. *)
Definition ns0 (m : mem) (timer : Z) : nst := mkN m ∅ ∅ ∅ 0 timer ∅ [] [] [].

Inductive ns_reach (m : mem) (timer : Z) : nst → Prop :=
  | ns_start : ns_reach m timer (ns0 m timer)
  | ns_next s s' : ns_reach m timer s → ns_step s s' → ns_reach m timer s'.

Definition same_page (m m' : mem) (fr : Z) : Prop :=
  ∀ o, 0 ≤ o < PGSIZE → ldb m (fr * PGSIZE + o) = ldb m' (fr * PGSIZE + o).

(** A request in progress has a buffer, in use and mapped to the client's page. *)
Record serving (s : nst) (k : Z) (t : nthread) (rq : request) : Prop := {
  sv_args : t_args t = mkArgs (rq_no rq) (rq_whom rq) (rq_va rq);
  sv_buf : ∃ i, 0 ≤ i < QUEUE_SIZE ∧ rq_va rq = va_of i ∧ buse s !! i = Some true;
  sv_map : umap s !! (rq_va rq / PGSIZE) = Some (rq_frame rq);
  sv_page : t_called t = false → same_page (n_mem s) (rq_mem rq) (rq_frame rq);
  sv_called : (∃ c, (k, c) ∈ called s) ↔ t_called t = true;
  sv_reply w r : (k, w, r) ∉ replied s }.

Record ns_ok (s : nst) : Prop := {
  no_threads k t : n_threads s !! k = Some t → ∃ rq, received s !! k = Some rq ∧ serving s k t rq;
  no_apart k k' t t' : n_threads s !! k = Some t → n_threads s !! k' = Some t' → k ≠ k' →
    req (t_args t) ≠ req (t_args t');
  no_frames k k' rq rq' : n_threads s !! k ≠ None → n_threads s !! k' ≠ None → k ≠ k' →
    received s !! k = Some rq → received s !! k' = Some rq' → rq_frame rq ≠ rq_frame rq';
  no_new k : n_next s ≤ k → received s !! k = None;
  no_called k c : (k, c) ∈ called s → ∃ rq, received s !! k = Some rq ∧
    c = decode (rq_mem rq) (rq_frame rq) (rq_no rq) (rq_va rq);
  no_called_once : NoDup (fst <$> called s);
  no_replied k w r : (k, w, r) ∈ replied s → ∃ rq, received s !! k = Some rq ∧ w = rq_whom rq ∧
    rq_no rq ≠ NSREQ_INPUT;
  no_replied_once : NoDup ((λ x, x.1.1) <$> replied s);
  no_done k rq : received s !! k = Some rq → n_threads s !! k = None →
    (∃ c, (k, c) ∈ called s) ∧ (rq_no rq ≠ NSREQ_INPUT → ∃ r, (k, rq_whom rq, r) ∈ replied s) }.

Definition free_buffer (s : nst) (i : Z) : Prop := 0 ≤ i < QUEUE_SIZE ∧ getd false (buse s) i = false.

Lemma bind_run {A B} (m : N A) (k : A → N B) s a s' : m s = Ret a s' → (m ≫= k) s = k a s'.
Proof. intros H. unfold mbind, M_bind. by rewrite H. Qed.

Lemma get_buffer_run s :
  (∃ i, free_buffer s i ∧ get_buffer s = Ret (va_of i) (set_buse (<[i := true]> (buse s)) s)) ∨
  ((∀ i, 0 ≤ i < QUEUE_SIZE → getd false (buse s) i = true) ∧ get_buffer s = Panic s).
Proof.
  assert (wp (for_range 0 QUEUE_SIZE (λ i, t ← get; mret (if getd false (buse t) i then None else Some i)) : N (option Z)) s
    (λ r s', s' = s ∧ match r with
      | Some i => free_buffer s i
      | None => ∀ i, 0 ≤ i < QUEUE_SIZE → getd false (buse s) i = true end)) as Hw.
  { apply (wpx_for_range _ _ _ _ _ _ (λ i s', s' = s ∧ ∀ j, 0 ≤ j < i → getd false (buse s) j = true)); [done| | |].
    - split; [done|]. intros j ?. lia.
    - intros j s' Hj [-> Hlt]. wp_steps. destruct (getd false (buse s) j) eqn:Hb.
      + split; [done|]. intros j' Hj'. destruct (decide (j' = j)) as [->|]; [done|]. apply Hlt. lia.
      + by split.
    - by intros s' [-> H]. }
  apply wp_returns in Hw as (r & s' & Hrun & -> & Hr). unfold get_buffer.
  rewrite (bind_run _ _ _ _ _ Hrun). destruct r as [i|]; [left; by exists i|by right].
Qed.

Lemma serving_ext s s' k t rq :
  serving s k t rq →
  umap s' !! (rq_va rq / PGSIZE) = umap s !! (rq_va rq / PGSIZE) →
  (∀ i, 0 ≤ i < QUEUE_SIZE → rq_va rq = va_of i → buse s' !! i = buse s !! i) →
  (t_called t = false → same_page (n_mem s') (n_mem s) (rq_frame rq)) →
  (∀ c, (k, c) ∈ called s' ↔ (k, c) ∈ called s) →
  (∀ w r, (k, w, r) ∈ replied s' → (k, w, r) ∈ replied s) → serving s' k t rq.
Proof.
  intros [H1 (i & Hi & Hv & Hb) H3 H4 H5 H6] E1 E2 E3 E4 E5. split.
  - done.
  - exists i. by rewrite E2.
  - by rewrite E1.
  - intros Hc o Ho. rewrite E3 by done. by apply H4.
  - rewrite <- H5. by setoid_rewrite E4.
  - intros w r Hin. by apply (H6 w r), E5.
Qed.

Lemma va_of_inj i j : va_of i / PGSIZE = va_of j / PGSIZE → i = j.
Proof. rewrite !va_of_page. lia. Qed.

(** Taking a buffer, and mapping a page there, touches no request. *)
Definition taken (s : nst) (i : Z) (page : option Z) : nst :=
  set_umap (match page with Some fr => <[va_of i / PGSIZE := fr]> (umap s) | None => umap s end)
    (set_buse (<[i := true]> (buse s)) s).

Lemma serving_taken s i page k t rq : free_buffer s i → serving s k t rq → serving (taken s i page) k t rq.
Proof.
  intros [Hi Hf] Hs. pose proof (sv_buf _ _ _ _ Hs) as (j & Hj & Hv & Hb).
  assert (i ≠ j) as Hne by (intros ->; unfold getd in Hf; by rewrite Hb in Hf).
  eapply serving_ext; [exact Hs|..]; try done; cbn [umap buse taken set_umap set_buse].
  - destruct page; [|done]. rewrite lookup_insert_ne; [done|]. rewrite Hv. intros H%va_of_inj. done.
  - intros j' _ Hv'. rewrite Hv in Hv'. rewrite lookup_insert_ne; [done|]. intros ->.
    apply Hne, va_of_inj. by rewrite Hv'.
Qed.

Lemma ns_ok_ext s s' : ns_ok s →
  n_threads s' = n_threads s → received s' = received s → called s' = called s → replied s' = replied s →
  n_next s' = n_next s →
  (∀ k t rq, n_threads s !! k = Some t → received s !! k = Some rq → serving s k t rq → serving s' k t rq) → ns_ok s'.
Proof.
  intros [I1 I2 I3 I4 I5 I6 I7 I8 I9] E1 E2 E3 E4 E5 Hsv. split; rewrite ?E1, ?E2, ?E3, ?E4, ?E5; try done.
  intros k t Hk. destruct (I1 k t Hk) as (rq & Hr & Hs). exists rq. split; [done|]. by eapply Hsv.
Qed.

Lemma ns_ok_taken s i page : free_buffer s i → ns_ok s → ns_ok (taken s i page).
Proof. intros Hf Hok. eapply ns_ok_ext; [exact Hok|..]; try done. intros k t rq _ _. by apply serving_taken. Qed.

(** A buffer that was taken for nothing is given back. *)
Lemma ns_ok_put s i : ns_ok s → (∀ k t rq, n_threads s !! k = Some t → received s !! k = Some rq → rq_va rq ≠ va_of i) →
  ns_ok (set_buse (<[i := false]> (buse s)) s).
Proof.
  intros Hok Hno. eapply ns_ok_ext; [exact Hok|..]; try done. intros k t rq Hk Hr Hs.
  eapply serving_ext; [exact Hs|..]; try done. cbn [buse set_buse]. intros j _ Hv.
  rewrite lookup_insert_ne; [done|]. intros ->. by eapply Hno.
Qed.

Lemma taken_free s i k t rq : free_buffer s i → ns_ok s →
  n_threads s !! k = Some t → received s !! k = Some rq → rq_va rq ≠ va_of i.
Proof.
  intros [Hi Hf] Hok Hk Hr Hv. destruct (no_threads _ Hok k t Hk) as (rq' & Hr' & Hs).
  assert (rq' = rq) as -> by congruence. destruct (sv_buf _ _ _ _ Hs) as (j & Hj & Hv' & Hb).
  assert (i = j) as -> by (apply va_of_inj; congruence). unfold getd in Hf. by rewrite Hb in Hf.
Qed.

(** The new request. *)
Definition accepted (s : nst) (i no from fr : Z) : nst :=
  set_n_threads (<[n_next s := mkTh (mkArgs no from (va_of i)) false]> (n_threads s))
    (set_received (<[n_next s := mkReq no from (va_of i) fr (n_mem s)]> (received s))
      (set_n_next (n_next s + 1) s)).

Lemma ns_ok_accepted s i no from fr : free_buffer s i → fresh_frame s fr → ns_ok s →
  ns_ok (accepted (taken s i (Some fr)) i no from fr).
Proof.
  intros Hf Hfr Hok. pose proof (ns_ok_taken s i (Some fr) Hf Hok) as Hok'.
  pose proof (taken_free s i) as Hfree. destruct Hf as [Hi Hf].
  assert (n_threads s !! n_next s = None) as Hnt.
  { destruct (n_threads s !! n_next s) as [t|] eqn:Ht; [|done].
    destruct (no_threads _ Hok _ _ Ht) as (rq & Hr & _). rewrite (no_new _ Hok) in Hr by lia. done. }
  assert (received s !! n_next s = None) as Hnr by (apply (no_new _ Hok); lia).
  assert (∀ c, (n_next s, c) ∉ called s) as Hnc
    by (intros c Hc; destruct (no_called _ Hok _ _ Hc) as (rq & Hr & _); congruence).
  assert (∀ w r, (n_next s, w, r) ∉ replied s) as Hnp
    by (intros w r Hc; destruct (no_replied _ Hok _ _ _ Hc) as (rq & Hr & _); congruence).
  set (s1 := taken s i (Some fr)) in *. set (s2 := accepted _ _ _ _ _).
  assert (∀ k, k ≠ n_next s → n_threads s2 !! k = n_threads s !! k ∧ received s2 !! k = received s !! k) as Hold.
  { intros k Hk. unfold s2, accepted. cbn. by rewrite !lookup_insert_ne by done. }
  assert (n_threads s2 !! n_next s = Some (mkTh (mkArgs no from (va_of i)) false)) as Ht2 by apply lookup_insert_eq.
  assert (received s2 !! n_next s = Some (mkReq no from (va_of i) fr (n_mem s))) as Hr2 by apply lookup_insert_eq.
  destruct Hok' as [I1 I2 I3 I4 I5 I6 I7 I8 I9]. split.
  - intros k t Hk. destruct (decide (k = n_next s)) as [->|Hne].
    + rewrite Ht2 in Hk. injection Hk as <-. eexists. split; [exact Hr2|]. split; cbn; try done.
      * exists i. split; [done|]. split; [done|]. apply lookup_insert_eq.
      * apply lookup_insert_eq.
      * split; [|done]. intros [c Hc]. by destruct (Hnc c).
    + destruct (Hold k Hne) as [E1 E2]. rewrite E1 in Hk. rewrite E2. destruct (I1 k t Hk) as (rq & Hr & Hs).
      exists rq. split; [done|]. by eapply serving_ext; [exact Hs|..].
  - intros k k' t t' Hk Hk' Hne.
    assert (∀ k t, k ≠ n_next s → n_threads s2 !! k = Some t → req (t_args t) ≠ va_of i) as Hva.
    { intros k0 t0 Hne0 Hk0. rewrite (proj1 (Hold k0 Hne0)) in Hk0.
      destruct (no_threads _ Hok k0 t0 Hk0) as (rq & Hr & Hs). rewrite (sv_args _ _ _ _ Hs). cbn.
      by eapply Hfree. }
    destruct (decide (k = n_next s)) as [->|H1]; [|destruct (decide (k' = n_next s)) as [->|H2]].
    + rewrite Ht2 in Hk. injection Hk as <-. cbn. intros He. by eapply Hva.
    + rewrite Ht2 in Hk'. injection Hk' as <-. cbn. by eapply Hva.
    + rewrite (proj1 (Hold _ H1)) in Hk. rewrite (proj1 (Hold _ H2)) in Hk'. by eapply I2.
  - intros k k' rq rq' Hk Hk' Hne Hr Hr'.
    destruct (decide (k = n_next s)) as [->|H1]; [|destruct (decide (k' = n_next s)) as [->|H2]].
    + rewrite Hr2 in Hr. injection Hr as <-. destruct (Hold k' ltac:(done)) as [E1 E2]. rewrite E1 in Hk'. rewrite E2 in Hr'.
      intros He. by eapply (Hfr k' rq').
    + rewrite Hr2 in Hr'. injection Hr' as <-. destruct (Hold k ltac:(done)) as [E1 E2]. rewrite E1 in Hk. rewrite E2 in Hr.
      by eapply (Hfr k rq).
    + destruct (Hold _ H1) as [E1 E2], (Hold _ H2) as [E3 E4]. rewrite E1 in Hk. rewrite E3 in Hk'.
      rewrite E2 in Hr. rewrite E4 in Hr'. exact (I3 k k' rq rq' Hk Hk' Hne Hr Hr').
  - intros k Hk. cbn in Hk. rewrite (proj2 (Hold k ltac:(lia))). apply I4. cbn. lia.
  - intros k c Hc. destruct (I5 k c Hc) as (rq & Hr & ->). exists rq. split; [|done].
    rewrite (proj2 (Hold k ltac:(intros ->; unfold s1 in Hr; cbn in Hr; congruence))). exact Hr.
  - done.
  - intros k w r Hc. destruct (I7 k w r Hc) as (rq & Hr & ?). exists rq. split; [|done].
    rewrite (proj2 (Hold k ltac:(intros ->; unfold s1 in Hr; cbn in Hr; congruence))). exact Hr.
  - done.
  - intros k rq Hr Hk. destruct (decide (k = n_next s)) as [->|Hne]; [by rewrite Ht2 in Hk|].
    destruct (Hold k Hne) as [E1 E2]. rewrite E1 in Hk. rewrite E2 in Hr. by apply I9.
Qed.

Lemma turn_ok no from perm page start now args th s s' :
  ns_ok s → (Z.land perm PTE_P ≠ 0 → is_Some page) → (∀ fr, page = Some fr → fresh_frame s fr) →
  serve_turn no from perm page start now args th s = Ret tt s' → ns_ok s'.
Proof.
  intros Hok Hperm Hfr Hrun. unfold serve_turn in Hrun.
  destruct (get_buffer_run s) as [(i & Hf & Hg)|[_ Hg]].
  2: { unfold mbind at 1, M_bind in Hrun. by rewrite Hg in Hrun. }
  rewrite (bind_run _ _ _ _ _ Hg) in Hrun.
  rewrite (bind_run _ _ _ tt (taken s i page)) in Hrun by by destruct page.
  pose proof (ns_ok_taken s i page Hf Hok) as Hok1.
  destruct (no =? NSREQ_TIMER).
  - assert (∃ s1, process_timer from start now (taken s i page) = Ret tt s1 ∧ ns_ok s1 ∧
      n_threads s1 = n_threads s ∧ received s1 = received s) as (s1 & Hp & Hok2 & Ht & Hr).
    { unfold process_timer, mbind, M_bind, get, when, modify. case_match; eexists; (split; [reflexivity|]); [|done].
      split; [|done]. eapply ns_ok_ext; [exact Hok1|..]; try done. intros k t rq _ _ Hs. by eapply serving_ext; [exact Hs|..]. }
    rewrite (bind_run _ _ _ _ _ Hp) in Hrun. unfold put_buffer in Hrun. rewrite put_index in Hrun by apply Hf.
    injection Hrun as <-. apply ns_ok_put; [done|]. rewrite Ht, Hr. intros k t rq. by apply taken_free.
  - destruct (Z.land perm PTE_P =? 0) eqn:HP; [by injection Hrun as <-|].
    apply Z.eqb_neq in HP. destruct (Hperm HP) as [fr ->].
    destruct args; [|done]. destruct th; injection Hrun as <-; [|done].
    by apply ns_ok_accepted; [|apply Hfr|].
Qed.

Lemma decode_ext m m' fr no va : same_page m m' fr → decode m fr no va = decode m' fr no va.
Proof.
  intros Hp. assert (∀ n o, 0 ≤ o → o + Z.of_nat n ≤ PGSIZE → field m fr n o = field m' fr n o) as Hf.
  { intros n o Ho Hn. apply ldn_ext. intros x Hx. replace x with (fr * PGSIZE + (x - fr * PGSIZE)) by lia.
    apply Hp. lia. }
  unfold decode, int_field. by rewrite !Hf by done.
Qed.

Lemma call_ok k s s' : ns_ok s → serve_call k s = Ret tt s' → ns_ok s'.
Proof.
  intros Hok Hrun. unfold serve_call, thread_at, frame_at, mbind, M_bind, get, mret, M_ret in Hrun.
  destruct (n_threads s !! k) as [t|] eqn:Ht; [|done]. cbn in Hrun.
  destruct (t_called t) eqn:Hc; [done|]. cbn in Hrun.
  destruct (no_threads _ Hok k t Ht) as (rq & Hr & Hs).
  pose proof (sv_args _ _ _ _ Hs) as Ha. rewrite Ha in Hrun. cbn in Hrun. rewrite (sv_map _ _ _ _ Hs) in Hrun.
  injection Hrun as <-. set (c := decode _ _ _ _).
  assert (c = decode (rq_mem rq) (rq_frame rq) (rq_no rq) (rq_va rq)) as Hdec
    by (by apply decode_ext, (sv_page _ _ _ _ Hs)).
  assert (∀ c', (k, c') ∉ called s) as Hnew.
  { intros c' Hin. assert (t_called t = true) by (apply (sv_called _ _ _ _ Hs); by eexists). congruence. }
  set (s' := set_n_threads _ _).
  assert (∀ k' c', (k', c') ∈ called s' ↔ (k', c') ∈ called s ∨ (k', c') = (k, c)) as Hcalled
    by (intros k' c'; unfold s'; cbn; rewrite elem_of_app, list_elem_of_singleton; done).
  destruct Hok as [I1 I2 I3 I4 I5 I6 I7 I8 I9].
  assert (∀ k' t', n_threads s' !! k' = Some t' → ∃ t0, n_threads s !! k' = Some t0 ∧ t_args t' = t_args t0) as Hth.
  { intros k' t'. unfold s'; cbn. intros [[<- <-]|[_ ?]]%lookup_insert_Some; [exists t|exists t']; done. }
  assert (∀ k', n_threads s' !! k' ≠ None → n_threads s !! k' ≠ None) as Hth'.
  { intros k' Hk. destruct (n_threads s' !! k') as [t'|] eqn:E; [|done]. destruct (Hth _ _ E) as (t0 & -> & _). done. }
  split; try done.
  - intros k' t'. unfold s' at 1; cbn. intros [[<- <-]|[Hne Hk]]%lookup_insert_Some.
    + exists rq. split; [done|]. destruct Hs as [S1 S2 S3 S4 S5 S6]. split; try done.
      split; [done|]. intros _. exists c. apply Hcalled. by right.
    + destruct (I1 k' t' Hk) as (rq' & Hr' & Hs'). exists rq'. split; [done|].
      eapply serving_ext; [exact Hs'|..]; try done. intros c'. rewrite Hcalled.
      split; [intros [?|[= ??]]; congruence|by left].
  - intros k1 k2 t1 t2 Hk1 Hk2. destruct (Hth _ _ Hk1) as (t1' & H1 & ->), (Hth _ _ Hk2) as (t2' & H2 & ->). eauto.
  - intros k1 k2 r1 r2 H1 H2. apply I3; auto.
  - intros k' c' [Hin|[= -> ->]]%Hcalled; [by apply I5|]. by exists rq.
  - unfold s'; cbn. rewrite fmap_app. apply list.NoDup_app. split; [done|]. split.
    + intros x Hx Hin. cbn in Hin. apply list_elem_of_singleton in Hin as ->.
      apply list_elem_of_fmap in Hx as ([k' c'] & -> & Hin). by eapply Hnew.
    + apply list.NoDup_singleton.
  - intros k' rq' Hr' Hk'. destruct (decide (k' = k)) as [->|Hne].
    + unfold s' in Hk'; cbn in Hk'. by rewrite lookup_insert_eq in Hk'.
    + unfold s' in Hk'; cbn in Hk'. rewrite lookup_insert_ne in Hk' by done.
      destruct (I9 k' rq' Hr' Hk') as [[c' Hc'] Hrep]. split; [|done]. exists c'. apply Hcalled. by left.
Qed.

(** What serve_return leaves. *)
Definition returned (s : nst) (k r : Z) (out : list Z) (rq : request) : nst :=
  let s1 := if (rq_no rq =? NSREQ_ACCEPT) || (rq_no rq =? NSREQ_RECV)
            then set_n_mem (store_bytes (n_mem s) (rq_frame rq * PGSIZE) out) s else s in
  let s2 := if rq_no rq =? NSREQ_INPUT then s1
            else add_replied (k, rq_whom rq, if known (rq_no rq) then r else - E_INVAL) s1 in
  set_n_threads (delete k (n_threads s))
    (set_umap (delete (rq_va rq / PGSIZE) (umap s))
      (set_buse (<[u64 (rq_va rq - REQVA) / PGSIZE := false]> (buse s)) s2)).

Lemma serve_return_run s k r out t rq : n_threads s !! k = Some t → serving s k t rq → t_called t = true →
  serve_return k r out s = Ret tt (returned s k r out rq).
Proof.
  intros Ht Hs Hc. unfold serve_return, returned, thread_at, frame_at, put_buffer, mbind, M_bind, get, mret, M_ret, modify.
  rewrite Ht, Hc. cbn [assert_]. unfold mret. rewrite (sv_args _ _ _ _ Hs). cbn.
  rewrite (sv_map _ _ _ _ Hs). unfold mret.
  destruct (rq_no rq =? NSREQ_INPUT); destruct ((rq_no rq =? NSREQ_ACCEPT) || (rq_no rq =? NSREQ_RECV));
    cbn; reflexivity.
Qed.

Lemma returned_fields s k r out rq :
  n_threads (returned s k r out rq) = delete k (n_threads s) ∧
  umap (returned s k r out rq) = delete (rq_va rq / PGSIZE) (umap s) ∧
  buse (returned s k r out rq) = <[u64 (rq_va rq - REQVA) / PGSIZE := false]> (buse s) ∧
  received (returned s k r out rq) = received s ∧ called (returned s k r out rq) = called s ∧
  n_next (returned s k r out rq) = n_next s.
Proof. unfold returned. destruct (_ =? NSREQ_INPUT), (_ || _); done. Qed.

Lemma returned_mem s k r out rq fr : Z.of_nat (length out) ≤ PGSIZE → fr ≠ rq_frame rq →
  same_page (n_mem (returned s k r out rq)) (n_mem s) fr.
Proof.
  intros Hl Hne o Ho. unfold returned. destruct (_ =? NSREQ_INPUT), (_ || _); cbn; try done;
    apply ldb_store_bytes_out; unfold PGSIZE in *; lia.
Qed.

Lemma returned_replied s k r out rq x : x ∈ replied (returned s k r out rq) ↔
  x ∈ replied s ∨ (rq_no rq ≠ NSREQ_INPUT ∧ x = (k, rq_whom rq, if known (rq_no rq) then r else - E_INVAL)).
Proof.
  unfold returned. destruct (rq_no rq =? NSREQ_INPUT) eqn:Hi; [apply Z.eqb_eq in Hi|apply Z.eqb_neq in Hi];
    destruct (_ || _); cbn; rewrite ?elem_of_app, ?list_elem_of_singleton; tauto.
Qed.

Lemma return_ok k r out s s' : ns_ok s → Z.of_nat (length out) ≤ PGSIZE →
  serve_return k r out s = Ret tt s' → ns_ok s'.
Proof.
  intros Hok Hl Hrun. destruct (n_threads s !! k) as [t|] eqn:Ht.
  2: { unfold serve_return, thread_at, mbind, M_bind, get in Hrun. by rewrite Ht in Hrun. }
  destruct (no_threads _ Hok k t Ht) as (rq & Hr & Hs).
  destruct (t_called t) eqn:Hc.
  2: { unfold serve_return, thread_at, mbind, M_bind, get, mret, M_ret in Hrun. rewrite Ht, Hc in Hrun. done. }
  rewrite (serve_return_run s k r out t rq) in Hrun by done. injection Hrun as <-.
  destruct (returned_fields s k r out rq) as (Et & Em & Eb & Er & Ec & En).
  destruct (sv_buf _ _ _ _ Hs) as (i & Hi & Hva & Hbu).
  assert (∀ k' t', delete k (n_threads s) !! k' = Some t' → k ≠ k' ∧ n_threads s !! k' = Some t') as Hd
    by (intros k' t' [??]%lookup_delete_Some; done).
  pose proof Hok as [I1 I2 I3 I4 I5 I6 I7 I8 I9]. split; rewrite ?Et, ?Er, ?Ec, ?En; try done.
  - intros k' t' Hk'. destruct (Hd _ _ Hk') as [Hne Hk]. destruct (I1 k' t' Hk) as (rq' & Hr' & Hs').
    exists rq'. split; [done|].
    assert (rq_va rq ≠ rq_va rq') as Hvne.
    { pose proof (I2 k k' t t' Ht Hk Hne) as H. by rewrite (sv_args _ _ _ _ Hs), (sv_args _ _ _ _ Hs') in H. }
    destruct (sv_buf _ _ _ _ Hs') as (i' & Hi' & Hva' & Hbu').
    eapply serving_ext; [exact Hs'|..].
    + rewrite Em, lookup_delete_ne; [done|]. rewrite Hva, Hva'. intros H%va_of_inj. congruence.
    + intros j Hj Hvj. assert (i ≠ j) by (intros ->; congruence).
      by rewrite Eb, Hva, put_index, lookup_insert_ne by done.
    + intros _. apply returned_mem; [done|]. eapply (I3 k' k); [by rewrite Hk|by rewrite Ht|done|done|done].
    + intros c. by rewrite Ec.
    + intros w x [?|[_ [= ? ? ?]]]%returned_replied; [done|congruence].
  - intros k1 k2 t1 t2 H1 H2. apply Hd in H1 as [_ H1], H2 as [_ H2]. eauto.
  - intros k1 k2 r1 r2 H1 H2.
    assert (∀ k', delete k (n_threads s) !! k' ≠ None → n_threads s !! k' ≠ None) as Hd'
      by (intros k' H; destruct (delete k (n_threads s) !! k') eqn:E; [destruct (Hd _ _ E); congruence|done]).
    apply I3; auto.
  - intros k' w x [Hin|[Hno [= -> -> ->]]]%returned_replied; [by eapply I7|by exists rq].
  - unfold returned. destruct (rq_no rq =? NSREQ_INPUT), (_ || _); cbn; try done; rewrite fmap_app;
      apply list.NoDup_app; (split; [done|]; split; [|apply list.NoDup_singleton]);
      intros x Hx Hin; cbn in Hin; apply list_elem_of_singleton in Hin as ->;
      apply list_elem_of_fmap in Hx as ([[k' w'] x'] & Heq & Hin); cbn in Heq; subst k';
      by eapply (sv_reply _ _ _ _ Hs).
  - intros k' rq' Hr' Hk'. destruct (decide (k' = k)) as [->|Hne].
    + assert (rq' = rq) as -> by congruence. split; [by apply (sv_called _ _ _ _ Hs)|].
      intros Hno. eexists. apply returned_replied. right. split; [done|reflexivity].
    + rewrite lookup_delete_ne in Hk' by done. destruct (I9 k' rq' Hr' Hk') as [H1 H2]. split; [done|].
      intros Hno. destruct (H2 Hno) as [x Hx]. exists x. apply returned_replied. by left.
Qed.

Lemma client_ok s fr o b : ns_ok s → fresh_frame s fr → 0 ≤ o < PGSIZE →
  ns_ok (set_n_mem (stb (n_mem s) (fr * PGSIZE + o) b) s).
Proof.
  intros Hok Hfr Ho. eapply ns_ok_ext; [exact Hok|..]; try done. intros k t rq Hk Hr Hs.
  eapply serving_ext; [exact Hs|..]; try done. intros _ o' Ho'. apply ldb_stb_ne. cbn.
  assert (rq_frame rq ≠ fr) by (eapply Hfr; [by rewrite Hk|done]). unfold PGSIZE in *. lia.
Qed.

Lemma reach_ok m timer s : ns_reach m timer s → ns_ok s.
Proof.
  induction 1 as [|s s' _ IH Hstep].
  - split; cbn; try done; try apply NoDup_nil_2; intros *; try (intros H; by apply elem_of_nil in H).
  - destruct Hstep; [by eapply turn_ok|by eapply call_ok|by eapply return_ok|by apply client_ok].
Qed.

(** C15. Safety of the network server, whatever the order in which its threads run
    and lwIP answers, and whatever clients write elsewhere: the call made for a request has the
    arguments its client had put into the page when it was received, however late
    the thread runs; the only replies are to requests that were received, each
    to its sender; no request is called or answered twice, and an input packet is not
    answered; a request whose thread has ended was called and (unless it is an
    input packet) answered; and two requests in progress have different buffers. *)
Theorem ns_serves m timer s : ns_reach m timer s →
  (∀ k c, (k, c) ∈ called s → ∃ rq, received s !! k = Some rq ∧
    c = decode (rq_mem rq) (rq_frame rq) (rq_no rq) (rq_va rq)) ∧
  (∀ k w r, (k, w, r) ∈ replied s → ∃ rq, received s !! k = Some rq ∧ w = rq_whom rq ∧ rq_no rq ≠ NSREQ_INPUT) ∧
  NoDup (fst <$> called s) ∧ NoDup ((λ x, x.1.1) <$> replied s) ∧
  (∀ k rq, received s !! k = Some rq → n_threads s !! k = None →
    (∃ c, (k, c) ∈ called s) ∧ (rq_no rq ≠ NSREQ_INPUT → ∃ r, (k, rq_whom rq, r) ∈ replied s)) ∧
  (∀ k k' t t', n_threads s !! k = Some t → n_threads s !! k' = Some t' → k ≠ k' →
    req (t_args t) ≠ req (t_args t') ∧
    ∃ i, 0 ≤ i < QUEUE_SIZE ∧ req (t_args t) = va_of i ∧ buse s !! i = Some true).
Proof.
  intros Hok%reach_ok. destruct Hok as [I1 I2 I3 I4 I5 I6 I7 I8 I9]. split_and!; try done.
  intros k k' t t' Hk Hk' Hne. split; [by eapply I2|]. destruct (I1 k t Hk) as (rq & _ & Hs).
  rewrite (sv_args _ _ _ _ Hs). apply (sv_buf _ _ _ _ Hs).
Qed.

(** ** A packet sent and received is the same packet *)

Lemma store_bytes_app m a l1 l2 :
  store_bytes m a (l1 ++ l2) = store_bytes (store_bytes m a l1) (a + Z.of_nat (length l1)) l2.
Proof.
  revert m a. induction l1 as [|b l1 IH]; intros m a; [by rewrite Z.add_0_r|].
  cbn [app store_bytes]. rewrite IH. f_equal. cbn. lia.
Qed.

Lemma gather_run q m tx n :
  gather q m tx n =
    if n + Z.of_nat (length (concat q)) <=? 2000
    then Some (store_bytes m (tx + n) (concat q), n + Z.of_nat (length (concat q)))
    else if bool_decide (q = []) then Some (m, n) else None.
Proof.
  revert m n. induction q as [|p q IH]; intros m n; cbn [gather concat].
  { cbn. rewrite Z.add_0_r. by case_match. }
  rewrite length_app, Nat2Z.inj_add. rewrite bool_decide_false by done.
  destruct (2000 <? n + Z.of_nat (length p)) eqn:Hp.
  { apply Z.ltb_lt in Hp. destruct (_ <=? 2000) eqn:H; [apply Z.leb_le in H; lia|done]. }
  apply Z.ltb_ge in Hp. rewrite IH, store_bytes_app, !Z.add_assoc.
  destruct (_ <=? 2000) eqn:H; [done|].
  apply Z.leb_gt in H. rewrite bool_decide_false; [done|]. intros ->. cbn in H. lia.
Qed.

Definition chain_len (q : list (Z * Z)) : Z := foldr (λ x, Z.add x.2) 0 q.

(** What the buffers of a chain hold. *)
Definition chain_bytes (m : mem) (q : list (Z * Z)) : list Z :=
  concat ((λ x, load_bytes m x.1 (Z.to_nat x.2)) <$> q).

(** The buffers are outside of each other and of the bytes from [lo] to [hi]. *)
Fixpoint apart (lo hi : Z) (q : list (Z * Z)) : Prop :=
  match q with
  | [] => True
  | (a, n) :: q' => 0 ≤ n ∧ (a + n ≤ lo ∨ hi ≤ a) ∧
      Forall (λ x, a + n ≤ x.1 ∨ x.1 + x.2 ≤ a) q' ∧ apart lo hi q'
  end.

Lemma apart_len lo hi q : apart lo hi q → 0 ≤ chain_len q.
Proof. unfold chain_len. induction q as [|[a n] q IH]; cbn; [done|]. intros (? & ? & ? & ?%IH). lia. Qed.

Lemma scatter_out q m rx len c b :
  Forall (λ x, 0 ≤ x.2 ∧ (b < x.1 ∨ x.1 + x.2 ≤ b)) q → ldb (scatter q m rx len c) b = ldb m b.
Proof.
  revert m c. induction q as [|[a n] q IH]; intros m c Hq; [done|].
  apply Forall_cons_1 in Hq as [[Hn Hb] Hq]. cbn [scatter]. rewrite IH by done.
  apply ldb_store_bytes_out. rewrite length_load_bytes. cbn in *. case_match; lia.
Qed.

Lemma apart_pos lo hi q : apart lo hi q → Forall (λ x, 0 ≤ x.2) q.
Proof. induction q as [|[a n] q IH]; cbn; [done|]. intros (? & ? & ? & ?). by constructor; [|apply IH]. Qed.

Lemma load_store_copy m a b n : bytes_ok m →
  load_bytes (store_bytes m a (load_bytes m b n)) a n = load_bytes m b n.
Proof.
  intros Hok. rewrite <- (length_load_bytes m b n) at 2. apply load_store_bytes.
  apply Forall_lookup. intros i x Hx. pose proof (lookup_lt_Some _ _ _ Hx) as Hi.
  rewrite length_load_bytes in Hi. rewrite lookup_load_bytes in Hx by done. injection Hx as <-. apply Hok.
Qed.

Lemma scatter_run q m rx len c : bytes_ok m → 0 ≤ c → c + chain_len q = len → apart rx (rx + len) q →
  chain_bytes (scatter q m rx len c) q = load_bytes m (rx + c) (Z.to_nat (len - c)).
Proof.
  revert m c. induction q as [|[a n] q IH]; intros m c Hok Hc Hlen Hap.
  { cbn in *. by replace (Z.to_nat (len - c)) with 0%nat by lia. }
  change (c + (n + chain_len q) = len) in Hlen. cbn in Hap. destruct Hap as (Hn & Hout & Hdis & Hap). pose proof (apart_len _ _ _ Hap) as Hl.
  unfold chain_bytes. cbn [fmap list_fmap concat scatter fst snd].
  replace (if len - c <? n then len - c else n) with n by (case_match; lia).
  set (m1 := store_bytes m a _).
  assert (bytes_ok m1) as Hok1 by by apply bytes_ok_store_bytes.
  replace (Z.to_nat (len - c)) with (Z.to_nat n + Z.to_nat (len - (c + n)))%nat by lia.
  rewrite load_bytes_app. f_equal.
  - rewrite (load_bytes_ext _ m1); [by apply load_store_copy|]. intros b Hb. apply scatter_out.
    pose proof (apart_pos _ _ _ Hap) as Hp. apply Forall_forall. intros x Hx.
    rewrite Forall_forall in Hdis, Hp. pose proof (Hdis x Hx). pose proof (Hp x Hx). cbn beta in *. lia.
  - change (chain_bytes (scatter q m1 rx len (c + n)) q = load_bytes m (rx + c + Z.of_nat (Z.to_nat n)) (Z.to_nat (len - (c + n)))).
    rewrite IH by (done || lia). replace (rx + c + Z.of_nat (Z.to_nat n)) with (rx + (c + n)) by lia.
    apply load_bytes_ext. intros b Hb. apply ldb_store_bytes_out. rewrite length_load_bytes. lia.
Qed.

Lemma i16_id x : - 2 ^ 15 ≤ x < 2 ^ 15 → i16 x = x.
Proof.
  intros Hx. unfold i16. destruct (decide (0 ≤ x)).
  - rewrite Z.mod_small by lia. by rewrite (proj2 (Z.ltb_lt _ _)) by lia.
  - rewrite <- (Z.mod_unique_pos x (2 ^ 16) (-1) (x + 2 ^ 16)) by lia.
    rewrite (proj2 (Z.ltb_ge _ _)) by lia. lia.
Qed.

(** C38. Round trip of a packet: low_level_output refuses exactly the chains of
    more than 2000 bytes; else the page holds the length, and low_level_input of that page
    into any chain of buffers of that length in all, apart from it and
    from each other, leaves in them the bytes of the payloads in order. *)
Theorem jif_roundtrip m pkt q : bytes_ok m → Forall (Forall (λ b, 0 ≤ b < 256)) q →
  let len := Z.of_nat (length (concat q)) in
  (2000 < len → low_level_output q m pkt = None) ∧
  (len ≤ 2000 → ∃ m', low_level_output q m pkt = Some m' ∧ ld32 m' pkt = len ∧
    ∀ chain, apart (pkt + 4) (pkt + 4 + len) chain → chain_len chain = len →
      chain_bytes (low_level_input chain m' pkt) chain = concat q).
Proof.
  intros Hok Hq len. unfold low_level_output. rewrite gather_run, !Z.add_0_l, Z.add_0_r.
  fold len. split; intros Hlen.
  { rewrite (proj2 (Z.leb_gt _ _)) by done. rewrite bool_decide_false; [done|].
    intros ->. cbn in len. lia. }
  rewrite (proj2 (Z.leb_le _ _)) by done. cbn [mbind option_bind].
  eexists. split; [reflexivity|]. set (m1 := store_bytes m _ _).
  assert (ld32 (st32 m1 pkt len) pkt = len) as Hld by (rewrite ld32_st32_eq; apply u32_id; lia).
  split; [done|]. intros chain Hap Hcl. unfold low_level_input. rewrite Hld, i16_id by lia.
  rewrite scatter_run; [|by apply bytes_ok_stn, bytes_ok_store_bytes|lia..|done].
  rewrite Z.add_0_r, Z.sub_0_r. rewrite (load_bytes_ext _ m1).
  - unfold len. rewrite Nat2Z.id. apply load_store_bytes. by apply List.Forall_concat.
  - intros b Hb. apply ldb_stn_out. lia.
Qed.

(** ** A run: two clients, the second answered first *)
Module NetExample.

(** Frame 5 has the arguments of lwip_bind(3, ., 16), frame 6 those of lwip_close(4). *)
Definition ex_mem : mem :=
  st32 (st32 (st32 ∅ (5 * PGSIZE) 3) (5 * PGSIZE + 20) 16) (6 * PGSIZE) 4.

Definition ex_ns_run : list (N unit) :=
  [serve_turn NSREQ_BIND 4097 7 (Some 5) 0 0 true true; serve_turn NSREQ_CLOSE 4098 7 (Some 6) 0 0 true true;
   serve_call 1; serve_call 0; serve_return 1 0 []; serve_return 0 (-1) []].

Definition ex_state (n : N unit) : nst :=
  match n (ns0 ex_mem 9) with Ret _ s => s | _ => ns0 ∅ 0 end.

(** The state after the first [n] steps. *)
Definition ex_s (n : nat) : nst :=
  ex_state (foldl (λ a b, a;; b) (mret tt) (take n ex_ns_run)).

Example ex_ns_called : called (ex_s 6) = [(1, LClose 4); (0, LBind 3 (REQVA + 4) 16)].
Proof. by vm_compute. Qed.
Example ex_ns_replied : replied (ex_s 6) = [(1, 4098, 0); (0, 4097, -1)].
Proof. by vm_compute. Qed.

Lemma ex_fresh s fr : forallb (λ x, negb (rq_frame x.2 =? fr)) (map_to_list (received s)) = true → fresh_frame s fr.
Proof.
  intros H k rq _ Hr. rewrite forallb_forall in H. specialize (H (k, rq)). cbn in H.
  apply Z.eqb_neq, negb_true_iff, H, list_elem_of_In. by apply elem_of_map_to_list.
Qed.

Lemma ex_ns_reach : ns_reach ex_mem 9 (ex_s 6).
Proof.
  eapply (ns_next _ _ (ex_s 5)); [|by apply (ns_return 0 (-1) []); vm_compute].
  eapply (ns_next _ _ (ex_s 4)); [|by apply (ns_return 1 0 []); vm_compute].
  eapply (ns_next _ _ (ex_s 3)); [|by apply (ns_call 0); vm_compute].
  eapply (ns_next _ _ (ex_s 2)); [|by apply (ns_call 1); vm_compute].
  eapply (ns_next _ _ (ex_s 1)); [|].
  2: { apply (ns_turn NSREQ_CLOSE 4098 7 (Some 6) 0 0 true true); [done| |by vm_compute].
       intros fr [= <-]. apply ex_fresh. vm_compute. reflexivity. }
  eapply (ns_next _ _ (ex_s 0)); [change (ex_s 0) with (ns0 ex_mem 9); exact (ns_start ex_mem 9)|].
  apply (ns_turn NSREQ_BIND 4097 7 (Some 5) 0 0 true true); [done| |by vm_compute].
  intros fr [= <-]. apply ex_fresh. vm_compute. reflexivity.
Qed.

(** The theorem at that run. *)
Lemma ns_serves_witness : ∃ rq, received (ex_s 6) !! 0 = Some rq ∧
  LBind 3 (REQVA + 4) 16 = decode (rq_mem rq) (rq_frame rq) (rq_no rq) (rq_va rq).
Proof.
  refine (proj1 (ns_serves ex_mem 9 (ex_s 6) ex_ns_reach) 0 (LBind 3 (REQVA + 4) 16) _).
  replace (called (ex_s 6)) with [(1, LClose 4); (0, LBind 3 (REQVA + 4) 16)] by by vm_compute.
  right. left.
Defined.

(** Two payloads into two buffers that come in the other order in memory. *)
Lemma jif_roundtrip_witness : ∃ m', low_level_output [[1; 2; 3]; [4; 5]] ∅ PGSIZE = Some m' ∧
  chain_bytes (low_level_input [(9000, 4); (8300, 1)] m' PGSIZE) [(9000, 4); (8300, 1)] = [1; 2; 3; 4; 5].
Proof.
  destruct (jif_roundtrip ∅ PGSIZE [[1; 2; 3]; [4; 5]]) as [_ H].
  - intros a. unfold ldb. rewrite !getd_empty. done.
  - repeat constructor; lia.
  - destruct (H ltac:(cbn; lia)) as (m' & H1 & _ & H2). exists m'. split; [exact H1|].
    apply H2; [|done]. cbn. unfold PGSIZE. split_and!; try lia; repeat constructor; cbn; lia.
Defined.

(** Twenty messages without a page take all buffers; the next one panics. *)
Definition ex_ns_no_page : N unit := serve_turn NSREQ_BIND 4097 0 None 0 0 true true.
Example ex_ns_overflow :
  match for_range 0 20 (λ _, ex_ns_no_page;; mret (@None unit)) (ns0 ∅ 0) with
  | Ret None s => match ex_ns_no_page s with Panic _ => True | _ => False end
  | _ => False
  end.
Proof. vm_compute. exact I. Qed.
End NetExample.
