(* ===== verification/Sock.v ===== *)
(** * Sockets: the client of the network server (lib/sockets.c, lib/nsipc.c, lib/ipc.c)

    A socket is a descriptor whose struct Fd has the number the server knows it by.
    Each call writes a union Nsipc to the page [nsipcbuf] and exchanges messages
    with the server, which maps that page too and reads it with [NetServ.decode].
    The functions run in environment [e] over the mappings of [Fork.VM]; the
    exchange is an argument, [net]: [serve_once] makes one of the operations of
    [NetServ]. *)
From stdpp Require Import gmap.
From S2P Require Import Prelude Mem Printfmt KState Syscall FsServ Fork ForkSpec Fd FdSpec Spawn SpawnSpec NetServ.

Definition ENV_TYPE_NS : Z := 2.
Definition O_RDWR : Z := 2.
Definition devsock_id : Z := 115.
Definition SIZEOF_SOCKADDR : Z := 16.
Definition fd_sockid (fd : Z) : Z := fd + 12.

(** ** lib/ipc.c *)

(** The first environment of a type, of pairs of type and id; 0 if there is none. *)
Definition ipc_find_env (envs : list (Z * Z)) (type : Z) : Z :=
  match List.find (λ x, x.1 =? type) envs with Some x => x.2 | None => 0 end.

(** What the kernel has stored for the environment when its wait is over. *)
Record ipc_msg : Type := mkMsg { ipc_value : Z; ipc_from : Z; ipc_perm : Z }.

(** [res]: the result of the system call at the address that is used; [from] and
    [perm]: the pointers are not null.  The result is the value returned and what
    was stored; None: a store through a null pointer. *)
Definition ipc_recv (res : Z → Z) (msg : ipc_msg) (pg : option Z) (from perm : bool) : option (Z * option Z * option Z) :=
  let result := res (default UTOP pg) in
  if result <? 0 then
    if from && perm then Some (result, Some 0, Some 0) else None
  else
    Some (ipc_value msg, if from then Some (ipc_from msg) else None, if perm then Some (ipc_perm msg) else None).

(** [res n]: the result of the [n]-th sys_ipc_try_send.  The number of the attempt
    that ends the loop. *)
Fixpoint ipc_send (fuel : nat) (res : nat → Z) (n : nat) : option nat :=
  match fuel with
  | O => None
  | S fuel' => if res n =? - E_IPC_NOT_RECV then ipc_send fuel' res (S n) else Some n
  end.

Section sock.
Context (e nsipcbuf : Z) (devtab : list Dev).

(** ** Ranges of bytes of the environment *)

Definition get8 (va : Z) : U Z := a ← frame_of e va false; gets (λ s, ldb (pmem s) a).
Fixpoint get_bytes (n : nat) (va : Z) : U (list Z) :=
  match n with O => mret [] | S n => b ← get8 va; l ← get_bytes n (va + 1); mret (b :: l) end.
Fixpoint put_bytes (va : Z) (l : list Z) : U unit :=
  match l with [] => mret tt | b :: l => put8 e va b;; put_bytes (va + 1) l end.
Definition memmove (dst src n : Z) : U unit :=
  l ← get_bytes (Z.to_nat (u64 n)) src; put_bytes dst l.

(** ** lib/nsipc.c *)

(** The exchange with environment [to]: ipc_send of the page and ipc_recv of the
    answer. *)
Context (envs : list (Z * Z)) (net : Z → Z → U Z).

Definition nsipc (type : Z) : U Z := net (ipc_find_env envs ENV_TYPE_NS) type.

Definition nsipc_accept (s addr addrlen : Z) : U Z :=
  put32 e nsipcbuf s;;
  r ← nsipc NSREQ_ACCEPT;
  if 0 <=? r then
    len ← getn e 4 (nsipcbuf + 16);
    memmove addr nsipcbuf len;;
    len ← getn e 4 (nsipcbuf + 16);
    put32 e addrlen len;;
    mret r
  else mret r.

Definition nsipc_bind (s name namelen : Z) : U Z :=
  put32 e nsipcbuf s;;
  memmove (nsipcbuf + 4) name namelen;;
  put32 e (nsipcbuf + 20) namelen;;
  nsipc NSREQ_BIND.

Definition nsipc_shutdown (s how : Z) : U Z :=
  put32 e nsipcbuf s;; put32 e (nsipcbuf + 4) how;; nsipc NSREQ_SHUTDOWN.

Definition nsipc_close (s : Z) : U Z := put32 e nsipcbuf s;; nsipc NSREQ_CLOSE.

Definition nsipc_connect (s name namelen : Z) : U Z :=
  put32 e nsipcbuf s;;
  memmove (nsipcbuf + 4) name namelen;;
  put32 e (nsipcbuf + 20) namelen;;
  nsipc NSREQ_CONNECT.

Definition nsipc_listen (s backlog : Z) : U Z :=
  put32 e nsipcbuf s;; put32 e (nsipcbuf + 4) backlog;; nsipc NSREQ_LISTEN.

Definition nsipc_recv (s mem len flags : Z) : U Z :=
  put32 e nsipcbuf s;;
  put32 e (nsipcbuf + 4) len;;
  put32 e (nsipcbuf + 8) flags;;
  r ← nsipc NSREQ_RECV;
  if 0 <=? r then
    assert_ ((r <? 1600) && (r <=? len));;
    memmove mem nsipcbuf r;;
    mret r
  else mret r.

Definition nsipc_send (s buf size flags : Z) : U Z :=
  put32 e nsipcbuf s;;
  assert_ (size <? 1600);;
  memmove (nsipcbuf + 12) buf size;;
  put32 e (nsipcbuf + 4) size;;
  put32 e (nsipcbuf + 8) flags;;
  nsipc NSREQ_SEND.

Definition nsipc_socket (domain type protocol : Z) : U Z :=
  put32 e nsipcbuf domain;; put32 e (nsipcbuf + 4) type;; put32 e (nsipcbuf + 8) protocol;;
  nsipc NSREQ_SOCKET.

(** ** lib/sockets.c *)

(** The mappings of the page's frame (lib/pageref.c). *)
Definition pageref (va : Z) : U Z :=
  gets (λ s, match pte s !! (e, vpn va) with
    | Some (fr, _) => Z.of_nat (size (filter (λ kx, kx.2.1 = fr) (pte s)))
    | None => 0 end).

Definition devsock_read (fd buf n : Z) : U Z :=
  s ← get32 e (fd_sockid fd); nsipc_recv s buf (i32 n) 0.
Definition devsock_write (fd buf n : Z) : U Z :=
  s ← get32 e (fd_sockid fd); nsipc_send s buf (i32 n) 0.
Definition devsock_close (fd : Z) : U Z :=
  n ← pageref fd;
  if n =? 1 then s ← get32 e (fd_sockid fd); nsipc_close s else mret 0.
(** "<sock>" *)
Definition devsock_stat (fd st : Z) : U Z := put_str e st [60; 115; 111; 99; 107; 62];; mret 0.

Definition devsock : Dev :=
  mkDev devsock_id (Some devsock_read) (Some devsock_write) (Some devsock_close) (Some devsock_stat) None.

Definition fd2sockid (fd : Z) : U Z :=
  l ← fd_lookup e fd;
  if l.1 <? 0 then mret l.1
  else
    id ← get32 e (fd_dev_id l.2);
    if negb (id =? devsock_id) then mret (- E_NOT_SUPP) else get32 e (fd_sockid l.2).

Definition SOCK_PERM : Z := Z.lor (Z.lor (Z.lor PTE_P PTE_W) PTE_U) PTE_SHARE.

Definition alloc_sockfd (sockid : Z) : U Z :=
  let fail r := _ ← nsipc_close sockid; mret r in
  '(r, sfd) ← fd_alloc e;
  if r <? 0 then fail r
  else
    r ← u_page_alloc e sfd SOCK_PERM;
    if r <? 0 then fail r
    else
      put32 e (fd_dev_id sfd) devsock_id;;
      put32 e (fd_omode sfd) O_RDWR;;
      put32 e (fd_sockid sfd) sockid;;
      mret (fd2num sfd).

Definition accept (s addr addrlen : Z) : U Z :=
  r ← fd2sockid s;
  if r <? 0 then mret r
  else r ← nsipc_accept r addr addrlen; if r <? 0 then mret r else alloc_sockfd r.
Definition bind (s name namelen : Z) : U Z :=
  r ← fd2sockid s; if r <? 0 then mret r else nsipc_bind r name namelen.
Definition shutdown (s how : Z) : U Z :=
  r ← fd2sockid s; if r <? 0 then mret r else nsipc_shutdown r how.
Definition connect (s name namelen : Z) : U Z :=
  r ← fd2sockid s; if r <? 0 then mret r else nsipc_connect r name namelen.
Definition listen (s backlog : Z) : U Z :=
  r ← fd2sockid s; if r <? 0 then mret r else nsipc_listen r backlog.
Definition socket (domain type protocol : Z) : U Z :=
  r ← nsipc_socket domain type protocol;
  if r <? 0 then mret r else alloc_sockfd r.

End sock.

(** ** The exchange with the server of [NetServ] *)

Section serve.
Context (e nsipcbuf ns_env : Z).
(** lwIP: a call, with its result and the bytes that it hands out. *)
Context (lwip : lwip_call → U (Z * list Z)).

(** [n]: the server; it has the physical memory of the client. *)
Definition nrun {A} (m : N A) (n : nst) (k : A → nst → U Z) : U Z :=
  match m n with Ret a n' => k a n' | _ => panic end.

(** One request, from an idle server: the message with the page, the thread up to
    its call, the call, the rest of the thread, the answer. *)
Definition serve_once (to type : Z) : U Z :=
  assert_ (to =? ns_env);;
  a ← frame_of e nsipcbuf true;
  s ← get;
  nrun (serve_turn type e UPW (Some (a / PGSIZE)) 0 0 true true;; serve_call 0) (ns0 (pmem s) 0) (λ _ n,
    match called n with
    | [(_, c)] =>
        x ← lwip c;
        s ← get;
        nrun (serve_return 0 x.1 x.2) (set_n_mem (pmem s) n) (λ _ n,
          modify (set_pmem (n_mem n));;
          match replied n with [(_, _, r)] => mret r | _ => panic end)
    | _ => panic
    end).

Definition writes_page (type : Z) : bool := (type =? NSREQ_ACCEPT) || (type =? NSREQ_RECV).

Ltac each_request Ht :=
  match type of Ht with 1 ≤ ?t ≤ 9 =>
    assert (t = 1 ∨ t = 2 ∨ t = 3 ∨ t = 4 ∨ t = 5 ∨ t = 6 ∨ t = 7 ∨ t = 8 ∨ t = 9) as Hc by lia;
    clear Ht; destruct_or! Hc; subst t
  end.

(** The server with the call of its one thread made. *)
Definition in_call (m : mem) (fr type : Z) : nst :=
  mkN m {[va_of 0 / PGSIZE := fr]} {[0 := true]} {[0 := mkTh (mkArgs type e (va_of 0)) true]} 1 0
    {[0 := mkReq type e (va_of 0) fr m]} [(0, decode m fr type (va_of 0))] [] [].

Lemma turn_call m fr type : 1 ≤ type ≤ 9 →
  (serve_turn type e UPW (Some fr) 0 0 true true;; serve_call 0) (ns0 m 0) = Ret tt (in_call m fr type).
Proof. intros Ht. each_request Ht; reflexivity. Qed.

Lemma return_call m m' fr type r out : 1 ≤ type ≤ 9 →
  ∃ n, serve_return 0 r out (set_n_mem m' (in_call m fr type)) = Ret tt n ∧ replied n = [(0, e, r)] ∧
    n_mem n = if writes_page type then store_bytes m' (fr * PGSIZE) out else m'.
Proof.
  intros Ht. exists (returned (set_n_mem m' (in_call m fr type)) 0 r out (mkReq type e (va_of 0) fr m)).
  each_request Ht; (split; [reflexivity|done]).
Qed.

Lemma serve_once_ok type s fr x E (Q : Z → VM → Prop) :
  nsipcbuf mod PGSIZE = 0 → pte s !! (e, vpn nsipcbuf) = Some (fr, x) → has x PTE_W →
  1 ≤ type ≤ 9 →
  wpx (lwip (decode (pmem s) fr type (va_of 0))) s (λ y s',
    Q y.1 (if writes_page type then set_pmem (store_bytes (pmem s') (fr * PGSIZE) y.2) s' else s')) E →
  wpx (serve_once ns_env type) s Q E.
Proof.
  intros Hb Hm Hw Ht HQ. unfold serve_once. rewrite Z.eqb_refl. wp_step. apply wpx_ret. wp_step.
  eapply frame_of_ok; [done|done|]. rewrite Hb, Z.add_0_r, Z.div_mul by done. wp_step. wp_step.
  unfold nrun at 1. rewrite turn_call by done. cbn [called in_call].
  wp_step. eapply wpx_conseq; [exact HQ|]. intros [r out] s' H'. wp_step. wp_step. unfold nrun. cbn [fst snd] in *.
  destruct (return_call (pmem s) (pmem s') fr type r out Ht) as (n & -> & Hr & Hn). wp_step. wp_step.
  rewrite Hr. wp_step. rewrite Hn. destruct (writes_page type); [done|by destruct s'].
Qed.
End serve.
