(* ===== verification/SockSpec.v ===== *)
(** * What the socket calls send and deliver (lib/nsipc.c, lib/sockets.c)

    The request page of each call, against the server's [NetServ.decode]; reading
    and writing through a descriptor, and the making of descriptors, with the
    server of [NetServ] at the other end. *)
From stdpp Require Import gmap.
From S2P Require Import Prelude Mem Printfmt KState Syscall FsServ Fork ForkSpec Fd FdSpec Spawn SpawnSpec NetServ Sock.

Lemma bind_ret_run {A B} (m : U A) (k : A → U B) s a s' : m s = Ret a s' → (m ≫= k) s = k a s'.
Proof. intros H. unfold mbind, M_bind. by rewrite H. Qed.

Section user.
Context (e : Z).

(** ** Ranges of user memory *)

Definition addr (s : VM) (va : Z) : Z :=
  match pte s !! (e, vpn va) with Some (fr, _) => fr * PGSIZE + va mod PGSIZE | None => 0 end.
Definition readable (s : VM) (va n : Z) : Prop := ∀ i, 0 ≤ i < n → is_Some (pte s !! (e, vpn (va + i))).
Definition writable (s : VM) (va n : Z) : Prop := ∀ i, 0 ≤ i < n →
  ∃ fr x, pte s !! (e, vpn (va + i)) = Some (fr, x) ∧ has x PTE_W.
(** The range does not touch frame [fr]. *)
Definition off_frame (s : VM) (va n fr : Z) : Prop := ∀ i, 0 ≤ i < n → addr s (va + i) / PGSIZE ≠ fr.
(** No byte of the range is mapped twice in it. *)
Definition unaliased (s : VM) (va n : Z) : Prop := ∀ i j, 0 ≤ i < n → 0 ≤ j < n → addr s (va + i) = addr s (va + j) → i = j.

Fixpoint user_bytes (s : VM) (va : Z) (n : nat) : list Z :=
  match n with O => [] | S n => ldb (pmem s) (addr s va) :: user_bytes s (va + 1) n end.

Lemma length_user_bytes s va n : length (user_bytes s va n) = n.
Proof. revert va. induction n; intros; cbn; auto. Qed.

Lemma lookup_user_bytes s va n (i : nat) : (i < n)%nat →
  user_bytes s va n !! i = Some (ldb (pmem s) (addr s (va + Z.of_nat i))).
Proof.
  revert va i. induction n as [|n IH]; intros va i Hi; [lia|]. destruct i as [|i]; cbn.
  - by rewrite Z.add_0_r.
  - rewrite IH by lia. do 3 f_equal. lia.
Qed.

Lemma user_bytes_ok s va n : wf s → bytes_of (user_bytes s va n).
Proof. intros Hwf. revert va. induction n as [|n IH]; intros va; constructor; [apply (wf_bytes _ Hwf)|apply IH]. Qed.

Lemma user_bytes_ext s s' va n : pte s' = pte s →
  (∀ i, 0 ≤ i < Z.of_nat n → ldb (pmem s') (addr s (va + i)) = ldb (pmem s) (addr s (va + i))) →
  user_bytes s' va n = user_bytes s va n.
Proof.
  intros Hp Hm. revert va Hm. induction n as [|n IH]; intros va Hm; [done|]. cbn [user_bytes]. f_equal.
  - unfold addr at 1. rewrite Hp. specialize (Hm 0). rewrite Z.add_0_r in Hm. apply Hm. lia.
  - apply IH. intros i Hi. rewrite <- Z.add_assoc. apply Hm. lia.
Qed.

Lemma frame_of_run va (w : bool) s fr x : pte s !! (e, vpn va) = Some (fr, x) → (w → has x PTE_W) →
  frame_of e va w s = Ret (addr s va) s.
Proof.
  intros Hm Hw. unfold frame_of, mbind, M_bind, get, addr. rewrite Hm.
  destruct w; cbn [andb]; [by rewrite (Is_true_true_1 _ (Hw I))|done].
Qed.

Lemma get_bytes_run n va s : readable s va (Z.of_nat n) → get_bytes e n va s = Ret (user_bytes s va n) s.
Proof.
  revert va. induction n as [|n IH]; intros va Hr; [done|]. cbn [get_bytes user_bytes].
  destruct (Hr 0 ltac:(lia)) as [[fr x] Hm]. rewrite Z.add_0_r in Hm.
  assert (get8 e va s = Ret (ldb (pmem s) (addr s va)) s) as H8.
  { unfold get8. rewrite (bind_ret_run _ _ _ _ _ (frame_of_run va false s fr x Hm ltac:(done))). done. }
  rewrite (bind_ret_run _ _ _ _ _ H8). rewrite (bind_ret_run _ _ _ (user_bytes s (va + 1) n) s); [done|].
  apply IH. intros i Hi. rewrite <- Z.add_assoc. apply Hr. lia.
Qed.

(** The stores of put_bytes. *)
Fixpoint put_mem (s : VM) (m : mem) (va : Z) (l : list Z) : mem :=
  match l with [] => m | b :: l => put_mem s (stb m (addr s va) b) (va + 1) l end.

Lemma put_bytes_from s0 va l s : pte s = pte s0 → writable s va (Z.of_nat (length l)) →
  put_bytes e va l s = Ret tt (set_pmem (put_mem s0 (pmem s) va l) s).
Proof.
  revert va s. induction l as [|b l IH]; intros va s Hp Hw; [by destruct s|]. cbn [put_bytes put_mem length] in *.
  destruct (Hw 0 ltac:(lia)) as (fr & x & Hm & Hx). rewrite Z.add_0_r in Hm.
  assert (put8 e va b s = Ret tt (set_pmem (stb (pmem s) (addr s va) b) s)) as H8.
  { unfold put8. by rewrite (bind_ret_run _ _ _ _ _ (frame_of_run va true s fr x Hm ltac:(done))). }
  rewrite (bind_ret_run _ _ _ _ _ H8). replace (addr s0 va) with (addr s va) by (unfold addr; by rewrite Hp).
  rewrite IH; [done|done|]. intros i Hi. rewrite <- Z.add_assoc. apply Hw. lia.
Qed.
Lemma put_bytes_run va l s : writable s va (Z.of_nat (length l)) →
  put_bytes e va l s = Ret tt (set_pmem (put_mem s (pmem s) va l) s).
Proof. by apply put_bytes_from. Qed.

Lemma put_mem_out s m va l a : (∀ i, 0 ≤ i < Z.of_nat (length l) → addr s (va + i) ≠ a) →
  ldb (put_mem s m va l) a = ldb m a.
Proof.
  revert m va. induction l as [|b l IH]; intros m va Ha; [done|]. cbn [put_mem length] in *. rewrite IH.
  - apply ldb_stb_ne. specialize (Ha 0). rewrite Z.add_0_r in Ha. apply Ha. lia.
  - intros i Hi. rewrite <- Z.add_assoc. apply Ha. lia.
Qed.

Lemma put_mem_in s m va l (i : nat) b : bytes_of l → unaliased s va (Z.of_nat (length l)) →
  l !! i = Some b → ldb (put_mem s m va l) (addr s (va + Z.of_nat i)) = b.
Proof.
  revert m va i. induction l as [|b' l IH]; intros m va i Hb Hu Hi; [done|]. cbn [put_mem length] in *.
  inversion_clear Hb as [|?? Hb0 Hl]. assert (unaliased s (va + 1) (Z.of_nat (length l))) as Hu'.
  { intros j k Hj Hk He. rewrite <- !Z.add_assoc in He. apply Hu in He; lia. }
  destruct i as [|i]; cbn in Hi.
  - injection Hi as ->. rewrite put_mem_out, Z.add_0_r, ldb_stb_eq by
      (intros j Hj He; rewrite <- Z.add_assoc in He; apply Hu in He; lia). by apply u8_id.
  - replace (va + Z.of_nat (S i)) with (va + 1 + Z.of_nat i) by lia. by apply IH.
Qed.

Lemma put_mem_bytes s m va l : bytes_ok m → bytes_ok (put_mem s m va l).
Proof. revert m va. induction l as [|b l IH]; intros m va Hm; [done|]. apply IH, bytes_ok_stb, Hm. Qed.

(** What was put is what is read. *)
Lemma user_bytes_put s va l : bytes_of l → unaliased s va (Z.of_nat (length l)) →
  user_bytes (set_pmem (put_mem s (pmem s) va l) s) va (length l) = l.
Proof.
  intros Hb Hu. apply list_eq. intros i. destruct (decide (i < length l)%nat) as [Hi|Hi].
  - rewrite lookup_user_bytes by done. destruct (lookup_lt_is_Some_2 l i Hi) as [b Hl]. rewrite Hl. f_equal.
    change (addr _ ?x) with (addr s x). by apply put_mem_in.
  - rewrite !lookup_ge_None_2; [done|lia|rewrite length_user_bytes; lia].
Qed.

Lemma memmove_run dst src n s : 0 ≤ n < 2 ^ 64 → readable s src n → writable s dst n →
  memmove e dst src n s = Ret tt (set_pmem (put_mem s (pmem s) dst (user_bytes s src (Z.to_nat n))) s).
Proof.
  intros Hn Hr Hw. unfold memmove. pow2. rewrite u64_id by lia.
  rewrite (bind_ret_run _ _ _ (user_bytes s src (Z.to_nat n)) s) by (apply get_bytes_run; by rewrite Z2Nat.id by lia).
  apply put_bytes_run. by rewrite length_user_bytes, Z2Nat.id by lia.
Qed.
End user.

(** ** The request page *)

(** The calls of nsipc.c, with the parameters of the functions. *)
Inductive sock_call : Type :=
  | CAccept (s addr addrlen : Z) | CBind (s name namelen : Z) | CShutdown (s how : Z) | CClose (s : Z)
  | CConnect (s name namelen : Z) | CListen (s backlog : Z) | CRecv (s buf len flags : Z)
  | CSend (s buf size flags : Z) | CSocket (domain type protocol : Z).

Definition code (c : sock_call) : Z :=
  match c with
  | CAccept _ _ _ => NSREQ_ACCEPT | CBind _ _ _ => NSREQ_BIND | CShutdown _ _ => NSREQ_SHUTDOWN
  | CClose _ => NSREQ_CLOSE | CConnect _ _ _ => NSREQ_CONNECT | CListen _ _ => NSREQ_LISTEN
  | CRecv _ _ _ _ => NSREQ_RECV | CSend _ _ _ _ => NSREQ_SEND | CSocket _ _ _ => NSREQ_SOCKET
  end.

(** The call into lwIP that the server is to make, for a request page at [va]. *)
Definition wanted (c : sock_call) (va : Z) : lwip_call :=
  match c with
  | CAccept s _ _ => LAccept s | CBind s _ n => LBind s (va + 4) n | CShutdown s how => LShutdown s how
  | CClose s => LClose s | CConnect s _ n => LConnect s (va + 4) n | CListen s b => LListen s b
  | CRecv s _ len fl => LRecv s va len fl | CSend s _ n fl => LSend s (va + 12) n fl
  | CSocket d t p => LSocket d t p
  end.

(** The bytes that go with it: their offset in the page, their address, their number. *)
Definition payload (c : sock_call) : Z * Z * Z :=
  match c with
  | CBind _ name n | CConnect _ name n => (4, name, n)
  | CSend _ buf n _ => (12, buf, n)
  | _ => (0, 0, 0)
  end.

Definition is_int (x : Z) : Prop := - 2 ^ 31 ≤ x < 2 ^ 31.
Definition is_uns (x : Z) : Prop := 0 ≤ x < 2 ^ 32.

(** The parameters have their types; a name is at most a struct sockaddr, and no
    more is sent than the assertion allows. *)
Definition params_ok (c : sock_call) : Prop :=
  match c with
  | CAccept s _ _ | CClose s => is_int s
  | CBind s _ n | CConnect s _ n => is_int s ∧ 0 ≤ n ≤ SIZEOF_SOCKADDR
  | CShutdown s b | CListen s b => is_int s ∧ is_int b
  | CRecv s _ n fl => is_int s ∧ is_int n ∧ is_uns fl
  | CSend s _ n fl => is_int s ∧ 0 ≤ n < 1600 ∧ is_uns fl
  | CSocket d t p => is_int d ∧ is_int t ∧ is_int p
  end.

Section request.
Context (e nsipcbuf : Z) (Hbase : nsipcbuf mod PGSIZE = 0) (envs : list (Z * Z)) (net : Z → Z → U Z).

Definition call (c : sock_call) : U Z :=
  match c with
  | CAccept s a l => nsipc_accept e nsipcbuf envs net s a l
  | CBind s name n => nsipc_bind e nsipcbuf envs net s name n
  | CShutdown s how => nsipc_shutdown e nsipcbuf envs net s how
  | CClose s => nsipc_close e nsipcbuf envs net s
  | CConnect s name n => nsipc_connect e nsipcbuf envs net s name n
  | CListen s b => nsipc_listen e nsipcbuf envs net s b
  | CRecv s mem n fl => nsipc_recv e nsipcbuf envs net s mem n fl
  | CSend s buf n fl => nsipc_send e nsipcbuf envs net s buf n fl
  | CSocket d t p => nsipc_socket e nsipcbuf envs net d t p
  end.

(** What is done with the answer. *)
Definition answered (c : sock_call) (r : Z) : U Z :=
  match c with
  | CAccept _ addr addrlen =>
      if 0 <=? r then
        len ← getn e 4 (nsipcbuf + 16); memmove e addr nsipcbuf len;;
        len ← getn e 4 (nsipcbuf + 16); put32 e addrlen len;; mret r
      else mret r
  | CRecv _ mem len _ =>
      if 0 <=? r then assert_ ((r <? 1600) && (r <=? len));; memmove e mem nsipcbuf r;; mret r else mret r
  | _ => mret r
  end.

Record has_page (s : VM) (fr : Z) : Prop := {
  hp_map : ∃ x, pte s !! (e, vpn nsipcbuf) = Some (fr, x) ∧ has x PTE_W;
  hp_wf : wf s }.

(** [s1] is [s] with bytes of frame [fr] written. *)
Record sent (fr : Z) (s s1 : VM) : Prop := {
  sn_only : only_mem s s1;
  sn_wf : wf s1;
  sn_out a : a / PGSIZE ≠ fr → ldb (pmem s1) a = ldb (pmem s) a }.

Lemma nsip_addr s fr o : has_page s fr → 0 ≤ o < PGSIZE →
  addr e s (nsipcbuf + o) = fr * PGSIZE + o ∧ vpn (nsipcbuf + o) = vpn nsipcbuf.
Proof.
  intros [(x & Hm & _) _] Ho. destruct (page_off nsipcbuf Hbase o Ho) as [Hv Hmod]. split; [|done].
  unfold addr. by rewrite Hv, Hm, Hmod.
Qed.

Lemma has_page_only s s' fr : has_page s fr → only_mem s s' → bytes_ok (pmem s') → has_page s' fr.
Proof. intros [(x & Hm & Hx) Hwf] Ho Hb. split; [exists x; by rewrite (om_pte _ _ Ho)|by eapply wf_only_mem]. Qed.

Lemma put32_run s fr o v : has_page s fr → 0 ≤ o → o + 4 ≤ PGSIZE →
  put32 e (nsipcbuf + o) v s = Ret tt (set_pmem (st32 (pmem s) (fr * PGSIZE + o) v) s) ∧
  has_page (set_pmem (st32 (pmem s) (fr * PGSIZE + o) v) s) fr.
Proof.
  intros Hp Ho Hl. destruct (nsip_addr s fr o Hp) as [Ha Hv]; [lia|]. split.
  - destruct (hp_map _ _ Hp) as (x & Hm & Hx). rewrite <- Hv in Hm. unfold put32.
    rewrite (bind_ret_run _ _ _ _ _ (frame_of_run e _ true s fr x Hm ltac:(done))). by rewrite Ha.
  - eapply has_page_only; [done|by split|]. exact (bytes_ok_stn 4 _ _ _ (wf_bytes _ (hp_wf _ _ Hp))).
Qed.

Lemma put_mem_page s fr o l m : has_page s fr → 0 ≤ o → o + Z.of_nat (length l) ≤ PGSIZE →
  put_mem e s m (nsipcbuf + o) l = store_bytes m (fr * PGSIZE + o) l.
Proof.
  intros Hp. revert o m. induction l as [|b l IH]; intros o m Ho Hl; [done|]. cbn [put_mem store_bytes length] in *.
  rewrite (proj1 (nsip_addr s fr o Hp ltac:(lia))), <- Z.add_assoc. rewrite IH by lia. by rewrite Z.add_assoc.
Qed.

Lemma memmove_to_page s fr o src n : has_page s fr → 0 ≤ o → 0 ≤ n → o + n ≤ PGSIZE → readable e s src n →
  memmove e (nsipcbuf + o) src n s =
    Ret tt (set_pmem (store_bytes (pmem s) (fr * PGSIZE + o) (user_bytes e s src (Z.to_nat n))) s) ∧
  has_page (set_pmem (store_bytes (pmem s) (fr * PGSIZE + o) (user_bytes e s src (Z.to_nat n))) s) fr.
Proof.
  intros Hp Ho Hn Hl Hr. split.
  - rewrite memmove_run; [|unfold PGSIZE in *; pow2; lia|done|].
    + rewrite (put_mem_page s fr) by (rewrite ?length_user_bytes; done || lia). done.
    + intros i Hi. rewrite <- Z.add_assoc. destruct (nsip_addr s fr (o + i) Hp) as [_ ->]; [lia|].
      destruct (hp_map _ _ Hp) as (x & ? & ?). eauto.
  - eapply has_page_only; [done|by split|]. apply bytes_ok_store_bytes, (wf_bytes _ (hp_wf _ _ Hp)).
Qed.

(** The page at [b] after the stores of a call; [l]: the payload. *)
Definition req_mem (c : sock_call) (b : Z) (l : list Z) (m : mem) : mem :=
  match c with
  | CAccept s _ _ | CClose s => st32 m (b + 0) s
  | CBind s _ n | CConnect s _ n => st32 (store_bytes (st32 m (b + 0) s) (b + 4) l) (b + 20) n
  | CShutdown s x | CListen s x => st32 (st32 m (b + 0) s) (b + 4) x
  | CRecv s _ n fl => st32 (st32 (st32 m (b + 0) s) (b + 4) n) (b + 8) fl
  | CSend s _ n fl => st32 (st32 (store_bytes (st32 m (b + 0) s) (b + 12) l) (b + 4) n) (b + 8) fl
  | CSocket d t p => st32 (st32 (st32 m (b + 0) d) (b + 4) t) (b + 8) p
  end.

Definition data_of (c : sock_call) (s : VM) : list Z :=
  user_bytes e s (payload c).1.2 (Z.to_nat (payload c).2).

Lemma bind_answered (m : U Z) c s : (∀ r, answered c r = mret r) → (m ≫= answered c) s = m s.
Proof. intros H. unfold mbind, M_bind. destruct (m s); [by rewrite H|done..]. Qed.

(** The payload does not change when the socket number is stored. *)
Lemma data_unmoved s fr v src n : has_page s fr → readable e s src n → off_frame e s src n fr → 0 ≤ n →
  user_bytes e (set_pmem (st32 (pmem s) (fr * PGSIZE + 0) v) s) src (Z.to_nat n) = user_bytes e s src (Z.to_nat n).
Proof.
  intros Hp Hr Hoff Hn. apply user_bytes_ext; [done|]. intros i Hi. apply ldb_stn_out.
  specialize (Hoff i ltac:(lia)). unfold PGSIZE in *. zlia.
Qed.

Ltac page_steps :=
  repeat match goal with
  | Hp : has_page ?s _ |- context [(put32 _ _ ?v ≫= _) ?s] =>
      let H := fresh "Hrun" in let H' := fresh "Hp" in
      match goal with
      | |- context [(put32 _ (nsipcbuf + ?o) v ≫= _) s] => pose proof (put32_run s _ o v Hp) as H
      | |- context [(put32 _ nsipcbuf v ≫= _) s] => pose proof (put32_run s _ 0 v Hp) as H; rewrite (Z.add_0_r nsipcbuf) in H
      end;
      destruct H as [H H']; [lia|unfold PGSIZE; lia|];
      rewrite (bind_ret_run _ _ _ _ _ H); clear H Hp
  end.

Lemma call_run c s fr : has_page s fr → params_ok c →
  readable e s (payload c).1.2 (payload c).2 → off_frame e s (payload c).1.2 (payload c).2 fr →
  call c s = (net (ipc_find_env envs ENV_TYPE_NS) (code c) ≫= answered c)
    (set_pmem (req_mem c (fr * PGSIZE) (data_of c s) (pmem s)) s).
Proof.
  intros Hp Hpar Hrd Hoff.
  assert (∀ v n src o, 0 ≤ n → 0 ≤ o → o + n ≤ PGSIZE → (payload c).1.2 = src → (payload c).2 = n →
    memmove e (nsipcbuf + o) src n (set_pmem (st32 (pmem s) (fr * PGSIZE + 0) v) s) =
      Ret tt (set_pmem (store_bytes (st32 (pmem s) (fr * PGSIZE + 0) v) (fr * PGSIZE + o) (data_of c s)) s) ∧
    has_page (set_pmem (store_bytes (st32 (pmem s) (fr * PGSIZE + 0) v) (fr * PGSIZE + o) (data_of c s)) s) fr) as Hmv.
  { intros v n src o Hn Ho Hl <- <-. unfold data_of. rewrite <- (data_unmoved s fr v) by done.
    eapply (memmove_to_page (set_pmem _ s)); try done. by apply (put32_run s fr 0 v Hp). }
  destruct c; cbn [call code payload fst snd params_ok] in *;
    unfold nsipc_accept, nsipc_bind, nsipc_shutdown, nsipc_close, nsipc_connect, nsipc_listen, nsipc_recv,
      nsipc_send, nsipc_socket, nsipc; page_steps; rewrite ?bind_answered by done; try done.
  - destruct (Hmv s0 namelen name 4) as [H1 H2]; [unfold SIZEOF_SOCKADDR, PGSIZE in *; lia..|done|done|].
    rewrite (bind_ret_run _ _ _ _ _ H1). by page_steps.
  - destruct (Hmv s0 namelen name 4) as [H1 H2]; [unfold SIZEOF_SOCKADDR, PGSIZE in *; lia..|done|done|].
    rewrite (bind_ret_run _ _ _ _ _ H1). by page_steps.
  - rewrite (proj2 (Z.ltb_lt size 1600)) by lia.
    destruct (Hmv s0 size buf 12) as [H1 H2]; [unfold PGSIZE in *; lia..|done|done|].
    rewrite (bind_ret_run _ (λ _, _) _ tt _ eq_refl). rewrite (bind_ret_run _ _ _ _ _ H1). by page_steps.
Qed.

Lemma field_eq m fr o v : field (st32 m (fr * PGSIZE + o) v) fr 4 o = u32 v.
Proof. apply ld32_st32_eq. Qed.
Lemma field_ne m fr o v o' : o' + 4 ≤ o ∨ o + 4 ≤ o' → field (st32 m (fr * PGSIZE + o) v) fr 4 o' = field m fr 4 o'.
Proof. intros Ho. apply ldn_ext. intros a Ha. apply ldb_stn_out. lia. Qed.
Lemma field_bytes m fr o l o' : o' + 4 ≤ o ∨ o + Z.of_nat (length l) ≤ o' →
  field (store_bytes m (fr * PGSIZE + o) l) fr 4 o' = field m fr 4 o'.
Proof. intros Ho. apply ldn_ext. intros a Ha. apply ldb_store_bytes_out. lia. Qed.
Lemma i32_u32 v : is_int v → i32 (u32 v) = v.
Proof.
  unfold is_int. intros Hv. pow2. transitivity (i32 v); [|apply i32_id; lia].
  unfold i32, u32. pow2. by rewrite Zmod_mod.
Qed.

Lemma decode_req_mem c fr l m : params_ok c → Z.of_nat (length l) = (payload c).2 →
  decode (req_mem c (fr * PGSIZE) l m) fr (code c) (va_of 0) = wanted c (va_of 0).
Proof.
  intros Hp Hl.
  destruct c; cbn [req_mem code payload fst snd params_ok wanted] in *; unfold decode, int_field;
    cbn [Z.eqb NSREQ_ACCEPT NSREQ_BIND NSREQ_SHUTDOWN NSREQ_CLOSE NSREQ_CONNECT NSREQ_LISTEN NSREQ_RECV NSREQ_SEND NSREQ_SOCKET Pos.eqb];
    unfold SIZEOF_SOCKADDR, is_uns in *; rewrite ?field_eq; f_equal;
    repeat first [rewrite field_eq | rewrite field_ne by lia | rewrite field_bytes by lia];
    first [by apply i32_u32 | by apply u32_id; pow2; lia | apply i32_u32; unfold is_int; pow2; lia
      | idtac]; try (apply Hp || (apply i32_u32, Hp) || (apply u32_id; pow2; lia)).
Qed.

Lemma req_mem_out c fr l m a : Z.of_nat (length l) = (payload c).2 → params_ok c → a / PGSIZE ≠ fr →
  ldb (req_mem c (fr * PGSIZE) l m) a = ldb m a.
Proof.
  intros Hl Hp Ha.
  assert (∀ m o v, 0 ≤ o → o + 4 ≤ PGSIZE → ldb (st32 m (fr * PGSIZE + o) v) a = ldb m a) as H1.
  { intros m' o v Ho Ho'. apply ldb_stn_out. unfold PGSIZE in *. zlia. }
  assert (∀ m o, 0 ≤ o → o + Z.of_nat (length l) ≤ PGSIZE → ldb (store_bytes m (fr * PGSIZE + o) l) a = ldb m a) as H2.
  { intros m' o Ho Ho'. apply ldb_store_bytes_out. unfold PGSIZE in *. zlia. }
  destruct c; cbn [req_mem payload fst snd params_ok] in *;
    rewrite ?H1, ?H2, ?H1 by (unfold SIZEOF_SOCKADDR, PGSIZE in *; lia); done.
Qed.

Lemma req_mem_ok c b l m : bytes_ok m → bytes_ok (req_mem c b l m).
Proof.
  intros Hm. assert (∀ m a v, bytes_ok m → bytes_ok (st32 m a v)) as H by (intros; by apply (bytes_ok_stn 4)).
  destruct c; cbn [req_mem]; auto using bytes_ok_store_bytes.
Qed.

Lemma req_mem_payload c fr l m : bytes_of l → Z.of_nat (length l) = (payload c).2 → params_ok c →
  load_bytes (req_mem c (fr * PGSIZE) l m) (fr * PGSIZE + (payload c).1.1) (length l) = l.
Proof.
  intros Hb Hl Hp. assert ((payload c).2 = 0 ∨ (payload c).2 ≠ 0) as [H0|H0] by lia.
  { rewrite H0 in Hl. destruct l; [done|cbn in Hl; lia]. }
  destruct c; cbn [req_mem payload fst snd params_ok] in *; try lia;
    match goal with |- context [store_bytes ?m' ?a l] => transitivity (load_bytes (store_bytes m' a l) a (length l)) end;
    try (by apply load_store_bytes); apply load_bytes_ext; intros a Ha; unfold SIZEOF_SOCKADDR in *;
    rewrite ?ldb_stn_out by lia; done.
Qed.

(** A call writes its request, and then is one exchange. *)
Lemma call_encodes c s fr : has_page s fr → params_ok c →
  readable e s (payload c).1.2 (payload c).2 → off_frame e s (payload c).1.2 (payload c).2 fr →
  ∃ s1, call c s = (net (ipc_find_env envs ENV_TYPE_NS) (code c) ≫= answered c) s1 ∧ sent fr s s1 ∧
    decode (pmem s1) fr (code c) (va_of 0) = wanted c (va_of 0) ∧
    load_bytes (pmem s1) (fr * PGSIZE + (payload c).1.1) (Z.to_nat (payload c).2) = data_of c s.
Proof.
  intros Hp Hpar Hrd Hoff.
  assert (0 ≤ (payload c).2) as Hn by (destruct c; cbn [payload fst snd params_ok] in *; lia).
  assert (Z.of_nat (length (data_of c s)) = (payload c).2) as Hl
    by (unfold data_of; by rewrite length_user_bytes, Z2Nat.id).
  eexists. split; [by apply call_run|]. split.
  - split; [by split|apply (wf_only_mem s); [apply Hp|by split|]|].
    + apply req_mem_ok, (wf_bytes _ (hp_wf _ _ Hp)).
    + intros a Ha. by apply req_mem_out.
  - split; [by apply decode_req_mem|]. cbn [pmem set_pmem]. unfold data_of at 2.
    rewrite <- (length_user_bytes e s (payload c).1.2 (Z.to_nat (payload c).2)) at 1.
    apply req_mem_payload; [by apply user_bytes_ok, Hp|done|done].
Qed.

(** C14. What the client asks is what the server does: each call of nsipc.c, with int
    arguments, names of at most 16 bytes and fewer than 1600 bytes to send, makes
    exactly one exchange, with a page from which the server decodes the call into
    lwIP that is wanted, with the caller's bytes in it; nothing else of memory has
    changed by then; and the result is that of the exchange, but for the copying of
    what accept and recv bring back. *)
Theorem nsipc_encodes c s fr : has_page s fr → params_ok c →
  readable e s (payload c).1.2 (payload c).2 → off_frame e s (payload c).1.2 (payload c).2 fr →
  ∃ s1, call c s = (net (ipc_find_env envs ENV_TYPE_NS) (code c) ≫= answered c) s1 ∧ sent fr s s1 ∧
    decode (pmem s1) fr (code c) (va_of 0) = wanted c (va_of 0) ∧
    load_bytes (pmem s1) (fr * PGSIZE + (payload c).1.1) (Z.to_nat (payload c).2) = data_of c s.
Proof. apply call_encodes. Qed.

End request.

(** ** Reading and writing through the descriptor *)

Lemma wp_run {A} (m : U A) s a s' : wp m s (λ r t, r = a ∧ t = s') → m s = Ret a s'.
Proof. intros (? & ? & H & -> & ->)%wp_returns. exact H. Qed.

Section sockets.
Context (e nsipcbuf : Z) (Hbase : nsipcbuf mod PGSIZE = 0) (envs : list (Z * Z)) (ns_env : Z).
Context (Henv : ipc_find_env envs ENV_TYPE_NS = ns_env).
Context (lwip : lwip_call → U (Z * list Z)).
Notation net := (serve_once e nsipcbuf ns_env lwip).
Notation sockdev := (devsock e nsipcbuf envs net).
Context (devtab : list Dev) (Hdev : dev_lookup devtab devsock_id = Some sockdev).

(** Descriptor [i] is the socket that the server calls [sockid]. *)
Definition sock_at (s : VM) (i sockid : Z) : Prop := 0 ≤ i < MAXFD ∧ ∃ ff x,
  pte s !! (e, fdp i) = Some (ff, x) ∧ i32 (FdSpec.field s ff 0) = devsock_id ∧
  i32 (FdSpec.field s ff 8) = O_RDWR ∧ i32 (FdSpec.field s ff 12) = sockid.

Lemma fd_dev_sock s i sockid : wf s → sock_at s i sockid →
  fd_dev e devtab i s = Ret (0, INDEX2FD i, Some sockdev) s ∧
  get32 e (fd_omode (INDEX2FD i)) s = Ret O_RDWR s ∧ get32 e (fd_sockid (INDEX2FD i)) s = Ret sockid s.
Proof.
  intros Hwf (Hi & ff & x & Hm & H0 & H8 & H12). split_and!.
  - apply wp_run. unfold fd_dev. wp_step. apply fd_lookup_ok; [done|done|by eexists|]. cbn [fst snd Z.ltb Z.compare].
    wp_step. unfold fd_dev_id. rewrite <- (Z.add_0_r (INDEX2FD i)) at 1. eapply get32_fd; [done|lia|exact Hm|].
    rewrite H0, Hdev. by wp_step.
  - apply wp_run. unfold fd_omode. eapply get32_fd; [done|lia|exact Hm|done].
  - apply wp_run. unfold fd_sockid. eapply get32_fd; [done|lia|exact Hm|done].
Qed.

Lemma write_sock s i sockid buf n : wf s → sock_at s i sockid → 0 ≤ n < 2 ^ 31 →
  write e devtab i buf n s = nsipc_send e nsipcbuf envs net sockid buf n 0 s.
Proof.
  intros Hwf Hs Hn. destruct (fd_dev_sock s i sockid Hwf Hs) as (H1 & H2 & H3). unfold write.
  rewrite (bind_ret_run _ _ _ _ _ H1). cbn beta iota. rewrite (bind_ret_run _ _ _ _ _ H2).
  change (Z.land O_RDWR O_ACCMODE =? O_RDONLY) with false. cbn [dev_write devsock]. unfold devsock_write.
  rewrite (bind_ret_run _ _ _ _ _ H3). by rewrite i32_id by (pow2; lia).
Qed.

Lemma read_sock s i sockid buf n : wf s → sock_at s i sockid → 0 ≤ n < 2 ^ 31 →
  read e devtab i buf n s = nsipc_recv e nsipcbuf envs net sockid buf n 0 s.
Proof.
  intros Hwf Hs Hn. destruct (fd_dev_sock s i sockid Hwf Hs) as (H1 & H2 & H3). unfold read.
  rewrite (bind_ret_run _ _ _ _ _ H1). cbn beta iota. rewrite (bind_ret_run _ _ _ _ _ H2).
  change (Z.land O_RDWR O_ACCMODE =? O_WRONLY) with false. cbn [dev_read devsock]. unfold devsock_read.
  rewrite (bind_ret_run _ _ _ _ _ H3). by rewrite i32_id by (pow2; lia).
Qed.

(** An exchange that lwIP answers. *)
Lemma net_run c s fr r out s' : has_page e nsipcbuf s fr → decode (pmem s) fr (code c) (va_of 0) = wanted c (va_of 0) →
  lwip (wanted c (va_of 0)) s = Ret (r, out) s' →
  net (ipc_find_env envs ENV_TYPE_NS) (code c) s =
    Ret r (if writes_page (code c) then set_pmem (store_bytes (pmem s') (fr * PGSIZE) out) s' else s').
Proof.
  intros [(x & Hm & Hx) Hwf] Hd Hl. apply wp_run. rewrite Henv. eapply serve_once_ok; [done|done|done|by destruct c|].
  rewrite Hd. eapply wp_of_run; [exact Hl|]. done.
Qed.

(** Writing to a socket, through the descriptor, the request page and the
    server: lwIP is called once, to send from the page in which the bytes of the
    buffer are, on the connection of the descriptor, and write returns its answer;
    1600 bytes or more fail an assertion. *)
Theorem socket_write s i sockid buf n fr :
  sock_at s i sockid → is_int sockid → has_page e nsipcbuf s fr → 0 ≤ n < 2 ^ 31 →
  readable e s buf n → off_frame e s buf n fr →
  (n < 1600 → ∃ s1, sent fr s s1 ∧ load_bytes (pmem s1) (fr * PGSIZE + 12) (Z.to_nat n) = user_bytes e s buf (Z.to_nat n) ∧
    ∀ r out s2, lwip (LSend sockid (va_of 0 + 12) n 0) s1 = Ret (r, out) s2 →
      write e devtab i buf n s = Ret r s2) ∧
  (1600 ≤ n → ∃ s1, write e devtab i buf n s = Panic s1).
Proof.
  intros Hs Hid Hp Hn Hrd Hoff. pose proof (hp_wf _ _ _ _ Hp) as Hwf. rewrite (write_sock s i sockid) by done.
  split; intros Hlim.
  - destruct (call_encodes e nsipcbuf Hbase envs net (CSend sockid buf n 0) s fr) as (s1 & Hrun & Hsent & Hdec & Hpay);
      [done|cbn; unfold is_uns; split; [done|]; lia|done|done|].
    exists s1. split; [done|]. split; [exact Hpay|]. intros r out s2 Hl.
    change (call e nsipcbuf envs net (CSend sockid buf n 0) s = Ret r s2). rewrite Hrun.
    erewrite bind_ret_run; [|eapply (net_run (CSend sockid buf n 0)); [|exact Hdec|exact Hl]]; [done|].
    eapply has_page_only; [done|apply Hsent|apply (wf_bytes _ (sn_wf _ _ _ Hsent))].
  - unfold nsipc_send. destruct (put32_run e nsipcbuf Hbase s fr 0 sockid Hp) as [H _]; [lia|unfold PGSIZE; lia|].
    rewrite Z.add_0_r in H. rewrite (bind_ret_run _ _ _ _ _ H). rewrite (proj2 (Z.ltb_ge n 1600)) by lia.
    eexists. reflexivity.
Qed.

Lemma page_bytes s fr l : has_page e nsipcbuf s fr → bytes_of l → Z.of_nat (length l) ≤ PGSIZE →
  user_bytes e (set_pmem (store_bytes (pmem s) (fr * PGSIZE) l) s) nsipcbuf (length l) = l.
Proof.
  intros Hp Hb Hl. rewrite <- (load_store_bytes (pmem s) (fr * PGSIZE) l Hb) at 3.
  apply list_eq. intros k. destruct (decide (k < length l)%nat) as [Hk|Hk].
  - rewrite lookup_user_bytes, lookup_load_bytes by done. do 2 f_equal.
    change (addr e (set_pmem _ s) ?x) with (addr e s x). by rewrite (proj1 (nsip_addr e nsipcbuf Hbase s fr (Z.of_nat k) Hp ltac:(unfold PGSIZE in *; lia))).
  - rewrite !lookup_ge_None_2; [done|rewrite length_load_bytes; lia|rewrite length_user_bytes; lia].
Qed.

Lemma page_readable s fr n : has_page e nsipcbuf s fr → n ≤ PGSIZE → readable e s nsipcbuf n.
Proof.
  intros Hp Hn k Hk. rewrite (proj2 (nsip_addr e nsipcbuf Hbase s fr k Hp ltac:(lia))).
  destruct (hp_map _ _ _ _ Hp) as (x & -> & _). by eexists.
Qed.

(** What recv does with an answer. *)
Lemma recv_answered s fr sockid buf n fl out : has_page e nsipcbuf s fr → bytes_of out →
  Z.of_nat (length out) < 1600 → Z.of_nat (length out) ≤ n → writable e s buf (Z.of_nat (length out)) →
  unaliased e s buf (Z.of_nat (length out)) →
  ∃ s', answered e nsipcbuf (CRecv sockid buf n fl) (Z.of_nat (length out)) (set_pmem (store_bytes (pmem s) (fr * PGSIZE) out) s) =
      Ret (Z.of_nat (length out)) s' ∧ wf s' ∧
    user_bytes e s' buf (length out) = out ∧ only_mem s s' ∧
    ∀ a, a / PGSIZE ≠ fr → (∀ k, 0 ≤ k < Z.of_nat (length out) → addr e s (buf + k) ≠ a) → ldb (pmem s') a = ldb (pmem s) a.
Proof.
  intros Hp Hb Hlim Hn Hw Hu. set (r := Z.of_nat (length out)) in *. set (s1 := set_pmem (store_bytes _ _ _) s).
  assert (has_page e nsipcbuf s1 fr) as Hp1.
  { eapply has_page_only; [done|by split|]. apply bytes_ok_store_bytes, (wf_bytes _ (hp_wf _ _ _ _ Hp)). }
  exists (set_pmem (put_mem e s1 (pmem s1) buf out) s1). cbn [answered].
  rewrite (proj2 (Z.leb_le 0 r)), (proj2 (Z.ltb_lt r 1600)), (proj2 (Z.leb_le r n)) by lia. cbn [andb assert_].
  rewrite (bind_ret_run (mret tt) _ s1 tt s1 eq_refl). split_and!.
  - erewrite bind_ret_run; [reflexivity|]. rewrite memmove_run; [|pow2; lia|apply (page_readable s1 fr); [done|unfold PGSIZE; lia]|done].
    unfold r. rewrite Nat2Z.id. unfold s1 at 3. rewrite page_bytes by (done || (unfold PGSIZE; lia)). done.
  - eapply wf_only_mem; [apply Hp|by split|]. apply put_mem_bytes, bytes_ok_store_bytes, (wf_bytes _ (hp_wf _ _ _ _ Hp)).
  - by apply user_bytes_put.
  - by split.
  - intros a Ha Hk. cbn [pmem set_pmem]. rewrite put_mem_out by done. apply ldb_store_bytes_out.
    unfold r, PGSIZE in *. zlia.
Qed.

(** C25. Reading from a socket: lwIP is asked for at most n bytes of the
    descriptor's connection, into the page; the bytes it delivers are in the buffer
    when read returns their number, an error is passed on, and nothing but the
    buffer and the page has changed. *)
Theorem socket_read s i sockid buf n fr :
  sock_at s i sockid → is_int sockid → has_page e nsipcbuf s fr → 0 ≤ n < 2 ^ 31 →
  ∃ s1, sent fr s s1 ∧ ∀ r out s2, lwip (LRecv sockid (va_of 0) n 0) s1 = Ret (r, out) s2 → has_page e nsipcbuf s2 fr →
    (r < 0 → read e devtab i buf n s = Ret r (set_pmem (store_bytes (pmem s2) (fr * PGSIZE) out) s2)) ∧
    (r = Z.of_nat (length out) → bytes_of out → r < 1600 → r ≤ n → writable e s2 buf r → unaliased e s2 buf r →
      ∃ s', read e devtab i buf n s = Ret r s' ∧ wf s' ∧ user_bytes e s' buf (Z.to_nat r) = out ∧ only_mem s2 s' ∧
        ∀ a, a / PGSIZE ≠ fr → (∀ k, 0 ≤ k < r → addr e s2 (buf + k) ≠ a) → ldb (pmem s') a = ldb (pmem s2) a).
Proof.
  intros Hs Hid Hp Hn. pose proof (hp_wf _ _ _ _ Hp) as Hwf. rewrite (read_sock s i sockid) by done.
  destruct (call_encodes e nsipcbuf Hbase envs net (CRecv sockid buf n 0) s fr) as (s1 & Hrun & Hsent & Hdec & _);
    [done|cbn; unfold is_uns, is_int in *; pow2; split_and!; (done || lia)|intros k Hk; cbn in Hk; lia|intros k Hk; cbn in Hk; lia|].
  exists s1. split; [done|]. intros r out s2 Hl Hp2.
  change (nsipc_recv e nsipcbuf envs net sockid buf n 0 s) with (call e nsipcbuf envs net (CRecv sockid buf n 0) s).
  rewrite Hrun. erewrite bind_ret_run; [|eapply (net_run (CRecv sockid buf n 0)); [|exact Hdec|exact Hl]].
  2: { eapply has_page_only; [exact Hp|apply Hsent|apply (wf_bytes _ (sn_wf _ _ _ Hsent))]. }
  change (writes_page (code (CRecv sockid buf n 0))) with true. cbn beta iota. split.
  - intros Hr. cbn [answered]. by rewrite (proj2 (Z.leb_gt 0 r)).
  - intros -> Hb Hlim Hle Hw Hu. rewrite Nat2Z.id. by apply recv_answered.
Qed.

(** [s'] is [s] with the socket [sockid] opened as descriptor [i], the lowest free. *)
Record opened (s s' : VM) (i sockid : Z) : Prop := {
  op_wf : wf s';
  op_lowest : ¬ is_open e s i ∧ ∀ j, 0 ≤ j < i → is_open e s j;
  op_sock : sock_at s' i sockid;
  op_pte : ∃ fr, (∀ k y, pte s !! k ≠ Some (fr, y)) ∧ pte s' = <[(e, fdp i) := (fr, SOCK_PERM)]> (pte s) ∧
    ∀ a, a / PGSIZE ≠ fr → ldb (pmem s') a = ldb (pmem s) a }.

Lemma close_run s fr r : has_page e nsipcbuf s fr → is_int r → ∃ s1, sent fr s s1 ∧ ∀ c out s2,
  lwip (LClose r) s1 = Ret (c, out) s2 → nsipc_close e nsipcbuf envs net r s = Ret c s2.
Proof.
  intros Hp Hr. destruct (call_encodes e nsipcbuf Hbase envs net (CClose r) s fr) as (s1 & Hrun & Hsent & Hdec & _);
    [done|done|intros k Hk; cbn in Hk; lia|intros k Hk; cbn in Hk; lia|].
  exists s1. split; [done|]. intros c out s2 Hl.
  change (call e nsipcbuf envs net (CClose r) s = Ret c s2). rewrite Hrun.
  erewrite bind_ret_run; [|eapply (net_run (CClose r)); [|exact Hdec|exact Hl]]; [done|].
  eapply has_page_only; [exact Hp|apply Hsent|apply (wf_bytes _ (sn_wf _ _ _ Hsent))].
Qed.

(** The fields of a new descriptor. *)
Lemma sock_fields s i ff sockid E (Q : Z → VM → Prop) :
  wf s → 0 ≤ i < MAXFD → pte s !! (e, fdp i) = Some (ff, SOCK_PERM) → is_int sockid →
  (∀ s', wf s' → sock_at s' i sockid → pte s' = pte s → (∀ a, a / PGSIZE ≠ ff → ldb (pmem s') a = ldb (pmem s) a) → Q i s') →
  wpx (put32 e (fd_dev_id (INDEX2FD i)) devsock_id;; put32 e (fd_omode (INDEX2FD i)) O_RDWR;;
       put32 e (fd_sockid (INDEX2FD i)) sockid;; mret (fd2num (INDEX2FD i))) s Q E.
Proof.
  intros Hwf Hi Hm Hid HQ. unfold fd_dev_id, fd_omode, fd_sockid. rewrite <- (Z.add_0_r (INDEX2FD i)) at 1.
  wp_step. eapply put32_ok; [done|done|lia|exact Hm|done|]. intros s1 W1 P1 M1.
  wp_step. eapply put32_ok; [done|done|lia|rewrite P1; exact Hm|done|]. intros s2 W2 P2 M2.
  wp_step. eapply put32_ok; [done|done|lia|rewrite P2, P1; exact Hm|done|]. intros s3 W3 P3 M3.
  wp_step. rewrite fd2num_fd by done. apply HQ; [done| |by rewrite P3, P2, P1|].
  - split; [done|]. exists ff, SOCK_PERM. split; [by rewrite P3, P2, P1|]. unfold FdSpec.field. rewrite M3, M2, M1.
    fold (field (st32 (st32 (st32 (pmem s) (ff * PGSIZE + 0) devsock_id) (ff * PGSIZE + 8) O_RDWR) (ff * PGSIZE + 12) sockid) ff 4 0).
    fold (field (st32 (st32 (st32 (pmem s) (ff * PGSIZE + 0) devsock_id) (ff * PGSIZE + 8) O_RDWR) (ff * PGSIZE + 12) sockid) ff 4 8).
    fold (field (st32 (st32 (st32 (pmem s) (ff * PGSIZE + 0) devsock_id) (ff * PGSIZE + 8) O_RDWR) (ff * PGSIZE + 12) sockid) ff 4 12).
    rewrite !(field_ne _ _ 12), (field_ne _ _ 8), !field_eq by lia.
    split_and!; [done|done|by apply i32_u32].
  - intros a Ha. rewrite M3, M2, M1, !ldb_stn_out; [done|unfold PGSIZE in *; zlia..].
Qed.

(** What socket() makes of the server's answer [r], given in state [s2]. *)
Definition socket_result (fr r : Z) (s2 : VM) (v : Z) (s' : VM) : Prop :=
  r < 0 ∧ v = r ∧ s' = s2 ∨
  0 ≤ r ∧ opened s2 s' v r ∨
  0 ≤ r ∧ (v = - E_MAX_OPEN ∧ (∀ j, 0 ≤ j < MAXFD → is_open e s2 j) ∨ v = - E_NO_MEM) ∧
    ∃ s3 s4 c out, pte s3 = pte s2 ∧ pmem s3 = pmem s2 ∧ sent fr s3 s4 ∧ lwip (LClose r) s4 = Ret (c, out) s'.

(** C24. socket() on every branch: an error of the server is the result; a new
    socket becomes the lowest free descriptor, on a page of its own; and when there
    is no descriptor or no memory the server is told to close the socket it
    made, nothing stays mapped, and the error is the result. *)
Theorem socket_correct s domain type protocol fr :
  has_page e nsipcbuf s fr → is_int domain → is_int type → is_int protocol →
  ∃ s1, sent fr s s1 ∧ ∀ r out s2, lwip (LSocket domain type protocol) s1 = Ret (r, out) s2 →
    has_page e nsipcbuf s2 fr → is_int r → (∀ s4, pte s4 = pte s2 → ∃ c out s5, lwip (LClose r) s4 = Ret (c, out) s5) →
    ∃ v s', socket e nsipcbuf envs net domain type protocol s = Ret v s' ∧ socket_result fr r s2 v s'.
Proof.
  intros Hp Hd Ht Hpr.
  destruct (call_encodes e nsipcbuf Hbase envs net (CSocket domain type protocol) s fr) as (s1 & Hrun & Hsent & Hdec & _);
    [done|done|intros k Hk; cbn in Hk; lia|intros k Hk; cbn in Hk; lia|].
  exists s1. split; [done|]. intros r out s2 Hl Hp2 Hr Hclose.
  assert (nsipc_socket e nsipcbuf envs net domain type protocol s = Ret r s2) as Hns.
  { change (call e nsipcbuf envs net (CSocket domain type protocol) s = Ret r s2). rewrite Hrun.
    erewrite bind_ret_run; [|eapply (net_run (CSocket domain type protocol)); [|exact Hdec|exact Hl]]; [done|].
    eapply has_page_only; [exact Hp|apply Hsent|apply (wf_bytes _ (sn_wf _ _ _ Hsent))]. }
  unfold socket. rewrite (bind_ret_run _ _ _ _ _ Hns).
  destruct (r <? 0) eqn:Hneg; [apply Z.ltb_lt in Hneg; eexists _, _; split; [reflexivity|by left]|apply Z.ltb_ge in Hneg].
  pose proof (hp_wf _ _ _ _ Hp2) as Hwf.
  assert (∀ v s3, wf s3 → pte s3 = pte s2 → pmem s3 = pmem s2 →
    v = - E_MAX_OPEN ∧ (∀ j, 0 ≤ j < MAXFD → is_open e s2 j) ∨ v = - E_NO_MEM →
    wp (_ ← nsipc_close e nsipcbuf envs net r; mret v) s3 (socket_result fr r s2)) as Hfail.
  { intros v s3 W3 P3 M3 Hv. destruct (close_run s3 fr r) as (s4 & Hs4 & Hcl); [|done|].
    { destruct Hp2 as [(x & Hm & Hx) _]. split; [exists x; by rewrite P3|done]. }
    destruct (Hclose s4) as (c & out' & s5 & Hl5); [by rewrite (om_pte _ _ (sn_only _ _ _ Hs4))|].
    wp_step. eapply wp_of_run; [by eapply Hcl|]. wp_step. right. right. split_and!; [done..|].
    by exists s3, s4, c, out'. }
  apply wp_returns. unfold alloc_sockfd. wp_step. apply fd_alloc_ok; [done| |].
  - intros i Hi Hno Hlow. cbn [Z.ltb Z.compare]. wp_step. apply alloc_cases; [done|done|by apply fd_va_ok| |].
    + intros ff s3 Hfresh W3 P3 M3. cbn [Z.ltb Z.compare]. rewrite vpn_fd in P3 by done.
      eapply sock_fields; [done|done|rewrite P3; apply lookup_insert_eq|done|].
      intros s4 W4 Hsk P4 M4. right. left. split; [done|]. split; [done|done|done|].
      exists ff. split; [done|]. rewrite P4. split; [done|]. intros a Ha. by rewrite M4, M3.
    + intros s3 W3 P3 M3. apply Hfail; auto.
  - intros Hall. apply Hfail; auto.
Qed.

End sockets.

(** ** An environment with a socket, and an lwIP that answers at once *)
Module SockExample.

(** Frames 10, 11, 12: descriptor 0, the request page, a buffer with "hi!". *)
Definition ex_sock_pte : gmap (Z * Z) (Z * Z) :=
  <[(1, fdp 0) := (10, SOCK_PERM)]> (<[(1, 0x804) := (11, UPW)]> {[(1, 0x805) := (12, UPW)]}).
Definition ex_sock_vm : VM :=
  mkVM (store_bytes (st32 (st32 (st32 ∅ (10 * PGSIZE) devsock_id) (10 * PGSIZE + 8) O_RDWR) (10 * PGSIZE + 12) 7)
          (12 * PGSIZE) [104; 105; 33])
    [20; 21; 22] ex_sock_pte {[(1, fdp 0 / NPDENTRIES); (1, 0x804 / NPDENTRIES)]}.

Definition ex_lwip (c : lwip_call) : U (Z * list Z) :=
  match c with
  | LSend _ _ n _ => mret (n, [])
  | LRecv _ _ _ _ => mret (3, [33; 111; 107])
  | LSocket _ _ _ => mret (7, [])
  | _ => mret (0, [])
  end.
Definition ex_envs : list (Z * Z) := [(1, 4096); (2, 4097)].
Definition ex_net : Z → Z → U Z := serve_once 1 0x804000 4097 ex_lwip.
Definition ex_devtab : list Dev := [devsock 1 0x804000 ex_envs ex_net].

Lemma ex_sock_cases k fr x : ex_sock_pte !! k = Some (fr, x) →
  k = (1, fdp 0) ∧ fr = 10 ∧ x = SOCK_PERM ∨ k = (1, 0x804) ∧ fr = 11 ∧ x = UPW ∨ k = (1, 0x805) ∧ fr = 12 ∧ x = UPW.
Proof.
  unfold ex_sock_pte. intros [[<- [= <- <-]]|[_ [[<- [= <- <-]]|[_ [<- [= <- <-]]%lookup_singleton_Some]]%lookup_insert_Some]]%lookup_insert_Some; tauto.
Qed.

Lemma ex_sock_wf : wf ex_sock_vm.
Proof.
  split; cbn [pte pfree pmem tables ex_sock_vm].
  - apply (bool_decide_unpack _). by vm_compute.
  - intros fr k x H%ex_sock_cases. destruct_and?; destruct_or! H; destruct_and! H; subst; apply (bool_decide_unpack _); by vm_compute.
  - intros e v [fr x] H%ex_sock_cases. destruct_or! H; destruct_and! H; simplify_eq; apply (bool_decide_unpack _); by vm_compute.
  - intros fr k x H%ex_sock_cases. destruct_or! H; destruct_and! H; subst; done.
  - apply bytes_ok_store_bytes, (bytes_ok_stn 4), (bytes_ok_stn 4), (bytes_ok_stn 4).
    intros a. unfold ldb. rewrite !getd_empty. lia.
Qed.

Lemma ex_sock_page : has_page 1 0x804000 ex_sock_vm 11.
Proof. split; [|apply ex_sock_wf]. exists UPW. by split; vm_compute. Qed.

Lemma ex_sock_at : sock_at 1 ex_sock_vm 0 7.
Proof. split; [done|]. exists 10, SOCK_PERM. by split_and!; vm_compute. Qed.

Lemma ex_buffer i : 0 ≤ i < 3 → pte ex_sock_vm !! (1, vpn (0x805000 + i)) = Some (12, UPW) ∧
  addr 1 ex_sock_vm (0x805000 + i) = 12 * PGSIZE + i.
Proof.
  intros Hi. assert (i = 0 ∨ i = 1 ∨ i = 2) as Hc by lia. destruct_or! Hc; subst; by split; vm_compute.
Qed.
Lemma ex_buffer_readable : readable 1 ex_sock_vm 0x805000 3.
Proof. intros i Hi. rewrite (proj1 (ex_buffer i Hi)). by eexists. Qed.
Lemma ex_buffer_off : off_frame 1 ex_sock_vm 0x805000 3 11.
Proof. intros i Hi. rewrite (proj2 (ex_buffer i Hi)). unfold PGSIZE. zlia. Qed.

(** "hi!" sent on socket 7. *)
Lemma nsipc_encodes_witness : ∃ s1,
  decode (pmem s1) 11 NSREQ_SEND (va_of 0) = LSend 7 (va_of 0 + 12) 3 0 ∧
  load_bytes (pmem s1) (11 * PGSIZE + 12) 3 = [104; 105; 33].
Proof.
  destruct (nsipc_encodes 1 0x804000 eq_refl ex_envs ex_net (CSend 7 0x805000 3 0) ex_sock_vm 11)
    as (s1 & _ & _ & H1 & H2); [apply ex_sock_page|by vm_compute|apply ex_buffer_readable|apply ex_buffer_off|].
  exists s1. split; [exact H1|]. refine (eq_trans H2 _). by vm_compute.
Defined.

(** *)
Lemma socket_write_witness : ∃ s2, write 1 ex_devtab 0 0x805000 3 ex_sock_vm = Ret 3 s2.
Proof.
  destruct (socket_write 1 0x804000 eq_refl ex_envs 4097 eq_refl ex_lwip ex_devtab eq_refl ex_sock_vm 0 7 0x805000 3 11)
    as [H _]; [apply ex_sock_at|done|apply ex_sock_page|done|apply ex_buffer_readable|apply ex_buffer_off|].
  destruct (H eq_refl) as (s1 & _ & _ & H1). eexists. exact (H1 3 [] s1 eq_refl).
Defined.

(** *)
Lemma socket_read_witness : ∃ s', read 1 ex_devtab 0 0x805000 100 ex_sock_vm = Ret 3 s' ∧
  user_bytes 1 s' 0x805000 3 = [33; 111; 107].
Proof.
  destruct (socket_read 1 0x804000 eq_refl ex_envs 4097 eq_refl ex_lwip ex_devtab eq_refl ex_sock_vm 0 7 0x805000 100 11)
    as (s1 & Hs & H); [apply ex_sock_at|done|apply ex_sock_page|done|].
  assert (pte s1 = pte ex_sock_vm) as Hp by apply (om_pte _ _ (sn_only _ _ _ Hs)).
  destruct (H 3 [33; 111; 107] s1 eq_refl) as [_ H1].
  { eapply has_page_only; [apply ex_sock_page|apply Hs|apply (wf_bytes _ (sn_wf _ _ _ Hs))]. }
  destruct H1 as (s' & H1 & _ & H2 & _); [done|repeat constructor; lia|done|done|..|by exists s'].
  - intros i Hi. rewrite Hp, (proj1 (ex_buffer i Hi)). by eexists _, _.
  - intros i j Hi Hj. unfold addr. rewrite Hp. change (addr 1 ex_sock_vm (0x805000 + i) = addr 1 ex_sock_vm (0x805000 + j) → i = j).
    rewrite (proj2 (ex_buffer i Hi)), (proj2 (ex_buffer j Hj)). lia.
Defined.

(** *)
Lemma socket_correct_witness : ∃ s2 v s', socket 1 0x804000 ex_envs ex_net 2 1 6 ex_sock_vm = Ret v s' ∧
  socket_result 1 ex_lwip 11 7 s2 v s'.
Proof.
  destruct (socket_correct 1 0x804000 eq_refl ex_envs 4097 eq_refl ex_lwip ex_sock_vm 2 1 6 11)
    as (s1 & Hs & H); [apply ex_sock_page|done..|].
  destruct (H 7 [] s1 eq_refl) as (v & s' & H1 & H2); [|done|by intros s4 _; eexists _, _, _|by exists s1, v, s'].
  eapply has_page_only; [apply ex_sock_page|apply Hs|apply (wf_bytes _ (sn_wf _ _ _ Hs))].
Defined.

End SockExample.
