(* ===== verification/FsInit.v ===== *)
(** * Start-up of the file server (fs/fs.c fs_init, fs/bc.c bc_init and check_bc)

    From an empty cache: the self-test writes over the super block on the disk and
    restores it, then the super block and the bitmap are read and checked.  The
    drive is the one that was probed; the local copies of the super block are at
    addresses [backup] and [local] on the stack. *)
From stdpp Require Import gmap.
From S2P Require Import Prelude Mem StringC Printfmt KState Bc Fs FsView FsSpec FsIO.

Definition SIZEOF_SUPER : Z := 8 + FILE_SIZE.

Definition set_super (v : Z) (s : FsState) : FsState :=
  mkFs (fs_mem s) (fs_mapped s) (fs_dirty s) (fs_disk s) (fs_free_pages s) v (bitmap s).
Definition set_bitmap (v : Z) (s : FsState) : FsState :=
  mkFs (fs_mem s) (fs_mapped s) (fs_dirty s) (fs_disk s) (fs_free_pages s) (super s) v.

(** sys_page_unmap of the page of block [b]. *)
Definition unmap_block (b : Z) : F unit :=
  modify (λ s, if bool_decide (b ∈ fs_mapped s)
    then set_fs_free_pages (fs_free_pages s + 1) (set_fs_cache (fs_mapped s ∖ {[b]}) (fs_dirty s ∖ {[b]}) s) else s).

(** "OOPS!\n" *)
Definition oops : list Z := [79; 79; 80; 83; 33; 10].

Section init.
Context (backup local : Z).

Definition check_bc : F unit :=
  a ← diskaddr 1; move backup a SIZEOF_SUPER;;
  a ← diskaddr 1; store_str a oops;;
  a ← diskaddr 1; flush_block a;;
  a ← diskaddr 1; s ← get; assert_ (va_is_mapped a s);;
  a ← diskaddr 1; s ← get; assert_ (negb (va_is_dirty a s));;
  a ← diskaddr 1; unmap_block (blk_of a);;
  a ← diskaddr 1; s ← get; assert_ (negb (va_is_mapped a s));;
  a ← diskaddr 1; same ← name_eq a oops; assert_ same;;
  a ← diskaddr 1; move a backup SIZEOF_SUPER;;
  a ← diskaddr 1; flush_block a.

Definition bc_init : F unit :=
  check_bc;;
  a ← diskaddr 1; move local a SIZEOF_SUPER.

Definition fs_init : F unit :=
  bc_init;;
  a ← diskaddr 1; modify (set_super a);;
  check_super;;
  a ← diskaddr 2; modify (set_bitmap a);;
  check_bitmap.

(** ** The self-test leaves the disk as it was *)

(** A state of the test, by what its memory and its disk hold. *)
Record at_test (M D : Z → Z) (mp : gset Z) (pg : Z) (s : FsState) : Prop := {
  at_mem a : ldb (fs_mem s) a = M a;
  at_disk a : ldb (fs_disk s) a = D a;
  at_mapped : fs_mapped s = mp;
  at_dirty : fs_dirty s ⊆ {[1]};
  at_pages : fs_free_pages s = pg;
  at_super : super s = 0;
  at_bitmap : bitmap s = 0;
  at_mem_ok : bytes_ok (fs_mem s);
  at_disk_ok : bytes_ok (fs_disk s) }.

Definition B1 : Z := blk_va 1.
Definition in_b1 (a : Z) : Prop := B1 ≤ a < B1 + BLKSIZE.

Lemma diskaddr1 s M D mp pg : at_test M D mp pg s → diskaddr 1 s = Ret B1 s.
Proof. intros H. unfold diskaddr. cbn [Z.eqb]. rewrite run_gets, (at_super _ _ _ _ _ H). done. Qed.

Lemma touch_in M D pg s : at_test M D ∅ pg s → 0 < pg →
  touch B1 s = Ret tt (read_in 1 s) ∧
  at_test (λ a, if decide (in_b1 a) then D (BLKSIZE + (a - B1)) else M a) D {[1]} (pg - 1) (read_in 1 s).
Proof.
  intros H Hpg. split.
  - unfold touch. rewrite touch_depth_S. unfold va_is_mapped. rewrite (at_mapped _ _ _ _ _ H), bool_decide_false by set_solver.
    change (in_map B1 && negb false) with true. cbn match. unfold bc_pgfault. change (negb (in_map B1)) with false. cbn match.
    rewrite run_gets, (at_super _ _ _ _ _ H). cbn [Z.eqb]. rewrite run_ret. cbv zeta. rewrite page_addr.
    change (blk_of (blk_va (blk_of B1))) with 1. change (blk_of B1) with 1. rewrite read_in_run by done.
    rewrite (at_pages _ _ _ _ _ H), (proj2 (Z.leb_gt pg 0)) by done. rewrite run_gets.
    change (bitmap (read_in 1 s)) with (bitmap s). rewrite (at_bitmap _ _ _ _ _ H). done.
  - destruct H. split; cbn [read_in fs_mem fs_disk fs_mapped fs_dirty fs_free_pages super bitmap];
      [|exact at_disk0|rewrite at_mapped0; set_solver|set_solver|by rewrite at_pages0|exact at_super0|exact at_bitmap0
       |by apply bytes_ok_store_bytes|exact at_disk_ok0].
    intros a. rewrite ldb_copy by exact at_disk_ok0. unfold in_b1, B1, blk_va, BLKSIZE, PGSIZE in *.
    repeat case_decide; try lia.
    + rewrite at_disk0. done.
    + apply at_mem0.
Qed.

Lemma touch_all_run va n s s' : blk_of (va + n - 1) = blk_of va →
  touch (blk_va (blk_of va)) s = Ret tt s' → touch_all va n s = Ret tt s'.
Proof.
  intros Hb Ht. unfold touch_all, for_each, for_range. rewrite Hb.
  replace (Z.to_nat (blk_of va + 1 - blk_of va)) with 1%nat by lia. cbn [for_n].
  unfold mbind, M_bind. by rewrite Ht.
Qed.

Lemma b1_range va n : B1 ≤ va → 0 < n → va + n ≤ B1 + BLKSIZE → blk_of va = 1 ∧ blk_of (va + n - 1) = 1.
Proof. intros. unfold blk_of, B1, blk_va, BLKSIZE, PGSIZE, DISKMAP in *. zlia. Qed.

Lemma touch_all_b1 va n s M D pg : at_test M D {[1]} pg s →
  B1 ≤ va → 0 < n → va + n ≤ B1 + BLKSIZE → touch_all va n s = Ret tt s.
Proof.
  intros H H0 Hn Hl. destruct (b1_range va n) as [H1 H2]; [done..|]. apply touch_all_run; [congruence|].
  rewrite H1. apply touch_mapped. rewrite (at_mapped _ _ _ _ _ H). apply elem_of_singleton. done.
Qed.

Lemma touch_all_new n s M D pg : at_test M D ∅ pg s → 0 < pg → 0 < n ≤ BLKSIZE →
  touch_all B1 n s = Ret tt (read_in 1 s).
Proof.
  intros H Hpg Hn. destruct (b1_range B1 n) as [H1 H2]; [lia..|]. apply touch_all_run; [congruence|].
  apply (proj1 (touch_in M D pg s H Hpg)).
Qed.

Lemma blocks_of_out va n : (∀ a, va ≤ a < va + n → in_map a = false) → 1 ≤ n → blocks_of va n = [].
Proof.
  intros Hout Hn. unfold blocks_of. destruct (List.filter _ _) as [|b l] eqn:Hf; [done|]. exfalso.
  assert (In b (b :: l)) as Hin by by left. rewrite <- Hf in Hin. apply filter_In in Hin as [Hb Him].
  apply list_elem_of_In, elem_of_seqZ in Hb.
  assert (in_map (Z.max va (blk_va b)) = false) as H0.
  { apply Hout. unfold blk_va, blk_of, BLKSIZE, PGSIZE, DISKMAP in *. zlia. }
  rewrite <- (in_map_same (blk_va b)) in H0; [congruence|].
  rewrite blk_of_blk_va. unfold blk_va, blk_of, BLKSIZE, PGSIZE, DISKMAP in *. zlia.
Qed.

Lemma blocks_of_b1 va n : B1 ≤ va → 0 < n → va + n ≤ B1 + BLKSIZE → blocks_of va n = [1].
Proof.
  intros H1 H2 H3. destruct (b1_range va n) as [Ha Hb]; [done..|]. unfold blocks_of. rewrite Ha, Hb. done.
Qed.

(** Writes of the test: to the super block, or outside the cache. *)
Lemma write_b1 va n g M D mp pg s : at_test M D mp pg s → B1 ≤ va → 0 < n → va + n ≤ B1 + BLKSIZE →
  bytes_ok (g (fs_mem s)) → at_test (ldb (g (fs_mem s))) D mp pg (mark_dirty va n (set_fs_mem (g (fs_mem s)) s)).
Proof.
  intros [] H1 H2 H3 Hg. split; cbn [mark_dirty set_fs_cache set_fs_mem fs_mem fs_disk fs_mapped fs_dirty fs_free_pages super bitmap]; try done.
  rewrite blocks_of_b1 by done. cbn [list_to_set foldr]. set_solver.
Qed.
Lemma write_out va n g M D mp pg s : at_test M D mp pg s → buf_ok va n → 0 < n →
  bytes_ok (g (fs_mem s)) → at_test (ldb (g (fs_mem s))) D mp pg (mark_dirty va n (set_fs_mem (g (fs_mem s)) s)).
Proof.
  intros [] [_ Hout] H2 Hg. split; cbn [mark_dirty set_fs_cache set_fs_mem fs_mem fs_disk fs_mapped fs_dirty fs_free_pages super bitmap]; try done.
  rewrite blocks_of_out by (done || lia). cbn [list_to_set foldr]. set_solver.
Qed.

Lemma at_test_ext M M' D D' mp pg s : at_test M D mp pg s → (∀ a, M a = M' a) → (∀ a, D a = D' a) → at_test M' D' mp pg s.
Proof. intros [] HM HD. split; try done; intros a; [rewrite <- HM|rewrite <- HD]; auto. Qed.

(** flush_block of the super block, dirty or not. *)
Lemma flush_b1 M D pg s : at_test M D {[1]} pg s → (∀ a, in_b1 a → 1 ∈ fs_dirty s ∨ M a = D (BLKSIZE + (a - B1))) →
  ∃ s', flush_block B1 s = Ret tt s' ∧ fs_dirty s' = ∅ ∧
    at_test M (λ a, if decide (BLKSIZE ≤ a < BLKSIZE + BLKSIZE) then M (B1 + (a - BLKSIZE)) else D a) {[1]} pg s'.
Proof.
  intros H Hd. unfold flush_block. change (negb (in_map B1)) with false. cbn match. rewrite run_get.
  unfold va_is_mapped. change (blk_of B1) with 1. rewrite (at_mapped _ _ _ _ _ H), bool_decide_true by set_solver.
  cbn [negb orb]. unfold va_is_dirty. change (blk_of B1) with 1. case_bool_decide as Hdt; cbn [negb].
  - cbv zeta. rewrite page_addr. change (blk_of (blk_va (blk_of B1))) with 1. change (blk_of B1) with 1.
    rewrite write_back_run; [|done|rewrite (at_mapped _ _ _ _ _ H); set_solver].
    eexists. split; [reflexivity|]. destruct H. split; [cbn [written_back fs_dirty]; set_solver|].
    split; cbn [written_back fs_mem fs_disk fs_mapped fs_dirty fs_free_pages super bitmap];
      [exact at_mem0| |exact at_mapped0|set_solver|exact at_pages0|exact at_super0|exact at_bitmap0|exact at_mem_ok0
       |by apply bytes_ok_store_bytes].
    intros a. rewrite ldb_copy by exact at_mem_ok0. unfold B1, blk_va, BLKSIZE, PGSIZE in *.
    repeat case_decide; try lia; [rewrite at_mem0; done|apply at_disk0].
  - exists s. split; [done|]. split; [pose proof (at_dirty _ _ _ _ _ H); set_solver|].
    eapply at_test_ext; [exact H|done|]. intros a. case_decide as Ha; [|done].
    destruct (Hd (B1 + (a - BLKSIZE))) as [?|Heq]; [|done|].
    + unfold in_b1, BLKSIZE, PGSIZE in *. lia.
    + rewrite Heq. f_equal. lia.
Qed.

Definition moved (M : Z → Z) (dst src n a : Z) : Z :=
  if decide (dst ≤ a < dst + n) then M (src + (a - dst)) else M a.

Lemma moved_ldb M D mp pg s dst src n : at_test M D mp pg s → 0 ≤ n → 0 ≤ src → 0 ≤ dst → src + n < 2 ^ 64 →
  ∀ a, ldb (memmove (fs_mem s) dst src n) a = moved M dst src n a.
Proof.
  intros [] H1 H2 H3 H4 a. rewrite memmove_spec by done. unfold moved. by rewrite !at_mem0.
Qed.

Definition SB : Z := SIZEOF_SUPER.

(** The super block into a buffer on the stack, and back. *)
Lemma move_from M D pg s buf : at_test M D {[1]} pg s → buf_ok buf SB →
  ∃ s', move buf B1 SB s = Ret tt s' ∧ at_test (moved M buf B1 SB) D {[1]} pg s'.
Proof.
  intros H Hb. unfold move. erewrite run_bind by (eapply touch_all_b1; [exact H|unfold B1, SB, SIZEOF_SUPER, FILE_SIZE, BLKSIZE, PGSIZE; lia..]).
  erewrite run_bind by (apply touch_all_out; [done|apply Hb]).
  eexists. split; [reflexivity|]. eapply at_test_ext; [|intros a; eapply moved_ldb; [exact H|done|done|apply Hb|done]|done].
  apply (write_out buf SB (λ m, memmove m buf B1 SB) M); [done..|]. apply bytes_ok_memmove, H.
Qed.
Lemma move_to M D pg s buf : at_test M D {[1]} pg s → buf_ok buf SB →
  ∃ s', move B1 buf SB s = Ret tt s' ∧ at_test (moved M B1 buf SB) D {[1]} pg s' ∧ 1 ∈ fs_dirty s'.
Proof.
  intros H Hb. unfold move. erewrite run_bind by (apply touch_all_out; [done|apply Hb]).
  erewrite run_bind by (eapply touch_all_b1; [exact H|unfold B1, SB, SIZEOF_SUPER, FILE_SIZE, BLKSIZE, PGSIZE; lia..]).
  eexists. split; [reflexivity|]. split.
  - eapply at_test_ext; [|intros a; eapply moved_ldb; [exact H|done|apply Hb|done|apply Hb]|done].
    apply (write_b1 B1 SB (λ m, memmove m B1 buf SB) M); [done..|]. apply bytes_ok_memmove, H.
  - cbn [mark_dirty set_fs_cache fs_dirty]. rewrite blocks_of_b1 by done. cbn [list_to_set foldr]. set_solver.
Qed.

Definition put_at (M : Z → Z) (va : Z) (l : list Z) (a : Z) : Z :=
  if decide (va ≤ a < va + Z.of_nat (length l)) then nth (Z.to_nat (a - va)) l 0 else M a.

Lemma store8_b1 M D pg s va c : at_test M D {[1]} pg s → B1 ≤ va → va + 1 ≤ B1 + BLKSIZE → 0 ≤ c < 256 →
  ∃ s', store8 va c s = Ret tt s' ∧ at_test (put_at M va [c]) D {[1]} pg s' ∧ 1 ∈ fs_dirty s'.
Proof.
  intros H H1 H2 Hc. unfold store8. erewrite run_bind by (eapply touch_all_b1; [exact H|lia..]).
  eexists. split; [reflexivity|]. split.
  - eapply at_test_ext; [|intros a|done].
    { apply (write_b1 va 1 (λ m, stb m va c) M); [exact H|lia..|]. apply bytes_ok_stb, H. }
    rewrite ldb_stb. unfold put_at. cbn [length]. pose proof (at_mem _ _ _ _ _ H a).
    destruct (decide (va = a)) as [->|Hne].
    + rewrite decide_True by lia. rewrite u8_id by done. by rewrite Z.sub_diag.
    + rewrite decide_False by lia. done.
  - cbn [mark_dirty set_fs_cache fs_dirty]. rewrite blocks_of_b1 by lia. cbn [list_to_set foldr]. set_solver.
Qed.

Lemma store_str_b1 l : ∀ M D pg s va, at_test M D {[1]} pg s → B1 ≤ va → va + Z.of_nat (length l) + 1 ≤ B1 + BLKSIZE →
  Forall (λ c, 0 ≤ c < 256) l →
  ∃ s', store_str va l s = Ret tt s' ∧ at_test (put_at M va (l ++ [0])) D {[1]} pg s' ∧ 1 ∈ fs_dirty s'.
Proof.
  induction l as [|c l IH]; intros M D pg s va H H1 H2 Hl; cbn [store_str].
  { by apply store8_b1; [|cbn in H2; lia..]. }
  inversion_clear Hl as [|?? Hc Hl']. cbn [length] in H2.
  destruct (store8_b1 M D pg s va c) as (s1 & Hs1 & A1 & _); [done|lia|lia|done|].
  rewrite (run_bind _ _ _ _ _ Hs1). destruct (IH _ _ _ _ (va + 1) A1) as (s2 & Hs2 & A2 & Hd); [lia..|done|].
  exists s2. split; [done|]. split; [|done]. eapply at_test_ext; [exact A2| |done]. intros a.
  unfold put_at. rewrite !length_app. cbn [length app].
  destruct (decide (a = va)) as [->|Hne].
  - rewrite decide_False by lia. rewrite !decide_True by lia. by rewrite Z.sub_diag.
  - destruct (decide (va + 1 ≤ a < va + 1 + Z.of_nat (length l + 1))).
    + rewrite decide_True by lia. replace (Z.to_nat (a - va)) with (S (Z.to_nat (a - (va + 1)))) by lia. done.
    + rewrite !decide_False by lia. done.
Qed.

Lemma name_eq_b1 l : ∀ M D pg s va, at_test M D {[1]} pg s → B1 ≤ va → va + Z.of_nat (length l) + 1 ≤ B1 + BLKSIZE →
  (∀ k, 0 ≤ k < Z.of_nat (length l) + 1 → M (va + k) = nth (Z.to_nat k) (l ++ [0]) 0) → name_eq va l s = Ret true s.
Proof.
  induction l as [|c l IH]; intros M D pg s va H H1 H2 Hl; cbn [name_eq]; cbn [length] in *;
    (erewrite run_bind by (unfold load8; erewrite run_bind by (eapply touch_all_b1; [exact H|lia..]); reflexivity));
    rewrite (at_mem _ _ _ _ _ H); specialize (Hl 0 ltac:(lia)) as Hl0; rewrite Z.add_0_r in Hl0; rewrite Hl0; [done|].
  cbn [nth app Z.to_nat]. rewrite Z.eqb_refl. eapply IH; [exact H|lia..|]. intros k Hk. rewrite <- Z.add_assoc, Hl by lia.
  replace (Z.to_nat (1 + k)) with (S (Z.to_nat k)) by lia. done.
Qed.

Lemma unmap_block_ok M D pg s : at_test M D {[1]} pg s → ∃ s', unmap_block 1 s = Ret tt s' ∧ at_test M D ∅ (pg + 1) s'.
Proof.
  intros []. unfold unmap_block. eexists. split; [reflexivity|]. rewrite at_mapped0, bool_decide_true by set_solver.
  split; cbn [set_fs_free_pages set_fs_cache fs_mem fs_disk fs_mapped fs_dirty fs_free_pages super bitmap]; try done.
  all: first [set_solver|by rewrite at_pages0].
Qed.

Lemma mapped_b1 M D mp pg s : at_test M D mp pg s → va_is_mapped B1 s = bool_decide (1 ∈ mp).
Proof. intros []. unfold va_is_mapped. change (blk_of B1) with 1. by rewrite at_mapped0. Qed.

Lemma bind_same {A B} (m : F A) (k : A → F B) s s' : m s = m s' → (m ≫= k) s = (m ≫= k) s'.
Proof. unfold mbind, M_bind. by intros ->. Qed.

(** check_bc on a disk [D]: the disk is back, block 1 is in the cache. *)
Lemma check_bc_ok M D pg s : at_test M D ∅ pg s → 0 < pg → buf_ok backup SB →
  ∃ s' M', check_bc s = Ret tt s' ∧ at_test M' D {[1]} (pg - 1) s' ∧
    (∀ a, in_b1 a → M' a = D (BLKSIZE + (a - B1))) ∧ fs_dirty s' = ∅.
Proof.
  intros H Hpg Hb. unfold check_bc.
  assert (∀ a, backup ≤ a < backup + SB → ¬ in_b1 a) as Hout.
  { intros a Ha Hin. apply (bo_out _ _ Hb) in Ha. unfold in_b1, B1, blk_va, BLKSIZE, PGSIZE in Hin.
    unfold in_map, DISKMAP, DISKSIZE in *. apply andb_false_iff in Ha. rewrite Z.leb_gt, Z.ltb_ge in Ha. lia. }
  rewrite (run_bind _ _ _ _ _ (diskaddr1 s _ _ _ _ H)).
  destruct (touch_in M D pg s H Hpg) as [_ A1]. set (s1 := read_in 1 s) in *.
  destruct (move_from _ _ _ s1 backup A1 Hb) as (s2 & R2 & A2).
  assert (move backup B1 SIZEOF_SUPER s = Ret tt s2) as R2'.
  { revert R2. unfold move. erewrite run_bind by (eapply touch_all_b1; [exact A1|done..]).
    erewrite (run_bind (touch_all B1 _)) by (eapply touch_all_new; [exact H|done|done]). done. }
  rewrite (run_bind _ _ _ _ _ R2'). clear R2 R2'.
  rewrite (run_bind _ _ _ _ _ (diskaddr1 s2 _ _ _ _ A2)).
  destruct (store_str_b1 oops _ _ _ s2 B1 A2) as (s3 & R3 & A3 & Hd3); [lia|done|repeat constructor; lia|].
  rewrite (run_bind _ _ _ _ _ R3). rewrite (run_bind _ _ _ _ _ (diskaddr1 s3 _ _ _ _ A3)).
  destruct (flush_b1 _ _ _ s3 A3) as (s4 & R4 & Hd4 & A4); [by left|].
  rewrite (run_bind _ _ _ _ _ R4). rewrite (run_bind _ _ _ _ _ (diskaddr1 s4 _ _ _ _ A4)), run_get.
  rewrite (mapped_b1 _ _ _ _ _ A4), bool_decide_true by set_solver.
  cbn [assert_]. rewrite run_ret. rewrite (run_bind _ _ _ _ _ (diskaddr1 s4 _ _ _ _ A4)), run_get.
  assert (va_is_dirty B1 s4 = false) as -> by (unfold va_is_dirty; rewrite Hd4; by apply bool_decide_false).
  cbn [assert_ negb]. rewrite run_ret. rewrite (run_bind _ _ _ _ _ (diskaddr1 s4 _ _ _ _ A4)).
  change (blk_of B1) with 1. destruct (unmap_block_ok _ _ _ s4 A4) as (s5 & R5 & A5).
  rewrite (run_bind _ _ _ _ _ R5). rewrite Z.sub_add in A5.
  rewrite (run_bind _ _ _ _ _ (diskaddr1 s5 _ _ _ _ A5)), run_get.
  rewrite (mapped_b1 _ _ _ _ _ A5), bool_decide_false by set_solver.
  cbn [assert_ negb]. rewrite run_ret. rewrite (run_bind _ _ _ _ _ (diskaddr1 s5 _ _ _ _ A5)).
  destruct (touch_in _ _ _ s5 A5 Hpg) as [_ A6]. set (s6 := read_in 1 s5) in *.
  assert (name_eq B1 oops s5 = Ret true s6) as R6.
  { transitivity (name_eq B1 oops s6).
    - cbn [name_eq oops]. apply bind_same. unfold load8.
      erewrite (run_bind (touch_all B1 1)) by (eapply touch_all_new; [exact A5|done|done]).
      by erewrite (run_bind (touch_all B1 1)) by (eapply touch_all_b1; [exact A6|done..]).
    - eapply name_eq_b1; [exact A6|lia|done|]. intros k Hk. change (Z.of_nat (length oops) + 1) with 7 in Hk. unfold in_b1.
      rewrite decide_True by (unfold BLKSIZE, PGSIZE; lia). rewrite decide_True by (unfold BLKSIZE, PGSIZE; lia).
      unfold put_at. change (Z.of_nat (length (oops ++ [0]))) with 7. rewrite decide_True by lia. do 2 f_equal. lia. }
  rewrite (run_bind _ _ _ _ _ R6). cbn [assert_]. rewrite run_ret.
  rewrite (run_bind _ _ _ _ _ (diskaddr1 s6 _ _ _ _ A6)).
  destruct (move_to _ _ _ s6 backup A6 Hb) as (s7 & R7 & A7 & Hd7).
  rewrite (run_bind _ _ _ _ _ R7). rewrite (run_bind _ _ _ _ _ (diskaddr1 s7 _ _ _ _ A7)).
  destruct (flush_b1 _ _ _ s7 A7) as (s8 & R8 & Hd8 & A8); [by left|].
  match type of A7 with at_test ?M7 _ _ _ _ => assert (∀ a, in_b1 a → M7 a = D (BLKSIZE + (a - B1))) as Hkey end.
  { intros a Ha. assert (SB = 264) as HSB by done. change (oops ++ [0]) with ([79; 79; 80; 83; 33; 10; 0]).
    unfold moved at 1. case_decide as H1.
    - assert (¬ in_b1 (backup + (a - B1))) as Hn by (apply Hout; lia).
      rewrite decide_False by done. unfold put_at. cbn [length].
      rewrite decide_False by (unfold in_b1, BLKSIZE, PGSIZE in *; lia). unfold moved. rewrite decide_True by lia.
      rewrite decide_True by (unfold in_b1 in *; replace (B1 + (backup + (a - B1) - backup)) with a by lia; done).
      f_equal. lia.
    - rewrite decide_True by done. rewrite decide_True by (unfold in_b1 in *; lia).
      replace (B1 + (BLKSIZE + (a - B1) - BLKSIZE)) with a by lia. unfold put_at. cbn [length].
      rewrite decide_False by (unfold in_b1 in *; lia). unfold moved.
      rewrite decide_False by (intros Hx; by apply (Hout a Hx)). by rewrite decide_True. }
  eexists s8, _. split; [exact R8|]. split; [|split; [exact Hkey|exact Hd8]].
  eapply at_test_ext; [exact A8|done|]. intros a. cbv beta. case_decide as H1; [|done].
  rewrite Hkey by (unfold in_b1 in *; lia). f_equal. lia.
Qed.

(** ** Mounting the disk *)

(** A disk that can be mounted: the magic number, a size that one bitmap block
    covers, and the first three blocks in use. *)
Record mountable (d : mem) : Prop := {
  mo_bytes : bytes_ok d;
  mo_magic : ld32 d BLKSIZE = FS_MAGIC;
  mo_size : 3 ≤ ld32 d (BLKSIZE + 4) ≤ BLKBITSIZE;
  mo_used b : 0 ≤ b < 3 → truthy (Z.land (ld32 d (2 * BLKSIZE)) (bitmap_bit b)) = false }.

(** The server before fs_init, with pages for the whole disk. *)
Record fresh_server (s : FsState) : Prop := {
  fr_mapped : fs_mapped s = ∅;
  fr_dirty : fs_dirty s = ∅;
  fr_super : super s = 0;
  fr_bitmap : bitmap s = 0;
  fr_mem : bytes_ok (fs_mem s);
  fr_pages : ld32 (fs_disk s) (BLKSIZE + 4) ≤ fs_free_pages s }.

Lemma bc_init_ok s : fresh_server s → bytes_ok (fs_disk s) → 0 < fs_free_pages s → buf_ok backup SB → buf_ok local SB →
  ∃ s' M', bc_init s = Ret tt s' ∧ at_test M' (ldb (fs_disk s)) {[1]} (fs_free_pages s - 1) s' ∧
    (∀ a, in_b1 a → M' a = ldb (fs_disk s) (BLKSIZE + (a - B1))).
Proof.
  intros [] Hd Hpg Hb Hl. assert (at_test (ldb (fs_mem s)) (ldb (fs_disk s)) ∅ (fs_free_pages s) s) as H.
  { split; try done. rewrite fr_dirty0. apply empty_subseteq. }
  unfold bc_init. destruct (check_bc_ok _ _ _ _ H Hpg Hb) as (s1 & M1 & R1 & A1 & K1 & _).
  rewrite (run_bind _ _ _ _ _ R1), (run_bind _ _ _ _ _ (diskaddr1 s1 _ _ _ _ A1)).
  destruct (move_from _ _ _ s1 local A1 Hl) as (s2 & R2 & A2). eexists s2, _. split; [exact R2|]. split; [exact A2|].
  intros a Ha. unfold moved. rewrite decide_False; [by apply K1|]. intros Hin. apply (bo_out _ _ Hl) in Hin.
  unfold in_b1, B1, blk_va, BLKSIZE, PGSIZE in Ha. unfold in_map, DISKMAP, DISKSIZE in *.
  apply andb_false_iff in Hin. rewrite Z.leb_gt, Z.ltb_ge in Hin. lia.
Qed.

Lemma ldn_moved n m m' a b : (∀ j, 0 ≤ j < Z.of_nat n → ldb m (a + j) = ldb m' (b + j)) → ldn n m a = ldn n m' b.
Proof.
  revert a b. induction n as [|n IH]; intros a b H; [done|]. cbn [ldn].
  pose proof (H 0 ltac:(lia)) as H0. rewrite !Z.add_0_r in H0. rewrite H0. do 2 f_equal.
  apply IH. intros j Hj. rewrite <- !Z.add_assoc. apply H. lia.
Qed.

(** The cache after bc_init, and then with the bitmap: [super] is set. *)
Record loaded (d : mem) (mp : gset Z) (s : FsState) : Prop := {
  ld_mapped : fs_mapped s = mp;
  ld_disk a : ldb (fs_disk s) a = ldb d a;
  ld_cache b o : b ∈ mp → 0 ≤ o < BLKSIZE → ldb (fs_mem s) (blk_va b + o) = ldb d (b * BLKSIZE + o);
  ld_super : super s = blk_va 1;
  ld_mem_ok : bytes_ok (fs_mem s);
  ld_disk_ok : bytes_ok (fs_disk s) }.

Lemma loaded_ld32 d mp s b o : loaded d mp s → b ∈ mp → 0 ≤ o → o + 4 ≤ BLKSIZE →
  ld32 (fs_mem s) (blk_va b + o) = ld32 d (b * BLKSIZE + o).
Proof.
  intros H Hb Ho Hl. apply ldn_moved. intros j Hj. rewrite <- !Z.add_assoc. by apply (ld_cache _ _ _ H); [|lia].
Qed.

Lemma loaded_view d mp s a : loaded d mp s → in_map a = true → view s a = ldb d (a - DISKMAP).
Proof.
  intros H Ha. unfold view, va_is_mapped. rewrite Ha, (ld_mapped _ _ _ H). case_bool_decide as Hb; cbn [andb negb].
  - replace a with (blk_va (blk_of a) + (a - DISKMAP) mod BLKSIZE) at 1.
    2: { unfold blk_va, blk_of, BLKSIZE, PGSIZE. zlia. }
    rewrite (ld_cache _ _ _ H) by (done || (unfold BLKSIZE, PGSIZE; zlia)). f_equal.
    unfold blk_of, BLKSIZE, PGSIZE. zlia.
  - apply (ld_disk _ _ _ H).
Qed.

Lemma load32_loaded d mp s b o : loaded d mp s → b ∈ mp → 0 ≤ o → o mod 4 = 0 → o + 4 ≤ BLKSIZE →
  load32 (blk_va b + o) s = Ret (ld32 d (b * BLKSIZE + o)) s ∧
  (∀ n, load32_by (touch_depth n) (blk_va b + o) s = Ret (ld32 d (b * BLKSIZE + o)) s).
Proof.
  intros H Hb Ho Ha Hl.
  assert (∀ k, 0 ≤ k < BLKSIZE → blk_of (blk_va b + k) = b) as Hblk by (intros; by apply blk_of_va).
  assert (∀ n va, blk_of va = b → touch_depth n va s = Ret tt s) as Ht.
  { intros n va Hv. apply touch_mapped. by rewrite Hv, (ld_mapped _ _ _ H). }
  split.
  - unfold load32. erewrite run_bind; [|apply touch_all_run].
    + unfold gets. by rewrite (loaded_ld32 d mp).
    + rewrite <- Z.add_sub_assoc, <- Z.add_assoc. rewrite !Hblk by lia. done.
    + rewrite Hblk by lia. apply Ht. apply blk_of_blk_va.
  - intros n. unfold load32_by. erewrite run_bind by (apply Ht, Hblk; lia). unfold gets. by rewrite (loaded_ld32 d mp).
Qed.

Section mount.
Context (d : mem) (Hd : mountable d).
Notation nb := (ld32 d (BLKSIZE + 4)).

Lemma check_super_ok s : loaded d {[1]} s → check_super s = Ret tt s.
Proof.
  intros H. unfold check_super. rewrite run_gets, (ld_super _ _ _ H).
  destruct (load32_loaded d _ s 1 0 H) as [L _]; [set_solver|done..|]. unfold s_magic. rewrite Z.add_0_r in L.
  rewrite (run_bind _ _ _ _ _ L). change (1 * BLKSIZE + 0) with BLKSIZE. rewrite (mo_magic d Hd), Z.eqb_refl. cbn [negb].
  destruct (load32_loaded d _ s 1 4 H) as [L2 _]; [set_solver|done..|]. unfold s_nblocks. rewrite (run_bind _ _ _ _ _ L2).
  change (1 * BLKSIZE + 4) with (BLKSIZE + 4). rewrite (proj2 (Z.ltb_ge _ _)); [done|].
  pose proof (mo_size d Hd). unfold BLKBITSIZE, BLKSIZE, PGSIZE, DISKSIZE in *. zlia.
Qed.

Lemma diskaddr2 s : loaded d {[1]} s → diskaddr 2 s = Ret (blk_va 2) s.
Proof.
  intros H. unfold diskaddr. cbn [Z.eqb]. rewrite run_gets, (ld_super _ _ _ H). change (blk_va 1 =? 0) with false. cbn match.
  destruct (load32_loaded d _ s 1 4 H) as [_ L]; [set_solver|done..|]. unfold touch. rewrite (run_bind _ _ _ _ _ (L 3%nat)).
  change (1 * BLKSIZE + 4) with (BLKSIZE + 4). rewrite (proj2 (Z.leb_gt _ _)); [done|]. pose proof (mo_size d Hd). lia.
Qed.

Lemma loaded_bitmap s : loaded d {[1]} s → bitmap s = blk_va 2 → loaded d {[1; 2]} (read_in 2 s).
Proof.
  intros [] Hb. split; cbn [read_in fs_mem fs_disk fs_mapped super];
    [rewrite ld_mapped0; set_solver|exact ld_disk0| |exact ld_super0|by apply bytes_ok_store_bytes|exact ld_disk_ok0].
  intros b o Hin Ho. rewrite ldb_copy by exact ld_disk_ok0. unfold blk_va, BLKSIZE, PGSIZE in *. case_decide as Hr.
  - assert (b = 2) as -> by lia. rewrite ld_disk0. f_equal. lia.
  - assert (b ≠ 2) by (intros ->; lia). apply ld_cache0; [set_solver|done].
Qed.

Lemma word_free s b : loaded d {[1; 2]} s → 0 ≤ b < 3 → is_free s b = false.
Proof.
  intros H Hb. unfold is_free. assert (bitmap_word (blk_va 2) b = blk_va 2 + 0) as ->
    by (unfold bitmap_word; f_equal; zlia).
  rewrite view_ld32; [|done|rewrite Z.add_0_r, blk_of_blk_va, (ld_mapped _ _ _ H); set_solver].
  rewrite (loaded_ld32 d _ s 2 0 H) by (done || set_solver). rewrite Z.add_0_r. by apply (mo_used d Hd).
Qed.

Lemma mounted_ok s : loaded d {[1; 2]} s → bitmap s = blk_va 2 → nb ≤ fs_free_pages s + 2 →
  fs_ok s ∧ nblocks s = nb.
Proof.
  intros H Hb Hpg. pose proof (mo_size d Hd) as Hnb.
  assert (nblocks s = nb) as He.
  { unfold nblocks. rewrite view_ld32; [|done|rewrite (ld_mapped _ _ _ H); change (blk_of (blk_va 1 + 4)) with 1; set_solver].
    by rewrite (loaded_ld32 d _ s 1 4 H) by (done || set_solver). }
  split; [|done]. split; rewrite ?He.
  - apply (ld_super _ _ _ H).
  - done.
  - unfold BLKBITSIZE, NDISKBLKS, DISKSIZE, BLKSIZE, PGSIZE in *. zlia.
  - rewrite (ld_mapped _ _ _ H). set_solver.
  - intros k Hk Hlt. rewrite (ld_mapped _ _ _ H). assert (k = 0) as -> by (unfold BLKBITSIZE, BLKSIZE, PGSIZE in *; lia). set_solver.
  - intros b. rewrite (ld_mapped _ _ _ H), elem_of_union, !elem_of_singleton. lia.
  - rewrite (ld_mapped _ _ _ H). assert (size ({[1; 2]} : gset Z) = 2%nat) as -> by done. lia.
  - split; [|intros b o Hbm _ Ho|apply (ld_mem_ok _ _ _ H)|apply (ld_disk_ok _ _ _ H)].
    + intros b. rewrite (ld_mapped _ _ _ H), elem_of_union, !elem_of_singleton. change NDISKBLKS with 786432. lia.
    + rewrite (ld_mapped _ _ _ H) in Hbm. rewrite (ld_cache _ _ _ H), (ld_disk _ _ _ H) by done. done.
Qed.

(** The first test of the bitmap brings the bitmap in. *)
Lemma first_bitmap_read s : loaded d {[1]} s → bitmap s = blk_va 2 → nb ≤ fs_free_pages s + 1 →
  block_is_free 2 s = Ret false (read_in 2 s).
Proof.
  intros H Hb Hpg. pose proof (mo_size d Hd) as Hnb. pose proof (loaded_bitmap s H Hb) as H2.
  destruct (mounted_ok (read_in 2 s) H2 Hb) as [Hok Hn]; [cbn [read_in fs_free_pages]; lia|].
  assert (touch (blk_va 2 + 4 * (2 / 32)) s = Ret tt (read_in 2 s)) as Ht.
  { change (blk_va 2 + 4 * (2 / 32)) with (blk_va 2). unfold touch. rewrite touch_depth_S. unfold va_is_mapped.
    change (blk_of (blk_va 2)) with 2. rewrite (ld_mapped _ _ _ H), bool_decide_false by set_solver.
    change (in_map (blk_va 2) && negb false) with true. cbn match. unfold bc_pgfault.
    change (negb (in_map (blk_va 2))) with false. cbn match. rewrite run_gets, (ld_super _ _ _ H).
    change (blk_va 1 =? 0) with false. cbn match. destruct (load32_loaded d _ s 1 4 H) as [_ L]; [set_solver|done..|].
    erewrite run_bind; [|erewrite run_bind by apply (L 2%nat); reflexivity].
    change (blk_of (blk_va 2)) with 2. change (1 * BLKSIZE + 4) with (BLKSIZE + 4). rewrite (proj2 (Z.leb_gt _ _)) by lia.
    cbv zeta. rewrite page_addr. change (blk_of (blk_va (blk_of (blk_va 2)))) with 2. change (blk_of (blk_va 2)) with 2.
    rewrite read_in_run by done. rewrite (proj2 (Z.leb_gt _ _)) by lia. rewrite run_gets.
    change (bitmap (read_in 2 s)) with (bitmap s). rewrite Hb. change (blk_va 2 =? 0) with false. cbn match.
    rewrite (run_bind _ _ _ false (read_in 2 s)); [done|]. erewrite block_is_free_by_ok; [|intros; by apply touch_mapped|exact Hok|done].
    by rewrite (word_free _ 2 H2), andb_false_r. }
  unfold block_is_free, block_is_free_by. rewrite run_gets, (ld_super _ _ _ H). change (blk_va 1 =? 0) with false. cbn match.
  destruct (load32_loaded d _ s 1 4 H) as [_ L]; [set_solver|done..|]. unfold touch at 1. rewrite (run_bind _ _ _ _ _ (L 3%nat)).
  change (1 * BLKSIZE + 4) with (BLKSIZE + 4). rewrite (proj2 (Z.leb_gt _ _)) by lia. rewrite run_gets, Hb.
  erewrite run_bind by (unfold load32_by; erewrite run_bind by exact Ht; reflexivity).
  change (blk_va 2 + 4 * (2 / 32)) with (blk_va 2 + 0). rewrite (loaded_ld32 d _ _ 2 0 H2) by (done || set_solver).
  rewrite Z.add_0_r. unfold mret, M_ret. f_equal. apply (mo_used d Hd 2). lia.
Qed.

Lemma for_each_one (body : Z → F unit) s s' : body 0 s = Ret tt s' → for_each 0 1 body s = Ret tt s'.
Proof. intros H. unfold for_each, for_range. change (Z.to_nat (1 - 0)) with 1%nat. cbn [for_n]. unfold mbind, M_bind. by rewrite H. Qed.

Lemma check_bitmap_ok s : loaded d {[1]} s → bitmap s = blk_va 2 → nb ≤ fs_free_pages s + 1 →
  check_bitmap s = Ret tt (read_in 2 s).
Proof.
  intros H Hb Hpg. pose proof (mo_size d Hd) as Hnb. pose proof (loaded_bitmap s H Hb) as H2.
  destruct (mounted_ok (read_in 2 s) H2 Hb) as [Hok Hn]; [cbn [read_in fs_free_pages]; lia|].
  unfold check_bitmap. rewrite run_gets, (ld_super _ _ _ H).
  destruct (load32_loaded d _ s 1 4 H) as [L _]; [set_solver|done..|]. unfold s_nblocks. rewrite (run_bind _ _ _ _ _ L).
  change (1 * BLKSIZE + 4) with (BLKSIZE + 4).
  assert ((nb + BLKBITSIZE - 1) / BLKBITSIZE = 1) as -> by (unfold BLKBITSIZE, BLKSIZE, PGSIZE in *; zlia).
  assert (∀ b, 0 ≤ b < 3 → block_is_free b (read_in 2 s) = Ret false (read_in 2 s)) as Hfree.
  { intros b Hb'. unfold block_is_free. erewrite block_is_free_by_ok; [|intros; by apply touch_mapped|exact Hok|lia].
    by rewrite (word_free _ b H2), andb_false_r. }
  rewrite (run_bind _ _ _ tt (read_in 2 s)).
  2: { apply for_each_one. change (2 + 0) with 2. erewrite run_bind by (by apply first_bitmap_read). done. }
  rewrite (run_bind _ _ _ _ _ (Hfree 0 ltac:(lia))). cbn [assert_ negb]. rewrite run_ret.
  rewrite (run_bind _ _ _ _ _ (Hfree 1 ltac:(lia))). done.
Qed.

End mount.

Lemma fs_init_ok s : fresh_server s → bytes_ok (fs_disk s) → 0 < fs_free_pages s →
  buf_ok backup SB → buf_ok local SB →
  (ld32 (fs_disk s) BLKSIZE ≠ FS_MAGIC → ∃ s', fs_init s = Panic s' ∧ mem_eq (fs_disk s') (fs_disk s)) ∧
  (mountable (fs_disk s) → ∃ s', fs_init s = Ret tt s' ∧ fs_ok s' ∧ mem_eq (fs_disk s') (fs_disk s) ∧
    nblocks s' = ld32 (fs_disk s) (BLKSIZE + 4) ∧ ∀ a, in_map a = true → view s' a = ldb (fs_disk s) (a - DISKMAP)).
Proof.
  intros Hfr Hbo Hpg Hb Hl. set (d := fs_disk s) in *.
  destruct (bc_init_ok s Hfr Hbo Hpg Hb Hl) as (s1 & M & R1 & A1 & K1). fold d in A1, K1.
  set (s2 := set_super B1 s1).
  assert (loaded d {[1]} s2) as L2.
  { destruct A1. split; cbn [s2 set_super fs_mem fs_disk fs_mapped super]; try done.
    intros b o ->%elem_of_singleton Ho. rewrite at_mem0, K1 by (unfold in_b1, B1; lia). f_equal. unfold B1. lia. }
  assert (fs_init s = (check_super;; a ← diskaddr 2; modify (set_bitmap a);; check_bitmap) s2) as ->.
  { unfold fs_init. by rewrite (run_bind _ _ _ _ _ R1), (run_bind _ _ _ _ _ (diskaddr1 s1 _ _ _ _ A1)). }
  assert (mem_eq (fs_disk s2) d) as Heq by (intros a; apply (ld_disk _ _ _ L2)).
  split.
  - intros Hm. exists s2. split; [|done]. unfold check_super at 1.
    assert (∀ {A} (m : F A) (k : A → F unit), m s2 = Panic s2 → (m ≫= k) s2 = Panic s2) as Hp
      by (intros A m k H; unfold mbind, M_bind; by rewrite H).
    apply Hp. rewrite run_gets, (ld_super _ _ _ L2).
    destruct (load32_loaded d _ s2 1 0 L2) as [L _]; [set_solver|done..|]. unfold s_magic. rewrite Z.add_0_r in L.
    rewrite (run_bind _ _ _ _ _ L). change (1 * BLKSIZE + 0) with BLKSIZE.
    rewrite (proj2 (Z.eqb_neq _ _)) by done. done.
  - intros Hd. rewrite (run_bind _ _ _ _ _ (check_super_ok d Hd s2 L2)).
    rewrite (run_bind _ _ _ _ _ (diskaddr2 d Hd s2 L2)). set (s3 := set_bitmap (blk_va 2) s2).
    erewrite run_bind by reflexivity. fold s3.
    assert (loaded d {[1]} s3) as L3 by (destruct L2; by split).
    assert (fs_free_pages s3 = fs_free_pages s - 1) as Hpages by apply (at_pages _ _ _ _ _ A1).
    pose proof (fr_pages _ Hfr) as Hfp. fold d in Hfp.
    exists (read_in 2 s3). split; [apply (check_bitmap_ok d Hd); [done|done|lia]|].
    pose proof (loaded_bitmap d Hd s3 L3 eq_refl) as L4.
    destruct (mounted_ok d Hd (read_in 2 s3) L4 eq_refl) as [Hok Hn]; [cbn [read_in fs_free_pages]; lia|].
    split_and!; [done|done|done|]. intros a Ha. by apply (loaded_view d {[1; 2]}).
Qed.

(** C12. Mounting: on a disk with a good super block whose reserved blocks are
    marked, fs_init returns; the disk is as it was, although the self-test wrote
    over its super block; and the server is in the state that all theorems on the
    file system start from, in which it sees exactly the disk.  Without the magic
    number fs_init panics, and the disk is as it was too. *)
Theorem fs_init_mounts s : fresh_server s → bytes_ok (fs_disk s) → 0 < fs_free_pages s →
  buf_ok backup SB → buf_ok local SB →
  (ld32 (fs_disk s) BLKSIZE ≠ FS_MAGIC → ∃ s', fs_init s = Panic s' ∧ mem_eq (fs_disk s') (fs_disk s)) ∧
  (mountable (fs_disk s) → ∃ s', fs_init s = Ret tt s' ∧ fs_ok s' ∧ mem_eq (fs_disk s') (fs_disk s) ∧
    nblocks s' = ld32 (fs_disk s) (BLKSIZE + 4) ∧ ∀ a, in_map a = true → view s' a = ldb (fs_disk s) (a - DISKMAP)).
Proof. apply fs_init_ok. Qed.
End init.

(** ** A disk of eight blocks *)
Module FsInitExample.

Definition disk8 : mem := st32 (st32 (st32 ∅ BLKSIZE FS_MAGIC) (BLKSIZE + 4) 8) (2 * BLKSIZE) 0xf8.
Definition server8 : FsState := mkFs ∅ ∅ ∅ disk8 8 0 0.

Lemma disk8_ok : bytes_ok disk8.
Proof. unfold disk8. apply (bytes_ok_stn 4), (bytes_ok_stn 4), (bytes_ok_stn 4). by intros a. Qed.

Lemma disk8_mountable : mountable disk8.
Proof.
  split; [apply disk8_ok|by vm_compute|by vm_compute|]. intros b Hb.
  assert (b = 0 ∨ b = 1 ∨ b = 2) as Hc by lia. destruct_or! Hc; subst; by vm_compute.
Qed.

Lemma server8_fresh : fresh_server server8.
Proof. by split. Qed.

Lemma stack_buf b : 0 ≤ b < 0x10000 → buf_ok b SB.
Proof.
  intros Hb. split; unfold SB, SIZEOF_SUPER, FILE_SIZE; [lia|]. intros a Ha. unfold in_map, DISKMAP.
  apply andb_false_iff. left. apply Z.leb_gt. lia.
Qed.

Lemma fs_init_mounts_witness : ∃ s', fs_init 0x1000 0x2000 server8 = Ret tt s' ∧ fs_ok s' ∧ nblocks s' = 8.
Proof.
  destruct (fs_init_mounts 0x1000 0x2000 server8) as [_ H];
    [apply server8_fresh|apply disk8_ok|done|by apply stack_buf|by apply stack_buf|].
  destruct (H disk8_mountable) as (s' & H1 & H2 & _ & H3 & _). exists s'. split; [exact H1|]. split; [exact H2|].
  refine (eq_trans H3 _). by vm_compute.
Defined.

End FsInitExample.
