(* ===== verification/Fsformat.v ===== *)
(** * Making a disk image (fs/fsformat.c)

    A program of the host.  [nblocks] and [diskmap] are set once, by main and
    opendisk, and are parameters of what follows them; main's struct Dirs are
    passed and returned.  Memory holds the mapped image and the arrays of
    directory entries.  What the host gives, the answers of open, fstat, read and
    malloc among it, are parameters. *)
From stdpp Require Import gmap.
From S2P Require Import Prelude Mem Printfmt KState Bc Fs.

Definition FTYPE_REG : Z := 0.
Definition MAXFILESIZE : Z := (NDIRECT + NINDIRECT) * BLKSIZE.
Definition MAX_DIR_ENTS : Z := 128.
Definition FLAG_BIN : Z := 1.
Definition FLAG_SBIN : Z := 3.
Definition FLAG_ROOT : Z := 0.

(** ROUNDUP at type uint32_t and at type int. *)
Definition ROUNDUP_u (n v : Z) : Z := u32 (u32 (u32 (n - 1) + v) - u32 (n - 1) mod v).
Definition ROUNDUP_i (n v : Z) : Z := n - 1 + v - Z.rem (n - 1) v.

Record Dir : Type := mkDir { d_f : Z; d_ents : Z; d_n : Z }.

Record ffst : Type := mkFf { ff_mem : mem; diskpos : Z; ff_super : Z; ff_bitmap : Z }.
Definition set_ff_mem (m : mem) (s : ffst) : ffst := mkFf m (diskpos s) (ff_super s) (ff_bitmap s).
Definition set_diskpos (p : Z) (s : ffst) : ffst := mkFf (ff_mem s) p (ff_super s) (ff_bitmap s).
Definition set_ff_super (p : Z) (s : ffst) : ffst := mkFf (ff_mem s) (diskpos s) p (ff_bitmap s).
Definition set_ff_bitmap (p : Z) (s : ffst) : ffst := mkFf (ff_mem s) (diskpos s) (ff_super s) p.

(** A run returns, panics (abort), or leaves with the status of exit(). *)
Notation FF := (M ffst Z).

Definition mem_do (f : mem → mem) : FF unit := modify (λ s, set_ff_mem (f (ff_mem s)) s).
Definition put32 (a v : Z) : FF unit := mem_do (λ m, st32 m a v).
Definition put_list (a : Z) (l : list Z) : FF unit := mem_do (λ m, store_bytes m a l).
Definition strcpy (dst : Z) (l : list Z) : FF unit := put_list dst (l ++ [0]).

(** A file of the host: whether it is a regular file, the size that fstat tells,
    and the results of the reads, [None] for an error; end of file at last. *)
Record hfile : Type := mkHfile { h_reg : bool; h_size : Z; h_reads : list (option (list Z)) }.

(** read() gives (size_t) -1 on an error. *)
Fixpoint readn (out p n : Z) (reads : list (option (list Z))) : FF unit :=
  if n <=? p then mret tt
  else match reads with
       | [] | Some [] :: _ => panic
       | None :: reads => readn out (u64 (p - 1)) n reads
       | Some l :: reads => put_list (out + p) l;; readn out (u64 (p + Z.of_nat (length l))) n reads
       end.

(** The part behind the last slash. *)
Definition base_name (name : list Z) : list Z :=
  foldl (λ acc c, if c =? 47 then [] else acc ++ [c]) [] name.

Section image.
Context (nblocks diskmap : Z).

Definition blockof (pos : Z) : Z := u32 (Z.quot (pos - diskmap) BLKSIZE).

Definition alloc (bytes : Z) : FF Z :=
  start ← gets diskpos;
  modify (set_diskpos (start + ROUNDUP_u bytes BLKSIZE));;
  pos ← gets diskpos;
  if nblocks <=? blockof pos then panic else mret start.

(** The file is there, truncated to nblocks blocks of zeros, and mapped. *)
Definition opendisk (opened : bool) : FF unit :=
  if negb opened then panic
  else
    mem_do (λ m, fill m diskmap (Z.to_nat (nblocks * BLKSIZE)) 0);;
    modify (set_diskpos diskmap);;
    _ ← alloc BLKSIZE;
    sup ← alloc BLKSIZE;
    modify (set_ff_super sup);;
    put32 (s_magic sup) FS_MAGIC;;
    put32 (s_nblocks sup) nblocks;;
    put32 (f_type (s_root sup)) FTYPE_DIR;;
    strcpy (f_name (s_root sup)) [47];;
    let nbitblocks := i32 (u32 (nblocks + BLKBITSIZE - 1) / BLKBITSIZE) in
    bm ← alloc (u32 (nbitblocks * BLKSIZE));
    modify (set_ff_bitmap bm);;
    mem_do (λ m, fill m bm (Z.to_nat (nbitblocks * BLKSIZE)) 0xFF).

Definition finishdisk : FF unit :=
  pos ← gets diskpos;
  for_each 0 (blockof pos) (λ i,
    bm ← gets ff_bitmap;
    mem_do (λ m, let w := bm + 4 * (i / 32) in st32 m w (Z.land (ld32 m w) (Z.lnot (bitmap_bit i))))).

Definition finishfile (f start len : Z) : FF unit :=
  put32 (f_size f) len;;
  let len := ROUNDUP_u len BLKSIZE in
  for_each 0 (Z.min (len / BLKSIZE) NDIRECT) (λ i, put32 (f_direct f i) (u32 (start + i)));;
  if NDIRECT <=? len / BLKSIZE then
    ind ← alloc BLKSIZE;
    put32 (f_indirect f) (blockof ind);;
    for_each NDIRECT (len / BLKSIZE) (λ i, put32 (ind + 4 * (i - NDIRECT)) (u32 (start + i)))
  else mret tt.

Definition startdir (f ents : Z) : Dir := mkDir f ents 0.

Definition diradd (d : Dir) (type : Z) (name : list Z) : FF (Dir * Z) :=
  let out := d_ents d + FILE_SIZE * d_n d in
  let d := mkDir (d_f d) (d_ents d) (d_n d + 1) in
  if MAX_DIR_ENTS <? d_n d then panic
  else
    strcpy (f_name out) name;;
    put32 (f_type out) type;;
    mret (d, out).

Definition finishdir (d : Dir) : FF unit :=
  let size := i32 (d_n d * FILE_SIZE) in
  start ← alloc (u32 size);
  mem_do (λ m, store_bytes m start (load_bytes m (d_ents d) (Z.to_nat size)));;
  finishfile (d_f d) (blockof start) (u32 (ROUNDUP_i size BLKSIZE)).

Section host.
Context (host : list Z → option hfile).

Definition writefile (dir : Dir) (name : list Z) : FF Dir :=
  match host name with
  | None => panic
  | Some h =>
      if negb (h_reg h) then panic
      else if MAXFILESIZE <=? h_size h then panic
      else
        r ← diradd dir FTYPE_REG (base_name name);
        start ← alloc (u32 (h_size h));
        readn start 0 (h_size h) (h_reads h);;
        finishfile (snd r) (blockof start) (u32 (h_size h));;
        mret (fst r)
  end.

(** The loop of main over its arguments, with root, bin and sbin. *)
Definition dirs : Type := Dir * Dir * Dir.
Fixpoint main_loop (flag : Z) (ds : dirs) (args : list (list Z)) : FF dirs :=
  match args with
  | [] => mret ds
  | a :: args =>
      if bool_decide (a = [45; 98]) then main_loop FLAG_BIN ds args
      else if bool_decide (a = [45; 115; 98]) then main_loop FLAG_SBIN ds args
      else
        let '(root, bin, sbin) := ds in
        if flag =? FLAG_ROOT then root ← writefile root a; main_loop flag (root, bin, sbin) args
        else if flag =? FLAG_BIN then bin ← writefile bin a; main_loop flag (root, bin, sbin) args
        else if flag =? FLAG_SBIN then sbin ← writefile sbin a; main_loop flag (root, bin, sbin) args
        else main_loop flag ds args
  end.

(** From opendisk on; malloc gives the three arrays of entries. *)
Definition format (opened : bool) (ents bents sents : Z) (args : list (list Z)) : FF Z :=
  opendisk opened;;
  sup ← gets ff_super;
  let root := startdir (s_root sup) ents in
  rb ← diradd root FTYPE_DIR [98; 105; 110];
  let bin := startdir (snd rb) bents in
  rs ← diradd (fst rb) FTYPE_DIR [115; 98; 105; 110];
  let sbin := startdir (snd rs) sents in
  ds ← main_loop FLAG_ROOT (fst rs, bin, sbin) args;
  finishdir (snd (fst ds));;
  finishdir (snd ds);;
  finishdir (fst (fst ds));;
  finishdisk;;
  mret 0.
End host.
End image.

(** [strtol] gives the number and whether all of the argument was one. *)
Definition fsformat_main (strtol : list Z → Z * bool) (diskmap : Z) (host : list Z → option hfile) (opened : bool)
    (ents bents sents : Z) (argv : list (list Z)) : FF Z :=
  match argv with
  | _ :: _ :: num :: args =>
      let nblocks := u32 (fst (strtol num)) in
      if negb (snd (strtol num)) || (nblocks <? 2) || (10240 <? nblocks) then leave 2
      else format nblocks diskmap host opened ents bents sents args
  | _ => leave 2
  end.
