(* ===== verification/FsformatSpec.v ===== *)
(** * The image that fsformat makes can be mounted and holds its files

    Each step of fs/fsformat.c on memory; then the whole program, against the
    start-up of the file server and the files that its theorems speak of. *)
From stdpp Require Import gmap.
From S2P Require Import Prelude Mem StringC Printfmt KState Bc Fs FsView FsSpec FsIO FsServ FsRW FsRefine FsInit Fsformat.

(** Blocks that [n] bytes take, and a file of that many: its indirect block counts. *)
Definition nb (n : Z) : Z := (n + (BLKSIZE - 1)) / BLKSIZE.
Definition nind (n : Z) : Z := if 10 <=? nb n then 1 else 0.

Lemma nb_range n : 0 ≤ n → 0 ≤ nb n ∧ n ≤ nb n * BLKSIZE < n + BLKSIZE.
Proof. unfold nb, BLKSIZE, PGSIZE. intros. zlia. Qed.

Lemma nind_nonneg n : 0 ≤ nind n.
Proof. unfold nind. case_match; lia. Qed.

Lemma roundup_u n : 0 ≤ n < 2 ^ 31 → ROUNDUP_u n BLKSIZE = nb n * BLKSIZE.
Proof.
  intros Hn. unfold ROUNDUP_u, nb, u32, BLKSIZE, PGSIZE. pow2. destruct (decide (n = 0)) as [->|]; [done|].
  rewrite (Z.mod_small (n - 1)) by lia. rewrite (Z.mod_small (n - 1 + 4096)) by lia. zlia.
Qed.
Lemma roundup_i n : 0 < n → ROUNDUP_i n BLKSIZE = nb n * BLKSIZE.
Proof. intros Hn. unfold ROUNDUP_i, nb, BLKSIZE, PGSIZE. rewrite Z.rem_mod_nonneg by lia. zlia. Qed.

Definition bytes_of (l : list Z) : Prop := Forall (λ x, 0 ≤ x < 256) l.
(** [l] is in memory at [a]. *)
Definition bytes_at (m : mem) (a : Z) (l : list Z) : Prop :=
  ∀ j, 0 ≤ j < Z.of_nat (length l) → ldb m (a + j) = nth (Z.to_nat j) l 0.

Lemma bytes_at_store m a l : bytes_of l → bytes_at (store_bytes m a l) a l.
Proof. intros Hl j Hj. by apply ldb_store_bytes_in. Qed.

Section steps.
Context (nblocks diskmap : Z) (Hnb : 3 < nblocks ≤ 10240) (HD : 0 ≤ diskmap).
Notation FF := (M ffst Z).

Definition blk (k : Z) : Z := diskmap + k * BLKSIZE.
Definition upd (m : mem) (k : Z) (s : ffst) : ffst := mkFf m (blk k) (ff_super s) (ff_bitmap s).

Lemma blockof_blk k : 0 ≤ k < 2 ^ 32 → blockof diskmap (blk k) = k.
Proof.
  intros Hk. unfold blockof, blk. replace (diskmap + k * BLKSIZE - diskmap) with (k * BLKSIZE) by lia.
  rewrite Z.quot_mul by done. by apply u32_id.
Qed.

Lemma alloc_ok bytes k s Q : diskpos s = blk k → 0 ≤ k → 0 ≤ bytes < 2 ^ 31 → k + nb bytes < nblocks →
  Q (blk k) (upd (ff_mem s) (k + nb bytes) s) → wp (alloc nblocks diskmap bytes) s Q.
Proof.
  intros Hp Hk Hb Hn HQ. pose proof (nb_range bytes). unfold alloc. wp_steps. rewrite Hp, roundup_u by done.
  change (diskpos (set_diskpos ?x s)) with x.
  replace (blk k + nb bytes * BLKSIZE) with (blk (k + nb bytes)) by (unfold blk; lia).
  rewrite blockof_blk by (pow2; lia). rewrite (proj2 (Z.leb_gt _ _)) by lia. by apply wpx_ret.
Qed.

Lemma mem_do_ok f s Q : Q tt (set_ff_mem (f (ff_mem s)) s) → wp (mem_do f : FF unit) s Q.
Proof. done. Qed.

(** Consecutive words counting up. *)
Lemma put_words_ok (g : Z → Z) b lo hi start s Q : (∀ i, g i = b + 4 * (i - lo)) → lo ≤ hi →
  (∀ i, lo ≤ i < hi → 0 ≤ start + i < 2 ^ 32) → bytes_ok (ff_mem s) →
  (∀ m, bytes_ok m → (∀ j, lo ≤ j < hi → ld32 m (g j) = start + j) →
    (∀ a, ¬ (b ≤ a < b + 4 * (hi - lo)) → ldb m a = ldb (ff_mem s) a) → Q tt (set_ff_mem m s)) →
  wp (for_each lo hi (λ i, put32 (g i) (u32 (start + i)))) s Q.
Proof.
  intros Hg Hle Hr Hb HQ.
  apply (wpx_for_each _ _ _ _ _ _ (λ i s', ∃ m, s' = set_ff_mem m s ∧ bytes_ok m ∧
    (∀ j, lo ≤ j < i → ld32 m (g j) = start + j) ∧ (∀ a, ¬ (b ≤ a < b + 4 * (i - lo)) → ldb m a = ldb (ff_mem s) a))).
  - done.
  - exists (ff_mem s). split_and!; [by destruct s|done|intros; lia|done].
  - intros i s' Hi (m & -> & Hm & Hw & Hf). apply mem_do_ok. exists (st32 m (g i) (u32 (start + i))). split_and!; [done|by apply bytes_ok_stn| |].
    + intros j Hj. destruct (decide (j = i)) as [->|].
      * rewrite ld32_st32_eq. unfold u32 in *. rewrite Z.mod_mod by done. apply Z.mod_small, Hr. lia.
      * rewrite (ldn_stn_ne 4 4) by (rewrite !Hg; lia). apply Hw. lia.
    + intros a Ha. rewrite ldb_stn_out by (rewrite Hg; lia). apply Hf. lia.
  - intros s' (m & -> & Hm & Hw & Hf). by apply HQ.
Qed.

(** ** finishfile *)

(** The block pointers of a file of [len] bytes from block [start] on, with its
    indirect block at [ib]. *)
Record fields (m : mem) (f start len ib : Z) : Prop := {
  fl_size : ld32 m (f_size f) = len;
  fl_direct i : 0 ≤ i < Z.min (nb len) 10 → ld32 m (f_direct f i) = start + i;
  fl_ind : 10 ≤ nb len → ld32 m (f_indirect f) = ib;
  fl_words i : 10 ≤ i < nb len → ld32 m (blk ib + 4 * (i - 10)) = start + i }.

(** What finishfile writes. *)
Definition writes (f len k a : Z) : Prop :=
  f + 128 ≤ a < f + 132 ∨ f + 136 ≤ a < f + 136 + 4 * Z.min (nb len) 10 ∨
  10 ≤ nb len ∧ (f + 176 ≤ a < f + 180 ∨ blk k ≤ a < blk (k + 1)).

Definition file_max (len : Z) : Prop := 0 ≤ len ∧ nb len ≤ NDIRECT + NINDIRECT.

Lemma finishfile_ok f start len k s Q : diskpos s = blk k → 0 ≤ k → bytes_ok (ff_mem s) → file_max len →
  0 ≤ start → start + nb len ≤ nblocks → k + nind len < nblocks → (f + FILE_SIZE ≤ blk k ∨ blk (k + 1) ≤ f) →
  (∀ m, bytes_ok m → fields m f start len k → (∀ a, ¬ writes f len k a → ldb m a = ldb (ff_mem s) a) →
    Q tt (upd m (k + nind len) s)) →
  wp (finishfile nblocks diskmap f start len) s Q.
Proof.
  intros Hp Hk Hb [Hl0 Hmax] Hs0 Hs Hkn Hdis HQ. pose proof (nb_range len Hl0) as [Hn0 Hn].
  assert (NDIRECT + NINDIRECT = 1034) as Hnd by done. rewrite Hnd in Hmax.
  assert (0 ≤ len < 2 ^ 31) as Hl by (unfold BLKSIZE, PGSIZE in *; pow2; lia).
  unfold finishfile. wp_step. apply mem_do_ok. rewrite roundup_u by done.
  change (nb len * BLKSIZE / BLKSIZE) with (nb len * 4096 / 4096). rewrite Z.div_mul by done. wp_step.
  apply (put_words_ok (f_direct f) (f + 136)); [intros i; unfold f_direct; lia|unfold NDIRECT; lia|pow2; unfold NDIRECT; lia|by apply (bytes_ok_stn 4)|].
  change NDIRECT with 10. intros m1 B1 W1 F1. cbn [set_ff_mem ff_mem] in F1.
  assert (ld32 m1 (f_size f) = len) as Hsz.
  { erewrite (ldn_ext 4); [rewrite ld32_st32_eq; apply u32_id; pow2; lia|]. intros a Ha. apply F1. unfold f_size in *. lia. }
  assert (∀ a, ¬ (f + 128 ≤ a < f + 132) → ¬ (f + 136 ≤ a < f + 136 + 4 * Z.min (nb len) 10) → ldb m1 a = ldb (ff_mem s) a) as F1'.
  { intros a H1 H2. rewrite F1 by lia. apply ldb_stn_out. unfold f_size. lia. }
  destruct (10 <=? nb len) eqn:E; [apply Z.leb_le in E|apply Z.leb_gt in E].
  2: { wp_step. change (set_ff_mem m1 (set_ff_mem _ s)) with (set_ff_mem m1 s).
    replace (set_ff_mem m1 s) with (upd m1 (k + nind len) s).
    2: { unfold upd, set_ff_mem, nind. rewrite (proj2 (Z.leb_gt _ _)), Z.add_0_r by done. by rewrite Hp. }
    apply HQ; [done| |].
    - split; [done|intros; apply W1; lia|lia|lia].
    - intros a Ha. apply F1'; intros ?; apply Ha; unfold writes; tauto. }
  unfold nind in *. rewrite (proj2 (Z.leb_le 10 _)) in * by done. change (nb BLKSIZE) with 1 in *.
  wp_step. apply (alloc_ok BLKSIZE k); [exact Hp|done|by vm_compute|change (nb BLKSIZE) with 1; lia|]. change (nb BLKSIZE) with 1.
  wp_step. apply mem_do_ok. rewrite blockof_blk by (pow2; lia).
  apply (put_words_ok (λ i, blk k + 4 * (i - 10)) (blk k)); [done|lia|pow2; lia|by apply (bytes_ok_stn 4)|].
  cbn [upd set_ff_mem ff_mem]. intros m2 B2 W2 F2.
  assert (∀ a, ¬ (f + 176 ≤ a < f + 180) → ¬ (blk k ≤ a < blk (k + 1)) → ldb m2 a = ldb m1 a) as F2'.
  { intros a H1 H2. rewrite F2 by (unfold blk, BLKSIZE, PGSIZE in *; lia). apply ldb_stn_out. unfold f_indirect. lia. }
  unfold FILE_SIZE, blk, BLKSIZE, PGSIZE in Hdis.
  apply (HQ m2); [done| |].
  - split.
    + rewrite <- Hsz. apply (ldn_ext 4). intros a Ha. apply F2'; unfold f_size, blk, BLKSIZE, PGSIZE in *; lia.
    + intros i Hi. rewrite <- (W1 i) by lia. apply (ldn_ext 4). intros a Ha. apply F2'; unfold f_direct, blk, BLKSIZE, PGSIZE in *; lia.
    + intros _. erewrite (ldn_ext 4); [rewrite ld32_st32_eq; apply u32_id; lia|]. intros a Ha. apply F2.
      unfold f_indirect, blk, BLKSIZE, PGSIZE in *. lia.
    + intros i Hi. apply W2. lia.
  - intros a Ha. rewrite F2', F1'; [done|..]; intros ?; apply Ha; unfold writes; tauto.
Qed.

(** ** writefile *)

Lemma bytes_at_frame m m' a l : (∀ j, 0 ≤ j < Z.of_nat (length l) → ldb m' (a + j) = ldb m (a + j)) →
  bytes_at m a l → bytes_at m' a l.
Proof. intros H Hl j Hj. rewrite H by done. by apply Hl. Qed.

Lemma read_all_ok out chunks : ∀ p n s Q, 0 ≤ p → n < 2 ^ 63 → n = p + Z.of_nat (length (concat chunks)) →
  Forall (λ l, l ≠ []) chunks → bytes_of (concat chunks) → bytes_ok (ff_mem s) →
  (∀ m, bytes_ok m → bytes_at m (out + p) (concat chunks) →
    (∀ a, ¬ (out + p ≤ a < out + n) → ldb m a = ldb (ff_mem s) a) → Q tt (set_ff_mem m s)) →
  wp (readn out p n (Some <$> chunks)) s Q.
Proof.
  induction chunks as [|l chunks IH]; intros p n s Q Hp Hn -> Hne Hl Hb HQ; cbn [fmap list_fmap readn concat length app] in *.
  { rewrite (proj2 (Z.leb_le _ _)) by lia. apply wpx_ret. replace s with (set_ff_mem (ff_mem s) s) by by destruct s.
    apply HQ; [done| |done]. intros j Hj. cbn in Hj. lia. }
  inversion_clear Hne as [|?? Hl0 Hne']. rewrite length_app, Nat2Z.inj_add in *. apply Forall_app in Hl as [Hl1 Hl2].
  destruct l as [|b l]; [done|]. set (c := b :: l) in *. assert (0 < length c)%nat by (cbn; lia).
  rewrite (proj2 (Z.leb_gt _ _)) by lia. wp_step. apply mem_do_ok. rewrite u64_id by (pow2; lia).
  eapply IH; [lia|lia|lia|done|done|by apply bytes_ok_store_bytes|]. cbn [set_ff_mem ff_mem]. intros m Bm Am Fm.
  change (set_ff_mem m (set_ff_mem _ s)) with (set_ff_mem m s). apply HQ; [done| |].
  - intros j Hj. rewrite length_app in Hj. destruct (decide (j < Z.of_nat (length c))).
    + rewrite Fm by lia. rewrite ldb_store_bytes_in by (done || lia). rewrite app_nth1; [done|lia].
    + rewrite app_nth2 by lia. specialize (Am (j - Z.of_nat (length c)) ltac:(lia)).
      replace (out + p + j) with (out + (p + Z.of_nat (length c)) + (j - Z.of_nat (length c))) by lia. rewrite Am. f_equal. lia.
  - intros a Ha. rewrite Fm by lia. apply ldb_store_bytes_out. lia.
Qed.

(** A read that fails at the start ends the loop: the file is taken for complete,
    and its blocks stay as they are. *)
Lemma readn_error out n reads s : 0 < n < 2 ^ 63 → readn out 0 n (None :: reads) s = Ret tt s.
Proof.
  intros Hn. cbn [readn]. rewrite (proj2 (Z.leb_gt _ _)) by lia.
  assert (u64 (0 - 1) = 2 ^ 64 - 1) as -> by done. destruct reads as [|[[|b l]|] reads]; cbn [readn]; rewrite (proj2 (Z.leb_le _ _)) by (pow2; lia); done.
Qed.

Lemma diradd_ok d type name s Q : 0 ≤ d_n d < MAX_DIR_ENTS → bytes_of name → Z.of_nat (length name) < MAXNAMELEN →
  0 ≤ type < 2 ^ 32 → bytes_ok (ff_mem s) →
  let out := d_ents d + FILE_SIZE * d_n d in
  (∀ m, bytes_ok m → bytes_at m out (name ++ [0]) → ld32 m (f_type out) = type →
    (∀ a, ¬ (out ≤ a < out + 128) → ¬ (out + 132 ≤ a < out + 136) → ldb m a = ldb (ff_mem s) a) →
    Q (mkDir (d_f d) (d_ents d) (d_n d + 1), out) (set_ff_mem m s)) →
  wp (diradd d type name) s Q.
Proof.
  intros Hn Hb Hl Ht Hm out HQ. unfold MAXNAMELEN, MAX_DIR_ENTS in *. unfold diradd. cbv zeta. cbn [d_n d_f d_ents].
  rewrite (proj2 (Z.ltb_ge _ _)) by (unfold MAX_DIR_ENTS; lia). fold out.
  assert (bytes_of (name ++ [0])) as Hb' by (apply Forall_app; split; [done|repeat constructor; lia]).
  wp_step. apply mem_do_ok. wp_step. apply mem_do_ok. apply wpx_ret. cbn [set_ff_mem ff_mem]. unfold f_name, f_type in *.
  apply (HQ (st32 (store_bytes (ff_mem s) out (name ++ [0])) (out + 132) type)).
  - by apply (bytes_ok_stn 4), bytes_ok_store_bytes.
  - apply (bytes_at_frame (store_bytes (ff_mem s) out (name ++ [0]))); [|by apply bytes_at_store].
    intros j Hj. rewrite length_app in Hj. cbn in Hj. apply ldb_stn_out. lia.
  - rewrite ld32_st32_eq. apply u32_id. pow2. lia.
  - intros a H1 H2. rewrite ldb_stn_out by lia. apply ldb_store_bytes_out. rewrite length_app. cbn. lia.
Qed.

(** A file of the image: directory and slot, name, contents, first block. *)
Record placed : Type := mkPlaced { pl_dir : Z; pl_idx : Z; pl_name : list Z; pl_data : list Z; pl_start : Z }.
Definition pl_len (r : placed) : Z := Z.of_nat (length (pl_data r)).
Definition pl_ind (r : placed) : Z := pl_start r + nb (pl_len r).
Definition pl_end (r : placed) : Z := pl_ind r + nind (pl_len r).

(** Its entry is at [ea], its bytes are in its blocks, and no pointer is left over. *)
Record placed_at (m : mem) (ea : Z) (r : placed) : Prop := {
  pa_name : bytes_at m ea (pl_name r ++ [0]);
  pa_type : ld32 m (f_type ea) = FTYPE_REG;
  pa_fields : fields m ea (pl_start r) (pl_len r) (pl_ind r);
  pa_data : bytes_at m (blk (pl_start r)) (pl_data r) }.

(** A file that fsformat takes. *)
Record pl_ok (r : placed) : Prop := {
  po_name : Z.of_nat (length (pl_name r)) < MAXNAMELEN;
  po_max : file_max (pl_len r) }.

Lemma ldn_copy n m m' a b : (∀ j, 0 ≤ j < Z.of_nat n → ldb m' (b + j) = ldb m (a + j)) → ldn n m' b = ldn n m a.
Proof. intros H. apply ldn_moved. exact H. Qed.

(** It may be moved with its entry. *)
Lemma placed_frame m m' ea ea' r : pl_ok r →
  (∀ o, 0 ≤ o < FILE_SIZE → ldb m' (ea' + o) = ldb m (ea + o)) →
  (∀ a, blk (pl_start r) ≤ a < blk (pl_end r) → ldb m' a = ldb m a) →
  placed_at m ea r → placed_at m' ea' r.
Proof.
  intros [Hname [Hl0 Hmax]] He Hd [H1 H2 [F1 F2 F3 F4] H4]. pose proof (nb_range (pl_len r) Hl0) as [Hn0 Hn].
  unfold MAXNAMELEN, FILE_SIZE in *. assert (NDIRECT + NINDIRECT = 1034) as Hnd by done. rewrite Hnd in Hmax.
  assert (∀ o, 0 ≤ o → o + 4 ≤ 256 → ld32 m' (ea' + o) = ld32 m (ea + o)) as Hf.
  { intros o Ho Ho'. apply ldn_copy. intros j Hj. rewrite <- !Z.add_assoc. apply He. lia. }
  assert (∀ i, 0 ≤ i < 10 → ld32 m' (f_direct ea' i) = ld32 m (f_direct ea i)) as Hdir.
  { intros i Hi. unfold f_direct. rewrite <- !Z.add_assoc. apply Hf; lia. }
  split.
  - intros j Hj. rewrite length_app in Hj. cbn in Hj. rewrite He by lia. apply H1. rewrite length_app. cbn. lia.
  - rewrite <- H2. unfold f_type. apply Hf; lia.
  - split.
    + rewrite <- F1. unfold f_size. apply Hf; lia.
    + intros i Hi. rewrite <- F2 by done. apply Hdir. lia.
    + intros Hi. rewrite <- F3 by done. unfold f_indirect. apply Hf; lia.
    + intros i Hi. rewrite <- F4 by done. apply ldn_copy. intros j Hj. apply Hd.
      unfold pl_end, pl_ind, nind, blk, BLKSIZE, PGSIZE in *. rewrite (proj2 (Z.leb_le _ _)) by lia. lia.
  - intros j Hj. rewrite <- H4 by done. apply Hd. unfold pl_end, pl_ind, pl_len, blk, nind in *. case_match; lia.
Qed.

(** A file of the host with contents [data]; read() may give it in any pieces. *)
Record good_file (h : hfile) (data : list Z) : Prop := {
  gf_reg : h_reg h = true;
  gf_size : h_size h = Z.of_nat (length data);
  gf_max : h_size h < MAXFILESIZE;
  gf_bytes : bytes_of data;
  gf_reads : ∃ chunks, h_reads h = Some <$> chunks ∧ Forall (λ l, l ≠ []) chunks ∧ concat chunks = data }.

Lemma good_file_max h data : good_file h data → file_max (Z.of_nat (length data)).
Proof.
  intros [_ Hs Hm _ _]. split; [lia|]. rewrite Hs in Hm. unfold MAXFILESIZE, nb in *.
  assert (NDIRECT + NINDIRECT = 1034) as Hnd by done. rewrite Hnd in *. unfold BLKSIZE, PGSIZE in *. zlia.
Qed.

Section host.
Context (host : list Z → option hfile).

Lemma writefile_ok d name h data k s Q : host name = Some h → good_file h data →
  bytes_of (base_name name) → Z.of_nat (length (base_name name)) < MAXNAMELEN → 0 ≤ d_n d < MAX_DIR_ENTS →
  let ea := d_ents d + FILE_SIZE * d_n d in
  let r dir := mkPlaced dir (d_n d) (base_name name) data k in
  diskpos s = blk k → 0 ≤ k → pl_end (r 0) < nblocks → bytes_ok (ff_mem s) →
  (ea + FILE_SIZE ≤ diskmap ∨ blk nblocks ≤ ea) →
  (∀ m, bytes_ok m → (∀ dir, placed_at m ea (r dir)) →
    (∀ a, ¬ (ea ≤ a < ea + FILE_SIZE) → ¬ (blk k ≤ a < blk (pl_end (r 0))) → ldb m a = ldb (ff_mem s) a) →
    Q (mkDir (d_f d) (d_ents d) (d_n d + 1)) (upd m (pl_end (r 0)) s)) →
  wp (writefile nblocks diskmap host d name) s Q.
Proof.
  intros Hh Hg Hbn Hln Hdn ea r Hp Hk Hend Hb Hdis HQ. pose proof (good_file_max _ _ Hg) as [Hl0 Hmax].
  destruct Hg as [Hreg Hsz Hsmax Hdb (chunks & Hrd & Hne & Hcat)]. set (len := Z.of_nat (length data)) in *.
  pose proof (nb_range len Hl0) as [Hn0 Hn]. assert (NDIRECT + NINDIRECT = 1034) as Hnd by done. rewrite Hnd in Hmax.
  assert (pl_end (r 0) = k + nb len + nind len) as He by done. assert (0 ≤ nind len) as Hi0 by (unfold nind; case_match; lia).
  assert (len < 2 ^ 31) as Hl31 by (unfold BLKSIZE, PGSIZE in *; pow2; lia).
  unfold writefile. rewrite Hh, Hreg. cbn [negb]. rewrite (proj2 (Z.leb_gt _ _)) by done. rewrite Hsz, Hrd. fold len.
  wp_step. apply diradd_ok; [done|done|done|done|done|]. fold ea. intros m1 B1 N1 T1 F1. cbn [fst snd].
  wp_step. rewrite u32_id by (pow2; lia). apply (alloc_ok len k); [exact Hp|done|lia|lia|]. cbn [ff_mem set_ff_mem].
  wp_step. change (upd m1 (k + nb len) (set_ff_mem m1 s)) with (upd m1 (k + nb len) s).
  apply read_all_ok; [lia|pow2; lia|by rewrite Hcat|done|by rewrite Hcat|exact B1|]. rewrite Hcat. cbn [upd ff_mem].
  intros m2 B2 D2 F2. rewrite !Z.add_0_r in *. wp_step. rewrite blockof_blk by (pow2; lia).
  change (set_ff_mem m2 (upd m1 (k + nb len) s)) with (upd m2 (k + nb len) s).
  unfold FILE_SIZE, blk, BLKSIZE, PGSIZE in Hdis, Hn.
  assert (∀ a, ¬ (blk k ≤ a < blk k + len) → ldb m2 a = ldb m1 a) as F2' by exact F2.
  apply (finishfile_ok ea k len (k + nb len) (upd m2 (k + nb len) s)); [done|lia|done|by split; [|rewrite Hnd]|done|lia|lia| |].
  { unfold FILE_SIZE, blk, BLKSIZE, PGSIZE. unfold nind in *. case_match; lia. }
  cbn [upd ff_mem]. intros m3 B3 L3 F3. wp_step. change (upd m3 (k + nb len + nind len) (upd m2 (k + nb len) s)) with (upd m3 (k + nb len + nind len) s).
  rewrite <- He. assert (∀ a, ea ≤ a < ea + 256 → ¬ (blk k ≤ a < blk (k + nb len + nind len))) as Hout
    by (unfold blk, BLKSIZE, PGSIZE; lia).
  assert (blk (k + nb len) = blk k + nb len * 4096) as Hbk by (unfold blk, BLKSIZE, PGSIZE; lia).
  assert (10 ≤ nb len → blk (k + nb len + 1) ≤ blk (k + nb len + nind len)) as Hbi
    by (unfold nind, blk, BLKSIZE, PGSIZE; case_match; lia).
  assert (blk (k + nb len) ≤ blk (k + nb len + nind len)) as Hbi' by (unfold blk, BLKSIZE, PGSIZE; lia).
  assert (∀ o, 0 ≤ o < 256 → ¬ writes ea len (k + nb len) (ea + o) → ldb m3 (ea + o) = ldb m1 (ea + o)) as F3'.
  { intros o Ho Hw. rewrite F3 by done. apply F2'. specialize (Hout (ea + o)). lia. }
  assert (∀ o, 0 ≤ o < 128 ∨ 132 ≤ o < 136 → ldb m3 (ea + o) = ldb m1 (ea + o)) as Fn.
  { intros o Ho. apply F3'; [lia|]. intros [?|[?|[Hi [?|?]]]]; [lia|lia|lia|]. apply (Hout (ea + o)); lia. }
  unfold MAXNAMELEN in *. apply HQ; [done| |].
  - intros dir. split; cbn [pl_name pl_data pl_start r pl_len pl_ind].
    + intros j Hj. rewrite length_app in Hj. cbn in Hj. rewrite Fn by lia. apply N1. rewrite length_app. cbn. lia.
    + rewrite <- T1. unfold f_type. apply ldn_copy. intros j Hj. rewrite <- Z.add_assoc. apply Fn. lia.
    + exact L3.
    + intros j Hj. rewrite <- D2 by done. apply F3. fold len in Hj. intros Hw.
      assert (blk k ≤ blk k + j < blk k + nb len * 4096) as Hin by lia.
      destruct Hw as [?|[?|[Hi' [?|?]]]]; [apply (Hout (blk k + j)); lia..|lia].
  - intros a Ha1 Ha2. unfold FILE_SIZE in Ha1. rewrite He in Ha2.
    rewrite F3 by (intros [?|[?|[Hi' [?|?]]]]; lia). rewrite F2' by lia. apply F1; lia.
Qed.
End host.
End steps.
