(* ===== verification/FsformatRun.v ===== *)
(** * The run of fsformat: its loop over the arguments, its directories

    What is in memory after each step, for any list of arguments and files that fit
    the disk. *)
From stdpp Require Import gmap.
From S2P Require Import Prelude Mem StringC Printfmt KState Bc Fs Fsformat FsformatSpec.

(** The directories are named by the flags. *)
Definition is_dir (d : Z) : Prop := d = FLAG_ROOT ∨ d = FLAG_BIN ∨ d = FLAG_SBIN.
(** Slots of the root directory that hold /bin and /sbin. *)
Definition first_slot (d : Z) : Z := if d =? FLAG_ROOT then 2 else 0.
Definition DIR_BYTES : Z := MAX_DIR_ENTS * FILE_SIZE.

(** The files that the arguments ask for, each with its directory. *)
Fixpoint wanted (flag : Z) (args : list (list Z)) : list (Z * list Z) :=
  match args with
  | [] => []
  | a :: args =>
      if bool_decide (a = [45; 98]) then wanted FLAG_BIN args
      else if bool_decide (a = [45; 115; 98]) then wanted FLAG_SBIN args
      else (flag, a) :: wanted flag args
  end.

Definition count (d : Z) (ws : list (Z * list Z)) : Z := Z.of_nat (length (filter (λ w, w.1 = d) ws)).

Lemma count_cons d w ws : count d (w :: ws) = (if decide (w.1 = d) then 1 else 0) + count d ws.
Proof. unfold count. rewrite filter_cons. case_decide; cbn [length]; lia. Qed.
Lemma count_nonneg d ws : 0 ≤ count d ws.
Proof. unfold count. lia. Qed.

Lemma first_slot_nonneg d : 0 ≤ first_slot d.
Proof. unfold first_slot. case_match; lia. Qed.

Section run.
Context (nblocks diskmap : Z) (Hnb : 3 < nblocks ≤ 10240) (HD : 0 ≤ diskmap).
Context (ents : Z → Z) (host : list Z → option hfile) (content : list Z → list Z).
Notation blk := (blk diskmap).
Notation placed_at := (placed_at diskmap).
Notation upd := (upd diskmap).

(** The arrays of entries are apart from the image and from each other. *)
Context (Hheap : ∀ d, is_dir d → ents d + DIR_BYTES ≤ diskmap ∨ blk nblocks ≤ ents d).
Context (Hapart : ∀ d d', is_dir d → is_dir d' → d ≠ d' → ents d + DIR_BYTES ≤ ents d' ∨ ents d' + DIR_BYTES ≤ ents d).

Definition len_of (p : list Z) : Z := Z.of_nat (length (content p)).
Definition need (ws : list (Z * list Z)) : Z := foldr (λ w n, nb (len_of w.2) + nind (len_of w.2) + n) 0 ws.
(** A file that fsformat takes. *)
Definition takes (w : Z * list Z) : Prop :=
  (∃ h, host w.2 = Some h ∧ good_file h (content w.2)) ∧
  bytes_of (base_name w.2) ∧ Z.of_nat (length (base_name w.2)) < MAXNAMELEN.

Definition key (r : placed) : Z * list Z * list Z := (pl_dir r, pl_name r, pl_data r).
Definition wkey (w : Z * list Z) : Z * list Z * list Z := (w.1, base_name w.2, content w.2).

(** File [r] when the entries of directory [d] start at [W d], and blocks below [k]
    are given out. *)
Record rec_ok (W cnt : Z → Z) (k : Z) (m : mem) (r : placed) : Prop := {
  rc_dir : is_dir (pl_dir r);
  rc_idx : first_slot (pl_dir r) ≤ pl_idx r < cnt (pl_dir r);
  rc_start : 3 ≤ pl_start r;
  rc_end : pl_end r ≤ k;
  rc_ok : pl_ok r;
  rc_at : placed_at m (W (pl_dir r) + FILE_SIZE * pl_idx r) r }.

(** [r'] came later than [r]. *)
Definition later (r' r : placed) : Prop :=
  pl_end r ≤ pl_start r' ∧ (pl_dir r = pl_dir r' → pl_idx r < pl_idx r').

Definition recs_ok (W cnt : Z → Z) (k : Z) (recs : list placed) (m : mem) : Prop :=
  bytes_ok m ∧ Forall (rec_ok W cnt k m) recs ∧ ForallOrdPairs later recs.

(** What the files do not touch: super block, bitmap, the entries of /bin and /sbin. *)
Definition kept (a : Z) : Prop := blk 0 ≤ a < blk 3 ∨ ents FLAG_ROOT ≤ a < ents FLAG_ROOT + 2 * FILE_SIZE.

(** No slot is left out. *)
Definition covered (cnt : Z → Z) (recs : list placed) : Prop := ∀ d i, is_dir d → first_slot d ≤ i < cnt d →
  ∃ r, r ∈ recs ∧ pl_dir r = d ∧ pl_idx r = i.

Record Inv (m0 : mem) (cnt : Z → Z) (k : Z) (recs : list placed) (m : mem) : Prop := {
  iv_recs : recs_ok ents cnt k recs m;
  iv_cover : covered cnt recs;
  iv_k : 3 ≤ k;
  iv_cnt d : is_dir d → first_slot d ≤ cnt d;
  iv_kept a : kept a → ldb m a = ldb m0 a }.

(** The struct Dirs of main. *)
Definition dir_file (d : Z) : Z :=
  if d =? FLAG_ROOT then s_root (blk 1) else if d =? FLAG_BIN then ents FLAG_ROOT else ents FLAG_ROOT + FILE_SIZE.
Definition dir_of (cnt : Z → Z) (d : Z) : Dir := mkDir (dir_file d) (ents d) (cnt d).
Definition dirs_of (cnt : Z → Z) : dirs := (dir_of cnt FLAG_ROOT, dir_of cnt FLAG_BIN, dir_of cnt FLAG_SBIN).

Lemma pl_end_start r : pl_ok r → pl_start r ≤ pl_ind r ≤ pl_end r.
Proof.
  intros [_ [H _]]. pose proof (nb_range _ H). unfold pl_end, pl_ind, nind. case_match; lia.
Qed.

(** Slots of different files are apart, and apart from the image. *)
Lemma slots_apart d i d' i' : is_dir d → is_dir d' → 0 ≤ i < MAX_DIR_ENTS → 0 ≤ i' < MAX_DIR_ENTS → d ≠ d' ∨ i ≠ i' →
  ents d + FILE_SIZE * i + FILE_SIZE ≤ ents d' + FILE_SIZE * i' ∨ ents d' + FILE_SIZE * i' + FILE_SIZE ≤ ents d + FILE_SIZE * i.
Proof.
  intros Hd Hd' Hi Hi' Hne. unfold DIR_BYTES, MAX_DIR_ENTS, FILE_SIZE in *. destruct (decide (d = d')) as [<-|Hdd].
  - destruct Hne; [done|]. lia.
  - specialize (Hapart d d' Hd Hd' Hdd). lia.
Qed.
Lemma slot_off_disk d i : is_dir d → 0 ≤ i < MAX_DIR_ENTS →
  ents d + FILE_SIZE * i + FILE_SIZE ≤ diskmap ∨ blk nblocks ≤ ents d + FILE_SIZE * i.
Proof. intros Hd Hi. specialize (Hheap d Hd). unfold DIR_BYTES, MAX_DIR_ENTS, FILE_SIZE in *. lia. Qed.

(** A change that misses the slots and blocks of all files. *)
Lemma recs_frame W cnt k k' recs m m' : bytes_ok m' → k ≤ k' → recs_ok W cnt k recs m →
  (∀ r, rec_ok W cnt k m r → (∀ o, 0 ≤ o < FILE_SIZE → ldb m' (W (pl_dir r) + FILE_SIZE * pl_idx r + o) = ldb m (W (pl_dir r) + FILE_SIZE * pl_idx r + o)) ∧
    (∀ a, blk (pl_start r) ≤ a < blk (pl_end r) → ldb m' a = ldb m a)) →
  recs_ok W cnt k' recs m'.
Proof.
  intros Hb Hk (_ & Hrs & Hord) Hf. split_and!; [done| |done]. eapply Forall_impl; [|exact Hrs]. intros r Hr.
  destruct (Hf r Hr) as [H1 H2]. destruct Hr. split; [done..|lia|done|]. by eapply placed_frame.
Qed.

Section file.
Context (m0 : mem) (cnt : Z → Z) (k : Z) (recs : list placed) (m : mem) (Hinv : Inv m0 cnt k recs m).
Context (d : Z) (Hd : is_dir d) (Hcnt : cnt d < MAX_DIR_ENTS).
Context (r : placed) (Hr : pl_ok r) (Hrd : pl_dir r = d) (Hri : pl_idx r = cnt d) (Hrs : pl_start r = k).
Context (Hend : pl_end r < nblocks).
Notation ea := (ents d + FILE_SIZE * cnt d).
Context (m' : mem) (Hb : bytes_ok m') (Hat : placed_at m' ea r).
Context (Hf : ∀ a, ¬ (ea ≤ a < ea + FILE_SIZE) → ¬ (blk k ≤ a < blk (pl_end r)) → ldb m' a = ldb m a).
Context (cnt' : Z → Z) (Hcnt' : ∀ x, cnt' x = cnt x + (if decide (d = x) then 1 else 0)).

Lemma disk_frame a : blk 0 ≤ a < blk k → ldb m' a = ldb m a.
Proof using All.
  intros Ha. pose proof (iv_cnt _ _ _ _ _ Hinv d Hd) as Hc. pose proof (slot_off_disk d (cnt d) Hd) as Hs.
  pose proof (pl_end_start r Hr). pose proof (first_slot_nonneg d).
  unfold FsformatSpec.blk, FILE_SIZE, BLKSIZE, PGSIZE in *. apply Hf; lia.
Qed.

Lemma slot_frame x i o : is_dir x → 0 ≤ i < MAX_DIR_ENTS → x ≠ d ∨ i ≠ cnt d → 0 ≤ o < FILE_SIZE →
  ldb m' (ents x + FILE_SIZE * i + o) = ldb m (ents x + FILE_SIZE * i + o).
Proof using All.
  intros Hx Hi Hne Ho. pose proof (iv_cnt _ _ _ _ _ Hinv d Hd) as Hc. pose proof (iv_k _ _ _ _ _ Hinv).
  pose proof (first_slot_nonneg d). pose proof (pl_end_start r Hr).
  pose proof (slots_apart x i d (cnt d) Hx Hd Hi ltac:(lia) ltac:(lia)) as Hap.
  pose proof (slot_off_disk x i Hx Hi) as Hs. unfold FsformatSpec.blk, FILE_SIZE, BLKSIZE, PGSIZE in *. apply Hf; lia.
Qed.

Lemma Inv_file : (∀ x, is_dir x → cnt x ≤ MAX_DIR_ENTS) → Inv m0 cnt' (pl_end r) (r :: recs) m'.
Proof using All.
  intros Hmax. pose proof (iv_k _ _ _ _ _ Hinv) as Hk. pose proof (pl_end_start r Hr) as Hpe.
  pose proof (iv_recs _ _ _ _ _ Hinv) as Hrec. destruct Hrec as (Hbm & Hall & Hord).
  split.
  - assert (recs_ok ents cnt (pl_end r) recs m') as (_ & Hall' & _).
    { apply (recs_frame ents cnt k (pl_end r) recs m); [done|lia|done|]. intros q [].
      pose proof (first_slot_nonneg (pl_dir q)). specialize (Hmax _ rc_dir0). split.
      - intros o Ho. apply slot_frame; [done|lia| |done]. destruct (decide (pl_dir q = d)) as [He|]; [right; rewrite He in *; lia|by left].
      - intros a Ha. apply disk_frame. pose proof (pl_end_start q rc_ok0).
        unfold FsformatSpec.blk, BLKSIZE, PGSIZE in *. lia. }
    split_and!; [done| |].
    + constructor.
      * split; [by rewrite Hrd| |lia|lia|done|by rewrite Hrd, Hri]. rewrite Hrd, Hri, Hcnt', decide_True by done.
        pose proof (iv_cnt _ _ _ _ _ Hinv d Hd). lia.
      * eapply Forall_impl; [|exact Hall']. intros q []. split; [done| |done..]. rewrite Hcnt'. case_decide; lia.
    + constructor; [|done]. eapply Forall_impl; [|exact Hall]. intros q [_ Hi _ He _ _]. split; [lia|]. intros Heq. rewrite Heq, Hrd in Hi. lia.
  - intros x i Hx Hi. rewrite Hcnt' in Hi. destruct (decide (d = x ∧ i = cnt d)) as [[<- ->]|Hne].
    + exists r. split; [by left|done].
    + destruct (iv_cover _ _ _ _ _ Hinv x i Hx) as (q & Hq & Hq1 & Hq2); [destruct (decide (d = x)) as [<-|]; [|lia]; split; [lia|]|exists q; split; [by right|done]].
      assert (i ≠ cnt d) by (intros ->; by apply Hne). lia.
  - lia.
  - intros x Hx. pose proof (iv_cnt _ _ _ _ _ Hinv x Hx). rewrite Hcnt'. case_decide; lia.
  - intros a Ha. rewrite <- (iv_kept _ _ _ _ _ Hinv a Ha). destruct Ha as [Ha|Ha].
    + apply disk_frame. unfold FsformatSpec.blk, BLKSIZE, PGSIZE in *. lia.
    + replace a with (ents FLAG_ROOT + FILE_SIZE * ((a - ents FLAG_ROOT) / FILE_SIZE) + (a - ents FLAG_ROOT) mod FILE_SIZE) by (unfold FILE_SIZE; zlia).
      pose proof (iv_cnt _ _ _ _ _ Hinv d Hd) as Hc. apply slot_frame; [by left| | |]; unfold FILE_SIZE, MAX_DIR_ENTS in *; [zlia| |zlia].
      unfold first_slot in Hc. destruct (d =? FLAG_ROOT) eqn:E; [apply Z.eqb_eq in E|apply Z.eqb_neq in E; left; congruence].
      right. zlia.
Qed.
End file.

(** ** The loop over the arguments *)

Lemma writefile_inv m0 cnt k recs s d a Q : Inv m0 cnt k recs (ff_mem s) → diskpos s = blk k → is_dir d → takes (d, a) →
  (∀ x, is_dir x → cnt x ≤ MAX_DIR_ENTS) → cnt d < MAX_DIR_ENTS →
  let k' := k + nb (len_of a) + nind (len_of a) in k' < nblocks →
  (∀ cnt' m r, (∀ x, cnt' x = cnt x + (if decide (d = x) then 1 else 0)) → Inv m0 cnt' k' (r :: recs) m →
    key r = wkey (d, a) → Q (dir_of cnt' d) (upd m k' s)) →
  wp (writefile nblocks diskmap host (dir_of cnt d) a) s Q.
Proof.
  intros Hinv Hp Hd ((h & Hh & Hg) & Hbn & Hln) Hmax Hc k' Hk HQ. cbn [fst snd] in *.
  pose proof (iv_k _ _ _ _ _ Hinv) as Hk3. pose proof (iv_cnt _ _ _ _ _ Hinv d Hd) as Hc0. pose proof (first_slot_nonneg d).
  set (r := mkPlaced d (cnt d) (base_name a) (content a) k).
  apply (writefile_ok nblocks diskmap Hnb host (dir_of cnt d) a h (content a) k s);
    cbn [dir_of d_n d_ents d_f]; try done; [lia|lia|apply Hinv|apply slot_off_disk; [done|lia]|].
  - intros m Bm Hat Hf. change (pl_end _) with (pl_end r) in *. set (cnt' := λ x, cnt x + (if decide (d = x) then 1 else 0)).
    assert (cnt d + 1 = cnt' d) as Hc' by (unfold cnt'; by rewrite decide_True).
    change (mkDir (dir_file d) (ents d) (cnt d + 1)) with (mkDir (dir_file d) (ents d) (cnt d + 1)). rewrite Hc'.
    apply (HQ cnt' m r); [done| |done].
    apply (Inv_file m0 cnt k recs (ff_mem s) Hinv d Hd Hc r); try done.
    + split; [done|]. exact (good_file_max _ _ Hg).
    + apply Hat.
Qed.

Lemma dirs_of_set cnt cnt' d : is_dir d → (∀ x, cnt' x = cnt x + (if decide (d = x) then 1 else 0)) →
  dirs_of cnt' = (if d =? FLAG_ROOT then (dir_of cnt' d, dir_of cnt FLAG_BIN, dir_of cnt FLAG_SBIN)
                  else if d =? FLAG_BIN then (dir_of cnt FLAG_ROOT, dir_of cnt' d, dir_of cnt FLAG_SBIN)
                  else (dir_of cnt FLAG_ROOT, dir_of cnt FLAG_BIN, dir_of cnt' d)).
Proof.
  intros Hd He. unfold dirs_of, dir_of. destruct Hd as [->|[->| ->]]; cbn [Z.eqb FLAG_ROOT FLAG_BIN FLAG_SBIN Pos.eqb];
    rewrite !He; cbn; rewrite ?Z.add_0_r; done.
Qed.

Lemma main_loop_ok m0 args : ∀ flag cnt k recs s Q, is_dir flag → Forall takes (wanted flag args) →
  Inv m0 cnt k recs (ff_mem s) → diskpos s = blk k →
  (∀ d, is_dir d → cnt d + count d (wanted flag args) ≤ MAX_DIR_ENTS) → k + need (wanted flag args) < nblocks →
  (∀ cnt' m recs', (∀ d, cnt' d = cnt d + count d (wanted flag args)) →
    Inv m0 cnt' (k + need (wanted flag args)) recs' m →
    key <$> recs' = reverse (wkey <$> wanted flag args) ++ (key <$> recs) →
    Q (dirs_of cnt') (upd m (k + need (wanted flag args)) s)) →
  wp (main_loop nblocks diskmap host flag (dirs_of cnt) args) s Q.
Proof.
  induction args as [|a args IH]; intros flag cnt k recs s Q Hd Ht Hinv Hp Hc Hn HQ; cbn [main_loop wanted] in *.
  { apply wpx_ret. cbn [need foldr] in *. replace s with (upd (ff_mem s) (k + 0) s).
    - apply (HQ cnt (ff_mem s) recs); [intros d; unfold count; cbn; lia| |done]. by rewrite Z.add_0_r.
    - rewrite Z.add_0_r. unfold FsformatSpec.upd. rewrite <- Hp. by destruct s. }
  case_bool_decide; [eapply IH; [right; by left|done..]|]. case_bool_decide; [eapply IH; [by right; right|done..]|].
  inversion_clear Ht as [|?? Ha Ht']. cbn [need foldr snd] in *. fold (need (wanted flag args)) in *.
  assert (0 ≤ need (wanted flag args)) as Hneed.
  { clear. unfold need. induction (wanted flag args) as [|w ws IH]; cbn [foldr]; [lia|].
    pose proof (nb_range (len_of w.2) ltac:(unfold len_of; lia)). pose proof (nind_nonneg (len_of w.2)). lia. }
  set (size := nb (len_of a) + nind (len_of a)) in *.
  assert (∀ d, is_dir d → cnt d + (if decide (flag = d) then 1 else 0) + count d (wanted flag args) ≤ MAX_DIR_ENTS) as Hc'.
  { intros d Hd'. specialize (Hc d Hd'). rewrite count_cons in Hc. cbn [fst] in Hc. lia. }
  assert (∀ (Q' : Dir → ffst → Prop),
    (∀ cnt' m r, (∀ x, cnt' x = cnt x + (if decide (flag = x) then 1 else 0)) → Inv m0 cnt' (k + size) (r :: recs) m →
      key r = wkey (flag, a) → Q' (dir_of cnt' flag) (upd m (k + size) s)) →
    wp (writefile nblocks diskmap host (dir_of cnt flag) a) s Q') as Hw.
  { intros Q' HQ'. eapply writefile_inv; [exact Hinv|done..| | |unfold size in *; lia|].
    - intros x Hx. specialize (Hc x Hx). pose proof (count_nonneg x ((flag, a) :: wanted flag args)). lia.
    - specialize (Hc' flag Hd). rewrite decide_True in Hc' by done. pose proof (count_nonneg flag (wanted flag args)). lia.
    - rewrite <- Z.add_assoc. exact HQ'. }
  assert (∀ cnt' m r, (∀ x, cnt' x = cnt x + (if decide (flag = x) then 1 else 0)) → Inv m0 cnt' (k + size) (r :: recs) m →
    key r = wkey (flag, a) → wp (main_loop nblocks diskmap host flag (dirs_of cnt') args) (upd m (k + size) s) Q) as Hrest.
  { intros cnt' m r Hcn Hi Hk. eapply IH; [done|done|exact Hi|done| |lia|].
    - intros d Hd'. rewrite Hcn. by apply Hc'.
    - intros cnt'' m' recs' Hcn' Hi' Hk'. change (upd m' ?x (upd m (k + size) s)) with (upd m' x s).
      replace (k + size + need (wanted flag args)) with (k + (size + need (wanted flag args))) in * by lia.
      apply (HQ cnt'' m' recs'); [|done|].
      + intros d. rewrite Hcn', Hcn, count_cons. cbn [fst]. lia.
      + rewrite Hk'. cbn [fmap list_fmap]. rewrite reverse_cons, <- app_assoc, <- Hk. done. }
  pose proof (λ cnt', dirs_of_set cnt cnt' flag Hd) as Hds.
  unfold dirs_of at 1. destruct Hd as [->|[->| ->]]; cbn [Z.eqb FLAG_ROOT FLAG_BIN FLAG_SBIN Pos.eqb] in *;
    wp_step; apply Hw; intros cnt' m r Hcn Hi Hk; rewrite <- (Hds cnt' Hcn); by apply (Hrest cnt' m r).
Qed.

(** ** Directories *)

Definition dir_size (n : Z) : Z := Z.max 1 (nb (FILE_SIZE * n)) * BLKSIZE.

Lemma nb_blocks j : nb (j * BLKSIZE) = j.
Proof. unfold nb, BLKSIZE, PGSIZE. zlia. Qed.

Lemma dir_blocks n : 0 ≤ n ≤ MAX_DIR_ENTS → 0 ≤ nb (FILE_SIZE * n) ≤ 8 ∧ FILE_SIZE * n ≤ nb (FILE_SIZE * n) * BLKSIZE.
Proof. unfold nb, MAX_DIR_ENTS, FILE_SIZE, BLKSIZE, PGSIZE. zlia. Qed.

(** A directory of [n] entries: an empty one has the block behind it all the same. *)
Lemma finishdir_ok d k s Q : 0 ≤ d_n d ≤ MAX_DIR_ENTS → diskpos s = blk k → 0 ≤ k → bytes_ok (ff_mem s) →
  k + nb (FILE_SIZE * d_n d) < nblocks → (d_f d + FILE_SIZE ≤ blk k ∨ blk nblocks ≤ d_f d) →
  (∀ m, bytes_ok m → fields diskmap m (d_f d) k (dir_size (d_n d)) (k + nb (FILE_SIZE * d_n d)) →
    (∀ o, 0 ≤ o < FILE_SIZE * d_n d → ldb m (blk k + o) = ldb (ff_mem s) (d_ents d + o)) →
    (∀ a, ¬ (d_f d + 128 ≤ a < d_f d + 132) → ¬ (d_f d + 136 ≤ a < d_f d + 176) →
      ¬ (blk k ≤ a < blk k + FILE_SIZE * d_n d) → ldb m a = ldb (ff_mem s) a) →
    Q tt (upd m (k + nb (FILE_SIZE * d_n d)) s)) →
  wp (finishdir nblocks diskmap d) s Q.
Proof.
  intros Hn Hp Hk Hb Hend Hdis HQ. destruct (dir_blocks (d_n d) Hn) as [Hb8 Hbytes]. set (n := d_n d) in *.
  assert (0 ≤ FILE_SIZE * n ≤ 32768) as Hsz by (unfold FILE_SIZE, MAX_DIR_ENTS in *; lia).
  unfold finishdir. cbv zeta. fold n. rewrite (Z.mul_comm n), i32_id by lia. wp_step. rewrite u32_id by lia.
  apply (alloc_ok nblocks diskmap Hnb (FILE_SIZE * n) k); [done|done|pow2; lia|done|]. wp_step.
  apply mem_do_ok. rewrite blockof_blk by (pow2; lia). cbn [upd set_ff_mem ff_mem].
  assert (u32 (ROUNDUP_i (FILE_SIZE * n) BLKSIZE) = dir_size n) as ->.
  { unfold dir_size. destruct (decide (n = 0)) as [->|Hn0]; [done|].
    rewrite roundup_i by (unfold FILE_SIZE; lia). assert (1 ≤ nb (FILE_SIZE * n)) by (unfold nb, FILE_SIZE, BLKSIZE, PGSIZE; zlia).
    rewrite Z.max_r by done. apply u32_id. unfold BLKSIZE, PGSIZE. lia. }
  assert (nb (dir_size n) = Z.max 1 (nb (FILE_SIZE * n))) as Hnd by apply nb_blocks.
  set (m1 := store_bytes _ _ _).
  assert (∀ a, ldb m1 a = if decide (blk k ≤ a < blk k + FILE_SIZE * n) then ldb (ff_mem s) (d_ents d + (a - blk k)) else ldb (ff_mem s) a) as F1.
  { intros a. unfold m1. rewrite ldb_copy by done. by rewrite Z2Nat.id by lia. }
  assert (nind (dir_size n) = 0) as Hni by (unfold nind; rewrite Hnd, (proj2 (Z.leb_gt _ _)) by lia; done).
  apply (finishfile_ok nblocks diskmap Hnb (d_f d) k (dir_size n) (k + nb (FILE_SIZE * n))
    (mkFf m1 (blk (k + nb (FILE_SIZE * n))) (ff_super s) (ff_bitmap s))); cbn [diskpos ff_mem ff_super ff_bitmap]; try done; try lia.
  - by apply bytes_ok_store_bytes.
  - split; [unfold dir_size, BLKSIZE, PGSIZE; lia|]. rewrite Hnd. unfold NDIRECT, NINDIRECT, BLKSIZE, PGSIZE. zlia.
  - unfold FsformatSpec.blk, FILE_SIZE, BLKSIZE, PGSIZE in *. lia.
  - rewrite Hni, Z.add_0_r. intros m Bm Fl Ff. apply HQ; [done|done| |].
    + intros o Ho. rewrite Ff.
      * rewrite F1, decide_True by lia. f_equal. lia.
      * unfold writes. rewrite Hnd. unfold FsformatSpec.blk, FILE_SIZE, BLKSIZE, PGSIZE in *. lia.
    + intros a H1 H2 H3. rewrite Ff, F1, decide_False; [done|done|]. unfold writes. rewrite Hnd. lia.
Qed.
End run.
