(* ===== verification/FsformatImage.v ===== *)
(** * The image that fsformat writes

    The directories after the files, the bitmap last; what the whole program leaves
    on the disk. *)
From stdpp Require Import gmap.
From S2P Require Import Prelude Mem StringC Printfmt KState Bc Fs FsSpec Fsformat FsformatSpec FsformatRun.

(** ** Entries of directories *)

(** An entry of [name] for a directory of [n] entries from block [start] on. *)
Record named (m : mem) (ea : Z) (name : list Z) : Prop := {
  nm_name : bytes_at m ea (name ++ [0]);
  nm_type : ld32 m (f_type ea) = FTYPE_DIR }.
Record dirent (m : mem) (ea : Z) (name : list Z) (start n : Z) : Prop := {
  de_named : named m ea name;
  de_size : ld32 m (f_size ea) = dir_size n;
  de_blocks i : 0 ≤ i < nb (dir_size n) → ld32 m (f_direct ea i) = start + i }.

Definition same_at (m m' : mem) (a a' n : Z) : Prop := ∀ o, 0 ≤ o < n → ldb m' (a' + o) = ldb m (a + o).

Lemma same_ld32 m m' a a' n o : same_at m m' a a' n → 0 ≤ o → o + 4 ≤ n → ld32 m' (a' + o) = ld32 m (a + o).
Proof. intros H Ho Hl. apply ldn_copy. intros j Hj. rewrite <- !Z.add_assoc. apply H. lia. Qed.

Lemma named_frame m m' ea ea' name : Z.of_nat (length name) < MAXNAMELEN →
  same_at m m' ea ea' 128 → same_at m m' (ea + 132) (ea' + 132) 4 → named m ea name → named m' ea' name.
Proof.
  unfold MAXNAMELEN. intros Hl H1 H2 [Hn Ht]. split.
  - intros j Hj. rewrite length_app in Hj. cbn in Hj. rewrite H1 by lia. apply Hn. rewrite length_app. cbn. lia.
  - rewrite <- Ht. unfold f_type. rewrite <- (Z.add_0_r (ea' + 132)), <- (Z.add_0_r (ea + 132)). by apply (same_ld32 _ _ _ _ 4).
Qed.

Lemma nb_dir_size n : 0 ≤ n ≤ MAX_DIR_ENTS → 1 ≤ nb (dir_size n) ≤ 8.
Proof. intros Hn. unfold dir_size. rewrite nb_blocks. destruct (dir_blocks n Hn). lia. Qed.

Lemma dirent_frame m m' ea ea' name start n : Z.of_nat (length name) < MAXNAMELEN → 0 ≤ n ≤ MAX_DIR_ENTS →
  same_at m m' ea ea' FILE_SIZE → dirent m ea name start n → dirent m' ea' name start n.
Proof.
  intros Hl Hn H [Hnm Hs Hb]. pose proof (nb_dir_size n Hn). unfold FILE_SIZE in H. split.
  - eapply named_frame; [done| | |exact Hnm]; intros o Ho; rewrite <- ?Z.add_assoc; apply H; lia.
  - rewrite <- Hs. unfold f_size. by apply (same_ld32 _ _ _ _ 256).
  - intros i Hi. rewrite <- Hb by done. unfold f_direct. rewrite <- !Z.add_assoc. apply (same_ld32 _ _ _ _ 256); [done|lia..].
Qed.

Lemma dirent_intro diskmap m f name start n ib : 0 ≤ n ≤ MAX_DIR_ENTS → named m f name →
  fields diskmap m f start (dir_size n) ib → dirent m f name start n.
Proof.
  intros Hn Hm [H1 H2 _ _]. pose proof (nb_dir_size n Hn). split; [done|done|]. intros i Hi. apply H2. lia.
Qed.

Section image.
Context (nblocks diskmap : Z) (Hnb : 3 < nblocks ≤ 10240) (HD : 0 ≤ diskmap).
Context (ents : Z → Z).
Notation blk := (blk diskmap).
Notation upd := (upd diskmap).
Notation dir_file := (dir_file diskmap ents).
Context (Hheap : ∀ d, is_dir d → ents d + DIR_BYTES ≤ diskmap ∨ blk nblocks ≤ ents d).
Context (Hapart : ∀ d d', is_dir d → is_dir d' → d ≠ d' → ents d + DIR_BYTES ≤ ents d' ∨ ents d' + DIR_BYTES ≤ ents d).

Lemma dir_file_cases d : is_dir d →
  d = FLAG_ROOT ∧ dir_file d = blk 1 + 8 ∨ d ≠ FLAG_ROOT ∧ ∃ i, (i = 0 ∨ i = 1) ∧ dir_file d = ents FLAG_ROOT + FILE_SIZE * i.
Proof.
  intros [->|[->| ->]]; [by left|right; split; [done|]..].
  - exists 0. split; [by left|]. unfold FsformatRun.dir_file. cbn. lia.
  - exists 1. split; [by right|]. unfold FsformatRun.dir_file, FILE_SIZE. cbn. lia.
Qed.

(** The entries of [x] are in memory still, or on the disk. *)
Definition base_ok (W cnt : Z → Z) (k x : Z) : Prop :=
  W x = ents x ∨ blk 3 ≤ W x ∧ W x + FILE_SIZE * cnt x ≤ blk k.

(** The entry that finishdir fills in, and the blocks it writes, are no file's. *)
Lemma finish_apart W cnt k d x i a : is_dir d → is_dir x → base_ok W cnt k x → first_slot x ≤ i < cnt x → cnt x ≤ MAX_DIR_ENTS →
  3 ≤ k → k < nblocks → W x + FILE_SIZE * i ≤ a < W x + FILE_SIZE * i + FILE_SIZE → ¬ (dir_file d ≤ a < dir_file d + FILE_SIZE).
Proof using Hnb Hheap Hapart.
  intros Hd Hx Hbase Hi Hc Hk Hkn Ha. pose proof (first_slot_nonneg x). pose proof (Hheap FLAG_ROOT ltac:(by left)) as Hh0.
  pose proof (slot_off_disk nblocks diskmap ents Hheap x i Hx ltac:(lia)) as Hoff.
  destruct (dir_file_cases d Hd) as [[-> ->]|(Hne & j & Hj & ->)].
  - destruct Hbase as [HW|[H1 _]]; [rewrite HW in Ha|]; unfold FsformatSpec.blk, FILE_SIZE, BLKSIZE, PGSIZE in *; lia.
  - destruct Hbase as [HW|[H1 H2]]; [rewrite HW in Ha|].
    + assert (x ≠ FLAG_ROOT ∨ i ≠ j) as Hxi.
      { destruct (decide (x = FLAG_ROOT)) as [->|]; [right|by left]. change (first_slot FLAG_ROOT) with 2 in Hi. lia. }
      pose proof (slots_apart ents Hapart x i FLAG_ROOT j Hx ltac:(by left) ltac:(lia) ltac:(unfold MAX_DIR_ENTS; lia) Hxi). lia.
    + unfold DIR_BYTES, MAX_DIR_ENTS, FsformatSpec.blk, FILE_SIZE, BLKSIZE, PGSIZE in *. lia.
Qed.

Lemma finish_recs W cnt k recs m m' d : is_dir d → recs_ok diskmap W cnt k recs m → W d = ents d →
  (∀ x, is_dir x → base_ok W cnt k x) → (∀ x, is_dir x → 0 ≤ cnt x ≤ MAX_DIR_ENTS) → 3 ≤ k →
  k + nb (FILE_SIZE * cnt d) < nblocks → bytes_ok m' →
  (∀ o, 0 ≤ o < FILE_SIZE * cnt d → ldb m' (blk k + o) = ldb m (ents d + o)) →
  (∀ a, ¬ (dir_file d ≤ a < dir_file d + FILE_SIZE) → ¬ (blk k ≤ a < blk k + FILE_SIZE * cnt d) → ldb m' a = ldb m a) →
  recs_ok diskmap (λ x, if x =? d then blk k else W x) cnt (k + nb (FILE_SIZE * cnt d)) recs m'.
Proof using Hnb Hheap Hapart.
  intros Hd (_ & Hall & Hord) HWd Hbase Hcnt Hk Hkn Hb Hcopy Hf. destruct (dir_blocks (cnt d) (Hcnt d Hd)) as [Hb8 Hsz].
  split_and!; [done| |done]. eapply Forall_impl; [|exact Hall]. intros r [Hx Hi Hs He Hok Hat].
  pose proof (first_slot_nonneg (pl_dir r)). pose proof (Hcnt _ Hx). pose proof (pl_end_start r Hok) as Hpe.
  split; [done|done|done|lia|done|]. eapply placed_frame; [exact Hok| | |exact Hat].
  - intros o Ho. destruct (pl_dir r =? d) eqn:E.
    + apply Z.eqb_eq in E. rewrite E, HWd, <- !Z.add_assoc. apply Hcopy. rewrite E in Hi. pose proof (first_slot_nonneg d). unfold FILE_SIZE in *. lia.
    + apply Z.eqb_neq in E. apply Hf.
      * apply (finish_apart W cnt k d (pl_dir r) (pl_idx r)); [done|done|by apply Hbase|done|lia|done|lia|lia].
      * pose proof (slot_off_disk nblocks diskmap ents Hheap (pl_dir r) (pl_idx r) Hx ltac:(lia)).
        destruct (Hbase _ Hx) as [->|[Hlo Hhi]]; unfold FsformatSpec.blk, FILE_SIZE, BLKSIZE, PGSIZE in *; lia.
  - intros a Ha. assert (blk 3 ≤ a < blk k) as Hin by (unfold FsformatSpec.blk, BLKSIZE, PGSIZE in *; lia).
    apply Hf; [|lia]. pose proof (Hheap FLAG_ROOT ltac:(by left)) as Hh0.
    destruct (dir_file_cases d Hd) as [[-> ->]|(Hne & j & Hj & ->)];
      unfold DIR_BYTES, MAX_DIR_ENTS, FsformatSpec.blk, FILE_SIZE, BLKSIZE, PGSIZE in *; lia.
Qed.

(** ** The bitmap *)

Definition bit_of (m : mem) (b : Z) : bool := Z.testbit (ld32 m (blk 2 + 4 * (b / 32))) (b mod 32).

Lemma finishdisk_ok k s Q : diskpos s = blk k → 0 ≤ k < nblocks → ff_bitmap s = blk 2 → bytes_ok (ff_mem s) →
  (∀ a, blk 2 ≤ a < blk 3 → ldb (ff_mem s) a = 255) →
  (∀ m, bytes_ok m → (∀ b, 0 ≤ b < BLKBITSIZE → bit_of m b = (k <=? b)) →
    (∀ a, ¬ (blk 2 ≤ a < blk 3) → ldb m a = ldb (ff_mem s) a) → Q tt (upd m k s)) →
  wp (finishdisk diskmap) s Q.
Proof using Hnb.
  intros Hp Hk Hbm Hb H255 HQ. unfold finishdisk. wp_steps. rewrite Hp, blockof_blk by (pow2; lia).
  assert (∀ b, 0 ≤ b < BLKBITSIZE → blk 2 ≤ blk 2 + 4 * (b / 32) ∧ blk 2 + 4 * (b / 32) + 4 ≤ blk 3) as Hw.
  { intros b Hb'. unfold FsformatSpec.blk, BLKBITSIZE, BLKSIZE, PGSIZE in *. zlia. }
  apply (wpx_for_each _ _ _ _ _ _ (λ i s', ∃ m, s' = set_ff_mem m s ∧ bytes_ok m ∧
    (∀ b, 0 ≤ b < BLKBITSIZE → bit_of m b = (i <=? b)) ∧ (∀ a, ¬ (blk 2 ≤ a < blk 3) → ldb m a = ldb (ff_mem s) a))).
  - lia.
  - exists (ff_mem s). split_and!; [by destruct s|done| |done]. intros b Hb'. rewrite (proj2 (Z.leb_le 0 b)) by lia.
    unfold bit_of. specialize (Hw b Hb').
    assert (ld32 (ff_mem s) (blk 2 + 4 * (b / 32)) = Z.ones 32) as ->.
    { cbn [ldn]. rewrite !H255 by lia. done. }
    apply Z.ones_spec_low. zlia.
  - intros i s' Hi (m & -> & Bm & Hbits & Hf). wp_steps. change (ff_bitmap (set_ff_mem m s)) with (ff_bitmap s). rewrite Hbm.
    apply mem_do_ok. cbn [set_ff_mem ff_mem]. set (w := blk 2 + 4 * (i / 32)).
    assert (0 ≤ i < BLKBITSIZE) as Hib by (unfold BLKBITSIZE, BLKSIZE, PGSIZE; lia).
    exists (st32 m w (Z.land (ld32 m w) (Z.lnot (bitmap_bit i)))). split_and!; [done|by apply (bytes_ok_stn 4)| |].
    + intros b Hb'. unfold bit_of. destruct (decide (b / 32 = i / 32)) as [E|E].
      * rewrite E. fold w. rewrite ld32_st32_eq. unfold u32. rewrite Z.mod_pow2_bits_low by zlia.
        rewrite clear_bit_word by zlia. assert (Z.testbit (ld32 m w) (b mod 32) = (i <=? b)) as ->.
        { rewrite <- Hbits by done. unfold bit_of. by rewrite E. }
        case_decide as Hm; symmetry.
        -- apply Z.leb_gt. assert (b = i) by zlia. lia.
        -- assert (b ≠ i) by (intros ->; done). destruct (i <=? b) eqn:Eb; [apply Z.leb_le in Eb; apply Z.leb_le; lia|apply Z.leb_gt in Eb; apply Z.leb_gt; lia].
      * rewrite (ldn_stn_ne 4 4) by (unfold w; zlia). fold (bit_of m b). rewrite Hbits by done.
        destruct (i <=? b) eqn:Eb; [apply Z.leb_le in Eb; symmetry; apply Z.leb_le|apply Z.leb_gt in Eb; symmetry; apply Z.leb_gt]; [|lia].
        assert (b ≠ i) by (intros ->; done). lia.
    + intros a Ha. specialize (Hw i Hib). rewrite ldb_stn_out by (unfold w; lia). by apply Hf.
  - intros s' (m & -> & Bm & Hbits & Hf). replace (set_ff_mem m s) with (upd m k s); [by apply HQ|].
    unfold FsformatSpec.upd, set_ff_mem. by rewrite Hp.
Qed.

(** ** The empty disk *)

Lemma fill_bytes_ok m a n c : bytes_ok m → bytes_ok (fill m a n c).
Proof. revert m a. induction n as [|n IH]; intros m a Hm; cbn [fill]; [done|]. by apply IH, bytes_ok_stb. Qed.

Lemma opendisk_ok s Q : bytes_ok (ff_mem s) →
  (∀ m, bytes_ok m → ld32 m (blk 1) = FS_MAGIC → ld32 m (blk 1 + 4) = nblocks → named m (s_root (blk 1)) [47] →
    (∀ a, blk 2 ≤ a < blk 3 → ldb m a = 255) → (∀ a, ¬ (diskmap ≤ a < blk nblocks) → ldb m a = ldb (ff_mem s) a) →
    Q tt (mkFf m (blk 3) (blk 1) (blk 2))) →
  wp (opendisk nblocks diskmap true) s Q.
Proof using Hnb HD.
  intros Hb HQ. unfold opendisk. cbn [negb]. wp_step. apply mem_do_ok. wp_steps.
  change (nb BLKSIZE) with 1 in *. set (m1 := fill (ff_mem s) _ _ 0).
  assert (bytes_ok m1) as B1 by by apply fill_bytes_ok.
  apply (alloc_ok nblocks diskmap Hnb BLKSIZE 0); [unfold FsformatSpec.blk; cbn; lia|done|by vm_compute|change (nb BLKSIZE) with 1; lia|].
  change (0 + nb BLKSIZE) with 1. wp_steps.
  apply (alloc_ok nblocks diskmap Hnb BLKSIZE 1); [done|done|by vm_compute|change (nb BLKSIZE) with 1; lia|].
  change (1 + nb BLKSIZE) with 2. wp_steps. unfold s_magic, s_nblocks. do 4 (apply mem_do_ok; wp_steps).
  cbn [set_ff_mem upd set_ff_super set_diskpos ff_mem ff_bitmap ff_super diskpos]. fold m1.
  set (m2 := store_bytes _ _ ([47] ++ [0])).
  assert (i32 (u32 (nblocks + BLKBITSIZE - 1) / BLKBITSIZE) = 1) as ->.
  { rewrite u32_id by (unfold BLKBITSIZE, BLKSIZE, PGSIZE; lia). replace ((nblocks + BLKBITSIZE - 1) / BLKBITSIZE) with 1; [done|].
    unfold BLKBITSIZE, BLKSIZE, PGSIZE. zlia. }
  change (u32 (1 * BLKSIZE)) with BLKSIZE. change (1 * BLKSIZE) with BLKSIZE.
  apply (alloc_ok nblocks diskmap Hnb BLKSIZE 2); [done|done|by vm_compute|change (nb BLKSIZE) with 1; lia|].
  change (2 + nb BLKSIZE) with 3. wp_steps. apply mem_do_ok.
  cbn [set_ff_mem upd set_ff_super set_ff_bitmap set_diskpos ff_mem ff_bitmap ff_super diskpos].
  set (m3 := fill m2 (blk 2) _ 255).
  assert (bytes_ok m2) as B2.
  { apply bytes_ok_store_bytes, (bytes_ok_stn 4), (bytes_ok_stn 4), (bytes_ok_stn 4), B1. }
  assert (∀ a, ¬ (blk 2 ≤ a < blk 3) → ldb m3 a = ldb m2 a) as F3.
  { intros a Ha. unfold m3. rewrite ldb_fill, decide_False; [done|]. unfold FsformatSpec.blk, BLKSIZE, PGSIZE in *. lia. }
  assert (∀ a, ¬ (blk 1 ≤ a < blk 2) → ldb m2 a = ldb m1 a) as F2.
  { intros a Ha. unfold m2, s_root, f_name, f_type, FsformatSpec.blk, BLKSIZE, PGSIZE in *.
    rewrite ldb_store_bytes_out by (cbn; lia). rewrite !ldb_stn_out by lia. done. }
  assert (∀ o, 0 ≤ o < 4096 → ldb m3 (blk 1 + o) = ldb m2 (blk 1 + o)) as F3'.
  { intros o Ho. apply F3. unfold FsformatSpec.blk, BLKSIZE, PGSIZE. lia. }
  apply HQ.
  - by apply fill_bytes_ok.
  - rewrite (ldn_ext 4 m3 m2); [|intros a Ha; replace a with (blk 1 + (a - blk 1)) by lia; apply F3'; lia].
    unfold m2. rewrite (ldn_ext 4 _ (st32 m1 (blk 1) FS_MAGIC)).
    + rewrite ld32_st32_eq. done.
    + intros a Ha. unfold s_root, f_name, f_type in *. rewrite ldb_store_bytes_out by (cbn; lia). rewrite !ldb_stn_out by lia. done.
  - rewrite (ldn_ext 4 m3 m2); [|intros a Ha; replace a with (blk 1 + (a - blk 1)) by lia; apply F3'; lia].
    unfold m2. rewrite (ldn_ext 4 _ (st32 (st32 m1 (blk 1) FS_MAGIC) (blk 1 + 4) nblocks)).
    + rewrite ld32_st32_eq. apply u32_id. lia.
    + intros a Ha. unfold s_root, f_name, f_type in *. rewrite ldb_store_bytes_out by (cbn; lia). rewrite !ldb_stn_out by lia. done.
  - unfold s_root, f_name in *. split.
    + intros j Hj. cbn in Hj. rewrite <- Z.add_assoc, F3' by lia. unfold m2. rewrite Z.add_assoc. apply bytes_at_store; [|cbn; lia].
      repeat constructor; lia.
    + unfold f_type. rewrite (ldn_ext 4 m3 m2); [|intros a Ha; replace a with (blk 1 + (a - blk 1)) by lia; apply F3'; lia].
      unfold m2. rewrite (ldn_ext 4 _ (st32 (st32 (st32 m1 (blk 1) FS_MAGIC) (blk 1 + 4) nblocks) (f_type (blk 1 + 8)) FTYPE_DIR)).
      * rewrite ld32_st32_eq. done.
      * intros a Ha. rewrite ldb_store_bytes_out by (cbn; lia). done.
  - intros a Ha. unfold m3. rewrite ldb_fill, decide_True; [done|]. unfold FsformatSpec.blk, BLKSIZE, PGSIZE in *. lia.
  - intros a Ha. rewrite F3, F2.
    + unfold m1. rewrite ldb_fill, decide_False; [done|]. rewrite Z2Nat.id by (unfold BLKSIZE, PGSIZE; lia). done.
    + unfold FsformatSpec.blk, BLKSIZE, PGSIZE in *. lia.
    + unfold FsformatSpec.blk, BLKSIZE, PGSIZE in *. lia.
Qed.

(** The start of the image and the entries of the two directories. *)
Record started (m : mem) : Prop := {
  sd_magic : ld32 m (blk 1) = FS_MAGIC;
  sd_nblocks : ld32 m (blk 1 + 4) = nblocks;
  sd_root : named m (s_root (blk 1)) [47];
  sd_bin : named m (ents FLAG_ROOT) [98; 105; 110];
  sd_sbin : named m (ents FLAG_ROOT + FILE_SIZE) [115; 98; 105; 110];
  sd_bitmap a : blk 2 ≤ a < blk 3 → ldb m a = 255 }.

Lemma same_by m m' a n : (∀ b, a ≤ b < a + n → ldb m' b = ldb m b) → same_at m m' a a n.
Proof. intros H o Ho. apply H. lia. Qed.

Lemma started_frame m m' : (∀ a, kept diskmap ents a → ldb m' a = ldb m a) → started m → started m'.
Proof.
  intros Hk [H1 H2 H3 H4 H5 H6].
  assert (∀ a, blk 1 ≤ a < blk 3 → ldb m' a = ldb m a) as Hd.
  { intros a Ha. apply Hk. left. unfold FsformatSpec.blk, BLKSIZE, PGSIZE in *. lia. }
  assert (∀ a, ents FLAG_ROOT ≤ a < ents FLAG_ROOT + 512 → ldb m' a = ldb m a) as He.
  { intros a Ha. apply Hk. right. unfold FILE_SIZE. lia. }
  split; unfold s_root, FILE_SIZE, FsformatSpec.blk, BLKSIZE, PGSIZE in *.
  - rewrite <- H1. apply (ldn_ext 4). intros a Ha. apply Hd. lia.
  - rewrite <- H2. apply (ldn_ext 4). intros a Ha. apply Hd. lia.
  - eapply named_frame; [done| | |exact H3]; apply same_by; intros; apply Hd; lia.
  - eapply named_frame; [done| | |exact H4]; apply same_by; intros; apply He; lia.
  - eapply named_frame; [done| | |exact H5]; apply same_by; intros; apply He; lia.
  - intros a Ha. rewrite Hd by lia. by apply H6.
Qed.

(** opendisk and the making of the two directories. *)
Lemma start_ok {A} s (K : dirs → FF A) Q : bytes_ok (ff_mem s) →
  (∀ m, started m → Inv diskmap ents m first_slot 3 [] m →
    wp (K (dirs_of diskmap ents first_slot)) (mkFf m (blk 3) (blk 1) (blk 2)) Q) →
  wp (opendisk nblocks diskmap true;;
      sup ← gets ff_super;
      rb ← diradd (startdir (s_root sup) (ents FLAG_ROOT)) FTYPE_DIR [98; 105; 110];
      rs ← diradd (fst rb) FTYPE_DIR [115; 98; 105; 110];
      K (fst rs, startdir (snd rb) (ents FLAG_BIN), startdir (snd rs) (ents FLAG_SBIN))) s Q.
Proof using Hnb HD Hheap.
  intros Hb HK. wp_step. apply opendisk_ok; [done|]. intros m B0 M1 M2 R1 BM F0. wp_steps. cbn [ff_super].
  assert (bytes_of [98; 105; 110] ∧ bytes_of [115; 98; 105; 110]) as [L1 L2] by (split; repeat constructor; lia).
  apply diradd_ok; [done|exact L1|done|done|exact B0|]. cbn [ff_mem startdir d_ents d_n d_f]. change (FILE_SIZE * 0) with 0.
  rewrite Z.add_0_r. intros m1 B1 N1 T1 F1. cbn [fst snd]. wp_step.
  apply diradd_ok; [done|exact L2|done|done|exact B1|]. cbn [ff_mem set_ff_mem d_ents d_n d_f]. change (FILE_SIZE * (0 + 1)) with 256.
  intros m2 B2 N2 T2 F2. cbn [fst snd]. change (0 + 1 + 1) with 2.
  replace (set_ff_mem m2 _) with (mkFf m2 (blk 3) (blk 1) (blk 2)) by done.
  pose proof (Hheap FLAG_ROOT ltac:(by left)) as Hh0.
  assert (∀ a, ¬ (ents FLAG_ROOT ≤ a < ents FLAG_ROOT + 512) → ldb m2 a = ldb m a) as F.
  { intros a Ha. rewrite F2 by lia. apply F1; lia. }
  assert (∀ a, diskmap ≤ a < blk nblocks → ldb m2 a = ldb m a) as Fd.
  { intros a Ha. apply F. unfold DIR_BYTES, MAX_DIR_ENTS, FILE_SIZE in *. lia. }
  assert (blk 3 ≤ blk nblocks) as Hb3 by (unfold FsformatSpec.blk, BLKSIZE, PGSIZE; lia).
  refine (HK m2 _ _).
  - split; unfold s_root, f_type, FILE_SIZE in *.
    + rewrite <- M1. apply (ldn_ext 4). intros a Ha. apply Fd. unfold FsformatSpec.blk, BLKSIZE, PGSIZE in *. lia.
    + rewrite <- M2. apply (ldn_ext 4). intros a Ha. apply Fd. unfold FsformatSpec.blk, BLKSIZE, PGSIZE in *. lia.
    + eapply named_frame; [done| | |exact R1]; apply same_by; intros; apply Fd; unfold FsformatSpec.blk, BLKSIZE, PGSIZE in *; lia.
    + eapply (named_frame m1); [done| | |by split]; apply same_by; intros; apply F2; lia.
    + by split.
    + intros a Ha. rewrite Fd by (unfold FsformatSpec.blk, BLKSIZE, PGSIZE in *; lia). by apply BM.
  - by split; [split_and!; [done|constructor..]|intros d i _ Hi; lia|..].
Qed.

(** ** The finished image *)

(** The image in memory: [recs] its files, newest first; directory [d] has [cnt d]
    entries from block [st d] on; blocks from [k] on are free. *)
Record image (m : mem) (cnt st : Z → Z) (k : Z) (recs : list placed) : Prop := {
  im_recs : recs_ok diskmap (λ d, blk (st d)) cnt k recs m;
  im_cover : covered cnt recs;
  im_magic : ld32 m (blk 1) = FS_MAGIC;
  im_nblocks : ld32 m (blk 1 + 4) = nblocks;
  im_root : dirent m (s_root (blk 1)) [47] (st FLAG_ROOT) (cnt FLAG_ROOT);
  im_bin : dirent m (blk (st FLAG_ROOT)) [98; 105; 110] (st FLAG_BIN) (cnt FLAG_BIN);
  im_sbin : dirent m (blk (st FLAG_ROOT) + FILE_SIZE) [115; 98; 105; 110] (st FLAG_SBIN) (cnt FLAG_SBIN);
  im_st d : is_dir d → 3 ≤ st d ∧ st d + nb (FILE_SIZE * cnt d) ≤ k;
  im_dirs r d : r ∈ recs → is_dir d → pl_end r ≤ st d;
  im_free b : 0 ≤ b < BLKBITSIZE → bit_of m b = (k <=? b);
  im_k : 3 ≤ k < nblocks }.

Section finish.
Context (cnt : Z → Z) (Hcnt : ∀ d, is_dir d → first_slot d ≤ cnt d ≤ MAX_DIR_ENTS).
Context (k : Z) (recs : list placed) (m1 : mem) (Hsd : started m1) (Hrec : recs_ok diskmap ents cnt k recs m1) (Hcov : covered cnt recs) (Hk : 3 ≤ k).
Notation size d := (nb (FILE_SIZE * cnt d)).
Notation k2 := (k + size FLAG_BIN).
Notation k3 := (k2 + size FLAG_SBIN).
Notation k4 := (k3 + size FLAG_ROOT).
Context (Hfit : k4 < nblocks).

Lemma sizes d : is_dir d → 0 ≤ cnt d ≤ MAX_DIR_ENTS ∧ 0 ≤ size d ≤ 8 ∧ FILE_SIZE * cnt d ≤ size d * BLKSIZE.
Proof using Hcnt.
  intros Hd. pose proof (Hcnt d Hd). pose proof (first_slot_nonneg d). split; [lia|]. apply dir_blocks. lia.
Qed.

Definition st_of (d : Z) : Z := if d =? FLAG_ROOT then k3 else if d =? FLAG_BIN then k else k2.

(** One directory, with what is known of the state before. *)
Record left_by (d kd : Z) (m m' : mem) : Prop := {
  lb_bytes : bytes_ok m';
  lb_fields : fields diskmap m' (dir_file d) kd (dir_size (cnt d)) (kd + size d);
  lb_copy o : 0 ≤ o < FILE_SIZE * cnt d → ldb m' (blk kd + o) = ldb m (ents d + o);
  lb_frame a : ¬ (dir_file d + 128 ≤ a < dir_file d + 132) → ¬ (dir_file d + 136 ≤ a < dir_file d + 176) →
    ¬ (blk kd ≤ a < blk kd + FILE_SIZE * cnt d) → ldb m' a = ldb m a }.

Lemma dir_file_off d kd : is_dir d → 3 ≤ kd → kd ≤ nblocks → dir_file d + FILE_SIZE ≤ blk kd ∨ blk nblocks ≤ dir_file d.
Proof using Hheap Hnb.
  intros Hd H3 Hl. pose proof (Hheap FLAG_ROOT ltac:(by left)) as Hh0.
  destruct (dir_file_cases d Hd) as [[-> ->]|(Hne & j & Hj & ->)];
    unfold DIR_BYTES, MAX_DIR_ENTS, FsformatSpec.blk, FILE_SIZE, BLKSIZE, PGSIZE in *; lia.
Qed.

Lemma finish_one d kd m s Q : is_dir d → 3 ≤ kd → kd + size d < nblocks → bytes_ok m →
  (∀ m', left_by d kd m m' → Q tt (mkFf m' (blk (kd + size d)) (ff_super s) (ff_bitmap s))) →
  wp (finishdir nblocks diskmap (dir_of diskmap ents cnt d)) (mkFf m (blk kd) (ff_super s) (ff_bitmap s)) Q.
Proof using Hcnt Hheap Hnb.
  intros Hd H3 Hl Hb HQ. destruct (sizes d Hd) as (Hc & Hs & _).
  apply (finishdir_ok nblocks diskmap Hnb _ kd); cbn [dir_of d_n d_f d_ents diskpos ff_mem]; [done|done|lia|done|lia|apply dir_file_off; [done|lia|lia]|].
  intros m' B Fl C F. by apply (HQ m').
Qed.

(** A name in the entry that is filled in survives. *)
Lemma named_left d kd m m' name : is_dir d → left_by d kd m m' → 3 ≤ kd → kd + size d < nblocks →
  Z.of_nat (length name) < MAXNAMELEN → named m (dir_file d) name → dirent m' (dir_file d) name kd (cnt d).
Proof using Hcnt Hheap Hnb.
  intros Hd [_ Fl _ F] H3 Hl Hn Hm. destruct (sizes d Hd) as (Hc & Hs & Hsz).
  apply (dirent_intro diskmap m' (dir_file d) name kd (cnt d) (kd + size d)); [done| |done].
  pose proof (dir_file_off d kd Hd H3 ltac:(lia)).
  eapply named_frame; [done| | |exact Hm]; apply same_by; intros b Hb'; apply F;
    unfold FsformatSpec.blk, FILE_SIZE, BLKSIZE, PGSIZE in *; lia.
Qed.

(** Memory that the making of [d] leaves alone. *)
Lemma left_same d kd m m' a n : left_by d kd m m' → (a + n ≤ dir_file d ∨ dir_file d + FILE_SIZE ≤ a) →
  (a + n ≤ blk kd ∨ blk kd + FILE_SIZE * cnt d ≤ a) → ∀ b, a ≤ b < a + n → ldb m' b = ldb m b.
Proof. intros [_ _ _ F] H1 H2 b Hb'. unfold FILE_SIZE in H1. apply F; lia. Qed.

Lemma left_recs W d kd m m' : is_dir d → left_by d kd m m' → recs_ok diskmap W cnt kd recs m → W d = ents d →
  (∀ x, is_dir x → base_ok W cnt kd x) → 3 ≤ kd → kd + size d < nblocks →
  recs_ok diskmap (λ x, if x =? d then blk kd else W x) cnt (kd + size d) recs m'.
Proof using Hcnt Hheap Hapart Hnb.
  intros Hd Hlb Hr HW Hbase H3 Hl. eapply finish_recs; try done; [intros x Hx; apply (sizes x Hx)|apply Hlb|apply Hlb|].
  intros a H1 H2. unfold FILE_SIZE in H1. apply (lb_frame _ _ _ _ Hlb); [lia|lia|done].
Qed.

(** The start of the image, in three memories in a row. *)
Lemma head_same m2 m3 m4 a n : left_by FLAG_BIN k m1 m2 → left_by FLAG_SBIN k2 m2 m3 → left_by FLAG_ROOT k3 m3 m4 →
  blk 1 ≤ a → a + n ≤ blk 3 → a + n ≤ blk 1 + 8 ∨ blk 1 + 8 + FILE_SIZE ≤ a →
  (∀ b, a ≤ b < a + n → ldb m4 b = ldb m1 b).
Proof using Hcnt Hheap Hnb Hk.
  intros L2 L3 L4 Ha Hl Hroot b Hb'. pose proof (Hheap FLAG_ROOT ltac:(by left)) as Hh0.
  pose proof (sizes FLAG_BIN ltac:(right; by left)) as (_ & ? & _). pose proof (sizes FLAG_SBIN ltac:(right; by right)) as (_ & ? & _).
  change (dir_file FLAG_ROOT) with (blk 1 + 8) in *.
  rewrite (left_same FLAG_ROOT k3 m3 m4 a n L4), (left_same FLAG_SBIN k2 m2 m3 a n L3), (left_same FLAG_BIN k m1 m2 a n L2); [done|..|lia];
    try (change (dir_file FLAG_ROOT) with (blk 1 + 8)); try (change (dir_file FLAG_SBIN) with (ents FLAG_ROOT + FILE_SIZE));
    try (change (dir_file FLAG_BIN) with (ents FLAG_ROOT));
    unfold DIR_BYTES, MAX_DIR_ENTS, FsformatSpec.blk, FILE_SIZE, BLKSIZE, PGSIZE in *; lia.
Qed.

Lemma root_same m2 m3 a n : left_by FLAG_BIN k m1 m2 → left_by FLAG_SBIN k2 m2 m3 → blk 1 ≤ a → a + n ≤ blk 3 →
  (∀ b, a ≤ b < a + n → ldb m3 b = ldb m1 b).
Proof using Hcnt Hheap Hnb Hk.
  intros L2 L3 Ha Hl b Hb'. pose proof (Hheap FLAG_ROOT ltac:(by left)) as Hh0.
  pose proof (sizes FLAG_BIN ltac:(right; by left)) as (_ & ? & _).
  rewrite (left_same FLAG_SBIN k2 m2 m3 a n L3), (left_same FLAG_BIN k m1 m2 a n L2); [done|..|lia];
    try (change (dir_file FLAG_SBIN) with (ents FLAG_ROOT + FILE_SIZE)); try (change (dir_file FLAG_BIN) with (ents FLAG_ROOT));
    unfold DIR_BYTES, MAX_DIR_ENTS, FsformatSpec.blk, FILE_SIZE, BLKSIZE, PGSIZE in *; lia.
Qed.

Lemma recs_three m2 m3 m4 : left_by FLAG_BIN k m1 m2 → left_by FLAG_SBIN k2 m2 m3 → left_by FLAG_ROOT k3 m3 m4 →
  recs_ok diskmap (λ d, blk (st_of d)) cnt k4 recs m4.
Proof using All.
  intros L2 L3 L4. assert (is_dir FLAG_BIN) as D1 by (right; by left). assert (is_dir FLAG_SBIN) as D2 by (right; by right).
  assert (is_dir FLAG_ROOT) as D0 by by left.
  destruct (sizes _ D1) as (? & ? & S1). destruct (sizes _ D2) as (? & ? & S2). destruct (sizes _ D0) as (? & ? & S0).
  pose proof (left_recs ents FLAG_BIN k m1 m2 D1 L2 Hrec eq_refl ltac:(by left) ltac:(lia) ltac:(lia)) as R2.
  assert (∀ x, is_dir x → base_ok (λ x, if x =? FLAG_BIN then blk k else ents x) cnt k2 x) as Hb2.
  { intros x Hx. unfold base_ok. destruct (x =? FLAG_BIN) eqn:E; [right; apply Z.eqb_eq in E as ->|by left].
    unfold FsformatSpec.blk, BLKSIZE, PGSIZE in *. lia. }
  pose proof (left_recs _ FLAG_SBIN k2 m2 m3 D2 L3 R2 eq_refl Hb2 ltac:(lia) ltac:(lia)) as R3.
  assert (∀ x, is_dir x → base_ok (λ x, if x =? FLAG_SBIN then blk k2 else if x =? FLAG_BIN then blk k else ents x) cnt k3 x) as Hb3.
  { intros x Hx. unfold base_ok. destruct (x =? FLAG_SBIN) eqn:E; [right; apply Z.eqb_eq in E as ->|].
    - unfold FsformatSpec.blk, BLKSIZE, PGSIZE in *. lia.
    - destruct (x =? FLAG_BIN) eqn:E'; [right; apply Z.eqb_eq in E' as ->|by left].
      unfold FsformatSpec.blk, BLKSIZE, PGSIZE in *. lia. }
  pose proof (left_recs _ FLAG_ROOT k3 m3 m4 D0 L4 R3 eq_refl Hb3 ltac:(lia) ltac:(lia)) as (Bm & Hall & Hord).
  split_and!; [done| |done]. eapply Forall_impl; [|exact Hall]. intros r [Hx Hi Hs He Hok Hat]. split; try done.
  cbv beta in Hat. destruct Hx as [Hx|[Hx|Hx]]; rewrite Hx in *; exact Hat.
Qed.

(** An entry of the root directory, copied to the disk. *)
Lemma copied m3 m4 m5 i name start n : left_by FLAG_ROOT k3 m3 m4 → (∀ a, ¬ (blk 2 ≤ a < blk 3) → ldb m5 a = ldb m4 a) →
  0 ≤ i → i < cnt FLAG_ROOT → Z.of_nat (length name) < MAXNAMELEN → 0 ≤ n ≤ MAX_DIR_ENTS →
  dirent m3 (ents FLAG_ROOT + FILE_SIZE * i) name start n → dirent m5 (blk k3 + FILE_SIZE * i) name start n.
Proof using Hcnt Hk.
  intros L4 F5 Hi Hlt Hl Hn. destruct (sizes FLAG_BIN ltac:(right; by left)) as (_ & ? & _).
  destruct (sizes FLAG_SBIN ltac:(right; by right)) as (_ & ? & _).
  apply dirent_frame; [done|done|]. intros o Ho. unfold FILE_SIZE in *.
  rewrite F5 by (unfold FsformatSpec.blk, BLKSIZE, PGSIZE; lia). rewrite <- (Z.add_assoc (ents FLAG_ROOT)), <- (Z.add_assoc (blk k3)). apply (lb_copy _ _ _ _ L4).
  unfold FILE_SIZE. lia.
Qed.

Lemma finish_ok s Q : diskpos s = blk k → ff_bitmap s = blk 2 → ff_mem s = m1 →
  (∀ m s', ff_mem s' = m → image m cnt st_of k4 recs → Q 0 s') →
  wp (finishdir nblocks diskmap (dir_of diskmap ents cnt FLAG_BIN);;
      finishdir nblocks diskmap (dir_of diskmap ents cnt FLAG_SBIN);;
      finishdir nblocks diskmap (dir_of diskmap ents cnt FLAG_ROOT);;
      finishdisk diskmap;; mret 0) s Q.
Proof using All.
  intros Hp Hbm Hm HQ. assert (is_dir FLAG_BIN) as D1 by (right; by left). assert (is_dir FLAG_SBIN) as D2 by (right; by right).
  assert (is_dir FLAG_ROOT) as D0 by by left.
  destruct (sizes _ D1) as (? & ? & S1). destruct (sizes _ D2) as (? & ? & S2). destruct (sizes _ D0) as (? & ? & S0).
  replace s with (mkFf m1 (blk k) (ff_super s) (ff_bitmap s)) by (rewrite <- Hm, <- Hp; by destruct s).
  wp_step. apply (finish_one FLAG_BIN k); [done|lia|lia|apply Hrec|]. intros m2 L2.
  wp_step. apply (finish_one FLAG_SBIN k2 m2 s); [done|lia|lia|apply L2|]. intros m3 L3.
  wp_step. apply (finish_one FLAG_ROOT k3 m3 s); [done|lia|lia|apply L3|]. intros m4 L4.
  pose proof (recs_three m2 m3 m4 L2 L3 L4) as R4.
  assert (∀ a n, blk 1 ≤ a → a + n ≤ blk 3 → a + n ≤ blk 1 + 8 ∨ blk 1 + 8 + FILE_SIZE ≤ a →
    ∀ b, a ≤ b < a + n → ldb m4 b = ldb m1 b) as Hhead by (intros a n; by apply (head_same m2 m3 m4 a n)).
  wp_step. apply (finishdisk_ok k4); cbn [diskpos ff_bitmap ff_mem]; [done|lia|done|apply L4| |].
  { intros a Ha. rewrite (Hhead (blk 2) 4096); [by apply (sd_bitmap _ Hsd)|..];
      unfold FsformatSpec.blk, FILE_SIZE, BLKSIZE, PGSIZE in *; lia. }
  intros m5 B5 Hbits F5. apply wpx_ret. apply (HQ m5); [done|].
  assert (blk 1 + 8 + FILE_SIZE ≤ blk 2) as Hsup by (unfold FsformatSpec.blk, FILE_SIZE, BLKSIZE, PGSIZE; lia).
  assert (∀ j, 3 ≤ j → blk 3 ≤ blk j) as Hbm3 by (unfold FsformatSpec.blk, BLKSIZE, PGSIZE; lia).
  pose proof (Hheap FLAG_ROOT D0) as Hh0. pose proof (Hcnt FLAG_ROOT D0) as Hc0. change (first_slot FLAG_ROOT) with 2 in Hc0.
  split.
  - eapply recs_frame; [exact B5|done|exact R4|]. intros r [Hx Hi Hs He Hok Hat]. pose proof (first_slot_nonneg (pl_dir r)).
    assert (3 ≤ st_of (pl_dir r)) as Hst by (unfold st_of; repeat case_match; lia). specialize (Hbm3 _ Hst).
    split; intros; apply F5; [unfold FILE_SIZE in *; lia|]. unfold FsformatSpec.blk, BLKSIZE, PGSIZE in *; lia.
  - exact Hcov.
  - rewrite <- (sd_magic _ Hsd). apply (ldn_ext 4). intros a Ha. rewrite F5 by (unfold FILE_SIZE in *; lia).
    apply (Hhead (blk 1) 8); [lia|unfold FsformatSpec.blk, BLKSIZE, PGSIZE; lia|lia|lia].
  - rewrite <- (sd_nblocks _ Hsd). apply (ldn_ext 4). intros a Ha. rewrite F5 by (unfold FILE_SIZE in *; lia).
    apply (Hhead (blk 1) 8); [lia|unfold FsformatSpec.blk, BLKSIZE, PGSIZE; lia|lia|lia].
  - eapply (dirent_frame m4); [done|lia|apply same_by; intros; apply F5; unfold s_root in *; lia|].
    apply (named_left FLAG_ROOT k3 m3 m4); [done|done|lia|lia|done|].
    eapply (named_frame m1); [done| | |exact (sd_root _ Hsd)]; apply same_by; intros b Hb'; apply (root_same m2 m3 (blk 1) 4096 L2 L3);
      unfold FsformatRun.dir_file, s_root, FsformatSpec.blk, FILE_SIZE, BLKSIZE, PGSIZE in *; cbn in *; lia.
  - replace (blk (st_of FLAG_ROOT)) with (blk k3 + FILE_SIZE * 0) by apply Z.add_0_r.
    apply (copied m3 m4 m5 0 _ _ _ L4 F5); [lia|lia|done|done|]. rewrite Z.add_0_r.
    eapply (dirent_frame m2); [done|lia|apply same_by|].
    + apply (left_same FLAG_SBIN k2 m2 m3 (ents FLAG_ROOT) FILE_SIZE L3); [by left|].
      unfold DIR_BYTES, MAX_DIR_ENTS, FsformatSpec.blk, FILE_SIZE, BLKSIZE, PGSIZE in *; lia.
    + apply (named_left FLAG_BIN k m1 m2); [done|done|lia|lia|done|exact (sd_bin _ Hsd)].
  - apply (copied m3 m4 m5 1 _ _ _ L4 F5); [lia|lia|done|done|]. rewrite Z.mul_1_r.
    apply (named_left FLAG_SBIN k2 m2 m3); [done|done|lia|lia|done|].
    change (dir_file FLAG_SBIN) with (ents FLAG_ROOT + FILE_SIZE).
    pose proof (left_same FLAG_BIN k m1 m2 (ents FLAG_ROOT + FILE_SIZE) FILE_SIZE L2) as Hs.
    change (dir_file FLAG_BIN) with (ents FLAG_ROOT) in Hs. unfold DIR_BYTES, MAX_DIR_ENTS, FsformatSpec.blk, FILE_SIZE, BLKSIZE, PGSIZE in *.
    eapply (named_frame m1); [done| | |exact (sd_sbin _ Hsd)]; apply same_by; intros b Hb'; apply Hs; lia.
  - intros d Hd. destruct Hd as [->|[->| ->]]; cbn; lia.
  - intros r d Hr Hd. destruct Hrec as (_ & Hall & _). rewrite Forall_forall in Hall. specialize (Hall r).
    assert (pl_end r ≤ k) by (apply Hall; first [exact Hr|by apply list_elem_of_In]).
    destruct Hd as [->|[->| ->]]; cbn; lia.
  - exact Hbits.
  - lia.
Qed.
End finish.
End image.
