(* ===== verification/FsDir.v ===== *)
(** * Directories and paths (fs/fs.c dir_lookup, walk_path, file_open)

    Looking a name up finds the first entry that has it, and walking a path is the
    walk of its elements through a reference lookup; the disk is only read. *)
From stdpp Require Import gmap.
From S2P Require Import Prelude Mem StringC Printfmt KState Bc Fs FsView FsSpec.

(** ** Comparing names *)

Fixpoint matches (v : Z → Z) (va : Z) (name : list Z) : bool :=
  match name with
  | [] => v va =? 0
  | x :: name => if v va =? x then matches v (va + 1) name else false
  end.

Lemma matches_ext v v' va name : (∀ a, v a = v' a) → matches v va name = matches v' va name.
Proof. intros H. revert va. induction name as [|x name IH]; intros va; cbn [matches]; rewrite H; [done|]. by rewrite IH. Qed.

(** The name is there, with its NUL. *)
Lemma matches_spec v va name :
  matches v va name = true ↔ ∀ j, 0 ≤ j < Z.of_nat (length name) + 1 → v (va + j) = nth (Z.to_nat j) (name ++ [0]) 0.
Proof.
  revert va. induction name as [|x name IH]; intros va; cbn [matches length app].
  - rewrite Z.eqb_eq. split.
    + intros H j Hj. assert (j = 0) as -> by (cbn in Hj; lia). by rewrite Z.add_0_r.
    + intros H. specialize (H 0 ltac:(lia)). by rewrite Z.add_0_r in H.
  - destruct (v va =? x) eqn:E; [apply Z.eqb_eq in E|apply Z.eqb_neq in E].
    + rewrite IH. split; intros H j Hj.
      * destruct (decide (j = 0)) as [->|]; [by rewrite Z.add_0_r|].
        replace (va + j) with (va + 1 + (j - 1)) by lia. rewrite H by lia.
        replace (Z.to_nat j) with (S (Z.to_nat (j - 1))) by lia. done.
      * replace (va + 1 + j) with (va + (j + 1)) by lia. rewrite H by lia.
        replace (Z.to_nat (j + 1)) with (S (Z.to_nat j)) by lia. done.
    + split; [done|]. intros H. specialize (H 0 ltac:(lia)). rewrite Z.add_0_r in H. done.
Qed.

Lemma load8_ok va s : fs_ok s → acc s va → load8 va s = Ret (view s va) (touched va s).
Proof.
  intros Hok Ha. unfold load8. erewrite run_bind by (apply touch_all_one; [f_equal; lia|done..]).
  unfold gets. f_equal. pose proof (touched_ok va s Hok Ha) as (_ & (Hv & _) & Hm).
  rewrite <- Hv. destruct (in_map va) eqn:Hin; [symmetry; apply view_mapped; auto|by rewrite view_out].
Qed.

Lemma seen_acc s s' va : seen s s' → acc s va → acc s' va.
Proof. intros (_ & H & _ & Hm) Ha. by apply (same_acc s). Qed.
Lemma seen_view s s' a : seen s s' → view s' a = view s a.
Proof. intros (_ & (H & _) & _). apply H. Qed.

Lemma name_eq_ok name : ∀ s va, fs_ok s → (∀ j, 0 ≤ j < Z.of_nat (length name) + 1 → acc s (va + j)) →
  ∃ s', name_eq va name s = Ret (matches (view s) va name) s' ∧ seen s s'.
Proof.
  induction name as [|x name IH]; intros s va Hok Ha; cbn [name_eq matches length] in *;
    (assert (acc s va) as Ha0 by (rewrite <- (Z.add_0_r va); apply Ha; lia));
    pose proof (touched_seen va s Hok Ha0) as Hs; rewrite (run_bind _ _ _ _ _ (load8_ok va s Hok Ha0)).
  - by exists (touched va s).
  - destruct (view s va =? x); [|by exists (touched va s)].
    destruct (IH (touched va s) (va + 1)) as (s' & Hr & Hs').
    + apply Hs.
    + intros j Hj. rewrite <- Z.add_assoc. apply (seen_acc s); [done|]. apply Ha. lia.
    + exists s'. split; [|by eapply seen_trans]. rewrite Hr. f_equal. apply matches_ext. intros a. by apply seen_view.
Qed.

(** ** dir_lookup *)

(** Slot [q] of directory [dir]. *)
Definition slot_va (s : FsState) (dir q : Z) : Z := blk_va (fblock s dir (q / BLKFILES)) + FILE_SIZE * (q mod BLKFILES).
Definition dir_blocks_of (s : FsState) (dir : Z) : Z := fsize s dir / BLKSIZE.

(** The first slot with the name. *)
Definition dir_find (s : FsState) (dir : Z) (name : list Z) : option Z :=
  List.find (λ q, matches (view s) (slot_va s dir q) name) (seqZ 0 (BLKFILES * dir_blocks_of s dir)).

(** A directory: a file of whole blocks that are all there. *)
Record dir_ok (s : FsState) (dir : Z) : Prop := {
  do_file : file_at s dir;
  do_size : fsize s dir mod BLKSIZE = 0;
  do_blocks i : 0 ≤ i < dir_blocks_of s dir → block_at s dir i }.

Lemma find_first {A} (p : A → bool) l : match List.find p l with
  | Some x => ∃ l1 l2, l = l1 ++ x :: l2 ∧ p x = true ∧ Forall (λ y, p y = false) l1
  | None => Forall (λ y, p y = false) l end.
Proof.
  induction l as [|x l IH]; cbn [List.find]; [constructor|]. destruct (p x) eqn:E; [by exists [], l|].
  destruct (List.find p l) as [y|]; [|by constructor]. destruct IH as (l1 & l2 & -> & Hy & Hl). exists (x :: l1), l2. by repeat constructor.
Qed.

(** The search of a range, from its first hit or the lack of one. *)
Lemma find_seqZ_some (p : Z → bool) n q : 0 ≤ q < n → p q = true → (∀ i, 0 ≤ i < q → p i = false) → List.find p (seqZ 0 n) = Some q.
Proof.
  intros Hq Hp Hb. replace n with (q + (1 + (n - q - 1))) by lia. rewrite seqZ_app by lia.
  assert (Forall (λ i, p i = false) (seqZ 0 q)) as Hl by (apply Forall_forall; intros i [? ?]%list_elem_of_In%elem_of_seqZ; apply Hb; lia).
  induction Hl as [|i l Hi Hl IH]; cbn [app List.find]; [|by rewrite Hi].
  rewrite seqZ_cons by lia. cbn [List.find]. rewrite Z.add_0_l. by rewrite Hp.
Qed.
Lemma find_seqZ_none (p : Z → bool) n : (∀ i, 0 ≤ i < n → p i = false) → List.find p (seqZ 0 n) = None.
Proof.
  intros Hb. assert (Forall (λ i, p i = false) (seqZ 0 n)) as Hl by (apply Forall_forall; intros i [? ?]%list_elem_of_In%elem_of_seqZ; apply Hb; lia).
  induction Hl as [|i l Hi Hl IH]; cbn [List.find]; [done|]. by rewrite Hi.
Qed.

Section lookup.
Context (s : FsState) (dir : Z) (name : list Z) (Hok : fs_ok s) (Hdir : dir_ok s dir).
Context (Hname : Z.of_nat (length name) < MAXNAMELEN).
Notation nblk := (dir_blocks_of s dir).
Notation hit q := (matches (view s) (slot_va s dir q) name).

Lemma dir_size_ok : fsize s dir = nblk * BLKSIZE ∧ 0 ≤ nblk ∧ fsize s dir < 2 ^ 31.
Proof using Hdir.
  clear Hname.
  pose proof (do_size _ _ Hdir). pose proof (fa_size _ _ (do_file _ _ Hdir)). unfold dir_blocks_of.
  assert (fsize s dir < 2147483648) by (unfold fsize, i32 in *; pow2; case_match; zlia).
  unfold BLKSIZE, PGSIZE in *. pow2. zlia.
Qed.

(** The test of one slot. *)
Lemma slot_test s1 q : seen s s1 → 0 ≤ q < BLKFILES * nblk → ∃ s2, name_eq (slot_va s dir q) name s1 = Ret (hit q) s2 ∧ seen s s2.
Proof using Hdir Hname.
  intros Hs Hq. unfold MAXNAMELEN in Hname. change BLKFILES with 16 in *.
  assert (block_at s dir (q / 16)) as Hb by (apply (do_blocks _ _ Hdir); zlia).
  destruct (name_eq_ok name s1 (slot_va s dir q)) as (s2 & Hr & Hs2).
  - apply Hs.
  - intros j Hj. apply (seen_acc s); [done|]. unfold slot_va. rewrite <- Z.add_assoc. apply in_use_acc; [apply Hb|].
    change BLKFILES with 16. unfold FILE_SIZE, BLKSIZE, PGSIZE. zlia.
  - exists s2. split; [|by eapply seen_trans]. rewrite Hr. f_equal. apply matches_ext. intros a. by apply seen_view.
Qed.

Lemma dir_lookup_ok : ∃ s', dir_lookup dir name s =
  Ret (match dir_find s dir name with Some q => (0, slot_va s dir q) | None => (- E_NOT_FOUND, 0) end) s' ∧ seen s s'.
Proof using All.
  destruct dir_size_ok as (Hsz & Hn & Hmax). set (P (r : Z * Z) (s' : FsState) := r = match dir_find s dir name with Some q => (0, slot_va s dir q) | None => (- E_NOT_FOUND, 0) end ∧ seen s s').
  enough (wp (dir_lookup dir name) s P) as Hw by (apply wp_returns in Hw as (r & s' & Hr & -> & Hs'); by exists s').
  unfold dir_lookup, load_off_t. wp_steps. destruct (load_field s dir 128 Hok (do_file _ _ Hdir)) as [Hl Hs1]; [done..|].
  eapply wp_of_run; [exact Hl|]. fold (f_size dir). fold (fsize s dir). wp_steps.
  rewrite Hsz, Z.rem_mul by done. cbn [Z.eqb assert_]. wp_steps.
  rewrite Z.quot_mul, u32_id by (done || (unfold BLKSIZE, PGSIZE in *; pow2; lia)).
  apply (wpx_for_range _ _ _ _ _ _ (λ i s', seen s s' ∧ ∀ q, 0 ≤ q < BLKFILES * i → hit q = false)); [lia|split; [done|intros; lia]|..].
  - intros i s1 Hi [Hs Hno]. wp_step. destruct (file_get_block_ok s1 dir i) as (s2 & Hg & Hs2);
      [apply Hs|by apply (seen_file s), Hdir|by apply (seen_block s), Hdir|].
    eapply wp_of_run; [exact Hg|]. cbn [fst snd Z.ltb Z.compare]. rewrite (seen_fblock s s1) by done.
    apply (wpx_for_range _ _ _ _ _ _ (λ j s', seen s s' ∧ ∀ q, 0 ≤ q < BLKFILES * i + j → hit q = false)); [done|split; [by eapply seen_trans|intros; apply Hno; lia]|..].
    + intros j s3 Hj [Hs3 Hno']. wp_step. change BLKFILES with 16 in *.
      assert (f_name (blk_va (fblock s dir i) + FILE_SIZE * j) = slot_va s dir (16 * i + j)) as Hslot.
      { unfold f_name, slot_va. change BLKFILES with 16. replace ((16 * i + j) / 16) with i by zlia. replace ((16 * i + j) mod 16) with j by zlia. done. }
      rewrite Hslot. unfold f_name in Hslot.
      destruct (slot_test s3 (16 * i + j) Hs3) as (s4 & Ht & Hs4); [change BLKFILES with 16; lia|].
      eapply wp_of_run; [exact Ht|]. wp_step. destruct (hit (16 * i + j)) eqn:Eh; cbn match.
      * wp_steps. split; [|done]. cbn [default from_option]. unfold dir_find.
        rewrite (find_seqZ_some _ _ (16 * i + j)); [by rewrite Hslot|change BLKFILES with 16; lia|done|exact Hno'].
      * split; [done|]. intros q Hq. destruct (decide (q = 16 * i + j)) as [->|]; [done|apply Hno'; lia].
    + intros s3 [Hs3 Hno']. split; [done|]. intros q Hq. apply Hno'. lia.
  - intros s1 [Hs Hno]. wp_steps. split; [|done]. cbn [default from_option]. unfold dir_find. by rewrite find_seqZ_none.
Qed.
End lookup.

(** ** Paths *)

(** The elements of a path: what is between its slashes. *)
Fixpoint split_from (cur p : list Z) : list (list Z) :=
  match p with
  | [] => if bool_decide (cur = []) then [] else [cur]
  | c :: p => if c =? slash then (if bool_decide (cur = []) then [] else [cur]) ++ split_from [] p else split_from (cur ++ [c]) p
  end.
Definition split_path : list Z → list (list Z) := split_from [].

Lemma split_skip p : split_path (skip_slash p) = split_path p.
Proof. unfold split_path. induction p as [|c p IH]; cbn [skip_slash split_from app]; [done|]. destruct (c =? slash) eqn:E; [exact IH|]. cbn [split_from]. by rewrite E. Qed.

Lemma split_elem cur p : split_from cur p =
  (if bool_decide (cur ++ fst (path_elem p) = []) then [] else [cur ++ fst (path_elem p)]) ++ split_path (snd (path_elem p)).
Proof.
  revert cur. induction p as [|c p IH]; intros cur; cbn [path_elem split_from].
  - cbn [fst snd]. rewrite app_nil_r. unfold split_path. cbn. by rewrite app_nil_r.
  - destruct (c =? slash) eqn:E; cbn [fst snd].
    + rewrite app_nil_r. unfold split_path. cbn [split_from]. by rewrite E.
    + destruct (path_elem p) as [e r] eqn:Ep. cbn [fst snd]. rewrite IH. cbn [fst snd]. by rewrite <- app_assoc.
Qed.

(** A path that starts with an element. *)
Lemma split_cons c p : c ≠ slash → fst (path_elem (c :: p)) ≠ [] ∧
  split_path (c :: p) = fst (path_elem (c :: p)) :: split_path (skip_slash (snd (path_elem (c :: p)))) ∧
  (length (skip_slash (snd (path_elem (c :: p)))) ≤ length p)%nat.
Proof.
  intros Hc. assert (fst (path_elem (c :: p)) ≠ []) as Hne.
  { cbn [path_elem]. rewrite (proj2 (Z.eqb_neq _ _)) by done. by destruct (path_elem p). }
  split_and!; [done| |].
  - unfold split_path at 1. rewrite split_elem. cbn [app]. rewrite bool_decide_false by done. by rewrite split_skip.
  - assert (∀ q, (length (skip_slash q) ≤ length q)%nat) as Hs.
    { clear. intros q. induction q as [|c q IH]; cbn [skip_slash length]; [done|]. case_match; cbn [length]; lia. }
    assert (∀ q, (length (snd (path_elem q)) ≤ length q)%nat) as Hr.
    { clear. intros q. induction q as [|c q IH]; cbn [path_elem length]; [done|]. case_match; cbn [length snd]; [done|].
      destruct (path_elem q). cbn [snd] in *. lia. }
    cbn [path_elem]. rewrite (proj2 (Z.eqb_neq _ _)) by done. pose proof (Hr p). destruct (path_elem p) as [e r]. cbn [snd] in *.
    pose proof (Hs r). lia.
Qed.

Lemma skip_head p : match skip_slash p with [] => True | c :: _ => c ≠ slash end.
Proof. induction p as [|c p IH]; cbn [skip_slash]; [done|]. destruct (c =? slash) eqn:E; [exact IH|]. by apply Z.eqb_neq. Qed.

(** The walk of the elements through [dir_find], from [f] in [dir]. *)
Fixpoint resolve (s : FsState) (dir f : Z) (elems : list (list Z)) : walked :=
  match elems with
  | [] => mkWalked 0 dir f []
  | e :: elems =>
      if MAXNAMELEN <=? Z.of_nat (length e) then mkWalked (- E_BAD_PATH) 0 0 []
      else if negb (vld32 (view s) (f_type f) =? FTYPE_DIR) then mkWalked (- E_NOT_FOUND) 0 0 []
      else match dir_find s f e with
           | Some q => resolve s f (slot_va s f q) elems
           | None => if bool_decide (elems = []) then mkWalked (- E_NOT_FOUND) f 0 e else mkWalked (- E_NOT_FOUND) 0 0 []
           end
  end.

(** Whatever directories the walk comes through are good. *)
Fixpoint walk_ok (s : FsState) (f : Z) (elems : list (list Z)) : Prop :=
  match elems with
  | [] => True
  | e :: elems =>
      file_at s f ∧ (vld32 (view s) (f_type f) = FTYPE_DIR → dir_ok s f ∧
        match dir_find s f e with Some q => walk_ok s (slot_va s f q) elems | None => True end)
  end.

Lemma seen_slot s s' dir q : seen s s' → slot_va s' dir q = slot_va s dir q.
Proof. intros H. unfold slot_va. by rewrite (seen_fblock s s'). Qed.
Lemma seen_dblocks s s' dir : seen s s' → dir_blocks_of s' dir = dir_blocks_of s dir.
Proof. intros H. unfold dir_blocks_of, fsize. by rewrite (seen_vld s s'). Qed.

Lemma seen_find s s' dir name : seen s s' → dir_find s' dir name = dir_find s dir name.
Proof.
  intros H. unfold dir_find. rewrite (seen_dblocks s s') by done. induction (seqZ _ _) as [|q l IH]; cbn [List.find]; [done|].
  rewrite (seen_slot s s') by done. rewrite (matches_ext (view s') (view s)) by (intros a; by apply seen_view). by rewrite IH.
Qed.
Lemma seen_dir s s' dir : seen s s' → dir_ok s dir → dir_ok s' dir.
Proof.
  intros H [H1 H2 H3]. split; [by eapply seen_file|unfold fsize; by rewrite (seen_vld s s')|].
  rewrite (seen_dblocks s s') by done. intros i Hi. eapply seen_block; [done|by apply H3].
Qed.
Lemma seen_resolve s s' elems : seen s s' → ∀ dir f, resolve s' dir f elems = resolve s dir f elems.
Proof.
  intros H. induction elems as [|e elems IH]; intros dir f; cbn [resolve]; [done|].
  rewrite (seen_vld s s'), (seen_find s s') by done. repeat case_match; try done. by rewrite (seen_slot s s'), IH.
Qed.
Lemma seen_walk_ok s s' elems : seen s s' → ∀ f, walk_ok s f elems → walk_ok s' f elems.
Proof.
  intros H. induction elems as [|e elems IH]; intros f; cbn [walk_ok]; [done|]. intros [H1 H2]. split; [by eapply seen_file|].
  rewrite (seen_vld s s'), (seen_find s s') by done. intros Ht. destruct (H2 Ht) as [Hd Hr]. split; [by eapply seen_dir|].
  case_match; [|done]. rewrite (seen_slot s s') by done. by apply IH.
Qed.

Lemma walk_loop_ok n : ∀ path dir f s, (length path ≤ n)%nat → match path with [] => True | c :: _ => c ≠ slash end →
  fs_ok s → walk_ok s f (split_path path) →
  ∃ s', walk_loop n path dir f s = Ret (resolve s dir f (split_path path)) s' ∧ seen s s'.
Proof.
  induction n as [|n IH]; intros path dir f s Hlen Hhd Hok Hwalk.
  { destruct path; [|cbn in Hlen; lia]. by exists s. }
  destruct path as [|c p]; [by exists s|]. cbn [length] in Hlen.
  destruct (split_cons c p Hhd) as (Hne & Hsp & Hl). rewrite Hsp in *. cbn [walk_loop resolve walk_ok] in *.
  destruct (path_elem (c :: p)) as [e r]. cbn [fst snd] in *. destruct Hwalk as [Hf Hdir].
  destruct (Z.leb_spec MAXNAMELEN (Z.of_nat (length e))); [by exists s|].
  destruct (load_field s f 132 Hok Hf) as [Hld Hs1]; [done..|]. unfold f_type. rewrite (run_bind _ _ _ _ _ Hld).
  fold (f_type f) in *. set (s1 := touched (f_type f) s) in *.
  destruct (vld32 (view s) (f_type f) =? FTYPE_DIR) eqn:Et; cbn [negb]; [|by exists s1]. apply Z.eqb_eq in Et.
  destruct (Hdir Et) as [Hd Hrest]. destruct (dir_lookup_ok s1 f e) as (s2 & Hlk & Hs2); [apply Hs1|by eapply seen_dir|done|].
  rewrite (run_bind _ _ _ _ _ Hlk). rewrite (seen_find s s1) by done. assert (seen s s2) as Hs by by eapply seen_trans.
  destruct (dir_find s f e) as [q|]; cbn [fst snd].
  - cbn [Z.ltb Z.compare]. rewrite (seen_slot s s1) by done.
    destruct (IH (skip_slash r) f (slot_va s f q) s2) as (s3 & Hr & Hs3);
      [lia|apply skip_head|apply Hs|by eapply seen_walk_ok|]. exists s3. split; [|by eapply seen_trans].
    rewrite Hr. by rewrite (seen_resolve s s2).
  - change (- E_NOT_FOUND <? 0) with true. cbn match. rewrite Z.eqb_refl. cbn [andb]. exists s2. split; [|done].
    unfold mret, M_ret. f_equal. assert (bool_decide (skip_slash r = []) = bool_decide (split_path (skip_slash r) = [])) as ->; [|done].
    apply bool_decide_ext. split; [by intros ->|]. intros H0. pose proof (skip_head r) as Hh. destruct (skip_slash r) as [|c' p']; [done|].
    destruct (split_cons c' p' Hh) as (_ & Hsp' & _). congruence.
Qed.

Lemma walk_path_ok s path : fs_ok s → walk_ok s (s_root (blk_va 1)) (split_path path) →
  ∃ s', walk_path path s = Ret (resolve s 0 (s_root (blk_va 1)) (split_path path)) s' ∧ seen s s'.
Proof.
  intros Hok Hw. unfold walk_path. rewrite run_gets, (fo_super _ Hok). rewrite <- split_skip in *.
  apply walk_loop_ok; [|apply skip_head|done|done].
  clear. induction path as [|c p IH]; cbn [skip_slash length]; [done|]. case_match; cbn [length]; lia.
Qed.

(** C27. walk_path on every path, errors included, is the walk of the elements
    between the slashes through the first-match lookup in each directory, and
    changes nothing but what the cache holds. *)
Theorem walk_path_correct s path : fs_ok s → walk_ok s (s_root (blk_va 1)) (split_path path) →
  ∃ s', walk_path path s = Ret (resolve s 0 (s_root (blk_va 1)) (split_path path)) s' ∧ seen s s'.
Proof. apply walk_path_ok. Qed.
