(* ===== verification/FsCreate.v ===== *)
(** * Creating files (fs/fs.c dir_alloc_file, file_flush, file_create)

    What file_create answers, the entry it takes in a directory that has a free
    one, the bytes it changes, and that they are on the disk when it returns. *)
From stdpp Require Import gmap.
From S2P Require Import Prelude Mem StringC Printfmt KState Bc Fs FsView FsSpec FsIO FsDir.

(** ** Reads do not make blocks dirty *)
Section clean.
Context (D : gset Z).
Definition within (s : FsState) : Prop := fs_dirty s ⊆ D.

Section touch.
Context (t : Z → F unit) (Ht : ∀ va, keeps within (t va)).

Lemma within_load32_by va : keeps within (load32_by t va).
Proof using Ht. unfold load32_by. apply keeps_bind; auto with keeps. Qed.
Lemma within_block_is_free_by b : keeps within (block_is_free_by t b).
Proof using Ht. pose proof within_load32_by. unfold block_is_free_by. keeps_tac. Qed.

Lemma within_read_in b s : within s → within (read_in b s).
Proof. unfold within. cbn [read_in fs_dirty]. set_solver. Qed.

Lemma within_bc_pgfault va : keeps within (bc_pgfault t va).
Proof using Ht.
  pose proof within_load32_by. pose proof within_block_is_free_by. unfold bc_pgfault.
  destruct (in_map va) eqn:Hin; cbn [negb]; [|auto with keeps].
  apply keeps_bind; [auto with keeps|intros sup].
  apply keeps_bind; [keeps_tac|intros []]; [auto with keeps|].
  rewrite page_addr, blk_of_blk_va. apply in_map_range in Hin.
  intros s Hs. cbv zeta. rewrite read_in_run by done. destruct (_ <=? 0); [done|].
  refine ((_ : keeps within _) _ (within_read_in (blk_of va) s Hs)). keeps_tac.
Qed.
End touch.

Lemma within_touch va : keeps within (touch va).
Proof.
  unfold touch. generalize 3%nat. intros n. revert va.
  induction n as [|n IH]; intros va; cbn [touch_depth]; apply keeps_bind; auto with keeps;
    intros s0; case_match; auto with keeps. by apply within_bc_pgfault.
Qed.
Lemma within_touch_all va n : keeps within (touch_all va n).
Proof. pose proof within_touch. unfold touch_all. keeps_tac. Qed.
Lemma within_load8 va : keeps within (load8 va).
Proof. pose proof within_touch_all. unfold load8. keeps_tac. Qed.
Lemma within_load32 va : keeps within (load32 va).
Proof. pose proof within_touch_all. unfold load32. keeps_tac. Qed.
Lemma within_diskaddr b : keeps within (diskaddr b).
Proof. pose proof (within_load32_by touch within_touch). unfold diskaddr. keeps_tac. Qed.
Lemma within_walk f i : keeps within (file_block_walk f i false).
Proof. pose proof within_load32. pose proof within_diskaddr. unfold file_block_walk, load_off_t. keeps_tac. Qed.
End clean.

Lemma reads_clean {A} (m : F A) s a s' : (∀ D, keeps (within D) m) → m s = Ret a s' → fs_dirty s' ⊆ fs_dirty s.
Proof. intros H Hr. specialize (H (fs_dirty s) s (reflexivity _)). by rewrite Hr in H. Qed.

(** ** file_flush *)

(** [s'] is [s] seen through more blocks, none of them newly dirty. *)
Definition flushed (s s' : FsState) : Prop := seen s s' ∧ fs_dirty s' ⊆ fs_dirty s.

Lemma flushed_refl s : fs_ok s → flushed s s.
Proof. by split. Qed.
Lemma flushed_trans a b c : flushed a b → flushed b c → flushed a c.
Proof. intros [H1 H2] [H3 H4]. split; [by eapply seen_trans|by etransitivity]. Qed.

Lemma flush_flushed va s : fs_ok s → in_map va = true →
  ∃ s', flush_block va s = Ret tt s' ∧ flushed s s' ∧ (blk_of va ∈ fs_mapped s → blk_of va ∉ fs_dirty s').
Proof.
  intros Hok Hin. destruct (flush_block_ok va s Hok Hin) as (s' & Hr & H1 & H2 & H3 & H4 & H5).
  exists s'. split; [done|]. split; [|done]. split.
  - split_and!; [done|done|by rewrite H3|by rewrite H4].
  - revert Hr. unfold flush_block. rewrite Hin. cbn [negb]. rewrite run_get. repeat case_match; try (by intros [= <-]).
    unfold va_is_mapped, va_is_dirty in *. destruct (bool_decide (blk_of va ∈ fs_mapped s)) eqn:Hm; [|done]. apply bool_decide_eq_true in Hm.
    rewrite page_addr, blk_of_blk_va, write_back_run by (done || by apply in_map_range). intros [= <-]. cbn [written_back fs_dirty]. set_solver.
Qed.

(** The indirect block of [f], where it has one. *)
Definition ind_ok (s : FsState) (f : Z) : Prop := find s f = 0 ∨ in_use s (find s f).

Lemma in_use_map s b : fs_ok s → in_use s b → in_map (blk_va b) = true.
Proof. intros Hok [Hb _]. apply in_map_blk. pose proof (fo_nb s Hok). lia. Qed.

(** One block of the loop of file_flush. *)
Lemma flush_one s f i : fs_ok s → file_at s f → block_at s f i →
  ∃ s', (w ← file_block_walk f i false;
    if (fst w <? 0) || (snd w =? 0) then mret tt
    else b ← load32 (snd w); if b =? 0 then mret tt else a ← diskaddr b; flush_block a) s = Ret tt s' ∧
  flushed s s' ∧ (fblock s f i ∈ fs_mapped s → fblock s f i ∉ fs_dirty s').
Proof.
  intros Hok Hf Hb. destruct (file_block_walk_ok s f i false Hok Hf Hb) as (s1 & Hw & Hs1).
  pose proof (reads_clean _ _ _ _ (λ D, within_walk D f i) Hw) as Hc1. rewrite (run_bind _ _ _ _ _ Hw). cbn [fst snd Z.ltb Z.compare orb].
  destruct (slot_acc s f i Hf Hb) as [Ha Hal]. pose proof (seen_acc s s1 _ Hs1 Ha) as Ha1.
  assert (slot s f i ≠ 0) as Hne.
  { unfold slot. pose proof (fa_map s f Hf) as Hm. pose proof (fa_page s f Hf). intros H0.
    unfold f_direct, blk_va, BLKSIZE, PGSIZE, DISKMAP in H0. unfold in_map, DISKMAP in Hm. apply andb_true_iff in Hm as [Hm _]. rewrite Z.leb_le in Hm.
    destruct (Z.ltb_spec i 10); [destruct Hb as [[? _] _ _ _]; lia|]. destruct (ba_ind _ _ _ Hb) as [? _]; lia. }
  rewrite (proj2 (Z.eqb_neq _ 0)) by done. rewrite (run_bind _ _ _ _ _ (load32_ok _ s1 (proj1 Hs1) Ha1 Hal)).
  rewrite (seen_vld s s1) by done. fold (fblock s f i). pose proof (ba_blk s f i Hb) as Hu.
  rewrite (proj2 (Z.eqb_neq _ 0)) by (destruct Hu; lia).
  pose proof (touched_seen _ _ (proj1 Hs1) Ha1) as Hs2. set (s2 := touched (slot s f i) s1) in *.
  assert (fs_dirty s2 ⊆ fs_dirty s1) as Hc2 by (unfold s2, touched; case_match; cbn [read_in fs_dirty]; set_solver).
  pose proof (seen_trans _ _ _ Hs1 Hs2) as Hs. pose proof (seen_in_use s s2 _ Hs Hu) as Hu2.
  rewrite (run_bind _ _ _ _ _ (diskaddr_ok _ s2 (proj1 Hs2) (proj1 Hu2))).
  destruct (flush_flushed (blk_va (fblock s f i)) s2) as (s3 & Hr & [Hs3 Hc3] & Hcl); [apply Hs2|eapply in_use_map; [apply Hs2|done]|].
  rewrite blk_of_blk_va in Hcl. exists s3. split; [done|]. split; [split; [by eapply seen_trans|set_solver]|].
  intros Hm. apply Hcl. apply Hs. done.
Qed.

Lemma file_flush_ok s f n : fs_ok s → file_at s f → fsize s f = n * BLKSIZE → (∀ i, 0 ≤ i < n → block_at s f i) → ind_ok s f →
  ∃ s', file_flush f s = Ret tt s' ∧ flushed s s' ∧ ∀ i, 0 ≤ i < n → fblock s f i ∈ fs_mapped s → fblock s f i ∉ fs_dirty s'.
Proof.
  intros Hok Hf Hsz Hb Hind. pose proof (fa_size s f Hf) as H0. assert (0 ≤ n) by (unfold BLKSIZE, PGSIZE in *; lia).
  set (P (_ : unit) (s' : FsState) := flushed s s' ∧ ∀ i, 0 ≤ i < n → fblock s f i ∈ fs_mapped s → fblock s f i ∉ fs_dirty s').
  enough (wp (file_flush f) s P) as Hw by (apply wp_returns in Hw as ([] & s' & Hr & ?); by exists s').
  unfold file_flush, load_off_t. wp_steps. destruct (load_field s f 128 Hok Hf) as [Hl Hs1]; [done..|].
  eapply wp_of_run; [exact Hl|]. pose proof (reads_clean _ _ _ _ (λ D, within_load32 D (f + 128)) Hl) as Hc1.
  fold (f_size f) in *. fold (fsize s f). wp_steps. rewrite Hsz.
  replace (Z.quot (n * BLKSIZE + BLKSIZE - 1) BLKSIZE) with n
    by (rewrite Z.quot_div_nonneg by (unfold BLKSIZE, PGSIZE; lia); unfold BLKSIZE, PGSIZE; zlia).
  apply (wpx_for_each _ _ _ _ _ _ (λ i s', flushed s s' ∧ ∀ j, 0 ≤ j < i → fblock s f j ∈ fs_mapped s → fblock s f j ∉ fs_dirty s')); [done|split; [done|intros; lia]|..].
  - intros i s1 Hi [[Hs Hc] Hcl]. destruct (flush_one s1 f i) as (s2 & Hr & [Hs2 Hc2] & Hcl2);
      [apply Hs|by apply (seen_file s)|apply (seen_block s); auto|]. eapply wp_of_run; [exact Hr|].
    rewrite (seen_fblock s s1) in Hcl2 by done. split; [split; [by eapply seen_trans|set_solver]|].
    intros j Hj Hm. destruct (decide (j = i)) as [->|]; [apply Hcl2; by apply Hs|].
    specialize (Hcl j ltac:(lia) Hm). set_solver.
  - intros s1 [Hfl Hcl]. destruct (flush_flushed f s1) as (s2 & Hr & Hfl2 & _); [apply Hfl|apply Hf|].
    wp_step. eapply wp_of_run; [exact Hr|]. pose proof (flushed_trans _ _ _ Hfl Hfl2) as Hs. wp_step.
    destruct (load_field s2 f 176) as [Hl2 Hs3]; [apply Hs|apply (seen_file s); [apply Hs|done]|done..|].
    eapply wp_of_run; [exact Hl2|]. pose proof (reads_clean _ _ _ _ (λ D, within_load32 D (f + 176)) Hl2) as Hc3.
    fold (f_indirect f) in *. rewrite (seen_vld s s2) by apply Hs. fold (find s f). set (s3 := touched (f_indirect f) s2) in *.
    assert (flushed s s3) as Hs' by (eapply flushed_trans; [exact Hs|by split]).
    destruct Hind as [->|Hu]; [apply wpx_ret; split; [done|]; intros j Hj Hm; specialize (Hcl j Hj Hm); destruct Hfl2, Hs'; set_solver|].
    rewrite (proj2 (Z.eqb_neq _ 0)) by (destruct Hu; lia). cbn [negb]. pose proof (seen_in_use s s3 _ (proj1 Hs') Hu) as Hu3.
    wp_step. eapply wp_of_run; [apply diskaddr_ok; [apply Hs'|apply Hu3]|].
    destruct (flush_flushed (blk_va (find s f)) s3) as (s4 & Hr4 & Hfl4 & _); [apply Hs'|eapply in_use_map; [apply Hs'|done]|].
    eapply wp_of_run; [exact Hr4|]. split; [by eapply flushed_trans|]. intros j Hj Hm. specialize (Hcl j Hj Hm).
    destruct Hfl2, Hfl4. set_solver.
Qed.

(** ** A free slot *)

Definition slot_free (s : FsState) (dir q : Z) : bool := view s (slot_va s dir q) =? 0.
Definition first_free (s : FsState) (dir : Z) : option Z :=
  List.find (slot_free s dir) (seqZ 0 (BLKFILES * dir_blocks_of s dir)).

Lemma find_seqZ_inv (p : Z → bool) n q : List.find p (seqZ 0 n) = Some q → 0 ≤ q < n ∧ p q = true ∧ ∀ i, 0 ≤ i < q → p i = false.
Proof.
  intros Hf. pose proof (find_first p (seqZ 0 n)) as H. rewrite Hf in H. destruct H as (l1 & l2 & Heq & Hp & Hl).
  assert (seqZ 0 n !! length l1 = Some q) as Hq by (rewrite Heq; by apply list_lookup_middle).
  apply lookup_seqZ in Hq as [Hq Hlt]. split_and!; [lia|lia|done|]. intros i Hi.
  assert (seqZ 0 n !! Z.to_nat i = Some i) as Hi' by (apply lookup_seqZ; lia).
  rewrite Heq, lookup_app_l in Hi' by lia. rewrite List.Forall_forall in Hl. apply Hl, list_elem_of_In. by eapply list_elem_of_lookup_2.
Qed.

Section alloc.
Context (s : FsState) (dir : Z) (Hok : fs_ok s) (Hdir : dir_ok s dir).
Notation nblk := (dir_blocks_of s dir).

Lemma dir_alloc_file_ok q : first_free s dir = Some q → ∃ s', dir_alloc_file dir s = Ret (0, slot_va s dir q) s' ∧ seen s s'.
Proof using All.
  intros Hq. destruct (find_seqZ_inv _ _ _ Hq) as (Hq0 & Hfree & Hbefore). destruct (dir_size_ok s dir Hdir) as (Hsz & Hn & Hmax).
  enough (wp (dir_alloc_file dir) s (λ r s', r = (0, slot_va s dir q) ∧ seen s s')) as Hw by (apply wp_returns in Hw as (r & s' & Hr & -> & Hs'); by exists s').
  unfold dir_alloc_file, load_off_t. wp_steps. destruct (load_field s dir 128 Hok (do_file _ _ Hdir)) as [Hl Hs1]; [done..|].
  eapply wp_of_run; [exact Hl|]. fold (f_size dir). fold (fsize s dir). wp_steps.
  rewrite Hsz, Z.rem_mul by done. cbn [Z.eqb assert_]. wp_steps.
  rewrite Z.quot_mul, u32_id by (done || (unfold BLKSIZE, PGSIZE in *; pow2; lia)). change BLKFILES with 16 in *.
  apply (wpx_for_range _ _ _ _ _ _ (λ i s', seen s s' ∧ 16 * i ≤ q)); [lia|split; [done|lia]|..].
  - intros i s1 Hi [Hs Hno]. wp_step. destruct (file_get_block_ok s1 dir i) as (s2 & Hg & Hs2);
      [apply Hs|by apply (seen_file s), Hdir|by apply (seen_block s), Hdir|].
    eapply wp_of_run; [exact Hg|]. cbn [fst snd Z.ltb Z.compare]. rewrite (seen_fblock s s1) by done.
    apply (wpx_for_range _ _ _ _ _ _ (λ j s', seen s s' ∧ 16 * i + j ≤ q)); [done|split; [by eapply seen_trans|lia]|..].
    + intros j s3 Hj [Hs3 Hno']. wp_step.
      assert (f_name (blk_va (fblock s dir i) + FILE_SIZE * j) = slot_va s dir (16 * i + j)) as Hslot.
      { unfold f_name, slot_va. change BLKFILES with 16. replace ((16 * i + j) / 16) with i by zlia. replace ((16 * i + j) mod 16) with j by zlia. done. }
      rewrite Hslot. unfold f_name in Hslot.
      assert (acc s3 (slot_va s dir (16 * i + j))) as Ha.
      { apply (seen_acc s); [done|]. rewrite <- Hslot. apply in_use_acc; [apply (do_blocks _ _ Hdir i Hi)|]. unfold FILE_SIZE, BLKSIZE, PGSIZE. lia. }
      eapply wp_of_run; [apply load8_ok; [apply Hs3|exact Ha]|]. rewrite (seen_view s s3) by done. wp_step.
      pose proof (seen_trans _ _ _ Hs3 (touched_seen _ _ (proj1 Hs3) Ha)) as Hs4.
      destruct (decide (16 * i + j = q)) as [He|Hne].
      * rewrite He in *. unfold slot_free in Hfree. rewrite Hfree. wp_steps. by rewrite Hslot.
      * pose proof (Hbefore (16 * i + j) ltac:(lia)) as Hb. unfold slot_free in Hb. rewrite Hb. split; [done|lia].
    + intros s3 [Hs3 Hno']. split; [done|lia].
  - intros s1 [Hs Hno]. lia.
Qed.

(** Only the data blocks of a directory that is not in them. *)
Definition own_blocks : Prop := ∀ i, 0 ≤ i < nblk → ¬ meta_blk s dir (fblock s dir i).
End alloc.

(** ** Storing a name *)

(** [s'] is [s] with [l] at [va]. *)
Record wrote (va : Z) (l : list Z) (s s' : FsState) : Prop := {
  wr_ok : fs_ok s';
  wr_view a : view s' a = if decide (va ≤ a < va + Z.of_nat (length l)) then nth (Z.to_nat (a - va)) l 0 else view s a;
  wr_mapped b : b ∈ fs_mapped s → b ∈ fs_mapped s';
  wr_here : l ≠ [] → in_map va = true → blk_of va ∈ fs_mapped s' }.

Lemma store8_ok va v s : fs_ok s → acc s va → off_nb va 1 → 0 ≤ v < 256 → ∃ s', store8 va v s = Ret tt s' ∧ wrote va [v] s s'.
Proof.
  intros Hok Ha Hnb Hv. unfold store8. erewrite run_bind by (apply touch_all_one; [f_equal; lia|done..]).
  destruct (touched_ok va s Hok Ha) as (Hok1 & Hsd & Hm). pose proof (touched_seen va s Hok Ha) as (_ & _ & _ & Hmm).
  destruct (write_ok va 1 (λ m, stb m va v) (touched va s)) as [Hok2 Hvw]; try done.
  - intros m c Hc. apply ldb_stb_ne. lia.
  - intros m. apply bytes_ok_stb.
  - intros a Hr. f_equal. lia.
  - eexists. split; [reflexivity|]. split; [exact Hok2| |exact Hmm|intros _; exact Hm].
    intros a. rewrite Hvw. change (Z.of_nat (length [v])) with 1. case_decide; [|apply Hsd]. assert (a = va) as -> by lia.
    rewrite ldb_stb_eq, Z.sub_diag. by apply u8_id.
Qed.

(** A block that is neither the super block nor the bitmap. *)
Definition plain (s : FsState) (b : Z) : Prop := b ≠ 1 ∧ ¬ ∃ k, 0 ≤ k ∧ k * BLKBITSIZE < nblocks s ∧ b = 2 + k.

Section write.
Context (b : Z).
Definition in_blk (va n : Z) : Prop := blk_va b ≤ va ∧ va + n ≤ blk_va b + BLKSIZE.

Lemma in_blk_of va n c : in_blk va n → va ≤ c < va + n → blk_of c = b.
Proof. intros [H1 H2] Hc. unfold blk_of, blk_va, BLKSIZE, PGSIZE, DISKMAP in *. zlia. Qed.

Lemma wrote_same va l s s' : plain s b → in_blk va (Z.of_nat (length l)) → wrote va l s s' →
  nblocks s' = nblocks s ∧ ∀ c, 0 ≤ c < nblocks s → is_free s' c = is_free s c.
Proof.
  intros [H1 Hbm] Hin Hw. assert (∀ a, blk_of a ≠ b → view s' a = view s a) as Hv.
  { intros a Ha. rewrite (wr_view _ _ _ _ Hw), decide_False; [done|]. intros Hc. apply Ha. by eapply in_blk_of. }
  assert (∀ a c, a mod 4 = 0 → blk_of a ≠ b → a ≤ c < a + 4 → view s' c = view s c) as Hv4.
  { intros a c Ha Hne Hc. apply Hv. replace c with (a + (c - a)) by lia. rewrite blk_of_near by (done || lia). done. }
  split.
  - unfold nblocks. apply vldn_ext. intros c Hc. apply (Hv4 (blk_va 1 + 4)); [done|rewrite super_word_blk; congruence|cbn in Hc; lia].
  - intros c Hc. unfold is_free. do 2 f_equal. apply vldn_ext. intros a Ha. apply (Hv4 (bitmap_word (blk_va 2) c)); [apply bitmap_word_aligned| |cbn in Ha; lia].
    rewrite bitmap_word_blk by lia. intros He. apply Hbm. exists (c / BLKBITSIZE). unfold BLKBITSIZE, BLKSIZE, PGSIZE in *. split_and!; [zlia|zlia|done].
Qed.

Lemma wrote_in_use va l s s' c : plain s b → in_blk va (Z.of_nat (length l)) → wrote va l s s' → in_use s c → in_use s' c.
Proof. intros Hp Hin Hw [Hc Hf]. destruct (wrote_same va l s s' Hp Hin Hw) as [Hn Hfr]. unfold in_use. rewrite Hn, Hfr by lia. done. Qed.

Lemma store_str_ok l : ∀ s va, fs_ok s → in_use s b → plain s b → in_blk va (Z.of_nat (length l) + 1) → Forall (λ c, 0 ≤ c < 256) l →
  ∃ s', store_str va l s = Ret tt s' ∧ wrote va (l ++ [0]) s s'.
Proof.
  assert (∀ s va v, fs_ok s → in_use s b → plain s b → in_blk va 1 → 0 ≤ v < 256 → ∃ s', store8 va v s = Ret tt s' ∧ wrote va [v] s s') as H8.
  { intros s va v Hok Hu [H1 _] Hin Hv. pose proof (in_blk_of va 1 va Hin ltac:(lia)) as Hb. apply store8_ok; [done| | |done].
    - intros _. right. rewrite Hb. exact Hu.
    - unfold off_nb. unfold blk_of, blk_va, BLKSIZE, PGSIZE, DISKMAP in *. zlia. }
  induction l as [|v l IH]; intros s va Hok Hu Hp Hin Hl; cbn [store_str length app] in *; [by apply H8|].
  inversion_clear Hl as [|?? Hv Hl']. assert (in_blk va 1) as Hin1 by (unfold in_blk in *; lia).
  destruct (H8 s va v Hok Hu Hp Hin1 Hv) as (s1 & Hr1 & Hw1). rewrite (run_bind _ _ _ _ _ Hr1).
  destruct (wrote_same va [v] s s1 Hp Hin1 Hw1) as [Hn _].
  destruct (IH s1 (va + 1)) as (s2 & Hr2 & Hw2); [apply Hw1|by apply (wrote_in_use va [v] s)|unfold plain; by rewrite Hn|unfold in_blk in *; lia|done|].
  exists s2. split; [done|]. split.
  - apply Hw2.
  - intros a. rewrite (wr_view _ _ _ _ Hw2), (wr_view _ _ _ _ Hw1). cbn [length]. rewrite !length_app. cbn [length].
    destruct (decide (va + 1 ≤ a < va + 1 + Z.of_nat (length l + 1))).
    + rewrite decide_True by lia. replace (Z.to_nat (a - va)) with (S (Z.to_nat (a - (va + 1)))) by lia. done.
    + destruct (decide (va ≤ a < va + Z.of_nat 1)).
      * rewrite decide_True by lia. assert (a = va) as -> by lia. by rewrite Z.sub_diag.
      * rewrite decide_False by lia. done.
  - intros c Hc. by apply (wr_mapped _ _ _ _ Hw2), (wr_mapped _ _ _ _ Hw1).
  - intros _ Hm. apply (wr_mapped _ _ _ _ Hw2), (wr_here _ _ _ _ Hw1); done.
Qed.
End write.

(** ** file_create *)

Lemma split_from_all (P : Z → Prop) p : ∀ cur, Forall P cur → Forall P p → Forall (Forall P) (split_from cur p).
Proof.
  induction p as [|c p IH]; intros cur Hc Hp; cbn [split_from].
  - case_bool_decide; [constructor|by constructor].
  - inversion_clear Hp. case_match.
    + apply Forall_app. split; [case_bool_decide; [constructor|by constructor]|]. apply IH; [constructor|done].
    + apply IH; [|done]. apply Forall_app. split; [done|by constructor].
Qed.

Lemma resolve_no_file s elems : ∀ dir f, w_ret (resolve s dir f elems) = - E_NOT_FOUND → w_file (resolve s dir f elems) = 0.
Proof. induction elems as [|e elems IH]; intros dir f; cbn [resolve]; [done|]. repeat case_match; try done. apply IH. Qed.

(** A walk that ends at a missing last element. *)
Lemma resolve_missing s elems : ∀ dir f d l, walk_ok s f elems → resolve s dir f elems = mkWalked (- E_NOT_FOUND) d 0 l → d ≠ 0 →
  dir_ok s d ∧ dir_find s d l = None ∧ Z.of_nat (length l) < MAXNAMELEN ∧ l ∈ elems.
Proof.
  induction elems as [|e elems IH]; intros dir f d l Hw Hr Hd; cbn [resolve walk_ok] in *; [done|]. destruct Hw as [_ Hw].
  destruct (Z.leb_spec MAXNAMELEN (Z.of_nat (length e))); [by simplify_eq|].
  destruct (vld32 (view s) (f_type f) =? FTYPE_DIR) eqn:Et; cbn [negb] in *; [apply Z.eqb_eq in Et|by simplify_eq].
  destruct (Hw Et) as [Hdo Hrest]. destruct (dir_find s f e) as [q|] eqn:Ef.
  - destruct (IH _ _ _ _ Hrest Hr Hd) as (? & ? & ? & ?). split_and!; [done..|by right].
  - case_bool_decide; [|by simplify_eq]. simplify_eq. split_and!; [done|done|lia|by left].
Qed.

Lemma matches_local v v' va name : (∀ a, va ≤ a < va + Z.of_nat (length name) + 1 → v a = v' a) → matches v va name = matches v' va name.
Proof.
  revert va. induction name as [|x name IH]; intros va H; cbn [matches length] in *; rewrite H by lia; [done|].
  case_match; [|done]. apply IH. intros a Ha. apply H. lia.
Qed.

Lemma seen_free s s' dir : seen s s' → first_free s' dir = first_free s dir.
Proof.
  intros H. unfold first_free. rewrite (seen_dblocks s s') by done. induction (seqZ _ _) as [|q l IH]; cbn [List.find]; [done|].
  unfold slot_free in *. rewrite (seen_slot s s'), (seen_view s s') by done. by rewrite IH.
Qed.

(** The directory [dir] got the entry [name] in slot [q]: its bytes are the only
    change, the name is found there, and it is on the disk. *)
Record created (s s' : FsState) (dir q : Z) (name : list Z) : Prop := {
  cd_ok : fs_ok s';
  cd_view a : in_map a = true → view s' a = if decide (slot_va s dir q ≤ a < slot_va s dir q + Z.of_nat (length name) + 1)
    then nth (Z.to_nat (a - slot_va s dir q)) (name ++ [0]) 0 else view s a;
  cd_dir : dir_ok s' dir;
  cd_slots i : 0 ≤ i < BLKFILES * dir_blocks_of s dir → slot_va s' dir i = slot_va s dir i;
  cd_find : dir_find s' dir name = Some q;
  cd_disk j : 0 ≤ j < Z.of_nat (length name) + 1 → ldb (fs_disk s') (slot_va s dir q - DISKMAP + j) = nth (Z.to_nat j) (name ++ [0]) 0 }.

Section create.
Context (s : FsState) (dir q : Z) (name : list Z) (Hok : fs_ok s) (Hdir : dir_ok s dir).
Context (Hown : own_blocks s dir) (Hind : ind_ok s dir) (Hfree : first_free s dir = Some q).
Context (Hlen : Z.of_nat (length name) < MAXNAMELEN) (Hbytes : Forall (λ c, 0 ≤ c < 256) name).
Notation f := (slot_va s dir q).
Notation b := (fblock s dir (q / BLKFILES)).
Notation P := (λ a, f ≤ a < f + Z.of_nat (length name) + 1).

Lemma slot_place : 0 ≤ q / BLKFILES < dir_blocks_of s dir ∧ in_use s b ∧ plain s b ∧ in_blk b f (Z.of_nat (length name) + 1) ∧
  ∀ a, P a → blk_of a = b.
Proof using All.
  destruct (find_seqZ_inv _ _ _ Hfree) as (Hq & _ & _). change BLKFILES with 16 in *. unfold MAXNAMELEN in Hlen.
  assert (0 ≤ q / 16 < dir_blocks_of s dir) as Hi by zlia.
  assert (in_blk b f (Z.of_nat (length name) + 1)) as Hin.
  { unfold in_blk, slot_va. change BLKFILES with 16. unfold FILE_SIZE, BLKSIZE, PGSIZE. zlia. }
  split; [lia|]. split; [apply (do_blocks _ _ Hdir _ Hi)|]. split; [split|split; [exact Hin|]].
  - intros H1. apply (Hown _ Hi). left. exact H1.
  - intros Hk. apply (Hown _ Hi). right. left. exact Hk.
  - intros a Ha. eapply in_blk_of; [exact Hin|lia].
Qed.

Section write.
Context (s1 s2 s3 : FsState) (Hs : seen s s1) (Hw : wrote f (name ++ [0]) s1 s2) (Hfl : flushed s2 s3).

Lemma create_agree : agree P s s2.
Proof using Hs Hw.
  split_and!; [apply Hw| |].
  - intros a _ Ha. rewrite (wr_view _ _ _ _ Hw), decide_False; [by apply seen_view|]. rewrite length_app. cbn. lia.
  - intros c Hc. apply (wr_mapped _ _ _ _ Hw). by apply Hs.
Qed.

Lemma create_meta a : P a → ¬ meta_blk s dir (blk_of a).
Proof using Hok Hdir Hown Hind Hfree Hlen Hbytes. intros Ha. destruct slot_place as (Hi & _ & _ & _ & Hb). rewrite (Hb a Ha). by apply Hown. Qed.

Lemma create_keeps : file_at s2 dir ∧ fsize s2 dir = fsize s dir ∧ find s2 dir = find s dir ∧ ind_ok s2 dir ∧
  ∀ i, 0 ≤ i < dir_blocks_of s dir → block_at s2 dir i ∧ fblock s2 dir i = fblock s dir i.
Proof using Hok Hdir Hown Hind Hfree Hlen Hbytes Hs Hw.
  pose proof create_agree as Ha. pose proof create_meta as Hm. pose proof (do_file _ _ Hdir) as Hf.
  split_and!.
  - by apply (agree_file P s).
  - by apply (agree_fsize P s).
  - by apply (agree_find P s).
  - unfold ind_ok. rewrite (agree_find P s s2 dir Hf Ha Hm). destruct Hind as [H|H]; [by left|right]. by apply (agree_in_use P s s2 dir).
  - intros i Hi. pose proof (do_blocks _ _ Hdir i Hi). split; [by apply (agree_block P s)|by apply (agree_fblock P s)].
Qed.

Lemma create_dblocks : dir_blocks_of s2 dir = dir_blocks_of s dir.
Proof using Hok Hdir Hown Hind Hfree Hlen Hbytes Hs Hw. unfold dir_blocks_of. by rewrite (proj1 (proj2 create_keeps)). Qed.

Lemma create_view a : view s3 a = if decide (P a) then nth (Z.to_nat (a - f)) (name ++ [0]) 0 else view s a.
Proof using Hs Hw Hfl.
  rewrite (seen_view s2 s3) by apply Hfl. rewrite (wr_view _ _ _ _ Hw), length_app. cbn [length]. rewrite (seen_view s s1) by done.
  repeat case_decide; try done; lia.
Qed.

Lemma create_slot i : 0 ≤ i < BLKFILES * dir_blocks_of s dir → slot_va s3 dir i = slot_va s dir i.
Proof using All.
  intros Hi. rewrite (seen_slot s2 s3) by apply Hfl. unfold slot_va. change BLKFILES with 16 in *.
  destruct create_keeps as (_ & _ & _ & _ & Hb). destruct (Hb (i / 16) ltac:(zlia)) as [_ ->]. done.
Qed.

Lemma create_find : dir_find s dir name = None → dir_find s3 dir name = Some q.
Proof using All.
  intros Hnone. destruct (find_seqZ_inv _ _ _ Hfree) as (Hq & Hqf & Hbefore). unfold dir_find in *.
  rewrite (seen_dblocks s2 s3), create_dblocks by apply Hfl. apply find_seqZ_some; [done|..].
  - rewrite create_slot by done. apply matches_spec. intros j Hj. rewrite create_view, decide_True by lia. f_equal. lia.
  - intros i Hi. rewrite create_slot by lia.
    pose proof (find_none _ _ Hnone i) as Hn. cbv beta in Hn. rewrite <- Hn by (apply list_elem_of_In, elem_of_seqZ; lia).
    apply matches_local. intros a Ha. rewrite create_view. rewrite decide_False; [done|]. intros Hpa.
    assert (slot_va s dir i = f) as He.
    { unfold slot_va in *. change BLKFILES with 16 in *. unfold MAXNAMELEN, blk_va, FILE_SIZE, BLKSIZE, PGSIZE in *. zlia. }
    pose proof (Hbefore i Hi) as Hbf. unfold slot_free in Hbf, Hqf. rewrite He in Hbf. congruence.
Qed.

Lemma create_disk j : fblock s2 dir (q / BLKFILES) ∉ fs_dirty s3 → 0 ≤ j < Z.of_nat (length name) + 1 →
  ldb (fs_disk s3) (f - DISKMAP + j) = nth (Z.to_nat j) (name ++ [0]) 0.
Proof using All.
  intros Hcl Hj. destruct slot_place as (Hi & Hu & _ & Hin & Hblk). destruct create_keeps as (_ & _ & _ & _ & Hb).
  rewrite (proj2 (Hb _ Hi)) in Hcl. assert (in_map (f + j) = true) as Him.
  { apply in_map_of_blk. rewrite Hblk by lia. destruct Hu as [Hu _]. pose proof (fo_nb s Hok). lia. }
  pose proof (create_view (f + j)) as Hv. rewrite decide_True in Hv by lia. replace (f + j - f) with j in Hv by lia. rewrite <- Hv.
  assert (b ∈ fs_mapped s3) as Hm.
  { apply Hfl. rewrite <- (Hblk f) by lia. apply (wr_here _ _ _ _ Hw); [by destruct name|].
    apply in_map_of_blk. rewrite Hblk by lia. destruct Hu as [Hu _]. pose proof (fo_nb s Hok). lia. }
  rewrite view_mapped by (rewrite Hblk by lia; done).
  pose proof (co_eq _ (fo_coh s3 (proj1 (proj1 Hfl))) b (f + j - blk_va b) Hm Hcl) as Hc. unfold in_blk in Hin.
  replace (blk_va b + (f + j - blk_va b)) with (f + j) in Hc by lia. rewrite Hc by lia. f_equal. unfold blk_va. lia.
Qed.
End write.

Lemma create_run s1 : seen s s1 → dir_find s dir name = None →
  ∃ s', (r ← dir_alloc_file dir; if fst r <? 0 then mret r
    else store_str (f_name (snd r)) name;; file_flush dir;; mret (0, snd r)) s1 = Ret (0, f) s' ∧ created s s' dir q name.
Proof using All.
  intros Hs Hnone. destruct slot_place as (Hi & Hu & Hp & Hin & Hblk).
  destruct (dir_alloc_file_ok s1 dir (proj1 Hs) (seen_dir s s1 dir Hs Hdir) q) as (s2 & Hr & Hs2); [by rewrite (seen_free s)|].
  rewrite (run_bind _ _ _ _ _ Hr). cbn [fst snd Z.ltb Z.compare]. rewrite (seen_slot s s1) by done. unfold f_name.
  pose proof (seen_trans _ _ _ Hs Hs2) as Hs02. assert (nblocks s2 = nblocks s) as Hn by (apply (seen_vld s s2 4); done).
  destruct (store_str_ok b name s2 f) as (s3 & Hst & Hw); [apply Hs2|by apply (seen_in_use s)|unfold plain; by rewrite Hn|done|done|].
  rewrite (run_bind _ _ _ _ _ Hst). destruct (create_keeps s2 s3 Hs02 Hw) as (K1 & K2 & K3 & K4 & K5).
  destruct (dir_size_ok s dir Hdir) as (Hsz & Hnn & _).
  destruct (file_flush_ok s3 dir (dir_blocks_of s dir)) as (s4 & Hfr & Hfl & Hcl);
    [apply Hw|done|by rewrite K2|intros i Hi'; by apply K5|done|].
  rewrite (run_bind _ _ _ _ _ Hfr). exists s4. split; [done|]. split.
  - apply Hfl.
  - intros a _. by apply (create_view s2 s3 s4).
  - apply (seen_dir s3); [apply Hfl|]. split; [done|rewrite K2; apply Hdir|]. rewrite (create_dblocks s2 s3) by done. intros i Hi'. by apply K5.
  - intros i Hi'. by apply (create_slot s2 s3 s4).
  - by apply (create_find s2 s3 s4).
  - intros j Hj. apply (create_disk s2 s3 s4); try done. rewrite (proj2 (K5 _ Hi)). rewrite <- (proj2 (K5 _ Hi)). apply Hcl; [done|].
    rewrite (proj2 (K5 _ Hi)), <- (Hblk f) by lia. apply (wr_here _ _ _ _ Hw); [by destruct name|].
    apply in_map_of_blk. rewrite Hblk by lia. destruct Hu as [Hu _]. pose proof (fo_nb s Hok). lia.
Qed.
End create.

(** C28. file_create refuses a path that leads to a file, passes on the error of a
    walk that fails before the last element, and otherwise takes the first free slot
    of a directory that has one; then the bytes of the new name are the only ones
    that have changed, the name is found in that slot, and it is on the disk. *)
Theorem file_create_correct s path (w := resolve s 0 (s_root (blk_va 1)) (split_path path)) :
  fs_ok s → walk_ok s (s_root (blk_va 1)) (split_path path) → Forall (λ c, 0 ≤ c < 256) path →
  (w_ret w = 0 → ∃ s', file_create path s = Ret (- E_FILE_EXISTS, 0) s' ∧ seen s s') ∧
  (w_ret w ≠ 0 → w_ret w ≠ - E_NOT_FOUND ∨ w_dir w = 0 → ∃ s', file_create path s = Ret (w_ret w, 0) s' ∧ seen s s') ∧
  (∀ q, w_ret w = - E_NOT_FOUND → w_dir w ≠ 0 → own_blocks s (w_dir w) → ind_ok s (w_dir w) → first_free s (w_dir w) = Some q →
    ∃ s', file_create path s = Ret (0, slot_va s (w_dir w) q) s' ∧ created s s' (w_dir w) q (w_last w)).
Proof.
  intros Hok Hwk Hb. destruct (walk_path_ok s path Hok Hwk) as (s1 & Hrun & Hs). fold w in Hrun. unfold file_create.
  split_and!.
  - intros H0. rewrite (run_bind _ _ _ _ _ Hrun), H0. by exists s1.
  - intros H0 H1. rewrite (run_bind _ _ _ _ _ Hrun). rewrite (proj2 (Z.eqb_neq _ 0)) by done.
    assert (negb (w_ret w =? - E_NOT_FOUND) || (w_dir w =? 0) = true) as ->; [|by exists s1].
    apply orb_true_iff. destruct H1; [left; by apply negb_true_iff, Z.eqb_neq|right; by apply Z.eqb_eq].
  - intros q H0 H1 Hown Hind Hfree. rewrite (run_bind _ _ _ _ _ Hrun). rewrite H0.
    change (- E_NOT_FOUND =? 0) with false. rewrite Z.eqb_refl, (proj2 (Z.eqb_neq _ 0)) by done. cbn [negb orb].
    assert (w_file w = 0) as Hwf.
    { subst w. by apply resolve_no_file. }
    destruct (resolve_missing s (split_path path) 0 (s_root (blk_va 1)) (w_dir w) (w_last w)) as (Hd & Hnone & Hlen & Hin); [done| |done|].
    { change (w = mkWalked (- E_NOT_FOUND) (w_dir w) 0 (w_last w)). destruct w as [r d f l]. cbn in *. congruence. }
    apply create_run; [done..| |done|done].
    pose proof (split_from_all _ path [] (List.Forall_nil _) Hb) as Hall. rewrite List.Forall_forall in Hall. by apply Hall, list_elem_of_In.
Qed.

(** ** "/a" in an empty root directory, at block 7 of eight *)
Module CreateExample.

Definition ex_root : Z := s_root (blk_va 1).
Definition ex_new_fs : FsState :=
  mkFs (st32 (st32 (st32 (st32 (st32 ∅ (blk_va 1 + 4) 8) (blk_va 2) 32) (f_size ex_root) 4096) (f_type ex_root) FTYPE_DIR) (f_direct ex_root 0) 7)
    {[1; 2]} {[1; 2]} ∅ 8 (blk_va 1) (blk_va 2).

Lemma ex_new_nblocks : nblocks ex_new_fs = 8.
Proof. by vm_compute. Qed.

Lemma ex_new_ok : fs_ok ex_new_fs.
Proof.
  split; rewrite ?ex_new_nblocks; cbn [ex_new_fs super bitmap fs_mapped fs_free_pages].
  - done.
  - done.
  - by vm_compute.
  - set_solver.
  - intros k Hk Hlt. assert (k = 0) as -> by (unfold BLKBITSIZE, BLKSIZE, PGSIZE in *; lia). set_solver.
  - intros b. rewrite elem_of_union, !elem_of_singleton. lia.
  - by vm_compute.
  - split; cbn [ex_new_fs fs_mapped fs_mem fs_disk fs_dirty].
    + intros b. rewrite elem_of_union, !elem_of_singleton. change NDISKBLKS with 786432. lia.
    + intros b o H1 H2. contradiction (H2 H1).
    + do 5 apply (bytes_ok_stn 4). by intros a.
    + by intros a.
Qed.

Lemma ex_root_file : file_at ex_new_fs ex_root.
Proof.
  split; [done| |done| |by vm_compute].
  - intros k Hk. unfold ex_root, s_root. rewrite <- Z.add_assoc, !blk_of_va; [done|done|unfold FILE_SIZE, BLKSIZE, PGSIZE in *; lia].
  - intros _. left. change (blk_of ex_root) with 1. cbn [ex_new_fs fs_mapped]. set_solver.
Qed.

Lemma ex_root_block i : 0 ≤ i < 1 → block_at ex_new_fs ex_root i ∧ fblock ex_new_fs ex_root i = 7.
Proof.
  intros Hi. assert (i = 0) as -> by lia. assert (fblock ex_new_fs ex_root 0 = 7) as Hb by by vm_compute. split; [|done].
  split; [done|by vm_compute|lia|]. rewrite Hb. split; [rewrite ex_new_nblocks; lia|by vm_compute].
Qed.

Lemma ex_root_dir : dir_ok ex_new_fs ex_root.
Proof.
  split; [apply ex_root_file|by vm_compute|]. assert (dir_blocks_of ex_new_fs ex_root = 1) as -> by by vm_compute.
  intros i Hi. by apply ex_root_block.
Qed.

Lemma file_create_correct_witness : ∃ s', file_create [47; 97] ex_new_fs = Ret (0, blk_va 7) s' ∧
  dir_find s' ex_root [97] = Some 0 ∧ ldb (fs_disk s') (7 * BLKSIZE) = 97.
Proof.
  destruct (file_create_correct ex_new_fs [47; 97] ex_new_ok) as (_ & _ & H).
  - split; [apply ex_root_file|]. intros _. split; [apply ex_root_dir|].
    cbn [app]. assert (dir_find ex_new_fs (s_root (blk_va 1)) [97] = None) as -> by by vm_compute. exact I.
  - repeat constructor; lia.
  - destruct (H 0) as (s' & Hr & Hc); [by vm_compute|by vm_compute| |left; by vm_compute|by vm_compute|].
    + change (own_blocks ex_new_fs ex_root). intros i Hi. assert (dir_blocks_of ex_new_fs ex_root = 1) as Hn by by vm_compute. rewrite Hn in Hi.
      rewrite (proj2 (ex_root_block i Hi)). assert (find ex_new_fs ex_root = 0) as Hf by by vm_compute.
      intros [?|[(k & Hk & Hlt & Hk2)|[Hk|Hk]]]; [lia| |by vm_compute in Hk|destruct Hk as [_ Hk]; rewrite Hf in Hk; lia].
      rewrite ex_new_nblocks in Hlt. unfold BLKBITSIZE, BLKSIZE, PGSIZE in Hlt. lia.
    + set (w := resolve ex_new_fs 0 (s_root (blk_va 1)) (split_path [47; 97])) in *.
      assert (w_dir w = ex_root) as Hd by by vm_compute. assert (w_last w = [97]) as Hl by by vm_compute.
      assert (slot_va ex_new_fs (w_dir w) 0 = blk_va 7) as Hs by by vm_compute.
      clearbody w. rewrite Hs in Hr. exists s'. split; [exact Hr|]. split.
      * pose proof (cd_find _ _ _ _ _ Hc) as Hf. rewrite Hd, Hl in Hf. exact Hf.
      * pose proof (cd_disk _ _ _ _ _ Hc 0) as H0. rewrite Hs, Hl in H0.
        replace (blk_va 7 - DISKMAP + 0) with (7 * BLKSIZE) in H0 by (by vm_compute). apply H0. cbn [length]. lia.
Defined.
End CreateExample.
