(* ===== verification/FsformatMount.v ===== *)
(** * From fsformat to the file server

    The image of fsformat, mounted by fs_init, is a file system in the sense of the
    theorems on the file server, with the files that were asked for. *)
From stdpp Require Import gmap.
From S2P Require Import Prelude Mem StringC Printfmt KState Bc Fs FsView FsSpec FsIO FsServ FsRW FsRefine FsInit Fsformat FsformatSpec FsformatRun FsformatImage.

(** ** Names and directories, as the file server sees them *)

Record listed (s : FsState) (f : Z) (name : list Z) (type : Z) : Prop := {
  li_name j : 0 ≤ j < Z.of_nat (length name) + 1 → view s (f + j) = nth (Z.to_nat j) (name ++ [0]) 0;
  li_type : vld32 (view s) (f_type f) = type }.

(** A directory of [n] entries from block [start] on. *)
Record directory (s : FsState) (f : Z) (name : list Z) (start n : Z) : Prop := {
  dy_listed : listed s f name FTYPE_DIR;
  dy_file : file_at s f;
  dy_use i : 0 ≤ i < nb (FILE_SIZE * n) → in_use s (start + i);
  dy_size : fsize s f = dir_size n;
  dy_blocks i : 0 ≤ i < nb (dir_size n) → fblock s f i = start + i }.

(** The entry of a file whose directory starts at block [st]. *)
Definition entry (st : Z → Z) (r : placed) : Z := blk_va (st (pl_dir r)) + FILE_SIZE * pl_idx r.
Definition file_map (st : Z → Z) (recs : list placed) : gmap Z (list Z) :=
  list_to_map ((λ r, (entry st r, pl_data r)) <$> recs).

(** The tree of fsformat: three directories, and the files in them. *)
Record tree (s : FsState) (cnt st : Z → Z) (recs : list placed) : Prop := {
  tr_root : directory s (s_root (blk_va 1)) [47] (st FLAG_ROOT) (cnt FLAG_ROOT);
  tr_bin : directory s (blk_va (st FLAG_ROOT)) [98; 105; 110] (st FLAG_BIN) (cnt FLAG_BIN);
  tr_sbin : directory s (blk_va (st FLAG_ROOT) + FILE_SIZE) [115; 98; 105; 110] (st FLAG_SBIN) (cnt FLAG_SBIN);
  tr_file r : r ∈ recs → listed s (entry st r) (pl_name r) FTYPE_REG ∧
    is_dir (pl_dir r) ∧ first_slot (pl_dir r) ≤ pl_idx r < cnt (pl_dir r);
  tr_cover : covered cnt recs;
  tr_distinct : NoDup (entry st <$> recs);
  tr_repr : repr_fs s (file_map st recs) }.

Lemma vldn_shift n v v' a b : (∀ j, 0 ≤ j < Z.of_nat n → v (a + j) = v' (b + j)) → vldn n v a = vldn n v' b.
Proof.
  revert a b. induction n as [|n IH]; intros a b H; [done|]. cbn [vldn].
  pose proof (H 0 ltac:(lia)) as H0. rewrite !Z.add_0_r in H0. rewrite H0. do 2 f_equal.
  apply IH. intros j Hj. rewrite <- !Z.add_assoc. apply H. lia.
Qed.

Section mounted.
Context (N diskmap : Z) (HN : 3 < N ≤ 10240) (HD : 0 ≤ diskmap).
Context (m : mem) (cnt st : Z → Z) (k : Z) (recs : list placed) (Himg : image N diskmap m cnt st k recs).
Context (Hcnt : ∀ d, is_dir d → 0 ≤ cnt d ≤ MAX_DIR_ENTS).
Notation blk := (blk diskmap).
Context (s : FsState) (Hok : fs_ok s) (Hn : FsView.nblocks s = N).
Context (Hview : ∀ o, 0 ≤ o < N * BLKSIZE → view s (DISKMAP + o) = ldb m (diskmap + o)).

Lemma view_blk b o : 0 ≤ b → 0 ≤ o → b * BLKSIZE + o < N * BLKSIZE → view s (blk_va b + o) = ldb m (blk b + o).
Proof using Hview.
  intros Hb Ho Hl. replace (blk_va b + o) with (DISKMAP + (b * BLKSIZE + o)) by (unfold blk_va; lia).
  rewrite Hview by (unfold BLKSIZE, PGSIZE in *; lia). f_equal. unfold FsformatSpec.blk. lia.
Qed.

Lemma vld32_blk b o : 0 ≤ b → 0 ≤ o → b * BLKSIZE + o + 4 ≤ N * BLKSIZE → vld32 (view s) (blk_va b + o) = ld32 m (blk b + o).
Proof using Hview.
  intros Hb Ho Hl. rewrite <- vldn_ldn. apply vldn_shift. intros j Hj. rewrite <- !Z.add_assoc. apply view_blk; lia.
Qed.

Lemma in_range b : 0 ≤ b < N → b * BLKSIZE + BLKSIZE ≤ N * BLKSIZE.
Proof. unfold BLKSIZE, PGSIZE. lia. Qed.

Lemma in_use_blk b : 0 < b < k → in_use s b.
Proof using Hok Hn Hview HN Himg.
  intros Hb. pose proof (im_k _ _ _ _ _ _ _ Himg) as Hk. split; [lia|]. rewrite is_free_bit. unfold bitmap_word.
  pose proof (in_range 2 ltac:(lia)). rewrite vld32_blk; [|lia|zlia|unfold BLKSIZE, PGSIZE in *; zlia].
  change (ld32 m (blk 2 + 4 * (b / 32))) with (ld32 m (blk 2 + 4 * (b / 32))).
  fold (bit_of diskmap m b). rewrite (im_free _ _ _ _ _ _ _ Himg) by (unfold BLKBITSIZE, BLKSIZE, PGSIZE; lia).
  apply Z.leb_gt. lia.
Qed.

(** ** One file *)
Section file.
Context (r : placed) (Hr : rec_ok diskmap (λ d, blk (st d)) cnt k m r).
Notation f := (entry st r).
Notation len := (pl_len r).

Lemma slot_in : 0 ≤ FILE_SIZE * pl_idx r ∧ FILE_SIZE * pl_idx r + FILE_SIZE ≤ nb (FILE_SIZE * cnt (pl_dir r)) * BLKSIZE ∧
  3 ≤ st (pl_dir r) ∧ st (pl_dir r) + nb (FILE_SIZE * cnt (pl_dir r)) ≤ k.
Proof using Hr Himg Hcnt.
  destruct Hr as [Hd Hi _ _ _ _]. pose proof (first_slot_nonneg (pl_dir r)). pose proof (im_st _ _ _ _ _ _ _ Himg _ Hd).
  destruct (dir_blocks _ (Hcnt _ Hd)) as [_ Hb]. unfold FILE_SIZE in *. lia.
Qed.

Lemma entry_view o : 0 ≤ o < FILE_SIZE → view s (f + o) = ldb m (blk (st (pl_dir r)) + FILE_SIZE * pl_idx r + o).
Proof using Hr Himg Hview Hcnt.
  intros Ho. destruct slot_in as (H1 & H2 & H3 & H4). pose proof (im_k _ _ _ _ _ _ _ Himg). unfold entry.
  rewrite <- !Z.add_assoc. apply view_blk; [lia|lia|]. unfold FILE_SIZE, BLKSIZE, PGSIZE in *. lia.
Qed.
Lemma entry_ld32 o : 0 ≤ o → o + 4 ≤ FILE_SIZE → vld32 (view s) (f + o) = ld32 m (blk (st (pl_dir r)) + FILE_SIZE * pl_idx r + o).
Proof using Hr Himg Hview Hcnt.
  intros Ho Hl. rewrite <- vldn_ldn. apply vldn_shift. intros j Hj. rewrite <- (Z.add_assoc f).
  rewrite entry_view by (unfold FILE_SIZE in *; lia). f_equal. lia.
Qed.

Lemma len_range : 0 ≤ len ∧ 0 ≤ nb len ≤ 1034 ∧ len ≤ nb len * BLKSIZE ∧ pl_ind r + nind len ≤ k ∧ 3 ≤ pl_start r.
Proof using Hr.
  destruct Hr as [_ _ Hs He [_ [H1 H2]] _]. pose proof (nb_range len H1). assert (NDIRECT + NINDIRECT = 1034) as Hnd by done.
  rewrite Hnd in H2. unfold pl_end in He. lia.
Qed.

Lemma fsize_file : fsize s f = len.
Proof using Hr Himg Hview Hcnt.
  destruct (rc_at _ _ _ _ _ _ Hr) as [_ _ Fl _]. pose proof len_range as (H1 & H2 & H3 & _). unfold fsize, f_size.
  rewrite entry_ld32 by (unfold FILE_SIZE; lia). fold (f_size (blk (st (pl_dir r)) + FILE_SIZE * pl_idx r)).
  rewrite (fl_size _ _ _ _ _ _ Fl). apply i32_id. unfold BLKSIZE, PGSIZE in *. lia.
Qed.

Lemma find_file : 10 ≤ nb len → find s f = pl_ind r.
Proof using Hr Himg Hview Hcnt.
  intros Hl. destruct (rc_at _ _ _ _ _ _ Hr) as [_ _ Fl _]. unfold find, f_indirect. rewrite entry_ld32 by (unfold FILE_SIZE; lia).
  by apply (fl_ind _ _ _ _ _ _ Fl).
Qed.

Lemma fblock_file i : 0 ≤ i < nb len → fblock s f i = pl_start r + i.
Proof using Hr Himg Hview Hcnt HN.
  intros Hi. destruct (rc_at _ _ _ _ _ _ Hr) as [_ _ Fl _]. pose proof len_range as (H1 & H2 & H3 & H4 & H5).
  pose proof (im_k _ _ _ _ _ _ _ Himg). unfold fblock, slot. destruct (i <? 10) eqn:E.
  - unfold f_direct. rewrite <- Z.add_assoc. rewrite entry_ld32 by (unfold FILE_SIZE; lia).
    rewrite Z.add_assoc. fold (f_direct (blk (st (pl_dir r)) + FILE_SIZE * pl_idx r) i). apply (fl_direct _ _ _ _ _ _ Fl). lia.
  - rewrite find_file by lia. unfold nind in H4. rewrite (proj2 (Z.leb_le _ _)) in H4 by lia.
    assert (0 ≤ pl_ind r) by (unfold pl_ind; lia).
    rewrite vld32_blk; [|lia|lia|unfold BLKSIZE, PGSIZE; lia]. apply (fl_words _ _ _ _ _ _ Fl). lia.
Qed.

Lemma blk_of_entry o : 0 ≤ o < FILE_SIZE → blk_of (f + o) = st (pl_dir r) + pl_idx r / BLKFILES.
Proof using Hr Himg Hcnt.
  intros Ho. destruct slot_in as (H1 & _ & H3 & _). change BLKFILES with 16. unfold entry, blk_va, blk_of, FILE_SIZE, BLKSIZE, PGSIZE in *. zlia.
Qed.

Lemma entry_blk : 3 ≤ st (pl_dir r) + pl_idx r / BLKFILES < k.
Proof using Hr Himg Hcnt.
  destruct slot_in as (H1 & H2 & H3 & H4). change BLKFILES with 16. unfold FILE_SIZE, BLKSIZE, PGSIZE in *. zlia.
Qed.

Lemma entry_zero : blk_of f = st (pl_dir r) + pl_idx r / BLKFILES.
Proof using Hr Himg Hcnt. rewrite <- (blk_of_entry 0); [by rewrite Z.add_0_r|done]. Qed.

Lemma file_at_entry : file_at s f.
Proof using All.
  pose proof entry_blk as He. pose proof (im_k _ _ _ _ _ _ _ Himg) as Hk. split.
  - unfold entry, blk_va, FILE_SIZE, BLKSIZE, PGSIZE, DISKMAP. zlia.
  - intros o Ho. by rewrite blk_of_entry, entry_zero.
  - apply in_map_of_blk. rewrite entry_zero. change NDISKBLKS with 786432. lia.
  - intros _. right. rewrite entry_zero, Hn. destruct (in_use_blk _ (conj (Z.lt_le_trans 0 3 _ eq_refl (proj1 He)) (proj2 He))). split; [lia|done].
  - rewrite fsize_file. apply len_range.
Qed.

Lemma allocated_file : allocated s f 0 (fsize s f).
Proof using All.
  rewrite fsize_file. intros p Hp. pose proof len_range as (H1 & H2 & H3 & H4 & H5).
  assert (0 ≤ p / BLKSIZE < nb len) as Hi by (unfold BLKSIZE, PGSIZE in *; zlia).
  unfold pl_ind in *. pose proof (nind_nonneg len). split.
  - change (NDIRECT + NINDIRECT) with 1034. lia.
  - rewrite fsize_file. apply Z.div_le_mono; [done|lia].
  - intros H10. rewrite find_file by lia. apply in_use_blk. unfold pl_ind, nind in *.
    rewrite (proj2 (Z.leb_le _ _)) in H4 by lia. lia.
  - rewrite fblock_file by done. apply in_use_blk. lia.
Qed.

Lemma contents_file : contents s f = pl_data r.
Proof using All.
  pose proof len_range as (H1 & H2 & H3 & H4 & H5). unfold contents. rewrite fsize_file. apply list_eq. intros i.
  destruct (decide (i < length (pl_data r))%nat) as [Hi|Hi].
  - rewrite list_lookup_fmap, lookup_seqZ_lt by (unfold pl_len; lia). cbn [fmap option_fmap option_map].
    destruct (lookup_lt_is_Some_2 (pl_data r) i Hi) as [x Hx]. rewrite Hx. f_equal. unfold fbyte. rewrite Z.add_0_l.
    assert (0 ≤ Z.of_nat i < len) as Hl by (unfold pl_len; lia).
    assert (0 ≤ Z.of_nat i / BLKSIZE < nb len) as Hb by (unfold BLKSIZE, PGSIZE in *; zlia).
    rewrite fblock_file by done. pose proof (im_k _ _ _ _ _ _ _ Himg) as Hk. pose proof (nind_nonneg len). unfold pl_ind in *.
    rewrite view_blk; [|lia|unfold BLKSIZE, PGSIZE; zlia|unfold BLKSIZE, PGSIZE in *; zlia].
    replace (blk (pl_start r + Z.of_nat i / BLKSIZE) + Z.of_nat i mod BLKSIZE) with (blk (pl_start r) + Z.of_nat i)
      by (unfold FsformatSpec.blk, BLKSIZE, PGSIZE; zlia).
    rewrite (pa_data _ _ _ _ (rc_at _ _ _ _ _ _ Hr)) by done. rewrite Nat2Z.id. by apply nth_lookup_Some.
  - rewrite !lookup_ge_None_2; [done|lia|]. rewrite length_fmap, length_seqZ. unfold pl_len. lia.
Qed.

Lemma listed_file : listed s f (pl_name r) FTYPE_REG.
Proof using All.
  destruct (rc_at _ _ _ _ _ _ Hr) as [Hn1 Ht _ _]. destruct (rc_ok _ _ _ _ _ _ Hr) as [Hl _]. unfold MAXNAMELEN in Hl. split.
  - intros j Hj. rewrite entry_view by (unfold FILE_SIZE; lia). apply Hn1. rewrite length_app. cbn. lia.
  - unfold f_type. rewrite entry_ld32 by (unfold FILE_SIZE; lia). exact Ht.
Qed.
End file.

(** ** The directories *)

Lemma directory_at b o name d : 0 < b < k → 0 ≤ o → o mod 4 = 0 → o + FILE_SIZE ≤ BLKSIZE → is_dir d →
  Z.of_nat (length name) < MAXNAMELEN →
  dirent m (blk b + o) name (st d) (cnt d) → directory s (blk_va b + o) name (st d) (cnt d).
Proof using All.
  unfold MAXNAMELEN, FILE_SIZE. intros Hb Ho Ho4 Hol Hdir Hname [[Hn1 Ht] Hs Hbl]. pose proof (Hcnt d Hdir) as Hd.
  pose proof (nb_dir_size (cnt d) Hd). pose proof (im_k _ _ _ _ _ _ _ Himg) as Hk. pose proof (im_st _ _ _ _ _ _ _ Himg d Hdir).
  assert (b * BLKSIZE + BLKSIZE ≤ N * BLKSIZE) as Hl by (apply in_range; lia).
  assert (∀ j, 0 ≤ j < BLKSIZE → blk_of (blk_va b + j) = b) as Hbk by (intros; by apply blk_of_va).
  assert (∀ j, 0 ≤ j < 256 → view s (blk_va b + o + j) = ldb m (blk b + o + j)) as Hv.
  { intros j Hj. rewrite <- !Z.add_assoc. apply view_blk; lia. }
  assert (∀ j, 0 ≤ j → j + 4 ≤ 256 → vld32 (view s) (blk_va b + o + j) = ld32 m (blk b + o + j)) as Hv4.
  { intros j Hj Hj'. rewrite <- !Z.add_assoc. apply vld32_blk; lia. }
  assert (fsize s (blk_va b + o) = dir_size (cnt d)) as Hsz.
  { unfold fsize, f_size. rewrite Hv4 by lia. unfold f_size in Hs. rewrite Hs. apply i32_id.
    unfold dir_size in *. rewrite nb_blocks in *. unfold BLKSIZE, PGSIZE. lia. }
  split; [split| | |exact Hsz|].
  - intros j Hj. rewrite Hv by lia. apply Hn1. rewrite length_app. cbn. lia.
  - unfold f_type. by rewrite Hv4.
  - split.
    + unfold blk_va, BLKSIZE, PGSIZE, DISKMAP. zlia.
    + intros j Hj. unfold FILE_SIZE in *. rewrite <- Z.add_assoc, !Hbk by lia. done.
    + apply in_map_of_blk. rewrite Hbk by lia. change NDISKBLKS with 786432. lia.
    + apply (acc_same s (blk_va b)); [rewrite blk_of_blk_va, Hbk by lia; done|]. rewrite <- (Z.add_0_r (blk_va b)).
      apply in_use_acc; [by apply in_use_blk|done].
    + rewrite Hsz. unfold dir_size, BLKSIZE, PGSIZE. lia.
  - intros i Hi. apply in_use_blk. lia.
  - intros i Hi. unfold fblock, slot. rewrite (proj2 (Z.ltb_lt _ _)) by lia. unfold f_direct. rewrite <- (Z.add_assoc _ 136), Hv4 by lia.
    rewrite Z.add_assoc. by apply Hbl.
Qed.

(** ** All files *)

Lemma rec_in r : r ∈ recs → rec_ok diskmap (λ d, blk (st d)) cnt k m r.
Proof using Himg.
  intros Hr. destruct (im_recs _ _ _ _ _ _ _ Himg) as (_ & Hall & _). rewrite List.Forall_forall in Hall.
  by apply Hall, list_elem_of_In.
Qed.

Lemma recs_apart r r' : r ∈ recs → r' ∈ recs → r = r' ∨
  (pl_end r ≤ pl_start r' ∨ pl_end r' ≤ pl_start r) ∧ (pl_dir r = pl_dir r' → pl_idx r ≠ pl_idx r').
Proof using Himg.
  intros Hr%list_elem_of_In Hr'%list_elem_of_In. destruct (im_recs _ _ _ _ _ _ _ Himg) as (_ & _ & Hord).
  destruct (ForallOrdPairs_In Hord r r' Hr Hr') as [->|[[H1 H2]|[H1 H2]]]; [by left|right..]; (split; [lia|]); intros He; specialize (H2 ltac:(congruence)); lia.
Qed.

(** Slots of different directories are in different blocks. *)
Context (Hst : ∀ d d', is_dir d → is_dir d' → d ≠ d' →
  st d + nb (FILE_SIZE * cnt d) ≤ st d' ∨ st d' + nb (FILE_SIZE * cnt d') ≤ st d).

Lemma entry_inj r r' : r ∈ recs → r' ∈ recs → entry st r = entry st r' → r = r'.
Proof using Himg Hcnt Hst.
  intros Hr Hr' He. destruct (recs_apart r r' Hr Hr') as [|[_ Hidx]]; [done|exfalso].
  pose proof (rec_in r Hr) as R. pose proof (rec_in r' Hr') as R'.
  destruct (slot_in r R) as (H1 & H2 & H3 & H4). destruct (slot_in r' R') as (H1' & H2' & H3' & H4').
  destruct (decide (pl_dir r = pl_dir r')) as [Hd|Hd].
  - specialize (Hidx Hd). unfold entry, FILE_SIZE in He. rewrite Hd in He. lia.
  - specialize (Hst _ _ (rc_dir _ _ _ _ _ _ R) (rc_dir _ _ _ _ _ _ R') Hd).
    unfold entry, blk_va, FILE_SIZE, BLKSIZE, PGSIZE in *. lia.
Qed.

Lemma entries_nodup : NoDup (entry st <$> recs).
Proof using Himg Hcnt Hst.
  assert (NoDup recs) as Hnd.
  { destruct (im_recs _ _ _ _ _ _ _ Himg) as (_ & Hall & Hord). clear - Hord Hall. induction Hord as [|r l H Hord IH]; [constructor|].
    inversion_clear Hall as [|?? R Hall']. constructor; [|by apply IH]. intros Hin. rewrite List.Forall_forall in H. apply list_elem_of_In in Hin.
    destruct (H r Hin) as [_ Hlt]. specialize (Hlt eq_refl). lia. }
  apply NoDup_fmap_2_strong; [|done]. intros r r' Hr Hr'. by apply entry_inj.
Qed.

Lemma file_map_lookup f l : file_map st recs !! f = Some l ↔ ∃ r, r ∈ recs ∧ f = entry st r ∧ l = pl_data r.
Proof using Himg Hcnt Hst.
  unfold file_map. rewrite <- elem_of_list_to_map.
  - rewrite list_elem_of_fmap. split.
    + intros (r & [= -> ->] & Hr). eauto.
    + intros (r & Hr & -> & ->). eauto.
  - rewrite <- list_fmap_compose. exact entries_nodup.
Qed.
Lemma file_map_dom f : f ∈ dom (file_map st recs) → ∃ r, r ∈ recs ∧ f = entry st r.
Proof using Himg Hcnt Hst. intros [l Hl]%elem_of_dom. apply file_map_lookup in Hl as (r & ? & ? & _). eauto. Qed.

(** The block of a byte of a file. *)
Lemma block_file r p : rec_ok diskmap (λ d, blk (st d)) cnt k m r → 0 ≤ p < fsize s (entry st r) →
  ∃ i, p / BLKSIZE = i ∧ 0 ≤ i < nb (pl_len r) ∧ fblock s (entry st r) i = pl_start r + i ∧ pl_start r + i < pl_ind r ≤ pl_end r ∧ pl_end r ≤ k.
Proof using Himg Hcnt Hview HN.
  intros R Hp. rewrite (fsize_file r R) in Hp. pose proof (len_range r R) as (H1 & H2 & H3 & H4 & H5).
  exists (p / BLKSIZE). assert (0 ≤ p / BLKSIZE < nb (pl_len r)) as Hi by (unfold BLKSIZE, PGSIZE in *; zlia).
  split_and!; [done|lia|lia|by apply fblock_file|..]; pose proof (nind_nonneg (pl_len r)); unfold pl_end, pl_ind in *; lia.
Qed.

Lemma meta_apart r r' p : r ∈ recs → r' ∈ recs → 0 ≤ p < fsize s (entry st r) →
  ¬ meta_blk s (entry st r') (fblock s (entry st r) (p / BLKSIZE)).
Proof using All.
  intros Hr Hr' Hp. pose proof (rec_in r Hr) as R. pose proof (rec_in r' Hr') as R'.
  destruct (block_file r p R Hp) as (i & -> & Hi & -> & Hb & Hk). pose proof (len_range r R) as (_ & _ & _ & _ & H3).
  intros [H|[(j & Hj & Hlt & H)|[H|[H10 H]]]].
  - lia.
  - rewrite Hn in Hlt. assert (j = 0) as -> by (unfold BLKBITSIZE, BLKSIZE, PGSIZE in *; lia). lia.
  - rewrite (entry_zero r' R') in H. pose proof (im_dirs _ _ _ _ _ _ _ Himg r (pl_dir r') Hr (rc_dir _ _ _ _ _ _ R')).
    destruct (slot_in r' R') as (H1 & _). assert (0 ≤ pl_idx r' / BLKFILES) by (change BLKFILES with 16; unfold FILE_SIZE in *; zlia). lia.
  - rewrite (fsize_file r' R') in H10. pose proof (len_range r' R') as (Hl0 & Hl1 & Hl2 & _).
    assert (10 ≤ nb (pl_len r')) as E by (unfold BLKSIZE, PGSIZE in *; zlia). rewrite (find_file r' R' E) in H.
    destruct (recs_apart r r' Hr Hr') as [<-|[Hap _]]; [lia|]. pose proof (pl_end_start r' (rc_ok _ _ _ _ _ _ R')).
    unfold pl_end, nind in *. rewrite (proj2 (Z.leb_le _ _)) in * by done. lia.
Qed.

Lemma repr_files : repr_fs s (file_map st recs).
Proof using All.
  split.
  - exact Hok.
  - intros f l (r & Hr & -> & ->)%file_map_lookup. pose proof (rec_in r Hr). split; [by apply file_at_entry|by apply contents_file].
  - intros f (r & Hr & ->)%file_map_dom. by apply allocated_file, rec_in.
  - intros f g p (r & Hr & ->)%file_map_dom (r' & Hr' & ->)%file_map_dom Hp. by apply meta_apart.
  - intros f g p q (r & Hr & ->)%file_map_dom (r' & Hr' & ->)%file_map_dom Hp Hq He.
    pose proof (rec_in r Hr) as R. pose proof (rec_in r' Hr') as R'.
    destruct (block_file r p R Hp) as (i & Ei & Hi & Hf & Hb & _). destruct (block_file r' q R' Hq) as (j & Ej & Hj & Hg & Hb' & _).
    rewrite Ei, Ej in *. rewrite Hf, Hg in He. destruct (recs_apart r r' Hr Hr') as [<-|[Hap _]]; [split; [done|lia]|lia].
Qed.

Lemma tree_holds : 2 ≤ cnt FLAG_ROOT → tree s cnt st recs.
Proof using All.
  intros H2. pose proof (im_k _ _ _ _ _ _ _ Himg) as Hk.
  assert (∀ d, is_dir d → 3 ≤ st d ≤ k) as Hs.
  { intros d Hd. pose proof (im_st _ _ _ _ _ _ _ Himg d Hd). destruct (dir_blocks _ (Hcnt d Hd)). lia. }
  assert (is_dir FLAG_ROOT) as D0 by (by left). assert (is_dir FLAG_BIN) as D1 by (right; by left). assert (is_dir FLAG_SBIN) as D2 by (right; by right).
  assert (3 ≤ st FLAG_ROOT < k) as H3.
  { pose proof (im_st _ _ _ _ _ _ _ Himg _ D0). destruct (dir_blocks _ (Hcnt _ D0)). unfold FILE_SIZE, BLKSIZE, PGSIZE in *. lia. }
  split.
  - apply directory_at; [lia|done..|apply Himg].
  - rewrite <- (Z.add_0_r (blk_va _)). apply directory_at; [lia|done..|rewrite Z.add_0_r; apply Himg].
  - apply directory_at; [lia|done..|apply Himg].
  - intros r Hr. pose proof (rec_in r Hr) as R. split; [by apply listed_file|]. split; apply R.
  - apply Himg.
  - exact entries_nodup.
  - exact repr_files.
Qed.
End mounted.

(** ** The whole program *)
Section whole.
Context (nblocks diskmap : Z) (Hnb : 3 < nblocks ≤ 10240) (HD : 0 ≤ diskmap).
Context (ents : Z → Z) (host : list Z → option hfile) (content : list Z → list Z) (args : list (list Z)).
Notation blk := (blk diskmap).
Notation ws := (wanted FLAG_ROOT args).
Context (Hheap : ∀ d, is_dir d → ents d + DIR_BYTES ≤ diskmap ∨ blk nblocks ≤ ents d).
Context (Hapart : ∀ d d', is_dir d → is_dir d' → d ≠ d' → ents d + DIR_BYTES ≤ ents d' ∨ ents d' + DIR_BYTES ≤ ents d).

(** The entries of each directory. *)
Definition slots (d : Z) : Z := first_slot d + count d ws.

(** Files that fsformat takes, and that fit. *)
Record fits : Prop := {
  ft_takes : Forall (takes host content) ws;
  ft_slots d : is_dir d → slots d ≤ MAX_DIR_ENTS;
  ft_blocks : 3 + need content ws + nb (FILE_SIZE * slots FLAG_BIN) + nb (FILE_SIZE * slots FLAG_SBIN) +
    nb (FILE_SIZE * slots FLAG_ROOT) < nblocks }.

(** Memory before: bytes, those that malloc gives included. *)
Definition ready (s : ffst) : Prop := bytes_ok (ff_mem s).

Lemma format_ok s : fits → ready s →
  wp (format nblocks diskmap host true (ents FLAG_ROOT) (ents FLAG_BIN) (ents FLAG_SBIN) args) s (λ r s', r = 0 ∧
    ∃ cnt k recs, (∀ d, cnt d = slots d) ∧ key <$> recs = reverse (wkey content <$> ws) ∧
      image nblocks diskmap (ff_mem s') cnt (st_of cnt k) (k + nb (FILE_SIZE * cnt FLAG_BIN) + nb (FILE_SIZE * cnt FLAG_SBIN) + nb (FILE_SIZE * cnt FLAG_ROOT)) recs).
Proof using Hnb HD Hheap Hapart.
  intros [Ht Hsl Hbl] Hb. unfold format.
  apply (start_ok nblocks diskmap Hnb HD ents Hheap s (λ ds0, ds ← main_loop nblocks diskmap host FLAG_ROOT ds0 args;
    finishdir nblocks diskmap (snd (fst ds));; finishdir nblocks diskmap (snd ds);; finishdir nblocks diskmap (fst (fst ds));;
    finishdisk diskmap;; mret 0)); [done|]. intros m0 Hsd Hinv.
  assert (0 ≤ nb (FILE_SIZE * slots FLAG_BIN) ∧ 0 ≤ nb (FILE_SIZE * slots FLAG_SBIN) ∧ 0 ≤ nb (FILE_SIZE * slots FLAG_ROOT)) as (P1 & P2 & P3).
  { assert (∀ d, 0 ≤ slots d) as Hp by (intros d; pose proof (first_slot_nonneg d); pose proof (count_nonneg d ws); unfold slots; lia).
    split_and!; apply nb_range; unfold FILE_SIZE; [pose proof (Hp FLAG_BIN)|pose proof (Hp FLAG_SBIN)|pose proof (Hp FLAG_ROOT)]; lia. }
  wp_step. eapply (main_loop_ok nblocks diskmap Hnb HD ents host content Hheap Hapart m0); [by left|exact Ht|exact Hinv|done|exact Hsl|lia|].
  intros cnt m recs Hcnt Hi Hkey. cbn [fst snd dirs_of]. rewrite app_nil_r in Hkey.
  change (upd diskmap m ?k _) with (mkFf m (blk k) (blk 1) (blk 2)). cbn [diskpos].
  assert (∀ d, cnt d = slots d) as Hc by done.
  apply (finish_ok nblocks diskmap Hnb HD ents Hheap Hapart cnt) with (k := 3 + need content ws) (recs := recs) (m1 := m).
  - intros d Hd. rewrite Hc. pose proof (Hsl d Hd). pose proof (count_nonneg d ws). unfold slots in *. lia.
  - eapply started_frame; [apply Hi|exact Hsd].
  - apply Hi.
  - apply Hi.
  - apply Hi.
  - rewrite !Hc. lia.
  - done.
  - done.
  - done.
  - intros m' s' Hm' Himg. split; [done|]. exists cnt, (3 + need content ws), recs. split_and!; [done|done|]. by rewrite Hm'.
Qed.

(** The disk of the server is the image. *)
Definition has_image (m d : mem) : Prop := ∀ o, 0 ≤ o < nblocks * BLKSIZE → ldb d o = ldb m (diskmap + o).

Lemma image_ld32 m d o : has_image m d → 0 ≤ o → o + 4 ≤ nblocks * BLKSIZE → ld32 d o = ld32 m (diskmap + o).
Proof. intros H Ho Hl. apply ldn_copy. intros j Hj. rewrite <- Z.add_assoc. apply H. lia. Qed.

Lemma image_mountable m d cnt st k recs : image nblocks diskmap m cnt st k recs → bytes_ok d → has_image m d → mountable d.
Proof using Hnb.
  intros Him Hb Hd. pose proof (im_k _ _ _ _ _ _ _ Him) as Hk.
  assert (4 * BLKSIZE ≤ nblocks * BLKSIZE) as Hl by (unfold BLKSIZE, PGSIZE; lia).
  split; [done|..].
  - rewrite (image_ld32 m) by (done || (unfold BLKSIZE, PGSIZE in *; lia)). 
    replace (diskmap + BLKSIZE) with (blk 1) by (unfold FsformatSpec.blk; lia). apply Him.
  - rewrite (image_ld32 m) by (done || (unfold BLKSIZE, PGSIZE in *; lia)).
    replace (diskmap + (BLKSIZE + 4)) with (blk 1 + 4) by (unfold FsformatSpec.blk; lia).
    rewrite (im_nblocks _ _ _ _ _ _ _ Him). unfold BLKBITSIZE, BLKSIZE, PGSIZE. lia.
  - intros b Hb3. rewrite (image_ld32 m) by (done || (unfold BLKSIZE, PGSIZE in *; lia)). unfold bitmap_bit. rewrite land_bit by zlia.
    pose proof (im_free _ _ _ _ _ _ _ Him b) as Hf. unfold bit_of in Hf. rewrite Z.div_small, Z.mul_0_r, Z.add_0_r in Hf by lia.
    change (blk 2) with (diskmap + 2 * BLKSIZE) in Hf. rewrite Hf by (unfold BLKBITSIZE, BLKSIZE, PGSIZE; lia). apply Z.leb_gt. lia.
Qed.

Lemma mounted_image strtol prog img num s backup local : strtol num = (nblocks, true) → fits → ready s →
  buf_ok backup SB → buf_ok local SB →
  ∃ s', fsformat_main strtol diskmap host true (ents FLAG_ROOT) (ents FLAG_BIN) (ents FLAG_SBIN) (prog :: img :: num :: args) s = Ret 0 s' ∧
    bytes_ok (ff_mem s') ∧ ∀ srv, fresh_server srv → bytes_ok (fs_disk srv) → has_image (ff_mem s') (fs_disk srv) →
      ∃ srv' cnt st recs, fs_init backup local srv = Ret tt srv' ∧ tree srv' cnt st recs ∧
        key <$> recs = reverse (wkey content <$> ws) ∧ (∀ d, cnt d = slots d) ∧
        st FLAG_SBIN = st FLAG_BIN + nb (FILE_SIZE * cnt FLAG_BIN) ∧ st FLAG_ROOT = st FLAG_SBIN + nb (FILE_SIZE * cnt FLAG_SBIN).
Proof using Hnb HD Hheap Hapart.
  intros Hstr Hfit Hrd Hbk Hlc. destruct (wp_returns _ _ _ (format_ok s Hfit Hrd)) as (r & s' & Hrun & -> & cnt & k & recs & Hcnt & Hkey & Him).
  exists s'. split.
  { unfold fsformat_main. rewrite Hstr. cbn [fst snd negb orb]. rewrite u32_id by lia.
    rewrite (proj2 (Z.ltb_ge _ _)), (proj2 (Z.ltb_ge _ _)) by lia. exact Hrun. }
  split; [apply (im_recs _ _ _ _ _ _ _ Him)|]. intros srv Hfr Hb Hd. pose proof (image_mountable _ _ _ _ _ _ Him Hb Hd) as Hm. pose proof (mo_size _ Hm).
  pose proof (fr_pages _ Hfr) as Hpg. destruct (fs_init_ok backup local srv Hfr Hb ltac:(lia) Hbk Hlc) as [_ Hinit].
  destruct (Hinit Hm) as (srv' & Hi & Hok & _ & Hn & Hv). exists srv', cnt, (st_of cnt k), recs. split; [exact Hi|].
  assert (∀ d, is_dir d → 0 ≤ cnt d ≤ MAX_DIR_ENTS) as Hc.
  { intros d Hdir. rewrite Hcnt. pose proof (ft_slots Hfit d Hdir). pose proof (count_nonneg d ws). pose proof (first_slot_nonneg d).
    unfold slots in *. lia. }
  assert (FsView.nblocks srv' = nblocks) as Hn'.
  { rewrite Hn, (image_ld32 (ff_mem s')) by (done || (unfold BLKSIZE, PGSIZE; lia)).
    replace (diskmap + (BLKSIZE + 4)) with (blk 1 + 4) by (unfold FsformatSpec.blk; lia). apply Him. }
  split; [|by split_and!]. apply (tree_holds nblocks diskmap Hnb HD (ff_mem s') cnt (st_of cnt k) _ recs Him Hc srv' Hok Hn').
  - intros o Ho. rewrite Hv; [rewrite <- Hd by done; f_equal; lia|].
    unfold in_map. change DISKSIZE with 0xC0000000. unfold BLKSIZE, PGSIZE, DISKMAP in *. apply andb_true_iff. rewrite Z.leb_le, Z.ltb_lt. lia.
  - intros d d' Hx Hx' Hne. pose proof (proj1 (dir_blocks _ (Hc d Hx))). pose proof (proj1 (dir_blocks _ (Hc d' Hx'))).
    pose proof (proj1 (dir_blocks _ (Hc FLAG_SBIN ltac:(right; by right)))). pose proof (proj1 (dir_blocks _ (Hc FLAG_BIN ltac:(right; by left)))).
    destruct Hx as [->|[->| ->]], Hx' as [->|[->| ->]]; cbn; try done; lia.
  - rewrite Hcnt. unfold slots. pose proof (count_nonneg FLAG_ROOT ws). change (first_slot FLAG_ROOT) with 2. lia.
Qed.

(** C11. fsformat and the file server: whatever files are asked for, in whatever
    pieces the host delivers them, if they fit then fsformat ends well, and a file
    server that finds the image on its disk mounts it and has the three directories,
    of the sizes and at the blocks that their entries say, and each of the files in
    its directory, under its name and with its contents, in the sense in which the
    theorems on the server speak of files. *)
Theorem fsformat_mounts strtol prog img num s backup local : strtol num = (nblocks, true) → fits → ready s →
  buf_ok backup SB → buf_ok local SB →
  ∃ s', fsformat_main strtol diskmap host true (ents FLAG_ROOT) (ents FLAG_BIN) (ents FLAG_SBIN) (prog :: img :: num :: args) s = Ret 0 s' ∧
    bytes_ok (ff_mem s') ∧ ∀ srv, fresh_server srv → bytes_ok (fs_disk srv) → has_image (ff_mem s') (fs_disk srv) →
      ∃ srv' cnt st recs, fs_init backup local srv = Ret tt srv' ∧ tree srv' cnt st recs ∧
        key <$> recs = reverse (wkey content <$> ws) ∧ (∀ d, cnt d = slots d) ∧
        st FLAG_SBIN = st FLAG_BIN + nb (FILE_SIZE * cnt FLAG_BIN) ∧ st FLAG_ROOT = st FLAG_SBIN + nb (FILE_SIZE * cnt FLAG_SBIN).
Proof using Hnb HD Hheap Hapart. apply mounted_image. Qed.

(** Without files for /bin and /sbin their entries name the block of the root
    directory: the three directories are one. *)
Lemma empty_dirs_are_root strtol prog img num s backup local : strtol num = (nblocks, true) → fits → ready s →
  buf_ok backup SB → buf_ok local SB → count FLAG_BIN ws = 0 → count FLAG_SBIN ws = 0 →
  ∃ s', fsformat_main strtol diskmap host true (ents FLAG_ROOT) (ents FLAG_BIN) (ents FLAG_SBIN) (prog :: img :: num :: args) s = Ret 0 s' ∧
    ∀ srv, fresh_server srv → bytes_ok (fs_disk srv) → has_image (ff_mem s') (fs_disk srv) →
      ∃ srv' root, fs_init backup local srv = Ret tt srv' ∧ fblock srv' (s_root (blk_va 1)) 0 = root ∧
        fblock srv' (blk_va root) 0 = root ∧ fblock srv' (blk_va root + FILE_SIZE) 0 = root.
Proof using Hnb HD Hheap Hapart.
  intros H1 H2 H3 H4 H5 Hb Hs. destruct (mounted_image strtol prog img num s backup local) as (s' & Hrun & _ & H); [done..|].
  exists s'. split; [exact Hrun|]. intros srv Hf Hok Hd. destruct (H srv Hf Hok Hd) as (srv' & cnt & st & recs & Hi & [Tr Tb Ts _ _ _] & _ & Hc & E1 & E2).
  exists srv', (st FLAG_ROOT). split; [exact Hi|].
  rewrite Hc in E1, E2. unfold slots in E1, E2. rewrite Hb in E1. rewrite Hs in E2. change (nb (FILE_SIZE * _)) with 0 in E1, E2.
  assert (∀ d, is_dir d → 1 ≤ nb (dir_size (cnt d)) ≤ 8) as Hn.
  { intros d Hd'. apply nb_dir_size. rewrite Hc. pose proof (ft_slots H2 d Hd'). pose proof (first_slot_nonneg d). pose proof (count_nonneg d ws).
    unfold slots in *. lia. }
  rewrite (dy_blocks _ _ _ _ _ Tr), (dy_blocks _ _ _ _ _ Tb), (dy_blocks _ _ _ _ _ Ts); [split_and!; lia|..].
  - pose proof (Hn FLAG_SBIN ltac:(right; by right)). lia.
  - pose proof (Hn FLAG_BIN ltac:(right; by left)). lia.
  - pose proof (Hn FLAG_ROOT ltac:(by left)). lia.
Qed.
End whole.

(** ** A disk of eight blocks with /x and /bin/y *)
Module FsformatExample.

(** The file of the root directory comes in two pieces. *)
Definition ex_host (name : list Z) : option hfile :=
  if bool_decide (name = [100; 47; 120]) then Some (mkHfile true 5 [Some [104; 105]; Some [33; 33; 10]])
  else if bool_decide (name = [121]) then Some (mkHfile true 3 [Some [1; 2; 255]]) else None.
Definition ex_content (name : list Z) : list Z :=
  if bool_decide (name = [100; 47; 120]) then [104; 105; 33; 33; 10] else [1; 2; 255].
Definition ex_ents (d : Z) : Z := 0x10000 * (d + 1).
Definition ex_args : list (list Z) := [[100; 47; 120]; [45; 98]; [121]].
Definition ex_strtol (_ : list Z) : Z * bool := (8, true).
Definition ex_before : ffst := mkFf ∅ 0 0 0.

Lemma ex_good name : name = [100; 47; 120] ∨ name = [121] → takes ex_host ex_content (FLAG_ROOT, name) ∧ takes ex_host ex_content (FLAG_BIN, name).
Proof.
  assert (∀ n l c, Forall (λ l, l ≠ []) c → concat c = l → bytes_of l → n = Z.of_nat (length l) → n < MAXFILESIZE →
    good_file (mkHfile true n (Some <$> c)) l) as Hg by (intros n l c Hc <- Hb -> Hm; split; eauto).
  intros [-> | ->]; (split; (split; [eexists; split; [reflexivity|]|split; [repeat constructor; lia|done]])).
  1,2: apply (Hg 5 _ [[104; 105]; [33; 33; 10]]); [repeat constructor; done|done|repeat constructor; lia|done|done].
  all: apply (Hg 3 _ [[1; 2; 255]]); [repeat constructor; done|done|repeat constructor; lia|done|done].
Qed.

Lemma ex_fits : fits 8 ex_host ex_content ex_args.
Proof.
  split.
  - constructor; [apply (ex_good [100; 47; 120]); by left|]. constructor; [apply (ex_good [121]); by right|constructor].
  - intros d [->|[->| ->]]; by vm_compute.
  - by vm_compute.
Qed.

Lemma ex_ready : ready ex_before.
Proof. by split. Qed.

Lemma ex_heap d : is_dir d → ex_ents d + DIR_BYTES ≤ 0x100000 ∨ blk 0x100000 8 ≤ ex_ents d.
Proof. intros [->|[->| ->]]; left; by vm_compute. Qed.
Lemma ex_apart d d' : is_dir d → is_dir d' → d ≠ d' → ex_ents d + DIR_BYTES ≤ ex_ents d' ∨ ex_ents d' + DIR_BYTES ≤ ex_ents d.
Proof. unfold ex_ents, DIR_BYTES, MAX_DIR_ENTS, FILE_SIZE. lia. Qed.

(** A server with the image on its disk. *)
Definition ex_server (m : mem) : FsState :=
  mkFs ∅ ∅ ∅ (store_bytes ∅ 0 (load_bytes m 0x100000 (Z.to_nat (8 * BLKSIZE)))) (2 ^ 32) 0 0.

Lemma ex_image m : bytes_ok m → has_image 8 0x100000 m (fs_disk (ex_server m)).
Proof.
  intros Hb o Ho. cbn [ex_server fs_disk]. rewrite ldb_copy by done. rewrite Z2Nat.id by done.
  rewrite decide_True by lia. f_equal. lia.
Qed.

Lemma ex_disk_ok m : bytes_ok (fs_disk (ex_server m)).
Proof. unfold ex_server. cbn [fs_disk]. generalize (load_bytes m 0x100000 (Z.to_nat (8 * BLKSIZE))). intros l. apply bytes_ok_store_bytes. by intros a. Qed.

Lemma server_fresh m : fresh_server (ex_server m).
Proof.
  pose proof (ldn_range 4 _ (BLKSIZE + 4) (ex_disk_ok m)) as H. revert H. unfold ex_server. cbn [fs_disk].
  generalize (load_bytes m 0x100000 (Z.to_nat (8 * BLKSIZE))). intros l H. split; try reflexivity; [by intros a|].
  cbn [fs_disk fs_free_pages]. lia.
Qed.

Lemma fsformat_mounts_witness : ∃ s' srv srv' cnt st recs,
  fsformat_main ex_strtol 0x100000 ex_host true 0x10000 0x20000 0x40000 ([] :: [] :: [56] :: ex_args) ex_before = Ret 0 s' ∧
  has_image 8 0x100000 (ff_mem s') (fs_disk srv) ∧ fs_init 0x1000 0x2000 srv = Ret tt srv' ∧ tree srv' cnt st recs ∧
  key <$> recs = [(FLAG_BIN, [121], [1; 2; 255]); (FLAG_ROOT, [120], [104; 105; 33; 33; 10])].
Proof.
  destruct (fsformat_mounts 8 0x100000 ltac:(lia) ltac:(lia) ex_ents ex_host ex_content ex_args ex_heap ex_apart
    ex_strtol [] [] [56] ex_before 0x1000 0x2000) as (s' & Hrun & Hb & H);
    [done|apply ex_fits|apply ex_ready|by apply FsInitExample.stack_buf|by apply FsInitExample.stack_buf|].
  destruct (H (ex_server (ff_mem s')) (server_fresh _) (ex_disk_ok _) (ex_image _ Hb)) as (srv' & cnt & st & recs & Hi & Ht & Hk & _).
  exists s', (ex_server (ff_mem s')), srv', cnt, st, recs. split; [exact Hrun|]. split; [exact (ex_image _ Hb)|].
  split; [exact Hi|]. split; [exact Ht|]. rewrite Hk. reflexivity.
Defined.

End FsformatExample.
