(* ===== verification/FsformatOpen.v ===== *)
(** * Opening the files of an image

    file_open finds the files that fsformat was asked for by their paths. *)
From stdpp Require Import gmap.
From S2P Require Import Prelude Mem StringC Printfmt KState Bc Fs FsView FsSpec FsIO FsServ FsRW FsRefine FsDir FsInit Fsformat FsformatSpec FsformatRun FsformatImage FsformatMount.

(** A name that a path can spell. *)
Definition name_ok (l : list Z) : Prop := l ≠ [] ∧ Forall (λ c, c ≠ 0 ∧ c ≠ slash) l.

(** The path of a file in one of the three directories. *)
Definition dir_path (d : Z) : list (list Z) :=
  if d =? FLAG_BIN then [[98; 105; 110]] else if d =? FLAG_SBIN then [[115; 98; 105; 110]] else [].
Definition path_to (elems : list (list Z)) : list Z := concat ((λ e, slash :: e) <$> elems).

Lemma split_name e p : name_ok e → (p = [] ∨ ∃ p', p = slash :: p') → split_path (slash :: e ++ p) = e :: split_path p.
Proof.
  intros [Hne Hl] Hp. change (split_path (slash :: e ++ p)) with (split_from [] (e ++ p)).
  assert (∀ cur, cur ++ e ≠ [] → split_from cur (e ++ p) = (cur ++ e) :: split_path p) as H; [|by apply H].
  clear Hne. induction Hl as [|c e [_ Hc] Hl IH]; intros cur Hcur; cbn [app].
  - rewrite app_nil_r in *. destruct Hp as [->|[p' ->]]; cbn [split_from]; [by rewrite bool_decide_false|].
    rewrite Z.eqb_refl. by rewrite bool_decide_false.
  - cbn [split_from]. rewrite (proj2 (Z.eqb_neq _ _)) by done. rewrite IH by (by destruct cur). by rewrite <- app_assoc.
Qed.

Lemma split_path_to elems : Forall name_ok elems → split_path (path_to elems) = elems.
Proof.
  induction 1 as [|e elems He Hl IH]; [done|]. unfold path_to in *. cbn [fmap list_fmap concat app].
  rewrite split_name; [by rewrite IH|done|]. destruct elems as [|e' elems]; [by left|right; by eexists].
Qed.

(** Two NUL-terminated names at one place are one. *)
Lemma matches_same v va a b : Forall (λ c, c ≠ 0) a → Forall (λ c, c ≠ 0) b → matches v va a = true → matches v va b = true → a = b.
Proof.
  intros Ha. revert va b. induction Ha as [|x a Hx Ha IH]; intros va b Hb; destruct Hb as [|y b Hy Hb]; cbn [matches]; [done|..].
  - intros H0%Z.eqb_eq. rewrite H0. by rewrite (proj2 (Z.eqb_neq 0 y)) by done.
  - destruct (v va =? x) eqn:E; [|done]. apply Z.eqb_eq in E. intros _ H0%Z.eqb_eq. congruence.
  - destruct (v va =? x) eqn:E1, (v va =? y) eqn:E2; try done. apply Z.eqb_eq in E1, E2. intros H1 H2.
    rewrite (IH (va + 1) b); [congruence|done..].
Qed.

Lemma listed_matches s f name type : listed s f name type → matches (view s) f name = true.
Proof. intros [H _]. by apply matches_spec. Qed.

Section open.
Context (s : FsState) (cnt st : Z → Z) (recs : list placed) (Hok : fs_ok s) (Ht : tree s cnt st recs).
Context (Hcnt : ∀ d, is_dir d → first_slot d ≤ cnt d ≤ MAX_DIR_ENTS).

(** The names in a directory are different, and the root's are not bin and sbin. *)
Context (Hnames : ∀ r, r ∈ recs → name_ok (pl_name r) ∧ Z.of_nat (length (pl_name r)) < MAXNAMELEN).
Context (Huniq : ∀ r r', r ∈ recs → r' ∈ recs → pl_dir r = pl_dir r' → pl_name r = pl_name r' → r = r').
Context (Hroot : ∀ r, r ∈ recs → pl_dir r = FLAG_ROOT → pl_name r ≠ [98; 105; 110] ∧ pl_name r ≠ [115; 98; 105; 110]).

(** The entry of a directory. *)
Definition dir_entry (d : Z) : Z :=
  if d =? FLAG_ROOT then s_root (blk_va 1) else if d =? FLAG_BIN then blk_va (st FLAG_ROOT) else blk_va (st FLAG_ROOT) + FILE_SIZE.
Definition dir_name (d : Z) : list Z :=
  if d =? FLAG_ROOT then [47] else if d =? FLAG_BIN then [98; 105; 110] else [115; 98; 105; 110].

Lemma tree_directory d : is_dir d → directory s (dir_entry d) (dir_name d) (st d) (cnt d).
Proof using Ht. intros [->|[->| ->]]; apply Ht. Qed.

Lemma cnt_range d : is_dir d → 0 ≤ cnt d ≤ MAX_DIR_ENTS.
Proof using Hcnt. intros Hd. pose proof (Hcnt d Hd). pose proof (first_slot_nonneg d). lia. Qed.

(** A directory with entries, as dir_lookup needs it. *)
Lemma tree_dir_ok d : is_dir d → 0 < cnt d → dir_ok s (dir_entry d) ∧
  dir_blocks_of s (dir_entry d) = nb (FILE_SIZE * cnt d) ∧
  ∀ q, 0 ≤ q < BLKFILES * nb (FILE_SIZE * cnt d) → slot_va s (dir_entry d) q = blk_va (st d) + FILE_SIZE * q.
Proof using Ht Hcnt.
  intros Hd Hpos. destruct (tree_directory d Hd) as [_ Hf Hu Hs Hb]. pose proof (cnt_range d Hd) as Hc. destruct (dir_blocks _ Hc) as [Hb8 Hsz].
  assert (1 ≤ nb (FILE_SIZE * cnt d)) as H1 by (unfold FILE_SIZE, BLKSIZE, PGSIZE in *; lia).
  assert (nb (dir_size (cnt d)) = nb (FILE_SIZE * cnt d)) as Hnd by (unfold dir_size; rewrite nb_blocks; lia).
  assert (dir_blocks_of s (dir_entry d) = nb (FILE_SIZE * cnt d)) as Hdb.
  { unfold dir_blocks_of. rewrite Hs, <- Hnd. unfold dir_size. rewrite nb_blocks. by rewrite Z.div_mul. }
  split_and!; [|done|].
  - split; [done|rewrite Hs; unfold dir_size; by rewrite Z.mod_mul|]. rewrite Hdb. intros i Hi. split.
    + change (NDIRECT + NINDIRECT) with 1034. lia.
    + fold (dir_blocks_of s (dir_entry d)). lia.
    + lia.
    + rewrite Hb by lia. apply Hu. lia.
  - intros q Hq. change BLKFILES with 16 in *. unfold slot_va. change BLKFILES with 16. rewrite Hb by zlia.
    unfold blk_va, FILE_SIZE, BLKSIZE, PGSIZE. zlia.
Qed.

(** The name in a slot. *)
Lemma slot_named d q name : is_dir d → 0 ≤ q < cnt d → Forall (λ c, c ≠ 0) name →
  matches (view s) (blk_va (st d) + FILE_SIZE * q) name = true →
  (d = FLAG_ROOT ∧ (q = 0 ∧ name = [98; 105; 110] ∨ q = 1 ∧ name = [115; 98; 105; 110])) ∨
  ∃ r, r ∈ recs ∧ pl_dir r = d ∧ pl_idx r = q ∧ pl_name r = name.
Proof using Ht Hnames.
  intros Hd Hq Hz Hm. destruct (decide (first_slot d ≤ q)) as [Hf|Hf].
  - right. destruct (tr_cover _ _ _ _ Ht d q Hd ltac:(lia)) as (r & Hr & Hrd & Hri). exists r. split_and!; try done.
    destruct (tr_file _ _ _ _ Ht r Hr) as [Hl _]. unfold entry in Hl. rewrite Hrd, Hri in Hl.
    eapply matches_same; [|exact Hz|by eapply listed_matches|exact Hm].
    destruct (Hnames r Hr) as [[_ H0] _]. eapply Forall_impl; [|exact H0]. by intros c [? _].
  - left. unfold first_slot in Hf. destruct (d =? FLAG_ROOT) eqn:E; [apply Z.eqb_eq in E as ->|lia]. split; [done|].
    assert (q = 0 ∨ q = 1) as [-> | ->] by lia; [left|right]; (split; [done|]); symmetry.
    + rewrite Z.mul_0_r, Z.add_0_r in Hm. eapply (matches_same _ _ [98; 105; 110]); [by repeat constructor|exact Hz| |exact Hm].
      eapply listed_matches, dy_listed, (tr_bin _ _ _ _ Ht).
    + rewrite Z.mul_1_r in Hm. eapply (matches_same _ _ [115; 98; 105; 110]); [by repeat constructor|exact Hz| |exact Hm].
      eapply listed_matches, dy_listed, (tr_sbin _ _ _ _ Ht).
Qed.

Lemma dir_finds d q name : is_dir d → 0 ≤ q < cnt d → matches (view s) (blk_va (st d) + FILE_SIZE * q) name = true →
  (∀ i, 0 ≤ i < q → matches (view s) (blk_va (st d) + FILE_SIZE * i) name = false) →
  dir_find s (dir_entry d) name = Some q ∧ slot_va s (dir_entry d) q = blk_va (st d) + FILE_SIZE * q.
Proof using Ht Hcnt.
  intros Hd Hq Hm Hno. destruct (tree_dir_ok d Hd ltac:(lia)) as (_ & Hdb & Hslot). pose proof (cnt_range d Hd) as Hc. destruct (dir_blocks _ Hc) as [_ Hsz].
  assert (cnt d ≤ BLKFILES * nb (FILE_SIZE * cnt d)) as Hle by (change BLKFILES with 16; unfold FILE_SIZE, BLKSIZE, PGSIZE in *; lia).
  split; [|apply Hslot; lia]. unfold dir_find. apply find_seqZ_some; rewrite ?Hdb.
  - lia.
  - rewrite Hslot by lia. done.
  - intros i Hi. rewrite Hslot by lia. by apply Hno.
Qed.

Lemma finds_file r : r ∈ recs → dir_find s (dir_entry (pl_dir r)) (pl_name r) = Some (pl_idx r) ∧
  slot_va s (dir_entry (pl_dir r)) (pl_idx r) = entry st r.
Proof using All.
  intros Hr. destruct (tr_file _ _ _ _ Ht r Hr) as (Hl & Hd & Hi). pose proof (first_slot_nonneg (pl_dir r)).
  destruct (Hnames r Hr) as [[_ Hz] _]. assert (Forall (λ c, c ≠ 0) (pl_name r)) as Hz' by (eapply Forall_impl; [|exact Hz]; by intros c [? _]).
  apply dir_finds; [done|lia|by eapply listed_matches|]. intros i Hlt. apply not_true_iff_false. intros Hm.
  destruct (slot_named _ i _ Hd ltac:(lia) Hz' Hm) as [[Hrt [[_ Hn]|[_ Hn]]]|(r' & Hr' & Hd' & Hi' & Hn)].
  - by apply (proj1 (Hroot r Hr Hrt)).
  - by apply (proj2 (Hroot r Hr Hrt)).
  - assert (r' = r) by (by apply Huniq). subst. lia.
Qed.

(** /bin and /sbin. *)
Lemma finds_dir d : is_dir d → d ≠ FLAG_ROOT → ∃ q, dir_find s (dir_entry FLAG_ROOT) (dir_name d) = Some q ∧
  slot_va s (dir_entry FLAG_ROOT) q = dir_entry d.
Proof using All.
  intros Hd Hne. pose proof (Hcnt FLAG_ROOT ltac:(by left)) as Hc. change (first_slot FLAG_ROOT) with 2 in Hc.
  destruct Hd as [->|[->| ->]]; [done|exists 0|exists 1].
  - destruct (dir_finds FLAG_ROOT 0 [98; 105; 110]) as [H1 H2]; [by left|lia| |lia|].
    + rewrite Z.mul_0_r, Z.add_0_r. eapply listed_matches, dy_listed, (tr_bin _ _ _ _ Ht).
    + split; [done|]. by rewrite H2, Z.mul_0_r, Z.add_0_r.
  - destruct (dir_finds FLAG_ROOT 1 [115; 98; 105; 110]) as [H1 H2]; [by left|lia| | |].
    + rewrite Z.mul_1_r. eapply listed_matches, dy_listed, (tr_sbin _ _ _ _ Ht).
    + intros i Hi. assert (i = 0) as -> by lia. apply not_true_iff_false. intros Hm.
      destruct (slot_named FLAG_ROOT 0 [115; 98; 105; 110] ltac:(by left) ltac:(lia) ltac:(by repeat constructor) Hm)
        as [[_ [[_ Hn]|[Hn _]]]|(r' & Hr' & Hd' & Hi' & Hn)]; [done|done|].
      by apply (proj2 (Hroot r' Hr' Hd')).
    + split; [done|]. by rewrite H2, Z.mul_1_r.
Qed.

Lemma dir_type d : is_dir d → vld32 (view s) (f_type (dir_entry d)) = FTYPE_DIR.
Proof using Ht. intros Hd. apply (li_type _ _ _ _ (dy_listed _ _ _ _ _ (tree_directory d Hd))). Qed.

(** The path of a file leads to its entry. *)
Definition file_path (r : placed) : list (list Z) := dir_path (pl_dir r) ++ [pl_name r].
Lemma split_file_path r : r ∈ recs → split_path (path_to (file_path r)) = file_path r.
Proof using Ht Hnames.
  intros Hr. destruct (tr_file _ _ _ _ Ht r Hr) as (_ & Hd & _). destruct (Hnames r Hr) as [Hnm _].
  apply split_path_to, Forall_app. split; [|constructor; [done|constructor]].
  destruct Hd as [Hx|[Hx|Hx]]; rewrite Hx; cbn; by repeat constructor.
Qed.

Lemma tree_walks r : r ∈ recs → ∃ dd, resolve s 0 (s_root (blk_va 1)) (file_path r) = mkWalked 0 dd (entry st r) [] ∧
  walk_ok s (s_root (blk_va 1)) (file_path r).
Proof using All.
  intros Hr. destruct (tr_file _ _ _ _ Ht r Hr) as (_ & Hd & Hi). pose proof (first_slot_nonneg (pl_dir r)).
  destruct (Hnames r Hr) as [Hnm Hlen]. destruct (finds_file r Hr) as [Hfind Hslot].
  assert (is_dir FLAG_ROOT) as D0 by by left. pose proof (Hcnt FLAG_ROOT D0) as Hc0. change (first_slot FLAG_ROOT) with 2 in Hc0.
  destruct (tree_dir_ok FLAG_ROOT D0 ltac:(lia)) as [Hrootdir _]. destruct (tree_dir_ok (pl_dir r) Hd ltac:(lia)) as [Hdir _].
  unfold file_path.
  assert (∀ f e rest d0 q, vld32 (view s) (f_type f) = FTYPE_DIR → Z.of_nat (length e) < MAXNAMELEN → dir_find s f e = Some q →
    resolve s d0 f (e :: rest) = resolve s f (slot_va s f q) rest) as Hstep.
  { intros f e rest d0 q Hty Hle Hfi. cbn [resolve]. rewrite (proj2 (Z.leb_gt _ _)), Hty, Hfi by done. done. }
  assert (∀ f e rest q, vld32 (view s) (f_type f) = FTYPE_DIR → dir_ok s f → dir_find s f e = Some q →
    walk_ok s (slot_va s f q) rest → walk_ok s f (e :: rest)) as Hwalk.
  { intros f e rest q Hty Hdo Hfi Hrest. cbn [walk_ok]. split; [apply Hdo|]. intros _. split; [done|]. by rewrite Hfi. }
  change (s_root (blk_va 1)) with (dir_entry FLAG_ROOT). destruct (decide (pl_dir r = FLAG_ROOT)) as [Hd0|Hne].
  - rewrite Hd0 in *. cbn [dir_path app Z.eqb FLAG_ROOT FLAG_BIN FLAG_SBIN]. eexists. split.
    + rewrite (Hstep _ _ _ _ (pl_idx r)); [|by apply dir_type|done|done]. by rewrite Hslot.
    + apply (Hwalk _ _ _ (pl_idx r)); [by apply dir_type|done|done|done].
  - destruct (finds_dir (pl_dir r) Hd Hne) as (q & Hq & Hqs).
    assert (dir_path (pl_dir r) = [dir_name (pl_dir r)] ∧ Z.of_nat (length (dir_name (pl_dir r))) < MAXNAMELEN) as [Hdp Hdl]
      by (destruct Hd as [Hx|[Hx|Hx]]; rewrite Hx in *; done).
    rewrite Hdp. cbn [app]. eexists. split.
    + rewrite (Hstep _ _ _ _ q) by (done || by apply dir_type). rewrite Hqs.
      rewrite (Hstep _ _ _ _ (pl_idx r)) by (done || by apply dir_type). by rewrite Hslot.
    + apply (Hwalk _ _ _ q); [by apply dir_type|done|done|]. rewrite Hqs. apply (Hwalk _ _ _ (pl_idx r)); [by apply dir_type|done..].
Qed.

(** Opening a file by its path. *)
Lemma tree_opens r : r ∈ recs → ∃ s', file_open (path_to (file_path r)) s = Ret (0, entry st r) s' ∧ seen s s'.
Proof using All.
  intros Hr. destruct (tree_walks r Hr) as (dd & Hres & Hwk). pose proof (split_file_path r Hr) as Hsp.
  destruct (walk_path_ok s (path_to (file_path r)) Hok) as (s' & Hrun & Hs); [by rewrite Hsp|]. rewrite Hsp, Hres in Hrun.
  exists s'. split; [|done]. unfold file_open. by rewrite (run_bind _ _ _ _ _ Hrun).
Qed.
End open.

(** ** From fsformat to open *)
Section whole.
Context (nblocks diskmap : Z) (Hnb : 3 < nblocks ≤ 10240) (HD : 0 ≤ diskmap).
Context (ents : Z → Z) (host : list Z → option hfile) (content : list Z → list Z) (args : list (list Z)).
Notation ws := (wanted FLAG_ROOT args).
Context (Hheap : ∀ d, is_dir d → ents d + DIR_BYTES ≤ diskmap ∨ blk diskmap nblocks ≤ ents d).
Context (Hapart : ∀ d d', is_dir d → is_dir d' → d ≠ d' → ents d + DIR_BYTES ≤ ents d' ∨ ents d' + DIR_BYTES ≤ ents d).

(** Names that paths can spell, no two alike in a directory. *)
Record names_ok : Prop := {
  no_spell w : w ∈ ws → name_ok (base_name w.2);
  no_dup : NoDup ((λ w, (w.1, base_name w.2)) <$> ws);
  no_root w : w ∈ ws → w.1 = FLAG_ROOT → base_name w.2 ≠ [98; 105; 110] ∧ base_name w.2 ≠ [115; 98; 105; 110] }.

Lemma NoDup_fmap_eq {A B} (f : A → B) l x y : NoDup (f <$> l) → x ∈ l → y ∈ l → f x = f y → x = y.
Proof.
  intros Hnd [i Hi]%list_elem_of_lookup [j Hj]%list_elem_of_lookup He.
  assert (i = j) as ->; [|congruence]. eapply NoDup_lookup; [exact Hnd|rewrite list_lookup_fmap, Hi; reflexivity|rewrite list_lookup_fmap, Hj; cbn; congruence].
Qed.

Lemma recs_wanted recs : key <$> recs = reverse (wkey content <$> ws) →
  (∀ r, r ∈ recs → ∃ w, w ∈ ws ∧ key r = wkey content w) ∧ (∀ w, w ∈ ws → ∃ r, r ∈ recs ∧ key r = wkey content w).
Proof.
  intros Hk. split.
  - intros r Hr. assert (key r ∈ reverse (wkey content <$> ws)) as Hin by (rewrite <- Hk; by apply list_elem_of_fmap_2).
    rewrite elem_of_reverse in Hin. apply list_elem_of_fmap in Hin as (w & Hw & Hin). eauto.
  - intros w Hw. assert (wkey content w ∈ key <$> recs) as Hin by (rewrite Hk, elem_of_reverse; by apply list_elem_of_fmap_2).
    apply list_elem_of_fmap in Hin as (r & Hr & Hin). eauto.
Qed.

Lemma recs_unique recs : names_ok → key <$> recs = reverse (wkey content <$> ws) →
  ∀ r r', r ∈ recs → r' ∈ recs → pl_dir r = pl_dir r' → pl_name r = pl_name r' → r = r'.
Proof.
  intros [_ Hnd _] Hk r r' Hr Hr' Hd Hn. apply (NoDup_fmap_eq (λ r, (pl_dir r, pl_name r)) recs); [|done|done|congruence].
  assert ((λ r, (pl_dir r, pl_name r)) <$> recs = fst <$> (key <$> recs)) as -> by (rewrite <- list_fmap_compose; done).
  rewrite Hk, fmap_reverse. rewrite reverse_Permutation. rewrite <- list_fmap_compose. exact Hnd.
Qed.

(** What opening asks of the tree. *)
Lemma wanted_named cnt recs : fits nblocks host content args → names_ok → key <$> recs = reverse (wkey content <$> ws) →
  (∀ d, cnt d = slots args d) →
  (∀ d, is_dir d → first_slot d ≤ cnt d ≤ MAX_DIR_ENTS) ∧
  (∀ r, r ∈ recs → name_ok (pl_name r) ∧ Z.of_nat (length (pl_name r)) < MAXNAMELEN) ∧
  (∀ r, r ∈ recs → pl_dir r = FLAG_ROOT → pl_name r ≠ [98; 105; 110] ∧ pl_name r ≠ [115; 98; 105; 110]).
Proof.
  intros Hfit Hnames Hkey Hcnt. destruct (recs_wanted recs Hkey) as [Hrw _]. split_and!.
  - intros d Hd. rewrite Hcnt. pose proof (ft_slots _ _ _ _ Hfit d Hd). pose proof (count_nonneg d ws). unfold slots in *. lia.
  - intros q Hq. destruct (Hrw q Hq) as (w' & Hw' & Hkq). injection Hkq as _ Hn _. rewrite Hn. split; [by apply (no_spell Hnames)|].
    pose proof (ft_takes _ _ _ _ Hfit) as Htk. rewrite List.Forall_forall in Htk. by apply Htk, list_elem_of_In.
  - intros q Hq Hd. destruct (Hrw q Hq) as (w' & Hw' & Hkq). injection Hkq as Hd' Hn _. rewrite Hn. apply (no_root Hnames); [done|congruence].
Qed.

Lemma seen_contents s s' f : seen s s' → contents s' f = contents s f.
Proof.
  intros H. unfold contents, fsize. rewrite (seen_vld s s') by done. apply list_fmap_ext. intros i p _.
  unfold fbyte. rewrite (seen_fblock s s') by done. by apply seen_view.
Qed.

(** C10. What was given to fsformat is what is opened, on a host whose calls succeed
    and whatever the memory that malloc gives holds: when the files fit and their
    names are different, each of them is found, on the server that mounted the
    image, under its path (/name, /bin/name or /sbin/name), and the file opened
    has its contents. *)
Theorem fsformat_opens strtol prog img num s backup local : strtol num = (nblocks, true) →
  fits nblocks host content args → names_ok → ready s → buf_ok backup SB → buf_ok local SB →
  ∃ s', fsformat_main strtol diskmap host true (ents FLAG_ROOT) (ents FLAG_BIN) (ents FLAG_SBIN) (prog :: img :: num :: args) s = Ret 0 s' ∧
    bytes_ok (ff_mem s') ∧ ∀ srv, fresh_server srv → bytes_ok (fs_disk srv) → has_image nblocks diskmap (ff_mem s') (fs_disk srv) →
      ∃ srv', fs_init backup local srv = Ret tt srv' ∧ ∀ w, w ∈ ws →
        ∃ f srv'', file_open (path_to (dir_path w.1 ++ [base_name w.2])) srv' = Ret (0, f) srv'' ∧
          seen srv' srv'' ∧ contents srv'' f = content w.2.
Proof using Hnb HD Hheap Hapart.
  intros Hstr Hfit Hnames Hrd Hbk Hlc.
  destruct (mounted_image nblocks diskmap Hnb HD ents host content args Hheap Hapart strtol prog img num s backup local)
    as (s' & Hrun & Hb & Hsrv); [done..|].
  exists s'. split; [exact Hrun|]. split; [exact Hb|]. intros srv Hfr Hbd Him.
  destruct (Hsrv srv Hfr Hbd Him) as (srv' & cnt & st & recs & Hi & Ht & Hkey & Hcnt & _). exists srv'. split; [exact Hi|].
  destruct (recs_wanted recs Hkey) as [_ Hwr]. intros w Hw. destruct (Hwr w Hw) as (r & Hr & Hkr).
  pose proof (rf_ok _ _ (tr_repr _ _ _ _ Ht)) as Hok.
  destruct (wanted_named cnt recs Hfit Hnames Hkey Hcnt) as (C1 & C2 & C3).
  destruct (tree_opens srv' cnt st recs Hok Ht C1 C2 (recs_unique recs Hnames Hkey) C3 r Hr) as (srv'' & Hopen & Hseen).
  injection Hkr as Hd Hn Hdata. unfold file_path in Hopen. rewrite Hd, Hn in Hopen. exists (entry st r), srv''. split; [exact Hopen|]. split; [done|].
  rewrite (seen_contents srv' srv'') by done. rewrite <- Hdata.
  apply (rf_file _ _ (tr_repr _ _ _ _ Ht)). unfold file_map. apply elem_of_list_to_map_1.
  - rewrite <- list_fmap_compose. apply (tr_distinct _ _ _ _ Ht).
  - apply list_elem_of_fmap. by exists r.
Qed.
End whole.

(** ** The disk of [FsformatExample]: /x and /bin/y *)
Module OpenExample.
Import FsformatExample.

Lemma ex_names : names_ok ex_args.
Proof.
  split.
  - intros w Hw. repeat (apply elem_of_cons in Hw as [->|Hw]; [by vm_compute; repeat constructor|]). by apply elem_of_nil in Hw.
  - apply (bool_decide_unpack _). by vm_compute.
  - intros w Hw. repeat (apply elem_of_cons in Hw as [->|Hw]; [done|]). by apply elem_of_nil in Hw.
Qed.

Lemma fsformat_opens_witness : ∃ s' srv srv' f srv'',
  fsformat_main ex_strtol 0x100000 ex_host true 0x10000 0x20000 0x40000 ([] :: [] :: [56] :: ex_args) ex_before = Ret 0 s' ∧
  has_image 8 0x100000 (ff_mem s') (fs_disk srv) ∧ fs_init 0x1000 0x2000 srv = Ret tt srv' ∧
  file_open [47; 98; 105; 110; 47; 121] srv' = Ret (0, f) srv'' ∧ contents srv'' f = [1; 2; 255].
Proof.
  destruct (fsformat_opens 8 0x100000 ltac:(lia) ltac:(lia) ex_ents ex_host ex_content ex_args ex_heap ex_apart
    ex_strtol [] [] [56] ex_before 0x1000 0x2000) as (s' & Hrun & Hb & H);
    [done|apply ex_fits|apply ex_names|apply ex_ready|by apply FsInitExample.stack_buf|by apply FsInitExample.stack_buf|].
  destruct (H (ex_server (ff_mem s')) (server_fresh _) (ex_disk_ok _) (ex_image _ Hb)) as (srv' & Hi & Hw).
  destruct (Hw (FLAG_BIN, [121])) as (f & srv'' & Ho & _ & Hc); [apply elem_of_cons; right; by apply list_elem_of_singleton|].
  exists s', (ex_server (ff_mem s')), srv', f, srv''. split; [exact Hrun|]. split; [exact (ex_image _ Hb)|].
  split; [exact Hi|]. split; [exact Ho|exact Hc].
Defined.

(** The walk to /bin/y. *)
Lemma walk_path_correct_witness : ∃ s f dd s', walk_path [47; 98; 105; 110; 47; 121] s = Ret (mkWalked 0 dd f []) s' ∧ contents s f = [1; 2; 255].
Proof.
  destruct (mounted_image 8 0x100000 ltac:(lia) ltac:(lia) ex_ents ex_host ex_content ex_args ex_heap ex_apart
    ex_strtol [] [] [56] ex_before 0x1000 0x2000) as (s' & _ & Hb & H);
    [done|apply ex_fits|apply ex_ready|by apply FsInitExample.stack_buf|by apply FsInitExample.stack_buf|].
  destruct (H (ex_server (ff_mem s')) (server_fresh _) (ex_disk_ok _) (ex_image _ Hb)) as (srv & cnt & st & recs & _ & Ht & Hkey & Hcnt & _).
  destruct (wanted_named 8 ex_host ex_content ex_args cnt recs ex_fits ex_names Hkey Hcnt) as (C1 & C2 & C3).
  destruct (recs_wanted ex_content ex_args recs Hkey) as [_ Hwr].
  destruct (Hwr (FLAG_BIN, [121])) as (r & Hr & Hkr); [apply elem_of_cons; right; by apply list_elem_of_singleton|].
  pose proof (rf_ok _ _ (tr_repr _ _ _ _ Ht)) as Hok. pose proof (recs_unique ex_content ex_args recs ex_names Hkey) as C4.
  destruct (tree_walks srv cnt st recs Hok Ht C1 C2 C4 C3 r Hr) as (dd & Hres & Hwk).
  pose proof (split_file_path srv cnt st recs Ht C2 r Hr) as Hsp. injection Hkr as Hd Hn Hdata.
  destruct (walk_path_correct srv (path_to (file_path r)) Hok) as (s'' & Hrun & _); [by rewrite Hsp|].
  rewrite Hsp, Hres in Hrun. unfold file_path in Hrun. rewrite Hd, Hn in Hrun.
  exists srv, (entry st r), dd, s''. split; [exact Hrun|].
  transitivity (pl_data r); [|exact Hdata].
  apply (rf_file _ _ (tr_repr _ _ _ _ Ht)). unfold file_map. apply elem_of_list_to_map_1.
  - rewrite <- list_fmap_compose. apply (tr_distinct _ _ _ _ Ht).
  - apply list_elem_of_fmap. by exists r.
Defined.
End OpenExample.
